(* ===== verification/_CoqProject ===== *)
-Q . S2P
Prelude.v
Unicode.v
Utf16le.v
Packet.v
Netbios.v
Conn.v
ConnSteps.v
Trans2.v
Transaction.v
FileOps.v
Setup.v
Rap.v
PathOps.v
Client.v
File.v
Errors.v
Match.v
Pool.v
Dcerpc.v
Listing.v
Paths.v
Transfer.v
PipeServer.v
Pipe.v
FileInfo.v
PublicFile.v
Share.v
Trees.v
FileTree.v
ShareServer.v
PipeShare.v
TreeSpec.v
GlobSpec.v
FileSpec.v
FsInfo.v
DirFS.v
Buffers.v
Crypto.v
Ntlm.v
NtlmAuth.v
NtlmSpec.v
Spnego.v
Initiator.v
NtlmSafe.v
LocalCopy.v
Sessions.v
