(* ===== verification/Prelude.v ===== *)
(** * A verification library for the SMB1 client

    The program is a client of the SMB1 file-sharing protocol, in layers.  From
    the wire up: NetBIOS framing over TCP ([internal/netbios]); SMB1 headers,
    packets and the messages of each command ([internal/smb1]); the connection
    that many requests share, with its message IDs, receive loop and teardown,
    and the sessions, shares and files above it ([internal/client]); and the
    public API in the root package.  This library models all of them; each
    definition is a translation of the Go code it names and can be run.

    ** The files

    - [Prelude] (this file): bytes, Go errors, the result of a Go call ([res]: a
      value, an error or a run-time panic), slices, indexing and little-endian
      integers with their panics, and the lemmas and tactics on them.
    - [Unicode]: Go's conversions between strings and runes, UTF-16 surrogates.
    - [Utf16le] ([internal/utf16le]): UTF-16LE text.
    - [Packet] ([packet.go], [encoder.go], [constants.go]): headers and packets.
    - [Netbios] ([netbios/session.go]): a session's stream, reading and writing
      messages, deadlines.
    - [Conn] ([client/conn.go]): the state of a connection (record [Conn]: the
      pending map, the response channels as objects of a heap, the error, whether
      the socket is open) and one definition per critical section.
    - [ConnSteps]: the goroutines of a connection interleaved, as a step relation
      over [Conn] together with what the server owes.
    - [Transaction] ([client/conn.go]): waiting for one reply; reassembling a
      transaction's reply.
    - [Trans2], [FileOps], [Setup], [Rap], [PathOps] ([internal/smb1]): the request
      encoders and response decoders of TRANS2, of file operations, of
      negotiation, session setup and tree connect, of TRANSACTION and RAP, and of
      the operations on paths.
    - [Client] ([client/negotiate.go], [client/session.go]): negotiation, logging
      on, shares, and the requests on a share, against the class [Transport],
      which the connection of [Transaction] implements (instance [wire_transport],
      laws [wire_laws]).
    - [File] ([client/file.go]): open files: reads and writes at a position in
      chunks, information, the position; and a file server to compare with.
    - [Errors] ([errors.go], error mapping of [session.go]): the error types of the
      public API, its predicates, and the shape errors are given on their way out.
    - [Match] ([match.go]): shell patterns.
    - [Pool] ([pool.go]): the connection pool, as critical sections over a record
      and as a step relation of goroutines: the passes of [Get] ([pass]), what
      happens between them ([act]), handles closed again ([reclose]); the runs
      without the last are those of [orderly].
    - [Dcerpc] ([internal/dcerpc], [internal/srvsvc]): NDR, the units of a remote
      procedure call, NetShareEnumAll.
    - [Listing] ([client/file.go], [session.go]): directory searches and pages.
    - [Paths] ([session.go]): normalizing and validating paths, mount paths.
    - [Transfer] ([client/file.go]): pipelined reads and writes, against the class
      [Pipeline]; [PipeServer]: a file server that answers in any order.
    - [Pipe] ([client/file.go], [client/session.go], [session.go]): named pipes,
      remote procedure calls, the list of shares.
    - [FileInfo] ([fileinfo.go], [setinfo.go], [compat.go]): modes, times,
      attributes, capabilities.
    - [PublicFile] ([file.go]): the [File] of the public API; [copyStream] and
      [readAll] over any reader and writer (classes [Reader], [Writer],
      [LimitedWriter]).
    - [Share], [Trees] ([session.go]): the methods of a mounted share; the
      recursions [MkdirAll], [RemoveAll], [Walk], [Glob].
    - [FileTree]: abstract trees of directories and files, and the class
      [TreeServer] (laws [TreeLaws]): what the recursions need of a share on a
      server of a tree.  [ShareServer]: such a server, answering the bytes of
      requests as they come (the replies of a pipelined transfer wait for the
      client), and the proof that [Share] on it meets the class.  [PipeShare]:
      pipelined reads and writes on that server.
    - [TreeSpec], [GlobSpec], [FileSpec]: what the operations on trees, patterns
      and whole files come to, on any such server.
    - [FsInfo] ([fsinfo.go], [servertime.go]): volume sizes and identity.
    - [DirFS] ([dirfs.go]): a share as an [io/fs] file system.
    - [LocalCopy] ([session.go]): copies from and to local files, on any machine
      whose files behave like files (class [LocalDisk]).  [Sessions]: mounting,
      unmounting, logging off.
    - [Buffers]: reading and writing anywhere in a buffer, as total functions.
    - [Crypto]: MD5, HMAC, RC4 and CRC-32, executable, with published vectors.
    - [Ntlm] ([ntlm/ntlm.go], [ntlm/session.go]): the keys of a session, signing and
      sealing, target information.  [NtlmAuth] ([ntlm/client.go],
      [ntlm/server.go]): both sides of the logon.  [NtlmSpec], [NtlmSafe]: what
      they come to together, and what no challenge can do to the client.
    - [Spnego] ([spnego.go]): DER, the tokens of a negotiation, and a reader of DER
      to compare with.
    - [Initiator] ([initiator.go], [dialer.go]): [NTLMInitiator], which is the
      [Initiator] that [NewSession] of [Client] asks for, and [DialContext].

    The client calls a message encoder, hands header, parameters and data to the
    connection ([sendRecv], [sendRecvTransaction]), which allocates a MID, encodes
    the packet ([EncodePacket]) and writes it as a NetBIOS message; the receive
    loop reads messages, decodes the packets and hands each to the channel of the
    request holding its MID, where the sender waits.  [DialContext] starts it all:
    [Negotiate], then [NewSession], whose two rounds carry the messages of the
    initiator, NTLM in SPNEGO tokens.

    ** What is shown

    - Correlation ([ConnSteps], [Conn]): replies reach the request they answer in
      every interleaving, also when requests are abandoned and MIDs reused; a MID
      the server owes a reply on is not given out; no channel operation panics;
      teardown is final; MID allocation is complete.
    - Reassembly ([Transaction]): a fragmented reply comes out whole; the loop
      ends whatever the server sends.
    - Wire formats ([Packet], [Netbios], [Trans2], [FileOps], [Setup], [Rap],
      [PathOps], [Utf16le]): round trips; for requests, that a server reading the
      encoded packet at the offsets its fields hold finds the caller's names and
      data, aligned as the protocol has it; for responses, that what is decoded
      are the bytes the server's offsets point at.  Most are stated of the whole
      encoded packet, so that they compose an encoder with [EncodePacket].
    - Robustness: no message makes a decoder of SMB1, of RPC units or of share
      listings panic or loop ([decoders_total] in [Pipe]; a challenge can make that
      of NTLM panic); no read blocks on a payload without a deadline ([Netbios]).
    - Logging on ([NtlmSpec], [NtlmSafe], [Ntlm], [Initiator]): a client with an
      account's password or hash and the server agree on response, integrity code
      and keys; what one end then signs the other accepts; a challenge makes the
      client panic in two ways only; dialing sends the tokens of that exchange and
      returns the session, or refuses a guest and closes the connection.
    - Sessions ([Client], [Sessions]): what negotiation accepts; which requests
      logging on sends and when it refuses a guest; the registry of shares; the
      addressing of requests; the fallback of setting attributes.
    - Transfers ([File], [PipeServer], [Transfer]): reads and writes, sequential
      and pipelined, against a file server that may serve any part of each request
      and in any order: the bytes read are those of the file, a write changes it
      by exactly what its count says; no request is left registered.
    - Whole files ([PublicFile], [PipeShare], [FileSpec], [LocalCopy]): a copy
      delivers what its reader has; [readAll] ends; what is written is what is read
      back; the copy of a file is the file; what is uploaded is what is downloaded
      again.  This holds on any connection, pipelined or not, from a server that
      gives any part of what a read asks for and takes what it is sent; when it
      takes a part only, the file has a prefix of the data if each request waited
      for the reply to the one before, and what is confirmed if not ([PipeServer]).
    - Trees ([TreeSpec], [GlobSpec], [Listing]): [MkdirAll] makes the missing
      directories when no file is in the way, [RemoveAll] removes the subtree and nothing else, [Walk] visits
      every entry once, parents first, [Glob] finds the paths that match, a listing
      is the directory whatever the pages of the server.
    - Names ([Paths], [DirFS], [Match]): accepted paths stay below the share's
      root; the matcher decides the grammar it documents, for ASCII names, unless a
      class that contains the separator meets a name with separators.
    - The pool ([Pool]): [MaxIdle] holds whatever the callers do.  When each handle
      is closed once, a session is held by one caller at a time, [MaxActive] holds,
      and a returned session wakes a waiter that no other [Get] comes before.
    - Remote procedure calls ([Dcerpc], [Pipe]): what a server encodes of its
      shares is what [ListSharenames] returns (with an array pointer that is null
      exactly when there are none, and a total below 65536).
    - Errors ([Errors]): what mapping keeps of the classification of an error, and
      what it loses.  Volumes ([FsInfo]): the sizes reported are the server's.
    - Defects: a connection torn down by an error keeps its socket; a guest logon
      in the first round is not refused; strings of session setup and tree connect
      replies are looked for at misaligned offsets; warning statuses are lost; the
      name length of an open request is wrong for names that are not ASCII; a tiny
      negotiated buffer does not limit transfers; the byte count of a write reply is
      believed; dead sessions can fill the pool, a handle closed twice is shared by
      two callers, one of two waiters may not be woken; a waiter panics when [Close]
      finds its queue full; copying a file onto itself empties
      it; [DirFS] accepts a last element of two dots and a space, which leads out of
      its root; times before 1970 are lost and late ones misread; the integrity
      code of a logon covers a changed challenge when the server sent flags;
      short flags or a wrapping field make the client panic; sealing uses the wrong
      ciphers; and others, in the comments of the files.

    ** Fuel, bounds, and what is assumed

    Loops over bytes are recursive on the number of bytes left to look at, one
    more than the length of the data ([parse_entries], [utf16_end], [ascii_end]),
    on a counter of the code, or on the bytes still to transfer ([ReadAt_loop],
    [writeSequential_loop], whose passes each move at least one); running out is
    [Panic], so that absence of panics includes termination.  The matcher's loops
    have the length of the pattern or name as fuel, [Glob]'s the length of the
    pattern and one more.  Where a server decides how long a loop runs (searches,
    [RemoveAll], [Walk], [copyStream], [readAll], [Get]) fuel is an argument, and
    the theorems say how much is enough for a given tree, file or pool.  The
    search for a MID takes one step per 16-bit number.  Integers are [Z], wrapped where the code converts ([wrap]) and as
    wide as their fields when stored ([le_put]).  [int] is 64 bits wide in Go and
    is not wrapped: the lengths involved are below [MaxDataSize].

    The environment is explicit: what a [select] picks, when a context ends or a
    write fails are arguments; the interleavings of [ConnSteps] leave the server
    free except that it answers only requests it was sent, a one-message request
    at most once.  [strings.ToUpper], MD4, the random bytes, the clock and the
    decoder of BER are parameters; the connection [DialContext] makes from its
    socket is the state it is given.  The theorems on logging on hold for any
    functions in the place of the first two, any random bytes and any time.

    ** What is not modelled

    Logging, addresses and the [String] methods; [net.Conn] beyond its stream of
    bytes; [WithContext], as the context is part of a connection's state; what a
    [PooledSession] forwards to its session; [Glob] of [dirfs.go], which is the
    standard library's [fs.Glob]; the generated table of status names, and constants
    nothing reads; the examples. *)

From Stdlib Require Export ZArith Lia.
From Stdlib Require Import Strings.Byte.
From stdpp Require Export base decidable countable numbers option list strings list_basics list_monad.
#[global] Open Scope Z_scope.

(** ** Bytes *)

Abbreviation byte := Byte.byte.
(** A Go [[]byte], and a Go [string]: both are byte sequences. *)
Abbreviation bytes := (list byte).

#[export] Instance byte_eq_dec : EqDecision byte := Byte.byte_eq_dec.
#[export] Instance byte_countable : Countable byte := inj_countable Byte.to_N Byte.of_N Byte.of_to_N.

(** [uint8] of a byte, and the truncating conversion [byte(z)]. *)
Definition u8 (b : byte) : Z := Z.of_N (Byte.to_N b).
Definition byte_of (z : Z) : byte :=
  match Byte.of_N (Z.to_N (z mod 256)) with Some b => b | None => Byte.x00 end.

(** A Go string literal. *)
Definition str (s : string) : bytes := String.list_byte_of_string s.

(** Reinterpreting a 16- or 32-bit value, and truncating to a width. *)
Definition wrap (w : Z) (z : Z) : Z := z mod 2 ^ w.
Definition int16 (z : Z) : Z := if z <? 2 ^ 15 then z else z - 2 ^ 16.

Definition len {A} (l : list A) : Z := Z.of_nat (length l).

(** ** Errors

    A Go [error]: [errors.New]/[fmt.Errorf] with its format string, an error
    that wraps one or two others with the percent-w verb, an NT status code
    ([erref.NtStatus]), the error types of the root package ([errors.go]) and
    those of the standard library it meets ([os.PathError], [os.LinkError],
    [net.OpError], [syscall.Errno] by its name).  Sentinel errors of the code
    base have distinct texts, so comparing texts is comparing identities. *)
Inductive error :=
  | Errorf (fmt : string)
  | Wrapf (fmt : string) (e : error)
  | Wrapf2 (fmt : string) (e1 e2 : error)
  | NtStatus (code : Z)
  | ResponseError (Code : Z)
  | SMBError (Status Command : Z) (Message : string)
  | InvalidResponseError (Message : string)
  | InternalError (Message : string)
  | ConnectionError (Op : string) (Err : error)
  | TransportError (Err : error)
  | ContextError (Err : error)
  | AuthenticationError (User Domain : bytes) (Reason : string) (Err : error)
  | PathError (Op : string) (Path : bytes) (Err : error)
  | LinkError (Op : string) (Old New : bytes) (Err : error)
  | OpError (Op : string) (Err : error)
  | Errno (name : string).

#[export] Instance error_eq_dec : EqDecision error.
Proof. solve_decision. Defined.

(** [errors.Is(e, target)], for a sentinel or a status code as [target].
    ([syscall.Errno] has an [Is] of its own: [errno_is].) *)
Definition ErrNotExist : error := Errorf "file does not exist".
Definition ErrPermission : error := Errorf "permission denied".
Definition ErrExist : error := Errorf "file already exists".
Definition errno_is (name : string) (target : error) : bool :=
  (bool_decide (target = ErrPermission) && bool_decide (name ∈ ["EACCES"; "EPERM"]%string))
  || (bool_decide (target = ErrExist) && bool_decide (name ∈ ["EEXIST"; "ENOTEMPTY"]%string))
  || (bool_decide (target = ErrNotExist) && bool_decide (name = "ENOENT"%string)).

Fixpoint is_err (e target : error) : bool :=
  bool_decide (e = target) ||
  match e with
  | Wrapf _ e' | ConnectionError _ e' | TransportError e' | ContextError e'
  | AuthenticationError _ _ _ e' | PathError _ _ e' | LinkError _ _ _ e' | OpError _ e' =>
    is_err e' target
  | Wrapf2 _ e1 e2 => is_err e1 target || is_err e2 target
  | Errno name => errno_is name target
  | _ => false
  end.

(** ** Results

    The outcome of a Go call that returns [(A, error)]: a value, an error, or a
    run-time panic (an index or slice out of range, a negative [make]). *)
Inductive res (A : Type) : Type :=
  | Ok (a : A)
  | Err (e : error)
  | Panic.
Arguments Ok {A} a.
Arguments Err {A} e.
Arguments Panic {A}.

Definition bind {A B} (m : res A) (f : A -> res B) : res B :=
  match m with Ok a => f a | Err e => Err e | Panic => Panic end.

Declare Scope go_scope.
Delimit Scope go_scope with go.
Notation "'let!' x := m 'in' k" := (bind m (fun x => k))
  (at level 10, x pattern, m at level 100, k at level 200) : go_scope.
Notation "'check' b 'else' e ; k" := (if (b : bool) then k else Err e)
  (at level 10, b at level 100, e at level 100, k at level 200) : go_scope.
#[global] Open Scope go_scope.

(** A computation that does not panic. *)
Definition safe {A} (m : res A) : Prop := m <> Panic.
#[export] Instance safe_dec {A} (m : res A) : Decision (safe m).
Proof. refine (match m with Panic => right _ | _ => left _ end); unfold safe; congruence. Defined.

(** ** Slices *)

(** [l[lo:hi]]; panics out of range. *)
Definition slice {A} (l : list A) (lo hi : Z) : res (list A) :=
  if (0 <=? lo) && (lo <=? hi) && (hi <=? len l)
  then Ok (take (Z.to_nat (hi - lo)) (drop (Z.to_nat lo) l)) else Panic.

(** [l[i]]; panics out of range. *)
Definition index {A} (l : list A) (i : Z) : res A :=
  if 0 <=? i then match l !! Z.to_nat i with Some x => Ok x | None => Panic end else Panic.

(** [make([]byte, n)]. *)
Definition make (n : Z) : res bytes :=
  if 0 <=? n then Ok (replicate (Z.to_nat n) Byte.x00) else Panic.

(** [copy(buf[lo:hi], src)]. *)
Definition copy_at (buf : bytes) (lo hi : Z) (src : bytes) : res bytes :=
  if (0 <=? lo) && (lo <=? hi) && (hi <=? len buf) then
    let n := Z.to_nat (Z.min (hi - lo) (len src)) in
    Ok (take (Z.to_nat lo) buf ++ take n src ++ drop (Z.to_nat lo + n) buf)
  else Panic.

(** [buf[i] = b]. *)
Definition put8 (buf : bytes) (i : Z) (v : Z) : res bytes := copy_at buf i (i + 1) [byte_of v].

(** ** Little-endian integers ([encoding/binary]) *)

(** The [k]-th byte of [v]. *)
Definition byte_at (v : Z) (k : nat) : byte := byte_of (Z.shiftr v (8 * Z.of_nat k)).
Definition le_put (n : nat) (v : Z) : bytes := byte_at v <$> seq 0 n.
Fixpoint le_get (l : bytes) : Z :=
  match l with [] => 0 | b :: t => u8 b + 256 * le_get t end.

(** [binary.LittleEndian.UintN(b)] reads the first [n] bytes of [b] and panics
    when there are fewer. *)
Definition get_le (n : nat) (b : bytes) : res Z :=
  if len b <? Z.of_nat n then Panic else Ok (le_get (take n b)).
Definition u16 (buf : bytes) (lo hi : Z) : res Z := let! s := slice buf lo hi in get_le 2 s.
Definition u32 (buf : bytes) (lo hi : Z) : res Z := let! s := slice buf lo hi in get_le 4 s.
Definition u64 (buf : bytes) (lo hi : Z) : res Z := let! s := slice buf lo hi in get_le 8 s.
Definition idx8 (buf : bytes) (i : Z) : res Z := let! b := index buf i in Ok (u8 b).

(** [binary.LittleEndian.PutUintN(buf[lo:hi], v)]. *)
Definition put_le (n : nat) (buf : bytes) (lo hi v : Z) : res bytes :=
  if hi - lo <? Z.of_nat n then Panic else copy_at buf lo hi (le_put n v).
Definition put16 := put_le 2.
Definition put32 := put_le 4.
Definition put64 := put_le 8.

(** ** Lemmas on bytes *)

Lemma u8_range b : 0 <= u8 b < 256.
Proof.
  unfold u8. pose proof (Byte.to_N_bounded b). lia.
Qed.

Lemma u8_byte_of z : u8 (byte_of z) = z mod 256.
Proof.
  unfold u8, byte_of. pose proof (Z.mod_pos_bound z 256 eq_refl).
  destruct (Byte.of_N _) as [b|] eqn:E.
  - apply Byte.to_of_N in E. rewrite E. lia.
  - apply Byte.of_N_None_iff in E. lia.
Qed.

Lemma u8_inj a b : u8 a = u8 b -> a = b.
Proof.
  unfold u8. intros H. pose proof (Byte.of_to_N a). pose proof (Byte.of_to_N b).
  assert (Byte.to_N a = Byte.to_N b) as E by lia. rewrite E in *. congruence.
Qed.

Lemma byte_of_u8 b : byte_of (u8 b) = b.
Proof. apply u8_inj. rewrite u8_byte_of. apply Z.mod_small, u8_range. Qed.

Lemma u8_eqb_0 b : (u8 b =? 0) = true <-> b = Byte.x00.
Proof.
  rewrite Z.eqb_eq. split; [|intros ->; reflexivity].
  intros H. apply u8_inj. rewrite H. reflexivity.
Qed.

(** ** Lemmas on little-endian integers *)

Lemma length_le_put n v : length (le_put n v) = n.
Proof. unfold le_put. by rewrite length_fmap, length_seq. Qed.

Lemma byte_at_S v k : byte_at v (S k) = byte_at (Z.shiftr v 8) k.
Proof. unfold byte_at. rewrite Z.shiftr_shiftr by lia. do 2 f_equal. lia. Qed.

Lemma le_put_S n v : le_put (S n) v = byte_of v :: le_put n (Z.shiftr v 8).
Proof.
  unfold le_put. rewrite <- cons_seq, fmap_cons. f_equal.
  rewrite <- fmap_S_seq, <- list_fmap_compose.
  apply list_fmap_ext. intros i k _. simpl. apply byte_at_S.
Qed.

Lemma le_get_put n v : le_get (le_put n v) = v mod 2 ^ (8 * Z.of_nat n).
Proof.
  revert v. induction n as [|n IH]; intros v; [by rewrite Z.mod_1_r|].
  rewrite le_put_S. cbn [le_get]. rewrite IH, u8_byte_of, Z.shiftr_div_pow2 by lia.
  replace (8 * Z.of_nat (S n)) with (8 + 8 * Z.of_nat n) by lia.
  rewrite Z.pow_add_r by lia. change (2 ^ 8) with 256.
  rewrite Z.rem_mul_r; [lia|lia|]. apply Z.pow_pos_nonneg; lia.
Qed.

Lemma le_get_put_id n v : 0 <= v < 2 ^ (8 * Z.of_nat n) -> le_get (le_put n v) = v.
Proof. intros H. rewrite le_get_put. by apply Z.mod_small. Qed.

Lemma le_get_range l : 0 <= le_get l < 2 ^ (8 * len l).
Proof.
  induction l as [|b t IH]; unfold len in *; cbn [length le_get]; [cbn; lia|].
  replace (8 * Z.of_nat (S (length t))) with (8 + 8 * Z.of_nat (length t)) by lia.
  rewrite Z.pow_add_r by lia. change (2 ^ 8) with 256. pose proof (u8_range b). nia.
Qed.

Lemma le_put_get l : le_put (length l) (le_get l) = l.
Proof.
  induction l as [|b t IH]; [done|]. cbn [length le_get]. rewrite le_put_S.
  pose proof (u8_range b) as Hb. f_equal.
  - apply u8_inj. rewrite u8_byte_of, (Z.mul_comm 256), Z.mod_add by lia.
    by apply Z.mod_small.
  - rewrite Z.shiftr_div_pow2 by lia. change (2 ^ 8) with 256.
    rewrite (Z.mul_comm 256), Z.div_add by lia. by rewrite Z.div_small by lia.
Qed.

Lemma le_put_mod n v : le_put n (v mod 2 ^ (8 * Z.of_nat n)) = le_put n v.
Proof.
  rewrite <- le_get_put. rewrite <- (length_le_put n v) at 1. apply le_put_get.
Qed.

(** ** Lemmas on lengths and slices *)

Lemma len_nonneg {A} (l : list A) : 0 <= len l.
Proof. unfold len. lia. Qed.
Lemma len_app {A} (l k : list A) : len (l ++ k) = len l + len k.
Proof. unfold len. rewrite length_app. lia. Qed.
Lemma len_cons {A} (x : A) l : len (x :: l) = 1 + len l.
Proof. unfold len. cbn [length]. lia. Qed.
Lemma len_nil {A} : len (@nil A) = 0.
Proof. done. Qed.
Lemma len_le_put n v : len (le_put n v) = Z.of_nat n.
Proof. unfold len. by rewrite length_le_put. Qed.
Lemma len_take {A} n (l : list A) : len (take n l) = Z.min (Z.of_nat n) (len l).
Proof. unfold len. rewrite length_take. lia. Qed.
Lemma len_drop {A} n (l : list A) : len (drop n l) = Z.max 0 (len l - Z.of_nat n).
Proof. unfold len. rewrite length_drop. lia. Qed.
Lemma len_replicate {A} n (x : A) : len (replicate n x) = Z.of_nat n.
Proof. unfold len. by rewrite length_replicate. Qed.
Lemma len_0_nil {A} (l : list A) : len l = 0 -> l = [].
Proof. destruct l; [done|]. rewrite len_cons. pose proof (len_nonneg l). lia. Qed.
Lemma nonempty_len {A} (s : list A) : s <> [] -> (len s =? 0) = false.
Proof. intros H. destruct (Z.eqb_spec (len s) 0) as [E|]; [by apply len_0_nil in E|done]. Qed.

Create Rewrite HintDb len.
#[export] Hint Rewrite @len_app @len_cons @len_nil len_le_put @len_take @len_drop @len_replicate : len.

(** Solves goals about lengths and offsets. *)
Ltac len_lia :=
  autorewrite with len in *;
  repeat match goal with
  | l : list _ |- _ => lazymatch goal with
     | _ : 0 <= len l |- _ => fail
     | _ => pose proof (len_nonneg l) end
  end; try lia.

Lemma slice_ok {A} (l : list A) lo hi :
  0 <= lo <= hi -> hi <= len l ->
  slice l lo hi = Ok (take (Z.to_nat (hi - lo)) (drop (Z.to_nat lo) l)).
Proof.
  intros H1 H2. unfold slice.
  rewrite (proj2 (Z.leb_le 0 lo)), (proj2 (Z.leb_le lo hi)), (proj2 (Z.leb_le hi _)) by lia.
  done.
Qed.

Lemma slice_inv {A} (l s : list A) lo hi :
  slice l lo hi = Ok s ->
  0 <= lo <= hi /\ hi <= len l /\ len s = hi - lo.
Proof.
  unfold slice. destruct (_ && _) eqn:E; [|done]. intros [= <-].
  rewrite !andb_true_iff, !Z.leb_le in E. rewrite len_take, len_drop. lia.
Qed.

(** A slice of a concatenation, by the pieces it is made of. *)
Lemma slice_mid {A} (a b c : list A) lo hi :
  lo = len a -> hi = len a + len b -> slice (a ++ b ++ c) lo hi = Ok b.
Proof.
  intros -> ->. rewrite slice_ok by len_lia. f_equal.
  replace (Z.to_nat (len a)) with (length a) by (unfold len; lia).
  rewrite drop_app_length.
  replace (Z.to_nat (len a + len b - len a)) with (length b) by (unfold len; lia).
  by rewrite take_app_length.
Qed.

Lemma slice_all {A} (l : list A) : slice l 0 (len l) = Ok l.
Proof.
  pose proof (slice_mid [] l [] 0 (len l) eq_refl eq_refl) as H.
  cbn [app] in H. by rewrite app_nil_r in H.
Qed.

Lemma slice_whole {A} (l : list A) lo hi : lo = 0 -> hi = len l -> slice l lo hi = Ok l.
Proof. intros -> ->. apply slice_all. Qed.

Lemma slice_prefix {A} (a b : list A) hi : hi = len a -> slice (a ++ b) 0 hi = Ok a.
Proof. intros ->. by apply (slice_mid [] a b). Qed.

Lemma slice_suffix {A} (a b : list A) lo hi :
  lo = len a -> hi = len a + len b -> slice (a ++ b) lo hi = Ok b.
Proof.
  intros -> ->. rewrite <- (app_nil_r b) at 1. by apply slice_mid.
Qed.

Lemma index_ok {A} (l : list A) i : 0 <= i < len l -> exists x, index l i = Ok x.
Proof.
  intros H. unfold index. rewrite (proj2 (Z.leb_le 0 i)) by lia.
  destruct (l !! Z.to_nat i) eqn:E; [eauto|].
  apply lookup_ge_None in E. unfold len in H. lia.
Qed.

Lemma index_mid {A} (a c : list A) x i : i = len a -> index (a ++ [x] ++ c) i = Ok x.
Proof.
  intros ->. unfold index, len. rewrite (proj2 (Z.leb_le 0 _)) by lia.
  cbn [app]. by rewrite Nat2Z.id, list_lookup_middle.
Qed.

Lemma index_inv {A} (l : list A) i x : index l i = Ok x -> 0 <= i < len l.
Proof.
  unfold index. destruct (Z.leb_spec 0 i); [|done].
  destruct (_ !! _) eqn:E; [|done]. apply lookup_lt_Some in E. unfold len. lia.
Qed.

(** ** Absence of panics *)

Lemma bind_assoc {A B C} (m : res A) (f : A -> res B) (g : B -> res C) :
  bind (bind m f) g = bind m (fun x => bind (f x) g).
Proof. by destruct m. Qed.

Lemma bind_Ok {A B} (m : res A) (f : A -> res B) b :
  bind m f = Ok b <-> exists a, m = Ok a /\ f a = Ok b.
Proof.
  destruct m as [a| |]; cbn; (split; [intros H; try done; by exists a|]);
    intros (x & E & H); by inversion E; subst.
Qed.

Lemma safe_Ok {A} (a : A) : safe (Ok a).
Proof. done. Qed.
Lemma safe_Err {A} e : safe (@Err A e).
Proof. done. Qed.
Lemma safe_bind {A B} (m : res A) (f : A -> res B) :
  safe m -> (forall a, m = Ok a -> safe (f a)) -> safe (bind m f).
Proof. destruct m; cbn; intros; try done; auto. Qed.
Lemma safe_if {A} (b : bool) (m k : res A) :
  (b = true -> safe m) -> (b = false -> safe k) -> safe (if b then m else k).
Proof. destruct b; auto. Qed.

Lemma safe_slice {A} (l : list A) lo hi : 0 <= lo <= hi -> hi <= len l -> safe (slice l lo hi).
Proof. intros. by rewrite slice_ok. Qed.
Lemma safe_index {A} (l : list A) i : 0 <= i < len l -> safe (index l i).
Proof. intros H. by destruct (index_ok l i H) as [? ->]. Qed.
Lemma safe_idx8 l i : 0 <= i < len l -> safe (idx8 l i).
Proof. intros H. unfold idx8. by destruct (index_ok l i H) as [? ->]. Qed.
Lemma safe_make n : 0 <= n -> safe (make n).
Proof. intros. unfold make. by rewrite (proj2 (Z.leb_le 0 n)). Qed.

Lemma get_le_slice n (l : bytes) lo hi :
  0 <= lo -> lo + Z.of_nat n <= hi <= len l ->
  safe (let! s := slice l lo hi in get_le n s).
Proof.
  intros H1 H2. rewrite slice_ok by lia. cbn. unfold get_le.
  rewrite len_take, len_drop, (proj2 (Z.ltb_ge _ _)) by lia. done.
Qed.
Lemma safe_u16 l lo hi : 0 <= lo -> lo + 2 <= hi <= len l -> safe (u16 l lo hi).
Proof. intros. by apply get_le_slice. Qed.
Lemma safe_u32 l lo hi : 0 <= lo -> lo + 4 <= hi <= len l -> safe (u32 l lo hi).
Proof. intros. by apply get_le_slice. Qed.
Lemma safe_u64 l lo hi : 0 <= lo -> lo + 8 <= hi <= len l -> safe (u64 l lo hi).
Proof. intros. by apply get_le_slice. Qed.

Create HintDb safe.
#[export] Hint Resolve safe_Ok safe_Err : safe.

(** Evaluates an encoder or a decoder on a buffer of literal length, keeping
    the bytes of symbolic values symbolic. *)
Ltac go_eval :=
  cbv -[byte_at byte_of u8 le_get Z.shiftr Z.land Z.lor Z.pow Z.modulo wrap int16].
(** The same in a hypothesis, keeping decisions. *)
Ltac go_eval_in H :=
  cbv -[byte_at byte_of u8 le_get Z.shiftr Z.land Z.lor Z.pow Z.modulo wrap int16 bool_decide] in H.

Lemma u8_byte_of_id v : 0 <= v < 2 ^ 8 -> u8 (byte_of v) = v.
Proof. intros. rewrite u8_byte_of. by apply Z.mod_small. Qed.
Lemma le_get16 v : 0 <= v < 2 ^ 16 -> le_get [byte_at v 0; byte_at v 1] = v.
Proof. exact (le_get_put_id 2 v). Qed.
Lemma le_get32 v : 0 <= v < 2 ^ 32 ->
  le_get [byte_at v 0; byte_at v 1; byte_at v 2; byte_at v 3] = v.
Proof. exact (le_get_put_id 4 v). Qed.
Lemma le_get64 v : 0 <= v < 2 ^ 64 ->
  le_get [byte_at v 0; byte_at v 1; byte_at v 2; byte_at v 3;
          byte_at v 4; byte_at v 5; byte_at v 6; byte_at v 7] = v.
Proof. exact (le_get_put_id 8 v). Qed.

Create Rewrite HintDb le.
#[export] Hint Rewrite u8_byte_of_id le_get16 le_get32 le_get64 using lia : le.

(** A value read from the wire is in the range of its type. *)
Lemma get_le_range n b v : get_le n b = Ok v -> 0 <= v < 2 ^ (8 * Z.of_nat n).
Proof.
  unfold get_le. destruct (Z.ltb_spec (len b) (Z.of_nat n)); [done|]. intros [= <-].
  pose proof (le_get_range (take n b)) as Hr. rewrite len_take, Z.min_l in Hr by lia. done.
Qed.

(** ** Writing inside a buffer *)

Lemma copy_at_mid (a b c src : bytes) lo hi :
  lo = len a -> hi = len a + len b -> len src = len b ->
  copy_at (a ++ b ++ c) lo hi src = Ok (a ++ src ++ c).
Proof.
  intros -> -> Hs. unfold copy_at.
  rewrite (proj2 (andb_true_iff _ _)) by (autorewrite with len; pose proof (len_nonneg a);
    pose proof (len_nonneg b); pose proof (len_nonneg c); split; [apply andb_true_iff|]; lia).
  f_equal. replace (Z.to_nat (Z.min _ _)) with (length src) by (unfold len in *; lia).
  rewrite firstn_all. unfold len in Hs |- *. rewrite Nat2Z.id, take_app_length.
  do 2 f_equal. replace (length src) with (length b) by lia.
  by rewrite Nat.add_comm, <- drop_drop, Nat.add_comm, drop_app_length, drop_app_length
    || by rewrite <- drop_drop, drop_app_length, drop_app_length.
Qed.

Lemma copy_at_inv buf lo hi src buf' :
  copy_at buf lo hi src = Ok buf' -> 0 <= lo <= hi /\ hi <= len buf /\ len buf' = len buf.
Proof.
  unfold copy_at. destruct (_ && _) eqn:E; [|done]. intros [= <-].
  rewrite !andb_true_iff, !Z.leb_le in E. autorewrite with len.
  pose proof (len_nonneg src). lia.
Qed.

Lemma make_ok n : 0 <= n -> make n = Ok (replicate (Z.to_nat n) Byte.x00).
Proof. intros. unfold make. by rewrite (proj2 (Z.leb_le 0 n)). Qed.

(** The ranges of the values read by the typed reads. *)
Lemma idx8_range buf i v : idx8 buf i = Ok v -> 0 <= v < 2 ^ 8.
Proof.
  unfold idx8. rewrite bind_Ok. intros (b & _ & [= <-]). apply u8_range.
Qed.
Lemma u16_range buf lo hi v : u16 buf lo hi = Ok v -> 0 <= v < 2 ^ 16.
Proof. unfold u16. rewrite bind_Ok. intros (s & _ & H). by apply get_le_range in H. Qed.
Lemma u32_range buf lo hi v : u32 buf lo hi = Ok v -> 0 <= v < 2 ^ 32.
Proof. unfold u32. rewrite bind_Ok. intros (s & _ & H). by apply get_le_range in H. Qed.
Lemma u64_range buf lo hi v : u64 buf lo hi = Ok v -> 0 <= v < 2 ^ 64.
Proof. unfold u64. rewrite bind_Ok. intros (s & _ & H). by apply get_le_range in H. Qed.

(** Takes a successful chain of reads apart. *)
Ltac inv_binds :=
  repeat match goal with
  | H : bind _ _ = Ok _ |- _ => apply bind_Ok in H; destruct H as (? & ? & H)
  | H : (if ?b then _ else _) = Ok _ |- _ => destruct b eqn:?; try discriminate H
  end.

(** Proves [safe m] for a chain of bound-checked reads: every access is in
    range by the length tests made before it. *)
Ltac safe_step :=
  match goal with
  | H : ?m = Panic |- _ => exfalso; revert H; change (safe m); solve [eauto with safe]
  | |- safe (bind _ _) => apply safe_bind; [|intros ? ?]
  | |- safe (if _ then _ else _) => apply safe_if; intros ?
  | |- safe (Ok _) => apply safe_Ok
  | |- safe (Err _) => apply safe_Err
  | |- safe (u16 _ _ _) => apply safe_u16
  | |- safe (u32 _ _ _) => apply safe_u32
  | |- safe (u64 _ _ _) => apply safe_u64
  | |- safe (idx8 _ _) => apply safe_idx8
  | |- safe (index _ _) => apply safe_index
  | |- safe (slice _ _ _) => apply safe_slice
  | |- safe (make _) => apply safe_make
  | |- safe (match ?x with _ => _ end) => destruct x eqn:?
  | |- safe _ => solve [auto with safe]
  end.

(** Replaces the reads in the context by the ranges of the values read. *)
Ltac go_ranges := repeat match goal with
  | H : idx8 _ _ = Ok _ |- _ => apply idx8_range in H
  | H : u16 _ _ _ = Ok _ |- _ => apply u16_range in H
  | H : u32 _ _ _ = Ok _ |- _ => apply u32_range in H
  | H : u64 _ _ _ = Ok _ |- _ => apply u64_range in H
  | H : slice _ _ _ = Ok _ |- _ => apply slice_inv in H
  end.
Ltac safe_tac := repeat safe_step; try lia; try solve [go_ranges; lia].



Lemma byte_of_u8_get b : byte_of (u8 b) = b.
Proof. apply byte_of_u8. Qed.
Lemma le_put_get2 a b : le_put 2 (le_get [a; b]) = [a; b].
Proof. exact (le_put_get [a; b]). Qed.
Lemma le_put_get4 a b c d : le_put 4 (le_get [a; b; c; d]) = [a; b; c; d].
Proof. exact (le_put_get [a; b; c; d]). Qed.
Create Rewrite HintDb wire.
#[export] Hint Rewrite byte_of_u8_get le_put_get2 le_put_get4 : wire.

(** A list is the concatenation of its prefix and the rest. *)
Lemma split_at {A} (l : list A) n :
  0 <= n <= len l -> exists a b, l = a ++ b /\ len a = n /\ len b = len l - n.
Proof.
  intros H. exists (take (Z.to_nat n) l), (drop (Z.to_nat n) l).
  rewrite take_drop, len_take, len_drop. split; [done|lia].
Qed.

#[global] Arguments le_put : simpl never.
#[global] Arguments le_get : simpl never.
#[global] Arguments byte_at : simpl never.
#[global] Arguments byte_of : simpl never.
#[global] Arguments u8 : simpl never.
#[global] Arguments len : simpl never.

(** ** Shifts and masks *)

Lemma land_mul_pow2_low a b k : 0 <= k -> 0 <= b < 2 ^ k -> Z.land (a * 2 ^ k) b = 0.
Proof.
  intros Hk Hb. apply Z.bits_inj'. intros i Hi. rewrite Z.land_spec, Z.bits_0.
  destruct (Z.ltb_spec i k).
  - by rewrite Z.mul_pow2_bits_low.
  - rewrite <- (Z.mod_small b (2 ^ k)), Z.mod_pow2_bits_high by lia. apply andb_false_r.
Qed.

(** Or-ing two fields of a word that do not overlap adds them. *)
Lemma lor_mul_pow2 a b k : 0 <= k -> 0 <= b < 2 ^ k -> Z.lor (a * 2 ^ k) b = a * 2 ^ k + b.
Proof.
  intros Hk Hb. pose proof (land_mul_pow2_low a b k Hk Hb) as H0.
  by rewrite <- Z.lxor_lor, Z.add_nocarry_lxor.
Qed.

Lemma lor_shiftl a b k : 0 <= k -> 0 <= b < 2 ^ k -> Z.lor b (Z.shiftl a k) = b + a * 2 ^ k.
Proof.
  intros. rewrite Z.lor_comm, Z.shiftl_mul_pow2, lor_mul_pow2 by lia. lia.
Qed.

Lemma wrap_small w z : 0 <= z < 2 ^ w -> wrap w z = z.
Proof. apply Z.mod_small. Qed.

(** Or-ing is bounded by the width. *)
Lemma lor_range a b w : 0 <= w -> 0 <= a < 2 ^ w -> 0 <= b < 2 ^ w -> 0 <= Z.lor a b < 2 ^ w.
Proof.
  intros Hw Ha Hb. split; [apply Z.lor_nonneg; lia|].
  destruct (Z.eqb_spec (Z.lor a b) 0) as [->|]; [lia|].
  assert (0 <= Z.lor a b) by (apply Z.lor_nonneg; lia).
  apply Z.log2_lt_pow2; [lia|]. rewrite Z.log2_lor by lia.
  assert (forall x, 0 <= x < 2 ^ w -> x = 0 \/ Z.log2 x < w) as Hlog.
  { intros x Hx. destruct (Z.eqb_spec x 0); [by left|right]. apply Z.log2_lt_pow2; lia. }
  destruct (Hlog a Ha) as [->|], (Hlog b Hb) as [->|]; cbn [Z.log2]; try lia.
  - by rewrite Z.lor_0_l in *.
  - destruct (Z.eqb_spec w 0) as [->|]; [|lia]. pose proof (Z.log2_nonneg b). lia.
  - destruct (Z.eqb_spec w 0) as [->|]; [|lia]. pose proof (Z.log2_nonneg a). lia.
Qed.

(** ** Encoders that fill a zeroed buffer from left to right *)

Lemma copy_at_zeros (a src : bytes) k lo hi :
  lo = len a -> hi = len a + len src ->
  (length src <= k)%nat ->
  copy_at (a ++ replicate k Byte.x00) lo hi src =
  Ok ((a ++ src) ++ replicate (k - length src) Byte.x00).
Proof.
  intros Hl Hh Hk. replace k with (length src + (k - length src))%nat at 1 by lia.
  rewrite replicate_add. rewrite copy_at_mid; [by rewrite app_assoc|done| |];
    rewrite ?len_replicate; unfold len in *; lia.
Qed.

Lemma copy_at_if (a src : bytes) k lo :
  lo = len a -> (length src <= k)%nat ->
  (if 0 <? len src then copy_at (a ++ replicate k Byte.x00) lo (lo + len src) src
   else Ok (a ++ replicate k Byte.x00)) =
  Ok ((a ++ src) ++ replicate (k - length src) Byte.x00).
Proof.
  intros Hlo Hk. pose proof (len_nonneg src). destruct (Z.ltb_spec 0 (len src)).
  - by apply copy_at_zeros; [|lia|].
  - rewrite (len_0_nil src) by lia. by rewrite app_nil_r, Nat.sub_0_r.
Qed.

(** [copy(buf[lo:], src)] into the last bytes of the buffer. *)
Lemma copy_at_rest (a src : bytes) k lo hi :
  lo = len a -> hi = len a + Z.of_nat k -> length src = k ->
  copy_at (a ++ replicate k Byte.x00) lo hi src = Ok (a ++ src).
Proof.
  intros Hl Hh Hk. rewrite copy_at_zeros by (unfold len in *; lia).
  replace (k - length src)%nat with 0%nat by lia. by rewrite app_nil_r.
Qed.

Lemma put_le_zeros n (a : bytes) k lo hi v :
  lo = len a -> hi = len a + Z.of_nat n -> (n <= k)%nat ->
  put_le n (a ++ replicate k Byte.x00) lo hi v =
  Ok ((a ++ le_put n v) ++ replicate (k - n) Byte.x00).
Proof.
  intros Hl Hh Hk. unfold put_le. rewrite (proj2 (Z.ltb_ge _ _)) by lia.
  rewrite copy_at_zeros by (rewrite ?len_le_put, ?length_le_put; lia).
  by rewrite length_le_put.
Qed.

Lemma put8_zeros (a : bytes) k i v :
  i = len a -> (1 <= k)%nat ->
  put8 (a ++ replicate k Byte.x00) i v = Ok ((a ++ [byte_of v]) ++ replicate (k - 1) Byte.x00).
Proof. intros. unfold put8. by rewrite copy_at_zeros by (rewrite ?len_cons, ?len_nil; cbn; lia). Qed.

(** Leaves [n] reserved bytes zero. *)
Lemma skip_zeros n (a : bytes) k :
  (n <= k)%nat ->
  a ++ replicate k Byte.x00 = (a ++ replicate n Byte.x00) ++ replicate (k - n) Byte.x00.
Proof. intros. rewrite <- app_assoc, <- replicate_add. do 2 f_equal. lia. Qed.

Lemma make_zeros n k : n = Z.of_nat k -> make n = Ok ([] ++ replicate k Byte.x00).
Proof. intros ->. rewrite make_ok by lia. by rewrite Nat2Z.id. Qed.

(** The size of a buffer, and offsets in it. *)
Ltac offsets := autorewrite with len; rewrite ?length_le_put; unfold len in *; cbn [length]; lia.

(** Runs an encoder on its zeroed buffer, write after write. *)
Ltac enc_step :=
  first [ rewrite put_le_zeros by offsets | rewrite put8_zeros by offsets
        | rewrite copy_at_rest by offsets | rewrite copy_at_zeros by offsets ]; cbn [bind].

(** ** Decoders on a concatenation of fields *)

Lemma copy_at_all (b src : bytes) : len src = len b -> copy_at b 0 (len b) src = Ok src.
Proof.
  intros H. pose proof (copy_at_mid [] b [] src 0 (len b) eq_refl eq_refl H) as E.
  cbn [app] in E. by rewrite !app_nil_r in E.
Qed.

(** A fresh copy of a part of a buffer. *)
Lemma copy_of_slice (l : bytes) n lo hi :
  0 <= n -> hi = lo + n ->
  (let! buf := make n in let! s := slice l lo hi in copy_at buf 0 (len buf) s) = slice l lo hi.
Proof.
  intros Hn ->. rewrite make_ok by done. cbn [bind]. destruct (slice l lo (lo + n)) as [s|e|] eqn:E; [|done|done].
  apply slice_inv in E as (_ & _ & E). cbn [bind]. apply copy_at_all. rewrite len_replicate. lia.
Qed.

Lemma slice_skip {A} (a l : list A) lo hi :
  len a <= lo -> slice (a ++ l) lo hi = slice l (lo - len a) (hi - len a).
Proof.
  intros H. pose proof (len_nonneg a). unfold slice. rewrite len_app.
  rewrite drop_app_ge by (unfold len in *; lia).
  replace (Z.to_nat lo - length a)%nat with (Z.to_nat (lo - len a)) by (unfold len; lia).
  replace (hi - len a - (lo - len a)) with (hi - lo) by lia.
  destruct (Z.leb_spec 0 lo), (Z.leb_spec lo hi), (Z.leb_spec hi (len a + len l)),
    (Z.leb_spec 0 (lo - len a)), (Z.leb_spec (lo - len a) (hi - len a)),
    (Z.leb_spec (hi - len a) (len l)); try lia; done.
Qed.

Lemma u16_skip (a l : bytes) lo hi :
  len a <= lo -> u16 (a ++ l) lo hi = u16 l (lo - len a) (hi - len a).
Proof. intros. unfold u16. by rewrite slice_skip. Qed.
Lemma u32_skip (a l : bytes) lo hi :
  len a <= lo -> u32 (a ++ l) lo hi = u32 l (lo - len a) (hi - len a).
Proof. intros. unfold u32. by rewrite slice_skip. Qed.
Lemma u64_skip (a l : bytes) lo hi :
  len a <= lo -> u64 (a ++ l) lo hi = u64 l (lo - len a) (hi - len a).
Proof. intros. unfold u64. by rewrite slice_skip. Qed.
Lemma index_skip {A} (a l : list A) i : len a <= i -> index (a ++ l) i = index l (i - len a).
Proof.
  intros H. pose proof (len_nonneg a). unfold index.
  rewrite (proj2 (Z.leb_le 0 i)), (proj2 (Z.leb_le 0 (i - len a))) by lia.
  rewrite lookup_app_r by (unfold len in *; lia).
  by replace (Z.to_nat i - length a)%nat with (Z.to_nat (i - len a)) by (unfold len; lia).
Qed.
Lemma idx8_skip (a l : bytes) i : len a <= i -> idx8 (a ++ l) i = idx8 l (i - len a).
Proof. intros. unfold idx8. by rewrite index_skip. Qed.

Lemma slice_here {A} (a l : list A) lo hi :
  lo = 0 -> hi = len a -> slice (a ++ l) lo hi = Ok a.
Proof. intros ->. apply slice_prefix. Qed.

Lemma get_here n v (l : bytes) lo hi :
  lo = 0 -> hi = Z.of_nat n ->
  (let! s := slice (le_put n v ++ l) lo hi in get_le n s) = Ok (v mod 2 ^ (8 * Z.of_nat n)).
Proof.
  intros. rewrite slice_here by (rewrite ?len_le_put; lia). cbn [bind]. unfold get_le.
  rewrite len_le_put, Z.ltb_irrefl, take_ge by (rewrite length_le_put; lia). by rewrite le_get_put.
Qed.
Lemma u16_here v (l : bytes) lo hi : lo = 0 -> hi = 2 -> u16 (le_put 2 v ++ l) lo hi = Ok (wrap 16 v).
Proof. intros. by apply (get_here 2). Qed.
Lemma u32_here v (l : bytes) lo hi : lo = 0 -> hi = 4 -> u32 (le_put 4 v ++ l) lo hi = Ok (wrap 32 v).
Proof. intros. by apply (get_here 4). Qed.
Lemma u64_here v (l : bytes) lo hi : lo = 0 -> hi = 8 -> u64 (le_put 8 v ++ l) lo hi = Ok (wrap 64 v).
Proof. intros. by apply (get_here 8). Qed.
Lemma idx8_here v (l : bytes) i : i = 0 -> idx8 ([byte_of v] ++ l) i = Ok (wrap 8 v).
Proof.
  intros ->. change (idx8 ([byte_of v] ++ l) 0) with (Ok (u8 (byte_of v))). by rewrite u8_byte_of.
Qed.

(** Reads fields out of a concatenation, at offsets given by lengths. *)
Ltac wire_read :=
  repeat (first
    [ rewrite u16_here by offsets | rewrite u32_here by offsets | rewrite u64_here by offsets
    | rewrite idx8_here by offsets | rewrite slice_here by offsets
    | rewrite u16_skip by offsets | rewrite u32_skip by offsets | rewrite u64_skip by offsets
    | rewrite idx8_skip by offsets | rewrite slice_skip by offsets ]; cbn [bind]).

Lemma idx8_at (a : bytes) b c i : i = len a -> idx8 (a ++ b :: c) i = Ok (u8 b).
Proof. intros ->. unfold idx8. by rewrite (index_mid a c b) by done. Qed.

(** The padding that aligns offset [z]. *)
Definition pad (z : Z) : bytes := replicate (Z.to_nat (z mod 2)) Byte.x00.

Lemma mod2_pad z : (if negb (z mod 2 =? 0) then 1 else 0) = z mod 2.
Proof.
  pose proof (Z.mod_pos_bound z 2 eq_refl). destruct (Z.eqb_spec (z mod 2) 0); cbn; lia.
Qed.

Lemma len_pad z : len (pad z) = z mod 2.
Proof. unfold pad. rewrite len_replicate. pose proof (Z.mod_pos_bound z 2 eq_refl). lia. Qed.

#[export] Hint Rewrite len_pad : len.

(** A slice of a slice. *)
Lemma slice_sub {A} (l s : list A) lo hi a b :
  slice l lo hi = Ok s -> 0 <= a <= b -> b <= hi - lo ->
  slice s a b = slice l (lo + a) (lo + b).
Proof.
  intros Hs Ha Hb. pose proof (slice_inv _ _ _ _ Hs) as (H1 & H2 & H3).
  rewrite slice_ok in Hs by lia. injection Hs as <-. rewrite !slice_ok by lia. f_equal.
  replace (Z.to_nat (hi - lo)) with (Z.to_nat a + (Z.to_nat (hi - lo) - Z.to_nat a))%nat by lia.
  rewrite <- take_drop_commute, take_take, drop_drop. f_equal; [|f_equal]; lia.
Qed.
