(* ===== verification/Unicode.v ===== *)
(** * Unicode text of the Go standard library

    What the source uses of [unicode/utf8] and [unicode/utf16]: decoding one
    rune of a string ([DecodeRune]), the conversions [[]rune(s)] and
    [string(rs)], and the UTF-16 transcoding [utf16.Encode]/[utf16.Decode].
    Runes are Unicode code points as [Z], code units 16-bit values as [Z]. *)

From S2P Require Export Prelude.

Definition RuneError : Z := 0xFFFD.

(** A Unicode scalar value: a code point that is not a surrogate. *)
Definition scalar (r : Z) : bool :=
  (0 <=? r) && (r <? 0xD800) || (0xE000 <=? r) && (r <=? 0x10FFFF).

(** ** UTF-8 *)

(** Size and the range of the second byte, by the first byte (the [first] and
    [acceptRanges] tables). *)
Definition first (b : Z) : option (nat * Z * Z) :=
  if b <? 0xC2 then None
  else if b <? 0xE0 then Some (2%nat, 0x80, 0xBF)
  else if b =? 0xE0 then Some (3%nat, 0xA0, 0xBF)
  else if b =? 0xED then Some (3%nat, 0x80, 0x9F)
  else if b <? 0xF0 then Some (3%nat, 0x80, 0xBF)
  else if b =? 0xF0 then Some (4%nat, 0x90, 0xBF)
  else if b <? 0xF4 then Some (4%nat, 0x80, 0xBF)
  else if b =? 0xF4 then Some (4%nat, 0x80, 0x8F)
  else None.

Definition cont (b : Z) : bool := (0x80 <=? b) && (b <=? 0xBF).

(** [utf8.DecodeRune]: the first rune and its width in bytes; an invalid
    sequence is [RuneError] with width one. *)
Definition DecodeRune (s : bytes) : Z * nat :=
  match s with
  | [] => (RuneError, 0%nat)
  | b0 :: t =>
    if u8 b0 <? 0x80 then (u8 b0, 1%nat) else
    match first (u8 b0), t with
    | Some (sz, lo, hi), b1 :: t1 =>
      if negb ((lo <=? u8 b1) && (u8 b1 <=? hi)) then (RuneError, 1%nat) else
      match sz, t1 with
      | 2%nat, _ => ((u8 b0 - 0xC0) * 64 + (u8 b1 - 0x80), 2%nat)
      | 3%nat, b2 :: _ =>
        if cont (u8 b2)
        then (((u8 b0 - 0xE0) * 64 + (u8 b1 - 0x80)) * 64 + (u8 b2 - 0x80), 3%nat)
        else (RuneError, 1%nat)
      | 4%nat, b2 :: b3 :: _ =>
        if cont (u8 b2) && cont (u8 b3)
        then ((((u8 b0 - 0xF0) * 64 + (u8 b1 - 0x80)) * 64 + (u8 b2 - 0x80)) * 64
              + (u8 b3 - 0x80), 4%nat)
        else (RuneError, 1%nat)
      | _, _ => (RuneError, 1%nat)
      end
    | _, _ => (RuneError, 1%nat)
    end
  end.

(** [[]rune(s)]; [fuel] bounds the number of runes. *)
Fixpoint runes_fuel (fuel : nat) (s : bytes) : list Z :=
  match fuel, s with
  | S f, _ :: _ => let '(r, w) := DecodeRune s in r :: runes_fuel f (drop w s)
  | _, _ => []
  end.
Definition runes (s : bytes) : list Z := runes_fuel (length s) s.

(** [utf8.AppendRune(nil, r)]. *)
Definition EncodeRune (r0 : Z) : bytes :=
  let r := if scalar r0 then r0 else RuneError in
  if r <? 0x80 then [byte_of r]
  else if r <? 0x800 then [byte_of (0xC0 + r / 64); byte_of (0x80 + r mod 64)]
  else if r <? 0x10000 then
    [byte_of (0xE0 + r / 4096); byte_of (0x80 + r / 64 mod 64); byte_of (0x80 + r mod 64)]
  else
    [byte_of (0xF0 + r / 262144); byte_of (0x80 + r / 4096 mod 64);
     byte_of (0x80 + r / 64 mod 64); byte_of (0x80 + r mod 64)].

(** [string(rs)]. *)
Definition string_of_runes (rs : list Z) : bytes := rs ≫= EncodeRune.

(** ** UTF-16 *)

Definition utf16_Encode (rs : list Z) : list Z :=
  rs ≫= fun v =>
    if (0 <=? v) && (v <? 0xD800) || (0xE000 <=? v) && (v <? 0x10000) then [v]
    else if (0x10000 <=? v) && (v <=? 0x10FFFF) then
      [0xD800 + (v - 0x10000) / 1024 mod 1024; 0xDC00 + (v - 0x10000) mod 1024]
    else [RuneError].

Fixpoint utf16_Decode (ws : list Z) : list Z :=
  match ws with
  | [] => []
  | w :: t =>
    if (w <? 0xD800) || (0xE000 <=? w) then w :: utf16_Decode t else
    match t with
    | w2 :: t2 =>
      if (w <? 0xDC00) && (0xDC00 <=? w2) && (w2 <? 0xE000)
      then (w - 0xD800) * 1024 + (w2 - 0xDC00) + 0x10000 :: utf16_Decode t2
      else RuneError :: utf16_Decode t
    | [] => RuneError :: utf16_Decode t
    end
  end.

(** ** Lemmas *)

Lemma DecodeRune_width s : s <> [] -> (1 <= (DecodeRune s).2 <= length s)%nat.
Proof.
  intros Hs. destruct s as [|b0 t]; [done|]. unfold DecodeRune.
  repeat case_match; simplify_eq; cbn [snd length] in *; lia.
Qed.

Lemma runes_fuel_enough f s :
  (length s <= f)%nat -> runes_fuel f s = runes s.
Proof.
  unfold runes. revert s. induction f as [f IH] using lt_wf_ind. intros s Hf.
  destruct s as [|b t]; [by destruct f|]. destruct f as [|f]; [cbn in Hf; lia|].
  cbn [length]. cbn [runes_fuel].
  pose proof (DecodeRune_width (b :: t)) as Hw.
  destruct (DecodeRune (b :: t)) as [r w]. cbn [snd] in Hw. f_equal.
  assert (length (drop w (b :: t)) <= length t)%nat as Hd
    by (rewrite length_drop; cbn [length] in *; destruct Hw; [done|lia]).
  cbn [length] in Hf. rewrite IH by lia. symmetry.
  destruct (decide (length t = f)) as [->|]; [by rewrite IH by lia|].
  apply IH; lia.
Qed.

Lemma runes_cons b t :
  runes (b :: t) = (DecodeRune (b :: t)).1 :: runes (drop (DecodeRune (b :: t)).2 (b :: t)).
Proof.
  unfold runes at 1. cbn [length]. cbn [runes_fuel].
  pose proof (DecodeRune_width (b :: t)) as Hw.
  destruct (DecodeRune (b :: t)) as [r w]. cbn [fst snd] in *. f_equal.
  apply runes_fuel_enough. rewrite length_drop. cbn [length] in *. destruct Hw; [done|lia].
Qed.

Lemma scalar_spec r : scalar r = true <-> 0 <= r < 0xD800 \/ 0xE000 <= r <= 0x10FFFF.
Proof. unfold scalar. lia. Qed.

Lemma DecodeRune_scalar s : s <> [] -> scalar (DecodeRune s).1 = true.
Proof.
  intros Hs. rewrite scalar_spec. destruct s as [|b0 t]; [done|].
  unfold DecodeRune, first, cont, RuneError.
  pose proof (u8_range b0).
  repeat case_match; simplify_eq; cbn [fst]; lia.
Qed.

Lemma runes_scalar s : Forall (fun r => scalar r = true) (runes s).
Proof.
  induction s as [s IH] using (well_founded_induction (well_founded_ltof _ length)).
  destruct s as [|b t]; [constructor|]. rewrite runes_cons. constructor.
  - by apply DecodeRune_scalar.
  - apply IH. unfold ltof. rewrite length_drop.
    pose proof (DecodeRune_width (b :: t)) as Hw. cbn [length] in *. destruct Hw; [done|lia].
Qed.

(** ** Round trips *)

(** Case analysis on the condition at the head of the left-hand side. *)
Ltac if_head := match goal with |- (if ?c then _ else _) = _ => destruct c eqn:? end.

Ltac u8_norm := rewrite ?u8_byte_of, ?Z.mod_small by (try lia; Z.to_euclidean_division_equations; lia).

Lemma DecodeRune_EncodeRune r t :
  scalar r = true -> DecodeRune (EncodeRune r ++ t) = (r, length (EncodeRune r)).
Proof.
  intros Hs. unfold EncodeRune. rewrite Hs. apply scalar_spec in Hs.
  destruct (Z.ltb_spec r 0x80).
  { cbn. u8_norm. rewrite (proj2 (Z.ltb_lt _ _)) by lia. done. }
  destruct (Z.ltb_spec r 0x800); [|destruct (Z.ltb_spec r 0x10000)];
    cbn [app DecodeRune length]; unfold first, cont; u8_norm;
    repeat (case_match; simplify_eq); f_equal;
    Z.to_euclidean_division_equations; lia.
Qed.

(** A rune that decodes properly is encoded back to the bytes it was read from. *)
Lemma EncodeRune_DecodeRune s r w :
  s <> [] -> DecodeRune s = (r, w) -> (r =? RuneError) && (w =? 1)%nat = false ->
  s = EncodeRune r ++ drop w s.
Proof.
  intros Hs HD Hne. destruct s as [|b0 t]; [done|]. clear Hs.
  assert (scalar r = true) as Hr.
  { pose proof (DecodeRune_scalar (b0 :: t)) as H. rewrite HD in H. by apply H. }
  unfold EncodeRune. rewrite Hr. clear Hr.
  unfold DecodeRune, first, cont, RuneError in *.
  repeat case_match; simplify_eq; try discriminate Hne;
    repeat match goal with b : byte |- _ => lazymatch goal with
      | _ : 0 <= u8 b < 256 |- _ => fail | _ => pose proof (u8_range b) end end;
    try lia;
    cbn [app drop]; repeat f_equal; apply u8_inj; rewrite u8_byte_of;
    Z.to_euclidean_division_equations; lia.
Qed.

Lemma EncodeRune_nonempty r : exists b l, EncodeRune r = b :: l.
Proof. unfold EncodeRune. repeat case_match; eauto. Qed.

Lemma runes_string_of_runes rs :
  Forall (fun r => scalar r = true) rs -> runes (string_of_runes rs) = rs.
Proof.
  induction 1 as [|r rs Hr Hrs IH]; [done|].
  unfold string_of_runes in *. cbn [mbind list_bind].
  pose proof (DecodeRune_EncodeRune r (rs ≫= EncodeRune) Hr) as HD.
  destruct (EncodeRune_nonempty r) as (b & l & E).
  rewrite E in *. cbn [app] in *. rewrite runes_cons, HD. cbn [fst snd length].
  f_equal. cbn [drop]. rewrite drop_app_length. exact IH.
Qed.

Lemma utf16_Decode_Encode rs :
  Forall (fun r => scalar r = true) rs -> utf16_Decode (utf16_Encode rs) = rs.
Proof.
  induction 1 as [|r rs Hr Hrs IH]; [done|].
  unfold utf16_Encode in *. cbn [mbind list_bind]. apply scalar_spec in Hr.
  destruct (_ || _) eqn:E1; cbn [app utf16_Decode].
  - rewrite IH. by rewrite (proj2 (orb_true_iff _ _)) by lia.
  - rewrite (proj2 (andb_true_iff _ _)) by lia. cbn [app utf16_Decode]. rewrite IH.
    pose proof (Z.mod_pos_bound (r - 0x10000) 1024 eq_refl) as Hlo.
    rewrite (Z.mod_small (_ / 1024)) by (Z.to_euclidean_division_equations; lia).
    pose proof (Z.div_mod (r - 0x10000) 1024) as Hd.
    assert (0 <= (r - 0x10000) / 1024 < 1024) as Hhi
      by (Z.to_euclidean_division_equations; lia).
    if_head; [lia|]. if_head; [|lia]. f_equal. lia.
Qed.

Lemma utf16_Encode_range rs :
  Forall (fun w => 0 <= w < 2 ^ 16) (utf16_Encode rs).
Proof.
  induction rs as [|r rs IH]; [constructor|]. unfold utf16_Encode in *.
  cbn [mbind list_bind]. apply Forall_app. split; [|done].
  repeat case_match; repeat constructor; unfold RuneError;
    try (Z.to_euclidean_division_equations; lia).
Qed.

Lemma utf16_Encode_last rs :
  Forall (fun r => scalar r = true) rs ->
  last (utf16_Encode rs) = Some 0 -> last rs = Some 0.
Proof.
  induction rs as [|r rs IH] using rev_ind; [done|]. intros Hs Hl.
  apply Forall_app in Hs as [_ Hr]. apply Forall_singleton, scalar_spec in Hr.
  unfold utf16_Encode in Hl. rewrite bind_app, last_app in Hl. cbn [mbind list_bind] in Hl.
  rewrite last_snoc. f_equal. rewrite app_nil_r in Hl.
  destruct (_ || _) eqn:E1; [cbn in Hl; congruence|].
  rewrite (proj2 (andb_true_iff _ _)) in Hl by lia. cbn -[Z.modulo Z.div] in Hl.
  injection Hl as Hl. pose proof (Z.mod_pos_bound (r - 0x10000) 1024 eq_refl). lia.
Qed.

Lemma string_of_runes_last rs : last rs = Some 0 -> last (string_of_runes rs) = Some Byte.x00.
Proof.
  induction rs as [|r rs _] using rev_ind; [done|]. rewrite last_snoc. intros [= ->].
  unfold string_of_runes. by rewrite bind_app, last_app.
Qed.

(** A string holds valid UTF-8 when decoding it to runes loses nothing. *)
Definition ValidString (s : bytes) : Prop := string_of_runes (runes s) = s.
#[export] Instance ValidString_dec s : Decision (ValidString s).
Proof. unfold ValidString. apply _. Defined.

(** Decoding UTF-16 gives scalar values, whatever the code units. *)
Lemma utf16_Decode_scalar ws :
  Forall (fun w => 0 <= w < 2 ^ 16) ws -> Forall (fun r => scalar r = true) (utf16_Decode ws).
Proof.
  induction ws as [ws IH] using (well_founded_induction (well_founded_ltof _ length)).
  intros Hw. destruct ws as [|w t]; [constructor|].
  apply Forall_cons in Hw as [Hw Ht]. cbn [utf16_Decode].
  assert (Forall (fun r => scalar r = true) (utf16_Decode t)) as Hd by (apply IH; [unfold ltof; cbn; lia|done]).
  destruct (_ || _) eqn:E1.
  { constructor; [|done]. apply scalar_spec. lia. }
  destruct t as [|w2 t]; [by constructor|].
  apply Forall_cons in Ht as [Hw2 Ht].
  destruct (_ && _) eqn:E2; [|by constructor].
  constructor; [apply scalar_spec; lia|]. apply IH; [unfold ltof; cbn; lia|done].
Qed.

Lemma string_of_runes_valid rs : Forall (fun r => scalar r = true) rs -> ValidString (string_of_runes rs).
Proof. intros H. unfold ValidString. by rewrite runes_string_of_runes. Qed.
