(* ===== verification/Utf16le.v ===== *)
(** * UTF-16LE strings ([internal/utf16le])

    The conversions between Go strings and the UTF-16LE text of SMB1 messages,
    as the loops of utf16le.go over a buffer, with their closed forms and the
    round trip. *)

From S2P Require Export Unicode.

(** The loop [for i, w := range ws { le.PutUint16(dst[2*i:2*i+2], w) }]. *)
Fixpoint put_units (dst : bytes) (i : Z) (ws : list Z) : res bytes :=
  match ws with
  | [] => Ok dst
  | w :: t => let! dst' := put16 dst (2 * i) (2 * i + 2) w in put_units dst' (i + 1) t
  end.

(** The loop [for i := range ws { ws[i] = le.Uint16(bs[2*i : 2*i+2]) }]. *)
Fixpoint get_units (bs : bytes) (i : Z) (n : nat) : res (list Z) :=
  match n with
  | O => Ok []
  | S n' => let! w := u16 bs (2 * i) (2 * i + 2) in
            let! t := get_units bs (i + 1) n' in Ok (w :: t)
  end.

Definition EncodedStringLen (s : bytes) : Z :=
  foldl (fun l r => if (0x10000 <=? r) && (r <=? 0x10FFFF) then l + 4 else l + 2) 0 (runes s).

(** Writes into [dst]; returns the buffer and the number of bytes written. *)
Definition EncodeString (dst src : bytes) : res (bytes * Z) :=
  let ws := utf16_Encode (runes src) in
  let! dst' := put_units dst 0 ws in
  Ok (dst', len ws * 2).

Definition EncodeStringToBytes (s : bytes) : res bytes :=
  if len s =? 0 then Ok [] else
  let ws := utf16_Encode (runes s) in
  let! bs := make (len ws * 2) in
  put_units bs 0 ws.

Definition DecodeToString (bs : bytes) : res bytes :=
  if len bs =? 0 then Ok [] else
  let! ws := get_units bs 0 (Z.to_nat (len bs / 2)) in
  let! ws :=
    if 0 <? len ws then
      let! z := index ws (len ws - 1) in
      if z =? 0 then slice ws 0 (len ws - 1) else Ok ws
    else Ok ws in
  Ok (string_of_runes (utf16_Decode ws)).

(** ** Closed forms *)

(** The bytes of a list of code units, and the text of a string. *)
Definition units_bytes (ws : list Z) : bytes := ws ≫= le_put 2.
Definition utf16le (s : bytes) : bytes := units_bytes (utf16_Encode (runes s)).

(** The code units of a byte string (a last odd byte is ignored), and the
    string of a text without its terminator. *)
Fixpoint bytes_units (bs : bytes) : list Z :=
  match bs with a :: b :: t => le_get [a; b] :: bytes_units t | _ => [] end.
Definition strip_nul (ws : list Z) : list Z :=
  match last ws with Some 0 => take (length ws - 1) ws | _ => ws end.
Definition of_utf16le (bs : bytes) : bytes :=
  string_of_runes (utf16_Decode (strip_nul (bytes_units bs))).

Lemma len_units_bytes ws : len (units_bytes ws) = 2 * len ws.
Proof.
  unfold units_bytes. induction ws as [|w t IH]; [done|]. cbn [mbind list_bind].
  autorewrite with len. lia.
Qed.

Lemma put_units_spec ws a b c :
  len b = 2 * len ws -> 2 * (len a / 2) = len a ->
  put_units (a ++ b ++ c) (len a / 2) ws = Ok (a ++ units_bytes ws ++ c).
Proof.
  revert a b. induction ws as [|w t IH]; intros a b Hb Ha; cbn [put_units].
  { by rewrite (len_0_nil b) by done. }
  rewrite len_cons in Hb. pose proof (len_nonneg t).
  destruct b as [|x [|y b]]; autorewrite with len in Hb; [lia|lia|].
  unfold put16, put_le. rewrite (proj2 (Z.ltb_ge _ _)) by lia.
  change ((x :: y :: b) ++ c) with ([x; y] ++ b ++ c).
  rewrite copy_at_mid by (autorewrite with len; lia).
  cbn [bind]. rewrite app_assoc.
  replace (len a / 2 + 1) with (len (a ++ le_put 2 w) / 2)
    by (autorewrite with len; Z.to_euclidean_division_equations; lia).
  rewrite IH; [|lia|autorewrite with len; Z.to_euclidean_division_equations; lia].
  unfold units_bytes. cbn [mbind list_bind]. by rewrite <- !app_assoc.
Qed.

Lemma EncodeStringToBytes_eq s : EncodeStringToBytes s = Ok (utf16le s).
Proof.
  unfold EncodeStringToBytes. destruct (Z.eqb_spec (len s) 0) as [E|E].
  { by rewrite (len_0_nil s E). }
  pose proof (len_nonneg (utf16_Encode (runes s))).
  rewrite make_ok by lia. cbn [bind].
  pose proof (put_units_spec (utf16_Encode (runes s)) []
    (replicate (Z.to_nat (len (utf16_Encode (runes s)) * 2)) Byte.x00) []) as Hp.
  rewrite !app_nil_r in Hp. apply Hp; [rewrite len_replicate; lia|done].
Qed.

Lemma get_units_spec a bs :
  2 * (len a / 2) = len a ->
  get_units (a ++ bs) (len a / 2) (Z.to_nat (len bs / 2)) = Ok (bytes_units bs).
Proof.
  revert a. induction bs as [bs IH] using (well_founded_induction (well_founded_ltof _ length)).
  intros a Ha. destruct bs as [|x [|y t]]; [done|done|].
  replace (Z.to_nat (len (x :: y :: t) / 2)) with (S (Z.to_nat (len t / 2)))
    by (pose proof (len_nonneg t); autorewrite with len;
        Z.to_euclidean_division_equations; lia).
  cbn [get_units bytes_units]. unfold u16.
  change (a ++ x :: y :: t) with (a ++ [x; y] ++ t).
  rewrite slice_mid by (autorewrite with len; lia).
  cbn [bind]. change (get_le 2 [x; y]) with (Ok (le_get [x; y])). cbn [bind].
  rewrite app_assoc.
  replace (len a / 2 + 1) with (len (a ++ [x; y]) / 2)
    by (autorewrite with len; Z.to_euclidean_division_equations; lia).
  rewrite IH; [done|unfold ltof; cbn; lia|].
  autorewrite with len; Z.to_euclidean_division_equations; lia.
Qed.

Lemma bytes_units_bytes ws :
  Forall (fun w => 0 <= w < 2 ^ 16) ws -> bytes_units (units_bytes ws) = ws.
Proof.
  induction 1 as [|w t Hw _ IH]; [done|]. unfold units_bytes in *.
  cbn [mbind list_bind]. change (le_put 2 w) with [byte_at w 0; byte_at w 1].
  cbn [app bytes_units]. by rewrite le_get16, IH.
Qed.

Lemma strip_nul_spec (ws : list Z) :
  (if 0 <? len ws then
     let! z := index ws (len ws - 1) in
     if z =? 0 then slice ws 0 (len ws - 1) else Ok ws
   else Ok ws) = Ok (strip_nul ws).
Proof.
  induction ws as [|w ws _] using rev_ind; [done|].
  unfold strip_nul. rewrite last_snoc. autorewrite with len. pose proof (len_nonneg ws).
  rewrite (proj2 (Z.ltb_lt _ _)) by lia.
  replace (len ws + (1 + 0) - 1) with (len ws) by lia.
  pose proof (index_mid ws [] w (len ws) eq_refl) as Hi. rewrite app_nil_r in Hi.
  rewrite Hi. cbn [bind].
  rewrite length_app. cbn [length]. replace (length ws + 1 - 1)%nat with (length ws) by lia.
  rewrite take_app_length. destruct (Z.eqb_spec w 0) as [->|]; [by apply slice_prefix|].
  by destruct w.
Qed.

Lemma DecodeToString_eq bs : DecodeToString bs = Ok (of_utf16le bs).
Proof.
  unfold DecodeToString, of_utf16le. destruct (Z.eqb_spec (len bs) 0) as [E|E].
  { by rewrite (len_0_nil bs E). }
  rewrite (get_units_spec [] bs eq_refl : get_units bs 0 _ = _). cbn [bind]. by rewrite strip_nul_spec.
Qed.

#[export] Hint Rewrite EncodeStringToBytes_eq DecodeToString_eq : le.
Lemma safe_DecodeToString bs : safe (DecodeToString bs).
Proof. by rewrite DecodeToString_eq. Qed.
Lemma safe_EncodeStringToBytes s : safe (EncodeStringToBytes s).
Proof. by rewrite EncodeStringToBytes_eq. Qed.
#[export] Hint Resolve safe_DecodeToString safe_EncodeStringToBytes : safe.

(** ** Properties *)

(** [EncodedStringLen] is the length of what is written. *)
Lemma EncodedStringLen_spec s : EncodedStringLen s = len (utf16le s).
Proof.
  unfold EncodedStringLen, utf16le. rewrite len_units_bytes.
  pose proof (runes_scalar s) as Hs.
  enough (forall l, foldl (fun l r => if (0x10000 <=? r) && (r <=? 0x10FFFF)
            then l + 4 else l + 2) l (runes s) = l + 2 * len (utf16_Encode (runes s))) as ->
    by done.
  induction Hs as [|r rs Hr Hrs IH]; intros l; [symmetry; apply Z.add_0_r|]. cbn [foldl]. rewrite IH.
  unfold utf16_Encode. cbn [mbind list_bind]. rewrite len_app. apply scalar_spec in Hr.
  destruct ((0x10000 <=? r) && _) eqn:E1; destruct (_ || _) eqn:E2;
    autorewrite with len; lia.
Qed.

Lemma of_utf16le_utf16le s :
  ValidString s -> last s <> Some Byte.x00 -> of_utf16le (utf16le s) = s.
Proof.
  intros Hv Hl. unfold of_utf16le, utf16le. rewrite bytes_units_bytes by apply utf16_Encode_range.
  assert (strip_nul (utf16_Encode (runes s)) = utf16_Encode (runes s)) as ->.
  { unfold strip_nul. destruct (last (utf16_Encode _)) as [[| |]|] eqn:E; try done.
    apply utf16_Encode_last, string_of_runes_last in E; [|apply runes_scalar].
    rewrite Hv in E. done. }
  rewrite utf16_Decode_Encode by apply runes_scalar. by rewrite Hv.
Qed.

(** A text with its terminator: exactly the terminator is dropped. *)
Lemma of_utf16le_terminated s :
  ValidString s -> of_utf16le (utf16le s ++ [Byte.x00; Byte.x00]) = s.
Proof.
  intros Hv. unfold of_utf16le, utf16le.
  replace (units_bytes (utf16_Encode (runes s)) ++ [Byte.x00; Byte.x00])
    with (units_bytes (utf16_Encode (runes s) ++ [0]))
    by (unfold units_bytes; by rewrite bind_app).
  rewrite bytes_units_bytes
    by (apply Forall_app; split; [apply utf16_Encode_range|by repeat constructor]).
  unfold strip_nul. rewrite last_snoc, length_app, Nat.add_sub, take_app_length.
  rewrite utf16_Decode_Encode by apply runes_scalar. by rewrite Hv.
Qed.

(** Decoding the UTF-16LE text of a string gives the string back, when it
    holds valid UTF-8 and does not end in a NUL character (which
    [DecodeToString] takes for the terminator). *)
Theorem DecodeToString_EncodeStringToBytes s :
  ValidString s -> last s <> Some Byte.x00 ->
  (let! bs := EncodeStringToBytes s in DecodeToString bs) = Ok s.
Proof.
  intros Hv Hl. rewrite EncodeStringToBytes_eq. cbn [bind].
  by rewrite DecodeToString_eq, of_utf16le_utf16le.
Qed.

Lemma DecodeToString_EncodeStringToBytes_witness :
  ValidString (str "Documents") /\
  (let! bs := EncodeStringToBytes (str "Documents") in DecodeToString bs) = Ok (str "Documents").
Proof.
  split; [vm_compute; reflexivity|].
  apply DecodeToString_EncodeStringToBytes; [vm_compute; reflexivity|vm_compute; discriminate].
Defined.

(** [EncodeString] never panics on a buffer of at least [EncodedStringLen]
    bytes: it overwrites exactly that prefix with the text, leaves the rest of
    the buffer alone and returns the number of bytes written. *)
Theorem EncodeString_spec dst src :
  EncodedStringLen src <= len dst ->
  EncodeString dst src =
  Ok (utf16le src ++ drop (Z.to_nat (EncodedStringLen src)) dst, EncodedStringLen src).
Proof.
  rewrite EncodedStringLen_spec. unfold utf16le, EncodeString. rewrite len_units_bytes.
  intros Hd. set (ws := utf16_Encode (runes src)) in *. pose proof (len_nonneg ws).
  pose proof (put_units_spec ws [] (take (Z.to_nat (2 * len ws)) dst)
                (drop (Z.to_nat (2 * len ws)) dst)) as Hp.
  cbn [app] in Hp. rewrite take_drop in Hp. rewrite len_take in Hp.
  change (len (@nil byte) / 2) with 0 in Hp.
  rewrite Hp by (reflexivity || lia). cbn [bind]. do 2 f_equal. lia.
Qed.

Lemma EncodeString_spec_witness :
  EncodeString (replicate 6 Byte.xff) (str "ab") =
  Ok ([Byte.x61; Byte.x00; Byte.x62; Byte.x00; Byte.xff; Byte.xff], 4).
Proof. rewrite EncodeString_spec by (vm_compute; discriminate). vm_compute. reflexivity. Defined.

(** ** Names in messages *)

(** A name with its terminator, as text or as bytes. *)
Definition name_bytes (useUnicode : bool) (s : bytes) : bytes :=
  if useUnicode then utf16le s ++ [Byte.x00; Byte.x00] else s ++ [Byte.x00].

(** What a server reads where the rest of a section is a name. *)
Definition read_name (useUnicode : bool) (b : bytes) : res bytes :=
  if useUnicode then DecodeToString b else slice b 0 (len b - 1).

Lemma read_name_bytes u s : (u = true -> ValidString s) -> read_name u (name_bytes u s) = Ok s.
Proof.
  intros Hv. unfold read_name, name_bytes. destruct u.
  - rewrite DecodeToString_eq, of_utf16le_terminated; [done|by apply Hv].
  - rewrite slice_here by (autorewrite with len; lia). done.
Qed.


(** ** Strings without NUL *)

(** Valid UTF-8 without a NUL character: what a null-terminated field can hold. *)
Definition TextString (s : bytes) : Prop := ValidString s /\ Byte.x00 ∉ s.
#[export] Instance TextString_dec s : Decision (TextString s).
Proof. unfold TextString. apply _. Defined.

Lemma utf16_Encode_nonzero rs :
  Forall (fun r => scalar r = true) rs -> 0 ∉ rs ->
  Forall (fun w => 0 < w < 2 ^ 16) (utf16_Encode rs).
Proof.
  induction 1 as [|r rs Hr _ IH]; intros H0; [constructor|]. unfold utf16_Encode in *.
  cbn [mbind list_bind]. apply not_elem_of_cons in H0 as [H0 H1]. apply scalar_spec in Hr.
  apply Forall_app. split; [|by apply IH].
  repeat case_match; repeat constructor; unfold RuneError; try lia;
    try (Z.to_euclidean_division_equations; lia).
Qed.

Lemma TextString_units s :
  TextString s -> Forall (fun w => 0 < w < 2 ^ 16) (utf16_Encode (runes s)).
Proof.
  intros [Hv H0]. apply utf16_Encode_nonzero; [apply runes_scalar|]. intros Hin. apply H0.
  rewrite <- Hv. apply list_elem_of_bind. exists 0. split; [by apply list_elem_of_singleton|done].
Qed.

Lemma TextString_last s : TextString s -> last s <> Some Byte.x00.
Proof.
  intros [_ H0] Hl. apply H0. apply last_Some in Hl as [l ->].
  apply elem_of_app. right. by apply list_elem_of_singleton.
Qed.
