(* ===== verification/Packet.v ===== *)
(** * SMB1 packets ([internal/smb1/packet.go], [internal/smb1/encoder.go])

    The 32-byte header, the AndX block and the packet around them: header,
    word count, parameters, byte count, data.  Values of Go's [uintN] are [Z]
    with their range in a well-formedness predicate; a [byte] array of fixed
    size is a byte list whose length the predicate gives. *)

From S2P Require Export Prelude.

(** ** Constants *)

Definition HeaderSize : Z := 32.
Definition MaxParametersSize : Z := 255 * 2.
Definition MaxDataSize : Z := 130048.
Definition MaxSmallDataSize : Z := 65520.
Definition ProtocolSMB1 : bytes := Byte.xff :: str "SMB".

Definition STATUS_SUCCESS : Z := 0x00000000.
Definition STATUS_MORE_PROCESSING_REQUIRED : Z := 0xC0000016.
Definition SMB_COM_NO_ANDX_COMMAND : Z := 0xFF.

Definition SMB_FLAGS_CASE_INSENSITIVE : Z := 0x08.
Definition SMB_FLAGS_CANONICALIZED_PATHS : Z := 0x10.
Definition SMB_FLAGS_REPLY : Z := 0x80.
Definition SMB_FLAGS2_LONG_NAMES : Z := 0x0001.
Definition SMB_FLAGS2_EAS : Z := 0x0002.
Definition SMB_FLAGS2_EXTENDED_SECURITY : Z := 0x0800.
Definition SMB_FLAGS2_NT_STATUS : Z := 0x4000.
Definition SMB_FLAGS2_UNICODE : Z := 0x8000.

Definition CAP_UNICODE : Z := 0x00000004.
Definition CAP_LARGE_FILES : Z := 0x00000008.
Definition CAP_LARGE_READX : Z := 0x00004000.
Definition CAP_LARGE_WRITEX : Z := 0x00008000.
Definition CAP_EXTENDED_SECURITY : Z := 0x80000000.

(** ** The header *)

Record Header := mkHeader {
  Protocol : bytes;
  Command : Z;
  Status : Z;
  Flags : Z;
  Flags2 : Z;
  PIDHigh : Z;
  SecurityFeatures : bytes;
  Reserved : Z;
  TID : Z;
  PIDLow : Z;
  UID : Z;
  MID : Z;
}.

(** The ranges of the Go types, and the lengths of the arrays. *)
Record Header_wf (h : Header) : Prop := {
  wf_Protocol : length (Protocol h) = 4%nat;
  wf_Command : 0 <= Command h < 2 ^ 8;
  wf_Status : 0 <= Status h < 2 ^ 32;
  wf_Flags : 0 <= Flags h < 2 ^ 8;
  wf_Flags2 : 0 <= Flags2 h < 2 ^ 16;
  wf_PIDHigh : 0 <= PIDHigh h < 2 ^ 16;
  wf_SecurityFeatures : length (SecurityFeatures h) = 8%nat;
  wf_Reserved : 0 <= Reserved h < 2 ^ 16;
  wf_TID : 0 <= TID h < 2 ^ 16;
  wf_PIDLow : 0 <= PIDLow h < 2 ^ 16;
  wf_UID : 0 <= UID h < 2 ^ 16;
  wf_MID : 0 <= MID h < 2 ^ 16;
}.

Definition NewHeader (command : Z) : Header := {|
  Protocol := ProtocolSMB1;
  Command := command;
  Status := STATUS_SUCCESS;
  Flags := Z.lor SMB_FLAGS_CASE_INSENSITIVE SMB_FLAGS_CANONICALIZED_PATHS;
  Flags2 := Z.lor (Z.lor (Z.lor (Z.lor SMB_FLAGS2_LONG_NAMES SMB_FLAGS2_UNICODE)
              SMB_FLAGS2_EXTENDED_SECURITY) SMB_FLAGS2_NT_STATUS) SMB_FLAGS2_EAS;
  PIDHigh := 0;
  SecurityFeatures := replicate 8 Byte.x00;
  Reserved := 0;
  TID := 0;
  PIDLow := 1;
  UID := 0;
  MID := 0;
|}.

Definition Header_Encode (h : Header) : res bytes :=
  let! buf := make HeaderSize in
  let! buf := copy_at buf 0 4 (Protocol h) in
  let! buf := put8 buf 4 (Command h) in
  let! buf := put32 buf 5 9 (Status h) in
  let! buf := put8 buf 9 (Flags h) in
  let! buf := put16 buf 10 12 (Flags2 h) in
  let! buf := put16 buf 12 14 (PIDHigh h) in
  let! buf := copy_at buf 14 22 (SecurityFeatures h) in
  let! buf := put16 buf 22 24 (Reserved h) in
  let! buf := put16 buf 24 26 (TID h) in
  let! buf := put16 buf 26 28 (PIDLow h) in
  let! buf := put16 buf 28 30 (UID h) in
  let! buf := put16 buf 30 32 (MID h) in
  Ok buf.

Definition DecodeHeader (data : bytes) : res Header :=
  if len data <? HeaderSize then Err (Errorf "smb1: header too short") else
  let! protocol := slice data 0 4 in
  if negb (bool_decide (protocol = ProtocolSMB1))
  then Err (Errorf "smb1: invalid protocol signature") else
  let! command := idx8 data 4 in
  let! status := u32 data 5 9 in
  let! flags := idx8 data 9 in
  let! flags2 := u16 data 10 12 in
  let! pidHigh := u16 data 12 14 in
  let! securityFeatures := slice data 14 22 in
  let! reserved := u16 data 22 24 in
  let! tid := u16 data 24 26 in
  let! pidLow := u16 data 26 28 in
  let! uid := u16 data 28 30 in
  let! mid := u16 data 30 32 in
  Ok {| Protocol := protocol; Command := command; Status := status; Flags := flags;
        Flags2 := flags2; PIDHigh := pidHigh; SecurityFeatures := securityFeatures;
        Reserved := reserved; TID := tid; PIDLow := pidLow; UID := uid; MID := mid |}.

Definition IsResponse (h : Header) : bool := negb (Z.land (Flags h) SMB_FLAGS_REPLY =? 0).

Definition IsError (h : Header) : bool :=
  if Status h =? STATUS_MORE_PROCESSING_REQUIRED then false
  else Z.land (Status h) 0xC0000000 =? 0xC0000000.

(** [StatusToError]: [None] is Go's nil error. *)
Definition StatusToError (status : Z) : option error :=
  if status =? STATUS_SUCCESS then None else Some (NtStatus status).
Definition Header_Error (h : Header) : option error := StatusToError (Status h).

(** ** The AndX block *)

Record AndXHeader := mkAndX { AndXCommand : Z; AndXReserved : Z; AndXOffset : Z }.

Definition AndXHeader_wf (a : AndXHeader) : Prop :=
  0 <= AndXCommand a < 2 ^ 8 /\ 0 <= AndXReserved a < 2 ^ 8 /\ 0 <= AndXOffset a < 2 ^ 16.

Definition NewAndXHeader : AndXHeader :=
  {| AndXCommand := SMB_COM_NO_ANDX_COMMAND; AndXReserved := 0; AndXOffset := 0 |}.

Definition AndX_Encode (a : AndXHeader) : res bytes :=
  let! buf := make 4 in
  let! buf := put8 buf 0 (AndXCommand a) in
  let! buf := put8 buf 1 (AndXReserved a) in
  let! buf := put16 buf 2 4 (AndXOffset a) in
  Ok buf.

Definition DecodeAndXHeader (data : bytes) : res AndXHeader :=
  if len data <? 4 then Err (Errorf "smb1: AndX header too short") else
  let! c := idx8 data 0 in
  let! r := idx8 data 1 in
  let! o := u16 data 2 4 in
  Ok {| AndXCommand := c; AndXReserved := r; AndXOffset := o |}.

Definition HasChaining (a : AndXHeader) : bool :=
  negb (AndXCommand a =? SMB_COM_NO_ANDX_COMMAND).

(** ** Packets *)

(** [None] is a nil [*Header]. *)
Definition EncodePacket (header : option Header) (params data : bytes) : res bytes :=
  match header with
  | None => Err (Errorf "smb1: cannot encode packet with nil header")
  | Some h =>
    if negb (len params mod 2 =? 0)
    then Err (Errorf "smb1: parameters size must be multiple of 2 (16-bit words)") else
    if MaxParametersSize <? len params
    then Err (Errorf "smb1: parameters size exceeds maximum") else
    if MaxDataSize <? len data then Err (Errorf "smb1: data size exceeds maximum") else
    let wordCount := wrap 8 (len params / 2) in
    let totalSize := HeaderSize + 1 + len params + 2 + len data in
    let! buf := make totalSize in
    let! enc := Header_Encode h in
    let! buf := copy_at buf 0 HeaderSize enc in
    let! buf := put8 buf HeaderSize wordCount in
    let! buf := if 0 <? len params
                then copy_at buf (HeaderSize + 1) (HeaderSize + 1 + len params) params
                else Ok buf in
    let byteCountOffset := HeaderSize + 1 + len params in
    let! buf := put16 buf byteCountOffset (byteCountOffset + 2)
                  (wrap 16 (Z.land (len data) 0xFFFF)) in
    let! buf := if 0 <? len data
                then copy_at buf (byteCountOffset + 2) (byteCountOffset + 2 + len data) data
                else Ok buf in
    Ok buf
  end.

Definition DecodePacket (raw : bytes) : res (Header * bytes * bytes) :=
  let minPacketSize := HeaderSize + 1 + 2 in
  if len raw <? minPacketSize then Err (Errorf "smb1: packet too short") else
  let! head := slice raw 0 HeaderSize in
  match DecodeHeader head with
  | Panic => Panic
  | Err e => Err (Wrapf "smb1: failed to decode header" e)
  | Ok header =>
    let! wordCount := idx8 raw HeaderSize in
    let paramsSize := wordCount * 2 in
    let paramsOffset := HeaderSize + 1 in
    let byteCountOffset := paramsOffset + paramsSize in
    if len raw <? byteCountOffset + 2
    then Err (Errorf "smb1: packet truncated: parameters and bytecount") else
    let! byteCount := u16 raw byteCountOffset (byteCountOffset + 2) in
    let dataOffset := byteCountOffset + 2 in
    let dataSize := len raw - dataOffset in
    if (dataSize <? byteCount) && (negb (byteCount =? 0xFFFF) || (dataSize =? 0))
    then Err (Errorf "smb1: packet truncated: ByteCount") else
    let! params := if 0 <? paramsSize
                   then slice raw paramsOffset (paramsOffset + paramsSize) else Ok [] in
    let! data := if 0 <? dataSize
                 then slice raw dataOffset (dataOffset + dataSize) else Ok [] in
    Ok (header, params, data)
  end.

(** [uint8], [uint16], [uint32], [uint64], [[]byte], or any other type. *)
Inductive value := VU8 (v : Z) | VU16 (v : Z) | VU32 (v : Z) | VU64 (v : Z)
  | VBytes (b : bytes) | VOther.

Fixpoint encode_values (buf : bytes) (values : list value) : res bytes :=
  match values with
  | [] => Ok buf
  | v :: t =>
    match v with
    | VU8 x => encode_values (buf ++ [byte_of x]) t
    | VU16 x => let! b := make 2 in let! b := put16 b 0 2 x in encode_values (buf ++ b) t
    | VU32 x => let! b := make 4 in let! b := put32 b 0 4 x in encode_values (buf ++ b) t
    | VU64 x => let! b := make 8 in let! b := put64 b 0 8 x in encode_values (buf ++ b) t
    | VBytes b => encode_values (buf ++ b) t
    | VOther => Err (Errorf "smb1: unsupported parameter type")
    end
  end.

Definition EncodeParameters (values : list value) : res bytes :=
  let! buf := encode_values [] values in
  Ok (if len buf mod 2 =? 0 then buf else buf ++ [Byte.x00]).

(** Go's [int] is 64 bits wide: sums of offsets and lengths wrap around. *)
Definition int64 (z : Z) : Z := (z + 2 ^ 63) mod 2 ^ 64 - 2 ^ 63.

Definition DecodeUint8 (buf : bytes) (offset : Z) : res Z :=
  if (offset <? 0) || (len buf <=? offset) then Err (Errorf "smb1: offset out of range")
  else idx8 buf offset.

(** [DecodeUint16], [DecodeUint32] and [DecodeUint64] differ in the width. *)
Definition DecodeUint (n : nat) (buf : bytes) (offset : Z) : res Z :=
  if (offset <? 0) || (len buf <? int64 (offset + Z.of_nat n))
  then Err (Errorf "smb1: offset out of range for uint")
  else let! s := slice buf offset (int64 (offset + Z.of_nat n)) in get_le n s.
Definition DecodeUint16 := DecodeUint 2.
Definition DecodeUint32 := DecodeUint 4.
Definition DecodeUint64 := DecodeUint 8.

Definition DecodeBytes (buf : bytes) (offset length : Z) : res bytes :=
  if (offset <? 0) || (len buf <? int64 (offset + length))
  then Err (Errorf "smb1: offset with length out of range")
  else let! result := make length in
       let! s := slice buf offset (int64 (offset + length)) in
       copy_at result 0 length s.

(** ** Headers *)

(** The encoded header, field by field. *)
Definition Header_bytes (h : Header) : bytes :=
  Protocol h ++ byte_of (Command h) :: le_put 4 (Status h) ++ byte_of (Flags h) ::
  le_put 2 (Flags2 h) ++ le_put 2 (PIDHigh h) ++ SecurityFeatures h ++ le_put 2 (Reserved h) ++
  le_put 2 (TID h) ++ le_put 2 (PIDLow h) ++ le_put 2 (UID h) ++ le_put 2 (MID h).

(** Destructs the fixed-size arrays of a well-formed header. *)
Ltac destruct_len l H :=
  repeat (destruct l as [|? l]; cbn in H; [discriminate|injection H as H]);
  destruct l; [|discriminate].

Lemma Header_Encode_eq h : Header_wf h -> Header_Encode h = Ok (Header_bytes h).
Proof.
  intros [HP _ _ _ _ _ HS _ _ _ _ _]. destruct h as [p c s f f2 ph sf r t pl u m]. cbn in *.
  destruct p as [|p0 [|p1 [|p2 [|p3 [|]]]]]; try discriminate.
  destruct sf as [|s0 [|s1 [|s2 [|s3 [|s4 [|s5 [|s6 [|s7 [|]]]]]]]]]; try discriminate.
  reflexivity.
Qed.

Lemma len_Header_bytes h : Header_wf h -> len (Header_bytes h) = HeaderSize.
Proof.
  intros [HP _ _ _ _ _ HS _ _ _ _ _]. unfold Header_bytes. autorewrite with len.
  unfold len. rewrite HP, HS. reflexivity.
Qed.

Lemma DecodeHeader_bytes h :
  Header_wf h -> Protocol h = ProtocolSMB1 -> DecodeHeader (Header_bytes h) = Ok h.
Proof.
  intros [HP ? ? ? ? ? HS ? ? ? ? ?] Hp. destruct h as [p c s f f2 ph sf r t pl u m]. cbn in *.
  subst p. destruct sf as [|s0 [|s1 [|s2 [|s3 [|s4 [|s5 [|s6 [|s7 [|]]]]]]]]]; try discriminate.
  go_eval. autorewrite with le. reflexivity.
Qed.

Lemma safe_DecodeHeader data : safe (DecodeHeader data).
Proof. unfold DecodeHeader, HeaderSize. safe_tac. Qed.
#[export] Hint Resolve safe_DecodeHeader : safe.

(** The values of a decoded header are in range. *)
Lemma DecodeHeader_wf data h :
  DecodeHeader data = Ok h -> Header_wf h /\ Protocol h = ProtocolSMB1.
Proof.
  unfold DecodeHeader. intros H. inv_binds. injection H as <-. cbn.
  match goal with E : negb _ = false |- _ =>
    apply negb_false_iff, bool_decide_eq_true in E; subst end.
  split; [|done]. split; cbn;
    eauto using idx8_range, u16_range, u32_range.
  match goal with E : slice data 14 22 = Ok _ |- _ => apply slice_inv in E end.
  unfold len in *. lia.
Qed.

(** ** Packets *)

(** The encoded packet, section by section. *)
Definition Packet_bytes (h : Header) (params data : bytes) : bytes :=
  Header_bytes h ++ [byte_of (len params / 2)] ++ params ++
  le_put 2 (len data mod 2 ^ 16) ++ data.

Lemma EncodePacket_eq h params data :
  Header_wf h -> len params mod 2 = 0 -> len params <= MaxParametersSize ->
  len data <= MaxDataSize ->
  EncodePacket (Some h) params data = Ok (Packet_bytes h params data).
Proof.
  intros Hh Hp2 Hp Hd. unfold EncodePacket.
  rewrite Hp2. cbn [negb Z.eqb]. rewrite (proj2 (Z.ltb_ge _ _)) by lia.
  rewrite (proj2 (Z.ltb_ge MaxDataSize _)) by lia.
  pose proof (len_nonneg params). pose proof (len_nonneg data).
  pose proof (len_Header_bytes h Hh) as HL. unfold HeaderSize in *.
  rewrite make_ok by lia. rewrite Header_Encode_eq by done. cbn [bind].
  set (n := Z.to_nat (32 + 1 + len params + 2 + len data)).
  assert (length (Header_bytes h) = 32%nat) as HL' by (unfold len in HL; lia).
  assert (n = 32 + 1 + length params + 2 + length data)%nat as Hn by (unfold n, len; lia).
  pose proof (copy_at_zeros [] (Header_bytes h) n 0 32) as H1. cbn [app] in H1.
  rewrite H1 by (rewrite ?HL; first [reflexivity|lia]). cbn [bind].
  unfold put8. rewrite copy_at_zeros by (autorewrite with len; cbn; lia). cbn [bind].
  change (length [byte_of (wrap 8 (len params / 2))]) with 1%nat.
  rewrite copy_at_if by (autorewrite with len; lia). cbn [bind].
  unfold put16, put_le. rewrite (proj2 (Z.ltb_ge _ _)) by lia.
  rewrite copy_at_zeros by (autorewrite with len; rewrite ?length_le_put; lia). cbn [bind].
  rewrite copy_at_if by (autorewrite with len; rewrite ?length_le_put; lia). cbn [bind].
  rewrite length_le_put, Hn.
  replace (_ - _ - _ - _ - _ - _)%nat with 0%nat by lia.
  unfold Packet_bytes. cbn [replicate]. rewrite app_nil_r, <- !app_assoc. do 3 f_equal.
  - do 3 f_equal. unfold wrap. unfold MaxParametersSize in Hp.
    apply Z.mod_small. Z.to_euclidean_division_equations. lia.
  - do 3 f_equal. unfold wrap. rewrite Z.land_ones with (n := 16) by lia.
    by apply Z.mod_mod.
Qed.

Lemma DecodeHeader_exact data h :
  len data = HeaderSize -> DecodeHeader data = Ok h -> data = Header_bytes h.
Proof.
  intros Hl. unfold len, HeaderSize in Hl.
  do 32 (destruct data as [|? data]; [cbn in Hl; lia|]). destruct data; [|cbn in Hl; lia].
  intros Hd. go_eval_in Hd. case_bool_decide as E; [|discriminate].
  injection Hd as <-. cbv [Header_bytes Protocol Command Status Flags Flags2 PIDHigh
    SecurityFeatures Reserved TID PIDLow UID MID]. autorewrite with wire. reflexivity.
Qed.

(** [DecodePacket] on a frame cut into its sections. *)
Lemma DecodePacket_sections hdr w params bc data :
  len hdr = HeaderSize -> len params = 2 * u8 w -> len bc = 2 ->
  DecodePacket (hdr ++ [w] ++ params ++ bc ++ data) =
  match DecodeHeader hdr with
  | Panic => Panic
  | Err e => Err (Wrapf "smb1: failed to decode header" e)
  | Ok h =>
    if (len data <? le_get bc) && (negb (le_get bc =? 0xFFFF) || (len data =? 0))
    then Err (Errorf "smb1: packet truncated: ByteCount") else Ok (h, params, data)
  end.
Proof.
  intros Hh Hp Hb. unfold DecodePacket. unfold HeaderSize in *.
  pose proof (u8_range w). pose proof (len_nonneg data).
  rewrite (proj2 (Z.ltb_ge _ _)) by (autorewrite with len; lia).
  rewrite slice_prefix by lia. cbn [bind].
  destruct (DecodeHeader hdr) as [h| |]; [|done|done].
  unfold idx8. rewrite index_mid by lia. cbn [bind].
  rewrite (proj2 (Z.ltb_ge _ _)) by (autorewrite with len; lia).
  replace (hdr ++ [w] ++ params ++ bc ++ data)
    with ((hdr ++ [w] ++ params) ++ bc ++ data) by (by rewrite <- !app_assoc).
  unfold u16. rewrite slice_mid by (autorewrite with len; lia). cbn [bind].
  unfold get_le. rewrite (proj2 (Z.ltb_ge _ _)) by lia.
  rewrite take_ge by (unfold len in Hb; lia). cbn [bind].
  replace (len ((hdr ++ [w] ++ params) ++ bc ++ data) - (32 + 1 + u8 w * 2 + 2))
    with (len data) by (autorewrite with len; lia).
  destruct (_ && _); [done|].
  replace (if 0 <? u8 w * 2 then _ else _) with (Ok params).
  2: { destruct (Z.ltb_spec 0 (u8 w * 2)); [|by rewrite (len_0_nil params) by lia].
       replace ((hdr ++ [w] ++ params) ++ bc ++ data)
         with ((hdr ++ [w]) ++ params ++ (bc ++ data)) by (by rewrite <- !app_assoc).
       by rewrite slice_mid by (autorewrite with len; lia). }
  cbn [bind]. replace (if 0 <? len data then _ else _) with (Ok data); [done|].
  destruct (Z.ltb_spec 0 (len data)); [|by rewrite (len_0_nil data) by lia].
  rewrite (app_assoc _ bc).
  by rewrite slice_suffix by (autorewrite with len; lia).
Qed.

(** Every frame long enough for its word count is cut into such sections. *)
Lemma packet_cut (raw : bytes) :
  HeaderSize + 1 + 2 <= len raw ->
  exists hdr w rest, raw = hdr ++ [w] ++ rest /\ len hdr = HeaderSize /\ 2 <= len rest.
Proof.
  intros Hl. unfold HeaderSize in *.
  destruct (split_at raw 32) as (hdr & r & -> & Hh & Hr); [lia|].
  destruct r as [|w rest]; autorewrite with len in Hr, Hl; [lia|].
  exists hdr, w, rest. split; [done|lia].
Qed.

Lemma safe_DecodePacket raw : safe (DecodePacket raw).
Proof.
  unfold DecodePacket, HeaderSize. safe_tac.
Qed.

Lemma DecodePacket_inv raw h params data :
  DecodePacket raw = Ok (h, params, data) ->
  exists bc, raw = Header_bytes h ++ [byte_of (len params / 2)] ++ params ++ le_put 2 bc ++ data
    /\ Header_wf h /\ Protocol h = ProtocolSMB1
    /\ len params mod 2 = 0 /\ len params <= MaxParametersSize
    /\ 0 <= bc < 2 ^ 16 /\ (bc <= len data \/ bc = 0xFFFF /\ data <> []).
Proof.
  intros HD. assert (HeaderSize + 1 + 2 <= len raw) as Hl.
  { unfold DecodePacket in HD. destruct (Z.ltb_spec (len raw) (HeaderSize + 1 + 2)); [done|lia]. }
  destruct (packet_cut raw Hl) as (hdr & w & rest & -> & Hh & Hr).
  pose proof (u8_range w) as Hw.
  destruct (Z.ltb_spec (len rest) (2 * u8 w + 2)) as [Hs|Hs].
  { exfalso. unfold DecodePacket in HD. unfold HeaderSize in *.
    rewrite (proj2 (Z.ltb_ge _ _)) in HD by lia.
    rewrite slice_prefix in HD by lia. cbn [bind] in HD.
    destruct (DecodeHeader hdr); try done.
    unfold idx8 in HD. rewrite index_mid in HD by lia. cbn [bind] in HD.
    rewrite (proj2 (Z.ltb_lt _ _)) in HD by (autorewrite with len; lia). done. }
  destruct (split_at rest (2 * u8 w)) as (p & r2 & -> & Hp & Hr2); [lia|].
  destruct (split_at r2 2) as (bc & d & -> & Hb & Hd); [autorewrite with len in *; lia|].
  rewrite DecodePacket_sections in HD by done.
  destruct (DecodeHeader hdr) as [h'| |] eqn:EH; [|done|done].
  destruct (_ && _) eqn:E; [done|]. injection HD as -> -> ->.
  pose proof (DecodeHeader_exact _ _ Hh EH) as ->.
  apply DecodeHeader_wf in EH as [Hwf HP].
  pose proof (le_get_range bc) as Hbr. rewrite Hb in Hbr.
  assert (le_put 2 (le_get bc) = bc) as Hbc.
  { replace 2%nat with (length bc) by (unfold len in Hb; lia). apply le_put_get. }
  exists (le_get bc). rewrite Hbc, Hp, Z.mul_comm, Z.div_mul, byte_of_u8 by lia.
  split_and!; try done; try lia.
  - Z.to_euclidean_division_equations; lia.
  - unfold MaxParametersSize. lia.
  - destruct (Z.leb_spec (le_get bc) (len data)); [by left|right].
    destruct (Z.eqb_spec (le_get bc) 0xFFFF); [|cbn in E; lia]. split; [done|].
    intros ->. change (len []) with 0 in *. lia.
Qed.

(** The data of a frame is its tail. *)
Lemma DecodePacket_cut raw h params data :
  DecodePacket raw = Ok (h, params, data) ->
  exists pre, raw = pre ++ data /\ len pre = HeaderSize + 1 + len params + 2.
Proof.
  intros H. destruct (DecodePacket_inv _ _ _ _ H) as (bc & -> & Hh & _).
  eexists (Header_bytes h ++ [byte_of (len params / 2)] ++ params ++ le_put 2 bc).
  rewrite <- !app_assoc. split; [done|]. autorewrite with len. rewrite len_Header_bytes by done. lia.
Qed.

(** C18: encoding a packet and decoding the frame gives back the header, the
    parameters and the data, also for data over 64 KiB, whose 16-bit
    [ByteCount] field wraps around. *)
Theorem DecodePacket_EncodePacket h params data :
  Header_wf h -> Protocol h = ProtocolSMB1 ->
  len params mod 2 = 0 -> len params <= MaxParametersSize -> len data <= MaxDataSize ->
  (let! raw := EncodePacket (Some h) params data in DecodePacket raw) = Ok (h, params, data).
Proof.
  intros Hh Hp Hp2 Hpm Hd. rewrite EncodePacket_eq by done. cbn [bind]. unfold Packet_bytes.
  pose proof (len_nonneg params). pose proof (len_nonneg data).
  pose proof (Z.mod_pos_bound (len data) (2 ^ 16) eq_refl) as Hm. unfold MaxParametersSize in *.
  rewrite DecodePacket_sections; cycle 1.
  - by apply len_Header_bytes.
  - rewrite u8_byte_of, Z.mod_small by (Z.to_euclidean_division_equations; lia).
    Z.to_euclidean_division_equations; lia.
  - done.
  - rewrite DecodeHeader_bytes by done. rewrite le_get_put_id by done.
    pose proof (Z.mod_le (len data) (2 ^ 16)).
    rewrite (proj2 (Z.ltb_ge _ _)) by lia. done.
Qed.

Definition example_header : Header := NewHeader 0x2F.
Lemma NewHeader_wf c : 0 <= c < 2 ^ 8 -> Header_wf (NewHeader c).
Proof.
  intros Hc. constructor; try exact Hc; try reflexivity; vm_compute; split; congruence.
Qed.

Lemma DecodePacket_EncodePacket_witness :
  Header_wf example_header /\
  (let! raw := EncodePacket (Some example_header) [Byte.x01; Byte.x02] (str "data") in
   DecodePacket raw) = Ok (example_header, [Byte.x01; Byte.x02], str "data").
Proof.
  split; [by apply NewHeader_wf|].
  apply DecodePacket_EncodePacket;
    first [by apply NewHeader_wf | reflexivity | vm_compute; discriminate].
Defined.

(** A frame is decoded only when every byte of it is accounted for: it is
    the encoding of the returned header, the word count of the returned
    parameters, the parameters, a byte count and the returned data, and the
    byte count promises no more data than is there unless it is the saturated
    0xFFFF of a large transfer. *)
Theorem DecodePacket_exact raw h params data :
  DecodePacket raw = Ok (h, params, data) ->
  exists bc, raw = Header_bytes h ++ [byte_of (len params / 2)] ++ params ++ le_put 2 bc ++ data
    /\ Header_wf h /\ Protocol h = ProtocolSMB1
    /\ len params mod 2 = 0 /\ len params <= MaxParametersSize
    /\ 0 <= bc < 2 ^ 16 /\ (bc <= len data \/ bc = 0xFFFF /\ data <> []).
Proof. apply DecodePacket_inv. Qed.

Lemma DecodePacket_exact_witness :
  let raw := Packet_bytes example_header [Byte.x01; Byte.x02] (str "data") in
  DecodePacket raw = Ok (example_header, [Byte.x01; Byte.x02], str "data") /\
  exists bc, raw = Header_bytes example_header ++ [byte_of (len [Byte.x01; Byte.x02] / 2)]
      ++ [Byte.x01; Byte.x02] ++ le_put 2 bc ++ str "data"
    /\ Header_wf example_header /\ Protocol example_header = ProtocolSMB1
    /\ len [Byte.x01; Byte.x02] mod 2 = 0 /\ len [Byte.x01; Byte.x02] <= MaxParametersSize
    /\ 0 <= bc < 2 ^ 16 /\ (bc <= len (str "data") \/ bc = 0xFFFF /\ str "data" <> []).
Proof.
  split; [vm_compute; reflexivity|]. apply DecodePacket_exact. vm_compute. reflexivity.
Defined.
