(* ===== verification/Netbios.v ===== *)
(** * NetBIOS session framing ([internal/netbios/session.go])

    A [Session] over a connection: the bytes that will arrive, the error the
    connection reports once they are used up, the bytes written so far, whether
    a read deadline is armed, and a log of the reads.  What the environment
    decides during one call (is the context done, does a deadline or a write
    fail) is an argument of the call. *)

From S2P Require Export Prelude.

(** ** Errors and constants *)

Definition EOF : error := Errorf "EOF".
Definition ErrUnexpectedEOF : error := Errorf "unexpected EOF".
Definition ErrClosed : error := Errorf "use of closed network connection".

Definition ErrConnectionClosed : error := Wrapf "netbios: connection closed" ErrClosed.
Definition ErrNotSent : error := Errorf "netbios: packet not sent".

Definition isHangup (err : error) : bool := is_err err EOF || is_err err ErrUnexpectedEOF.

Definition MessageTypeSessionMessage : Z := 0x00.
Definition MessageTypeSessionRequest : Z := 0x81.
Definition MessageTypePositiveResponse : Z := 0x82.
Definition MessageTypeNegativeResponse : Z := 0x83.
Definition MessageTypeRetargetResponse : Z := 0x84.
Definition MessageTypeSessionKeepAlive : Z := 0x85.

Definition MaxMessageSize : Z := 131072.

(** ** The connection *)

Record Session := mkSession {
  inbound : bytes;             (* bytes the peer has sent and will be read *)
  ending : error;              (* what a read reports after them *)
  outbound : bytes;            (* bytes written to the peer *)
  deadline : bool;             (* a read deadline is armed *)
  reads : list (bool * Z);     (* reads made: deadline armed, bytes wanted *)
}.

Definition with_deadline (d : bool) (s : Session) : Session :=
  mkSession (inbound s) (ending s) (outbound s) d (reads s).

(** [io.ReadFull(s.conn, buf)] with [len(buf) = n]: a stream that ends on the
    boundary is [io.EOF], one that ends inside the buffer
    [io.ErrUnexpectedEOF]; another error is reported as it is. *)
Definition ReadFull (n : Z) (s : Session) : res bytes * Session :=
  let used := mkSession [] (ending s) (outbound s) (deadline s) (reads s ++ [(deadline s, n)]) in
  if n <=? len (inbound s) then
    (Ok (take (Z.to_nat n) (inbound s)),
     mkSession (drop (Z.to_nat n) (inbound s)) (ending s) (outbound s) (deadline s)
       (reads s ++ [(deadline s, n)]))
  else if bool_decide (ending s = EOF)
  then (Err (if len (inbound s) =? 0 then EOF else ErrUnexpectedEOF), used)
  else (Err (ending s), used).

(** What happens around one read: the context's error at its two checks, the
    errors of the two [SetReadDeadline] calls. *)
Record read_env := mkReadEnv {
  ctx_start : option error;
  clear_fails : option error;
  ctx_payload : option error;
  arm_fails : option error;
}.
Definition quiet : read_env := mkReadEnv None None None None.

(** ** Reading *)

(** The message data, after the switch on the message type. *)
Definition read_payload (env : read_env) (length : Z) (s : Session) : res bytes * Session :=
  if length =? 0 then (Ok [], s) else
  match ctx_payload env with Some e => (Err e, s) | None =>
  match arm_fails env with
  | Some e => (Err (Wrapf "netbios: failed to set read deadline" e), s)
  | None =>
    match ReadFull length (with_deadline true s) with
    | (Panic, s) => (Panic, with_deadline false s)
    | (Err err, s) =>
      (Err (if isHangup err then ErrConnectionClosed
            else Wrapf "netbios: failed to read message data" err), with_deadline false s)
    | (Ok data, s) => (Ok data, with_deadline false s)
    end
  end end.

Definition ReadPacketContext (env : read_env) (s : Session) : res bytes * Session :=
  match ctx_start env with Some e => (Err e, s) | None =>
  match clear_fails env with
  | Some e => (Err (Wrapf "netbios: failed to clear read deadline" e), s)
  | None =>
  let s := with_deadline false s in
  match ReadFull 4 s with
  | (Panic, s) => (Panic, s)
  | (Err err, s) =>
    if isHangup err then (Err ErrConnectionClosed, s)
    else (Err (Wrapf "netbios: failed to read header" err), s)
  | (Ok header, s) =>
    match index header 0, index header 1, index header 2, index header 3 with
    | Ok h0, Ok h1, Ok h2, Ok h3 =>
      let messageType := u8 h0 in
      let length := Z.lor (Z.lor (wrap 32 (Z.shiftl (u8 h1) 16)) (wrap 32 (Z.shiftl (u8 h2) 8)))
                      (u8 h3) in
      if MaxMessageSize <? length
      then (Err (Errorf "netbios: message size exceeds maximum"), s) else
      if messageType =? MessageTypeSessionMessage then read_payload env length s
      else if messageType =? MessageTypeSessionKeepAlive then
        if negb (length =? 0)
        then (Err (Errorf "netbios: keep-alive message with non-zero length"), s)
        else (Ok [], s)
      else if (messageType =? MessageTypePositiveResponse)
           || (messageType =? MessageTypeNegativeResponse)
           || (messageType =? MessageTypeRetargetResponse) then read_payload env length s
      else (Err (Errorf "netbios: unknown message type"), s)
    | _, _, _, _ => (Panic, s)
    end
  end end end.

(** [ReadPacket] uses [context.Background()], which is never done. *)
Definition ReadPacket (clear_fails arm_fails : option error) : Session -> res bytes * Session :=
  ReadPacketContext (mkReadEnv None clear_fails None arm_fails).

(** ** Writing *)

(** [s.conn.Write(p)]: everything is written, or some bytes and an error. *)
Definition conn_Write (fails : option (nat * error)) (p : bytes) (s : Session)
  : res unit * Session :=
  let out n := mkSession (inbound s) (ending s) (outbound s ++ take n p) (deadline s) (reads s) in
  match fails with
  | None => (Ok tt, out (length p))
  | Some (n, e) => (Err e, out n)
  end.

Definition writePacketType (ctx : option error) (fails : option (nat * error))
    (msgType : Z) (data : bytes) (s : Session) : res unit * Session :=
  match ctx with Some e => (Err (Wrapf2 "%w: %w" ErrNotSent e), s) | None =>
  if MaxMessageSize <? len data
  then (Err (Errorf "netbios: message size exceeds maximum"), s) else
  let length := wrap 32 (len data) in
  let header := [byte_of msgType; byte_of (Z.shiftr length 16); byte_of (Z.shiftr length 8);
                 byte_of length] in
  let packet := if 0 <? len data then header ++ data else header in
  match conn_Write fails packet s with
  | (Ok _, s) => (Ok tt, s)
  | (Err e, s) =>
    (Err (Wrapf (if 0 <? len data then "netbios: failed to write packet"
                 else "netbios: failed to write header") e), s)
  | (Panic, s) => (Panic, s)
  end
  end.

Definition WritePacketContext (ctx : option error) (fails : option (nat * error))
    (data : bytes) (s : Session) : res unit * Session :=
  writePacketType ctx fails MessageTypeSessionMessage data s.
Definition WritePacket (fails : option (nat * error)) := WritePacketContext None fails.

(** ** Frames *)

(** The frame of a message: type, 24-bit big-endian length, payload. *)
Definition frame (t : Z) (data : bytes) : bytes :=
  byte_of t :: byte_of (len data / 65536) :: byte_of (len data / 256) :: byte_of (len data) :: data.

Lemma length_field n :
  0 <= n < 2 ^ 24 ->
  Z.lor (Z.lor (wrap 32 (Z.shiftl (u8 (byte_of (n / 65536))) 16))
           (wrap 32 (Z.shiftl (u8 (byte_of (n / 256))) 8))) (u8 (byte_of n)) = n.
Proof.
  intros Hn. rewrite !u8_byte_of, !Z.shiftl_mul_pow2 by lia.
  pose proof (Z.mod_pos_bound (n / 65536) 256 eq_refl).
  pose proof (Z.mod_pos_bound (n / 256) 256 eq_refl).
  pose proof (Z.mod_pos_bound n 256 eq_refl).
  rewrite !wrap_small by lia. rewrite lor_mul_pow2 by lia.
  replace ((n / 65536) mod 256 * 2 ^ 16 + (n / 256) mod 256 * 2 ^ 8)
    with (n / 256 * 2 ^ 8) by (Z.to_euclidean_division_equations; lia).
  rewrite lor_mul_pow2 by lia. Z.to_euclidean_division_equations; lia.
Qed.

Lemma byte_of_mod z : byte_of (z mod 256) = byte_of z.
Proof. unfold byte_of. by rewrite Z.mod_mod. Qed.

(** Reading from a stream that starts with [a]. *)
Lemma ReadFull_app n a rest s :
  n = len a -> inbound s = a ++ rest ->
  ReadFull n s = (Ok a, mkSession rest (ending s) (outbound s) (deadline s)
                          (reads s ++ [(deadline s, n)])).
Proof.
  intros -> Hi. unfold ReadFull. rewrite Hi, len_app. pose proof (len_nonneg rest).
  rewrite (proj2 (Z.leb_le _ _)) by lia. unfold len. rewrite Nat2Z.id.
  by rewrite take_app_length, drop_app_length.
Qed.

(** Reading past the end of the stream. *)
Lemma ReadFull_short n s :
  len (inbound s) < n ->
  ReadFull n s =
  (Err (if bool_decide (ending s = EOF)
        then if len (inbound s) =? 0 then EOF else ErrUnexpectedEOF else ending s),
   mkSession [] (ending s) (outbound s) (deadline s) (reads s ++ [(deadline s, n)])).
Proof.
  intros Hl. unfold ReadFull. rewrite (proj2 (Z.leb_gt _ _)) by lia. by case_bool_decide.
Qed.

(** The four header bytes and the length they announce. *)
Definition announced (h1 h2 h3 : byte) : Z :=
  Z.lor (Z.lor (wrap 32 (Z.shiftl (u8 h1) 16)) (wrap 32 (Z.shiftl (u8 h2) 8))) (u8 h3).

Lemma announced_frame (data : bytes) :
  len data < 2 ^ 24 ->
  announced (byte_of (len data / 65536)) (byte_of (len data / 256)) (byte_of (len data)) = len data.
Proof. intros. apply length_field. pose proof (len_nonneg data). lia. Qed.

Lemma ReadPacketContext_header env s h0 h1 h2 h3 rest :
  ctx_start env = None -> clear_fails env = None ->
  inbound s = [h0; h1; h2; h3] ++ rest ->
  u8 h0 = MessageTypeSessionMessage ->
  announced h1 h2 h3 <= MaxMessageSize ->
  ReadPacketContext env s =
  read_payload env (announced h1 h2 h3)
    (mkSession rest (ending s) (outbound s) false (reads s ++ [(false, 4)])).
Proof.
  intros Hc Hd Hi Ht Hl. unfold ReadPacketContext. rewrite Hc, Hd.
  rewrite (ReadFull_app 4 [h0; h1; h2; h3] rest) by done.
  change (index [h0; h1; h2; h3] 0) with (Ok h0). change (index [h0; h1; h2; h3] 1) with (Ok h1).
  change (index [h0; h1; h2; h3] 2) with (Ok h2). change (index [h0; h1; h2; h3] 3) with (Ok h3).
  cbv zeta iota beta. fold (announced h1 h2 h3).
  rewrite (proj2 (Z.ltb_ge _ _)) by lia. by rewrite Ht.
Qed.

Lemma WritePacket_ok data s :
  len data <= MaxMessageSize ->
  WritePacket None data s =
  (Ok tt, mkSession (inbound s) (ending s) (outbound s ++ frame 0 data) (deadline s) (reads s)).
Proof.
  intros Hl. unfold WritePacket, WritePacketContext, writePacketType, MaxMessageSize in *.
  rewrite (proj2 (Z.ltb_ge _ _)) by lia. pose proof (len_nonneg data).
  rewrite wrap_small, !Z.shiftr_div_pow2 by lia.
  replace (if 0 <? len data then _ else _) with (frame 0 data).
  - cbn [conn_Write]. by rewrite firstn_all.
  - unfold frame. change (2 ^ 16) with 65536. change (2 ^ 8) with 256.
    destruct (Z.ltb_spec 0 (len data)); [done|]. by rewrite (len_0_nil data) by lia.
Qed.

Lemma ReadPacket_frame data rest s :
  len data <= MaxMessageSize -> inbound s = frame 0 data ++ rest ->
  exists s', ReadPacket None None s = (Ok data, s') /\ inbound s' = rest
    /\ deadline s' = false /\ ending s' = ending s.
Proof.
  intros Hl Hi. unfold MaxMessageSize in Hl.
  unfold ReadPacket. erewrite ReadPacketContext_header;
    [|done|done|exact Hi|by rewrite u8_byte_of|rewrite announced_frame; unfold MaxMessageSize; lia].
  rewrite announced_frame by lia. unfold read_payload. cbn [ctx_payload arm_fails].
  destruct (Z.eqb_spec (len data) 0) as [E|E].
  - rewrite (len_0_nil data E). eexists. split; [reflexivity|]. done.
  - rewrite (ReadFull_app _ data rest) by done. cbv iota beta. eexists. split; [reflexivity|]. done.
Qed.

(** ** A stream of messages *)

Definition WriteAll (ds : list bytes) (s : Session) : Session :=
  foldl (fun s d => (WritePacket None d s).2) s ds.

Fixpoint ReadAll (n : nat) (s : Session) : list (res bytes) :=
  match n with
  | O => []
  | S n => let '(r, s') := ReadPacket None None s in r :: ReadAll n s'
  end.

Lemma WriteAll_outbound ds s :
  Forall (fun d => len d <= MaxMessageSize) ds ->
  outbound (WriteAll ds s) = outbound s ++ (ds ≫= frame 0).
Proof.
  intros H. revert s. induction H as [|d ds Hd _ IH]; intros s; [by cbn; rewrite app_nil_r|].
  change (WriteAll (d :: ds) s) with (WriteAll ds (WritePacket None d s).2).
  rewrite IH, WritePacket_ok by done. cbn [outbound snd mbind list_bind].
  by rewrite <- app_assoc.
Qed.

Lemma ReadAll_frames ds s rest :
  Forall (fun d => len d <= MaxMessageSize) ds ->
  inbound s = (ds ≫= frame 0) ++ rest -> ReadAll (length ds) s = Ok <$> ds.
Proof.
  intros H. revert s. induction H as [|d ds Hd _ IH]; intros s Hi; [done|].
  cbn [mbind list_bind] in Hi. rewrite <- app_assoc in Hi.
  destruct (ReadPacket_frame d _ s Hd Hi) as (s' & E & Hi' & _).
  cbn [length ReadAll]. rewrite E. rewrite fmap_cons. f_equal. by apply IH.
Qed.

(** C23: a reader gets exactly the messages a writer sent over the stream, in
    order and one per call, whatever their sizes up to [MaxMessageSize] and
    whatever follows them in the stream. *)
Theorem ReadAll_WriteAll ds w r rest :
  Forall (fun d => len d <= MaxMessageSize) ds -> outbound w = [] ->
  inbound r = outbound (WriteAll ds w) ++ rest ->
  ReadAll (length ds) r = Ok <$> ds.
Proof.
  intros H Hw Hr. rewrite WriteAll_outbound, Hw in Hr by done. by eapply ReadAll_frames.
Qed.

Definition fresh_session (i : bytes) : Session := mkSession i EOF [] false [].

Lemma ReadAll_WriteAll_witness :
  let ds := [str "negotiate"; []; str "session setup"] in
  let w := WriteAll ds (fresh_session []) in
  ReadAll 3 (fresh_session (outbound w ++ str "tail")) = Ok <$> ds.
Proof.
  cbv zeta. apply (ReadAll_WriteAll [str "negotiate"; []; str "session setup"]
    (fresh_session []) _ (str "tail")); [|reflexivity|reflexivity].
  repeat constructor; vm_compute; discriminate.
Defined.

(** A peer that hangs up anywhere inside a session message, or on the
    boundary before it, is reported as [ErrConnectionClosed], which wraps
    [net.ErrClosed] and does not wrap [io.EOF] or [io.ErrUnexpectedEOF]. *)
Theorem ReadPacket_hangup data k s :
  len data <= MaxMessageSize -> (k < length (frame 0 data))%nat ->
  inbound s = take k (frame 0 data) -> ending s = EOF ->
  (ReadPacket None None s).1 = Err ErrConnectionClosed
  /\ is_err ErrConnectionClosed ErrClosed = true
  /\ isHangup ErrConnectionClosed = false.
Proof.
  intros Hl Hk Hi He. split; [|done]. unfold MaxMessageSize in Hl.
  destruct (decide (k < 4)%nat) as [H4|H4].
  - unfold ReadPacket, ReadPacketContext. cbn [ctx_start clear_fails].
    rewrite ReadFull_short by (cbn [inbound with_deadline]; rewrite Hi, len_take; lia).
    cbn [ending inbound with_deadline]. rewrite He, bool_decide_true by done.
    by destruct (len (inbound s) =? 0).
  - assert (inbound s = [byte_of 0; byte_of (len data / 65536); byte_of (len data / 256);
      byte_of (len data)] ++ take (k - 4) data) as Hi'
      by (rewrite Hi; do 4 (destruct k as [|k]; [lia|]); cbn; by rewrite Nat.sub_0_r).
    cbn [length frame] in Hk. unfold ReadPacket.
    erewrite ReadPacketContext_header;
      [|done|done|exact Hi'|by rewrite u8_byte_of
       |rewrite announced_frame; unfold MaxMessageSize; lia].
    rewrite announced_frame by lia. unfold read_payload. cbn [ctx_payload arm_fails].
    rewrite (proj2 (Z.eqb_neq _ _)) by (unfold len; lia).
    rewrite ReadFull_short by (cbn [inbound with_deadline]; rewrite len_take; unfold len; lia).
    cbn [ending inbound with_deadline]. rewrite He, bool_decide_true by done.
    by destruct (_ =? 0).
Qed.

Lemma ReadPacket_hangup_witness :
  (ReadPacket None None (fresh_session (take 6 (frame 0 (str "message"))))).1
    = Err ErrConnectionClosed
  /\ is_err ErrConnectionClosed ErrClosed = true
  /\ isHangup ErrConnectionClosed = false.
Proof.
  apply (ReadPacket_hangup (str "message") 6);
    [vm_compute; discriminate|vm_compute; lia|reflexivity|reflexivity].
Defined.

(** ** Deadlines, bounds and partial failures *)

Lemma ReadFull_cases n s :
  0 <= n ->
  exists r i, ReadFull n s =
    (r, mkSession i (ending s) (outbound s) (deadline s) (reads s ++ [(deadline s, n)]))
    /\ (forall a, r = Ok a -> len a = n) /\ r <> Panic.
Proof.
  intros Hn. destruct (Z.leb_spec n (len (inbound s))).
  - destruct (split_at (inbound s) n) as (a & b & E & Ha & _); [lia|].
    rewrite (ReadFull_app n a b) by (done || lia). eexists _, _. split; [reflexivity|].
    split; [|done]. by intros ? [= <-].
  - rewrite ReadFull_short by lia. eexists _, _. by split; [reflexivity|].
Qed.

(** The outcome of one call: nothing was read, or the header was read with no
    deadline armed and at most one payload was read with one. *)
Definition read_discipline (s : Session) (r : res bytes) (s' : Session) : Prop :=
  r <> Panic /\ (forall data, r = Ok data -> len data <= MaxMessageSize) /\
  (s' = s /\ (exists e, r = Err e) \/
   deadline s' = false /\
   exists l, reads s' = reads s ++ (false, 4) :: l /\
     (l = [] \/ exists n, l = [(true, n)] /\ 0 < n <= MaxMessageSize)).

Lemma read_discipline_header s r i e o :
  r <> Panic -> (forall data, r = Ok data -> data = []) ->
  read_discipline s r (mkSession i e o false (reads s ++ [(false, 4)])).
Proof.
  intros Hr Hd. split; [done|]. split.
  - intros data E. by rewrite (Hd data E).
  - right. split; [done|]. exists []. split; [done|by left].
Qed.

Lemma announced_nonneg a b c : 0 <= announced a b c.
Proof.
  unfold announced. pose proof (u8_range c).
  assert (forall z, 0 <= wrap 32 z) by (intros; unfold wrap; apply Z.mod_pos_bound; lia).
  apply Z.lor_nonneg. split; [|lia]. apply Z.lor_nonneg. auto.
Qed.

Lemma header_bytes (header : bytes) :
  len header = 4 -> exists h0 h1 h2 h3, header = [h0; h1; h2; h3].
Proof.
  unfold len. intros Hl. destruct header as [|h0 [|h1 [|h2 [|h3 [|]]]]]; cbn in Hl; try lia.
  eauto.
Qed.

Lemma read_payload_discipline env n s i e o :
  0 <= n <= MaxMessageSize ->
  read_discipline s
    (read_payload env n (mkSession i e o false (reads s ++ [(false, 4)]))).1
    (read_payload env n (mkSession i e o false (reads s ++ [(false, 4)]))).2.
Proof.
  intros Hn. unfold read_payload.
  destruct (Z.eqb_spec n 0); [apply read_discipline_header; [done|by intros ? [= <-]]|].
  destruct (ctx_payload env); [by apply read_discipline_header|].
  destruct (arm_fails env); [by apply read_discipline_header|].
  edestruct (ReadFull_cases n) as (r & i' & -> & Hlen & Hp); [lia|].
  cbn [deadline with_deadline ending outbound reads inbound].
  destruct r as [a|err|]; [| |done]; cbn [fst snd];
    (split; [done|]; split; [intros d [= <-]; rewrite (Hlen a eq_refl); lia || done|]);
    (right; split; [done|]; exists [(true, n)]; cbn [reads with_deadline];
     rewrite <- app_assoc; split; [done|right; exists n; split; [done|lia]]).
Qed.

(** In every environment and for every stream, [ReadPacketContext] does not
    panic, returns at most [MaxMessageSize] bytes, never has a deadline armed
    while it waits for a header, has one armed whenever it waits for a payload
    (whose buffer is at most [MaxMessageSize]), and leaves none armed. *)
Theorem ReadPacketContext_deadline env s :
  read_discipline s (ReadPacketContext env s).1 (ReadPacketContext env s).2.
Proof.
  unfold ReadPacketContext.
  destruct (ctx_start env); [by split; [|split]; [..|left]; eauto|].
  destruct (clear_fails env); [by split; [|split]; [..|left]; eauto|].
  destruct (ReadFull_cases 4 (with_deadline false s)) as (r & i & -> & Hlen & Hp); [lia|].
  cbn [deadline with_deadline ending outbound reads].
  destruct r as [header|err|]; [|destruct (isHangup err); by apply read_discipline_header|done].
  specialize (Hlen header eq_refl). destruct (header_bytes header Hlen) as (h0 & h1 & h2 & h3 & ->).
  change (index [h0; h1; h2; h3] 0) with (Ok h0). change (index [h0; h1; h2; h3] 1) with (Ok h1).
  change (index [h0; h1; h2; h3] 2) with (Ok h2). change (index [h0; h1; h2; h3] 3) with (Ok h3).
  cbv zeta iota beta. fold (announced h1 h2 h3). pose proof (announced_nonneg h1 h2 h3).
  destruct (Z.ltb_spec MaxMessageSize (announced h1 h2 h3)); [by apply read_discipline_header|].
  repeat match goal with |- context [if ?b then _ else _] => destruct b end;
    first [apply read_payload_discipline; lia | cbn [fst snd]; apply read_discipline_header; congruence].
Qed.

(** A packet abandoned because the context was done is reported as
    [ErrNotSent] with nothing written; any other failure of a write leaves that
    error out (so the caller knows the stream may be torn), and a success has
    written exactly the frame. *)
Theorem WritePacketContext_outcome ctx fails data s :
  (forall n e, fails = Some (n, e) -> is_err e ErrNotSent = false) ->
  match WritePacketContext ctx fails data s with
  | (Ok _, s') => ctx = None /\ outbound s' = outbound s ++ frame 0 data
  | (Err e, s') =>
    (is_err e ErrNotSent = true <-> ctx <> None) /\
    (is_err e ErrNotSent = true -> s' = s)
  | (Panic, _) => False
  end.
Proof.
  intros Hf. destruct ctx as [e|].
  { cbn. by rewrite orb_true_r || (rewrite bool_decide_true by done; cbn; rewrite ?orb_true_r). }
  destruct (Z.leb_spec (len data) MaxMessageSize) as [Hl|Hl].
  - destruct fails as [[n e]|]; [|change (WritePacketContext None None) with (WritePacket None);
      by rewrite WritePacket_ok].
    specialize (Hf n e eq_refl). unfold WritePacketContext, writePacketType.
    rewrite (proj2 (Z.ltb_ge _ _)) by lia. cbn [conn_Write].
    cbn [is_err]. rewrite Hf, bool_decide_false by done. done.
  - unfold WritePacketContext, writePacketType. rewrite (proj2 (Z.ltb_lt _ _)) by lia.
    cbn [is_err]. rewrite bool_decide_false by done. done.
Qed.

Lemma WritePacketContext_outcome_witness :
  match WritePacketContext None (Some (2%nat, Errorf "broken pipe")) (str "x")
          (fresh_session []) with
  | (Ok _, s') => @None error = None /\ outbound s' = [] ++ frame 0 (str "x")
  | (Err e, s') =>
    (is_err e ErrNotSent = true <-> @None error <> None) /\
    (is_err e ErrNotSent = true -> s' = fresh_session [])
  | (Panic, _) => False
  end.
Proof.
  apply (WritePacketContext_outcome None (Some (2%nat, Errorf "broken pipe")) (str "x")
           (fresh_session [])).
  intros n e [= <- <-]. reflexivity.
Defined.
