(* ===== verification/Conn.v ===== *)
(** * Request multiplexing ([internal/client/conn.go])

    One connection shared by many requests: message IDs (MIDs), the map of
    pending requests, the channels their replies are handed over on, teardown.
    Each definition of the first part is one critical section of the code, that
    is one stretch of it under the mutex [c.mu] (or one channel operation);
    goroutines interleave between them, which the step relation of [ConnSteps]
    describes.  Channels are objects of a heap ([chans]), since the sender of a
    request, the receive loop and teardown share them. *)

From stdpp Require Export gmap.
From S2P Require Export Packet Netbios.

(** ** Constants and errors *)

Definition conn_ErrConnectionClosed : error := Wrapf "smb1: connection closed" ErrClosed.
Definition ErrMIDsExhausted : error :=
  Wrapf "smb1: every message ID is held by a request awaiting its reply" conn_ErrConnectionClosed.

Definition responseQueueDepth : Z := 64.
Definition reservedMID : Z := 0xFFFF.
Definition maxTrans2Fragments : Z := 64.

(** ** State *)

(** A received message, or (without a header) a wake-up call of teardown. *)
Record response := mkResponse {
  r_header : option Header;
  r_params : bytes;
  r_data : bytes;
  r_err : option error;
}.
Definition wakeup (e : option error) : response := mkResponse None [] [] e.

Record pendingRequest := mkPending {
  respCh : nat;          (* the channel, by its address *)
  cancelled : bool;
  transaction : bool;
}.

(** A buffered Go channel. *)
Record chan := mkChan { queue : list response; capacity : Z; chan_closed : bool }.

Record Conn := mkConn {
  nextMID : Z;
  pending : gmap Z pendingRequest;
  chans : gmap nat chan;
  next_chan : nat;             (* the next free channel address *)
  done : bool;                 (* the channel [done] is closed *)
  conn_err : option error;
  socket_open : bool;          (* [netbiosConn.Close()] has not been called *)
  panicked : bool;             (* a send on, or a close of, a closed channel *)
}.

Definition set_pending (p : gmap Z pendingRequest) (c : Conn) : Conn :=
  mkConn (nextMID c) p (chans c) (next_chan c) (done c) (conn_err c) (socket_open c) (panicked c).
Definition set_nextMID (n : Z) (c : Conn) : Conn :=
  mkConn n (pending c) (chans c) (next_chan c) (done c) (conn_err c) (socket_open c) (panicked c).
Definition set_chans (h : gmap nat chan) (c : Conn) : Conn :=
  mkConn (nextMID c) (pending c) h (next_chan c) (done c) (conn_err c) (socket_open c) (panicked c).
Definition set_panicked (c : Conn) : Conn :=
  mkConn (nextMID c) (pending c) (chans c) (next_chan c) (done c) (conn_err c) (socket_open c) true.
Definition set_done (e : option error) (c : Conn) : Conn :=
  mkConn (nextMID c) (pending c) (chans c) (next_chan c) true e (socket_open c) (panicked c).
Definition close_socket (c : Conn) : Conn :=
  mkConn (nextMID c) (pending c) (chans c) (next_chan c) (done c) (conn_err c) false (panicked c).

Definition NewConn : Conn := mkConn 0 ∅ ∅ 0 false None true false.

(** ** Channel operations *)

(** [make(chan *response, n)] *)
Definition make_chan (n : Z) (c : Conn) : nat * Conn :=
  (next_chan c,
   mkConn (nextMID c) (pending c) (<[next_chan c := mkChan [] n false]> (chans c))
     (S (next_chan c)) (done c) (conn_err c) (socket_open c) (panicked c)).

(** [select { case ch <- r: default: }]: a full channel drops the message, a
    closed one panics. *)
Definition try_send (k : nat) (r : response) (c : Conn) : Conn :=
  match chans c !! k with
  | None => c
  | Some ch =>
    if chan_closed ch then set_panicked c
    else if len (queue ch) <? capacity ch
    then set_chans (<[k := mkChan (queue ch ++ [r]) (capacity ch) false]> (chans c)) c
    else c
  end.

(** [close(ch)] *)
Definition close_chan (k : nat) (c : Conn) : Conn :=
  match chans c !! k with
  | None => c
  | Some ch =>
    if chan_closed ch then set_panicked c
    else set_chans (<[k := mkChan (queue ch) (capacity ch) true]> (chans c)) c
  end.

(** [<-ch] when it does not block: a message, or nil from a closed and drained
    channel. *)
Definition chan_recv (k : nat) (c : Conn) : option (option response * Conn) :=
  match chans c !! k with
  | None => None
  | Some ch =>
    match queue ch with
    | r :: q => Some (Some r, set_chans (<[k := mkChan q (capacity ch) (chan_closed ch)]> (chans c)) c)
    | [] => if chan_closed ch then Some (None, c) else None
    end
  end.

(** ** Teardown *)

(** Sends [r] to every pending request (the loops of [Close] and
    [setErrorLocked]). *)
Definition wake_all (p : gmap Z pendingRequest) (r : response) (c : Conn) : Conn :=
  map_fold (fun _ req c => try_send (respCh req) r c) c p.

Definition setErrorLocked (err : error) (c : Conn) : Conn :=
  if done c then c else
  let e := match conn_err c with None => Some err | Some e => Some e end in
  set_done e (set_pending ∅ (wake_all (pending c) (wakeup (Some err)) c)).

Definition setError := setErrorLocked.

(** [Close] under the lock: the pending map it swapped out, to be swept outside
    the lock; [None] when the connection was closed already. *)
Definition Close_locked (c : Conn) : option (gmap Z pendingRequest) * Conn :=
  if done c then (None, c)
  else (Some (pending c), set_pending ∅ (set_done (Some conn_ErrConnectionClosed) c)).

(** [Close] after the lock: wakes and closes every channel of the swept map,
    then closes the socket. *)
Definition Close_sweep (swept : gmap Z pendingRequest) (c : Conn) : Conn :=
  close_socket
    (map_fold (fun _ req c =>
       close_chan (respCh req)
         (try_send (respCh req) (wakeup (Some conn_ErrConnectionClosed)) c)) c swept).

(** [Close] when nothing interleaves. *)
Definition Close (c : Conn) : Conn :=
  match Close_locked c with
  | (None, c) => c
  | (Some swept, c) => Close_sweep swept c
  end.

(** ** Message IDs *)

(** The loop of [allocateMID]; [fuel] bounds its passes, see
    [allocateMID_total]. *)
Fixpoint allocate_loop (fuel : nat) (start : Z) (c : Conn) : option (res Z * Conn) :=
  match fuel with
  | O => None
  | S fuel =>
    let mid := nextMID c in
    let c := set_nextMID (wrap 16 (nextMID c + 1)) c in
    if negb (mid =? reservedMID) && bool_decide (pending c !! mid = None)
    then Some (Ok mid, c)
    else if nextMID c =? start
    then Some (Err ErrMIDsExhausted, close_socket (setErrorLocked ErrMIDsExhausted c))
    else allocate_loop fuel start c
  end.

Definition allocateMID (c : Conn) : res Z * Conn :=
  default (Panic, c) (allocate_loop (Pos.to_nat 65536) (nextMID c) c).

(** ** Requests *)

(** [beginRequest] under the lock: the channel and the MID of the request.  A
    closed connection has an error ([Conn_wf]). *)
Definition begin_locked (tr : bool) (c : Conn) : res (nat * Z) * Conn :=
  if done c then (match conn_err c with Some e => Err e | None => Panic end, c) else
  match allocateMID c with
  | (Ok mid, c) =>
    let '(k, c) := make_chan responseQueueDepth c in
    (Ok (k, mid), set_pending (<[mid := mkPending k false tr]> (pending c)) c)
  | (Err e, c) => (Err e, c)
  | (Panic, c) => (Panic, c)
  end.

(** [cleanup] of [beginRequest]. *)
Definition cleanup (mid : Z) (c : Conn) : Conn := set_pending (delete mid (pending c)) c.

(** [beginRequest] when nothing interleaves: register, encode, write.  The
    header gets the MID; [ctx] and [fails] are the environment of the write. *)
Definition with_MID (h : Header) (mid : Z) : Header :=
  mkHeader (Protocol h) (Command h) (Status h) (Flags h) (Flags2 h) (PIDHigh h)
    (SecurityFeatures h) (Reserved h) (TID h) (PIDLow h) (UID h) mid.

Definition beginRequest (header : Header) (params data : bytes) (tr : bool)
    (ctx : option error) (fails : option (nat * error)) (c : Conn) (s : Session)
  : res (nat * Z) * Conn * Session :=
  match begin_locked tr c with
  | (Ok (k, mid), c) =>
    match EncodePacket (Some (with_MID header mid)) params data with
    | Ok packet =>
      match WritePacketContext ctx fails packet s with
      | (Ok _, s) => (Ok (k, mid), c, s)
      | (Err err, s) =>
        let c := cleanup mid c in
        let c := if negb (is_err err ErrNotSent)
                 then setError (Wrapf "smb1: failed to send packet" err) c else c in
        (Err err, c, s)
      | (Panic, s) => (Panic, c, s)
      end
    | Err e => (Err (Wrapf "smb1: failed to encode packet" e), cleanup mid c, s)
    | Panic => (Panic, c, s)
    end
  | (Err e, c) => (Err e, c, s)
  | (Panic, c) => (Panic, c, s)
  end.

(** [send], which waits for no reply and registers nothing. *)
Definition send (header : Header) (params data : bytes) (fails : option (nat * error)) (c : Conn) (s : Session)
  : res () * Conn * Session :=
  if done c then (match conn_err c with Some e => Err e | None => Ok () end, c, s) else
  match allocateMID c with
  | (Ok mid, c) =>
    match EncodePacket (Some (with_MID header mid)) params data with
    | Ok packet =>
      match WritePacket fails packet s with
      | (Ok _, s) => (Ok (), c, s)
      | (Err err, s) => (Err err, setError (Wrapf "smb1: failed to send packet" err) c, s)
      | (Panic, s) => (Panic, c, s)
      end
    | Err e => (Err (Wrapf "smb1: failed to encode packet" e), c, s)
    | Panic => (Panic, c, s)
    end
  | (Err e, c) => (Err e, c, s)
  | (Panic, c) => (Panic, c, s)
  end.

Definition releaseLocked (mid : Z) (k : nat) (abandoned : bool) (c : Conn) : Conn :=
  match pending c !! mid with
  | None => c
  | Some req =>
    if negb (bool_decide (respCh req = k)) then c else
    let queued := match chans c !! k with Some ch => 0 <? len (queue ch) | None => false end in
    if negb abandoned || (queued && negb (transaction req))
    then set_pending (delete mid (pending c)) c
    else set_pending (<[mid := mkPending (respCh req) true (transaction req)]> (pending c)) c
  end.

(** ** The receive loop *)

(** The reply to hand over: [NtStatus] errors only. *)
Definition response_of (h : Header) (params data : bytes) : response :=
  mkResponse (Some h) params data (if IsError h then Header_Error h else None).

(** Hands a message to the request holding its MID, under the lock; also says
    to which channel it went. *)
Definition dispatch (h : Header) (params data : bytes) (c : Conn) : option nat * Conn :=
  match pending c !! MID h with
  | None => (None, c)
  | Some req =>
    if cancelled req then
      (None, if negb (transaction req) then set_pending (delete (MID h) (pending c)) c else c)
    else (Some (respCh req), try_send (respCh req) (response_of h params data) c)
  end.

(** One iteration of [Receive] on what [ReadPacket] returned; the boolean says
    whether the loop goes on. *)
Definition Receive_step (packet : res bytes) (c : Conn) : bool * Conn :=
  if done c then (false, Close c) else
  match packet with
  | Panic => (false, Close c)
  | Err e => (false, Close (setError (Wrapf "smb1: failed to read packet" e) c))
  | Ok raw =>
    match DecodePacket raw with
    | Ok (h, params, data) => (true, (dispatch h params data c).2)
    | Err _ => (true, c)
    | Panic => (false, set_panicked c)
    end
  end.

(** ** Waiting *)

(** What [select] in [awaitResponse] may pick. *)
Inductive wait_event :=
  | EvResponse (r : option response)   (* a receive on the channel; nil if closed *)
  | EvCtx (e : error)                  (* the context is done *)
  | EvDone.                            (* the connection is closed *)

(** [connError] is nil only while the connection is open ([Conn_wf]); the code
    would then return a nil response with a nil error, which its callers
    dereference. *)
Definition awaitResponse (ev : wait_event) (connError : option error) : res response :=
  match ev with
  | EvResponse None => Panic           (* resp.header with resp = nil *)
  | EvResponse (Some r) =>
    match r_header r with
    | None =>
      match r_err r, connError with
      | Some e, _ => Err e
      | None, Some e => Err e
      | None, None => Err conn_ErrConnectionClosed
      end
    | Some _ => Ok r
    end
  | EvCtx e => Err e
  | EvDone => match connError with Some e => Err e | None => Panic end
  end.

(** ** Well-formedness *)

Record Conn_wf (c : Conn) : Prop := {
  wf_nextMID : 0 <= nextMID c < 2 ^ 16;
  wf_err : done c = true -> conn_err c <> None;
}.

(** ** Allocation of message IDs *)

(** A MID that cannot be handed out. *)
Definition held (c : Conn) (mid : Z) : Prop := mid = reservedMID \/ is_Some (pending c !! mid).

#[export] Instance held_dec c mid : Decision (held c mid).
Proof. unfold held. apply _. Defined.

Lemma not_held_bool c mid :
  negb (mid =? reservedMID) && bool_decide (pending c !! mid = None) = true <-> ~ held c mid.
Proof.
  unfold held. rewrite andb_true_iff, negb_true_iff, Z.eqb_neq, bool_decide_eq_true,
    eq_None_not_Some. tauto.
Qed.

(** The outcomes of [allocateMID]: a free MID, with the search resumed after it,
    or, when every MID is held, the connection torn down. *)
Definition allocation (c : Conn) (r : res Z) (c' : Conn) : Prop :=
  (exists mid, r = Ok mid /\ 0 <= mid < 2 ^ 16 /\ ~ held c mid
     /\ c' = set_nextMID (wrap 16 (mid + 1)) c)
  \/ (r = Err ErrMIDsExhausted /\ (forall mid, 0 <= mid < 2 ^ 16 -> held c mid)
      /\ c' = close_socket (setErrorLocked ErrMIDsExhausted c)).

Lemma set_nextMID_id n m c : set_nextMID n (set_nextMID m c) = set_nextMID n c.
Proof. done. Qed.
Lemma set_nextMID_self c : set_nextMID (nextMID c) c = c.
Proof. by destruct c. Qed.

Lemma wrap16_range z : 0 <= wrap 16 z < 2 ^ 16.
Proof. apply Z.mod_pos_bound. lia. Qed.

(** The MIDs seen so far are [start], ..., [start + i - 1]. *)
Lemma allocate_loop_spec i fuel c0 start :
  nextMID c0 = start -> 0 <= start < 2 ^ 16 -> 0 <= i < 2 ^ 16 ->
  (forall j, 0 <= j < i -> held c0 (wrap 16 (start + j))) ->
  2 ^ 16 - i <= Z.of_nat fuel ->
  exists r c', allocate_loop fuel start (set_nextMID (wrap 16 (start + i)) c0) = Some (r, c')
    /\ allocation c0 r c'.
Proof.
  intros H0 Hs. revert i. induction fuel as [|fuel IH]; intros i Hi Hheld Hf; [lia|].
  cbn [allocate_loop]. cbv zeta. pose proof (wrap16_range (start + i)) as Hr.
  rewrite set_nextMID_id. cbn [nextMID set_nextMID pending].
  replace (wrap 16 (wrap 16 (start + i) + 1)) with (wrap 16 (start + (i + 1)))
    by (unfold wrap; rewrite Z.add_mod_idemp_l by lia; f_equal; lia).
  destruct (decide (held c0 (wrap 16 (start + i)))) as [Hh|Hh].
  - destruct (negb _ && _) eqn:E; [by apply not_held_bool in E|].
    assert (forall j, 0 <= j < i + 1 -> held c0 (wrap 16 (start + j))) as Hheld'.
    { intros j Hj. destruct (decide (j = i)) as [->|]; [done|]. apply Hheld. lia. }
    destruct (Z.eqb_spec (wrap 16 (start + (i + 1))) start) as [E2|E2].
    + eexists _, _. split; [reflexivity|]. right. split; [done|].
      assert (i = 2 ^ 16 - 1) as ->
        by (unfold wrap in E2; Z.to_euclidean_division_equations; lia).
      split.
      * intros mid Hm. replace mid with (wrap 16 (start + wrap 16 (mid - start)));
          [apply Hheld'; pose proof (wrap16_range (mid - start)); lia|].
        unfold wrap. rewrite Z.add_mod_idemp_r by lia.
        replace (start + (mid - start)) with mid by lia. by apply Z.mod_small.
      * rewrite E2, <- H0. by rewrite set_nextMID_self.
    + assert (i <> 2 ^ 16 - 1).
      { intros ->. apply E2. unfold wrap. replace (start + (2 ^ 16 - 1 + 1)) with (start + 1 * 2 ^ 16) by lia.
        rewrite Z.mod_add by lia. by apply Z.mod_small. }
      apply IH; [lia|done|lia].
  - rewrite (proj2 (not_held_bool c0 _) Hh). eexists _, _. split; [reflexivity|]. left.
    exists (wrap 16 (start + i)). split_and!; try done; try lia. f_equal.
    unfold wrap. rewrite Z.add_mod_idemp_l by lia. f_equal. lia.
Qed.

Lemma allocateMID_outcome c :
  Conn_wf c -> allocation c (allocateMID c).1 (allocateMID c).2.
Proof.
  intros [Hn _]. unfold allocateMID.
  destruct (allocate_loop_spec 0 (Pos.to_nat 65536) c (nextMID c)) as (r & c' & E & H);
    [done|done|lia|intros; lia|lia|].
  rewrite Z.add_0_r, (wrap_small 16), set_nextMID_self in E by done.
  by rewrite E.
Qed.

(** [allocateMID] terminates within one pass over the ID space: it returns a
    16-bit MID that is neither reserved nor held by a pending request, moving
    only the search position, or, exactly when no MID is free, tears the
    connection down and reports [ErrMIDsExhausted]. *)
Theorem allocateMID_spec c :
  Conn_wf c ->
  (exists mid, allocateMID c = (Ok mid, set_nextMID (wrap 16 (mid + 1)) c)
     /\ 0 <= mid < 2 ^ 16 /\ mid <> reservedMID /\ pending c !! mid = None)
  \/ (allocateMID c = (Err ErrMIDsExhausted, close_socket (setErrorLocked ErrMIDsExhausted c))
      /\ forall mid, 0 <= mid < 2 ^ 16 -> mid <> reservedMID -> is_Some (pending c !! mid)).
Proof.
  intros Hwf. destruct (allocateMID_outcome c Hwf) as [(m & E1 & Hr & Hh & E2)|(E1 & Hh & E2)];
    rewrite (surjective_pairing (allocateMID c)), E1, E2; [left|right].
  - exists m. unfold held in Hh. rewrite eq_None_not_Some. tauto.
  - split; [done|]. intros mid Hm Hne. by destruct (Hh mid Hm).
Qed.

Lemma allocateMID_spec_witness : Conn_wf NewConn /\ True.
Proof.
  assert (Conn_wf NewConn) as H by (split; [cbn; lia|done]).
  split; [exact H|]. destruct (allocateMID_spec NewConn H); exact I.
Defined.

(** [send] reserves no MID: the requests in flight are those from before. *)
Lemma send_reserves_nothing header params data fails c s c' s' :
  Conn_wf c -> send header params data fails c s = (Ok (), c', s') -> pending c' = pending c.
Proof.
  intros Hc. unfold send. destruct (done c); [destruct (conn_err c); by intros [= <- _]|].
  pose proof (allocateMID_outcome c Hc) as Ha. destruct (allocateMID c) as [r c1]. cbn [fst snd] in Ha.
  destruct Ha as [(mid & -> & _ & _ & ->)|(-> & _)]; [|done].
  destruct (EncodePacket _ _ _) as [packet|e|]; [|done..].
  destruct (WritePacket _ _ _) as [[[]|e|] s1]; [by intros [= <- _]|done..].
Qed.
