(* ===== verification/ConnSteps.v ===== *)
(** * The connection as a state machine

    Goroutines that send requests, the receive loop and teardown, interleaved
    at the critical sections of [Conn]; and what the server may do.  A request
    is named by the address of its channel.  Ghost state records, for every
    request, its MID, whether it is a transaction and how far its sender is
    ([reqs]), which requests the server still owes messages to ([owed]), and
    for every hand-over to a channel which request the message answered
    ([delivered]).

    Assumptions on the server, the guards of [step_reply] and [step_stray]: it
    answers requests it was sent, under their MIDs, with one message unless the
    request is a transaction; messages of its own carry the reserved MID. *)

From stdpp Require Export relations.
From S2P Require Export Conn.

Inductive phase :=
  | Registered          (* in the pending map, not yet written *)
  | Broken (e : error)  (* its write failed, teardown to follow *)
  | OnWire              (* written, its sender waits *)
  | Settled.            (* its sender has called [finish], or it was not sent *)

Record reqinfo := mkReq {
  ri_mid : Z;
  ri_tr : bool;
  ri_phase : phase;
  ri_got : bool;        (* its sender has received a message of the server *)
}.

Record World := mkWorld {
  conn : Conn;
  reqs : gmap nat reqinfo;
  owed : gset nat;
  sweeping : option (gmap Z pendingRequest);   (* [Close] between its two parts *)
  delivered : list (nat * option nat);
}.

Definition init : World := mkWorld NewConn ∅ ∅ None [].

Definition with_conn (c : Conn) (w : World) : World :=
  mkWorld c (reqs w) (owed w) (sweeping w) (delivered w).
Definition with_req (k : nat) (ri : reqinfo) (w : World) : World :=
  mkWorld (conn w) (<[k := ri]> (reqs w)) (owed w) (sweeping w) (delivered w).
Definition with_phase (p : phase) (ri : reqinfo) : reqinfo :=
  mkReq (ri_mid ri) (ri_tr ri) p (ri_got ri).

(** When [finish(false)] is called: a message of the server has been received
    for an ordinary request; the whole reply for a transaction, which the
    counts in it tell; or the connection is gone. *)
Definition may_release (w : World) (k : nat) (ri : reqinfo) : Prop :=
  done (conn w) = true \/ (if ri_tr ri then k ∉ owed w else ri_got ri = true).

Inductive step (w : World) : World -> Prop :=
  | step_begin tr k mid c :
      begin_locked tr (conn w) = (Ok (k, mid), c) ->
      step w (with_req k (mkReq mid tr Registered false) (with_conn c w))
  | step_begin_fails tr e c :
      begin_locked tr (conn w) = (Err e, c) ->
      step w (with_conn c w)
  | step_sent k ri :
      reqs w !! k = Some ri -> ri_phase ri = Registered ->
      step w (mkWorld (conn w) (<[k := with_phase OnWire ri]> (reqs w)) ({[k]} ∪ owed w)
                (sweeping w) (delivered w))
  | step_unsent k ri :
      reqs w !! k = Some ri -> ri_phase ri = Registered ->
      step w (with_req k (with_phase Settled ri) (with_conn (cleanup (ri_mid ri) (conn w)) w))
  | step_write_fails k ri e :
      reqs w !! k = Some ri -> ri_phase ri = Registered ->
      step w (with_req k (with_phase (Broken e) ri) (with_conn (cleanup (ri_mid ri) (conn w)) w))
  | step_write_error k ri e :
      reqs w !! k = Some ri -> ri_phase ri = Broken e ->
      step w (with_req k (with_phase Settled ri)
                (with_conn (setError (Wrapf "smb1: failed to send packet" e) (conn w)) w))
  | step_reply k ri h params data (final : bool) :
      k ∈ owed w -> reqs w !! k = Some ri -> MID h = ri_mid ri ->
      (ri_tr ri = false -> final = true) ->
      let d := dispatch h params data (conn w) in
      step w (mkWorld d.2 (reqs w) (if final then owed w ∖ {[k]} else owed w) (sweeping w)
                (delivered w ++ match d.1 with Some k' => [(k', Some k)] | None => [] end))
  | step_stray h params data :
      MID h = reservedMID ->
      let d := dispatch h params data (conn w) in
      step w (mkWorld d.2 (reqs w) (owed w) (sweeping w)
                (delivered w ++ match d.1 with Some k' => [(k', None)] | None => [] end))
  | step_read_error e :
      step w (with_conn (setError (Wrapf "smb1: failed to read packet" e) (conn w)) w)
  | step_recv k ri r c :
      reqs w !! k = Some ri -> ri_phase ri = OnWire ->
      chan_recv k (conn w) = Some (Some r, c) ->
      step w (with_req k (mkReq (ri_mid ri) (ri_tr ri) OnWire
                            (ri_got ri || bool_decide (r_header r <> None))) (with_conn c w))
  | step_finish k ri (abandoned : bool) :
      reqs w !! k = Some ri -> ri_phase ri = OnWire ->
      (abandoned = false -> may_release w k ri) ->
      step w (with_req k (with_phase Settled ri)
                (with_conn (releaseLocked (ri_mid ri) k abandoned (conn w)) w))
  | step_close swept c :
      Close_locked (conn w) = (Some swept, c) ->
      step w (mkWorld c (reqs w) (owed w) (Some swept) (delivered w))
  | step_sweep swept :
      sweeping w = Some swept ->
      step w (mkWorld (Close_sweep swept (conn w)) (reqs w) (owed w) None (delivered w)).

Definition reachable (w : World) : Prop := rtc step init w.

(** ** Invariants *)

(** The clauses that always hold. *)
Record Base (w : World) : Prop := {
  b_wf : Conn_wf (conn w);
  b_done : done (conn w) = true -> pending (conn w) = ∅;
  b_chans : forall k, is_Some (chans (conn w) !! k) <-> Nat.lt k (next_chan (conn w));
  b_reqs : forall k ri, reqs w !! k = Some ri -> (k < next_chan (conn w))%nat;
  b_owed : forall k, k ∈ owed w -> is_Some (reqs w !! k);
  b_panic : panicked (conn w) = false;
  b_closed : forall k ch, chans (conn w) !! k = Some ch -> chan_closed ch = true ->
    done (conn w) = true /\ sweeping w = None;
  b_sweep : forall p, sweeping w = Some p -> done (conn w) = true /\
    (forall i j x y, p !! i = Some x -> p !! j = Some y -> respCh x = respCh y -> i = j);
  b_delivered : forall k o, (k, o) ∈ delivered w -> o = Some k;
}.

(** The clauses that hold until teardown. *)
Record Live (w : World) : Prop := {
  (** a pending entry is its request's, and is cancelled only once settled *)
  l_pending : forall m req, pending (conn w) !! m = Some req ->
    m <> reservedMID /\ exists ri, reqs w !! respCh req = Some ri /\ ri_mid ri = m
      /\ ri_tr ri = transaction req
      /\ (if cancelled req then ri_phase ri = Settled
          else ri_phase ri = Registered \/ ri_phase ri = OnWire);
  (** a request holds its MID while it is owed a message *)
  l_owed : forall k ri, k ∈ owed w -> reqs w !! k = Some ri ->
    exists req, pending (conn w) !! ri_mid ri = Some req /\ respCh req = k;
  (** a request whose sender waits holds its MID, and is owed nothing before it is sent *)
  l_active : forall k ri, reqs w !! k = Some ri ->
    ri_phase ri = Registered \/ ri_phase ri = OnWire ->
    (exists req, pending (conn w) !! ri_mid ri = Some req /\ respCh req = k)
    /\ (ri_phase ri = Registered -> (k ∉ owed w) /\ ri_got ri = false
        /\ exists ch, chans (conn w) !! k = Some ch /\ queue ch = []);
  (** an ordinary request that is owed its message has not got one *)
  l_single : forall k ri, k ∈ owed w -> reqs w !! k = Some ri -> ri_tr ri = false ->
    ri_got ri = false /\ exists ch, chans (conn w) !! k = Some ch /\ queue ch = [];
}.

Definition Inv (w : World) : Prop := Base w /\ (done (conn w) = false -> Live w).

(** ** Channel operations *)

(** [c'] is [c] but for messages added to open channels. *)
Definition control (c : Conn) :=
  (nextMID c, pending c, next_chan c, conn_err c, done c, socket_open c).

Record grows (c c' : Conn) : Prop := {
  g_control : control c' = control c;
  g_chan : forall k, match chans c !! k with
    | None => chans c' !! k = None
    | Some ch => exists q, chans c' !! k = Some (mkChan (queue ch ++ q) (capacity ch) (chan_closed ch))
    end;
}.

Lemma grows_refl c : grows c c.
Proof.
  split; [done|]. intros k. destruct (chans c !! k) as [[q n b]|]; [|done].
  exists []. by rewrite app_nil_r.
Qed.

Lemma grows_trans a b c : grows a b -> grows b c -> grows a c.
Proof.
  intros [H1 H2] [H3 H4]. split; [congruence|]. intros k. specialize (H2 k). specialize (H4 k).
  destruct (chans a !! k) as [ch|].
  - destruct H2 as [q E]. rewrite E in H4. destruct H4 as [q' E']. cbn in E'.
    exists (q ++ q'). by rewrite app_assoc.
  - by rewrite H2 in H4.
Qed.

Lemma try_send_grows k r c : grows c (try_send k r c).
Proof.
  unfold try_send. destruct (chans c !! k) as [ch|] eqn:E; [|apply grows_refl].
  destruct (chan_closed ch) eqn:Ec; [by destruct (grows_refl c)|].
  destruct (_ <? _); [|apply grows_refl]. split; [done|].
  intros k'. cbn [chans set_chans]. destruct (decide (k = k')) as [<-|Hk].
  - rewrite E, lookup_insert_eq. exists [r]. by rewrite Ec.
  - rewrite lookup_insert_ne by done. destruct (chans c !! k') as [[q n b]|]; [|done].
    exists []. by rewrite app_nil_r.
Qed.

Lemma try_send_panicked k r c :
  panicked (try_send k r c) = panicked c \/
  exists ch, chans c !! k = Some ch /\ chan_closed ch = true.
Proof.
  unfold try_send. destruct (chans c !! k) as [ch|] eqn:E; [|by left].
  destruct (chan_closed ch) eqn:Ec; [right; eauto|left]. by destruct (_ <? _).
Qed.

Lemma wake_all_grows p r c : grows c (wake_all p r c).
Proof.
  unfold wake_all. apply (map_fold_weak_ind (fun c' _ => grows c c')).
  - apply grows_refl.
  - intros i x m c' _ H. eapply grows_trans; [exact H|apply try_send_grows].
Qed.

(** No channel is closed, so waking does not panic. *)
Definition all_open (c : Conn) : Prop :=
  forall k ch, chans c !! k = Some ch -> chan_closed ch = false.

Lemma grows_open c c' : grows c c' -> all_open c -> all_open c'.
Proof.
  intros [_ H] Ho k ch E. specialize (H k). destruct (chans c !! k) as [ch0|] eqn:E0.
  - destruct H as [q E1]. rewrite E1 in E. injection E as <-. cbn. by eapply Ho.
  - congruence.
Qed.

Lemma wake_all_panicked p r c :
  all_open c -> panicked (wake_all p r c) = panicked c.
Proof.
  intros Ho. unfold wake_all.
  apply (map_fold_weak_ind (fun c' _ => grows c c' /\ panicked c' = panicked c)).
  - split; [apply grows_refl|done].
  - intros i x m c' _ [Hg Hp]. split; [eapply grows_trans; [exact Hg|apply try_send_grows]|].
    destruct (try_send_panicked (respCh x) r c') as [->|(ch & E & Hc)]; [done|].
    apply (grows_open c c' Hg Ho) in E. congruence.
Qed.

(** Same control state and the same channel addresses. *)
Definition same_frame (c c' : Conn) : Prop :=
  control c' = control c /\ forall k, is_Some (chans c' !! k) <-> is_Some (chans c !! k).

Lemma grows_frame c c' : grows c c' -> same_frame c c'.
Proof.
  intros [H1 H2]. split; [done|]. intros k. specialize (H2 k).
  destruct (chans c !! k); [destruct H2 as [q ->]|rewrite H2]; split; eauto; by intros [? ?].
Qed.

Lemma same_frame_trans a b c : same_frame a b -> same_frame b c -> same_frame a c.
Proof.
  intros [H1 H2] [H3 H4]. split; [congruence|]. intros k. by rewrite H4, H2.
Qed.

Lemma close_chan_frame k c : same_frame c (close_chan k c).
Proof.
  unfold close_chan. destruct (chans c !! k) as [ch|] eqn:E; [|done].
  destruct (chan_closed ch); [done|]. split; [done|]. intros k'. cbn [chans set_chans].
  destruct (decide (k = k')) as [<-|]; [rewrite lookup_insert_eq, E; split; eauto|].
  by rewrite lookup_insert_ne.
Qed.

Lemma close_chan_closed k c k' ch :
  chans (close_chan k c) !! k' = Some ch -> chan_closed ch = true ->
  k' = k \/ exists ch0, chans c !! k' = Some ch0 /\ chan_closed ch0 = true.
Proof.
  unfold close_chan. destruct (chans c !! k) as [ch1|] eqn:E; [|eauto].
  destruct (chan_closed ch1) eqn:E1; [eauto|]. cbn [chans set_chans].
  destruct (decide (k = k')) as [<-|]; [by left|]. rewrite lookup_insert_ne by done. eauto.
Qed.

Lemma close_chan_panicked k c :
  (forall ch, chans c !! k = Some ch -> chan_closed ch = false) ->
  panicked (close_chan k c) = panicked c.
Proof.
  intros H. unfold close_chan. destruct (chans c !! k) as [ch|]; [|done]. by rewrite H.
Qed.

Lemma grows_closed c c' k ch :
  grows c c' -> chans c' !! k = Some ch -> chan_closed ch = true ->
  exists ch0, chans c !! k = Some ch0 /\ chan_closed ch0 = true.
Proof.
  intros [_ H] E Hc. specialize (H k). destruct (chans c !! k) as [ch0|]; [|congruence].
  destruct H as [q E']. rewrite E' in E. injection E as <-. eauto.
Qed.

Definition injective (p : gmap Z pendingRequest) : Prop :=
  forall i j x y, p !! i = Some x -> p !! j = Some y -> respCh x = respCh y -> i = j.

Lemma injective_insert i x m : m !! i = None -> injective (<[i := x]> m) ->
  injective m /\ forall j y, m !! j = Some y -> respCh y <> respCh x.
Proof.
  intros Hi Hinj. split.
  - intros a b u v Ha Hb. apply (Hinj a b u v); rewrite lookup_insert_ne; congruence.
  - intros j y Hj Heq. assert (j = i) as ->; [|congruence].
    apply (Hinj j i y x); [|by rewrite lookup_insert_eq|done].
    rewrite lookup_insert_ne; congruence.
Qed.

(** Sweeping distinct open channels closes each once and does not panic. *)
Lemma sweep_spec p c :
  all_open c -> injective p ->
  panicked (Close_sweep p c) = panicked c /\
  (forall k, is_Some (chans (Close_sweep p c) !! k) <-> is_Some (chans c !! k)) /\
  control (Close_sweep p c) = control (close_socket c).
Proof.
  intros Ho Hp. unfold Close_sweep.
  set (f := fun (_ : Z) req c => close_chan (respCh req)
         (try_send (respCh req) (wakeup (Some conn_ErrConnectionClosed)) c)).
  enough (same_frame c (map_fold f c p) /\ (injective p ->
    panicked (map_fold f c p) = panicked c /\
    forall k ch, chans (map_fold f c p) !! k = Some ch -> chan_closed ch = true ->
      exists i x, p !! i = Some x /\ respCh x = k)) as [[H1 H2] H3].
  { destruct (H3 Hp) as [H4 _]. split; [done|]. split; [done|].
    revert H1. unfold control. cbn. intros [=]. congruence. }
  apply (map_fold_weak_ind (fun c' m => same_frame c c' /\ (injective m ->
    panicked c' = panicked c /\
    forall k ch, chans c' !! k = Some ch -> chan_closed ch = true ->
      exists i x, m !! i = Some x /\ respCh x = k))).
  - split; [done|]. intros _. split; [done|]. intros k ch E. apply Ho in E. congruence.
  - intros i x m c' Hi [Hf IH]. unfold f.
    set (c1 := try_send (respCh x) _ c'). pose proof (try_send_grows (respCh x)
      (wakeup (Some conn_ErrConnectionClosed)) c') as Hg. fold c1 in Hg. split.
    { eapply same_frame_trans; [exact Hf|]. eapply same_frame_trans;
        [by apply grows_frame|apply close_chan_frame]. }
    intros Hinj. destruct (injective_insert i x m Hi Hinj) as [Hm Hne].
    destruct (IH Hm) as [IHp IHc].
    assert (forall ch, chans c' !! respCh x = Some ch -> chan_closed ch = false) as Hx.
    { intros ch E. destruct (chan_closed ch) eqn:Ec; [|done].
      destruct (IHc _ _ E Ec) as (j & y & Hj & Hk). by apply Hne in Hj. }
    split.
    + rewrite close_chan_panicked.
      * destruct (try_send_panicked (respCh x) (wakeup (Some conn_ErrConnectionClosed)) c')
          as [E|(ch & E & Ec)]; [unfold c1; congruence|]. apply Hx in E. congruence.
      * intros ch E. destruct (chan_closed ch) eqn:Ec; [|done].
        destruct (grows_closed _ _ _ _ Hg E Ec) as (ch0 & E0 & Ec0). apply Hx in E0. congruence.
    + intros k ch E Ec. destruct (close_chan_closed _ _ _ _ E Ec) as [->|(ch0 & E0 & Ec0)].
      * exists i, x. by rewrite lookup_insert_eq.
      * destruct (grows_closed _ _ _ _ Hg E0 Ec0) as (ch1 & E1 & Ec1).
        destruct (IHc _ _ E1 Ec1) as (j & y & Hj & Hk). exists j, y.
        by rewrite lookup_insert_ne by congruence.
Qed.

(** ** Teardown *)

Lemma Base_open w : Base w -> done (conn w) = false -> all_open (conn w).
Proof.
  intros HB Hd k ch E. destruct (chan_closed ch) eqn:Ec; [|done].
  destruct (b_closed w HB k ch E Ec). congruence.
Qed.

Lemma Inv_done w : Base w -> done (conn w) = true -> Inv w.
Proof. intros HB Hd. split; [done|congruence]. Qed.

Lemma setErrorLocked_done e c : done (setErrorLocked e c) = true.
Proof. unfold setErrorLocked. by destruct (done c) eqn:E. Qed.

(** Only [reqs] and the ghost fields change, and no request is forgotten. *)
Lemma Base_reqs w rs ow :
  Base w ->
  (forall k ri, rs !! k = Some ri -> is_Some (reqs w !! k)) ->
  (forall k, is_Some (reqs w !! k) -> is_Some (rs !! k)) -> ow ⊆ dom rs ->
  Base (mkWorld (conn w) rs ow (sweeping w) (delivered w)).
Proof.
  intros [] H1 H2 H3. split; cbn; try done.
  - intros k ri E. destruct (H1 _ _ E) as [ri' E']. eauto.
  - intros k Hk. apply elem_of_dom, H3, Hk.
Qed.

Lemma Base_with_req w k ri ri' :
  Base w -> reqs w !! k = Some ri -> Base (with_req k ri' w).
Proof.
  intros HB Hk. apply Base_reqs; [done| | |].
  - intros j rj. destruct (decide (k = j)) as [<-|]; [by rewrite Hk|].
    rewrite lookup_insert_ne by done. eauto.
  - intros j. destruct (decide (k = j)) as [<-|]; [by rewrite lookup_insert_eq|].
    by rewrite lookup_insert_ne.
  - intros j Hj. apply elem_of_dom. destruct (b_owed w HB j Hj) as [x Hx].
    destruct (decide (k = j)) as [<-|]; [by rewrite lookup_insert_eq|].
    rewrite lookup_insert_ne by done. eauto.
Qed.

Lemma Base_setError w e : Base w -> Base (with_conn (setErrorLocked e (conn w)) w).
Proof.
  intros HB. unfold setErrorLocked. destruct (done (conn w)) eqn:Hd.
  { destruct w as [c r o s d]. exact HB. }
  pose proof (Base_open w HB Hd) as Ho.
  pose proof (wake_all_grows (pending (conn w)) (wakeup (Some e)) (conn w)) as Hg.
  pose proof (wake_all_panicked (pending (conn w)) (wakeup (Some e)) (conn w) Ho) as Hp.
  set (c' := wake_all _ _ _) in *.
  pose proof (grows_frame _ _ Hg) as [Hc Hk]. unfold control in Hc. injection Hc as Hn _ Hnc _ _ _.
  destruct HB as [[Hw1 Hw2] B2 B3 B4 B5 B6 B7 B8 B9]. split; cbn; try done.
  - split; cbn; [by rewrite Hn|by destruct (conn_err (conn w))].
  - intros k. by rewrite Hk, Hnc.
  - intros k ri. rewrite Hnc. apply B4.
  - congruence.
  - intros k ch E Ec. apply (grows_open _ _ Hg Ho) in E. congruence.
  - intros p E. by destruct (B8 p E).
Qed.

Lemma Base_close_socket w : Base w -> Base (with_conn (close_socket (conn w)) w).
Proof. intros [[] ? ? ? ? ? ? ? ?]. by split; [split|..]. Qed.

(** ** Frame lemmas for the live clauses *)

(** Fewer messages owed. *)
Lemma Live_owed w ow dl :
  Live w -> ow ⊆ owed w -> Live (mkWorld (conn w) (reqs w) ow (sweeping w) dl).
Proof.
  intros [L1 L2 L3 L4] Ho. split; cbn; eauto.
  intros k ri Hk Hph. destruct (L3 k ri Hk Hph) as [H1 H2]. split; [done|].
  intros E. destruct (H2 E) as (H3 & H4). split; [|done].
    intros Hin. by apply H3, Ho.
Qed.

(** The entry of request [k] is removed, [k] being owed nothing any more. *)
Lemma Live_free w k ri ri' ow dl :
  Live w -> reqs w !! k = Some ri ->
  (exists req, pending (conn w) !! ri_mid ri = Some req /\ respCh req = k) ->
  ow ⊆ owed w -> k ∉ ow ->
  ri_phase ri' <> Registered -> ri_phase ri' <> OnWire ->
  Live (mkWorld (set_pending (delete (ri_mid ri) (pending (conn w))) (conn w))
          (<[k := ri']> (reqs w)) ow (sweeping w) dl).
Proof.
  intros [L1 L2 L3 L4] Hk (req & Hp & Hreq) How Hkow Hr Hw. split; cbn.
  - intros m rq. rewrite lookup_delete_Some. intros [Hm E].
    destruct (L1 _ _ E) as (H1 & rj & H2 & H3 & H4). split; [done|].
    rewrite lookup_insert_ne; [by exists rj|]. intros Heq. congruence.
  - intros j rj Hj. assert (j <> k) by (intros ->; by apply Hkow). rewrite lookup_insert_ne by done. intros Ej.
    destruct (L2 j rj (How _ Hj) Ej) as (rq & E & Hq). exists rq. split; [|done].
    rewrite lookup_delete_ne; [done|]. intros Hm. congruence.
  - intros j rj. destruct (decide (k = j)) as [<-|Hne].
    + rewrite lookup_insert_eq. intros [= <-] [?|?]; congruence.
    + rewrite lookup_insert_ne by done. intros Ej Hph.
      destruct (L3 j rj Ej Hph) as [(rq & E & Hq) H2]. split.
      * exists rq. rewrite lookup_delete_ne; [done|]. congruence.
      * intros E'. destruct (H2 E') as (H3 & H4). split; [|done].
        intros Hin. by apply H3, How.
  - intros j rj Hj. assert (j <> k) by (intros ->; by apply Hkow). rewrite lookup_insert_ne by done. eauto.
Qed.

(** The entry of request [k] is marked cancelled. *)
Lemma Live_cancel w k ri :
  Live w -> reqs w !! k = Some ri ->
  (exists req, pending (conn w) !! ri_mid ri = Some req /\ respCh req = k) ->
  (k ∈ owed w -> ri_tr ri = false -> ri_got ri = false) ->
  Live (with_req k (with_phase Settled ri)
    (with_conn (set_pending (<[ri_mid ri := mkPending k true (ri_tr ri)]> (pending (conn w)))
       (conn w)) w)).
Proof.
  intros [L1 L2 L3 L4] Hk (req & Hp & Hreq) Hgot. split; cbn.
  - intros m rq. destruct (decide (ri_mid ri = m)) as [<-|Hm].
    + rewrite lookup_insert_eq. intros [= <-]. cbn. destruct (L1 _ _ Hp) as (H1 & _).
      split; [done|]. exists (with_phase Settled ri). by rewrite lookup_insert_eq.
    + rewrite lookup_insert_ne by done. intros E. destruct (L1 _ _ E) as (H1 & rj & H2 & H3 & H4).
      split; [done|]. rewrite lookup_insert_ne; [by exists rj|]. intros Heq. congruence.
  - intros j rj Hj. destruct (decide (k = j)) as [<-|Hne].
    + rewrite lookup_insert_eq. intros [= <-]. cbn. rewrite lookup_insert_eq. eauto.
    + rewrite lookup_insert_ne by done. intros Ej.
      destruct (L2 j rj Hj Ej) as (rq & E & Hq). exists rq. split; [|done].
      rewrite lookup_insert_ne; [done|]. congruence.
  - intros j rj. destruct (decide (k = j)) as [<-|Hne].
    + rewrite lookup_insert_eq. intros [= <-]. cbn. by intros [?|?].
    + rewrite lookup_insert_ne by done. intros Ej Hph.
      destruct (L3 j rj Ej Hph) as [(rq & E & Hq) H2]. split; [|done].
      exists rq. rewrite lookup_insert_ne; [done|]. congruence.
  - intros j rj Hj. destruct (decide (k = j)) as [<-|Hne].
    + rewrite lookup_insert_eq. intros [= <-]. cbn. intros Htr. by apply (L4 k ri).
    + rewrite lookup_insert_ne by done. eauto.
Qed.

(** ** The steps preserve the invariant *)

Lemma begin_locked_ok tr c k mid c' :
  Conn_wf c -> begin_locked tr c = (Ok (k, mid), c') ->
  done c = false /\ 0 <= mid < 2 ^ 16 /\ mid <> reservedMID /\ pending c !! mid = None
  /\ k = next_chan c
  /\ c' = mkConn (wrap 16 (mid + 1)) (<[mid := mkPending k false tr]> (pending c))
            (<[k := mkChan [] responseQueueDepth false]> (chans c)) (S k)
            (done c) (conn_err c) (socket_open c) (panicked c).
Proof.
  intros Hwf. unfold begin_locked. destruct (done c) eqn:Hd; [by destruct (conn_err c)|].
  destruct (allocateMID_outcome c Hwf) as [(m & E1 & Hr & Hh & E2)|(E1 & _ & E2)];
    destruct (allocateMID c) as [r c1]; cbn in E1, E2; subst r c1; [|done].
  cbn. intros [= <- <- <-]. unfold held in Hh. split_and!; try done; try lia.
  - apply eq_None_not_Some. tauto.
  - unfold set_pending. cbn. by rewrite Hd.
Qed.

Lemma begin_locked_err tr c e c' :
  Conn_wf c -> begin_locked tr c = (Err e, c') ->
  (done c = true /\ c' = c) \/
  (done c = false /\ e = ErrMIDsExhausted
   /\ (forall mid, 0 <= mid < 2 ^ 16 -> held c mid)
   /\ c' = close_socket (setErrorLocked ErrMIDsExhausted c)).
Proof.
  intros Hwf. unfold begin_locked. destruct (done c) eqn:Hd.
  { destruct (conn_err c); intros [= <- <-]; by left. }
  destruct (allocateMID_outcome c Hwf) as [(m & E1 & Hr & Hh & E2)|(E1 & Hh & E2)];
    destruct (allocateMID c) as [r c1]; cbn in E1, E2; subst r c1; [done|].
  intros [= <- <-]. right. done.
Qed.

Lemma inv_begin w tr k mid c :
  Inv w -> begin_locked tr (conn w) = (Ok (k, mid), c) ->
  Inv (with_req k (mkReq mid tr Registered false) (with_conn c w)).
Proof.
  intros [[Hwf B2 B3 B4 B5 B6 B7 B8 B9] HL] E. apply begin_locked_ok in E; [|done].
  destruct E as (Hd & Hm & Hres & Hp & Hk & ->). specialize (HL Hd).
  assert (reqs w !! k = None) as Hfresh.
  { destruct (reqs w !! k) eqn:E; [|done]. apply B4 in E. lia. }
  assert (k ∉ owed w) as Hno by (intros [? ?]%B5; congruence).
  destruct Hwf as [Hw1 Hw2]. split.
  - split; cbn; try done.
    + split; cbn; [apply wrap16_range|done].
    + congruence.
    + intros j. destruct (decide (k = j)) as [<-|Hne].
      * rewrite lookup_insert_eq. split; [lia|eauto].
      * rewrite lookup_insert_ne, B3 by done. lia.
    + intros j rj. destruct (decide (k = j)) as [<-|Hne]; [lia|].
      rewrite lookup_insert_ne by done. intros Ej%B4. lia.
    + intros j Hj. rewrite lookup_insert_ne by congruence. auto.
    + intros j ch. destruct (decide (k = j)) as [<-|Hne].
      * rewrite lookup_insert_eq. by intros [= <-].
      * rewrite lookup_insert_ne by done. apply B7.
  - intros _. destruct HL as [L1 L2 L3 L4]. split; cbn.
    + intros m rq. destruct (decide (mid = m)) as [<-|Hne].
      * rewrite lookup_insert_eq. intros [= <-]. cbn. split; [done|].
        eexists. rewrite lookup_insert_eq. split; [reflexivity|]. cbn. tauto.
      * rewrite lookup_insert_ne by done. intros Ej. destruct (L1 _ _ Ej) as (H1 & rj & H2 & H3).
        split; [done|]. rewrite lookup_insert_ne by congruence. by exists rj.
    + intros j rj Hj. rewrite lookup_insert_ne by congruence. intros Ej.
      destruct (L2 j rj Hj Ej) as (rq & Eq & Hq). exists rq.
      rewrite lookup_insert_ne; [done|congruence].
    + intros j rj. destruct (decide (k = j)) as [<-|Hne].
      * rewrite lookup_insert_eq. intros [= <-] _. cbn. rewrite !lookup_insert_eq.
        split; [by eexists|]. intros _. split; [done|]. split; [done|]. by eexists.
      * rewrite lookup_insert_ne by done. intros Ej Hph.
        destruct (L3 j rj Ej Hph) as [(rq & Eq & Hq) H2]. split.
        { exists rq. rewrite lookup_insert_ne; [done|congruence]. }
        rewrite lookup_insert_ne by done. done.
    + intros j rj Hj. rewrite !lookup_insert_ne by congruence. eauto.
Qed.

Lemma inv_begin_fails w tr e c :
  Inv w -> begin_locked tr (conn w) = (Err e, c) -> Inv (with_conn c w).
Proof.
  intros HI E. pose proof HI as [HB _].
  destruct (begin_locked_err tr (conn w) e c (b_wf w HB) E) as [[Hd ->]|(Hd & _ & _ & ->)].
  - by destruct w.
  - apply Inv_done; [|apply setErrorLocked_done].
    apply (Base_close_socket (with_conn _ w)), Base_setError, HB.
Qed.

Lemma inv_setError w e : Inv w -> Inv (with_conn (setError e (conn w)) w).
Proof.
  intros [HB _]. apply Inv_done; [by apply Base_setError|apply setErrorLocked_done].
Qed.

Lemma inv_write_error w k ri e :
  Inv w -> reqs w !! k = Some ri ->
  Inv (with_req k (with_phase Settled ri) (with_conn (setError e (conn w)) w)).
Proof.
  intros HI Hk. pose proof (inv_setError w e HI) as [HB _].
  apply Inv_done; [by eapply Base_with_req|apply setErrorLocked_done].
Qed.

Lemma inv_sent w k ri :
  Inv w -> reqs w !! k = Some ri -> ri_phase ri = Registered ->
  Inv (mkWorld (conn w) (<[k := with_phase OnWire ri]> (reqs w)) ({[k]} ∪ owed w)
         (sweeping w) (delivered w)).
Proof.
  intros [HB HL] Hk Hph. split.
  - apply Base_reqs; [done| | |].
    + intros j rj. destruct (decide (k = j)) as [<-|]; [by rewrite Hk|].
      rewrite lookup_insert_ne by done. eauto.
    + intros j. destruct (decide (k = j)) as [<-|]; [by rewrite lookup_insert_eq|].
      by rewrite lookup_insert_ne.
    + rewrite dom_insert_L. intros j Hj. apply elem_of_union in Hj as [Hj|Hj]; [by apply elem_of_union_l|].
      apply elem_of_union_r, elem_of_dom, (b_owed w HB j Hj).
  - intros Hd. cbn in Hd. destruct (HL Hd) as [L1 L2 L3 L4].
    destruct (L3 k ri Hk (or_introl Hph)) as [Hent Hreg]. destruct (Hreg Hph) as (Hno & Hgot & Hq).
    split; cbn.
    + intros m rq E. destruct (L1 m rq E) as (H1 & rj & H2 & H3 & H4 & H5). split; [done|].
      destruct (decide (k = respCh rq)) as [Hkq|Hne].
      * rewrite Hkq, lookup_insert_eq. exists (with_phase OnWire ri). cbn.
        assert (rj = ri) as -> by congruence. split_and!; try done.
        destruct (cancelled rq); [congruence|by right].
      * rewrite lookup_insert_ne by done. by exists rj.
    + intros j rj Hj. destruct (decide (k = j)) as [<-|Hne].
      * rewrite lookup_insert_eq. intros [= <-]. done.
      * rewrite lookup_insert_ne by done. apply L2. by apply elem_of_union in Hj as [?%elem_of_singleton|].
    + intros j rj. destruct (decide (k = j)) as [<-|Hne].
      * rewrite lookup_insert_eq. by intros [= <-] _.
      * rewrite lookup_insert_ne by done. intros Ej Hp. destruct (L3 j rj Ej Hp) as [H1 H2].
        split; [done|]. intros E. destruct (H2 E) as [H3 H4]. split; [|done].
        by intros [?%elem_of_singleton|]%elem_of_union.
    + intros j rj Hj. destruct (decide (k = j)) as [<-|Hne].
      * rewrite lookup_insert_eq. intros [= <-] _. done.
      * rewrite lookup_insert_ne by done. apply L4. by apply elem_of_union in Hj as [?%elem_of_singleton|].
Qed.

Lemma Base_set_pending w p :
  Base w -> (done (conn w) = true -> p = ∅) -> Base (with_conn (set_pending p (conn w)) w).
Proof. intros [[] ? ? ? ? ? ? ? ?] Hp. by split; [split|..]. Qed.

(** A request that was not written gives its entry back. *)
Lemma inv_cleanup w k ri p :
  Inv w -> reqs w !! k = Some ri -> ri_phase ri = Registered ->
  p <> Registered -> p <> OnWire ->
  Inv (with_req k (with_phase p ri) (with_conn (cleanup (ri_mid ri) (conn w)) w)).
Proof.
  intros [HB HL] Hk Hph H1 H2. split.
  - eapply (Base_with_req (with_conn _ w)); [|exact Hk]. apply Base_set_pending; [done|].
    intros Hd. by rewrite (b_done w HB Hd), delete_empty.
  - intros Hd. specialize (HL Hd). destruct (l_active w HL k ri Hk (or_introl Hph)) as [Hent Hreg].
    apply (Live_free w k ri (with_phase p ri) (owed w) (delivered w)); try done.
    by destruct (Hreg Hph).
Qed.

Lemma Base_grows w c :
  Base w -> grows (conn w) c -> panicked c = false -> Base (with_conn c w).
Proof.
  intros [[Hw1 Hw2] B2 B3 B4 B5 B6 B7 B8 B9] Hg Hp.
  pose proof (grows_frame _ _ Hg) as [Hc Hk].
  unfold control in Hc. injection Hc as Hc1 Hc2 Hc3 Hc4 Hc5 Hc6.
  split; cbn; rewrite ?Hc2, ?Hc3, ?Hc5; try done.
  - split; rewrite ?Hc1, ?Hc4, ?Hc5; done.
  - intros k. by rewrite Hk.
  - intros k ch E Ec. destruct (grows_closed _ _ _ _ Hg E Ec) as (ch0 & E0 & Ec0). eauto.
Qed.

(** The ghost fields that a message changes. *)
Lemma Base_ghost w ow l :
  Base w -> ow ⊆ owed w -> (forall k o, (k, o) ∈ l -> o = Some k) ->
  Base (mkWorld (conn w) (reqs w) ow (sweeping w) (delivered w ++ l)).
Proof.
  intros [] Ho Hl. split; cbn; try done; [eauto|].
  intros k o [?|?]%elem_of_app; eauto.
Qed.

Lemma try_send_ne k j r c : k <> j -> chans (try_send k r c) !! j = chans c !! j.
Proof.
  intros H. unfold try_send. destruct (chans c !! k) as [ch|]; [|done].
  destruct (chan_closed ch); [done|]. destruct (_ <? _); [|done]. by apply lookup_insert_ne.
Qed.

(** A message handed to request [k], which was owed it. *)
Lemma Live_deliver w k ri r ow dl :
  Live w -> reqs w !! k = Some ri -> k ∈ owed w -> ow ⊆ owed w ->
  (k ∈ ow -> ri_tr ri = true) ->
  Live (mkWorld (try_send k r (conn w)) (reqs w) ow (sweeping w) dl).
Proof.
  intros [L1 L2 L3 L4] Hk Hin How Htr.
  assert (pending (try_send k r (conn w)) = pending (conn w)) as Hp.
  { pose proof (g_control _ _ (try_send_grows k r (conn w))) as [=]. done. }
  split; cbn; rewrite ?Hp; eauto.
  - intros j rj Ej Hph. destruct (L3 j rj Ej Hph) as [H1 H2]. split; [done|].
    intros E. destruct (H2 E) as (H3 & H4 & H5). rewrite try_send_ne by (intros ->; done).
    split_and!; [intros ?; by apply H3, How|done|done].
  - intros j rj Hj Ej Htj. rewrite try_send_ne by (intros ->; specialize (Htr Hj); congruence). eauto.
Qed.

Lemma inv_reply w k ri h params data (final : bool) :
  Inv w -> k ∈ owed w -> reqs w !! k = Some ri -> MID h = ri_mid ri ->
  (ri_tr ri = false -> final = true) ->
  let d := dispatch h params data (conn w) in
  Inv (mkWorld d.2 (reqs w) (if final then owed w ∖ {[k]} else owed w) (sweeping w)
        (delivered w ++ match d.1 with Some k' => [(k', Some k)] | None => [] end)).
Proof.
  intros [HB HL] Hin Hk Hm Hfin. cbv zeta. unfold dispatch. rewrite Hm.
  set (ow := if final then owed w ∖ {[k]} else owed w).
  assert (ow ⊆ owed w) as How by (unfold ow; destruct final; [apply subseteq_difference_l|]; done).
  destruct (pending (conn w) !! ri_mid ri) as [req|] eqn:Ep; cbn [fst snd].
  2:{ split; [apply Base_ghost; [done|done|by intros ? ? ?%elem_of_nil]|].
      intros Hd. apply Live_owed; [by apply HL|done]. }
  assert (done (conn w) = false) as Hd.
  { destruct (done (conn w)) eqn:Hd; [|done]. by rewrite (b_done w HB Hd) in Ep. }
  specialize (HL Hd). destruct (l_owed w HL k ri Hin Hk) as (req' & Ep' & Hresp).
  assert (req' = req) as -> by congruence. clear Ep'.
  destruct (l_pending w HL _ _ Ep) as (_ & ri' & Hk' & _ & Htr & Hc).
  assert (ri' = ri) as -> by congruence.
  destruct (cancelled req); cbn [fst snd].
  - destruct (transaction req); cbn [negb].
    + split; [apply Base_ghost; [done|done|by intros ? ? ?%elem_of_nil]|].
      intros _. by apply Live_owed.
    + assert (k ∉ ow) as Hno.
      { unfold ow. rewrite (Hfin Htr). rewrite elem_of_difference, elem_of_singleton. tauto. }
      split.
      * apply (Base_ghost (with_conn (set_pending _ (conn w)) w) ow []);
          [|done|by intros ? ? ?%elem_of_nil].
        apply Base_set_pending; [done|congruence].
      * intros _. replace (reqs w) with (<[k := ri]> (reqs w)) by by apply insert_id.
        apply (Live_free w k ri ri ow); try done; [eauto|congruence|congruence].
  - rewrite Hresp. split.
    + apply (Base_ghost (with_conn (try_send k _ (conn w)) w) ow [(k, Some k)]); [|done|].
      * apply Base_grows; [done|apply try_send_grows|].
        destruct (try_send_panicked k (response_of h params data) (conn w)) as [->|(ch & E & Ec)];
          [apply HB|]. apply (Base_open w HB Hd) in E. congruence.
      * intros j o [= -> ->]%list_elem_of_singleton. done.
    + intros _. eapply Live_deliver; [done|exact Hk|done|done|].
      intros Hkow. destruct (ri_tr ri) eqn:E; [done|]. unfold ow in Hkow.
      rewrite (Hfin eq_refl), elem_of_difference, elem_of_singleton in Hkow. tauto.
Qed.

Lemma inv_stray w h params data :
  Inv w -> MID h = reservedMID ->
  let d := dispatch h params data (conn w) in
  Inv (mkWorld d.2 (reqs w) (owed w) (sweeping w)
        (delivered w ++ match d.1 with Some k' => [(k', None)] | None => [] end)).
Proof.
  intros HI Hm. cbv zeta. unfold dispatch. rewrite Hm.
  replace (pending (conn w) !! reservedMID) with (@None pendingRequest).
  - cbn. rewrite app_nil_r. by destruct w.
  - symmetry. destruct HI as [HB HL]. destruct (done (conn w)) eqn:Hd.
    + by rewrite (b_done w HB Hd).
    + specialize (HL eq_refl). destruct (pending (conn w) !! reservedMID) as [req|] eqn:E; [|done].
      by destruct (l_pending w HL _ _ E).
Qed.

Lemma Base_set_queue w k ch q :
  Base w -> chans (conn w) !! k = Some ch ->
  Base (with_conn (set_chans (<[k := mkChan q (capacity ch) (chan_closed ch)]>
    (chans (conn w))) (conn w)) w).
Proof.
  intros [[Hw1 Hw2] B2 B3 B4 B5 B6 B7 B8 B9] Hk. split; cbn; try done.
  - intros j. rewrite <- B3. destruct (decide (k = j)) as [<-|].
    + rewrite lookup_insert_eq, Hk. split; eauto.
    + by rewrite lookup_insert_ne.
  - intros j c. destruct (decide (k = j)) as [<-|].
    + rewrite lookup_insert_eq. intros [= <-]. apply (B7 k ch Hk).
    + rewrite lookup_insert_ne by done. apply B7.
Qed.

Lemma inv_recv w k ri r c :
  Inv w -> reqs w !! k = Some ri -> ri_phase ri = OnWire ->
  chan_recv k (conn w) = Some (Some r, c) ->
  Inv (with_req k (mkReq (ri_mid ri) (ri_tr ri) OnWire
        (ri_got ri || bool_decide (r_header r <> None))) (with_conn c w)).
Proof.
  intros [HB HL] Hk Hph. unfold chan_recv.
  destruct (chans (conn w) !! k) as [ch|] eqn:Ech; [|done].
  destruct (queue ch) as [|r0 q] eqn:Eq; [by destruct (chan_closed ch)|].
  intros [= -> <-]. split.
  - eapply (Base_with_req (with_conn _ w)); [|exact Hk]. by apply Base_set_queue.
  - intros Hd. destruct (HL Hd) as [L1 L2 L3 L4].
    assert (k ∈ owed w -> ri_tr ri = false -> False) as Hk4.
    { intros Hin Htr. destruct (L4 k ri Hin Hk Htr) as (_ & ch' & E & E'). congruence. }
    split; cbn.
    + intros m rq E. destruct (L1 m rq E) as (H1 & rj & H2 & H3 & H4 & H5). split; [done|].
      destruct (decide (k = respCh rq)) as [Hkq|Hne].
      * rewrite Hkq, lookup_insert_eq. assert (rj = ri) as -> by congruence.
        eexists. split; [reflexivity|]. cbn. split_and!; try done.
        destruct (cancelled rq); [congruence|by right].
      * rewrite lookup_insert_ne by done. by exists rj.
    + intros j rj Hj. destruct (decide (k = j)) as [<-|Hne].
      * rewrite lookup_insert_eq. intros [= <-]. cbn. eauto.
      * rewrite lookup_insert_ne by done. eauto.
    + intros j rj. destruct (decide (k = j)) as [<-|Hne].
      * rewrite lookup_insert_eq. intros [= <-] _. cbn. split; [|done].
        apply (L3 k ri Hk). by right.
      * rewrite !lookup_insert_ne by done. eauto.
    + intros j rj Hj. destruct (decide (k = j)) as [<-|Hne].
      * rewrite lookup_insert_eq. intros [= <-] Htr. by destruct Hk4.
      * rewrite !lookup_insert_ne by done. eauto.
Qed.

Lemma inv_finish w k ri (abandoned : bool) :
  Inv w -> reqs w !! k = Some ri -> ri_phase ri = OnWire ->
  (abandoned = false -> may_release w k ri) ->
  Inv (with_req k (with_phase Settled ri)
        (with_conn (releaseLocked (ri_mid ri) k abandoned (conn w)) w)).
Proof.
  intros [HB HL] Hk Hph Hrel. unfold releaseLocked.
  destruct (done (conn w)) eqn:Hd.
  { rewrite (b_done w HB Hd), lookup_empty. apply Inv_done; [|done].
    eapply (Base_with_req (with_conn _ w)); [by destruct w|exact Hk]. }
  specialize (HL eq_refl).
  destruct (l_active w HL k ri Hk (or_intror Hph)) as [(req & Ep & Hresp) _].
  destruct (l_pending w HL _ _ Ep) as (_ & ri' & Hk' & _ & Htr & _).
  assert (ri' = ri) as -> by congruence.
  rewrite Ep, bool_decide_true by done. cbn [negb].
  destruct (negb abandoned || _) eqn:Eb.
  - split.
    + eapply (Base_with_req (with_conn _ w)); [|exact Hk]. apply Base_set_pending; [done|congruence].
    + intros _. apply (Live_free w k ri (with_phase Settled ri) (owed w) (delivered w)); try done; [eauto|].
      intros Hin. apply orb_true_iff in Eb as [Ha|Hq].
      * apply negb_true_iff in Ha. destruct (Hrel Ha) as [|Hgot]; [congruence|].
        destruct (ri_tr ri) eqn:Et; [done|]. destruct (l_single w HL k ri Hin Hk Et). congruence.
      * apply andb_true_iff in Hq as [Hq Ht]. apply negb_true_iff in Ht.
        destruct (l_single w HL k ri Hin Hk) as (_ & ch & E & E'); [congruence|].
        by rewrite E, E' in Hq.
  - split.
    + eapply (Base_with_req (with_conn _ w)); [|exact Hk]. apply Base_set_pending; [done|congruence].
    + intros _. rewrite Hresp, <- Htr. apply Live_cancel; [done|done|eauto|].
      intros Hin Ht. by apply (l_single w HL k ri Hin Hk).
Qed.

Lemma Live_injective w : Live w -> injective (pending (conn w)).
Proof.
  intros HL i j x y Ei Ej Hxy.
  destruct (l_pending w HL _ _ Ei) as (_ & ri & Hi & Hmi & _).
  destruct (l_pending w HL _ _ Ej) as (_ & rj & Hj & Hmj & _). congruence.
Qed.

Lemma inv_close w swept c :
  Inv w -> Close_locked (conn w) = (Some swept, c) ->
  Inv (mkWorld c (reqs w) (owed w) (Some swept) (delivered w)).
Proof.
  intros [HB HL]. unfold Close_locked. destruct (done (conn w)) eqn:Hd; [done|].
  intros [= <- <-]. apply Inv_done; [|done]. pose proof (Base_open w HB Hd) as Ho.
  pose proof (Live_injective w (HL eq_refl)) as Hinj.
  destruct HB as [[Hw1 Hw2] B2 B3 B4 B5 B6 B7 B8 B9]. split; cbn; try done.
  - intros k ch E Ec. apply Ho in E. congruence.
  - intros p [= <-]. done.
Qed.

Lemma inv_sweep w swept :
  Inv w -> sweeping w = Some swept ->
  Inv (mkWorld (Close_sweep swept (conn w)) (reqs w) (owed w) None (delivered w)).
Proof.
  intros [HB _] Hs. destruct (b_sweep w HB swept Hs) as [Hd Hinj].
  assert (all_open (conn w)) as Ho.
  { intros k ch E. destruct (chan_closed ch) eqn:Ec; [|done].
    destruct (b_closed w HB k ch E Ec). congruence. }
  destruct (sweep_spec swept (conn w) Ho Hinj) as (Hp & Hk & Hc).
  set (c' := Close_sweep swept (conn w)) in *. clearbody c'.
  unfold control in Hc. injection Hc as Hc1 Hc2 Hc3 Hc4 Hc5 _. cbn in Hc1, Hc2, Hc3, Hc4, Hc5.
  apply Inv_done; [|cbn; congruence].
  destruct HB as [[Hw1 Hw2] B2 B3 B4 B5 B6 B7 B8 B9]. split; cbn [conn reqs owed sweeping delivered];
    rewrite ?Hc1, ?Hc2, ?Hc3, ?Hc4, ?Hc5, ?Hp; try done.
  - split; [by rewrite Hc1|by rewrite Hc4, Hc5].
  - intros k. by rewrite Hk.
Qed.

Lemma Inv_init : Inv init.
Proof.
  split; [|intros _]; split; cbn; try done; try (intros *; rewrite lookup_empty; done);
    try (intros *; rewrite elem_of_empty; done); try (intros ? ? ?%elem_of_nil; done).
  intros k. rewrite lookup_empty. split; [by intros [? ?]|intros ?; lia].
Qed.

Lemma step_Inv w w' : Inv w -> step w w' -> Inv w'.
Proof.
  intros HI Hs. destruct Hs; eauto using inv_begin, inv_begin_fails, inv_sent, inv_write_error,
    inv_reply, inv_stray, inv_setError, inv_recv, inv_finish, inv_close, inv_sweep.
  - by apply inv_cleanup.
  - by apply inv_cleanup.
Qed.

Lemma reachable_Inv w : reachable w -> Inv w.
Proof.
  intros H. unfold reachable in H. pose proof Inv_init as HI. revert HI.
  induction H as [|x y z Hs _ IH]; eauto using step_Inv.
Qed.

(** A dead connection stays dead, and keeps its error. *)
Definition dead (e : option error) (c : Conn) : Prop := done c = true /\ conn_err c = e.

Lemma dead_control e c c' :
  control c' = control c \/ control c' = control (close_socket c) -> dead e c -> dead e c'.
Proof. unfold control, dead. intros [[=]|[=]] [? ?]; split; congruence. Qed.

Lemma dispatch_dead e h params data c : dead e c -> dead e (dispatch h params data c).2.
Proof.
  intros H. unfold dispatch. destruct (pending c !! MID h) as [req|]; [|done].
  destruct (cancelled req); [by destruct (transaction req)|].
  eapply dead_control; [left; apply try_send_grows|done].
Qed.

Lemma map_fold_frame swept c :
  control (Close_sweep swept c) = control (close_socket c).
Proof.
  unfold Close_sweep. set (f := fun (_ : Z) req c => _).
  enough (control (map_fold f c swept) = control c) as [=]; [unfold control; cbn; congruence|].
  apply (map_fold_weak_ind (fun c' _ => control c' = control c)); [done|].
  intros i x m r _ IH. unfold f.
  destruct (close_chan_frame (respCh x)
    (try_send (respCh x) (wakeup (Some conn_ErrConnectionClosed)) r)) as [-> _].
  by rewrite (g_control _ _ (try_send_grows _ _ _)).
Qed.

Lemma step_dead e w w' : step w w' -> dead e (conn w) -> dead e (conn w').
Proof.
  intros Hs Hd. pose proof Hd as [Hd1 Hd2].
  assert (forall tr, (begin_locked tr (conn w)).2 = conn w) as Hb
    by (intros tr; unfold begin_locked; by rewrite Hd1).
  assert (forall x, setErrorLocked x (conn w) = conn w) as Hse
    by (intros; unfold setErrorLocked; by rewrite Hd1).
  destruct Hs as [tr k mid c E|tr x c E| | | | | | | |k ri r c ? ? E|k ri ab|swept c E|];
    cbn [conn with_conn with_req]; unfold setError; rewrite ?Hse; try done; try by apply dispatch_dead.
  - specialize (Hb tr). rewrite E in Hb. cbn in Hb. by subst.
  - specialize (Hb tr). rewrite E in Hb. cbn in Hb. by subst.
  - revert E. unfold chan_recv. destruct (chans (conn w) !! k) as [ch|]; [|done].
    destruct (queue ch); [by destruct (chan_closed ch)|]. by intros [= _ <-].
  - unfold releaseLocked. destruct (pending (conn w) !! ri_mid ri); [|done].
    by repeat case_match.
  - unfold Close_locked in E. by rewrite Hd1 in E.
  - eapply dead_control; [right; apply map_fold_frame|done].
Qed.

Lemma steps_dead e w w' : rtc step w w' -> dead e (conn w) -> dead e (conn w').
Proof. induction 1; eauto using step_dead. Qed.

(** Once torn down otherwise than by [Close], the connection keeps its socket. *)
Lemma step_socket w w' :
  step w w' -> done (conn w) = true -> sweeping w = None ->
  socket_open (conn w') = socket_open (conn w) /\ sweeping w' = None.
Proof.
  intros Hs Hd Hsw.
  assert (forall tr, (begin_locked tr (conn w)).2 = conn w) as Hb
    by (intros tr; unfold begin_locked; by rewrite Hd).
  assert (forall x, setErrorLocked x (conn w) = conn w) as Hse
    by (intros; unfold setErrorLocked; by rewrite Hd).
  assert (forall h params data, socket_open (dispatch h params data (conn w)).2
      = socket_open (conn w)) as Hdi.
  { intros. unfold dispatch. destruct (pending (conn w) !! MID h) as [req|]; [|done].
    destruct (cancelled req); [by destruct (transaction req)|].
    by pose proof (g_control _ _ (try_send_grows (respCh req)
      (response_of h params data) (conn w))) as [=]. }
  destruct Hs as [tr k mid c E|tr x c E| | | | | | | |k ri r c ? ? E|k ri ab|swept c E|swept E];
    cbn [conn with_conn with_req sweeping]; unfold setError; rewrite ?Hse; try done;
    try (unfold d; by rewrite Hdi).
  - specialize (Hb tr). rewrite E in Hb. cbn in Hb. by subst.
  - specialize (Hb tr). rewrite E in Hb. cbn in Hb. by subst.
  - revert E. unfold chan_recv. destruct (chans (conn w) !! k) as [ch|]; [|done].
    destruct (queue ch); [by destruct (chan_closed ch)|]. by intros [= _ <-].
  - unfold releaseLocked. destruct (pending (conn w) !! ri_mid ri); [|done].
    by repeat case_match.
  - unfold Close_locked in E. by rewrite Hd in E.
  - congruence.
Qed.

(** ** Properties *)

(** An exchange that is given up on before its reply: the MID is not reused
    before the late reply has come. *)
Definition example_header (mid : Z) : Header :=
  mkHeader [] 0x2E 0 0x80 0 0 [] 0 0 0 0 mid.
Definition ex1 : World :=
  with_req 0 (mkReq 0 false Registered false) (with_conn (begin_locked false NewConn).2 init).
Definition ex2 : World :=
  mkWorld (conn ex1) (<[0%nat := mkReq 0 false OnWire false]> (reqs ex1)) {[0%nat]} None [].
Definition ex3 : World :=
  let d := dispatch (example_header 0) [] [] (conn ex2) in
  mkWorld d.2 (reqs ex2) (owed ex2 ∖ {[0%nat]}) None [(0%nat, Some 0%nat)].

Lemma reachable_ex2 : reachable ex2.
Proof.
  eapply rtc_l; [apply (step_begin init false 0 0 (begin_locked false NewConn).2); reflexivity|].
  eapply rtc_l; [|apply rtc_refl].
  exact (step_sent ex1 0 (mkReq 0 false Registered false) eq_refl eq_refl).
Qed.

Lemma reachable_ex3 : reachable ex3.
Proof.
  eapply rtc_r; [exact reachable_ex2|].
  exact (step_reply ex2 0 (mkReq 0 false OnWire false) (example_header 0) [] [] true
    ltac:(set_solver) eq_refl eq_refl (fun _ => eq_refl)).
Qed.

(** C1: Replies are not mixed up: in every interleaving of senders, receive loop
    and teardown, against any server that answers requests it was sent, a
    message handed to the channel of a request is the server's answer to that
    request, however MIDs have been abandoned and reused before. *)
Theorem no_misdelivery w k o :
  reachable w -> (k, o) ∈ delivered w -> o = Some k.
Proof. intros H. destruct (reachable_Inv w H) as [HB _]. apply (b_delivered w HB). Qed.

Lemma no_misdelivery_witness : delivered ex3 = [(0%nat, Some 0%nat)] /\ Some 0%nat = Some 0%nat.
Proof.
  split; [reflexivity|]. apply (no_misdelivery ex3 0 (Some 0%nat) reachable_ex3).
  apply list_elem_of_singleton. reflexivity.
Defined.

(** C25: No interleaving sends on, or closes, a closed channel: the goroutines
    of a connection do not panic over its channels. *)
Theorem no_channel_panic w : reachable w -> panicked (conn w) = false.
Proof. intros H. destruct (reachable_Inv w H) as [HB _]. apply (b_panic w HB). Qed.

Lemma no_channel_panic_witness :
  reachable ex3 /\ panicked (conn ex3) = false.
Proof. split; [exact reachable_ex3|exact (no_channel_panic ex3 reachable_ex3)]. Defined.

(** C2: While the server still owes a request a message, the connection being
    alive, its MID is reserved, even if its sender has given up waiting: no new
    request is given that MID, nor the one reserved for the server. *)
Theorem owed_MID_reserved w k ri tr k' mid c :
  reachable w -> k ∈ owed w -> reqs w !! k = Some ri ->
  begin_locked tr (conn w) = (Ok (k', mid), c) ->
  0 <= mid < 2 ^ 16 /\ mid <> ri_mid ri /\ mid <> reservedMID.
Proof.
  intros H Hin Hk E. destruct (reachable_Inv w H) as [HB HL].
  destruct (begin_locked_ok tr (conn w) k' mid c (b_wf w HB) E) as (Hd & Hm & Hr & Hp & _).
  destruct (l_owed w (HL Hd) k ri Hin Hk) as (req & Ep & _).
  split; [done|]. split; [congruence|done].
Qed.

Lemma owed_MID_reserved_witness :
  (begin_locked false (conn ex2)).1 = Ok (1%nat, 1) /\ (0 <= 1 < 2 ^ 16 /\ 1 <> 0 /\ 1 <> reservedMID).
Proof.
  split; [reflexivity|].
  refine (owed_MID_reserved ex2 0 (mkReq 0 false OnWire false) false 1 1
    (begin_locked false (conn ex2)).2 reachable_ex2 _ _ _).
  - change (0%nat ∈ ({[0%nat]} : gset nat)). apply elem_of_singleton. reflexivity.
  - reflexivity.
  - reflexivity.
Defined.

(** C27: A torn-down connection stays torn down and keeps its first error, which
    is what every later request and every waiter gets: neither can block or
    return a nil response without an error. *)
Theorem teardown_is_final w w' :
  reachable w -> done (conn w) = true -> rtc step w w' ->
  exists e, conn_err (conn w) = Some e /\ conn_err (conn w') = Some e /\
    awaitResponse EvDone (conn_err (conn w')) = Err e /\
    forall tr, begin_locked tr (conn w') = (Err e, conn w').
Proof.
  intros H Hd Hs. destruct (reachable_Inv w H) as [HB _].
  destruct (conn_err (conn w)) as [e|] eqn:He; [|by destruct (wf_err _ (b_wf w HB) Hd)].
  destruct (steps_dead (Some e) w w' Hs (conj Hd He)) as [Hd' He'].
  exists e. rewrite He'. split_and!; try done. intros tr. unfold begin_locked. by rewrite Hd', He'.
Qed.

(** The connection after a failed read. *)
Definition ex4 : World :=
  with_conn (setError (Wrapf "smb1: failed to read packet" EOF) (conn ex2)) ex2.
Lemma reachable_ex4 : reachable ex4.
Proof. eapply rtc_r; [exact reachable_ex2|]. exact (step_read_error ex2 EOF). Qed.

Lemma teardown_is_final_witness :
  reachable ex4 /\ exists e, conn_err (conn ex4) = Some e.
Proof.
  split; [exact reachable_ex4|].
  destruct (teardown_is_final ex4 ex4 reachable_ex4 eq_refl (rtc_refl _ _)) as (e & He & _).
  exists e. exact He.
Defined.

(** A connection torn down by a failed read or write never closes its
    socket: [Close], and the deferred [Close] of [Receive], find [done] closed
    and return, so in no continuation is [netbiosConn.Close] called. *)
Theorem failed_connection_keeps_socket w w' e :
  reachable w -> done (conn w) = false ->
  rtc step (with_conn (setError e (conn w)) w) w' ->
  Close (conn w') = conn w' /\ socket_open (conn w') = socket_open (conn w).
Proof.
  intros H Hd Hs. set (w1 := with_conn _ w) in Hs.
  assert (sweeping w = None) as Hsw.
  { destruct (reachable_Inv w H) as [HB _]. destruct (sweeping w) eqn:E; [|done].
    destruct (b_sweep w HB _ E). congruence. }
  assert (socket_open (conn w1) = socket_open (conn w)) as Ho.
  { cbn. unfold setError, setErrorLocked. rewrite Hd.
    by pose proof (g_control _ _ (wake_all_grows (pending (conn w)) (wakeup (Some e)) (conn w))) as [=]. }
  rewrite <- Ho. assert (done (conn w1) = true) as Hd1 by apply setErrorLocked_done.
  assert (sweeping w1 = None) as Hsw1 by done. clearbody w1. clear Ho.
  induction Hs as [x|x y z Hxy Hyz IH].
  - unfold Close, Close_locked. by rewrite Hd1.
  - destruct (step_socket x y Hxy Hd1 Hsw1) as [<- Hsw2]. apply IH; [|done].
    by destruct (step_dead _ x y Hxy (conj Hd1 eq_refl)).
Qed.

Lemma failed_connection_keeps_socket_witness :
  reachable ex2 /\ socket_open (Close (conn ex4)) = true.
Proof.
  split; [exact reachable_ex2|].
  destruct (failed_connection_keeps_socket ex2 ex4 (Wrapf "smb1: failed to read packet" EOF)
    reachable_ex2 eq_refl (rtc_refl _ _)) as [E1 E2].
  rewrite E1, E2. reflexivity.
Defined.
