(* ===== verification/Trans2.v ===== *)
(** * TRANS2 ([internal/smb1/trans2.go])

    Transactions: the request and its two sections, the response and the
    sections its offsets name, directory searches and listings, and the
    information levels of files and file systems.  Record fields carry a prefix
    where the code uses one name in several structures. *)

From S2P Require Export Packet Utf16le.

(** ** Constants *)

Definition SMB_QUERY_FILE_BASIC_INFO : Z := 0x0101.
Definition SMB_QUERY_FILE_STANDARD_INFO : Z := 0x0102.
Definition SMB_FIND_FILE_BOTH_DIRECTORY_INFO : Z := 0x0104.
Definition FILE_ATTRIBUTE_HIDDEN : Z := 0x00000002.
Definition FILE_ATTRIBUTE_SYSTEM : Z := 0x00000004.
Definition FILE_ATTRIBUTE_DIRECTORY : Z := 0x00000010.

Definition TransactionMaxParameterCount : Z := 1024.
Definition transactionResponseOverhead : Z := 64.
Definition minTransactionDataCount : Z := 1024.
Definition fileBothDirectoryInfoFixedSize : Z := 94.

(** The name of a request: UTF-16LE or bytes, with a terminator. *)
Definition encode_name (useUnicode : bool) (fileName : bytes) : res bytes :=
  if useUnicode then
    let! nameBytes := EncodeStringToBytes fileName in Ok (nameBytes ++ [Byte.x00; Byte.x00])
  else Ok (fileName ++ [Byte.x00]).

(** ** Requests *)

Definition MaxTransactionDataCount (maxBufferSize maxParameterCount : Z) : Z :=
  let budget := maxBufferSize - transactionResponseOverhead - maxParameterCount in
  if budget <? minTransactionDataCount then minTransactionDataCount
  else if 65535 <? budget then 65535
  else wrap 16 budget.

(** The parameters and the data of the packet; [put_units] writes the setup
    words. *)
Definition EncodeTrans2Request (setup : list Z) (params data name : bytes) (maxDataCount : Z)
  : res (bytes * bytes) :=
  if len setup =? 0 then Err (Errorf "smb1: setup array cannot be empty") else
  if 14 <? len setup then Err (Errorf "smb1: setup array too large") else
  let setupCount := wrap 8 (len setup) in
  let paramCount := wrap 16 (len params) in
  let dataCount := wrap 16 (len data) in
  let headerAndParamsSize := HeaderSize + 1 + 28 + setupCount * 2 + 2 + len name in
  let pad1Size := if negb (headerAndParamsSize mod 2 =? 0) then 1 else 0 in
  let paramOffset := wrap 16 (headerAndParamsSize + pad1Size) in
  let pad2Size := if negb (wrap 16 (paramOffset + paramCount) mod 2 =? 0) then 1 else 0 in
  let dataOffset := wrap 16 (paramOffset + paramCount + pad2Size) in
  let! fixedParams := make 28 in
  let! fixedParams := put16 fixedParams 0 2 paramCount in
  let! fixedParams := put16 fixedParams 2 4 dataCount in
  let! fixedParams := put16 fixedParams 4 6 TransactionMaxParameterCount in
  let! fixedParams := put16 fixedParams 6 8 maxDataCount in
  let! fixedParams := put8 fixedParams 8 0 in
  let! fixedParams := put8 fixedParams 9 0 in
  let! fixedParams := put16 fixedParams 10 12 0 in
  let! fixedParams := put32 fixedParams 12 16 0 in
  let! fixedParams := put16 fixedParams 16 18 0 in
  let! fixedParams := put16 fixedParams 18 20 paramCount in
  let! fixedParams := put16 fixedParams 20 22 paramOffset in
  let! fixedParams := put16 fixedParams 22 24 dataCount in
  let! fixedParams := put16 fixedParams 24 26 dataOffset in
  let! fixedParams := put8 fixedParams 26 setupCount in
  let! fixedParams := put8 fixedParams 27 0 in
  let! setupBytes := make (len setup * 2) in
  let! setupBytes := put_units setupBytes 0 setup in
  Ok (fixedParams ++ setupBytes,
      name ++ replicate (Z.to_nat pad1Size) Byte.x00 ++ params
        ++ replicate (Z.to_nat pad2Size) Byte.x00 ++ data).

Record FindFirst2Request := mkFindFirst2Request {
  ff_SearchAttributes : Z;
  ff_SearchCount : Z;
  ff_Flags : Z;
  ff_InformationLevel : Z;
  ff_SearchStorageType : Z;
  ff_FileName : bytes;
  ff_UseUnicode : bool;
}.

Definition EncodeFindFirst2 (req : option FindFirst2Request) : res bytes :=
  match req with
  | None => Err (Errorf "smb1: find first2 request is nil")
  | Some req =>
    if len (ff_FileName req) =? 0 then Err (Errorf "smb1: find first2 filename is empty") else
    let! nameBytes := encode_name (ff_UseUnicode req) (ff_FileName req) in
    let! params := make (12 + len nameBytes) in
    let! params := put16 params 0 2 (ff_SearchAttributes req) in
    let! params := put16 params 2 4 (ff_SearchCount req) in
    let! params := put16 params 4 6 (ff_Flags req) in
    let! params := put16 params 6 8 (ff_InformationLevel req) in
    let! params := put32 params 8 12 (ff_SearchStorageType req) in
    copy_at params 12 (len params) nameBytes
  end.

Record FindNext2Request := mkFindNext2Request {
  fn_SID : Z;
  fn_SearchCount : Z;
  fn_InformationLevel : Z;
  fn_ResumeKey : Z;
  fn_Flags : Z;
  fn_FileName : bytes;
  fn_UseUnicode : bool;
}.

Definition EncodeFindNext2 (req : option FindNext2Request) : res bytes :=
  match req with
  | None => Err (Errorf "smb1: find next2 request is nil")
  | Some req =>
    let! nameBytes := encode_name (fn_UseUnicode req) (fn_FileName req) in
    let! params := make (12 + len nameBytes) in
    let! params := put16 params 0 2 (fn_SID req) in
    let! params := put16 params 2 4 (fn_SearchCount req) in
    let! params := put16 params 4 6 (fn_InformationLevel req) in
    let! params := put32 params 6 10 (fn_ResumeKey req) in
    let! params := put16 params 10 12 (fn_Flags req) in
    copy_at params 12 (len params) nameBytes
  end.

Definition EncodeFindClose2 (sid : Z) : res bytes :=
  let! params := make 2 in put16 params 0 2 sid.

Definition EncodeQueryPathInfo (fileName : bytes) (infoLevel : Z) (useUnicode : bool) : res bytes :=
  if len fileName =? 0 then Err (Errorf "smb1: query path info filename is empty") else
  let! nameBytes := encode_name useUnicode fileName in
  let! params := make (6 + len nameBytes) in
  let! params := put16 params 0 2 infoLevel in
  copy_at params 6 (len params) nameBytes.

Definition EncodeQueryFileInfo (fid infoLevel : Z) : res bytes :=
  let! params := make 4 in
  let! params := put16 params 0 2 fid in
  put16 params 2 4 infoLevel.

Definition EncodeSetPathInfo (fileName : bytes) (infoLevel : Z) (data : bytes) (useUnicode : bool)
  : res (bytes * bytes) :=
  if len fileName =? 0 then Err (Errorf "smb1: set path info filename is empty") else
  let! nameBytes := encode_name useUnicode fileName in
  let! params := make (6 + len nameBytes) in
  let! params := put16 params 0 2 infoLevel in
  let! params := copy_at params 6 (len params) nameBytes in
  Ok (params, data).

Definition EncodeSetFileInfo (fid infoLevel : Z) (data : bytes) : res (bytes * bytes) :=
  let! params := make 6 in
  let! params := put16 params 0 2 fid in
  let! params := put16 params 2 4 infoLevel in
  Ok (params, data).

Definition EncodeQueryFSInfo (infoLevel : Z) : res bytes :=
  let! params := make 2 in put16 params 0 2 infoLevel.

(** ** The response *)

Record Trans2Response := mkTrans2Response {
  t2_Status : Z;
  t2_TotalParameterCount : Z;
  t2_TotalDataCount : Z;
  t2_Reserved : Z;
  t2_ParameterCount : Z;
  t2_ParameterOffset : Z;
  t2_ParameterDisplacement : Z;
  t2_DataCount : Z;
  t2_DataOffset : Z;
  t2_DataDisplacement : Z;
  t2_SetupCount : Z;
  t2_Reserved2 : Z;
  t2_Setup : list Z;
  t2_ByteCount : Z;
  t2_Pad1 : bytes;
  t2_Parameters : bytes;
  t2_Pad2 : bytes;
  t2_Data : bytes;
}.

(** The zero value of the structure. *)
Definition empty_Trans2Response : Trans2Response :=
  mkTrans2Response 0 0 0 0 0 0 0 0 0 0 0 0 [] 0 [] [] [] [].

(** The loop over the setup words, from word [i] on. *)
Fixpoint setup_words (paramsBytes : bytes) (i : Z) (n : nat) : res (list Z) :=
  match n with
  | O => Ok []
  | S n' =>
    let offset := 20 + i * 2 in
    let! w := u16 paramsBytes offset (offset + 2) in
    let! t := setup_words paramsBytes (i + 1) n' in
    Ok (w :: t)
  end.

(** The bytes at an absolute offset; nothing if they are not in the message. *)
Definition trans2_section (dataBytes : bytes) (dataStart offset count : Z) : res bytes :=
  if (0 <? count) && (0 <? offset) then
    let relativeOffset := offset - dataStart in
    if (0 <=? relativeOffset) && (relativeOffset + count <=? len dataBytes) then
      let! buf := make count in
      let! s := slice dataBytes relativeOffset (relativeOffset + count) in
      copy_at buf 0 (len buf) s
    else Ok []
  else Ok [].

Definition DecodeTrans2Response (paramsBytes dataBytes : bytes) : res Trans2Response :=
  if len paramsBytes =? 0 then Ok empty_Trans2Response else
  if len paramsBytes <? 20 then Err (Errorf "smb1: trans2 response parameters too short") else
  let! totalParameterCount := u16 paramsBytes 0 2 in
  let! totalDataCount := u16 paramsBytes 2 4 in
  let! reserved := u16 paramsBytes 4 6 in
  let! parameterCount := u16 paramsBytes 6 8 in
  let! parameterOffset := u16 paramsBytes 8 10 in
  let! parameterDisplacement := u16 paramsBytes 10 12 in
  let! dataCount := u16 paramsBytes 12 14 in
  let! dataOffset := u16 paramsBytes 14 16 in
  let! dataDisplacement := u16 paramsBytes 16 18 in
  let! setupCount := idx8 paramsBytes 18 in
  let! reserved2 := idx8 paramsBytes 19 in
  let! setup :=
    if 0 <? setupCount then
      let setupSize := setupCount * 2 in
      if len paramsBytes <? 20 + setupSize
      then Err (Errorf "smb1: trans2 response parameters too short for setup")
      else setup_words paramsBytes 0 (Z.to_nat setupCount)
    else Ok [] in
  let dataStart := HeaderSize + 1 + len paramsBytes + 2 in
  let! parameters := trans2_section dataBytes dataStart parameterOffset parameterCount in
  let! data := trans2_section dataBytes dataStart dataOffset dataCount in
  Ok (mkTrans2Response 0 totalParameterCount totalDataCount reserved parameterCount
        parameterOffset parameterDisplacement dataCount dataOffset dataDisplacement setupCount
        reserved2 setup 0 [] parameters [] data).

(** ** Directory listings *)

Record FileBothDirectoryInfo := mkFileBoth {
  fb_NextEntryOffset : Z;
  fb_FileIndex : Z;
  fb_CreationTime : Z;
  fb_LastAccessTime : Z;
  fb_LastWriteTime : Z;
  fb_ChangeTime : Z;
  fb_EndOfFile : Z;
  fb_AllocationSize : Z;
  fb_FileAttributes : Z;
  fb_FileNameLength : Z;
  fb_EaSize : Z;
  fb_ShortNameLength : Z;
  fb_Reserved : Z;
  fb_ShortName : bytes;
  fb_FileName : bytes;
}.

(** The fixed fields of the entry at [offset], and its name, decoded later. *)
Definition parse_fixed (data : bytes) (offset : Z) : res (bytes -> FileBothDirectoryInfo) :=
  let! nextEntryOffset := u32 data offset (offset + 4) in
  let! fileIndex := u32 data (offset + 4) (offset + 8) in
  let! creationTime := u64 data (offset + 8) (offset + 16) in
  let! lastAccessTime := u64 data (offset + 16) (offset + 24) in
  let! lastWriteTime := u64 data (offset + 24) (offset + 32) in
  let! changeTime := u64 data (offset + 32) (offset + 40) in
  let! endOfFile := u64 data (offset + 40) (offset + 48) in
  let! allocationSize := u64 data (offset + 48) (offset + 56) in
  let! fileAttributes := u32 data (offset + 56) (offset + 60) in
  let! fileNameLength := u32 data (offset + 60) (offset + 64) in
  let! eaSize := u32 data (offset + 64) (offset + 68) in
  let! shortNameLength := idx8 data (offset + 68) in
  let! reserved := idx8 data (offset + 69) in
  let! shortName := slice data (offset + 70) (offset + 94) in
  Ok (mkFileBoth nextEntryOffset fileIndex creationTime lastAccessTime lastWriteTime changeTime
        endOfFile allocationSize fileAttributes fileNameLength eaSize shortNameLength reserved
        shortName).

Record ParseFileBothDirectoryInfoResult := mkParseResult {
  pr_Files : list FileBothDirectoryInfo;
  pr_Truncated : bool;
}.

(** The loop from [offset] on, [files] being parsed already.  [fuel] bounds the
    passes: it would run out with a panic, which
    [safe_ParseFileBothDirectoryInfo] excludes. *)
Fixpoint parse_entries (fuel : nat) (data : bytes) (offset : Z)
    (files : list FileBothDirectoryInfo) : res ParseFileBothDirectoryInfoResult :=
  match fuel with
  | O => Panic
  | S fuel =>
    if negb (offset <? len data) then Ok (mkParseResult files false) else
    if len data - offset <? fileBothDirectoryInfoFixedSize then Ok (mkParseResult files true) else
    let! file := parse_fixed data offset in
    let fileNameLength := fb_FileNameLength (file []) in
    let nameStart := offset + fileBothDirectoryInfoFixedSize in
    let nameEnd := nameStart + fileNameLength in
    if len data <? nameEnd then Ok (mkParseResult files true) else
    let! fileName :=
      if 0 <? fileNameLength
      then let! s := slice data nameStart nameEnd in DecodeToString s else Ok [] in
    let files := files ++ [file fileName] in
    let next := fb_NextEntryOffset (file []) in
    if next =? 0 then Ok (mkParseResult files false) else
    if next <? fileBothDirectoryInfoFixedSize + fileNameLength
    then Ok (mkParseResult files true) else
    if len data <=? offset + next then Ok (mkParseResult files false) else
    parse_entries fuel data (offset + next) files
  end.

Definition ParseFileBothDirectoryInfo (data : bytes) : res ParseFileBothDirectoryInfoResult :=
  parse_entries (S (length data)) data 0 [].

Definition IsDirectory (f : FileBothDirectoryInfo) : bool :=
  negb (Z.land (fb_FileAttributes f) FILE_ATTRIBUTE_DIRECTORY =? 0).
Definition IsHidden (f : FileBothDirectoryInfo) : bool :=
  negb (Z.land (fb_FileAttributes f) FILE_ATTRIBUTE_HIDDEN =? 0).
Definition IsSystem (f : FileBothDirectoryInfo) : bool :=
  negb (Z.land (fb_FileAttributes f) FILE_ATTRIBUTE_SYSTEM =? 0).

(** Both search responses: the entries of a reply. *)
Definition search_entries (what : string) (data : bytes) (infoLevel : Z)
  : res (list FileBothDirectoryInfo) :=
  if (infoLevel =? SMB_FIND_FILE_BOTH_DIRECTORY_INFO) && (0 <? len data) then
    match ParseFileBothDirectoryInfo data with
    | Panic => Panic
    | Err e => Err (Wrapf "smb1: failed to parse file entries" e)
    | Ok result => if pr_Truncated result then Err (Errorf what) else Ok (pr_Files result)
    end
  else Ok [].

Record FindFirst2Response := mkFindFirst2Response {
  fr_SID : Z;
  fr_SearchCount : Z;
  fr_EndOfSearch : Z;
  fr_EaErrorOffset : Z;
  fr_LastNameOffset : Z;
  fr_Files : list FileBothDirectoryInfo;
}.

Definition DecodeFindFirst2Response (params data : bytes) (infoLevel : Z) : res FindFirst2Response :=
  if len params <? 10 then Err (Errorf "smb1: find first2 response parameters too short") else
  let! sid := u16 params 0 2 in
  let! searchCount := u16 params 2 4 in
  let! endOfSearch := u16 params 4 6 in
  let! eaErrorOffset := u16 params 6 8 in
  let! lastNameOffset := u16 params 8 10 in
  let! files := search_entries "smb1: find first2 response truncated" data infoLevel in
  Ok (mkFindFirst2Response sid searchCount endOfSearch eaErrorOffset lastNameOffset files).

Record FindNext2Response := mkFindNext2Response {
  fx_SearchCount : Z;
  fx_EndOfSearch : Z;
  fx_EaErrorOffset : Z;
  fx_LastNameOffset : Z;
  fx_Files : list FileBothDirectoryInfo;
}.

Definition DecodeFindNext2Response (params data : bytes) (infoLevel : Z) : res FindNext2Response :=
  if len params =? 0 then Ok (mkFindNext2Response 0 1 0 0 []) else
  if len params <? 8 then Err (Errorf "smb1: find next2 response parameters too short") else
  let! searchCount := u16 params 0 2 in
  let! endOfSearch := u16 params 2 4 in
  let! eaErrorOffset := u16 params 4 6 in
  let! lastNameOffset := u16 params 6 8 in
  let! files := search_entries "smb1: find next2 response truncated" data infoLevel in
  Ok (mkFindNext2Response searchCount endOfSearch eaErrorOffset lastNameOffset files).

(** ** Information levels *)

Record FileBasicInfo := mkFileBasicInfo {
  bi_CreationTime : Z;
  bi_LastAccessTime : Z;
  bi_LastWriteTime : Z;
  bi_ChangeTime : Z;
  bi_Attributes : Z;
  bi_Reserved : Z;
}.

Definition EncodeFileBasicInfo (info : FileBasicInfo) : res bytes :=
  let! data := make 40 in
  let! data := put64 data 0 8 (bi_CreationTime info) in
  let! data := put64 data 8 16 (bi_LastAccessTime info) in
  let! data := put64 data 16 24 (bi_LastWriteTime info) in
  let! data := put64 data 24 32 (bi_ChangeTime info) in
  let! data := put32 data 32 36 (bi_Attributes info) in
  put32 data 36 40 (bi_Reserved info).

Definition DecodeFileBasicInfo (data : bytes) : res FileBasicInfo :=
  if len data <? 36 then Err (Errorf "smb1: file basic info data too short") else
  let! creationTime := u64 data 0 8 in
  let! lastAccessTime := u64 data 8 16 in
  let! lastWriteTime := u64 data 16 24 in
  let! changeTime := u64 data 24 32 in
  let! attributes := u32 data 32 36 in
  let! reserved := if 40 <=? len data then u32 data 36 40 else Ok 0 in
  Ok (mkFileBasicInfo creationTime lastAccessTime lastWriteTime changeTime attributes reserved).

Record FileStandardInfo := mkFileStandardInfo {
  si_AllocationSize : Z;
  si_EndOfFile : Z;
  si_NumberOfLinks : Z;
  si_DeletePending : Z;
  si_Directory : Z;
  si_Reserved : Z;
}.

Definition EncodeFileStandardInfo (info : FileStandardInfo) : res bytes :=
  let! data := make 24 in
  let! data := put64 data 0 8 (si_AllocationSize info) in
  let! data := put64 data 8 16 (si_EndOfFile info) in
  let! data := put32 data 16 20 (si_NumberOfLinks info) in
  let! data := put8 data 20 (si_DeletePending info) in
  let! data := put8 data 21 (si_Directory info) in
  put16 data 22 24 (si_Reserved info).

Definition DecodeFileStandardInfo (data : bytes) : res FileStandardInfo :=
  if len data <? 24 then Err (Errorf "smb1: file standard info data too short") else
  let! allocationSize := u64 data 0 8 in
  let! endOfFile := u64 data 8 16 in
  let! numberOfLinks := u32 data 16 20 in
  let! deletePending := idx8 data 20 in
  let! directory := idx8 data 21 in
  let! reserved := u16 data 22 24 in
  Ok (mkFileStandardInfo allocationSize endOfFile numberOfLinks deletePending directory reserved).

(** The [interface{}] of [DecodeQueryPathInfoResponse]. *)
Inductive PathInfo :=
  | BasicInfo (info : FileBasicInfo)
  | StandardInfo (info : FileStandardInfo)
  | RawInfo (data : bytes).

Definition DecodeQueryPathInfoResponse (data : bytes) (infoLevel : Z) : res PathInfo :=
  if infoLevel =? SMB_QUERY_FILE_BASIC_INFO then
    let! info := DecodeFileBasicInfo data in Ok (BasicInfo info)
  else if infoLevel =? SMB_QUERY_FILE_STANDARD_INFO then
    let! info := DecodeFileStandardInfo data in Ok (StandardInfo info)
  else Ok (RawInfo data).

Definition DecodeQueryFileInfoResponse := DecodeQueryPathInfoResponse.

Record FsSizeInfo := mkFsSizeInfo {
  fs_TotalAllocationUnits : Z;
  fs_TotalFreeAllocationUnits : Z;
  fs_SectorsPerAllocationUnit : Z;
  fs_BytesPerSector : Z;
}.

Definition DecodeFsSizeInfo (data : bytes) : res FsSizeInfo :=
  if len data <? 24 then Err (Errorf "smb1: fs size info data too short") else
  let! total := u64 data 0 8 in
  let! free := u64 data 8 16 in
  let! sectors := u32 data 16 20 in
  let! bytesPerSector := u32 data 20 24 in
  Ok (mkFsSizeInfo total free sectors bytesPerSector).

Record FsAllocationInfo := mkFsAllocationInfo {
  fa_FileSystemID : Z;
  fa_SectorsPerAllocationUnit : Z;
  fa_TotalAllocationUnits : Z;
  fa_FreeAllocationUnits : Z;
  fa_BytesPerSector : Z;
}.

Definition DecodeFsAllocationInfo (data : bytes) : res FsAllocationInfo :=
  if len data <? 18 then Err (Errorf "smb1: fs allocation info data too short") else
  let! id := u32 data 0 4 in
  let! sectors := u32 data 4 8 in
  let! total := u32 data 8 12 in
  let! free := u32 data 12 16 in
  let! bytesPerSector := u16 data 16 18 in
  Ok (mkFsAllocationInfo id sectors total free bytesPerSector).

Record FsVolumeInfo := mkFsVolumeInfo {
  fv_VolumeCreationTime : Z;
  fv_SerialNumber : Z;
  fv_Label : bytes;
}.

Definition DecodeFsVolumeInfo (data : bytes) : res FsVolumeInfo :=
  let headerLen := 18 in
  if len data <? headerLen then Err (Errorf "smb1: fs volume info data too short") else
  let! volumeCreationTime := u64 data 0 8 in
  let! serialNumber := u32 data 8 12 in
  let! labelLen := u32 data 12 16 in
  let available := len data - headerLen in
  let labelLen := if available <? labelLen then available else labelLen in
  let! label :=
    if 0 <? labelLen
    then let! s := slice data headerLen (headerLen + labelLen) in DecodeToString s else Ok [] in
  Ok (mkFsVolumeInfo volumeCreationTime serialNumber label).

(** ** Absence of panics *)

Lemma safe_setup_words p i n :
  0 <= i -> 20 + 2 * (i + Z.of_nat n) <= len p -> safe (setup_words p i n).
Proof.
  revert i. induction n as [|n IH]; intros i Hi Hl; cbn [setup_words]; [done|].
  safe_tac. apply IH; lia.
Qed.

(** A section is a part of the message, or absent. *)
Lemma trans2_section_eq d start offset count :
  trans2_section d start offset count =
  if (0 <? count) && (0 <? offset) && (start <=? offset) && (offset - start + count <=? len d)
  then slice d (offset - start) (offset - start + count) else Ok [].
Proof.
  unfold trans2_section.
  replace (start <=? offset) with (0 <=? offset - start)
    by (destruct (Z.leb_spec 0 (offset - start)), (Z.leb_spec start offset); lia).
  destruct (Z.ltb_spec 0 count), (Z.ltb_spec 0 offset); cbn [andb]; try done.
  destruct (Z.leb_spec 0 (offset - start)); cbn [andb]; [|done].
  destruct (Z.leb_spec (offset - start + count) (len d)); [|done].
  apply copy_of_slice; lia.
Qed.

Lemma safe_trans2_section d start offset count : safe (trans2_section d start offset count).
Proof. rewrite trans2_section_eq. safe_tac; lia. Qed.
#[export] Hint Resolve safe_trans2_section : safe.

Lemma safe_DecodeTrans2Response p d : safe (DecodeTrans2Response p d).
Proof.
  unfold DecodeTrans2Response. safe_tac. apply safe_setup_words; go_ranges; lia.
Qed.
#[export] Hint Resolve safe_DecodeTrans2Response : safe.

Lemma safe_parse_fixed data offset :
  0 <= offset -> offset + 94 <= len data -> safe (parse_fixed data offset).
Proof. intros. unfold parse_fixed. safe_tac. Qed.

Lemma parse_fixed_range data offset file :
  parse_fixed data offset = Ok file ->
  0 <= fb_FileNameLength (file []) /\ 0 <= fb_NextEntryOffset (file []).
Proof.
  unfold parse_fixed. intros H. inv_binds. injection H as <-. cbn. go_ranges. lia.
Qed.

(** Every pass moves on, so one pass per byte is enough. *)
Lemma safe_parse_entries fuel data offset files :
  0 <= offset -> len data - offset < Z.of_nat fuel -> (0 < fuel)%nat ->
  safe (parse_entries fuel data offset files).
Proof.
  revert offset files. induction fuel as [|fuel IH]; intros offset files Ho Hf Hp; [lia|].
  cbn [parse_entries]. unfold fileBothDirectoryInfoFixedSize.
  apply safe_if; intros E; [done|]. apply safe_if; intros E1; [done|].
  apply safe_bind; [apply safe_parse_fixed; lia|]. intros file Hfile.
  pose proof (parse_fixed_range _ _ _ Hfile).
  apply safe_if; intros E2; [done|]. apply safe_bind.
  { apply safe_if; intros E3; [|done]. safe_tac. }
  intros name _. repeat (apply safe_if; intros ?; [done|]). apply IH; lia.
Qed.

Lemma safe_ParseFileBothDirectoryInfo data : safe (ParseFileBothDirectoryInfo data).
Proof. apply safe_parse_entries; unfold len; lia. Qed.
#[export] Hint Resolve safe_ParseFileBothDirectoryInfo : safe.

Lemma safe_search_entries what data infoLevel : safe (search_entries what data infoLevel).
Proof. unfold search_entries. safe_tac. Qed.
#[export] Hint Resolve safe_search_entries : safe.

Lemma safe_DecodeFileBasicInfo data : safe (DecodeFileBasicInfo data).
Proof. unfold DecodeFileBasicInfo. safe_tac. Qed.
Lemma safe_DecodeFileStandardInfo data : safe (DecodeFileStandardInfo data).
Proof. unfold DecodeFileStandardInfo. safe_tac. Qed.
#[export] Hint Resolve safe_DecodeFileBasicInfo safe_DecodeFileStandardInfo : safe.

(** No reply makes a decoder of this file panic or loop: each of them
    returns a value or an error on every input. *)
Lemma trans2_decoders_total (p d : bytes) level :
  safe (DecodeTrans2Response p d) /\ safe (ParseFileBothDirectoryInfo d) /\
  safe (DecodeFindFirst2Response p d level) /\ safe (DecodeFindNext2Response p d level) /\
  safe (DecodeQueryPathInfoResponse d level) /\ safe (DecodeFsSizeInfo d) /\
  safe (DecodeFsAllocationInfo d) /\ safe (DecodeFsVolumeInfo d).
Proof.
  split_and!; auto with safe.
  - unfold DecodeFindFirst2Response. safe_tac.
  - unfold DecodeFindNext2Response. safe_tac.
  - unfold DecodeQueryPathInfoResponse. safe_tac.
  - unfold DecodeFsSizeInfo. safe_tac.
  - unfold DecodeFsAllocationInfo. safe_tac.
  - unfold DecodeFsVolumeInfo. safe_tac; go_ranges;
      repeat match goal with H : context [if ?b then _ else _] |- _ => destruct b eqn:? end; lia.
Qed.

(** ** The layout of requests *)

Lemma encode_name_eq u s : encode_name u s = Ok (name_bytes u s).
Proof. unfold encode_name. destruct u; [|done]. by rewrite EncodeStringToBytes_eq. Qed.

#[export] Hint Rewrite len_units_bytes : len.

Lemma units_bytes_here ws : put_units (replicate (Z.to_nat (len ws * 2)) Byte.x00) 0 ws = Ok (units_bytes ws).
Proof.
  pose proof (put_units_spec ws [] (replicate (Z.to_nat (len ws * 2)) Byte.x00) []) as H.
  rewrite !app_nil_r in H. pose proof (len_nonneg ws).
  apply H; [rewrite len_replicate; lia|done].
Qed.

Definition trans2_fixed (pc dc po dofs n maxDataCount : Z) : bytes :=
  le_put 2 pc ++ le_put 2 dc ++ le_put 2 TransactionMaxParameterCount ++ le_put 2 maxDataCount
  ++ [byte_of 0] ++ [byte_of 0] ++ le_put 2 0 ++ le_put 4 0 ++ le_put 2 0 ++ le_put 2 pc
  ++ le_put 2 po ++ le_put 2 dc ++ le_put 2 dofs ++ [byte_of n] ++ [byte_of 0].

(** The request, with the offset [start] of its name: offsets are 16-bit. *)
Lemma EncodeTrans2Request_eq setup params data name maxDataCount :
  0 < len setup <= 14 ->
  let start := 63 + 2 * len setup in
  let po := start + len name + (start + len name) mod 2 in
  let dofs := po + len params + len params mod 2 in
  EncodeTrans2Request setup params data name maxDataCount =
  Ok (trans2_fixed (wrap 16 (len params)) (wrap 16 (len data)) (wrap 16 po) (wrap 16 dofs)
        (len setup) maxDataCount ++ units_bytes setup,
      name ++ pad (start + len name) ++ params ++ pad (len params) ++ data).
Proof.
  intros Hs start po dofs. unfold EncodeTrans2Request.
  rewrite (proj2 (Z.eqb_neq _ _)), (proj2 (Z.ltb_ge 14 _)) by lia.
  rewrite (wrap_small 8) by lia. unfold HeaderSize.
  replace (32 + 1 + 28 + len setup * 2 + 2 + len name) with (start + len name) by (unfold start; lia).
  rewrite mod2_pad. fold po. rewrite mod2_pad.
  assert (wrap 16 (wrap 16 po + wrap 16 (len params)) mod 2 = len params mod 2) as Hpad.
  { unfold wrap. rewrite <- Z.add_mod by lia. unfold po. Z.to_euclidean_division_equations. lia. }
  rewrite Hpad.
  assert (wrap 16 (wrap 16 po + wrap 16 (len params) + len params mod 2) = wrap 16 dofs) as ->.
  { unfold wrap, dofs. rewrite <- Z.add_mod_idemp_l, <- Z.add_mod, Z.add_mod_idemp_l by lia. done. }
  rewrite (make_zeros 28 28) by done. cbn [bind]. unfold put16, put32.
  repeat enc_step. rewrite make_ok by (pose proof (len_nonneg setup); lia). cbn [bind].
  rewrite units_bytes_here. cbn [bind]. reflexivity.
Qed.

(** A TRANS2 request finds its parameters and data: in the encoded packet,
    at the offsets its ParameterOffset and DataOffset fields hold, even ones, lie
    exactly the parameters and the data, whose sizes are the count fields, and
    nothing follows the data. *)
Theorem EncodeTrans2Request_layout h setup params data name maxDataCount :
  Header_wf h -> 0 < len setup <= 14 ->
  68 + 2 * len setup + len name + len params + len data <= 2 ^ 16 ->
  exists p d raw po dofs,
    EncodeTrans2Request setup params data name maxDataCount = Ok (p, d) /\
    EncodePacket (Some h) p d = Ok raw /\
    u16 raw 51 53 = Ok (len params) /\ u16 raw 53 55 = Ok po /\
    u16 raw 55 57 = Ok (len data) /\ u16 raw 57 59 = Ok dofs /\
    po mod 2 = 0 /\ dofs mod 2 = 0 /\
    slice raw po (po + len params) = Ok params /\
    slice raw dofs (dofs + len data) = Ok data /\ len raw = dofs + len data.
Proof.
  intros Hh Hs Hsize. pose proof (EncodeTrans2Request_eq setup params data name maxDataCount Hs) as E.
  cbv zeta in E. set (start := 63 + 2 * len setup) in E.
  set (po := start + len name + (start + len name) mod 2) in E.
  set (dofs := po + len params + len params mod 2) in E.
  pose proof (len_nonneg params). pose proof (len_nonneg data). pose proof (len_nonneg name).
  pose proof (Z.mod_pos_bound (start + len name) 2 eq_refl).
  pose proof (Z.mod_pos_bound (len params) 2 eq_refl).
  pose proof (len_Header_bytes h Hh) as HL. unfold HeaderSize in HL.
  rewrite E. eexists _, _, _, po, dofs. split; [reflexivity|]. split.
  { rewrite EncodePacket_eq; [reflexivity|done|..]; unfold trans2_fixed, MaxParametersSize, MaxDataSize;
      autorewrite with len; rewrite ?len_units_bytes, ?len_pad, ?len_cons, ?len_nil.
    - Z.to_euclidean_division_equations. lia.
    - lia.
    - lia. }
  unfold Packet_bytes, trans2_fixed. rewrite <- !app_assoc.
  assert (dofs = po + len params + len params mod 2) as Hdofs by reflexivity. clearbody dofs.
  assert (po = start + len name + (start + len name) mod 2) as Hpo by reflexivity. clearbody po.
  assert (start = 63 + 2 * len setup) as Hstart by reflexivity. clearbody start.
  repeat (rewrite (wrap_small 16) by lia).
  set (bc := le_put 2 (len _ mod 2 ^ 16)). set (wc := byte_of (len _ / 2)).
  assert (len bc = 2) as Hbc by apply len_le_put. clearbody bc wc.
  split_and!; try (Z.to_euclidean_division_equations; lia).
  all: wire_read; rewrite ?wrap_small by lia; try reflexivity.
  - by rewrite slice_whole by offsets.
  - offsets.
Qed.

Lemma EncodeTrans2Request_layout_witness :
  exists p d raw po dofs,
    EncodeTrans2Request [5] (str "pqr") (str "data") [] 4096 = Ok (p, d) /\
    EncodePacket (Some example_header) p d = Ok raw /\
    slice raw po (po + 3) = Ok (str "pqr") /\ slice raw dofs (dofs + 4) = Ok (str "data").
Proof.
  assert (Header_wf example_header) as Hh by (apply NewHeader_wf; split; [discriminate|reflexivity]).
  destruct (EncodeTrans2Request_layout example_header [5] (str "pqr") (str "data") [] 4096 Hh
    ltac:(vm_compute; split; [reflexivity|discriminate]) ltac:(vm_compute; discriminate))
    as (p & d & raw & po & dofs & E1 & E2 & _ & _ & _ & _ & _ & _ & E3 & E4 & _).
  exists p, d, raw, po, dofs. exact (conj E1 (conj E2 (conj E3 E4))).
Defined.

(** ** The layout of responses *)

(** The offsets of a TRANS2 response are offsets into the message: what is
    decoded as its parameters and its data are the bytes of the received packet
    at ParameterOffset and DataOffset, or nothing where those bytes lie outside
    the data section of the packet. *)
Theorem DecodeTrans2Response_sections raw h params data r :
  DecodePacket raw = Ok (h, params, data) -> DecodeTrans2Response params data = Ok r ->
  params <> [] ->
  let start := HeaderSize + 1 + len params + 2 in
  let within o n := (0 < n /\ 0 < o) /\ start <= o /\ o + n <= len raw in
  (within (t2_ParameterOffset r) (t2_ParameterCount r) ->
     slice raw (t2_ParameterOffset r) (t2_ParameterOffset r + t2_ParameterCount r)
     = Ok (t2_Parameters r)) /\
  (~ within (t2_ParameterOffset r) (t2_ParameterCount r) -> t2_Parameters r = []) /\
  (within (t2_DataOffset r) (t2_DataCount r) ->
     slice raw (t2_DataOffset r) (t2_DataOffset r + t2_DataCount r) = Ok (t2_Data r)) /\
  (~ within (t2_DataOffset r) (t2_DataCount r) -> t2_Data r = []).
Proof.
  intros Hd Hr Hne start within. apply DecodePacket_cut in Hd as (pre & -> & Hpre).
  fold start in Hpre.
  assert (forall o n s, trans2_section data start o n = Ok s ->
    (within o n -> slice (pre ++ data) o (o + n) = Ok s) /\ (~ within o n -> s = [])) as Hsec.
  { intros o n s. unfold within. rewrite trans2_section_eq, len_app, Hpre.
    destruct (Z.ltb_spec 0 n), (Z.ltb_spec 0 o), (Z.leb_spec start o),
      (Z.leb_spec (o - start + n) (len data)); cbn [andb]; intros Hs;
      (split; intros Hw; [|try (injection Hs as <-; done)]); try lia.
    rewrite slice_skip, Hpre by lia. by replace (o + n - start) with (o - start + n) by lia. }
  clearbody within. unfold DecodeTrans2Response in Hr.
  destruct (Z.eqb_spec (len params) 0); [by destruct Hne; apply len_0_nil|].
  destruct (Z.ltb_spec (len params) 20); [done|].
  inv_binds; injection Hr as <-; cbn [t2_ParameterOffset t2_ParameterCount t2_Parameters
    t2_DataOffset t2_DataCount t2_Data];
  repeat match goal with E : trans2_section _ _ _ _ = Ok _ |- _ => apply Hsec in E; destruct E end; tauto.
Qed.

(** A reply of one parameter word and three data bytes. *)
Definition example_trans2 : bytes :=
  Packet_bytes example_header
    (le_put 2 2 ++ le_put 2 3 ++ le_put 2 0 ++ le_put 2 2 ++ le_put 2 56 ++ le_put 2 0
     ++ le_put 2 3 ++ le_put 2 60 ++ le_put 2 0 ++ [Byte.x00; Byte.x00])
    ([Byte.x00; Byte.x01; Byte.x02; Byte.x00; Byte.x00] ++ str "abc").
Definition example_trans2_parts : Header * bytes * bytes :=
  Eval vm_compute in match DecodePacket example_trans2 with Ok x => x | _ => (example_header, [], []) end.
Definition example_trans2_response : Trans2Response :=
  Eval vm_compute in match DecodeTrans2Response example_trans2_parts.1.2 example_trans2_parts.2 with
  | Ok r => r | _ => empty_Trans2Response end.

Lemma DecodeTrans2Response_sections_witness :
  slice example_trans2 60 63 = Ok (t2_Data example_trans2_response) /\
  t2_Data example_trans2_response = str "abc".
Proof.
  split; [|reflexivity].
  refine (proj1 (proj2 (proj2 (DecodeTrans2Response_sections example_trans2
    example_trans2_parts.1.1 example_trans2_parts.1.2 example_trans2_parts.2
    example_trans2_response _ _ _))) _).
  - vm_compute. reflexivity.
  - vm_compute. reflexivity.
  - discriminate.
  - vm_compute. repeat split; discriminate.
Defined.

(** ** Directory listings *)

(** An entry as a server writes it. *)
Definition entry_bytes (f : FileBothDirectoryInfo) : bytes :=
  le_put 4 (fb_NextEntryOffset f) ++ le_put 4 (fb_FileIndex f) ++ le_put 8 (fb_CreationTime f)
  ++ le_put 8 (fb_LastAccessTime f) ++ le_put 8 (fb_LastWriteTime f) ++ le_put 8 (fb_ChangeTime f)
  ++ le_put 8 (fb_EndOfFile f) ++ le_put 8 (fb_AllocationSize f) ++ le_put 4 (fb_FileAttributes f)
  ++ le_put 4 (fb_FileNameLength f) ++ le_put 4 (fb_EaSize f) ++ [byte_of (fb_ShortNameLength f)]
  ++ [byte_of (fb_Reserved f)] ++ fb_ShortName f ++ utf16le (fb_FileName f).

Record entry_wf (f : FileBothDirectoryInfo) : Prop := {
  ew_next : 0 <= fb_NextEntryOffset f < 2 ^ 32;
  ew_index : 0 <= fb_FileIndex f < 2 ^ 32;
  ew_times : Forall (fun t => 0 <= t < 2 ^ 64) [fb_CreationTime f; fb_LastAccessTime f;
    fb_LastWriteTime f; fb_ChangeTime f; fb_EndOfFile f; fb_AllocationSize f];
  ew_attributes : 0 <= fb_FileAttributes f < 2 ^ 32;
  ew_name_len : fb_FileNameLength f = len (utf16le (fb_FileName f));
  ew_name_fits : fb_FileNameLength f < 2 ^ 32;
  ew_ea : 0 <= fb_EaSize f < 2 ^ 32;
  ew_short : 0 <= fb_ShortNameLength f < 2 ^ 8;
  ew_reserved : 0 <= fb_Reserved f < 2 ^ 8;
  ew_short_name : len (fb_ShortName f) = 24;
  ew_name : ValidString (fb_FileName f) /\ last (fb_FileName f) <> Some Byte.x00;
}.

(** A listing: each entry but the last points at the next one, past its own end
    and any padding; the last has offset 0, or points past the end. *)
Inductive listing : list FileBothDirectoryInfo -> bytes -> Prop :=
  | listing_last f :
      entry_wf f ->
      fb_NextEntryOffset f = 0 \/ fileBothDirectoryInfoFixedSize + fb_FileNameLength f <= fb_NextEntryOffset f ->
      listing [f] (entry_bytes f)
  | listing_cons f fs padding rest :
      entry_wf f -> listing fs rest ->
      fb_NextEntryOffset f = len (entry_bytes f ++ padding) ->
      listing (f :: fs) (entry_bytes f ++ padding ++ rest).

Lemma len_entry_bytes f : entry_wf f -> len (entry_bytes f) = 94 + fb_FileNameLength f.
Proof. intros []. unfold entry_bytes. autorewrite with len. lia. Qed.

Lemma listing_nonempty fs b : listing fs b -> 94 <= len b.
Proof.
  intros [f Hf _|f fs' p r Hf _ _]; rewrite ?len_app, len_entry_bytes by done;
    pose proof (ew_name_len f Hf); pose proof (len_nonneg (utf16le (fb_FileName f)));
    try pose proof (len_nonneg p); try pose proof (len_nonneg r); lia.
Qed.

Lemma parse_fixed_entry pre f rest :
  entry_wf f ->
  parse_fixed (pre ++ entry_bytes f ++ rest) (len pre) =
  Ok (mkFileBoth (fb_NextEntryOffset f) (fb_FileIndex f) (fb_CreationTime f) (fb_LastAccessTime f)
        (fb_LastWriteTime f) (fb_ChangeTime f) (fb_EndOfFile f) (fb_AllocationSize f)
        (fb_FileAttributes f) (fb_FileNameLength f) (fb_EaSize f) (fb_ShortNameLength f)
        (fb_Reserved f) (fb_ShortName f)).
Proof.
  intros [? ? Ht ? Hn ? ? ? ? Hs _]. rewrite !Forall_cons in Ht.
  pose proof (len_nonneg (utf16le (fb_FileName f))).
  unfold parse_fixed, entry_bytes. rewrite <- !app_assoc. wire_read.
  repeat (rewrite wrap_small by lia). reflexivity.
Qed.

(** One pass over a well-formed entry. *)
Lemma parse_entries_entry fuel pre f rest files :
  entry_wf f ->
  parse_entries (S fuel) (pre ++ entry_bytes f ++ rest) (len pre) files =
  let files := files ++ [f] in
  let next := fb_NextEntryOffset f in
  if next =? 0 then Ok (mkParseResult files false) else
  if next <? fileBothDirectoryInfoFixedSize + fb_FileNameLength f
  then Ok (mkParseResult files true) else
  if len (entry_bytes f ++ rest) <=? next then Ok (mkParseResult files false) else
  parse_entries fuel (pre ++ entry_bytes f ++ rest) (len pre + next) files.
Proof.
  intros Hf. pose proof (len_entry_bytes f Hf) as Hl. pose proof (ew_name_len f Hf) as Hn.
  pose proof (len_nonneg (utf16le (fb_FileName f))) as Hu. pose proof (len_nonneg rest) as Hr.
  pose proof (len_nonneg pre) as Hp.
  cbn [parse_entries]. rewrite parse_fixed_entry by done. cbn [bind fb_FileNameLength fb_NextEntryOffset].
  rewrite !(len_app pre), !(len_app (entry_bytes f)), !Hl. unfold fileBothDirectoryInfoFixedSize.
  rewrite (proj2 (Z.ltb_lt (len pre) _)) by lia. cbn [negb].
  rewrite (proj2 (Z.ltb_ge _ 94)) by lia. rewrite (proj2 (Z.ltb_ge _ _)) by lia.
  replace (len pre + (94 + fb_FileNameLength f + len rest) <=? len pre + fb_NextEntryOffset f)
    with (94 + fb_FileNameLength f + len rest <=? fb_NextEntryOffset f)
    by (destruct (Z.leb_spec (94 + fb_FileNameLength f + len rest) (fb_NextEntryOffset f)),
          (Z.leb_spec (len pre + (94 + fb_FileNameLength f + len rest)) (len pre + fb_NextEntryOffset f)); lia).
  assert (slice (pre ++ entry_bytes f ++ rest) (len pre + 94) (len pre + 94 + fb_FileNameLength f)
    = Ok (utf16le (fb_FileName f))) as Hs.
  { destruct Hf as [_ _ _ _ _ _ _ _ _ Hsn _]. unfold entry_bytes. rewrite <- !app_assoc. by wire_read. }
  rewrite Hs. cbn [bind]. rewrite DecodeToString_eq.
  destruct (ew_name f Hf) as [Hv Hlast]. rewrite of_utf16le_utf16le by done.
  assert ((if 0 <? fb_FileNameLength f then Ok (fb_FileName f) else Ok []) = Ok (fb_FileName f)) as ->.
  { destruct (Z.ltb_spec 0 (fb_FileNameLength f)); [done|]. f_equal.
    rewrite <- (of_utf16le_utf16le (fb_FileName f)) by done.
    by rewrite (len_0_nil (utf16le (fb_FileName f))) by lia. }
  cbn [bind]. by destruct f.
Qed.

Lemma parse_entries_listing fs b :
  listing fs b -> forall fuel pre files,
  len b < Z.of_nat fuel ->
  parse_entries fuel (pre ++ b) (len pre) files = Ok (mkParseResult (files ++ fs) false).
Proof.
  induction 1 as [f Hf Hn|f fs padding rest Hf Hl IH Hn]; intros fuel pre files Hfuel.
  - destruct fuel as [|fuel]; [pose proof (len_nonneg (entry_bytes f)); lia|].
    rewrite <- (app_nil_r (entry_bytes f)) at 1. rewrite parse_entries_entry by done. cbv zeta.
    rewrite app_nil_r, len_entry_bytes by done.
    destruct (Z.eqb_spec (fb_NextEntryOffset f) 0) as [|]; [done|].
    destruct Hn as [|Hn]; [done|]. rewrite (proj2 (Z.ltb_ge _ _)) by lia.
    unfold fileBothDirectoryInfoFixedSize in Hn. by rewrite (proj2 (Z.leb_le _ _)) by lia.
  - destruct fuel as [|fuel]; [pose proof (len_nonneg (entry_bytes f ++ padding ++ rest)); lia|].
    rewrite parse_entries_entry by done. cbv zeta. pose proof (listing_nonempty _ _ Hl) as Hr.
    autorewrite with len in Hn, Hfuel |- *. rewrite len_entry_bytes in Hn, Hfuel |- * by done.
    pose proof (ew_name_len f Hf). pose proof (len_nonneg (utf16le (fb_FileName f))).
    pose proof (len_nonneg padding).
    rewrite (proj2 (Z.eqb_neq _ 0)), (proj2 (Z.ltb_ge _ _)), (proj2 (Z.leb_gt _ _))
      by (unfold fileBothDirectoryInfoFixedSize; lia).
    replace (pre ++ entry_bytes f ++ padding ++ rest) with ((pre ++ entry_bytes f ++ padding) ++ rest)
      by (by rewrite <- !app_assoc).
    replace (len pre + fb_NextEntryOffset f) with (len (pre ++ entry_bytes f ++ padding))
      by (autorewrite with len; rewrite len_entry_bytes by done; lia).
    rewrite IH by lia. by rewrite <- app_assoc.
Qed.

(** A directory listing as a server lays it out, entry after entry with
    padding between them and the chain ended either way servers end it, is
    parsed into exactly its entries, names included, and is not reported as
    truncated. *)
Theorem ParseFileBothDirectoryInfo_listing fs b :
  listing fs b -> ParseFileBothDirectoryInfo b = Ok (mkParseResult fs false).
Proof.
  intros H. unfold ParseFileBothDirectoryInfo.
  apply (parse_entries_listing fs b H (S (length b)) [] []). unfold len. lia.
Qed.

Definition example_entry (next : Z) (name : bytes) : FileBothDirectoryInfo :=
  mkFileBoth next 0 1 2 3 4 5 4096 0x20 (len (utf16le name)) 0 0 0 (replicate 24 Byte.x00) name.
Definition example_listing : bytes :=
  entry_bytes (example_entry 104 (str "a.txt")) ++ [] ++ entry_bytes (example_entry 0 (str "b")).

Lemma ParseFileBothDirectoryInfo_listing_witness :
  ParseFileBothDirectoryInfo example_listing =
  Ok (mkParseResult [example_entry 104 (str "a.txt"); example_entry 0 (str "b")] false).
Proof.
  assert (forall next name, 0 <= next < 2 ^ 32 ->
    bool_decide (ValidString name /\ last name <> Some Byte.x00 /\ len (utf16le name) < 2 ^ 32) = true ->
    entry_wf (example_entry next name)) as Hwf.
  { intros next name Hn Hb. apply bool_decide_eq_true in Hb as (H1 & H2 & H3).
    split; try done; cbn; try lia. repeat constructor; lia. }
  apply ParseFileBothDirectoryInfo_listing. unfold example_listing.
  apply listing_cons; [apply Hwf; [lia|vm_compute; reflexivity]| |vm_compute; reflexivity].
  apply listing_last; [apply Hwf; [lia|vm_compute; reflexivity]|left; reflexivity].
Defined.

(** ** Information levels *)

Definition FileBasicInfo_wf (i : FileBasicInfo) : Prop :=
  Forall (fun t => 0 <= t < 2 ^ 64)
    [bi_CreationTime i; bi_LastAccessTime i; bi_LastWriteTime i; bi_ChangeTime i]
  /\ 0 <= bi_Attributes i < 2 ^ 32 /\ 0 <= bi_Reserved i < 2 ^ 32.

Definition FileStandardInfo_wf (i : FileStandardInfo) : Prop :=
  0 <= si_AllocationSize i < 2 ^ 64 /\ 0 <= si_EndOfFile i < 2 ^ 64
  /\ 0 <= si_NumberOfLinks i < 2 ^ 32 /\ 0 <= si_DeletePending i < 2 ^ 8
  /\ 0 <= si_Directory i < 2 ^ 8 /\ 0 <= si_Reserved i < 2 ^ 16.

(** File information survives encoding and decoding: the basic level, also
    from a server that leaves its last, reserved field out, and the standard
    level; through the query decoder they come back as their own type. *)
Theorem file_information_roundtrip b s :
  FileBasicInfo_wf b -> FileStandardInfo_wf s ->
  (let! d := EncodeFileBasicInfo b in DecodeQueryPathInfoResponse d SMB_QUERY_FILE_BASIC_INFO)
    = Ok (BasicInfo b) /\
  (let! d := EncodeFileBasicInfo b in let! d := slice d 0 36 in DecodeFileBasicInfo d)
    = Ok (mkFileBasicInfo (bi_CreationTime b) (bi_LastAccessTime b) (bi_LastWriteTime b)
            (bi_ChangeTime b) (bi_Attributes b) 0) /\
  (let! d := EncodeFileStandardInfo s in DecodeQueryPathInfoResponse d SMB_QUERY_FILE_STANDARD_INFO)
    = Ok (StandardInfo s).
Proof.
  intros (Hb & ? & ?) (? & ? & ? & ? & ? & ?). rewrite !Forall_cons in Hb.
  destruct b as [c a w ch at' r], s as [al eo nl dp di rs]. cbn in *.
  split_and!; go_eval; autorewrite with le; reflexivity.
Qed.

Lemma file_information_roundtrip_witness :
  (let! d := EncodeFileBasicInfo (mkFileBasicInfo 1 2 3 4 0x10 0) in
   DecodeQueryPathInfoResponse d SMB_QUERY_FILE_BASIC_INFO)
  = Ok (BasicInfo (mkFileBasicInfo 1 2 3 4 0x10 0)).
Proof.
  refine (proj1 (file_information_roundtrip (mkFileBasicInfo 1 2 3 4 0x10 0)
    (mkFileStandardInfo 4096 10 1 0 1 0) _ _)).
  - repeat split; repeat constructor; try (vm_compute; discriminate); vm_compute; reflexivity.
  - repeat split; try (vm_compute; discriminate); vm_compute; reflexivity.
Defined.

(** The reply budget of a transaction: a 16-bit count of at least 1024
    bytes, and with it the largest reply fits the negotiated buffer, header,
    parameters and data, whenever the buffer holds that minimum at all. *)
Theorem MaxTransactionDataCount_fits maxBufferSize maxParameterCount :
  0 <= maxBufferSize < 2 ^ 32 -> 0 <= maxParameterCount < 2 ^ 16 ->
  let n := MaxTransactionDataCount maxBufferSize maxParameterCount in
  minTransactionDataCount <= n < 2 ^ 16 /\
  (transactionResponseOverhead + maxParameterCount + minTransactionDataCount <= maxBufferSize ->
   transactionResponseOverhead + maxParameterCount + n <= maxBufferSize /\
   (n = 65535 \/ transactionResponseOverhead + maxParameterCount + n = maxBufferSize)).
Proof.
  intros Hb Hp. cbv zeta. unfold MaxTransactionDataCount, minTransactionDataCount, transactionResponseOverhead.
  destruct (Z.ltb_spec (maxBufferSize - 64 - maxParameterCount) 1024); [lia|].
  destruct (Z.ltb_spec 65535 (maxBufferSize - 64 - maxParameterCount)); [lia|].
  rewrite wrap_small by lia. lia.
Qed.

Lemma MaxTransactionDataCount_fits_witness :
  MaxTransactionDataCount 4356 1024 = 3268 /\ 64 + 1024 + 3268 <= 4356.
Proof.
  split; [reflexivity|].
  exact (proj1 (proj2 (MaxTransactionDataCount_fits 4356 1024
    ltac:(lia) ltac:(lia)) ltac:(vm_compute; discriminate))).
Defined.

(** ** Requests that carry a name *)

Lemma EncodeFindFirst2_eq r :
  ff_FileName r <> [] ->
  EncodeFindFirst2 (Some r) =
  Ok (le_put 2 (ff_SearchAttributes r) ++ le_put 2 (ff_SearchCount r) ++ le_put 2 (ff_Flags r)
      ++ le_put 2 (ff_InformationLevel r) ++ le_put 4 (ff_SearchStorageType r)
      ++ name_bytes (ff_UseUnicode r) (ff_FileName r)).
Proof.
  intros Hn. unfold EncodeFindFirst2.
  destruct (Z.eqb_spec (len (ff_FileName r)) 0) as [E|_]; [by apply len_0_nil in E|].
  rewrite encode_name_eq. cbn [bind]. set (nb := name_bytes _ _).
  rewrite (make_zeros _ (12 + length nb)) by offsets. cbn [bind]. unfold put16, put32.
  repeat enc_step. by rewrite <- !app_assoc.
Qed.

Lemma EncodeFindNext2_eq r :
  EncodeFindNext2 (Some r) =
  Ok (le_put 2 (fn_SID r) ++ le_put 2 (fn_SearchCount r) ++ le_put 2 (fn_InformationLevel r)
      ++ le_put 4 (fn_ResumeKey r) ++ le_put 2 (fn_Flags r)
      ++ name_bytes (fn_UseUnicode r) (fn_FileName r)).
Proof.
  unfold EncodeFindNext2. rewrite encode_name_eq. cbn [bind]. set (nb := name_bytes _ _).
  rewrite (make_zeros _ (12 + length nb)) by offsets. cbn [bind]. unfold put16, put32.
  repeat enc_step. by rewrite <- !app_assoc.
Qed.

(** [InformationLevel], four reserved bytes, the name: the parameters of both
    path requests. *)
Definition path_parameters (infoLevel : Z) (useUnicode : bool) (fileName : bytes) : bytes :=
  le_put 2 infoLevel ++ replicate 4 Byte.x00 ++ name_bytes useUnicode fileName.

Lemma path_parameters_eq infoLevel u fileName :
  (let! nameBytes := encode_name u fileName in
   let! params := make (6 + len nameBytes) in
   let! params := put16 params 0 2 infoLevel in
   copy_at params 6 (len params) nameBytes) = Ok (path_parameters infoLevel u fileName).
Proof.
  rewrite encode_name_eq. cbn [bind]. unfold path_parameters. set (nb := name_bytes _ _).
  rewrite (make_zeros _ (6 + length nb)) by offsets. cbn [bind]. unfold put16.
  enc_step. rewrite (skip_zeros 4) by lia. enc_step. by rewrite <- !app_assoc.
Qed.

Lemma EncodeQueryPathInfo_eq fileName infoLevel u :
  fileName <> [] ->
  EncodeQueryPathInfo fileName infoLevel u = Ok (path_parameters infoLevel u fileName).
Proof.
  intros Hn. unfold EncodeQueryPathInfo.
  destruct (Z.eqb_spec (len fileName) 0) as [E|_]; [by apply len_0_nil in E|].
  apply path_parameters_eq.
Qed.

Lemma EncodeSetPathInfo_eq fileName infoLevel data u :
  fileName <> [] ->
  EncodeSetPathInfo fileName infoLevel data u = Ok (path_parameters infoLevel u fileName, data).
Proof.
  intros Hn. unfold EncodeSetPathInfo.
  destruct (Z.eqb_spec (len fileName) 0) as [E|_]; [by apply len_0_nil in E|].
  pose proof (path_parameters_eq infoLevel u fileName) as H. revert H.
  rewrite encode_name_eq. cbn [bind]. destruct (make _) as [b| |]; cbn [bind]; try done.
  destruct (put16 b 0 2 infoLevel) as [b'| |]; cbn [bind]; try done. by intros ->.
Qed.

(** The requests that carry a name put it where the protocol has it, as
    text or bytes with a terminator: a server that reads the name from offset
    12 (searches) or 6 (paths) of the parameters gets the name the caller gave,
    for every valid UTF-8 name on a Unicode session and for every name on an
    ASCII one. *)
Theorem request_names_roundtrip (name : bytes) u sa sc fl il st sid key data :
  name <> [] -> (u = true -> ValidString name) ->
  let name_at off p := let! b := slice p off (len p) in read_name u b in
  (let! p := EncodeFindFirst2 (Some (mkFindFirst2Request sa sc fl il st name u)) in name_at 12 p)
    = Ok name /\
  (let! p := EncodeFindNext2 (Some (mkFindNext2Request sid sc il key fl name u)) in name_at 12 p)
    = Ok name /\
  (let! p := EncodeQueryPathInfo name il u in name_at 6 p) = Ok name /\
  (let! pd := EncodeSetPathInfo name il data u in name_at 6 pd.1) = Ok name.
Proof.
  intros Hn Hv. cbv zeta. rewrite EncodeFindFirst2_eq, EncodeFindNext2_eq, EncodeQueryPathInfo_eq,
    EncodeSetPathInfo_eq by done. cbn [bind fst ff_FileName fn_FileName ff_UseUnicode fn_UseUnicode].
  unfold path_parameters.
  split_and!; wire_read; rewrite slice_whole by offsets; by apply read_name_bytes.
Qed.

Lemma request_names_roundtrip_witness :
  ValidString (str "dir\*.txt") /\
  (let! p := EncodeQueryPathInfo (str "dir\*.txt") 0x101 true in
   let! b := slice p 6 (len p) in read_name true b) = Ok (str "dir\*.txt").
Proof.
  assert (ValidString (str "dir\*.txt")) as Hv by (vm_compute; reflexivity).
  split; [exact Hv|].
  exact (proj1 (proj2 (proj2 (request_names_roundtrip (str "dir\*.txt") true 0 0 0 0x101 0 0 0 []
    ltac:(discriminate) (fun _ => Hv))))).
Defined.
