(* ===== verification/Transaction.v ===== *)
(** * Waiting for replies ([internal/client/conn.go])

    The senders of requests: one reply ([sendRecv], [sendRecvSettled]) and the
    reassembly of a transaction's reply from its messages
    ([sendRecvTransaction], [placeFragment]).  The messages a sender waits for
    are a list of what its [select] statements pick ([wait_event]); what other
    goroutines do to the connection meanwhile is a function [others]. *)

From S2P Require Export Trans2 Conn.

(** ** One reply *)

(** The response and its error, which are both returned. *)
Definition sendRecv (header : Header) (params data : bytes) (ctx : option error)
    (fails : option (nat * error)) (ev : wait_event) (ctxErr connErr : option error)
    (others : Conn -> Conn) (c : Conn) (s : Session)
  : res (response * option error) * Conn * Session :=
  match beginRequest header params data false ctx fails c s with
  | (Err e, c, s) => (Err e, c, s)
  | (Panic, c, s) => (Panic, c, s)
  | (Ok (k, mid), c, s) =>
    match awaitResponse ev connErr with
    | Panic => (Panic, others c, s)
    | Err e => (Err e, releaseLocked mid k (bool_decide (ctxErr <> None)) (others c), s)
    | Ok resp => (Ok (resp, r_err resp), releaseLocked mid k false (others c), s)
    end
  end.

(** What the second [select] of [sendRecvSettled] picks. *)
Inductive settle_event := SettleReply | SettleTimeout | SettleDone.

Definition sendRecvSettled (header : Header) (params data : bytes) (ctx : option error)
    (fails : option (nat * error)) (ev : wait_event) (sev : settle_event)
    (ctxErr connErr : option error) (others : Conn -> Conn) (c : Conn) (s : Session)
  : res (response * option error) * Conn * Session :=
  match beginRequest header params data false ctx fails c s with
  | (Err e, c, s) => (Err e, c, s)
  | (Panic, c, s) => (Panic, c, s)
  | (Ok (k, mid), c, s) =>
    match awaitResponse ev connErr with
    | Panic => (Panic, others c, s)
    | Ok resp => (Ok (resp, r_err resp), releaseLocked mid k false (others c), s)
    | Err e =>
      match ctxErr with
      | None => (Err e, releaseLocked mid k false (others c), s)
      | Some _ =>
        let abandoned := match sev with SettleTimeout => true | _ => false end in
        (Err e, releaseLocked mid k abandoned (others c), s)
      end
    end
  end.

(** ** Reassembly *)

Definition placeFragment (buf frag : bytes) (displacement : Z) (what : string) : res bytes :=
  if len frag =? 0 then Ok buf else
  let start := displacement in
  if (start <? 0) || (len buf <? start + len frag) then Err (Errorf what) else
  copy_at buf start (len buf) frag.

(** The variables of the loop; [first] and [assembled] are nil before the first
    message. *)
Record assembly := mkAssembly {
  as_first : option (response * Trans2Response);
  as_paramBuf : bytes;
  as_dataBuf : bytes;
  as_gotParams : Z;
  as_gotData : Z;
  as_wantParams : Z;
  as_wantData : Z;
  as_fragmentsRead : Z;
  as_emptyFragments : Z;
}.

Definition no_assembly : assembly := mkAssembly None [] [] 0 0 0 0 0 0.

(** How a pass ends: with another pass, or with [complete] and the results. *)
Inductive pass :=
  | Again (a : assembly)
  | Return (complete : bool) (r : res (response * Trans2Response)).

(** [resp.err != nil && resp.header.IsError()] *)
Definition failed (resp : response) : bool :=
  bool_decide (r_err resp <> None) &&
  match r_header resp with Some h => IsError h | None => false end.

(** The first message sizes the buffers. *)
Definition first_fragment (resp : response) (frag : Trans2Response) (a : assembly) : res assembly :=
  match as_first a with
  | Some _ => Ok a
  | None =>
    let! paramBuf := make (t2_TotalParameterCount frag) in
    let! dataBuf := make (t2_TotalDataCount frag) in
    Ok (mkAssembly (Some (resp, frag)) paramBuf dataBuf (as_gotParams a) (as_gotData a)
          (t2_TotalParameterCount frag) (t2_TotalDataCount frag)
          (as_fragmentsRead a) (as_emptyFragments a))
  end.

Definition assembled_response (frag : Trans2Response) (a : assembly) : Trans2Response :=
  mkTrans2Response (t2_Status frag) (t2_TotalParameterCount frag) (t2_TotalDataCount frag)
    (t2_Reserved frag) (wrap 16 (as_wantParams a)) (t2_ParameterOffset frag)
    (t2_ParameterDisplacement frag) (wrap 16 (as_wantData a)) (t2_DataOffset frag)
    (t2_DataDisplacement frag) (t2_SetupCount frag) (t2_Reserved2 frag) (t2_Setup frag)
    (t2_ByteCount frag) (t2_Pad1 frag) (as_paramBuf a) (t2_Pad2 frag) (as_dataBuf a).

(** One fragment of a message without an error status. *)
Definition add_fragment (resp : response) (frag : Trans2Response) (a : assembly) : pass :=
  let placed :=
    let! a := first_fragment resp frag a in
    let! paramBuf := placeFragment (as_paramBuf a) (t2_Parameters frag)
                       (t2_ParameterDisplacement frag) "parameter" in
    let! dataBuf := placeFragment (as_dataBuf a) (t2_Data frag) (t2_DataDisplacement frag) "data" in
    Ok (mkAssembly (as_first a) paramBuf dataBuf (as_gotParams a + len (t2_Parameters frag))
          (as_gotData a + len (t2_Data frag)) (as_wantParams a) (as_wantData a)
          (as_fragmentsRead a) (as_emptyFragments a)) in
  match placed with
  | Err e => Return false (Err e)
  | Panic => Return false Panic
  | Ok a =>
    if (as_wantParams a <=? as_gotParams a) && (as_wantData a <=? as_gotData a) then
      Return true match as_first a with
                  | Some (first, assembled) => Ok (first, assembled_response assembled a)
                  | None => Panic
                  end
    else
      let empty := (len (t2_Parameters frag) =? 0) && (len (t2_Data frag) =? 0) in
      let emptyFragments := if empty then as_emptyFragments a + 1 else as_emptyFragments a in
      let fragmentsRead := as_fragmentsRead a + 1 in
      if empty && (1 <? emptyFragments)
      then Return false (Err (Errorf "smb1: trans2 response stalled"))
      else if maxTrans2Fragments <? fragmentsRead
      then Return false (Err (Errorf "smb1: trans2 response split across too many messages"))
      else Again (mkAssembly (as_first a) (as_paramBuf a) (as_dataBuf a) (as_gotParams a)
                    (as_gotData a) (as_wantParams a) (as_wantData a) fragmentsRead emptyFragments)
  end.

(** One pass of the loop. *)
Definition transaction_pass (ev : wait_event) (connErr : option error) (a : assembly) : pass :=
  match awaitResponse ev connErr with
  | Err e => Return false (Err e)
  | Panic => Return false Panic
  | Ok resp =>
    match DecodeTrans2Response (r_params resp) (r_data resp) with
    | Panic => Return (failed resp) Panic
    | Err e => Return (failed resp) (Err e)
    | Ok frag => if failed resp then Return true (Ok (resp, frag)) else add_fragment resp frag a
    end
  end.

(** The loop on the events seen so far: [None] when it waits for more. *)
Fixpoint transaction_loop (events : list wait_event) (connErr : option error) (a : assembly)
  : option (bool * res (response * Trans2Response)) :=
  match events with
  | [] => None
  | ev :: t =>
    match transaction_pass ev connErr a with
    | Return complete r => Some (complete, r)
    | Again a => transaction_loop t connErr a
    end
  end.

Definition sendRecvTransaction (header : Header) (params data : bytes) (ctx : option error)
    (fails : option (nat * error)) (events : list wait_event) (connErr : option error)
    (others : Conn -> Conn) (c : Conn) (s : Session)
  : option (res (response * Trans2Response)) * Conn * Session :=
  match beginRequest header params data true ctx fails c s with
  | (Err e, c, s) => (Some (Err e), c, s)
  | (Panic, c, s) => (Some Panic, c, s)
  | (Ok (k, mid), c, s) =>
    match transaction_loop events connErr no_assembly with
    | None => (None, others c, s)
    | Some (complete, r) => (Some r, releaseLocked mid k (negb complete) (others c), s)
    end
  end.

(** ** Absence of panics, and termination *)

(** What a [select] can pick: an error once the connection is closed, and not
    nil from the channel.  The nil of a closed channel is left out: only a local
    [Close] closes the channel of a waiting request (a failed connection does
    not), and it puts its error into the channel first unless the channel is
    full; so [awaitResponse], which would dereference nil and panic, can only
    meet it when [Close] finds all 64 places taken and the [select] then prefers
    the channel to [done] until they are drained. *)
Definition event_ok (connErr : option error) (ev : wait_event) : Prop :=
  ev <> EvResponse None /\ (ev = EvDone -> connErr <> None).

Lemma safe_awaitResponse ev connErr : event_ok connErr ev -> safe (awaitResponse ev connErr).
Proof.
  intros [H1 H2]. unfold awaitResponse. destruct ev as [[r|]|e|]; [|done|done|].
  - destruct (r_header r); [done|]. by destruct (r_err r), connErr.
  - destruct connErr; [done|]. by destruct H2.
Qed.

(** What is left out: the nil of the closed channel. *)
Lemma closed_channel_panics connErr : awaitResponse (EvResponse None) connErr = Panic.
Proof. done. Qed.

Lemma safe_placeFragment buf frag displacement what : safe (placeFragment buf frag displacement what).
Proof.
  unfold placeFragment. apply safe_if; intros H1; [done|]. apply safe_if; intros H2; [done|].
  pose proof (len_nonneg frag). unfold copy_at.
  rewrite (proj2 (andb_true_iff _ _)); [done|]. rewrite andb_true_iff. lia.
Qed.
#[export] Hint Resolve safe_placeFragment : safe.

Definition pass_safe (p : pass) : Prop := match p with Again _ => True | Return _ r => safe r end.

Lemma DecodeTrans2Response_totals p d r :
  DecodeTrans2Response p d = Ok r -> 0 <= t2_TotalParameterCount r /\ 0 <= t2_TotalDataCount r.
Proof.
  unfold DecodeTrans2Response. destruct (_ =? 0); [by intros [= <-]|].
  destruct (_ <? _); [done|]. intros H. inv_binds; injection H as <-; cbn; go_ranges; lia.
Qed.

Lemma safe_first_fragment resp frag a :
  0 <= t2_TotalParameterCount frag -> 0 <= t2_TotalDataCount frag ->
  exists a', first_fragment resp frag a = Ok a' /\ as_first a' <> None /\
    as_fragmentsRead a' = as_fragmentsRead a /\ as_emptyFragments a' = as_emptyFragments a.
Proof.
  intros H1 H2. unfold first_fragment. destruct (as_first a) eqn:E; [exists a; by rewrite E|].
  rewrite !make_ok by lia. cbn [bind]. by eexists.
Qed.

Lemma transaction_pass_safe ev connErr a :
  event_ok connErr ev -> pass_safe (transaction_pass ev connErr a) /\
  forall a', transaction_pass ev connErr a = Again a' ->
    as_fragmentsRead a' = as_fragmentsRead a + 1 /\ as_fragmentsRead a' <= maxTrans2Fragments.
Proof.
  intros Hev. unfold transaction_pass. pose proof (safe_awaitResponse _ _ Hev) as Hs.
  destruct (awaitResponse ev connErr) as [resp|e|]; [|done|done].
  pose proof (safe_DecodeTrans2Response (r_params resp) (r_data resp)) as Hs2.
  destruct (DecodeTrans2Response _ _) as [frag|e|] eqn:Ed; [|done|done].
  apply DecodeTrans2Response_totals in Ed as [Ht1 Ht2].
  destruct (failed resp); [done|]. unfold add_fragment.
  destruct (safe_first_fragment resp frag a Ht1 Ht2) as (a1 & -> & Hf & Hr & _). cbn [bind].
  pose proof (safe_placeFragment (as_paramBuf a1) (t2_Parameters frag)
    (t2_ParameterDisplacement frag) "parameter") as Hp.
  destruct (placeFragment _ _ _ _) as [pb|e|]; cbn [bind]; [|done|done].
  pose proof (safe_placeFragment (as_dataBuf a1) (t2_Data frag) (t2_DataDisplacement frag) "data") as Hp2.
  destruct (placeFragment _ _ _ _) as [db|e|]; cbn [bind]; [|done|done].
  cbn. destruct (as_first a1) as [[f af]|]; [|done].
  destruct (_ && _); [done|]. destruct (_ && _ && _); [done|].
  destruct (Z.ltb_spec maxTrans2Fragments (as_fragmentsRead a1 + 1)); [done|].
  split; [done|]. intros a' [= <-]. cbn. lia.
Qed.

Lemma transaction_loop_bounded events connErr a :
  Forall (event_ok connErr) events ->
  (forall complete r, transaction_loop events connErr a = Some (complete, r) -> safe r) /\
  (maxTrans2Fragments - as_fragmentsRead a < len events -> 0 <= as_fragmentsRead a <= maxTrans2Fragments ->
   transaction_loop events connErr a <> None).
Proof.
  intros He. revert a. induction He as [|ev evs Hev _ IH]; intros a.
  { split; [done|]. rewrite len_nil. lia. }
  cbn [transaction_loop]. destruct (transaction_pass_safe ev connErr a Hev) as [Hs Hn].
  destruct (transaction_pass ev connErr a) as [a'|complete r] eqn:E.
  - destruct (IH a') as [IH1 IH2]. destruct (Hn a' eq_refl) as [H1 H2]. split; [done|].
    rewrite len_cons. intros. apply IH2; lia.
  - split; [|done]. by intros ? ? [= <- <-].
Qed.

(** C26: the reassembly of a transaction ends and does not panic, whatever the
    server sends: after at most 65 messages the sender has a reply or an error,
    so a server that never completes its reply cannot keep it waiting.  The one
    event left out is no server's: the nil a waiter receives from a full channel
    that a local [Close] has closed ([closed_channel_panics]). *)
Theorem sendRecvTransaction_terminates events connErr :
  Forall (event_ok connErr) events -> 65 <= len events ->
  exists complete r, transaction_loop events connErr no_assembly = Some (complete, r) /\ safe r.
Proof.
  intros He Hl. destruct (transaction_loop_bounded events connErr no_assembly He) as [H1 H2].
  destruct (transaction_loop events connErr no_assembly) as [[complete r]|].
  - exists complete, r. split; [done|]. by eapply H1.
  - exfalso. apply H2; unfold maxTrans2Fragments; cbn; first [done|lia].
Qed.

(** Sixty-five messages that promise four data bytes and bring none: stalled. *)
Definition example_stall : wait_event :=
  EvResponse (Some (mkResponse (Some example_header)
    (le_put 2 0 ++ le_put 2 4 ++ replicate 16 Byte.x00) [] None)).

Lemma sendRecvTransaction_terminates_witness :
  exists complete r,
    transaction_loop (replicate 65 example_stall) None no_assembly = Some (complete, r) /\ safe r.
Proof.
  apply sendRecvTransaction_terminates; [|vm_compute; discriminate].
  apply Forall_replicate. split; discriminate.
Defined.

(** ** Reassembly *)

(** [resp] carries a fragment [frag] of a reply of [np] parameter and [nd] data
    bytes, at displacements [po] and [dofs]. *)
Record carries (np nd po dofs : Z) (resp : response) (frag : Trans2Response) : Prop := {
  ca_header : r_header resp <> None;
  ca_ok : failed resp = false;
  ca_frag : DecodeTrans2Response (r_params resp) (r_data resp) = Ok frag;
  ca_params : t2_TotalParameterCount frag = np;
  ca_data : t2_TotalDataCount frag = nd;
  ca_po : t2_Parameters frag <> [] -> t2_ParameterDisplacement frag = po;
  ca_do : t2_Data frag <> [] -> t2_DataDisplacement frag = dofs;
}.

(** A server sends the parameters [P] and data [D], from displacements [po] and
    [dofs] on, in order, cut wherever it likes; every message brings something. *)
Inductive sends (np nd : Z) : bytes -> bytes -> Z -> Z -> list wait_event -> Prop :=
  | sends_last resp frag po dofs :
      carries np nd po dofs resp frag ->
      sends np nd (t2_Parameters frag) (t2_Data frag) po dofs [EvResponse (Some resp)]
  | sends_more resp frag P D po dofs evs :
      carries np nd po dofs resp frag ->
      t2_Parameters frag <> [] \/ t2_Data frag <> [] ->
      sends np nd P D (po + len (t2_Parameters frag)) (dofs + len (t2_Data frag)) evs ->
      sends np nd (t2_Parameters frag ++ P) (t2_Data frag ++ D) po dofs (EvResponse (Some resp) :: evs).

(** The loop having received [p] and [d], with [P] and [D] to come. *)
Definition received (first : response * Trans2Response) (p P d D : bytes) (n : Z) : assembly :=
  mkAssembly (Some first) (p ++ replicate (length P) Byte.x00) (d ++ replicate (length D) Byte.x00)
    (len p) (len d) (len (p ++ P)) (len (d ++ D)) n 0.

Lemma placeFragment_received (p frag P : bytes) displacement what :
  (frag <> [] -> displacement = len p) ->
  placeFragment (p ++ replicate (length (frag ++ P)) Byte.x00) frag displacement what =
  Ok ((p ++ frag) ++ replicate (length P) Byte.x00).
Proof.
  intros Hd. unfold placeFragment. pose proof (len_nonneg p). pose proof (len_nonneg frag).
  destruct (Z.eqb_spec (len frag) 0) as [E|E].
  { rewrite (len_0_nil frag E). by rewrite app_nil_r. }
  rewrite Hd by (intros ->; done). rewrite !len_app, len_replicate, length_app.
  rewrite (proj2 (orb_false_iff _ _)) by (rewrite !Z.ltb_ge; unfold len; lia).
  rewrite replicate_add. rewrite <- app_assoc.
  set (z := replicate (length P) Byte.x00). unfold copy_at.
  rewrite (proj2 (andb_true_iff _ _))
    by (rewrite andb_true_iff; unfold z; autorewrite with len; rewrite !Z.leb_le; lia).
  f_equal. unfold len. rewrite !Nat2Z.id, take_app_length.
  replace (Z.to_nat (Z.min _ _)) with (length frag) by (unfold z; rewrite ?length_replicate; lia).
  rewrite firstn_all. rewrite <- drop_drop, drop_app_length.
  by rewrite drop_app_ge, length_replicate, Nat.sub_diag by (rewrite length_replicate; lia).
Qed.

Definition reassembled (first : response * Trans2Response) (P D : bytes) : response * Trans2Response :=
  (first.1, assembled_response first.2
     (mkAssembly (Some first) P D (len P) (len D) (len P) (len D) 0 0)).

(** Adding a fragment to what has been received. *)
Lemma add_fragment_received resp frag first p P d D n :
  (t2_Parameters frag <> [] -> t2_ParameterDisplacement frag = len p) ->
  (t2_Data frag <> [] -> t2_DataDisplacement frag = len d) ->
  add_fragment resp frag (received first p (t2_Parameters frag ++ P) d (t2_Data frag ++ D) n) =
  if (len P =? 0) && (len D =? 0)
  then Return true (Ok (reassembled first (p ++ t2_Parameters frag ++ P) (d ++ t2_Data frag ++ D)))
  else if (len (t2_Parameters frag) =? 0) && (len (t2_Data frag) =? 0)
  then (if maxTrans2Fragments <? n + 1
        then Return false (Err (Errorf "smb1: trans2 response split across too many messages"))
        else Again (mkAssembly (Some first) (p ++ replicate (length P) Byte.x00)
               (d ++ replicate (length D) Byte.x00) (len p) (len d) (len (p ++ P)) (len (d ++ D)) (n + 1) 1))
  else if maxTrans2Fragments <? n + 1
  then Return false (Err (Errorf "smb1: trans2 response split across too many messages"))
  else Again (received first (p ++ t2_Parameters frag) P (d ++ t2_Data frag) D (n + 1)).
Proof.
  intros Hp Hd. unfold add_fragment, received. cbn [first_fragment as_first bind as_paramBuf as_dataBuf
    as_gotParams as_gotData as_wantParams as_wantData as_fragmentsRead as_emptyFragments].
  rewrite !placeFragment_received by done. cbn [bind as_first as_paramBuf as_dataBuf
    as_gotParams as_gotData as_wantParams as_wantData as_fragmentsRead as_emptyFragments].
  assert ((len (p ++ t2_Parameters frag ++ P) <=? len p + len (t2_Parameters frag)) = (len P =? 0)) as ->.
  { rewrite !len_app. pose proof (len_nonneg P).
    destruct (Z.leb_spec (len p + (len (t2_Parameters frag) + len P)) (len p + len (t2_Parameters frag))),
      (Z.eqb_spec (len P) 0); lia. }
  assert ((len (d ++ t2_Data frag ++ D) <=? len d + len (t2_Data frag)) = (len D =? 0)) as ->.
  { rewrite !len_app. pose proof (len_nonneg D).
    destruct (Z.leb_spec (len d + (len (t2_Data frag) + len D)) (len d + len (t2_Data frag))),
      (Z.eqb_spec (len D) 0); lia. }
  destruct (Z.eqb_spec (len P) 0) as [EP|EP], (Z.eqb_spec (len D) 0) as [ED|ED]; cbn [andb].
  { rewrite (len_0_nil P EP), (len_0_nil D ED). cbn [length replicate]. rewrite !app_nil_r.
    by destruct first. }
  all: destruct (Z.eqb_spec (len (t2_Parameters frag)) 0) as [E1|E1],
         (Z.eqb_spec (len (t2_Data frag)) 0) as [E2|E2]; cbn [andb].
  all: try (rewrite (len_0_nil (t2_Parameters frag)) by done; rewrite (len_0_nil (t2_Data frag)) by done).
  all: cbn [app]; rewrite ?app_nil_r, ?len_nil, ?Z.add_0_r; change (1 <? 0 + 1) with false; cbn [andb].
  all: destruct (_ <? _); [done|]; unfold received; do 2 f_equal; rewrite ?app_assoc; try done;
    autorewrite with len; lia.
Qed.

(** The first message sizes the buffers: from then on the loop is as if nothing
    had been received. *)
Lemma add_fragment_first resp frag P D :
  t2_TotalParameterCount frag = len P -> t2_TotalDataCount frag = len D ->
  add_fragment resp frag no_assembly = add_fragment resp frag (received (resp, frag) [] P [] D 0).
Proof.
  intros HP HD. unfold add_fragment, received. cbn [first_fragment as_first no_assembly].
  pose proof (len_nonneg P). pose proof (len_nonneg D).
  rewrite HP, HD, !make_ok by lia. unfold len. by rewrite !Nat2Z.id.
Qed.

Lemma sends_nonempty np nd P D po dofs evs : sends np nd P D po dofs evs -> 1 <= len evs.
Proof.
  intros [?|? ? ? ? ? ? l]; rewrite len_cons; [rewrite len_nil|pose proof (len_nonneg l)]; lia.
Qed.

Lemma sends_received np nd P D po dofs evs :
  sends np nd P D po dofs evs ->
  forall connErr first p d n, po = len p -> dofs = len d -> np = len (p ++ P) -> nd = len (d ++ D) ->
  0 <= n -> n + len evs <= 65 ->
  transaction_loop evs connErr (received first p P d D n) =
  Some (true, Ok (reassembled first (p ++ P) (d ++ D))).
Proof.
  assert (forall resp frag a connErr np nd po dofs, carries np nd po dofs resp frag ->
    transaction_pass (EvResponse (Some resp)) connErr a = add_fragment resp frag a) as Hpass.
  { intros resp frag a connErr np' nd' po' dofs' [H1 H2 H3 _ _ _ _]. unfold transaction_pass. cbn [awaitResponse].
    destruct (r_header resp) eqn:E; [|done]. by rewrite H3, H2. }
  induction 1 as [resp frag po dofs Hc|resp frag P D po dofs evs Hc Hne Hs IH];
    intros connErr first p d n -> -> -> -> Hn0 Hn; cbn [transaction_loop];
    rewrite (Hpass _ _ _ _ _ _ _ _ Hc); destruct Hc as [_ _ _ _ _ Hpo Hdo].
  - pose proof (add_fragment_received resp frag first p [] d [] n Hpo Hdo) as E.
    rewrite !app_nil_r in E. by rewrite E.
  - rewrite add_fragment_received by done.
    destruct (Z.eqb_spec (len P) 0) as [EP|EP], (Z.eqb_spec (len D) 0) as [ED|ED]; cbn [andb]; [done|..].
    all: rewrite (proj2 (andb_false_iff _ _))
      by (destruct Hne as [Hne|Hne]; [left|right]; apply Z.eqb_neq; intros ?%len_0_nil; done).
    all: rewrite len_cons in Hn; apply sends_nonempty in Hs.
    all: destruct (Z.ltb_spec maxTrans2Fragments (n + 1)) as [Hm|_];
      [unfold maxTrans2Fragments in Hm; lia|].
    all: rewrite IH; rewrite ?len_app, <- ?app_assoc; try done; lia.
Qed.

(** C3: a transaction's reply comes out whole however the server cuts it: when
    its parameters and data arrive in order, in at most 65 messages, each
    bringing something, the sender gets exactly those parameters and that data,
    with the header of the first message, and the request counts as complete. *)
Theorem sendRecvTransaction_reassembles P D resp evs connErr :
  sends (len P) (len D) P D 0 0 (EvResponse (Some resp) :: evs) -> len evs <= 64 ->
  exists t, transaction_loop (EvResponse (Some resp) :: evs) connErr no_assembly
    = Some (true, Ok (resp, t)) /\ t2_Parameters t = P /\ t2_Data t = D.
Proof.
  intros Hs Hl.
  assert (exists frag, carries (len P) (len D) 0 0 resp frag) as [frag Hc]
    by (inversion Hs; subst; eauto).
  exists (reassembled (resp, frag) P D).2. split; [|done].
  pose proof (sends_received _ _ _ _ _ _ _ Hs connErr (resp, frag) [] [] 0) as H.
  cbn [app] in H. rewrite len_cons in H. specialize (H eq_refl eq_refl eq_refl eq_refl).
  etrans; [|apply H; lia]. cbn [transaction_loop]. destruct Hc as [H1 H2 H3 H4 H5 _ _].
  unfold transaction_pass. cbn [awaitResponse]. destruct (r_header resp) eqn:E; [|done].
  rewrite H3, H2. by rewrite (add_fragment_first resp frag P D).
Qed.

(** A reply of two parameter bytes and three data bytes in two messages. *)
Definition example_fragment (np nd po dofs : Z) (p d : bytes) : response :=
  mkResponse (Some example_header)
    (le_put 2 np ++ le_put 2 nd ++ le_put 2 0 ++ le_put 2 (len p) ++ le_put 2 55 ++ le_put 2 po
     ++ le_put 2 (len d) ++ le_put 2 (55 + len p) ++ le_put 2 dofs ++ [Byte.x00; Byte.x00])
    (p ++ d) None.
Definition example_frag1 : Trans2Response :=
  mkTrans2Response 0 2 3 0 2 55 0 1 57 0 0 0 [] 0 [] (str "pp") [] (str "a").
Definition example_frag2 : Trans2Response :=
  mkTrans2Response 0 2 3 0 0 55 2 2 55 1 0 0 [] 0 [] [] [] (str "bc").

Lemma sendRecvTransaction_reassembles_witness :
  exists t, transaction_loop
    [EvResponse (Some (example_fragment 2 3 0 0 (str "pp") (str "a")));
     EvResponse (Some (example_fragment 2 3 2 1 [] (str "bc")))] None no_assembly
    = Some (true, Ok (example_fragment 2 3 0 0 (str "pp") (str "a"), t))
    /\ t2_Parameters t = str "pp" /\ t2_Data t = str "abc".
Proof.
  apply sendRecvTransaction_reassembles; [|vm_compute; discriminate].
  refine (sends_more _ _ _ example_frag1 [] (str "bc") _ _ _ _ _ _).
  - split; try reflexivity; try discriminate.
  - left. discriminate.
  - refine (sends_last _ _ _ example_frag2 _ _ _).
    split; try reflexivity; try discriminate.
Defined.
