(* ===== verification/FileOps.v ===== *)
(** * File operations ([internal/smb1/file_ops.go])

    Opening (NT_CREATE_ANDX), reading (READ_ANDX), writing (WRITE_ANDX) and
    closing (CLOSE): request encoders and response decoders.  Record fields carry
    a prefix, [nc]/[nr] (create), [rq]/[rr] (read), [wq]/[wr] (write), [cq]. *)

From S2P Require Export Packet Utf16le.

(** ** Opening *)

Record NTCreateRequest := mkNTCreateRequest {
  nc_AndXCommand : Z;
  nc_AndXReserved : Z;
  nc_AndXOffset : Z;
  nc_Reserved : Z;
  nc_NameLength : Z;
  nc_Flags : Z;
  nc_RootDirectoryFID : Z;
  nc_DesiredAccess : Z;
  nc_AllocationSize : Z;
  nc_FileAttributes : Z;
  nc_ShareAccess : Z;
  nc_CreateDisposition : Z;
  nc_CreateOptions : Z;
  nc_ImpersonationLevel : Z;
  nc_SecurityFlags : Z;
  nc_FileName : bytes;
  nc_UseUnicode : bool;
}.

Definition EncodeNTCreateRequest (req : option NTCreateRequest) : res (bytes * bytes) :=
  match req with
  | None => Err (Errorf "smb1: nt create request is nil")
  | Some req =>
    if len (nc_FileName req) =? 0 then Err (Errorf "smb1: file name is empty") else
    let! params := make 48 in
    let! params := put8 params 0 (nc_AndXCommand req) in
    let! params := put8 params 1 (nc_AndXReserved req) in
    let! params := put16 params 2 4 (nc_AndXOffset req) in
    let! params := put8 params 4 (nc_Reserved req) in
    let! params := put16 params 5 7 (nc_NameLength req) in
    let! params := put32 params 7 11 (nc_Flags req) in
    let! params := put32 params 11 15 (nc_RootDirectoryFID req) in
    let! params := put32 params 15 19 (nc_DesiredAccess req) in
    let! params := put64 params 19 27 (nc_AllocationSize req) in
    let! params := put32 params 27 31 (nc_FileAttributes req) in
    let! params := put32 params 31 35 (nc_ShareAccess req) in
    let! params := put32 params 35 39 (nc_CreateDisposition req) in
    let! params := put32 params 39 43 (nc_CreateOptions req) in
    let! params := put32 params 43 47 (nc_ImpersonationLevel req) in
    let! params := put8 params 47 (nc_SecurityFlags req) in
    let! data :=
      if nc_UseUnicode req then
        let! nameBytes := EncodeStringToBytes (nc_FileName req) in
        Ok ([Byte.x00] ++ nameBytes ++ [Byte.x00; Byte.x00])
      else Ok (nc_FileName req ++ [Byte.x00]) in
    Ok (params, data)
  end.

Record NTCreateResponse := mkNTCreateResponse {
  nr_AndXCommand : Z;
  nr_AndXReserved : Z;
  nr_AndXOffset : Z;
  nr_OpLockLevel : Z;
  nr_FID : Z;
  nr_CreateAction : Z;
  nr_CreationTime : Z;
  nr_LastAccessTime : Z;
  nr_LastWriteTime : Z;
  nr_ChangeTime : Z;
  nr_FileAttributes : Z;
  nr_AllocationSize : Z;
  nr_EndOfFile : Z;
  nr_FileType : Z;
  nr_IPCState : Z;
  nr_IsDirectory : Z;
}.

Definition DecodeNTCreateResponse (params data : bytes) : res NTCreateResponse :=
  if len params <? 68 then Err (Errorf "smb1: nt create response parameters too short") else
  let! andXCommand := idx8 params 0 in
  let! andXReserved := idx8 params 1 in
  let! andXOffset := u16 params 2 4 in
  let! opLockLevel := idx8 params 4 in
  let! fid := u16 params 5 7 in
  let! createAction := u32 params 7 11 in
  let! creationTime := u64 params 11 19 in
  let! lastAccessTime := u64 params 19 27 in
  let! lastWriteTime := u64 params 27 35 in
  let! changeTime := u64 params 35 43 in
  let! fileAttributes := u32 params 43 47 in
  let! allocationSize := u64 params 47 55 in
  let! endOfFile := u64 params 55 63 in
  let! fileType := u16 params 63 65 in
  let! ipcState := u16 params 65 67 in
  let! isDirectory := idx8 params 67 in
  Ok (mkNTCreateResponse andXCommand andXReserved andXOffset opLockLevel fid createAction
        creationTime lastAccessTime lastWriteTime changeTime fileAttributes allocationSize
        endOfFile fileType ipcState isDirectory).

Definition IsDir (r : NTCreateResponse) : bool := negb (nr_IsDirectory r =? 0).

(** ** Reading *)

Record ReadRequest := mkReadRequest {
  rq_AndXCommand : Z;
  rq_AndXReserved : Z;
  rq_AndXOffset : Z;
  rq_FID : Z;
  rq_Offset : Z;
  rq_MaxCountOfBytesToReturn : Z;
  rq_MinCountOfBytesToReturn : Z;
  rq_MaxCountHigh : Z;
  rq_Timeout : Z;
  rq_Remaining : Z;
}.

Definition EncodeReadRequest (req : option ReadRequest) (supportsLargeFiles supportsLargeReadX : bool)
  : res (bytes * bytes) :=
  match req with
  | None => Err (Errorf "smb1: read request is nil")
  | Some req =>
    let! params :=
      if supportsLargeFiles then
        let! params := make 24 in
        let! params := put8 params 0 (rq_AndXCommand req) in
        let! params := put8 params 1 (rq_AndXReserved req) in
        let! params := put16 params 2 4 (rq_AndXOffset req) in
        let! params := put16 params 4 6 (rq_FID req) in
        let! params := put32 params 6 10 (wrap 32 (rq_Offset req)) in
        let! params := put16 params 10 12 (rq_MaxCountOfBytesToReturn req) in
        let! params := put16 params 12 14 (rq_MinCountOfBytesToReturn req) in
        let! params :=
          if supportsLargeReadX then
            let! params := put16 params 14 16 (rq_MaxCountHigh req) in
            put16 params 16 18 0
          else put32 params 14 18 (rq_Timeout req) in
        let! params := put16 params 18 20 (rq_Remaining req) in
        put32 params 20 24 (wrap 32 (Z.shiftr (rq_Offset req) 32))
      else
        let! params := make 20 in
        let! params := put8 params 0 (rq_AndXCommand req) in
        let! params := put8 params 1 (rq_AndXReserved req) in
        let! params := put16 params 2 4 (rq_AndXOffset req) in
        let! params := put16 params 4 6 (rq_FID req) in
        let! params := put32 params 6 10 (wrap 32 (rq_Offset req)) in
        let! params := put16 params 10 12 (rq_MaxCountOfBytesToReturn req) in
        let! params := put16 params 12 14 (rq_MinCountOfBytesToReturn req) in
        let! params := put32 params 14 18 (rq_Timeout req) in
        put16 params 18 20 (rq_Remaining req) in
    Ok (params, [])
  end.

Record ReadResponse := mkReadResponse {
  rr_AndXCommand : Z;
  rr_AndXReserved : Z;
  rr_AndXOffset : Z;
  rr_Remaining : Z;
  rr_DataCompactionMode : Z;
  rr_Reserved : Z;
  rr_DataLength : Z;
  rr_DataOffset : Z;
  rr_DataLengthHigh : Z;
  rr_Data : bytes;
}.

(** [uint64(low) | uint64(high)<<16] *)
Definition combine (low high : Z) : Z := Z.lor low (wrap 64 (Z.shiftl high 16)).

(** The file data in the data section, which starts at an absolute offset. *)
Definition read_section (data : bytes) (byteCountSectionOffset dataOffset totalDataLength : Z)
  : res bytes :=
  if 0 <? totalDataLength then
    let padding := dataOffset - byteCountSectionOffset in
    let padding := if (padding <? 0) || (len data <? padding) then 0 else padding in
    if len data <? padding + totalDataLength then Err (Errorf "smb1: data too short") else
    let! buf := make totalDataLength in
    let! s := slice data padding (padding + totalDataLength) in
    copy_at buf 0 (len buf) s
  else Ok [].

Definition DecodeReadResponse (params data : bytes) : res ReadResponse :=
  if len params <? 24 then Err (Errorf "smb1: read response parameters too short") else
  let! andXCommand := idx8 params 0 in
  let! andXReserved := idx8 params 1 in
  let! andXOffset := u16 params 2 4 in
  let! remaining := u16 params 4 6 in
  let! dataCompactionMode := u16 params 6 8 in
  let! reserved := u16 params 8 10 in
  let! dataLength := u16 params 10 12 in
  let! dataOffset := u16 params 12 14 in
  let! dataLengthHigh := u32 params 14 18 in
  let totalDataLength := combine dataLength dataLengthHigh in
  let! respData :=
    read_section data (HeaderSize + 1 + len params + 2) dataOffset totalDataLength in
  Ok (mkReadResponse andXCommand andXReserved andXOffset remaining dataCompactionMode reserved
        dataLength dataOffset dataLengthHigh respData).

Definition GetDataLength (r : ReadResponse) : Z := combine (rr_DataLength r) (rr_DataLengthHigh r).

(** ** Writing *)

Record WriteRequest := mkWriteRequest {
  wq_AndXCommand : Z;
  wq_AndXReserved : Z;
  wq_AndXOffset : Z;
  wq_FID : Z;
  wq_Offset : Z;
  wq_Timeout : Z;
  wq_WriteMode : Z;
  wq_Remaining : Z;
  wq_DataLengthHigh : Z;
  wq_DataLength : Z;
  wq_DataOffset : Z;
  wq_Data : bytes;
}.

Definition EncodeWriteRequest (req : option WriteRequest) (supportsLargeFiles : bool)
  : res (bytes * bytes) :=
  match req with
  | None => Err (Errorf "smb1: write request is nil")
  | Some req =>
    let! params :=
      if supportsLargeFiles then
        let paramsLen := 28 in
        let! params := make paramsLen in
        let! params := put8 params 0 (wq_AndXCommand req) in
        let! params := put8 params 1 (wq_AndXReserved req) in
        let! params := put16 params 2 4 (wq_AndXOffset req) in
        let dataOffset := wrap 16 (HeaderSize + 1 + paramsLen + 2) in
        let! params := put16 params 4 6 (wq_FID req) in
        let! params := put32 params 6 10 (wrap 32 (wq_Offset req)) in
        let! params := put32 params 10 14 (wq_Timeout req) in
        let! params := put16 params 14 16 (wq_WriteMode req) in
        let! params := put16 params 16 18 (wq_Remaining req) in
        let! params := put16 params 18 20 (wq_DataLengthHigh req) in
        let! params := put16 params 20 22 (wq_DataLength req) in
        let! params := put16 params 22 24 dataOffset in
        put32 params 24 28 (wrap 32 (Z.shiftr (wq_Offset req) 32))
      else
        let paramsLen := 24 in
        let! params := make paramsLen in
        let! params := put8 params 0 (wq_AndXCommand req) in
        let! params := put8 params 1 (wq_AndXReserved req) in
        let! params := put16 params 2 4 (wq_AndXOffset req) in
        let dataOffset := wrap 16 (HeaderSize + 1 + paramsLen + 2) in
        let! params := put16 params 4 6 (wq_FID req) in
        let! params := put32 params 6 10 (wrap 32 (wq_Offset req)) in
        let! params := put32 params 10 14 (wq_Timeout req) in
        let! params := put16 params 14 16 (wq_WriteMode req) in
        let! params := put16 params 16 18 (wq_Remaining req) in
        let! params := put16 params 18 20 (wq_DataLengthHigh req) in
        let! params := put16 params 20 22 (wq_DataLength req) in
        put16 params 22 24 dataOffset in
    let! data := make (len (wq_Data req)) in
    let! data := copy_at data 0 (len data) (wq_Data req) in
    Ok (params, data)
  end.

Record WriteResponse := mkWriteResponse {
  wr_AndXCommand : Z;
  wr_AndXReserved : Z;
  wr_AndXOffset : Z;
  wr_Count : Z;
  wr_Remaining : Z;
  wr_CountHigh : Z;
}.

Definition DecodeWriteResponse (params data : bytes) : res WriteResponse :=
  if len params <? 12 then Err (Errorf "smb1: write response parameters too short") else
  let! andXCommand := idx8 params 0 in
  let! andXReserved := idx8 params 1 in
  let! andXOffset := u16 params 2 4 in
  let! count := u16 params 4 6 in
  let! remaining := u16 params 6 8 in
  let! countHigh := u32 params 8 12 in
  Ok (mkWriteResponse andXCommand andXReserved andXOffset count remaining countHigh).

Definition GetBytesWritten (r : WriteResponse) : Z := combine (wr_Count r) (wr_CountHigh r).

(** ** Closing *)

Record CloseRequest := mkCloseRequest { cq_FID : Z; cq_LastWriteTime : Z }.
Inductive CloseResponse := mkCloseResponse.

Definition EncodeCloseRequest (req : option CloseRequest) : res (bytes * bytes) :=
  match req with
  | None => Err (Errorf "smb1: close request is nil")
  | Some req =>
    let! params := make 6 in
    let! params := put16 params 0 2 (cq_FID req) in
    let! params := put32 params 2 6 (cq_LastWriteTime req) in
    Ok (params, [])
  end.

Definition DecodeCloseResponse (params data : bytes) : res CloseResponse :=
  if negb (len params =? 0) then Err (Errorf "smb1: close response should have no parameters") else
  if negb (len data =? 0) then Err (Errorf "smb1: close response should have no data") else
  Ok mkCloseResponse.

(** ** Lemmas *)

Lemma combine_eq low high :
  0 <= low < 2 ^ 16 -> 0 <= high < 2 ^ 32 -> combine low high = low + high * 2 ^ 16.
Proof.
  intros Hl Hh. unfold combine. rewrite wrap_small by (rewrite Z.shiftl_mul_pow2; lia).
  by apply lor_shiftl.
Qed.

Lemma read_section_eq data start offset n :
  read_section data start offset n =
  let pos := offset - start in
  let padding := if (pos <? 0) || (len data <? pos) then 0 else pos in
  if 0 <? n then
    if len data <? padding + n then Err (Errorf "smb1: data too short")
    else slice data padding (padding + n)
  else Ok [].
Proof.
  unfold read_section. destruct (Z.ltb_spec 0 n); [|done]. cbv zeta.
  destruct (_ <? _); [done|]. apply copy_of_slice; lia.
Qed.

Lemma safe_read_section data start offset n : safe (read_section data start offset n).
Proof.
  rewrite read_section_eq. cbv zeta. pose proof (len_nonneg data).
  destruct (_ || _) eqn:E; safe_tac.
Qed.
#[export] Hint Resolve safe_read_section : safe.

(** No reply makes the decoders of file operations panic. *)
Lemma file_decoders_total (params data : bytes) :
  safe (DecodeNTCreateResponse params data) /\ safe (DecodeReadResponse params data) /\
  safe (DecodeWriteResponse params data) /\ safe (DecodeCloseResponse params data).
Proof.
  split_and!.
  - unfold DecodeNTCreateResponse. safe_tac.
  - unfold DecodeReadResponse. safe_tac.
  - unfold DecodeWriteResponse. safe_tac.
  - unfold DecodeCloseResponse. safe_tac.
Qed.

(** What a read returns is what the server put at DataOffset: with the data
    field of the received packet there, the decoded data are exactly the
    DataLength (with its high part) bytes of the packet from that offset on; a
    reply that promises more than it carries is an error. *)
Theorem DecodeReadResponse_data raw h params data r :
  DecodePacket raw = Ok (h, params, data) ->
  DecodeReadResponse params data = Ok r ->
  HeaderSize + 1 + len params + 2 <= rr_DataOffset r <= len raw ->
  len (rr_Data r) = GetDataLength r /\
  slice raw (rr_DataOffset r) (rr_DataOffset r + GetDataLength r) = Ok (rr_Data r).
Proof.
  intros Hd Hr Ho. apply DecodePacket_cut in Hd as (pre & -> & Hpre).
  unfold DecodeReadResponse in Hr. destruct (Z.ltb_spec (len params) 24); [done|].
  apply bind_Ok in Hr as (x0 & _ & Hr).
  do 8 (let x := fresh "x" in apply bind_Ok in Hr as (x & ? & Hr)).
  apply bind_Ok in Hr as (d & Hd & Hr). injection Hr as <-.
  unfold GetDataLength. cbn [rr_DataOffset rr_DataLength rr_DataLengthHigh rr_Data] in *.
  repeat match goal with H : u16 _ _ _ = Ok _ |- _ => apply u16_range in H
    | H : u32 _ _ _ = Ok _ |- _ => apply u32_range in H end.
  rewrite combine_eq in * by done. rewrite read_section_eq in Hd. cbv zeta in Hd.
  set (n := _ + _ * 2 ^ 16) in *. assert (0 <= n) by (unfold n; lia).
  match goal with H : _ <= ?o <= _ |- _ => set (ofs := o) in * end.
  rewrite len_app in Ho. pose proof (len_nonneg data).
  rewrite (proj2 (orb_false_iff _ _)) in Hd by (rewrite !Z.ltb_ge; lia).
  rewrite slice_skip, Hpre by lia.
  destruct (Z.ltb_spec 0 n) as [|Hn].
  - destruct (_ <? _); [done|]. pose proof (slice_inv _ _ _ _ Hd) as (_ & _ & Hl).
    split; [lia|]. rewrite <- Hd. f_equal; lia.
  - injection Hd as <-. assert (n = 0) as -> by lia. split; [done|].
    rewrite slice_ok by lia. f_equal. by replace (Z.to_nat _) with 0%nat by lia.
Qed.

(** A reply of three bytes after one byte of padding. *)
Definition example_read : bytes :=
  Packet_bytes example_header
    ([Byte.xff; Byte.x00] ++ le_put 2 0 ++ le_put 2 0 ++ le_put 2 0 ++ le_put 2 0
     ++ le_put 2 3 ++ le_put 2 60 ++ le_put 4 0 ++ replicate 6 Byte.x00)
    ([Byte.x00] ++ str "abc").
Definition example_read_params : bytes :=
  Eval vm_compute in match DecodePacket example_read with Ok x => x.1.2 | _ => [] end.
Definition example_read_response : ReadResponse :=
  mkReadResponse 255 0 0 0 0 0 3 60 0 (str "abc").

Lemma DecodeReadResponse_data_witness :
  slice example_read 60 63 = Ok (str "abc").
Proof.
  refine (proj2 (DecodeReadResponse_data example_read example_header example_read_params
    (Byte.x00 :: str "abc") example_read_response _ _ _)).
  - vm_compute. reflexivity.
  - vm_compute. reflexivity.
  - vm_compute. split; discriminate.
Defined.

(** ** The layout of requests *)

(** An offset is sent as its two halves. *)
Lemma halves z : 0 <= z < 2 ^ 64 -> wrap 32 z + wrap 32 (Z.shiftr z 32) * 2 ^ 32 = z.
Proof.
  intros H. unfold wrap. rewrite Z.shiftr_div_pow2 by lia. Z.to_euclidean_division_equations. lia.
Qed.

Lemma wrap_wrap w z : 0 <= w -> wrap w (wrap w z) = wrap w z.
Proof. intros. unfold wrap. apply Z.mod_mod. pose proof (Z.pow_pos_nonneg 2 w). lia. Qed.

Definition write_params (r : WriteRequest) (large : bool) : bytes :=
  [byte_of (wq_AndXCommand r)] ++ [byte_of (wq_AndXReserved r)] ++ le_put 2 (wq_AndXOffset r)
  ++ le_put 2 (wq_FID r) ++ le_put 4 (wrap 32 (wq_Offset r)) ++ le_put 4 (wq_Timeout r)
  ++ le_put 2 (wq_WriteMode r) ++ le_put 2 (wq_Remaining r) ++ le_put 2 (wq_DataLengthHigh r)
  ++ le_put 2 (wq_DataLength r) ++ le_put 2 (if large then 63 else 59)
  ++ (if large then le_put 4 (wrap 32 (Z.shiftr (wq_Offset r) 32)) else []).

Lemma EncodeWriteRequest_eq r large :
  EncodeWriteRequest (Some r) large = Ok (write_params r large, wq_Data r).
Proof.
  unfold EncodeWriteRequest, write_params, HeaderSize. pose proof (len_nonneg (wq_Data r)).
  assert (forall p : bytes, (let! data := make (len (wq_Data r)) in
    let! data := copy_at data 0 (len data) (wq_Data r) in Ok (p, data)) = Ok (p, wq_Data r)) as Hd.
  { intros p. rewrite make_ok by done. cbn [bind]. by rewrite copy_at_all by (rewrite len_replicate; lia). }
  unfold put16, put32, put64. destruct large.
  - rewrite (make_zeros 28 28) by done. cbn [bind]. repeat enc_step. rewrite Hd. by rewrite <- !app_assoc.
  - rewrite (make_zeros 24 24) by done. cbn [bind]. repeat enc_step. rewrite Hd.
    by rewrite app_nil_r, <- !app_assoc.
Qed.

(** A write request carries the caller's bytes to where it says they go: in
    the encoded packet the bytes at its DataOffset field are the data, all of it,
    and its two offset fields make up the 64-bit file position (the low half of
    it on a server without 64-bit offsets). *)
Theorem EncodeWriteRequest_layout h r large :
  Header_wf h -> len (wq_Data r) <= MaxDataSize -> 0 <= wq_Offset r < 2 ^ 64 ->
  0 <= wq_FID r < 2 ^ 16 ->
  exists p raw ofs lo,
    EncodeWriteRequest (Some r) large = Ok (p, wq_Data r) /\
    EncodePacket (Some h) p (wq_Data r) = Ok raw /\
    u16 raw 55 57 = Ok ofs /\
    slice raw ofs (ofs + len (wq_Data r)) = Ok (wq_Data r) /\ len raw = ofs + len (wq_Data r) /\
    u16 raw 37 39 = Ok (wq_FID r) /\ u32 raw 39 43 = Ok lo /\
    if large then exists hi, u32 raw 57 61 = Ok hi /\ lo + hi * 2 ^ 32 = wq_Offset r
    else lo = wq_Offset r mod 2 ^ 32.
Proof.
  intros Hh Hd Ho Hf. rewrite EncodeWriteRequest_eq.
  pose proof (len_Header_bytes h Hh) as HL. unfold HeaderSize in HL. pose proof (len_nonneg (wq_Data r)).
  exists (write_params r large), (Packet_bytes h (write_params r large) (wq_Data r)),
    (if large then 63 else 59), (wrap 32 (wq_Offset r)).
  assert (len (write_params r large) = if large then 28 else 24) as Hlen by (by destruct large).
  split; [done|]. split.
  { apply EncodePacket_eq; try done; rewrite Hlen; by destruct large. }
  unfold Packet_bytes. rewrite Hlen.
  set (w := byte_of (_ / 2)). set (bc := le_put 2 (len _ mod 2 ^ 16)).
  assert (len bc = 2) as Hbc by apply len_le_put. clearbody bc w. clear Hlen.
  unfold write_params. rewrite <- !app_assoc.
  destruct large; rewrite ?app_nil_l; wire_read; rewrite ?wrap_wrap, ?slice_whole by (lia || offsets);
    split_and!; rewrite ?wrap_small by lia; try done; try offsets.
  eexists. split; [reflexivity|]. rewrite ?wrap_wrap by lia. by apply halves.
Qed.

Definition example_write : WriteRequest :=
  mkWriteRequest 0xFF 0 0 7 0x100000002 0 0 0 0 3 0 (str "abc").

Lemma EncodeWriteRequest_layout_witness :
  exists p raw, EncodeWriteRequest (Some example_write) true = Ok (p, str "abc") /\
    EncodePacket (Some example_header) p (str "abc") = Ok raw /\ len raw = 66.
Proof.
  assert (Header_wf example_header) as Hh by (apply NewHeader_wf; split; [discriminate|reflexivity]).
  destruct (EncodeWriteRequest_layout example_header example_write true Hh)
    as (p & raw & ofs & lo & E1 & E2 & E3 & _ & E4 & _);
    [vm_compute; discriminate|vm_compute; split; [discriminate|reflexivity]
    |vm_compute; split; [discriminate|reflexivity]|].
  exists p, raw. split; [exact E1|]. split; [exact E2|]. vm_compute in E1. injection E1 as <-.
  vm_compute in E2. injection E2 as <-. reflexivity.
Defined.

Definition read_params (r : ReadRequest) (large largeRead : bool) : bytes :=
  [byte_of (rq_AndXCommand r)] ++ [byte_of (rq_AndXReserved r)] ++ le_put 2 (rq_AndXOffset r)
  ++ le_put 2 (rq_FID r) ++ le_put 4 (wrap 32 (rq_Offset r))
  ++ le_put 2 (rq_MaxCountOfBytesToReturn r) ++ le_put 2 (rq_MinCountOfBytesToReturn r)
  ++ (if large && largeRead then le_put 2 (rq_MaxCountHigh r) ++ le_put 2 0
      else le_put 4 (rq_Timeout r))
  ++ le_put 2 (rq_Remaining r)
  ++ (if large then le_put 4 (wrap 32 (Z.shiftr (rq_Offset r) 32)) else []).

Lemma EncodeReadRequest_eq r large largeRead :
  EncodeReadRequest (Some r) large largeRead = Ok (read_params r large largeRead, []).
Proof.
  unfold EncodeReadRequest, read_params. unfold put16, put32, put64.
  destruct large; [destruct largeRead|]; cbn [andb];
    [rewrite (make_zeros 24 24) by done|rewrite (make_zeros 24 24) by done
    |rewrite (make_zeros 20 20) by done]; cbn [bind]; repeat enc_step;
    rewrite ?app_nil_r, <- ?app_assoc; reflexivity.
Qed.

(** A read request asks for what the caller wants: its file, its position
    (as for a write) and its count, in two halves when the server takes large
    reads. *)
Theorem EncodeReadRequest_fields r large largeRead :
  0 <= rq_FID r < 2 ^ 16 -> 0 <= rq_Offset r < 2 ^ 64 ->
  0 <= rq_MaxCountOfBytesToReturn r < 2 ^ 16 -> 0 <= rq_MaxCountHigh r < 2 ^ 16 ->
  exists p lo,
    EncodeReadRequest (Some r) large largeRead = Ok (p, []) /\ len p mod 2 = 0 /\
    u16 p 4 6 = Ok (rq_FID r) /\ u32 p 6 10 = Ok lo /\
    u16 p 10 12 = Ok (rq_MaxCountOfBytesToReturn r) /\
    (large && largeRead = true -> u16 p 14 16 = Ok (rq_MaxCountHigh r)) /\
    if large then exists hi, u32 p 20 24 = Ok hi /\ lo + hi * 2 ^ 32 = rq_Offset r
    else lo = rq_Offset r mod 2 ^ 32.
Proof.
  intros Hf Ho Hc Hm. rewrite EncodeReadRequest_eq.
  exists (read_params r large largeRead), (wrap 32 (rq_Offset r)). unfold read_params.
  split; [done|]. 
  assert (large = true -> exists hi, Ok (wrap 32 (wrap 32 (Z.shiftr (rq_Offset r) 32))) = Ok hi
    /\ wrap 32 (rq_Offset r) + hi * 2 ^ 32 = rq_Offset r) as Hhi.
  { intros _. eexists. split; [reflexivity|]. rewrite wrap_wrap by lia. by apply halves. }
  destruct large, largeRead; cbn [andb]; rewrite <- ?app_assoc, ?(app_nil_r (le_put 4 _));
    wire_read; rewrite ?wrap_wrap by lia; rewrite ?(wrap_small 16) by lia;
    split_and!; try done; try (by autorewrite with len); try (intros _; reflexivity).
  all: rewrite <- (app_nil_r (le_put 4 (wrap 32 (Z.shiftr _ _)))); wire_read; by apply Hhi.
Qed.

Lemma EncodeReadRequest_fields_witness :
  exists p, EncodeReadRequest (Some (mkReadRequest 0xFF 0 0 7 0x100000002 0xFFF0 0 0 0 0)) true true
    = Ok (p, []) /\ u16 p 4 6 = Ok 7.
Proof.
  destruct (EncodeReadRequest_fields (mkReadRequest 0xFF 0 0 7 0x100000002 0xFFF0 0 0 0 0) true true)
    as (p & lo & E1 & _ & E2 & _); cbn; try (split; [discriminate|reflexivity]).
  exists p. exact (conj E1 E2).
Defined.

Definition create_params (r : NTCreateRequest) : bytes :=
  [byte_of (nc_AndXCommand r)] ++ [byte_of (nc_AndXReserved r)] ++ le_put 2 (nc_AndXOffset r)
  ++ [byte_of (nc_Reserved r)] ++ le_put 2 (nc_NameLength r) ++ le_put 4 (nc_Flags r)
  ++ le_put 4 (nc_RootDirectoryFID r) ++ le_put 4 (nc_DesiredAccess r)
  ++ le_put 8 (nc_AllocationSize r) ++ le_put 4 (nc_FileAttributes r) ++ le_put 4 (nc_ShareAccess r)
  ++ le_put 4 (nc_CreateDisposition r) ++ le_put 4 (nc_CreateOptions r)
  ++ le_put 4 (nc_ImpersonationLevel r) ++ [byte_of (nc_SecurityFlags r)].

Lemma EncodeNTCreateRequest_eq r :
  nc_FileName r <> [] ->
  EncodeNTCreateRequest (Some r) =
  Ok (create_params r,
      (if nc_UseUnicode r then [Byte.x00] else []) ++ name_bytes (nc_UseUnicode r) (nc_FileName r)).
Proof.
  intros Hn. unfold EncodeNTCreateRequest.
  destruct (Z.eqb_spec (len (nc_FileName r)) 0) as [E|_]; [by apply len_0_nil in E|].
  rewrite (make_zeros 48 48) by done. cbn [bind]. unfold put16, put32, put64. repeat enc_step.
  unfold create_params, name_bytes. rewrite <- !app_assoc.
  destruct (nc_UseUnicode r); [|done]. by rewrite EncodeStringToBytes_eq.
Qed.

(** An open request names its file: in the encoded packet the name starts at
    offset 83, or at 84, an even offset as Unicode requires, runs to the end,
    and is the caller's, for every valid UTF-8 name on a Unicode session and every
    name on an ASCII one; the access mask and disposition are the caller's. *)
Theorem EncodeNTCreateRequest_name h r :
  Header_wf h -> nc_FileName r <> [] -> (nc_UseUnicode r = true -> ValidString (nc_FileName r)) ->
  len (name_bytes (nc_UseUnicode r) (nc_FileName r)) < MaxDataSize ->
  exists p d raw,
    EncodeNTCreateRequest (Some r) = Ok (p, d) /\ EncodePacket (Some h) p d = Ok raw /\
    (let! b := slice raw (if nc_UseUnicode r then 84 else 83) (len raw) in
     read_name (nc_UseUnicode r) b) = Ok (nc_FileName r) /\
    u16 raw 38 40 = Ok (wrap 16 (nc_NameLength r)) /\
    u32 raw 48 52 = Ok (wrap 32 (nc_DesiredAccess r)) /\
    u32 raw 68 72 = Ok (wrap 32 (nc_CreateDisposition r)).
Proof.
  intros Hh Hn Hv Hsize. rewrite EncodeNTCreateRequest_eq by done.
  pose proof (len_Header_bytes h Hh) as HL. unfold HeaderSize in HL.
  eexists _, _, _. split; [reflexivity|]. split.
  { apply EncodePacket_eq; [done|done|vm_compute; discriminate|].
    destruct (nc_UseUnicode r); autorewrite with len; lia. }
  unfold Packet_bytes. set (d := (if nc_UseUnicode r then _ else _) ++ _).
  set (bc := le_put 2 (len d mod 2 ^ 16)). assert (len bc = 2) as Hbc by apply len_le_put. clearbody bc.
  unfold create_params. rewrite <- !app_assoc. split_and!; [|by wire_read..].
  subst d. destruct (nc_UseUnicode r) eqn:Eu; cbv iota; rewrite ?app_nil_l; wire_read.
  - rewrite slice_whole by offsets. by apply read_name_bytes.
  - rewrite slice_whole by offsets. by apply read_name_bytes.
Qed.

Definition example_create (name : bytes) (u : bool) : NTCreateRequest :=
  mkNTCreateRequest 0xFF 0 0 0 (len name) 0 0 0x80000000 0 0x80 7 1 0 2 0 name u.

Lemma EncodeNTCreateRequest_name_witness :
  exists p d raw, EncodeNTCreateRequest (Some (example_create (str "dir\file") true)) = Ok (p, d) /\
    EncodePacket (Some example_header) p d = Ok raw /\
    (let! b := slice raw 84 (len raw) in read_name true b) = Ok (str "dir\file").
Proof.
  assert (Header_wf example_header) as Hh by (apply NewHeader_wf; split; [discriminate|reflexivity]).
  destruct (EncodeNTCreateRequest_name example_header (example_create (str "dir\file") true) Hh)
    as (p & d & raw & E1 & E2 & E3 & _);
    [discriminate|intros _; vm_compute; reflexivity|vm_compute; reflexivity|].
  exists p, d, raw. exact (conj E1 (conj E2 E3)).
Defined.
