(* ===== verification/Setup.v ===== *)
(** * Setting up a session ([internal/smb1/negotiate.go], [session_setup.go],
    [tree_connect.go])

    The three exchanges that open a session on a share: dialect negotiation,
    authentication and tree connect.  Their replies end in strings, null
    terminated, as bytes or as UTF-16; the loops that find their ends are
    [utf16_end] and [ascii_end].  Record fields carry a prefix, [ng], [sq]/[sr]
    (session setup), [tq]/[tr] (tree connect). *)

From S2P Require Export Packet Utf16le.

(** ** Constants and errors *)

Definition NEGOTIATE_USER_SECURITY : Z := 0x01.
Definition NEGOTIATE_ENCRYPT_PASSWORDS : Z := 0x02.
Definition NEGOTIATE_SECURITY_SIGNATURES_REQUIRED : Z := 0x08.
Definition SESSION_SETUP_GUEST : Z := 0x0001.
Definition SMB_SUPPORT_SEARCH_BITS : Z := 0x0001.
Definition SMB_SHARE_IS_IN_DFS : Z := 0x0002.
Definition serverGUIDLength : Z := 16.
Definition sessionSetupByteAreaOffset : Z := HeaderSize + 1 + 24 + 2.

Definition ErrShareLevelSecurity : error :=
  Errorf "smb1: server uses share-level security, which this client does not implement".
Definition ErrSigningRequired : error :=
  Errorf "smb1: server requires SMB signing, which this client does not implement".
Definition ErrGuestLogon : error :=
  Errorf "smb1: server granted a guest logon instead of authenticating the requested user".

Definition DefaultDialects : list bytes := [str "NT LM 0.12"; str "NT LANMAN 1.0"; str "LANMAN1.0"].

(** ** Strings of a reply

    The loops look for a terminator from [e] on; their fuel, the length of the
    data, does not run out ([utf16_end_range], [ascii_end_range]). *)

Fixpoint utf16_end (fuel : nat) (data : bytes) (e : Z) : res Z :=
  match fuel with
  | O => Panic
  | S fuel =>
    if e + 1 <? len data then
      let! a := idx8 data e in
      let! b := idx8 data (e + 1) in
      if (a =? 0) && (b =? 0) then Ok e else utf16_end fuel data (e + 2)
    else Ok e
  end.

Fixpoint ascii_end (fuel : nat) (data : bytes) (e : Z) : res Z :=
  match fuel with
  | O => Panic
  | S fuel =>
    if e <? len data then
      let! a := idx8 data e in
      if a =? 0 then Ok e else ascii_end fuel data (e + 1)
    else Ok e
  end.

(** A string at [offset], if there is anything there, and the offset after it. *)
Definition read_utf16 (data : bytes) (offset : Z) : res (bytes * Z) :=
  if offset <? len data then
    let! e := utf16_end (S (length data)) data offset in
    let! s := if offset <? e then let! b := slice data offset e in DecodeToString b else Ok [] in
    Ok (s, e + 2)
  else Ok ([], offset).

Definition read_ascii (data : bytes) (offset : Z) : res (bytes * Z) :=
  if offset <? len data then
    let! e := ascii_end (S (length data)) data offset in
    let! s := slice data offset e in
    Ok (s, e + 1)
  else Ok ([], offset).

Definition read_string (unicode : bool) := if unicode then read_utf16 else read_ascii.

(** ** Negotiation *)

Fixpoint dialects_data (dialects : list bytes) (data : bytes) : bytes :=
  match dialects with
  | [] => data
  | dialect :: t => dialects_data t (((data ++ [Byte.x02]) ++ dialect) ++ [Byte.x00])
  end.

Definition EncodeNegotiateRequest (dialects : list bytes) : res (bytes * bytes) :=
  if len dialects =? 0 then Err (Errorf "smb1: negotiate requires at least one dialect")
  else Ok ([], dialects_data dialects []).

Record NegotiateResponse := mkNegotiateResponse {
  ng_DialectIndex : Z;
  ng_SecurityMode : Z;
  ng_MaxMpxCount : Z;
  ng_MaxNumberVcs : Z;
  ng_MaxBufferSize : Z;
  ng_MaxRawSize : Z;
  ng_SessionKey : Z;
  ng_Capabilities : Z;
  ng_SystemTime : Z;
  ng_ServerTimeZone : Z;
  ng_ChallengeLength : Z;
  ng_Challenge : bytes;
  ng_DomainName : bytes;
  ng_ServerName : bytes;
  ng_ServerGUID : bytes;
  ng_SecurityBlob : bytes;
}.

(** The loop that counts nulls in odd and even positions, over at most
    [budget] = 16 - [bytesChecked] bytes from [i] on. *)
Fixpoint count_nulls (budget : nat) (data : bytes) (checkOffset i odd even : Z) : res (Z * Z) :=
  match budget with
  | O => Ok (odd, even)
  | S budget =>
    if negb (i <? len data) then Ok (odd, even) else
    let! b := idx8 data i in
    let odd' := if (b =? 0) && ((i - checkOffset) mod 2 =? 1) then odd + 1 else odd in
    let even' := if (b =? 0) && negb ((i - checkOffset) mod 2 =? 1) then even + 1 else even in
    let! stop :=
      if (checkOffset <? i) && (b =? 0)
      then let! a := idx8 data (i - 1) in Ok (a =? 0) else Ok false in
    if stop then Ok (odd', even') else count_nulls budget data checkOffset (i + 1) odd' even'
  end.

(** Whether the names of the reply look like UTF-16. *)
Definition actually_unicode (data : bytes) (unicode : bool) (offset : Z) : res bool :=
  if unicode && (offset <? len data) then
    let checkOffset := if negb (offset mod 2 =? 0) then offset + 1 else offset in
    let! (odd, even) := count_nulls 16 data checkOffset checkOffset 0 0 in
    Ok ((2 <=? odd) && (even <? odd))
  else Ok false.

Definition DecodeNegotiateResponse (params data : bytes) : res NegotiateResponse :=
  if len params <? 34 then Err (Errorf "smb1: negotiate response parameters too short") else
  let! dialectIndex := u16 params 0 2 in
  let! securityMode := idx8 params 2 in
  let! maxMpxCount := u16 params 3 5 in
  let! maxNumberVcs := u16 params 5 7 in
  let! maxBufferSize := u32 params 7 11 in
  let! maxRawSize := u32 params 11 15 in
  let! sessionKey := u32 params 15 19 in
  let! capabilities := u32 params 19 23 in
  let! systemTime := u64 params 23 31 in
  let! serverTimeZone := u16 params 31 33 in
  let! challengeLength := idx8 params 33 in
  let resp := mkNegotiateResponse dialectIndex securityMode maxMpxCount maxNumberVcs maxBufferSize
    maxRawSize sessionKey capabilities systemTime (int16 serverTimeZone) challengeLength in
  if dialectIndex =? 0xFFFF
  then Err (Errorf "smb1: server does not support any of the proposed dialects") else
  if len data <? challengeLength then Err (Errorf "smb1: data too short for challenge") else
  let! challenge :=
    let! buf := make challengeLength in
    let! s := slice data 0 challengeLength in
    copy_at buf 0 (len buf) s in
  if negb (Z.land capabilities CAP_EXTENDED_SECURITY =? 0) then
    if serverGUIDLength <=? len data then
      let! guid :=
        let! buf := make serverGUIDLength in
        let! s := slice data 0 serverGUIDLength in
        copy_at buf 0 (len buf) s in
      let! blob := slice data serverGUIDLength (len data) in
      Ok (resp challenge [] [] guid blob)
    else Ok (resp challenge [] [] [] [])
  else
    let offset := challengeLength in
    let unicode := negb (Z.land capabilities CAP_UNICODE =? 0) in
    let! u := actually_unicode data unicode offset in
    let offset := if u && negb (offset mod 2 =? 0) then offset + 1 else offset in
    let! (domainName, offset) := read_string u data offset in
    let! (serverName, _) := read_string u data offset in
    Ok (resp challenge domainName serverName [] []).

(** ** Session setup *)

Record SessionSetupRequest := mkSessionSetupRequest {
  sq_AndXCommand : Z;
  sq_AndXReserved : Z;
  sq_AndXOffset : Z;
  sq_MaxBufferSize : Z;
  sq_MaxMpxCount : Z;
  sq_VcNumber : Z;
  sq_SessionKey : Z;
  sq_SecurityBlobLength : Z;
  sq_Reserved : Z;
  sq_Capabilities : Z;
  sq_SecurityBlob : bytes;
  sq_NativeOS : bytes;
  sq_NativeLanMan : bytes;
  sq_UseUnicode : bool;
}.

(** Appends a string and its terminator. *)
Definition append_string (useUnicode : bool) (data s : bytes) : res bytes :=
  if useUnicode then
    let! b := EncodeStringToBytes s in Ok ((data ++ b) ++ [Byte.x00; Byte.x00])
  else Ok ((data ++ s) ++ [Byte.x00]).

Definition EncodeSessionSetupRequest (req : option SessionSetupRequest) : res (bytes * bytes) :=
  match req with
  | None => Err (Errorf "smb1: session setup request is nil")
  | Some req =>
    let! params := make 24 in
    let! params := put8 params 0 (sq_AndXCommand req) in
    let! params := put8 params 1 (sq_AndXReserved req) in
    let! params := put16 params 2 4 (sq_AndXOffset req) in
    let! params := put16 params 4 6 (sq_MaxBufferSize req) in
    let! params := put16 params 6 8 (sq_MaxMpxCount req) in
    let! params := put16 params 8 10 (sq_VcNumber req) in
    let! params := put32 params 10 14 (sq_SessionKey req) in
    let! params := put16 params 14 16 (sq_SecurityBlobLength req) in
    let! params := put32 params 16 20 (sq_Reserved req) in
    let! params := put32 params 20 24 (sq_Capabilities req) in
    let data := if 0 <? len (sq_SecurityBlob req) then sq_SecurityBlob req else [] in
    let data :=
      if sq_UseUnicode req && negb ((sessionSetupByteAreaOffset + len data) mod 2 =? 0)
      then data ++ [Byte.x00] else data in
    let! data := append_string (sq_UseUnicode req) data (sq_NativeOS req) in
    let! data := append_string (sq_UseUnicode req) data (sq_NativeLanMan req) in
    Ok (params, data)
  end.

Record SessionSetupResponse := mkSessionSetupResponse {
  sr_AndXCommand : Z;
  sr_AndXReserved : Z;
  sr_AndXOffset : Z;
  sr_Action : Z;
  sr_SecurityBlobLength : Z;
  sr_SecurityBlob : bytes;
  sr_NativeOS : bytes;
  sr_NativeLanMan : bytes;
  sr_PrimaryDomain : bytes;
}.

(** Where the strings of the reply are taken to start, in its byte area. *)
Definition setup_strings_offset (useUnicode : bool) (data : bytes) (securityBlobLength : Z) : Z :=
  let offset := securityBlobLength in
  if useUnicode && (offset <? len data) && negb (offset mod 2 =? 0) then offset + 1 else offset.

Definition DecodeSessionSetupResponse (params data : bytes) (useUnicode : bool)
  : res SessionSetupResponse :=
  if len params <? 6 then Err (Errorf "smb1: session setup response parameters too short") else
  let! andXCommand := idx8 params 0 in
  let! andXReserved := idx8 params 1 in
  let! andXOffset := u16 params 2 4 in
  let! action := u16 params 4 6 in
  let! securityBlobLength := if 8 <=? len params then u16 params 6 8 else Ok 0 in
  if len data <? securityBlobLength then Err (Errorf "smb1: data too short for security blob") else
  let! securityBlob :=
    if 0 <? securityBlobLength then
      let! buf := make securityBlobLength in
      let! s := slice data 0 securityBlobLength in
      copy_at buf 0 (len buf) s
    else Ok [] in
  let offset := setup_strings_offset useUnicode data securityBlobLength in
  let! (nativeOS, offset) := read_string useUnicode data offset in
  let! (nativeLanMan, offset) := read_string useUnicode data offset in
  let! (primaryDomain, _) := read_string useUnicode data offset in
  Ok (mkSessionSetupResponse andXCommand andXReserved andXOffset action securityBlobLength
        securityBlob nativeOS nativeLanMan primaryDomain).

Definition IsGuest (r : SessionSetupResponse) : bool :=
  negb (Z.land (sr_Action r) SESSION_SETUP_GUEST =? 0).
Definition SessionSetup_HasChaining (r : SessionSetupResponse) : bool :=
  negb (sr_AndXCommand r =? SMB_COM_NO_ANDX_COMMAND).

(** ** Tree connect *)

Record TreeConnectRequest := mkTreeConnectRequest {
  tq_AndXCommand : Z;
  tq_AndXReserved : Z;
  tq_AndXOffset : Z;
  tq_Flags : Z;
  tq_PasswordLength : Z;
  tq_Password : bytes;
  tq_Path : bytes;
  tq_Service : bytes;
  tq_UseUnicode : bool;
}.

Definition EncodeTreeConnectRequest (req : option TreeConnectRequest) : res (bytes * bytes) :=
  match req with
  | None => Err (Errorf "smb1: tree connect request is nil")
  | Some req =>
    if len (tq_Path req) =? 0 then Err (Errorf "smb1: tree connect path is empty") else
    let! params := make 8 in
    let! params := put8 params 0 (tq_AndXCommand req) in
    let! params := put8 params 1 (tq_AndXReserved req) in
    let! params := put16 params 2 4 (tq_AndXOffset req) in
    let! params := put16 params 4 6 (tq_Flags req) in
    let! params := put16 params 6 8 (tq_PasswordLength req) in
    let data := if 0 <? len (tq_Password req) then tq_Password req else [] in
    let! data :=
      if tq_UseUnicode req then
        let! pathBytes := EncodeStringToBytes (tq_Path req) in
        let data := (data ++ pathBytes) ++ [Byte.x00; Byte.x00] in
        Ok (if negb (len pathBytes mod 2 =? 0) then data ++ [Byte.x00] else data)
      else Ok ((data ++ tq_Path req) ++ [Byte.x00]) in
    Ok (params, (data ++ tq_Service req) ++ [Byte.x00])
  end.

Record TreeConnectResponse := mkTreeConnectResponse {
  tr_AndXCommand : Z;
  tr_AndXReserved : Z;
  tr_AndXOffset : Z;
  tr_OptionalSupport : Z;
  tr_Service : bytes;
  tr_NativeFileSystem : bytes;
}.

Definition DecodeTreeConnectResponse (params data : bytes) (useUnicode : bool)
  : res TreeConnectResponse :=
  if len params <? 6 then Err (Errorf "smb1: tree connect response parameters too short") else
  let! andXCommand := idx8 params 0 in
  let! andXReserved := idx8 params 1 in
  let! andXOffset := u16 params 2 4 in
  let! optionalSupport := u16 params 4 6 in
  let! (service, offset) := read_ascii data 0 in
  let offset := if useUnicode && (offset <? len data) && negb (offset mod 2 =? 0)
                then offset + 1 else offset in
  let! (nativeFileSystem, _) := read_string useUnicode data offset in
  Ok (mkTreeConnectResponse andXCommand andXReserved andXOffset optionalSupport service
        nativeFileSystem).

Definition TreeConnect_HasChaining (r : TreeConnectResponse) : bool :=
  negb (tr_AndXCommand r =? SMB_COM_NO_ANDX_COMMAND).
Definition IsInDFS (r : TreeConnectResponse) : bool :=
  negb (Z.land (tr_OptionalSupport r) SMB_SHARE_IS_IN_DFS =? 0).
Definition SupportsSearchBits (r : TreeConnectResponse) : bool :=
  negb (Z.land (tr_OptionalSupport r) SMB_SUPPORT_SEARCH_BITS =? 0).

Definition EncodeTreeDisconnectRequest : res (bytes * bytes) := Ok ([], []).

Definition DecodeTreeDisconnectResponse (params data : bytes) : res () :=
  if negb (len params =? 0)
  then Err (Errorf "smb1: tree disconnect response should have no parameters") else
  if negb (len data =? 0)
  then Err (Errorf "smb1: tree disconnect response should have no data") else Ok ().

(** ** Strings: bounds *)

Lemma utf16_end_range fuel data e :
  0 <= e -> len data - e < Z.of_nat fuel -> (0 < fuel)%nat ->
  exists e', utf16_end fuel data e = Ok e' /\ e <= e' /\ (e <= len data -> e' <= len data).
Proof.
  revert e. induction fuel as [|fuel IH]; intros e He Hf Hp; [lia|]. cbn [utf16_end].
  destruct (Z.ltb_spec (e + 1) (len data)); [|exists e; split; [done|lia]].
  unfold idx8. destruct (index_ok data e) as [a ->]; [lia|]. destruct (index_ok data (e + 1)) as [b ->]; [lia|].
  cbn [bind]. destruct (_ && _); [exists e; split; [done|lia]|].
  destruct (IH (e + 2)) as (e' & E & H1 & H2); [lia|lia|lia|]. exists e'. split; [done|]. lia.
Qed.

Lemma ascii_end_range fuel data e :
  0 <= e -> len data - e < Z.of_nat fuel -> (0 < fuel)%nat ->
  exists e', ascii_end fuel data e = Ok e' /\ e <= e' /\ (e <= len data -> e' <= len data).
Proof.
  revert e. induction fuel as [|fuel IH]; intros e He Hf Hp; [lia|]. cbn [ascii_end].
  destruct (Z.ltb_spec e (len data)); [|exists e; split; [done|lia]].
  unfold idx8. destruct (index_ok data e) as [a ->]; [lia|].
  cbn [bind]. destruct (_ =? _); [exists e; split; [done|lia]|].
  destruct (IH (e + 1)) as (e' & E & H1 & H2); [lia|lia|lia|]. exists e'. split; [done|]. lia.
Qed.

Lemma read_string_safe u data offset :
  0 <= offset -> exists s o, read_string u data offset = Ok (s, o) /\ offset <= o.
Proof.
  intros Ho. destruct u; unfold read_string, read_utf16, read_ascii;
    (destruct (Z.ltb_spec offset (len data)); [|by exists [], offset]).
  - destruct (utf16_end_range (S (length data)) data offset) as (e & -> & H1 & H2);
      [done|unfold len; lia|lia|]. cbn [bind]. destruct (Z.ltb_spec offset e).
    + rewrite slice_ok by lia. cbn [bind]. rewrite DecodeToString_eq. cbn [bind]. eexists _, _. split; [reflexivity|lia].
    + eexists _, _. split; [reflexivity|lia].
  - destruct (ascii_end_range (S (length data)) data offset) as (e & -> & H1 & H2);
      [done|unfold len; lia|lia|]. cbn [bind]. rewrite slice_ok by lia.
    eexists _, _. split; [reflexivity|lia].
Qed.

Lemma safe_count_nulls budget data c i odd even :
  0 <= c <= i -> safe (count_nulls budget data c i odd even).
Proof.
  revert i odd even. induction budget as [|n IH]; intros i odd even Hi; cbn [count_nulls]; [done|].
  apply safe_if; intros E; [done|]. apply safe_bind; [apply safe_idx8; lia|]. intros b _. cbv zeta.
  apply safe_bind; [apply safe_if; intros E2; [|done]; safe_tac|]. intros [] _; [done|]. apply IH. lia.
Qed.

Lemma safe_actually_unicode data u offset : 0 <= offset -> safe (actually_unicode data u offset).
Proof.
  intros Ho. unfold actually_unicode. apply safe_if; intros _; [|done]. cbv zeta.
  apply safe_bind; [apply safe_count_nulls; destruct (negb _); lia|]. by intros [a b] _.
Qed.

Lemma safe_copy_of_slice (l : bytes) n hi :
  0 <= n -> hi = n -> n <= len l ->
  safe (let! buf := make n in let! s := slice l 0 hi in copy_at buf 0 (len buf) s).
Proof. intros H1 -> H2. rewrite copy_of_slice by lia. apply safe_slice; lia. Qed.

(** No reply makes the decoders of session setup panic or loop. *)
Lemma setup_decoders_total (params data : bytes) u :
  safe (DecodeNegotiateResponse params data) /\ safe (DecodeSessionSetupResponse params data u) /\
  safe (DecodeTreeConnectResponse params data u) /\ safe (DecodeTreeDisconnectResponse params data).
Proof.
  split_and!.
  - unfold DecodeNegotiateResponse. apply safe_if; intros Hp; [done|].
    do 11 (apply safe_bind; [first [apply safe_u16|apply safe_u32|apply safe_u64|apply safe_idx8]; lia|];
      intros ? ?). cbv zeta. go_ranges.
    apply safe_if; intros _; [done|]. apply safe_if; intros Hd; [done|].
    apply safe_bind; [apply safe_copy_of_slice; lia|]. intros ch _.
    apply safe_if; intros _.
    + apply safe_if; intros Hg; [|done]. unfold serverGUIDLength in *.
      apply safe_bind; [apply safe_copy_of_slice; lia|]. intros guid _. safe_tac.
    + apply safe_bind; [apply safe_actually_unicode; lia|]. intros un _.
      destruct (read_string_safe un data
        (if un && negb (a9 mod 2 =? 0) then a9 + 1 else a9)) as (s & o & -> & Ho);
        [destruct (_ && _); lia|]. cbn [bind].
      destruct (read_string_safe un data o) as (s2 & o2 & -> & _); [destruct (_ && _) in Ho; lia|]. done.
  - unfold DecodeSessionSetupResponse. apply safe_if; intros Hp; [done|].
    do 4 (apply safe_bind; [first [apply safe_u16|apply safe_idx8]; lia|]; intros ? ?).
    apply safe_bind; [safe_tac|]. intros n Hn.
    assert (0 <= n) by (destruct (8 <=? len params); [go_ranges; lia|injection Hn as <-; lia]).
    apply safe_if; intros Hd; [done|]. apply safe_bind.
    { apply safe_if; intros _; [|done]. apply safe_copy_of_slice; lia. }
    intros blob _. cbv zeta. set (o0 := setup_strings_offset u data n).
    assert (0 <= o0) by (unfold o0, setup_strings_offset; destruct (_ && _); lia).
    destruct (read_string_safe u data o0) as (s1 & o1 & -> & Ho1); [done|]. cbn [bind].
    destruct (read_string_safe u data o1) as (s2 & o2 & -> & Ho2); [lia|]. cbn [bind].
    destruct (read_string_safe u data o2) as (s3 & o3 & -> & Ho3); [lia|]. done.
  - unfold DecodeTreeConnectResponse. apply safe_if; intros Hp; [done|].
    do 4 (apply safe_bind; [first [apply safe_u16|apply safe_idx8]; lia|]; intros ? ?).
    destruct (read_string_safe false data 0) as (s1 & o1 & E & Ho1); [done|].
    cbn [read_string] in E. rewrite E. cbn [bind]. cbv zeta.
    match goal with |- safe (bind (read_string u data ?o) _) =>
      destruct (read_string_safe u data o) as (s2 & o2 & -> & Ho2); [destruct (_ && _); lia|]; done end.
  - unfold DecodeTreeDisconnectResponse. safe_tac.
Qed.

(** ** Strings: reading what was written *)

(** A unit that is not 0 is not taken for the terminator. *)
Lemma unit_nonzero w :
  0 < w < 2 ^ 16 -> (u8 (byte_at w 0) =? 0) && (u8 (byte_at w 1) =? 0) = false.
Proof.
  intros Hw. apply not_true_is_false. rewrite andb_true_iff, !Z.eqb_eq. intros [H0 H1].
  pose proof (le_get_put_id 2 w ltac:(lia)) as H. change (le_put 2 w) with [byte_at w 0; byte_at w 1] in H.
  change (le_get [byte_at w 0; byte_at w 1]) with (u8 (byte_at w 0) + 256 * (u8 (byte_at w 1) + 256 * 0)) in H.
  lia.
Qed.

Lemma utf16_end_units ws : Forall (fun w => 0 < w < 2 ^ 16) ws ->
  forall fuel (pre rest : bytes), (length ws < fuel)%nat ->
  utf16_end fuel (pre ++ units_bytes ws ++ [Byte.x00; Byte.x00] ++ rest) (len pre)
  = Ok (len pre + 2 * len ws).
Proof.
  induction 1 as [|w ws Hw _ IH]; intros fuel pre rest Hf; (destruct fuel as [|fuel]; [cbn in Hf; lia|]);
    cbn [utf16_end].
  - change (units_bytes []) with (@nil byte). pose proof (len_nonneg rest). rewrite app_nil_l.
    rewrite (proj2 (Z.ltb_lt _ _)) by offsets. cbn [app].
    rewrite idx8_at by done. cbn [bind].
    change (pre ++ Byte.x00 :: Byte.x00 :: rest) with (pre ++ [Byte.x00] ++ Byte.x00 :: rest).
    rewrite app_assoc, idx8_at by offsets. cbn [bind]. f_equal. autorewrite with len. lia.
  - change (units_bytes (w :: ws)) with ([byte_at w 0; byte_at w 1] ++ units_bytes ws).
    rewrite <- app_assoc. set (tail := units_bytes ws ++ _). pose proof (len_nonneg tail).
    rewrite (proj2 (Z.ltb_lt _ _)) by offsets. cbn [app].
    rewrite idx8_at by done. cbn [bind].
    change (pre ++ byte_at w 0 :: byte_at w 1 :: tail) with (pre ++ [byte_at w 0] ++ byte_at w 1 :: tail).
    rewrite app_assoc, idx8_at by offsets. cbn [bind]. rewrite unit_nonzero by done.
    replace ((pre ++ [byte_at w 0]) ++ byte_at w 1 :: tail)
      with ((pre ++ [byte_at w 0; byte_at w 1]) ++ tail) by (by rewrite <- !app_assoc).
    replace (len pre + 2) with (len (pre ++ [byte_at w 0; byte_at w 1])) by offsets.
    unfold tail. rewrite IH by (cbn in Hf; lia). f_equal. autorewrite with len. lia.
Qed.

Lemma read_utf16_text (pre s rest : bytes) :
  TextString s ->
  read_utf16 (pre ++ utf16le s ++ [Byte.x00; Byte.x00] ++ rest) (len pre) =
  Ok (s, len pre + len (utf16le s) + 2).
Proof.
  intros Hs. pose proof (TextString_units s Hs) as Hu. unfold read_utf16.
  pose proof (len_nonneg rest). pose proof (len_nonneg (utf16le s)).
  rewrite (proj2 (Z.ltb_lt _ _)) by offsets. unfold utf16le at 1 2.
  rewrite utf16_end_units; [|done|].
  2:{ rewrite !length_app. unfold units_bytes.
      pose proof (len_units_bytes (utf16_Encode (runes s))) as Hl. unfold len, units_bytes in Hl. lia. }
  cbn [bind]. unfold utf16le in *. rewrite len_units_bytes in *.
  destruct (Z.ltb_spec (len pre) (len pre + 2 * len (utf16_Encode (runes s)))).
  - rewrite slice_mid by (rewrite ?len_units_bytes; lia). cbn [bind].
    rewrite DecodeToString_eq. fold (utf16le s).
    rewrite of_utf16le_utf16le by (first [apply Hs|by apply TextString_last]). done.
  - cbn [bind]. do 2 f_equal. rewrite <- (of_utf16le_utf16le s) by (first [apply Hs|by apply TextString_last]).
    unfold utf16le. rewrite (len_0_nil (utf16_Encode (runes s))) by lia. done.
Qed.

Lemma ascii_end_text s : Byte.x00 ∉ s -> forall fuel (pre rest : bytes), (length s < fuel)%nat ->
  ascii_end fuel (pre ++ s ++ [Byte.x00] ++ rest) (len pre) = Ok (len pre + len s).
Proof.
  induction s as [|b s IH]; intros H0 fuel pre rest Hf; (destruct fuel as [|fuel]; [cbn in Hf; lia|]);
    cbn [ascii_end]; pose proof (len_nonneg rest).
  - rewrite app_nil_l, (proj2 (Z.ltb_lt _ _)) by offsets. cbn [app].
    rewrite idx8_at by done. cbn [bind]. f_equal. autorewrite with len. lia.
  - apply not_elem_of_cons in H0 as [Hb H0]. pose proof (len_nonneg s).
    rewrite (proj2 (Z.ltb_lt _ _)) by offsets. cbn [app]. rewrite idx8_at by done. cbn [bind].
    destruct (Z.eqb_spec (u8 b) 0) as [E|_]; [by apply Z.eqb_eq, u8_eqb_0 in E|].
    change (pre ++ b :: s ++ Byte.x00 :: rest) with (pre ++ [b] ++ (s ++ [Byte.x00] ++ rest)).
    rewrite app_assoc. replace (len pre + 1) with (len (pre ++ [b])) by offsets.
    rewrite IH by (first [done|cbn in Hf; lia]). f_equal. autorewrite with len. lia.
Qed.

Lemma read_ascii_text (pre s rest : bytes) :
  Byte.x00 ∉ s ->
  read_ascii (pre ++ s ++ [Byte.x00] ++ rest) (len pre) = Ok (s, len pre + len s + 1).
Proof.
  intros Hs. unfold read_ascii. pose proof (len_nonneg rest). pose proof (len_nonneg s).
  rewrite (proj2 (Z.ltb_lt _ _)) by offsets.
  rewrite ascii_end_text by (first [done|rewrite !length_app; lia]). cbn [bind].
  by rewrite slice_mid by lia.
Qed.

(** A null-terminated string on the wire, and what is read back. *)
Definition terminated (u : bool) (s : bytes) : bytes := name_bytes u s.
Definition readable (u : bool) (s : bytes) : Prop := if u then TextString s else Byte.x00 ∉ s.

#[export] Instance readable_dec u s : Decision (readable u s).
Proof. unfold readable. destruct u; apply _. Defined.
Lemma readable_by u s : bool_decide (readable u s) = true -> readable u s.
Proof. apply bool_decide_eq_true. Qed.

Lemma read_string_text u (pre s rest : bytes) :
  readable u s ->
  read_string u (pre ++ terminated u s ++ rest) (len pre) = Ok (s, len (pre ++ terminated u s)).
Proof.
  intros Hs. unfold read_string, terminated, name_bytes. destruct u; cbn [readable] in Hs.
  - rewrite <- app_assoc, read_utf16_text by done. do 2 f_equal. autorewrite with len. lia.
  - rewrite <- app_assoc, read_ascii_text by done. do 2 f_equal. autorewrite with len. lia.
Qed.

(** ** The layout of requests *)

Lemma append_string_eq u data s : append_string u data s = Ok (data ++ terminated u s).
Proof.
  unfold append_string, terminated, name_bytes. destruct u; [|by rewrite <- app_assoc].
  rewrite EncodeStringToBytes_eq. cbn [bind]. by rewrite <- app_assoc.
Qed.

Lemma if_len_nil (l : bytes) : (if 0 <? len l then l else []) = l.
Proof.
  destruct (Z.ltb_spec 0 (len l)); [done|]. symmetry. apply len_0_nil. pose proof (len_nonneg l). lia.
Qed.

Definition setup_params (r : SessionSetupRequest) : bytes :=
  [byte_of (sq_AndXCommand r)] ++ [byte_of (sq_AndXReserved r)] ++ le_put 2 (sq_AndXOffset r)
  ++ le_put 2 (sq_MaxBufferSize r) ++ le_put 2 (sq_MaxMpxCount r) ++ le_put 2 (sq_VcNumber r)
  ++ le_put 4 (sq_SessionKey r) ++ le_put 2 (sq_SecurityBlobLength r) ++ le_put 4 (sq_Reserved r)
  ++ le_put 4 (sq_Capabilities r).

(** The padding of the strings, at an odd offset of the message. *)
Definition setup_pad (r : SessionSetupRequest) : bytes :=
  if sq_UseUnicode r && negb ((sessionSetupByteAreaOffset + len (sq_SecurityBlob r)) mod 2 =? 0)
  then [Byte.x00] else [].

Lemma EncodeSessionSetupRequest_eq r :
  EncodeSessionSetupRequest (Some r) =
  Ok (setup_params r,
      sq_SecurityBlob r ++ setup_pad r ++ terminated (sq_UseUnicode r) (sq_NativeOS r)
      ++ terminated (sq_UseUnicode r) (sq_NativeLanMan r)).
Proof.
  unfold EncodeSessionSetupRequest. rewrite (make_zeros 24 24) by done. cbn [bind].
  unfold put16, put32, put64. repeat enc_step. rewrite if_len_nil. cbv zeta.
  rewrite append_string_eq. cbn [bind]. rewrite append_string_eq. cbn [bind].
  unfold setup_params, setup_pad. rewrite <- !app_assoc.
  destruct (_ && _); rewrite <- ?app_assoc, ?app_nil_l; reflexivity.
Qed.

(** In an encoded session setup request the server finds the security blob
    right after the fixed part, then the client's two strings, at an even offset
    of the message if they are Unicode, each read back as it was given. *)
Theorem EncodeSessionSetupRequest_strings h r :
  Header_wf h -> readable (sq_UseUnicode r) (sq_NativeOS r) ->
  readable (sq_UseUnicode r) (sq_NativeLanMan r) ->
  len (sq_SecurityBlob r ++ setup_pad r ++ terminated (sq_UseUnicode r) (sq_NativeOS r)
       ++ terminated (sq_UseUnicode r) (sq_NativeLanMan r)) <= MaxDataSize ->
  let at0 := sessionSetupByteAreaOffset in
  let at1 := at0 + len (sq_SecurityBlob r) + len (setup_pad r) in
  exists p d raw at2,
    EncodeSessionSetupRequest (Some r) = Ok (p, d) /\ EncodePacket (Some h) p d = Ok raw /\
    slice raw at0 (at0 + len (sq_SecurityBlob r)) = Ok (sq_SecurityBlob r) /\
    (sq_UseUnicode r = true -> at1 mod 2 = 0) /\
    read_string (sq_UseUnicode r) raw at1 = Ok (sq_NativeOS r, at2) /\
    read_string (sq_UseUnicode r) raw at2 = Ok (sq_NativeLanMan r, len raw).
Proof.
  intros Hh H1 H2 Hsize at0 at1. rewrite EncodeSessionSetupRequest_eq.
  pose proof (len_Header_bytes h Hh) as HL. unfold HeaderSize in HL.
  eexists _, _, _, (at1 + len (terminated (sq_UseUnicode r) (sq_NativeOS r))). split; [reflexivity|]. split.
  { apply EncodePacket_eq; [done|done|vm_compute; discriminate|done]. }
  unfold Packet_bytes. set (w := byte_of (_ / 2)). set (bc := le_put 2 (len _ mod 2 ^ 16)).
  assert (len bc = 2) as Hbc by apply len_le_put. clearbody bc w.
  assert (len (setup_params r) = 24) as Hp by done. set (p := setup_params r) in *. clearbody p.
  set (os := terminated _ (sq_NativeOS r)) in *. set (lm := terminated _ (sq_NativeLanMan r)) in *.
  set (pre := Header_bytes h ++ [w] ++ p ++ bc).
  assert (len pre = at0) as Hpre by (unfold pre; autorewrite with len; rewrite HL, Hp, Hbc; done).
  replace (Header_bytes h ++ [w] ++ p ++ bc ++ sq_SecurityBlob r ++ setup_pad r ++ os ++ lm)
    with (pre ++ sq_SecurityBlob r ++ setup_pad r ++ os ++ lm) by (unfold pre; by rewrite <- !app_assoc).
  split_and!.
  - apply slice_mid; lia.
  - intros Hu. unfold at1, setup_pad. rewrite Hu. cbn [andb].
    destruct (Z.eqb_spec ((at0 + len (sq_SecurityBlob r)) mod 2) 0) as [E|E];
      fold at0; [rewrite (proj2 (Z.eqb_eq _ 0) E)|rewrite (proj2 (Z.eqb_neq _ 0) E)]; cbn [negb].
    + by rewrite len_nil, Z.add_0_r.
    + change (len [Byte.x00]) with 1. Z.to_euclidean_division_equations. lia.
  - replace at1 with (len (pre ++ sq_SecurityBlob r ++ setup_pad r))
      by (unfold at1; rewrite !len_app, Hpre; lia).
    replace (pre ++ sq_SecurityBlob r ++ setup_pad r ++ os ++ lm)
      with ((pre ++ sq_SecurityBlob r ++ setup_pad r) ++ os ++ lm) by (by rewrite <- !app_assoc).
    unfold os at 1. rewrite read_string_text by done. do 2 f_equal. rewrite !len_app. done.
  - replace (at1 + len os) with (len (pre ++ sq_SecurityBlob r ++ setup_pad r ++ os))
      by (unfold at1; rewrite !len_app, Hpre; lia).
    replace (pre ++ sq_SecurityBlob r ++ setup_pad r ++ os ++ lm)
      with ((pre ++ sq_SecurityBlob r ++ setup_pad r ++ os) ++ lm ++ []) by (by rewrite app_nil_r, <- !app_assoc).
    unfold lm at 1. rewrite read_string_text by done. by rewrite app_nil_r.
Qed.

Definition example_setup : SessionSetupRequest :=
  mkSessionSetupRequest 0xFF 0 0 4356 50 0 0 4 0 0x80000054 (str "blob") (str "Unix")
    (str "smb1client") true.

Lemma EncodeSessionSetupRequest_strings_witness :
  exists p d raw at2, EncodeSessionSetupRequest (Some example_setup) = Ok (p, d) /\
    EncodePacket (Some example_header) p d = Ok raw /\
    read_string true raw 64 = Ok (str "Unix", at2).
Proof.
  assert (Header_wf example_header) as Hh by (apply NewHeader_wf; split; [discriminate|reflexivity]).
  destruct (EncodeSessionSetupRequest_strings example_header example_setup Hh)
    as (p & d & raw & at2 & E1 & E2 & _ & _ & E3 & _);
    [apply readable_by; vm_compute; reflexivity|apply readable_by; vm_compute; reflexivity
    |vm_compute; discriminate|].
  exists p, d, raw, at2. exact (conj E1 (conj E2 E3)).
Defined.

Definition tree_params (r : TreeConnectRequest) : bytes :=
  [byte_of (tq_AndXCommand r)] ++ [byte_of (tq_AndXReserved r)] ++ le_put 2 (tq_AndXOffset r)
  ++ le_put 2 (tq_Flags r) ++ le_put 2 (tq_PasswordLength r).

(** The padding after the path is never needed: its text has an even size. *)
Lemma EncodeTreeConnectRequest_eq r :
  tq_Path r <> [] ->
  EncodeTreeConnectRequest (Some r) =
  Ok (tree_params r,
      tq_Password r ++ terminated (tq_UseUnicode r) (tq_Path r) ++ terminated false (tq_Service r)).
Proof.
  intros Hp. unfold EncodeTreeConnectRequest.
  destruct (Z.eqb_spec (len (tq_Path r)) 0) as [E|_]; [by apply len_0_nil in E|].
  rewrite (make_zeros 8 8) by done. cbn [bind]. unfold put16, put32, put64. repeat enc_step.
  rewrite if_len_nil. cbv zeta. unfold tree_params, terminated, name_bytes. rewrite <- !app_assoc.
  destruct (tq_UseUnicode r).
  - rewrite EncodeStringToBytes_eq. cbn [bind].
    assert ((len (utf16le (tq_Path r)) mod 2 =? 0) = true) as ->.
    { unfold utf16le. rewrite len_units_bytes. apply Z.eqb_eq. Z.to_euclidean_division_equations. lia. }
    cbn [negb bind]. by rewrite <- !app_assoc.
  - cbn [bind]. by rewrite <- !app_assoc.
Qed.

(** An encoded tree connect request carries its password, its path and its
    service: with the one-byte password this client sends, the path starts at
    the even offset 44 of the message, is read back as it was given and is
    followed by the service. *)
Theorem EncodeTreeConnectRequest_strings h r :
  Header_wf h -> tq_Path r <> [] -> len (tq_Password r) = 1 ->
  readable (tq_UseUnicode r) (tq_Path r) -> readable false (tq_Service r) ->
  len (terminated (tq_UseUnicode r) (tq_Path r)) + len (tq_Service r) < MaxDataSize - 1 ->
  exists p d raw ofs,
    EncodeTreeConnectRequest (Some r) = Ok (p, d) /\ EncodePacket (Some h) p d = Ok raw /\
    read_string (tq_UseUnicode r) raw 44 = Ok (tq_Path r, ofs) /\
    read_string false raw ofs = Ok (tq_Service r, len raw).
Proof.
  intros Hh Hn Hpw H1 H2 Hsize. rewrite EncodeTreeConnectRequest_eq by done.
  pose proof (len_Header_bytes h Hh) as HL. unfold HeaderSize in HL.
  eexists _, _, _, (44 + len (terminated (tq_UseUnicode r) (tq_Path r))). split; [reflexivity|]. split.
  { apply EncodePacket_eq; [done|done|vm_compute; discriminate|].
    rewrite !len_app, Hpw. unfold terminated at 2. unfold name_bytes. rewrite len_app.
    change (len [Byte.x00]) with 1. lia. }
  unfold Packet_bytes. set (w := byte_of (_ / 2)). set (bc := le_put 2 (len _ mod 2 ^ 16)).
  assert (len bc = 2) as Hbc by apply len_le_put. clearbody bc w.
  assert (len (tree_params r) = 8) as Hp by done. set (p := tree_params r) in *. clearbody p.
  set (path := terminated _ (tq_Path r)) in *. set (svc := terminated false (tq_Service r)).
  set (pre := Header_bytes h ++ [w] ++ p ++ bc ++ tq_Password r).
  assert (len pre = 44) as Hpre by (unfold pre; autorewrite with len; rewrite HL, Hp, Hbc, Hpw; done).
  replace (Header_bytes h ++ [w] ++ p ++ bc ++ tq_Password r ++ path ++ svc)
    with (pre ++ path ++ svc) by (unfold pre; by rewrite <- !app_assoc).
  split.
  - rewrite <- Hpre. unfold path. rewrite read_string_text by done. by rewrite len_app.
  - rewrite <- Hpre, <- len_app. replace (pre ++ path ++ svc) with ((pre ++ path) ++ svc ++ [])
      by (by rewrite app_nil_r, <- !app_assoc).
    unfold svc at 1. rewrite read_string_text by done. by rewrite app_nil_r.
Qed.

Lemma EncodeTreeConnectRequest_strings_witness :
  exists p d raw ofs,
    EncodeTreeConnectRequest (Some (mkTreeConnectRequest 0xFF 0 0 0 1 [Byte.x00] (str "\\S\SHARE")
      (str "A:") true)) = Ok (p, d) /\
    EncodePacket (Some example_header) p d = Ok raw /\ read_string true raw 44 = Ok (str "\\S\SHARE", ofs).
Proof.
  assert (Header_wf example_header) as Hh by (apply NewHeader_wf; split; [discriminate|reflexivity]).
  destruct (EncodeTreeConnectRequest_strings example_header (mkTreeConnectRequest 0xFF 0 0 0 1
    [Byte.x00] (str "\\S\SHARE") (str "A:") true) Hh) as (p & d & raw & ofs & E1 & E2 & E3 & _);
    [discriminate|reflexivity|apply readable_by; vm_compute; reflexivity
    |apply readable_by; vm_compute; reflexivity|vm_compute; reflexivity|].
  exists p, d, raw, ofs. exact (conj E1 (conj E2 E3)).
Defined.

(** ** The layout of responses *)

(** The extended-security reply to a session setup, with [padding] before its
    strings. *)
Definition setup_reply_params (action blobLength : Z) : bytes :=
  [Byte.xff] ++ [Byte.x00] ++ le_put 2 0 ++ le_put 2 action ++ le_put 2 blobLength.
Definition setup_reply_data (u : bool) (blob padding os lm domain : bytes) : bytes :=
  blob ++ padding ++ terminated u os ++ terminated u lm ++ terminated u domain.

Lemma terminated_nonempty u s : 0 < len (terminated u s).
Proof.
  unfold terminated, name_bytes. pose proof (len_nonneg s). pose proof (len_nonneg (utf16le s)).
  destruct u; autorewrite with len; lia.
Qed.

(** A session setup reply is decoded into its action, its security blob and
    its three strings when these start where the decoder looks for them: right
    after the blob on an ASCII session, at the next even offset of the byte area
    on a Unicode one. *)
Theorem DecodeSessionSetupResponse_fields u action (blob os lm domain : bytes) :
  0 <= action < 2 ^ 16 -> len blob < 2 ^ 16 ->
  readable u os -> readable u lm -> readable u domain ->
  DecodeSessionSetupResponse (setup_reply_params action (len blob))
    (setup_reply_data u blob (if u then pad (len blob) else []) os lm domain) u =
  Ok (mkSessionSetupResponse 255 0 0 action (len blob) blob os lm domain).
Proof.
  intros Ha Hb H1 H2 H3. pose proof (len_nonneg blob).
  set (padding := if u then pad (len blob) else []).
  unfold DecodeSessionSetupResponse, setup_reply_data.
  replace (len (setup_reply_params action (len blob))) with 8 by done.
  change (8 <? 6) with false. change (8 <=? 8) with true. cbv iota. unfold setup_reply_params.
  change [Byte.xff] with [byte_of 255]. change [Byte.x00] with [byte_of 0].
  rewrite <- (app_nil_r (le_put 2 (len blob))). wire_read. change (byte_of 0) with Byte.x00.
  rewrite !(wrap_small 16) by lia. change (wrap 8 255) with 255. change (wrap 8 0) with 0. change (wrap 16 0) with 0.
  set (rest := terminated u os ++ terminated u lm ++ terminated u domain).
  assert (0 < len rest) as Hrest.
  { unfold rest. rewrite !len_app. pose proof (terminated_nonempty u os).
    pose proof (terminated_nonempty u lm). pose proof (terminated_nonempty u domain). lia. }
  pose proof (len_nonneg padding). rewrite !len_app.
  rewrite (proj2 (Z.ltb_ge _ _)) by lia.
  assert ((if 0 <? len blob then
      let! buf := make (len blob) in
      let! s := slice (blob ++ padding ++ rest) 0 (len blob) in copy_at buf 0 (len buf) s
    else Ok []) = Ok blob) as ->.
  { destruct (Z.ltb_spec 0 (len blob)); [|by rewrite (len_0_nil blob) by lia].
    rewrite copy_of_slice by lia. by apply slice_prefix. }
  cbn [bind]. cbv zeta.
  assert (setup_strings_offset u (blob ++ padding ++ rest) (len blob) = len (blob ++ padding)) as ->.
  { unfold setup_strings_offset. rewrite !len_app. rewrite (proj2 (Z.ltb_lt _ _)) by lia.
    unfold padding. destruct u; cbn [andb]; [|rewrite len_nil; lia]. rewrite len_pad.
    pose proof (Z.mod_pos_bound (len blob) 2 eq_refl).
    destruct (Z.eqb_spec (len blob mod 2) 0); cbn [negb]; lia. }
  rewrite app_assoc. unfold rest.
  rewrite read_string_text by done. cbn [bind].
  rewrite (app_assoc (blob ++ padding)), read_string_text by done. cbn [bind].
  rewrite (app_assoc ((blob ++ padding) ++ _)), <- (app_nil_r (terminated u domain)).
  rewrite read_string_text by done. done.
Qed.

Lemma DecodeSessionSetupResponse_fields_witness :
  DecodeSessionSetupResponse (setup_reply_params 1 0)
    (setup_reply_data false [] [] (str "Unix") (str "Samba") (str "WORKGROUP")) false =
  Ok (mkSessionSetupResponse 255 0 0 1 0 [] (str "Unix") (str "Samba") (str "WORKGROUP")).
Proof.
  apply (DecodeSessionSetupResponse_fields false 1 [] (str "Unix") (str "Samba") (str "WORKGROUP"));
    first [apply readable_by; vm_compute; reflexivity|vm_compute; first [reflexivity|split; [discriminate|reflexivity]]].
Defined.

(** The decoder of session setup replies takes their Unicode strings to
    start at an even offset of the byte area, which is an odd offset of the
    message for the word counts such replies have (3 or 4): never where the
    protocol, and this client's own requests, align them.  A reply with its
    strings aligned in the message is misread: a server that calls itself "Unix"
    is not reported as such. *)
Theorem setup_strings_misaligned :
  (forall (params data : bytes) blobLength,
     len params = 6 \/ len params = 8 -> 0 <= blobLength < len data ->
     (HeaderSize + 1 + len params + 2 + setup_strings_offset true data blobLength) mod 2 = 1) /\
  (let params := setup_reply_params 0 (len (str "blob")) in
   let start := HeaderSize + 1 + len params + 2 + len (str "blob") in
   exists r, DecodeSessionSetupResponse params
       (setup_reply_data true (str "blob") (pad start) (str "Unix") (str "Samba") []) true = Ok r
     /\ sr_NativeOS r <> str "Unix").
Proof.
  split.
  - intros params data n Hp Hn. unfold setup_strings_offset, HeaderSize. cbn [andb].
    rewrite (proj2 (Z.ltb_lt _ _)) by lia. cbn [andb].
    destruct (Z.eqb_spec (n mod 2) 0); cbn [negb]; destruct Hp as [-> | ->];
      Z.to_euclidean_division_equations; lia.
  - eexists. split; [vm_compute; reflexivity|]. cbn [sr_NativeOS]. discriminate.
Qed.

(** The reply to a tree connect. *)
Definition tree_reply_params (support : Z) : bytes :=
  [Byte.xff] ++ [Byte.x00] ++ le_put 2 0 ++ le_put 2 support.

(** The same misalignment in replies to tree connects: their file system
    name is looked for at an even offset of the byte area, an odd offset of the
    message, so that the name a server aligns in the message after the service
    "A:" of a disk share is misread. *)
Theorem tree_file_system_misaligned :
  let params := tree_reply_params 1 in
  let start := HeaderSize + 1 + len params + 2 + len (terminated false (str "A:")) in
  let data := terminated false (str "A:") ++ pad start ++ terminated true (str "NTFS") in
  start mod 2 = 0 /\
  exists r, DecodeTreeConnectResponse params data true = Ok r
    /\ tr_Service r = str "A:" /\ tr_NativeFileSystem r <> str "NTFS".
Proof.
  split; [reflexivity|]. eexists. split; [vm_compute; reflexivity|].
  cbn [tr_Service tr_NativeFileSystem]. split; [reflexivity|discriminate].
Qed.

Lemma setup_strings_misaligned_witness :
  (HeaderSize + 1 + 8 + 2 + setup_strings_offset true (replicate 9 Byte.x00) 4) mod 2 = 1.
Proof.
  exact (proj1 setup_strings_misaligned (replicate 8 Byte.x00) (replicate 9 Byte.x00) 4
    (or_intror eq_refl) ltac:(split; [discriminate|reflexivity])).
Defined.

(** ** Negotiation *)

Lemma dialects_data_eq ds acc :
  dialects_data ds acc = acc ++ (ds ≫= fun d => [Byte.x02] ++ d ++ [Byte.x00]).
Proof.
  revert acc. induction ds as [|d ds IH]; intros acc; cbn [dialects_data mbind list_bind].
  - by rewrite app_nil_r.
  - rewrite IH. by rewrite <- !app_assoc.
Qed.

(** What a server does with the dialects of the request: from [offset], a format
    byte and a null-terminated string, again and again. *)
Fixpoint read_dialects (fuel : nat) (data : bytes) (offset : Z) : res (list bytes) :=
  match fuel with
  | O => Panic
  | S fuel =>
    if offset <? len data then
      let! f := idx8 data offset in
      if negb (f =? 2) then Err (Errorf "bad format") else
      let! (s, o) := read_ascii data (offset + 1) in
      let! t := read_dialects fuel data o in Ok (s :: t)
    else Ok []
  end.

Lemma read_dialects_data ds : Forall (fun d : bytes => Byte.x00 ∉ d) ds ->
  forall fuel (pre : bytes), (length ds < fuel)%nat ->
  read_dialects fuel (pre ++ (ds ≫= fun d => [Byte.x02] ++ d ++ [Byte.x00])) (len pre) = Ok ds.
Proof.
  induction 1 as [|d ds Hd _ IH]; intros fuel pre Hf; (destruct fuel as [|fuel]; [cbn in Hf; lia|]);
    cbn [read_dialects mbind list_bind].
  - rewrite app_nil_r, Z.ltb_irrefl. done.
  - set (tail := ds ≫= _). pose proof (len_nonneg tail). pose proof (len_nonneg d).
    rewrite (proj2 (Z.ltb_lt _ _)) by offsets. cbn [app]. rewrite idx8_at by done. cbn [bind].
    change (negb (u8 Byte.x02 =? 2)) with false. cbv iota.
    change (pre ++ Byte.x02 :: (d ++ [Byte.x00]) ++ tail)
      with (pre ++ [Byte.x02] ++ (d ++ [Byte.x00]) ++ tail).
    rewrite app_assoc. replace (len pre + 1) with (len (pre ++ [Byte.x02])) by offsets.
    rewrite <- (app_assoc d), read_ascii_text by done. cbn [bind].
    replace ((pre ++ [Byte.x02]) ++ d ++ [Byte.x00] ++ tail)
      with ((pre ++ [Byte.x02] ++ d ++ [Byte.x00]) ++ tail) by (by rewrite <- !app_assoc).
    replace (len (pre ++ [Byte.x02]) + len d + 1) with (len (pre ++ [Byte.x02] ++ d ++ [Byte.x00])) by offsets.
    unfold tail. rewrite IH by (cbn in Hf; lia). done.
Qed.

(** A negotiate request offers exactly the dialects it was given, in order,
    to a server that reads format bytes and null-terminated strings. *)
Theorem EncodeNegotiateRequest_dialects ds :
  ds <> [] -> Forall (fun d : bytes => Byte.x00 ∉ d) ds ->
  (let! (p, d) := EncodeNegotiateRequest ds in read_dialects (S (length ds)) d 0) = Ok ds.
Proof.
  intros Hn Hd. unfold EncodeNegotiateRequest.
  destruct (Z.eqb_spec (len ds) 0) as [E|_]; [by apply len_0_nil in E|]. cbn [bind].
  rewrite dialects_data_eq, app_nil_l.
  exact (read_dialects_data ds Hd (S (length ds)) [] (Nat.lt_succ_diag_r _)).
Qed.

Lemma EncodeNegotiateRequest_dialects_witness :
  (let! (p, d) := EncodeNegotiateRequest DefaultDialects in read_dialects 4 d 0) = Ok DefaultDialects.
Proof.
  apply (EncodeNegotiateRequest_dialects DefaultDialects); [discriminate|].
  apply (bool_decide_unpack _). vm_compute. exact I.
Defined.

(** A reply, field by field. *)
Definition negotiate_params (r : NegotiateResponse) : bytes :=
  le_put 2 (ng_DialectIndex r) ++ [byte_of (ng_SecurityMode r)] ++ le_put 2 (ng_MaxMpxCount r)
  ++ le_put 2 (ng_MaxNumberVcs r) ++ le_put 4 (ng_MaxBufferSize r) ++ le_put 4 (ng_MaxRawSize r)
  ++ le_put 4 (ng_SessionKey r) ++ le_put 4 (ng_Capabilities r) ++ le_put 8 (ng_SystemTime r)
  ++ le_put 2 (ng_ServerTimeZone r) ++ [byte_of (ng_ChallengeLength r)].

Record negotiate_wf (r : NegotiateResponse) : Prop := {
  ngw_dialect : 0 <= ng_DialectIndex r < 0xFFFF;
  ngw_mode : 0 <= ng_SecurityMode r < 2 ^ 8;
  ngw_mpx : 0 <= ng_MaxMpxCount r < 2 ^ 16;
  ngw_vcs : 0 <= ng_MaxNumberVcs r < 2 ^ 16;
  ngw_buffer : 0 <= ng_MaxBufferSize r < 2 ^ 32;
  ngw_raw : 0 <= ng_MaxRawSize r < 2 ^ 32;
  ngw_key : 0 <= ng_SessionKey r < 2 ^ 32;
  ngw_caps : 0 <= ng_Capabilities r < 2 ^ 32;
  ngw_time : 0 <= ng_SystemTime r < 2 ^ 64;
  ngw_zone : - 2 ^ 15 <= ng_ServerTimeZone r < 2 ^ 15;
  ngw_challenge : ng_ChallengeLength r = len (ng_Challenge r) /\ len (ng_Challenge r) < 2 ^ 8;
}.

Lemma int16_wrap z : - 2 ^ 15 <= z < 2 ^ 15 -> int16 (wrap 16 z) = z.
Proof.
  intros Hz. unfold int16, wrap. destruct (Z.ltb_spec (z mod 2 ^ 16) (2 ^ 15));
    Z.to_euclidean_division_equations; lia.
Qed.

(** The decoder after the fixed part. *)
Lemma DecodeNegotiateResponse_params r (data : bytes) :
  negotiate_wf r ->
  let resp := mkNegotiateResponse (ng_DialectIndex r) (ng_SecurityMode r) (ng_MaxMpxCount r)
    (ng_MaxNumberVcs r) (ng_MaxBufferSize r) (ng_MaxRawSize r) (ng_SessionKey r) (ng_Capabilities r)
    (ng_SystemTime r) (ng_ServerTimeZone r) (ng_ChallengeLength r) in
  ng_ChallengeLength r <= len data ->
  DecodeNegotiateResponse (negotiate_params r) data =
  let! challenge := slice data 0 (ng_ChallengeLength r) in
  if negb (Z.land (ng_Capabilities r) CAP_EXTENDED_SECURITY =? 0) then
    if serverGUIDLength <=? len data then
      let! guid := slice data 0 serverGUIDLength in
      let! blob := slice data serverGUIDLength (len data) in
      Ok (resp challenge [] [] guid blob)
    else Ok (resp challenge [] [] [] [])
  else
    let offset := ng_ChallengeLength r in
    let! u := actually_unicode data (negb (Z.land (ng_Capabilities r) CAP_UNICODE =? 0)) offset in
    let offset := if u && negb (offset mod 2 =? 0) then offset + 1 else offset in
    let! (domainName, offset) := read_string u data offset in
    let! (serverName, _) := read_string u data offset in
    Ok (resp challenge domainName serverName [] []).
Proof.
  intros [? ? ? ? ? ? ? ? ? ? [Hc1 Hc2]] resp Hl. unfold DecodeNegotiateResponse, negotiate_params.
  pose proof (len_nonneg (ng_Challenge r)).
  rewrite (proj2 (Z.ltb_ge _ 34)) by (autorewrite with len; lia).
  rewrite <- (app_nil_r [byte_of (ng_ChallengeLength r)]). wire_read.
  rewrite int16_wrap by done. rewrite !(wrap_small 16), !(wrap_small 32), (wrap_small 64), !(wrap_small 8) by lia.
  rewrite (proj2 (Z.eqb_neq _ _)) by lia. rewrite (proj2 (Z.ltb_ge _ _)) by lia.
  rewrite copy_of_slice by lia. destruct (slice data 0 (ng_ChallengeLength r)) as [ch| |]; [|done|done].
  cbn [bind]. destruct (negb _); [|done]. destruct (_ <=? _); [|done].
  unfold serverGUIDLength at 1. rewrite copy_of_slice by done. done.
Qed.

(** A negotiate reply is decoded into its fields: every number in its
    width, the time zone with its sign, the challenge, and after it the names of
    an ASCII server, or, from a server with extended security, its GUID and its
    security token and no names. *)
Theorem DecodeNegotiateResponse_fields r :
  negotiate_wf r ->
  (Z.land (ng_Capabilities r) CAP_EXTENDED_SECURITY <> 0 ->
   ng_ChallengeLength r = 0 -> ng_DomainName r = [] -> ng_ServerName r = [] ->
   len (ng_ServerGUID r) = serverGUIDLength ->
   DecodeNegotiateResponse (negotiate_params r) (ng_ServerGUID r ++ ng_SecurityBlob r) = Ok r) /\
  (Z.land (ng_Capabilities r) CAP_EXTENDED_SECURITY = 0 -> Z.land (ng_Capabilities r) CAP_UNICODE = 0 ->
   ng_ServerGUID r = [] -> ng_SecurityBlob r = [] ->
   readable false (ng_DomainName r) -> readable false (ng_ServerName r) ->
   DecodeNegotiateResponse (negotiate_params r)
     (ng_Challenge r ++ terminated false (ng_DomainName r) ++ terminated false (ng_ServerName r)) = Ok r).
Proof.
  intros Hwf. pose proof (ngw_challenge r Hwf) as [Hc1 Hc2]. pose proof (len_nonneg (ng_Challenge r)).
  split.
  - intros Hx H0 Hd Hs Hg. pose proof (len_nonneg (ng_SecurityBlob r)).
    rewrite DecodeNegotiateResponse_params by (first [done|rewrite len_app; unfold serverGUIDLength in *; lia]).
    rewrite H0. assert (slice (ng_ServerGUID r ++ ng_SecurityBlob r) 0 0 = Ok []) as ->
      by (rewrite slice_ok by (rewrite ?len_app; unfold serverGUIDLength in *; lia); done). cbn [bind].
    rewrite (proj2 (Z.eqb_neq _ 0)) by done. cbn [negb].
    rewrite len_app, Hg. rewrite (proj2 (Z.leb_le _ _)) by lia.
    rewrite slice_prefix by done. cbn [bind]. rewrite slice_suffix by lia. cbn [bind].
    destruct r; cbn in *. subst. rewrite (len_0_nil ng_Challenge0) by lia. done.
  - intros Hx Hu Hg Hb H1 H2.
    pose proof (terminated_nonempty false (ng_DomainName r)).
    pose proof (terminated_nonempty false (ng_ServerName r)).
    rewrite DecodeNegotiateResponse_params by (first [done|rewrite !len_app; lia]).
    rewrite slice_prefix by done. cbn [bind]. rewrite Hx, Hu. cbn [negb Z.eqb actually_unicode andb bind].
    rewrite Hc1 at 1. rewrite read_string_text by done. cbn [bind].
    rewrite app_assoc, <- (app_nil_r (terminated false (ng_ServerName r))).
    rewrite read_string_text by done. cbn [bind]. destruct r; cbn in *. by subst.
Qed.

Definition example_negotiate : NegotiateResponse :=
  mkNegotiateResponse 0 3 50 1 16644 65536 0 0x80000254 132000000000000000 (-60) 0 []
    [] [] (replicate 16 Byte.x41) (str "token").

Lemma DecodeNegotiateResponse_fields_witness :
  DecodeNegotiateResponse (negotiate_params example_negotiate) (replicate 16 Byte.x41 ++ str "token")
  = Ok example_negotiate.
Proof.
  refine (proj1 (DecodeNegotiateResponse_fields example_negotiate _) _ _ _ _ _); try reflexivity.
  - split; vm_compute; split; try discriminate; reflexivity.
  - vm_compute. discriminate.
Defined.
