(* ===== verification/Rap.v ===== *)
(** * TRANSACTION requests and RAP ([internal/smb1/rap.go])

    The byte area of a TRANSACTION request (name, parameters, data, each
    aligned), the requests that use it (RAP calls by pipe name, RPC over an open
    pipe), and the RAP reply that lists shares. *)

From S2P Require Export Trans2.

(** ** Constants *)

Definition RAP_NetShareEnum : Z := 0x0000.
Definition ParamDescriptorNetShareEnum : bytes := str "WrLeh".
Definition DataDescriptorNetShareEnumLevel1 : bytes := str "B13BWz".
Definition TransactNamedPipeName : bytes := str "\PIPE\".
Definition RAPPipeName : bytes := str "\PIPE\LANMAN".
Definition transactionByteAreaOffset : Z := HeaderSize + 1 + 28 + 4 + 2.

(** ** RAP requests *)

Record NetShareEnumRequest := mkNetShareEnumRequest { ne_InfoLevel : Z; ne_ReceiveBuf : Z }.

Definition EncodeRAPRequest (functionCode : Z) (paramDesc dataDesc params data : bytes)
  : res (bytes * bytes) :=
  let paramDescBytes := paramDesc ++ [Byte.x00] in
  let dataDescBytes := dataDesc ++ [Byte.x00] in
  let! funcCodeBytes := make 2 in
  let! funcCodeBytes := put16 funcCodeBytes 0 (len funcCodeBytes) functionCode in
  Ok (((([] ++ funcCodeBytes) ++ paramDescBytes) ++ dataDescBytes) ++ params, data).

Definition EncodeNetShareEnumRequest (req : option NetShareEnumRequest) : res (bytes * bytes) :=
  match req with
  | None => Err (Errorf "smb1: NetShareEnum request is nil")
  | Some req =>
    let! params := make 4 in
    let! params := put16 params 0 2 (ne_InfoLevel req) in
    let! params := put16 params 2 4 (ne_ReceiveBuf req) in
    if ne_InfoLevel req =? 1 then
      EncodeRAPRequest RAP_NetShareEnum ParamDescriptorNetShareEnum
        DataDescriptorNetShareEnumLevel1 params []
    else Err (Errorf "smb1: unsupported NetShareEnum info level")
  end.

(** ** RAP replies *)

Record ShareInfo1 := mkShareInfo1 { sh_Name : bytes; sh_Type : Z; sh_Comment : bytes }.

Record NetShareEnumResponse := mkNetShareEnumResponse {
  ner_Converter : Z;
  ner_EntryCount : Z;
  ner_Available : Z;
  ner_Shares : list ShareInfo1;
}.

Definition DecodeRAPResponse (params data : bytes) : res (Z * bytes * bytes) :=
  if len params <? 4 then Err (Errorf "smb1: RAP response too short") else
  let! status := u16 params 0 2 in
  let! rest := slice params 2 (len params) in
  Ok (status, rest, data).

(** The bytes before the first null byte, if there is one. *)
Fixpoint before_nul (data : bytes) : option bytes :=
  match data with
  | [] => None
  | b :: t => if u8 b =? 0 then Some [] else match before_nul t with
                                              | Some s => Some (b :: s)
                                              | None => None
                                              end
  end.

Definition parseNullPaddedString (data : bytes) : bytes :=
  match before_nul data with Some s => s | None => data end.

Definition parseNullTerminatedString (data : bytes) : res bytes :=
  match before_nul data with
  | Some s => Ok s
  | None => Err (Errorf "smb1: no null terminator found in string")
  end.

(** The comment an entry points at; a pointer out of the data, or to an
    unterminated string, leaves it empty. *)
Definition share_comment (data : bytes) (commentPtr converter : Z) : res bytes :=
  if negb (commentPtr =? 0) then
    let commentOffset := commentPtr - converter in
    if (0 <=? commentOffset) && (commentOffset <? len data) then
      let! s := slice data commentOffset (len data) in
      match parseNullTerminatedString s with
      | Ok comment => Ok comment
      | Err _ => Ok []
      | Panic => Panic
      end
    else Ok []
  else Ok [].

(** The loop, with [n] entries to go at [offset]. *)
Fixpoint parse_shares (n : nat) (data : bytes) (converter offset : Z) (shares : list ShareInfo1)
  : res (list ShareInfo1) :=
  match n with
  | O => Ok shares
  | S n =>
    if len data <? offset + 20 then Err (Errorf "smb1: insufficient data for share entry") else
    let! nameBytes := slice data offset (offset + 13) in
    let! type := u16 data (offset + 14) (offset + 16) in
    let! commentPtr := u32 data (offset + 16) (offset + 20) in
    let! comment := share_comment data commentPtr converter in
    parse_shares n data converter (offset + 20)
      (shares ++ [mkShareInfo1 (parseNullPaddedString nameBytes) type comment])
  end.

Definition parseShareInfo1 (data : bytes) (count converter : Z) : res (list ShareInfo1) :=
  parse_shares (Z.to_nat count) data converter 0 [].

Definition DecodeNetShareEnumResponse (params data : bytes) (infoLevel : Z)
  : res NetShareEnumResponse :=
  if len params <? 8 then Err (Errorf "smb1: NetShareEnum response too short") else
  let! status := u16 params 0 2 in
  if negb (status =? 0) then Err (Errorf "smb1: NetShareEnum failed with status") else
  let! converter := u16 params 2 4 in
  let! entryCount := u16 params 4 6 in
  let! available := u16 params 6 8 in
  if infoLevel =? 1 then
    match parseShareInfo1 data entryCount converter with
    | Ok shares => Ok (mkNetShareEnumResponse converter entryCount available shares)
    | Err e => Err (Wrapf "smb1: failed to parse share info" e)
    | Panic => Panic
    end
  else Err (Errorf "smb1: unsupported NetShareEnum info level").

(** ** TRANSACTION requests *)

Definition encodeSMBString (s : bytes) (useUnicode : bool) : res bytes := encode_name useUnicode s.

(** The closure [pad]. *)
Definition pad_area (area : bytes) : bytes :=
  if negb ((transactionByteAreaOffset + len area) mod 2 =? 0) then area ++ [Byte.x00] else area.

Definition buildTransactionByteArea (name params data : bytes) (useUnicode : bool)
  : res (bytes * Z * Z) :=
  let area := [] in
  let area := if useUnicode then pad_area area else area in
  let! nameBytes := encodeSMBString name useUnicode in
  let area := area ++ nameBytes in
  let area := pad_area area in
  let paramOffset := wrap 16 (transactionByteAreaOffset + len area) in
  let area := area ++ params in
  let area := pad_area area in
  let dataOffset := wrap 16 (transactionByteAreaOffset + len area) in
  let area := area ++ data in
  Ok (area, paramOffset, dataOffset).

(** The fixed parameters, which both requests fill in alike. *)
Definition transaction_fixed (paramCount dataCount maxParameterCount maxDataCount paramOffset
    dataOffset : Z) : res bytes :=
  let! fixedParams := make 28 in
  let! fixedParams := put16 fixedParams 0 2 paramCount in
  let! fixedParams := put16 fixedParams 2 4 dataCount in
  let! fixedParams := put16 fixedParams 4 6 maxParameterCount in
  let! fixedParams := put16 fixedParams 6 8 maxDataCount in
  let! fixedParams := put8 fixedParams 8 0 in
  let! fixedParams := put8 fixedParams 9 0 in
  let! fixedParams := put16 fixedParams 10 12 0 in
  let! fixedParams := put32 fixedParams 12 16 0 in
  let! fixedParams := put16 fixedParams 16 18 0 in
  let! fixedParams := put16 fixedParams 18 20 paramCount in
  let! fixedParams := put16 fixedParams 20 22 paramOffset in
  let! fixedParams := put16 fixedParams 22 24 dataCount in
  let! fixedParams := put16 fixedParams 24 26 dataOffset in
  let! fixedParams := put8 fixedParams 26 2 in
  put8 fixedParams 27 0.

Definition EncodeTransactionRequest (name params data : bytes) (maxDataCount : Z) (useUnicode : bool)
  : res (bytes * bytes) :=
  let paramCount := wrap 16 (len params) in
  let dataCount := wrap 16 (len data) in
  let! (dataSection, paramOffset, dataOffset) := buildTransactionByteArea name params data useUnicode in
  let! fixedParams := transaction_fixed paramCount dataCount TransactionMaxParameterCount
    maxDataCount paramOffset dataOffset in
  let! setupBytes := make 4 in
  Ok (fixedParams ++ setupBytes, dataSection).

Definition EncodeTransactNamedPipeRequest (fid : Z) (data : bytes) (maxDataCount : Z)
    (useUnicode : bool) : res (bytes * bytes) :=
  let paramCount := 0 in
  let dataCount := wrap 16 (len data) in
  let! (dataSection, paramOffset, dataOffset) :=
    buildTransactionByteArea TransactNamedPipeName [] data useUnicode in
  let! fixedParams := transaction_fixed paramCount dataCount 0 maxDataCount paramOffset dataOffset in
  let! setupBytes := make 4 in
  let! setupBytes := put16 setupBytes 0 2 0x0026 in
  let! setupBytes := put16 setupBytes 2 4 fid in
  Ok (fixedParams ++ setupBytes, dataSection).

Definition DecodeTransactionResponse := DecodeTrans2Response.

(** ** Lemmas *)

Lemma before_nul_app (s t : bytes) : Byte.x00 ∉ s -> before_nul (s ++ Byte.x00 :: t) = Some s.
Proof.
  induction s as [|b s IH]; [done|]. intros [Hb Hs]%not_elem_of_cons. cbn [app before_nul].
  destruct (Z.eqb_spec (u8 b) 0) as [E|_]; [by apply Z.eqb_eq, u8_eqb_0 in E|]. by rewrite IH.
Qed.

Lemma before_nul_none (s : bytes) : Byte.x00 ∉ s -> before_nul s = None.
Proof.
  induction s as [|b s IH]; [done|]. intros [Hb Hs]%not_elem_of_cons. cbn [before_nul].
  destruct (Z.eqb_spec (u8 b) 0) as [E|_]; [by apply Z.eqb_eq, u8_eqb_0 in E|]. by rewrite IH.
Qed.

Lemma safe_share_comment data p c : safe (share_comment data p c).
Proof.
  unfold share_comment. pose proof (len_nonneg data). safe_tac.
  match goal with |- safe (match ?x with _ => _ end) => unfold parseNullTerminatedString; by destruct (before_nul _) end
  || (unfold parseNullTerminatedString in *; by destruct (before_nul _)).
Qed.
#[export] Hint Resolve safe_share_comment : safe.

Lemma safe_parse_shares n data converter offset shares :
  0 <= offset -> safe (parse_shares n data converter offset shares).
Proof.
  revert offset shares. induction n as [|n IH]; intros offset shares Ho; cbn [parse_shares]; [done|].
  safe_tac. apply IH. lia.
Qed.

(** No reply makes the decoders of TRANSACTION replies panic. *)
Lemma rap_decoders_total (params data : bytes) level :
  safe (DecodeRAPResponse params data) /\ safe (DecodeNetShareEnumResponse params data level) /\
  safe (DecodeTransactionResponse params data).
Proof.
  split_and!.
  - unfold DecodeRAPResponse. safe_tac.
  - unfold DecodeNetShareEnumResponse. safe_tac.
    all: match goal with H : parseShareInfo1 _ _ _ = Panic |- _ =>
      exfalso; revert H; apply safe_parse_shares; lia | _ => idtac end.
  - apply safe_DecodeTrans2Response.
Qed.

(** ** The layout of requests *)

(** The byte area, with its three paddings. *)
Definition area_prefix (u : bool) (name : bytes) : bytes :=
  (if u then pad transactionByteAreaOffset else []) ++ name_bytes u name.

Lemma pad_area_eq area : pad_area area = area ++ pad (transactionByteAreaOffset + len area).
Proof.
  unfold pad_area, pad. pose proof (Z.mod_pos_bound (transactionByteAreaOffset + len area) 2 eq_refl).
  destruct (Z.eqb_spec ((transactionByteAreaOffset + len area) mod 2) 0) as [E|E]; cbn [negb].
  - rewrite E. by rewrite app_nil_r.
  - by replace ((transactionByteAreaOffset + len area) mod 2) with 1 by lia.
Qed.

Lemma buildTransactionByteArea_eq name params data u :
  let start := transactionByteAreaOffset + len (area_prefix u name) in
  let po := start + start mod 2 in
  let dofs := po + len params + (po + len params) mod 2 in
  buildTransactionByteArea name params data u =
  Ok (area_prefix u name ++ pad start ++ params ++ pad (po + len params) ++ data,
      wrap 16 po, wrap 16 dofs).
Proof.
  intros start po dofs. unfold buildTransactionByteArea, encodeSMBString. cbv zeta.
  rewrite encode_name_eq. cbn [bind].
  assert ((if u then pad_area [] else []) ++ name_bytes u name = area_prefix u name) as ->.
  { unfold area_prefix. destruct u; [|done]. rewrite pad_area_eq. by rewrite len_nil, Z.add_0_r. }
  rewrite !(pad_area_eq (area_prefix u name)). fold start.
  assert (transactionByteAreaOffset + len (area_prefix u name ++ pad start) = po) as Hpo
    by (rewrite len_app, len_pad; unfold po, start; lia).
  rewrite Hpo. rewrite pad_area_eq.
  assert (transactionByteAreaOffset + len ((area_prefix u name ++ pad start) ++ params)
    = po + len params) as -> by (rewrite len_app; lia).
  assert (transactionByteAreaOffset
      + len (((area_prefix u name ++ pad start) ++ params) ++ pad (po + len params)) = dofs) as ->
    by (rewrite !len_app, !len_pad in *; unfold dofs; lia).
  by rewrite <- !app_assoc.
Qed.

Lemma transaction_fixed_eq pc dc mp md po dofs :
  transaction_fixed pc dc mp md po dofs =
  Ok (le_put 2 pc ++ le_put 2 dc ++ le_put 2 mp ++ le_put 2 md ++ [byte_of 0] ++ [byte_of 0]
      ++ le_put 2 0 ++ le_put 4 0 ++ le_put 2 0 ++ le_put 2 pc ++ le_put 2 po ++ le_put 2 dc
      ++ le_put 2 dofs ++ [byte_of 2] ++ [byte_of 0]).
Proof.
  unfold transaction_fixed. rewrite (make_zeros 28 28) by done. cbn [bind]. unfold put16, put32.
  repeat enc_step. cbn [replicate Nat.sub]. by rewrite <- !app_assoc.
Qed.

(** A request with [setup] words: what a server finds in the packet. *)
Lemma transaction_packet h (name params data setup : bytes) u mp md :
  Header_wf h -> len setup = 4 ->
  72 + len (name_bytes u name) + len params + len data <= 2 ^ 16 ->
  exists po dofs area fixed raw,
    buildTransactionByteArea name params data u = Ok (area, po, dofs) /\
    transaction_fixed (wrap 16 (len params)) (wrap 16 (len data)) mp md po dofs = Ok fixed /\
    EncodePacket (Some h) (fixed ++ setup) area = Ok raw /\
    u16 raw 51 53 = Ok (len params) /\ u16 raw 53 55 = Ok po /\
    u16 raw 55 57 = Ok (len data) /\ u16 raw 57 59 = Ok dofs /\
    po mod 2 = 0 /\ dofs mod 2 = 0 /\
    slice raw po (po + len params) = Ok params /\ slice raw dofs (dofs + len data) = Ok data /\
    len raw = dofs + len data /\ slice raw 61 65 = Ok setup /\
    slice raw (if u then 68 else 67) ((if u then 68 else 67) + len (name_bytes u name))
      = Ok (name_bytes u name).
Proof.
  intros Hh Hs Hsize. pose proof (len_Header_bytes h Hh) as HL. unfold HeaderSize in HL.
  pose proof (buildTransactionByteArea_eq name params data u) as E. cbv zeta in E.
  set (start := transactionByteAreaOffset + len (area_prefix u name)) in E.
  set (po := start + start mod 2) in E. set (dofs := po + len params + (po + len params) mod 2) in E.
  pose proof (len_nonneg params). pose proof (len_nonneg data). pose proof (len_nonneg (name_bytes u name)).
  assert (len (area_prefix u name) = (if u then 1 else 0) + len (name_bytes u name)) as Hap
    by (unfold area_prefix; destruct u; by rewrite len_app, ?len_pad, ?len_nil).
  assert (start = 67 + (if u then 1 else 0) + len (name_bytes u name)) as Hstart
    by (unfold start; rewrite Hap; unfold transactionByteAreaOffset, HeaderSize; lia).
  assert (po = start + start mod 2) as Hpo by done. assert (dofs = po + len params + (po + len params) mod 2) as Hdofs by done.
  clearbody dofs. clearbody po. clearbody start.
  pose proof (Z.mod_pos_bound start 2 eq_refl). pose proof (Z.mod_pos_bound (po + len params) 2 eq_refl).
  assert (0 <= po < 2 ^ 16 /\ 0 <= dofs < 2 ^ 16 /\ dofs + len data < 2 ^ 16 + 8) as (Hp1 & Hd1 & Hd2)
    by (destruct u; lia).
  rewrite (wrap_small 16 po), (wrap_small 16 dofs) in E by done.
  exists po, dofs. eexists _, _, _. split; [exact E|]. split; [apply transaction_fixed_eq|].
  assert (forall a b : bytes, len a = 28 -> len (a ++ setup) = 32) as Hfl by (intros a _ Ha; rewrite len_app; lia).
  split.
  { apply EncodePacket_eq; [done|..]; rewrite ?Hfl by done; [done|done|].
    rewrite !len_app, !len_pad, Hap. unfold MaxDataSize. destruct u; lia. }
  unfold Packet_bytes. set (bc := le_put 2 (len _ mod 2 ^ 16)). set (w := byte_of (_ / 2)).
  assert (len bc = 2) as Hbc by apply len_le_put. clearbody bc w. rewrite <- !app_assoc.
  split_and!; try (Z.to_euclidean_division_equations; lia).
  all: unfold area_prefix; rewrite <- ?app_assoc;
    set (pu := if u then pad transactionByteAreaOffset else []);
    assert (len pu = if u then 1 else 0) as Hpu by (unfold pu; by destruct u); clearbody pu;
    set (nb := name_bytes u name) in *; clearbody nb;
    destruct u; wire_read; rewrite ?(wrap_small 16 (len params)), ?(wrap_small 16 (len data)),
      ?wrap_small by lia; try reflexivity;
    try (by rewrite slice_whole by offsets); try offsets.
Qed.

(** A RAP request finds its pipe, its parameters and its data: in the
    encoded packet the name is where a TRANSACTION has it, at an even offset if
    it is Unicode, and at the even offsets its ParameterOffset and DataOffset
    fields hold lie exactly the parameters and the data. *)
Theorem EncodeTransactionRequest_layout h name params data maxDataCount u :
  Header_wf h -> 72 + len (name_bytes u name) + len params + len data <= 2 ^ 16 ->
  exists p d raw po dofs,
    EncodeTransactionRequest name params data maxDataCount u = Ok (p, d) /\
    EncodePacket (Some h) p d = Ok raw /\
    u16 raw 51 53 = Ok (len params) /\ u16 raw 53 55 = Ok po /\
    u16 raw 55 57 = Ok (len data) /\ u16 raw 57 59 = Ok dofs /\ po mod 2 = 0 /\ dofs mod 2 = 0 /\
    slice raw po (po + len params) = Ok params /\ slice raw dofs (dofs + len data) = Ok data /\
    slice raw (if u then 68 else 67) ((if u then 68 else 67) + len (name_bytes u name))
      = Ok (name_bytes u name).
Proof.
  intros Hh Hsize.
  destruct (transaction_packet h name params data (replicate 4 Byte.x00) u
    TransactionMaxParameterCount maxDataCount Hh eq_refl Hsize)
    as (po & dofs & area & fixed & raw & E1 & E2 & E3 & H1 & H2 & H3 & H4 & H5 & H6 & H7 & H8 & _ & _ & H9).
  exists (fixed ++ replicate 4 Byte.x00), area, raw, po, dofs. split; [|by repeat split].
  unfold EncodeTransactionRequest. rewrite E1. cbn [bind]. by rewrite E2.
Qed.

Lemma EncodeTransactionRequest_layout_witness :
  exists p d raw po dofs,
    EncodeTransactionRequest RAPPipeName (str "pqr") (str "data") 4096 true = Ok (p, d) /\
    EncodePacket (Some example_header) p d = Ok raw /\
    slice raw po (po + 3) = Ok (str "pqr") /\ slice raw dofs (dofs + 4) = Ok (str "data").
Proof.
  assert (Header_wf example_header) as Hh by (apply NewHeader_wf; split; [discriminate|reflexivity]).
  destruct (EncodeTransactionRequest_layout example_header RAPPipeName (str "pqr") (str "data") 4096 true Hh
    ltac:(vm_compute; discriminate))
    as (p & d & raw & po & dofs & E1 & E2 & _ & _ & _ & _ & _ & _ & E3 & E4 & _).
  exists p, d, raw, po, dofs. exact (conj E1 (conj E2 (conj E3 E4))).
Defined.

(** A named-pipe transaction carries its function code 0x26 and the handle
    of the pipe in its setup words, and its data at DataOffset. *)
Theorem EncodeTransactNamedPipeRequest_layout h fid data maxDataCount u :
  Header_wf h -> 0 <= fid < 2 ^ 16 -> 100 + len data <= 2 ^ 16 ->
  exists p d raw dofs,
    EncodeTransactNamedPipeRequest fid data maxDataCount u = Ok (p, d) /\
    EncodePacket (Some h) p d = Ok raw /\
    u16 raw 61 63 = Ok 0x26 /\ u16 raw 63 65 = Ok fid /\
    u16 raw 55 57 = Ok (len data) /\ u16 raw 57 59 = Ok dofs /\ dofs mod 2 = 0 /\
    slice raw dofs (dofs + len data) = Ok data.
Proof.
  intros Hh Hfid Hsize.
  assert (len (name_bytes u TransactNamedPipeName) <= 16) as Hn by (destruct u; vm_compute; discriminate).
  destruct (transaction_packet h TransactNamedPipeName [] data (le_put 2 0x26 ++ le_put 2 fid) u
    0 maxDataCount Hh eq_refl) as (po & dofs & area & fixed & raw & E1 & E2 & E3 & _ & _ & H3 & H4
      & _ & H6 & _ & H8 & _ & H9 & _); [change (len (@nil byte)) with 0; lia|].
  exists (fixed ++ le_put 2 0x26 ++ le_put 2 fid), area, raw, dofs.
  split; [unfold EncodeTransactNamedPipeRequest; rewrite E1; cbn [bind];
    change (wrap 16 (len (@nil byte))) with 0 in E2; rewrite E2; reflexivity|].
  split; [done|].
  assert (forall lo hi v, 61 <= lo -> hi = lo + 2 -> hi <= 65 ->
    u16 (le_put 2 0x26 ++ le_put 2 fid) (lo - 61) (hi - 61) = Ok v -> u16 raw lo hi = Ok v) as Hsub.
  { intros lo hi v H1 -> H2. pose proof (slice_sub raw _ 61 65 (lo - 61) (lo + 2 - 61) H9) as Hs.
    unfold u16. rewrite Hs by lia. replace (61 + (lo - 61)) with lo by lia.
    by replace (61 + (lo + 2 - 61)) with (lo + 2) by lia. }
  split_and!; try done; apply Hsub; try lia; rewrite <- (app_nil_r (le_put 2 fid)); wire_read;
    rewrite ?wrap_small by lia; done.
Qed.

Lemma EncodeTransactNamedPipeRequest_layout_witness :
  exists p d raw dofs,
    EncodeTransactNamedPipeRequest 0x4001 (str "rpc") 4096 true = Ok (p, d) /\
    EncodePacket (Some example_header) p d = Ok raw /\ u16 raw 63 65 = Ok 0x4001 /\
    slice raw dofs (dofs + 3) = Ok (str "rpc").
Proof.
  assert (Header_wf example_header) as Hh by (apply NewHeader_wf; split; [discriminate|reflexivity]).
  destruct (EncodeTransactNamedPipeRequest_layout example_header 0x4001 (str "rpc") 4096 true Hh
    ltac:(vm_compute; split; [discriminate|reflexivity]) ltac:(vm_compute; discriminate))
    as (p & d & raw & dofs & E1 & E2 & _ & E3 & _ & _ & _ & E4).
  exists p, d, raw, dofs. exact (conj E1 (conj E2 (conj E3 E4))).
Defined.

(** ** Share listings *)

(** The 20 bytes of an entry with comment pointer [ptr]. *)
Definition share_entry (s : ShareInfo1) (ptr : Z) : bytes :=
  sh_Name s ++ replicate (13 - length (sh_Name s)) Byte.x00 ++ [Byte.x00]
  ++ le_put 2 (sh_Type s) ++ le_put 4 ptr.

(** An entry a server may send in [data]: a name of at most 13 bytes, and no
    comment or a pointer to it, moved by the converter. *)
Definition share_in (data : bytes) (converter : Z) (s : ShareInfo1) (ptr : Z) : Prop :=
  (Byte.x00 ∉ sh_Name s) /\ len (sh_Name s) <= 13 /\ 0 <= sh_Type s < 2 ^ 16 /\
  (ptr = 0 /\ sh_Comment s = [] \/
   0 < ptr < 2 ^ 32 /\ (Byte.x00 ∉ sh_Comment s) /\
   exists pre post, data = pre ++ sh_Comment s ++ Byte.x00 :: post /\ len pre = ptr - converter).

Lemma len_share_entry s ptr : len (sh_Name s) <= 13 -> len (share_entry s ptr) = 20.
Proof. intros H. unfold share_entry. autorewrite with len. unfold len in *. lia. Qed.

Lemma share_comment_in data converter s ptr :
  share_in data converter s ptr -> share_comment data ptr converter = Ok (sh_Comment s).
Proof.
  intros (_ & _ & _ & [[-> ->]|(Hp & Hc & pre & post & -> & Hpre)]); [done|].
  unfold share_comment. rewrite (proj2 (Z.eqb_neq _ 0)) by lia. cbn [negb].
  pose proof (len_nonneg pre). pose proof (len_nonneg post). pose proof (len_nonneg (sh_Comment s)).
  rewrite <- Hpre. rewrite (proj2 (Z.leb_le 0 _)) by lia.
  rewrite (proj2 (Z.ltb_lt _ _)) by (autorewrite with len; lia). cbn [andb].
  rewrite slice_suffix by (autorewrite with len; lia). cbn [bind].
  unfold parseNullTerminatedString. by rewrite before_nul_app.
Qed.

Lemma parse_null_padded s k :
  Byte.x00 ∉ s -> parseNullPaddedString (s ++ replicate k Byte.x00) = s.
Proof.
  intros Hs. unfold parseNullPaddedString. destruct k as [|k].
  - rewrite app_nil_r. by rewrite before_nul_none.
  - cbn [replicate]. by rewrite before_nul_app.
Qed.

Lemma parse_shares_entries (sp : list (ShareInfo1 * Z)) converter data :
  Forall (fun x => share_in data converter x.1 x.2) sp ->
  forall pre rest acc, data = pre ++ (sp ≫= (fun x => share_entry x.1 x.2)) ++ rest ->
  parse_shares (length sp) data converter (len pre) acc = Ok (acc ++ sp.*1).
Proof.
  induction 1 as [|[s ptr] sp Hs _ IH]; intros pre rest acc Hd; cbn [length parse_shares fmap list_fmap fst].
  { by rewrite app_nil_r. }
  cbn [mbind list_bind fst snd] in Hd. cbn [fst snd] in Hs. pose proof (share_comment_in _ _ _ _ Hs) as Hc.
  destruct Hs as (Hn & Hl & Ht & Hp).
  assert (0 <= ptr < 2 ^ 32) as Hptr by (destruct Hp as [[-> _]|[? _]]; lia).
  pose proof (len_share_entry s ptr Hl) as He. rewrite <- app_assoc in Hd.
  set (tail := (sp ≫= _) ++ rest) in Hd. pose proof (len_nonneg tail). pose proof (len_nonneg (sh_Name s)).
  assert (len data = len pre + 20 + len tail) as Hlen by (rewrite Hd, !len_app, He; lia).
  rewrite (proj2 (Z.ltb_ge _ _)) by (pose proof (len_nonneg pre); lia).
  set (name := sh_Name s ++ replicate (13 - length (sh_Name s)) Byte.x00).
  assert (len name = 13) as Hname by (unfold name; autorewrite with len; unfold len in *; lia).
  assert (data = pre ++ name ++ [Byte.x00] ++ le_put 2 (sh_Type s) ++ le_put 4 ptr ++ tail) as Hd2
    by (rewrite Hd; unfold share_entry, name; by rewrite <- !app_assoc).
  assert (slice data (len pre) (len pre + 13) = Ok name) as -> by (rewrite Hd2; apply slice_mid; lia).
  cbn [bind].
  assert (u16 data (len pre + 14) (len pre + 16) = Ok (sh_Type s)) as ->
    by (rewrite Hd2; wire_read; by rewrite wrap_small by lia).
  cbn [bind].
  assert (u32 data (len pre + 16) (len pre + 20) = Ok ptr) as ->
    by (rewrite Hd2; wire_read; by rewrite wrap_small by lia).
  cbn [bind]. rewrite Hc. cbn [bind]. unfold name. rewrite parse_null_padded by done.
  replace (len pre + 20) with (len (pre ++ share_entry s ptr)) by (rewrite len_app, He; done).
  rewrite (IH _ rest) by (rewrite Hd; by rewrite <- app_assoc).
  rewrite <- app_assoc. by destruct s.
Qed.

(** A RAP share listing is decoded into its shares: every name, type and
    comment, comments wherever the converted pointers say, and the counts. *)
Theorem DecodeNetShareEnumResponse_shares (sp : list (ShareInfo1 * Z)) rest converter available :
  let data := (sp ≫= (fun x => share_entry x.1 x.2)) ++ rest in
  0 <= converter < 2 ^ 16 -> 0 <= available < 2 ^ 16 -> len sp < 2 ^ 16 ->
  Forall (fun x => share_in data converter x.1 x.2) sp ->
  DecodeNetShareEnumResponse
    (le_put 2 0 ++ le_put 2 converter ++ le_put 2 (len sp) ++ le_put 2 available) data 1 =
  Ok (mkNetShareEnumResponse converter (len sp) available sp.*1).
Proof.
  intros data Hc Ha Hl Hs. pose proof (len_nonneg sp). unfold DecodeNetShareEnumResponse.
  rewrite (proj2 (Z.ltb_ge _ 8)) by (autorewrite with len; lia).
  rewrite <- (app_nil_r (le_put 2 available)). wire_read. change (wrap 16 0) with 0. cbv iota.
  change (negb (0 =? 0)) with false. cbv iota. wire_read. rewrite !(wrap_small 16) by lia.
  change (1 =? 1) with true. cbv iota. unfold parseShareInfo1.
  replace (Z.to_nat (len sp)) with (length sp) by (unfold len; lia).
  pose proof (parse_shares_entries sp converter data Hs [] rest [] eq_refl) as E.
  change (len (@nil byte)) with 0 in E. by rewrite E.
Qed.

(** Two shares of a server, the first with a comment, and their listing. *)
Definition example_shares : list (ShareInfo1 * Z) :=
  [(mkShareInfo1 (str "DATA") 0 (str "files"), 140); (mkShareInfo1 (str "IPC$") 3 [], 0)].

Lemma no_nul s : forallb (fun b => negb (u8 b =? 0)) s = true -> Byte.x00 ∉ s.
Proof.
  intros H Hin. rewrite forallb_forall in H. apply list_elem_of_In in Hin.
  by specialize (H _ Hin).
Qed.

Lemma example_shares_in :
  Forall (fun x => share_in ((example_shares ≫= (fun x => share_entry x.1 x.2)) ++ (str "files" ++ [Byte.x00]))
                     100 x.1 x.2) example_shares.
Proof.
  apply Forall_cons; split; [|apply Forall_singleton].
  - split; [by apply no_nul|]. split; [by vm_compute|]. split; [by vm_compute|].
    right. split; [by vm_compute|]. split; [by apply no_nul|].
    exists (share_entry (mkShareInfo1 (str "DATA") 0 (str "files")) 140
            ++ share_entry (mkShareInfo1 (str "IPC$") 3 []) 0), []. split; vm_compute; reflexivity.
  - split; [by apply no_nul|]. split; [by vm_compute|]. split; [by vm_compute|].
    left. split; reflexivity.
Qed.

Lemma DecodeNetShareEnumResponse_shares_witness :
  let sp := example_shares in
  DecodeNetShareEnumResponse
    (le_put 2 0 ++ le_put 2 100 ++ le_put 2 (len sp) ++ le_put 2 2)
    ((sp ≫= (fun x => share_entry x.1 x.2)) ++ (str "files" ++ [Byte.x00])) 1 =
  Ok (mkNetShareEnumResponse 100 (len sp) 2 sp.*1).
Proof.
  intros sp. refine (DecodeNetShareEnumResponse_shares sp (str "files" ++ [Byte.x00]) 100 2 _ _ _ _).
  - split; [discriminate|reflexivity].
  - split; [discriminate|reflexivity].
  - reflexivity.
  - exact example_shares_in.
Defined.
