(* ===== verification/PathOps.v ===== *)
(** * Operations on paths ([internal/smb1/rename.go], [set_information.go],
    [delete_directory.go])

    The core-protocol requests that name a file by its path: renaming, setting
    DOS attributes, removing an empty directory, and their empty replies.  Record
    fields carry a prefix: [rn] (rename), [si] (set information), [dd] (delete
    directory). *)

From S2P Require Export Packet Utf16le.

(** ** Names *)

(** [if name[0] != '\\' { name = "\\" + name }] *)
Definition rooted (name : bytes) : res bytes :=
  let! c := idx8 name 0 in
  Ok (if negb (c =? 0x5C) then [Byte.x5c] ++ name else name).

(** Appends a name, preceded in Unicode by [padding], and its terminator. *)
Definition append_name (useUnicode : bool) (padding data name : bytes) : res bytes :=
  if useUnicode then
    let! b := EncodeStringToBytes name in Ok (((data ++ padding) ++ b) ++ [Byte.x00; Byte.x00])
  else Ok ((data ++ name) ++ [Byte.x00]).

(** ** Renaming *)

Record RenameRequest := mkRenameRequest {
  rn_SearchAttributes : Z;
  rn_OldFileName : bytes;
  rn_NewFileName : bytes;
  rn_UseUnicode : bool;
}.

Definition EncodeRenameRequest (req : option RenameRequest) : res (bytes * bytes) :=
  match req with
  | None => Err (Errorf "smb1: rename request is nil")
  | Some req =>
    if len (rn_OldFileName req) =? 0 then Err (Errorf "smb1: old file name is empty") else
    if len (rn_NewFileName req) =? 0 then Err (Errorf "smb1: new file name is empty") else
    let! oldFileName := rooted (rn_OldFileName req) in
    let! newFileName := rooted (rn_NewFileName req) in
    let! params := make 2 in
    let! params := put16 params 0 2 (rn_SearchAttributes req) in
    let data := [Byte.x04] in
    let! data := append_name (rn_UseUnicode req) [] data oldFileName in
    let data := data ++ [Byte.x04] in
    let! data := append_name (rn_UseUnicode req) [Byte.x00] data newFileName in
    Ok (params, data)
  end.

(** Rename's reply is an empty struct. *)
Definition DecodeRenameResponse (params data : bytes) : res () :=
  if negb (len params =? 0)
  then Err (Errorf "smb1: rename response should have no parameters, got %d bytes") else Ok ().

(** ** Setting attributes *)

Record SetInformationRequest := mkSetInformationRequest {
  si_FileAttributes : Z;
  si_LastWriteTime : Z;
  si_FileName : bytes;
  si_UseUnicode : bool;
}.

Definition EncodeSetInformationRequest (req : option SetInformationRequest) : res (bytes * bytes) :=
  match req with
  | None => Err (Errorf "smb1: set information request is nil")
  | Some req =>
    if len (si_FileName req) =? 0 then Err (Errorf "smb1: file name is empty") else
    let! fileName := rooted (si_FileName req) in
    let! params := make 16 in
    let! params := put16 params 0 2 (si_FileAttributes req) in
    let! params := put32 params 2 6 (si_LastWriteTime req) in
    let! data := append_name (si_UseUnicode req) [] [Byte.x04] fileName in
    Ok (params, data ++ [Byte.x04; Byte.x00])
  end.

Definition DecodeSetInformationResponse (params data : bytes) : res () :=
  if negb (len params =? 0)
  then Err (Errorf "smb1: set information response should have no parameters, got %d bytes") else Ok ().

(** ** Removing a directory *)

Record DeleteDirectoryRequest := mkDeleteDirectoryRequest {
  dd_DirectoryName : bytes;
  dd_UseUnicode : bool;
}.

Definition EncodeDeleteDirectoryRequest (req : option DeleteDirectoryRequest) : res (bytes * bytes) :=
  match req with
  | None => Err (Errorf "smb1: delete directory request is nil")
  | Some req =>
    if len (dd_DirectoryName req) =? 0 then Err (Errorf "smb1: directory name is empty") else
    let! dirName := rooted (dd_DirectoryName req) in
    let! data := append_name (dd_UseUnicode req) [] [Byte.x04] dirName in
    Ok ([], data)
  end.

Definition DecodeDeleteDirectoryResponse (params data : bytes) : res () :=
  if negb (len params =? 0)
  then Err (Errorf "smb1: delete directory response should have no parameters, got %d bytes") else Ok ().

(** ** Lemmas *)

(** What the server is asked for: the caller's path, from the root. *)
Definition rooted_path (name : bytes) : bytes :=
  match name with
  | b :: _ => if bool_decide (b = Byte.x5c) then name else Byte.x5c :: name
  | [] => name
  end.

Lemma rooted_eq name : name <> [] -> rooted name = Ok (rooted_path name).
Proof.
  destruct name as [|b name]; [done|]. intros _. unfold rooted, rooted_path.
  change (idx8 (b :: name) 0) with (@Ok Z (u8 b)). cbn [bind].
  case_bool_decide as E; [by rewrite E|].
  destruct (Z.eqb_spec (u8 b) 0x5C) as [E2|_]; [|done].
  exfalso. apply E, u8_inj. rewrite E2. reflexivity.
Qed.

Lemma rooted_path_starts name : name <> [] -> exists t, rooted_path name = Byte.x5c :: t.
Proof.
  destruct name as [|b name]; [done|]. intros _. unfold rooted_path.
  case_bool_decide as E; [rewrite E; by exists name|by exists (b :: name)].
Qed.

Lemma append_name_eq u padding data name :
  append_name u padding data name = Ok (data ++ (if u then padding else []) ++ name_bytes u name).
Proof.
  unfold append_name, name_bytes. destruct u.
  - rewrite EncodeStringToBytes_eq. cbn [bind]. by rewrite <- !app_assoc.
  - cbn [app]. by rewrite <- app_assoc.
Qed.

Lemma append_name_plain u data name : append_name u [] data name = Ok (data ++ name_bytes u name).
Proof. rewrite append_name_eq. by destruct u. Qed.

Lemma EncodeRenameRequest_eq r :
  rn_OldFileName r <> [] -> rn_NewFileName r <> [] ->
  EncodeRenameRequest (Some r) =
  Ok (le_put 2 (rn_SearchAttributes r),
      [Byte.x04] ++ name_bytes (rn_UseUnicode r) (rooted_path (rn_OldFileName r))
      ++ [Byte.x04] ++ (if rn_UseUnicode r then [Byte.x00] else [])
      ++ name_bytes (rn_UseUnicode r) (rooted_path (rn_NewFileName r))).
Proof.
  intros Ho Hn. unfold EncodeRenameRequest. rewrite !nonempty_len, !rooted_eq by done. cbn [bind].
  rewrite (make_zeros 2 2) by done. cbn [bind]. unfold put16. repeat enc_step.
  rewrite append_name_plain. cbn [bind]. rewrite append_name_eq. cbn [bind]. by rewrite <- !app_assoc.
Qed.

Lemma EncodeSetInformationRequest_eq r :
  si_FileName r <> [] ->
  EncodeSetInformationRequest (Some r) =
  Ok (le_put 2 (si_FileAttributes r) ++ le_put 4 (si_LastWriteTime r) ++ replicate 10 Byte.x00,
      [Byte.x04] ++ name_bytes (si_UseUnicode r) (rooted_path (si_FileName r)) ++ [Byte.x04; Byte.x00]).
Proof.
  intros Hn. unfold EncodeSetInformationRequest. rewrite nonempty_len, rooted_eq by done. cbn [bind].
  rewrite (make_zeros 16 16) by done. cbn [bind]. unfold put16, put32. repeat enc_step.
  rewrite append_name_plain. cbn [bind]. by rewrite <- !app_assoc.
Qed.

Lemma EncodeDeleteDirectoryRequest_eq r :
  dd_DirectoryName r <> [] ->
  EncodeDeleteDirectoryRequest (Some r) =
  Ok ([], [Byte.x04] ++ name_bytes (dd_UseUnicode r) (rooted_path (dd_DirectoryName r))).
Proof.
  intros Hn. unfold EncodeDeleteDirectoryRequest. rewrite nonempty_len, rooted_eq by done. cbn [bind].
  by rewrite append_name_plain.
Qed.

(** ** Properties *)

Lemma even_name_bytes s : len (name_bytes true s) mod 2 = 0.
Proof.
  unfold name_bytes, utf16le. autorewrite with len. rewrite len_units_bytes.
  rewrite <- Z.add_mod_idemp_l, Z.mul_comm, Z_mod_mult by lia. done.
Qed.

(** A rename request carries both paths of the caller, from the root, where
    the server looks for them: the old one at offset 38 and the new one behind
    it, each after its format byte and, in Unicode, each at an even offset of
    the message; paths not starting with a backslash get one. *)
Theorem EncodeRenameRequest_layout h r :
  Header_wf h -> rn_OldFileName r <> [] -> rn_NewFileName r <> [] ->
  (rn_UseUnicode r = true -> ValidString (rooted_path (rn_OldFileName r)) /\
                             ValidString (rooted_path (rn_NewFileName r))) ->
  len (name_bytes (rn_UseUnicode r) (rooted_path (rn_OldFileName r)))
  + len (name_bytes (rn_UseUnicode r) (rooted_path (rn_NewFileName r))) + 3 <= MaxDataSize ->
  exists p d raw mid new,
    EncodeRenameRequest (Some r) = Ok (p, d) /\ EncodePacket (Some h) p d = Ok raw /\
    u16 raw 33 35 = Ok (wrap 16 (rn_SearchAttributes r)) /\
    idx8 raw 37 = Ok 4 /\
    (let! b := slice raw 38 mid in read_name (rn_UseUnicode r) b) = Ok (rooted_path (rn_OldFileName r)) /\
    idx8 raw mid = Ok 4 /\
    (let! b := slice raw new (len raw) in read_name (rn_UseUnicode r) b) = Ok (rooted_path (rn_NewFileName r)) /\
    new = mid + (if rn_UseUnicode r then 2 else 1) /\ (rn_UseUnicode r = true -> new mod 2 = 0).
Proof.
  intros Hh Ho Hn Hv Hsize. rewrite EncodeRenameRequest_eq by done.
  pose proof (len_Header_bytes h Hh) as HL. unfold HeaderSize in HL.
  set (u := rn_UseUnicode r) in *. set (o := rooted_path (rn_OldFileName r)) in *.
  set (n := rooted_path (rn_NewFileName r)) in *.
  pose proof (len_nonneg (name_bytes u o)). pose proof (len_nonneg (name_bytes u n)).
  eexists _, _, _, (38 + len (name_bytes u o)), (39 + len (name_bytes u o) + (if u then 1 else 0)).
  split; [reflexivity|]. split.
  { apply EncodePacket_eq; [done|by rewrite len_le_put|rewrite len_le_put; vm_compute; discriminate|].
    destruct u; autorewrite with len; lia. }
  unfold Packet_bytes. set (d := [Byte.x04] ++ _).
  set (bc := le_put 2 (len d mod 2 ^ 16)). assert (len bc = 2) as Hbc by apply len_le_put. clearbody bc.
  split; [by wire_read|]. subst d. change [Byte.x04] with [byte_of 4]. split; [by wire_read|].
  split; [|split; [by wire_read|split; [|split]]].
  - wire_read. apply read_name_bytes. intros E. by apply Hv.
  - clearbody u o n. destruct u; cbv iota; rewrite ?app_nil_l; wire_read; rewrite slice_whole by offsets;
      apply read_name_bytes; intros E; by apply Hv.
  - destruct u; lia.
  - intros E. rewrite E. pose proof (even_name_bytes o) as Ev.
    replace (39 + len (name_bytes true o) + 1) with (len (name_bytes true o) + 20 * 2) by lia.
    by rewrite Z_mod_plus_full.
Qed.

Definition example_rename : RenameRequest := mkRenameRequest 0x16 (str "\a.txt") (str "b.txt") true.

Lemma EncodeRenameRequest_layout_witness :
  exists p d raw mid new,
    EncodeRenameRequest (Some example_rename) = Ok (p, d) /\
    EncodePacket (Some example_header) p d = Ok raw /\
    (let! b := slice raw 38 mid in read_name true b) = Ok (str "\a.txt") /\
    (let! b := slice raw new (len raw) in read_name true b) = Ok (str "\b.txt") /\ new mod 2 = 0.
Proof.
  assert (Header_wf example_header) as Hh by (apply NewHeader_wf; split; [discriminate|reflexivity]).
  destruct (EncodeRenameRequest_layout example_header example_rename Hh)
    as (p & d & raw & mid & new & E1 & E2 & _ & _ & E3 & _ & E4 & _ & E5);
    [discriminate|discriminate|intros _; split; vm_compute; reflexivity|vm_compute; discriminate|].
  exists p, d, raw, mid, new. exact (conj E1 (conj E2 (conj E3 (conj E4 (E5 eq_refl))))).
Defined.

(** The requests that set attributes and remove a directory name the
    caller's path, from the root, at an even offset (52 and 36) of the message;
    the attributes and the time are at their places, and the second buffer of
    the first is the empty string. *)
Theorem path_requests_layout h u name attrs time :
  Header_wf h -> name <> [] -> (u = true -> ValidString (rooted_path name)) ->
  len (name_bytes u (rooted_path name)) + 3 <= MaxDataSize ->
  (exists p d raw,
    EncodeSetInformationRequest (Some (mkSetInformationRequest attrs time name u)) = Ok (p, d) /\
    EncodePacket (Some h) p d = Ok raw /\
    u16 raw 33 35 = Ok (wrap 16 attrs) /\ u32 raw 35 39 = Ok (wrap 32 time) /\
    idx8 raw 51 = Ok 4 /\
    (let! b := slice raw 52 (len raw - 2) in read_name u b) = Ok (rooted_path name) /\
    slice raw (len raw - 2) (len raw) = Ok [Byte.x04; Byte.x00]) /\
  (exists d raw,
    EncodeDeleteDirectoryRequest (Some (mkDeleteDirectoryRequest name u)) = Ok ([], d) /\
    EncodePacket (Some h) [] d = Ok raw /\ idx8 raw 35 = Ok 4 /\
    (let! b := slice raw 36 (len raw) in read_name u b) = Ok (rooted_path name)).
Proof.
  intros Hh Hn Hv Hsize. rewrite EncodeSetInformationRequest_eq, EncodeDeleteDirectoryRequest_eq by done.
  cbn [si_FileAttributes si_LastWriteTime si_FileName si_UseUnicode dd_DirectoryName dd_UseUnicode].
  pose proof (len_Header_bytes h Hh) as HL. unfold HeaderSize in HL.
  set (n := name_bytes u (rooted_path name)) in *. pose proof (len_nonneg n).
  change [Byte.x04] with [byte_of 4]. split.
  - eexists _, _, _. split; [reflexivity|]. split.
    { apply EncodePacket_eq; [done|by autorewrite with len|autorewrite with len; vm_compute; discriminate|].
      autorewrite with len. lia. }
    unfold Packet_bytes. set (d := [byte_of 4] ++ _).
    set (bc := le_put 2 (len d mod 2 ^ 16)). assert (len bc = 2) as Hbc by apply len_le_put. clearbody bc.
    rewrite <- !app_assoc. split; [by wire_read|]. split; [by wire_read|]. subst d.
    split; [by wire_read|]. split; [|by wire_read; rewrite slice_whole by offsets].
    wire_read. by apply read_name_bytes.
  - eexists _, _. split; [reflexivity|]. split.
    { apply EncodePacket_eq; [done|done|vm_compute; discriminate|]. autorewrite with len. lia. }
    unfold Packet_bytes. set (d := [byte_of 4] ++ _).
    set (bc := le_put 2 (len d mod 2 ^ 16)). assert (len bc = 2) as Hbc by apply len_le_put. clearbody bc.
    subst d. rewrite app_nil_l. split; [by wire_read|].
    wire_read. rewrite slice_whole by offsets. by apply read_name_bytes.
Qed.

Lemma path_requests_layout_witness :
  exists d raw,
    EncodeDeleteDirectoryRequest (Some (mkDeleteDirectoryRequest (str "old\dir") true)) = Ok ([], d) /\
    EncodePacket (Some example_header) [] d = Ok raw /\ idx8 raw 35 = Ok 4 /\
    (let! b := slice raw 36 (len raw) in read_name true b) = Ok (str "\old\dir").
Proof.
  assert (Header_wf example_header) as Hh by (apply NewHeader_wf; split; [discriminate|reflexivity]).
  apply (path_requests_layout example_header true (str "old\dir") 0 0 Hh);
    [discriminate|intros _; vm_compute; reflexivity|vm_compute; discriminate].
Defined.
