(* ===== verification/Client.v ===== *)
(** * Sessions and shares ([internal/client/negotiate.go],
    [internal/client/session.go])

    Negotiation, logging on, connecting to shares, and the requests on a share
    that need no open file.  The code calls a connection's [sendRecv] and
    [sendRecvTransaction]; here these are a class, [Transport], so that what is
    shown of the client holds over anything that delivers replies.  The
    connection of [Transaction] is one instance ([wire]), a script of replies
    that records the requests another ([script]).

    Who logs on is the class [Initiator], which [Initiator.v] implements with NTLM;
    [strings.ToUpper] is a parameter. *)

From S2P Require Export Transaction Setup Rap PathOps FileOps.

(** ** What the client needs of a connection *)

Class Transport (T : Type) := {
  t_sendRecv : Header -> bytes -> bytes -> T -> res (response * option error) * T;
  t_sendRecvSettled : Header -> bytes -> bytes -> T -> res (response * option error) * T;
  t_sendRecvTransaction : Header -> bytes -> bytes -> T -> res (response * Trans2Response) * T;
}.

(** A message of the server, with the error its status stands for. *)
Definition received (r : response) : Prop :=
  exists h, r_header r = Some h /\ r_err r = (if IsError h then Header_Error h else None).

(** What a connection promises: replies are messages of the server, [sendRecv]
    and [sendRecvSettled] also return their error, and the [Status] of a transaction's reply is left
    at zero. *)
Class TransportLaws (T : Type) `{Transport T} := {
  t_ok : T -> Prop;
  sendRecv_law h p d t r t' : t_ok t -> t_sendRecv h p d t = (r, t') ->
    t_ok t' /\ match r with Ok (resp, e) => received resp /\ e = r_err resp | _ => True end;
  settled_law h p d t r t' : t_ok t -> t_sendRecvSettled h p d t = (r, t') ->
    t_ok t' /\ match r with Ok (resp, e) => received resp /\ e = r_err resp | _ => True end;
  transaction_law h p d t r t' : t_ok t -> t_sendRecvTransaction h p d t = (r, t') ->
    t_ok t' /\ match r with Ok (resp, t2) => received resp /\ t2_Status t2 = 0 | _ => True end;
}.

(** What the code asks of its [context.Context] between requests:
    [select { case <-ctx.Done(): ctx.Err() default: }]. *)
Class Ctx (T : Type) := { ctx_poll : T -> option error * T }.

(** The interface [Initiator]. *)
Class Initiator (I : Type) := {
  i_Negotiate : I -> res bytes * I;
  i_Authenticate : bytes -> I -> res bytes * I;
}.

(** ** Calls in sequence *)

Definition M (S A : Type) : Type := S -> res A * S.
Definition ret {S A} (a : A) : M S A := fun s => (Ok a, s).
Definition fail {S A} (e : error) : M S A := fun s => (Err e, s).
Definition lift {S A} (r : res A) : M S A := fun s => (r, s).
Definition mbind_M {S A B} (m : M S A) (f : A -> M S B) : M S B := fun s =>
  match m s with
  | (Ok a, s) => f a s
  | (Err e, s) => (Err e, s)
  | (Panic, s) => (Panic, s)
  end.
Notation "'let*' x := m 'in' k" := (mbind_M m (fun x => k))
  (at level 10, x pattern, m at level 100, k at level 200) : go_scope.

(** [if err != nil { return fmt.Errorf("...: %w", err) }] *)
Definition wrap_err {S A} (fmt : string) (m : M S A) : M S A := fun s =>
  match m s with (Err e, s) => (Err (Wrapf fmt e), s) | out => out end.

Definition poll {T} `{Ctx T} : M T (option error) := fun t => match ctx_poll t with (e, t) => (Ok e, t) end.

(** Calls of the connection and of the initiator, side by side. *)
Definition on_conn {T I A} (m : M T A) : M (T * I) A :=
  fun s => match m s.1 with (r, t) => (r, (t, s.2)) end.
Definition on_initiator {T I A} (m : M I A) : M (T * I) A :=
  fun s => match m s.2 with (r, i) => (r, (s.1, i)) end.

(** [resp.header.Status]; the header is nil only in wake-up calls. *)
Definition reply_header (r : response) : res Header :=
  match r_header r with Some h => Ok h | None => Panic end.

Definition set_UID (uid : Z) (h : Header) : Header :=
  mkHeader (Protocol h) (Command h) (Status h) (Flags h) (Flags2 h) (PIDHigh h)
    (SecurityFeatures h) (Reserved h) (TID h) (PIDLow h) uid (MID h).
Definition set_TID (tid : Z) (h : Header) : Header :=
  mkHeader (Protocol h) (Command h) (Status h) (Flags h) (Flags2 h) (PIDHigh h)
    (SecurityFeatures h) (Reserved h) tid (PIDLow h) (UID h) (MID h).

(** ** Constants *)

Definition SMB_COM_DELETE_DIRECTORY : Z := 0x01.
Definition SMB_COM_RENAME : Z := 0x07.
Definition SMB_COM_SET_INFORMATION : Z := 0x09.
Definition SMB_COM_TRANSACTION : Z := 0x25.
Definition SMB_COM_TRANSACTION2 : Z := 0x32.
Definition SMB_COM_TREE_DISCONNECT : Z := 0x71.
Definition SMB_COM_NEGOTIATE : Z := 0x72.
Definition SMB_COM_SESSION_SETUP_ANDX : Z := 0x73.
Definition SMB_COM_LOGOFF_ANDX : Z := 0x74.
Definition SMB_COM_TREE_CONNECT_ANDX : Z := 0x75.
Definition CAP_NT_SMBS : Z := 0x00000010.
Definition CAP_STATUS32 : Z := 0x00000040.
Definition FILE_ATTRIBUTE_READONLY : Z := 0x00000001.
Definition FILE_ATTRIBUTE_ARCHIVE : Z := 0x00000020.
Definition SMB_SET_FILE_BASIC_INFO : Z := 0x0101.
Definition TRANS2_SET_PATH_INFORMATION : Z := 0x0006.
Definition STATUS_NOT_SUPPORTED : Z := 0xC00000BB.
Definition SERVICE_DISK_SHARE : bytes := str "A:".
Definition SERVICE_IPC : bytes := str "IPC".

Definition Canceled : error := Errorf "context canceled".
Definition DeadlineExceeded : error := Errorf "context deadline exceeded".

(** ** Negotiation *)

(** The fields of [Conn] that [Negotiate] sets and everything after it reads.
    [negotiateTime], the local clock, is left out. *)
Record Negotiated := mkNegotiated {
  capabilities : Z;
  maxBufferSize : Z;
  maxMpxCount : Z;
  sessionKey : Z;
  securityMode : Z;
  challenge : bytes;
  serverName : bytes;
  domainName : bytes;
  systemTime : Z;
  timeZone : Z;
}.

(** [CAP_NT_SMBS | CAP_UNICODE | CAP_LARGE_FILES | CAP_STATUS32] *)
Definition requiredCaps : Z :=
  Z.lor (Z.lor (Z.lor CAP_NT_SMBS CAP_UNICODE) CAP_LARGE_FILES) CAP_STATUS32.

(** The checks on the reply, and the fields kept of it. *)
Definition accept_negotiation (negResp : NegotiateResponse) : res Negotiated :=
  if ng_DialectIndex negResp =? 0xFFFF
  then Err (Errorf "smb1: server does not support any of the proposed dialects") else
  if negb (Z.land (ng_Capabilities negResp) requiredCaps =? requiredCaps)
  then Err (Errorf "smb1: server does not support required capabilities (need NT_SMBS, Unicode, Large Files, NT_STATUS)") else
  if Z.land (ng_SecurityMode negResp) NEGOTIATE_ENCRYPT_PASSWORDS =? 0
  then Err (Errorf "smb1: server does not require encrypted passwords (insecure)") else
  if Z.land (ng_SecurityMode negResp) NEGOTIATE_USER_SECURITY =? 0 then Err ErrShareLevelSecurity else
  if negb (Z.land (ng_SecurityMode negResp) NEGOTIATE_SECURITY_SIGNATURES_REQUIRED =? 0)
  then Err ErrSigningRequired else
  let! buf := make (len (ng_Challenge negResp)) in
  let! chal := copy_at buf 0 (len buf) (ng_Challenge negResp) in
  Ok (mkNegotiated (ng_Capabilities negResp) (ng_MaxBufferSize negResp) (ng_MaxMpxCount negResp)
        (ng_SessionKey negResp) (ng_SecurityMode negResp) chal (ng_ServerName negResp)
        (ng_DomainName negResp) (ng_SystemTime negResp) (ng_ServerTimeZone negResp)).

Section client.
Context {T : Type} `{Transport T}.

(** [resp, err := c.sendRecv(...)]: both results, the error as a value. *)
Definition sendRecv_both (h : Header) (params data : bytes) : M T (option response * option error) :=
  fun t =>
    match t_sendRecv h params data t with
    | (Ok (resp, e), t) => (Ok (Some resp, e), t)
    | (Err e, t) => (Ok (None, Some e), t)
    | (Panic, t) => (Panic, t)
    end.

(** [resp, err := c.sendRecv(...); if err != nil { return err }] *)
Definition exchange (h : Header) (params data : bytes) : M T response :=
  let* (resp, err) := sendRecv_both h params data in
  match err, resp with
  | Some e, _ => fail e
  | None, Some resp => ret resp
  | None, None => lift Panic
  end.

(** [if resp.err != nil { return resp.err }] *)
Definition check_reply (resp : response) : M T () :=
  match r_err resp with Some e => fail e | None => ret () end.

Definition Negotiate : M T Negotiated :=
  let dialects := [str "NT LM 0.12"; str "NT LANMAN 1.0"; str "LANMAN1.0"] in
  let* (params, data) := wrap_err "smb1: failed to encode negotiate request"
                           (lift (EncodeNegotiateRequest dialects)) in
  let header := NewHeader SMB_COM_NEGOTIATE in
  let* (resp, err) := sendRecv_both header params data in
  match err with
  | Some e => if bool_decide (e = Canceled) || bool_decide (e = DeadlineExceeded) then fail e
              else fail (Wrapf "smb1: negotiate failed" e)
  | None =>
    match resp with
    | None => lift Panic
    | Some resp =>
      let* _ := wrap_err "smb1: negotiate returned error" (check_reply resp) in
      let* negResp := wrap_err "smb1: failed to decode negotiate response"
                        (lift (DecodeNegotiateResponse (r_params resp) (r_data resp))) in
      lift (accept_negotiation negResp)
    end
  end.

(** ** Sessions *)

Record Tree := mkTree {
  te_TID : Z;
  te_Path : bytes;
  te_Service : bytes;
  te_OptionalSupport : Z;
  te_NativeFileSystem : bytes;
}.

(** The code's [Session]: its connection is the state of the calls, and its
    initiator is not used after [NewSession]. *)
Record UserSession := mkUserSession {
  uid : Z;
  isGuest : bool;
  trees : gmap Z Tree;
}.

Definition use_unicode (c : Negotiated) : bool := negb (Z.land (capabilities c) CAP_UNICODE =? 0).

(** The request of both rounds, around the initiator's message. *)
Definition setup_request (c : Negotiated) (msg : bytes) : SessionSetupRequest :=
  mkSessionSetupRequest SMB_COM_NO_ANDX_COMMAND 0 0 (wrap 16 (maxBufferSize c)) (maxMpxCount c) 0
    (sessionKey c) (wrap 16 (len msg)) 0 (capabilities c) msg (str "Unix") (str "smb1client")
    (use_unicode c).

Definition NewSession {I} `{Initiator I} (c : Negotiated) (allowGuest : bool) : M (T * I) UserSession :=
  let* nmsg := wrap_err "smb1: NTLM negotiate failed" (on_initiator i_Negotiate) in
  let* (params, data) := wrap_err "smb1: failed to encode session setup request"
                           (lift (EncodeSessionSetupRequest (Some (setup_request c nmsg)))) in
  let header := NewHeader SMB_COM_SESSION_SETUP_ANDX in
  let* resp := wrap_err "smb1: session setup (negotiate) failed"
                 (on_conn (exchange header params data)) in
  let* h := lift (reply_header resp) in
  if Status h =? STATUS_SUCCESS then
    let* _ := wrap_err "smb1: failed to decode session setup response"
                (lift (DecodeSessionSetupResponse (r_params resp) (r_data resp) (use_unicode c))) in
    ret (mkUserSession (UID h) false ∅)
  else if negb (Status h =? STATUS_MORE_PROCESSING_REQUIRED) then
    match r_err resp with
    | Some e => fail (Wrapf "smb1: session setup (negotiate) returned error" e)
    | None => fail (Errorf "smb1: unexpected status in session setup (negotiate): 0x%08X")
    end
  else
    let* setupResp := wrap_err "smb1: failed to decode session setup response"
      (lift (DecodeSessionSetupResponse (r_params resp) (r_data resp) (use_unicode c))) in
    let* amsg := wrap_err "smb1: NTLM authenticate failed"
                   (on_initiator (i_Authenticate (sr_SecurityBlob setupResp))) in
    let* (params2, data2) := wrap_err "smb1: failed to encode session setup request"
      (lift (EncodeSessionSetupRequest (Some (setup_request c amsg)))) in
    let header2 := set_UID (UID h) (NewHeader SMB_COM_SESSION_SETUP_ANDX) in
    let* resp2 := wrap_err "smb1: session setup (authenticate) failed"
                    (on_conn (exchange header2 params2 data2)) in
    let* _ := wrap_err "smb1: session setup (authenticate) returned error" (on_conn (check_reply resp2)) in
    let* authResp := wrap_err "smb1: failed to decode session setup response"
      (lift (DecodeSessionSetupResponse (r_params resp2) (r_data resp2) (use_unicode c))) in
    let guest := IsGuest authResp in
    if guest && negb allowGuest then fail ErrGuestLogon else
    let* h2 := lift (reply_header resp2) in
    ret (mkUserSession (UID h2) guest ∅).

Definition Logoff (s : UserSession) : M T () :=
  let* params := lift (let! p := make 4 in
                       let! p := put8 p 0 SMB_COM_NO_ANDX_COMMAND in put8 p 1 0) in
  let header := set_UID (uid s) (NewHeader SMB_COM_LOGOFF_ANDX) in
  let* resp := wrap_err "smb1: logoff failed" (exchange header params []) in
  wrap_err "smb1: logoff returned error" (check_reply resp).

(** ** Shares *)

(** [strings.HasSuffix] *)
Definition HasSuffix (s suffix : bytes) : bool := bool_decide (suffix `suffix_of` s).

Section shares.
(** [strings.ToUpper], which maps letters of every script. *)
Variable ToUpper : bytes -> bytes.

Definition tree_request (c : Negotiated) (path : bytes) : TreeConnectRequest :=
  let service := if HasSuffix (ToUpper path) (str "\IPC$") then SERVICE_IPC else SERVICE_DISK_SHARE in
  mkTreeConnectRequest SMB_COM_NO_ANDX_COMMAND 0 0 0 1 [Byte.x00] (ToUpper path) service (use_unicode c).

(** The tree, and the session with the tree registered. *)
Definition TreeConnect (c : Negotiated) (s : UserSession) (path : bytes) : M T (Tree * UserSession) :=
  let req := tree_request c path in
  let* (params, data) := wrap_err "smb1: failed to encode tree connect request"
                           (lift (EncodeTreeConnectRequest (Some req))) in
  let header := set_TID 0xFFFF (set_UID (uid s) (NewHeader SMB_COM_TREE_CONNECT_ANDX)) in
  let* (resp, err) := sendRecv_both header params data in
  match err, resp with
  | Some e, Some _ => fail (Wrapf "smb1: tree connect failed (status 0x%08X)" e)
  | Some e, None => fail (Wrapf "smb1: tree connect failed" e)
  | None, None => lift Panic
  | None, Some resp =>
    let* _ := wrap_err "smb1: tree connect returned error (status 0x%08X)" (check_reply resp) in
    let* treeResp := wrap_err "smb1: failed to decode tree connect response"
      (lift (DecodeTreeConnectResponse (r_params resp) (r_data resp) (tq_UseUnicode req))) in
    let* h := lift (reply_header resp) in
    let t := mkTree (TID h) (tq_Path req) (tr_Service treeResp) (tr_OptionalSupport treeResp)
               (tr_NativeFileSystem treeResp) in
    ret (t, mkUserSession (uid s) (isGuest s) (<[te_TID t := t]> (trees s)))
  end.
End shares.

Definition TreeDisconnect (s : UserSession) (tid : Z) : M T UserSession :=
  let* (params, data) := wrap_err "smb1: failed to encode tree disconnect request"
                           (lift EncodeTreeDisconnectRequest) in
  let header := set_TID tid (set_UID (uid s) (NewHeader SMB_COM_TREE_DISCONNECT)) in
  let* resp := wrap_err "smb1: tree disconnect failed" (exchange header params data) in
  let* _ := wrap_err "smb1: tree disconnect returned error" (check_reply resp) in
  ret (mkUserSession (uid s) (isGuest s) (delete tid (trees s))).

(** ** Requests on a share *)

(** The header of a request on tree [t] of session [s]. *)
Definition tree_header (command : Z) (s : UserSession) (t : Tree) : Header :=
  set_TID (te_TID t) (set_UID (uid s) (NewHeader command)).

Definition GetCapabilities (c : Negotiated) : Z := capabilities c.

Definition transactionMaxDataCount (c : Negotiated) (maxParameterCount : Z) : Z :=
  MaxTransactionDataCount (maxBufferSize c) maxParameterCount.

(** [sendRecvTransaction], then the part [SendTransact2] and [SendTransaction]
    share. *)
Definition transaction_reply (header : Header) (allParams dataBytes : bytes) : M T Trans2Response :=
  let* (resp, trans2Resp) := t_sendRecvTransaction header allParams dataBytes in
  match r_err resp with
  | None => ret trans2Resp
  | Some e =>
    let* h := lift (reply_header resp) in
    if IsError h then fail e else
    ret (mkTrans2Response (Status h) (t2_TotalParameterCount trans2Resp)
      (t2_TotalDataCount trans2Resp) (t2_Reserved trans2Resp) (t2_ParameterCount trans2Resp)
      (t2_ParameterOffset trans2Resp) (t2_ParameterDisplacement trans2Resp) (t2_DataCount trans2Resp)
      (t2_DataOffset trans2Resp) (t2_DataDisplacement trans2Resp) (t2_SetupCount trans2Resp)
      (t2_Reserved2 trans2Resp) (t2_Setup trans2Resp) (t2_ByteCount trans2Resp) (t2_Pad1 trans2Resp)
      (t2_Parameters trans2Resp) (t2_Pad2 trans2Resp) (t2_Data trans2Resp))
  end.

Definition SendTransact2 (c : Negotiated) (s : UserSession) (t : Tree) (subcommand : Z)
    (params data : bytes) : M T Trans2Response :=
  let* (allParams, dataBytes) := lift (EncodeTrans2Request [subcommand] params data []
    (transactionMaxDataCount c TransactionMaxParameterCount)) in
  transaction_reply (tree_header SMB_COM_TRANSACTION2 s t) allParams dataBytes.

Definition SendTransaction (c : Negotiated) (s : UserSession) (t : Tree) (name params data : bytes)
  : M T Trans2Response :=
  let* (allParams, dataBytes) := lift (EncodeTransactionRequest name params data
    (transactionMaxDataCount c TransactionMaxParameterCount) (use_unicode c)) in
  transaction_reply (tree_header SMB_COM_TRANSACTION s t) allParams dataBytes.

Definition SendRename (c : Negotiated) (s : UserSession) (t : Tree) (oldpath newpath : bytes) : M T () :=
  let req := mkRenameRequest 0x0016 oldpath newpath (use_unicode c) in
  let* (params, data) := lift (EncodeRenameRequest (Some req)) in
  let* resp := exchange (tree_header SMB_COM_RENAME s t) params data in
  let* _ := check_reply resp in
  lift (DecodeRenameResponse (r_params resp) (r_data resp)).

Definition SendDeleteDirectory (c : Negotiated) (s : UserSession) (t : Tree) (path : bytes) : M T () :=
  let req := mkDeleteDirectoryRequest path (use_unicode c) in
  let* (params, data) := lift (EncodeDeleteDirectoryRequest (Some req)) in
  let* resp := exchange (tree_header SMB_COM_DELETE_DIRECTORY s t) params data in
  let* _ := check_reply resp in
  lift (DecodeDeleteDirectoryResponse (r_params resp) (r_data resp)).

Definition SendSetInformation (c : Negotiated) (s : UserSession) (t : Tree) (path : bytes)
    (attrs lastWriteTime : Z) : M T () :=
  let req := mkSetInformationRequest attrs lastWriteTime path (use_unicode c) in
  let* (params, data) := lift (EncodeSetInformationRequest (Some req)) in
  let* resp := exchange (tree_header SMB_COM_SET_INFORMATION s t) params data in
  let* _ := check_reply resp in
  lift (DecodeSetInformationResponse (r_params resp) (r_data resp)).

Definition dosAttributes (attrs : Z) : Z :=
  wrap 16 (Z.land attrs (Z.lor (Z.lor (Z.lor FILE_ATTRIBUTE_READONLY FILE_ATTRIBUTE_HIDDEN)
             FILE_ATTRIBUTE_SYSTEM) FILE_ATTRIBUTE_ARCHIVE)).

Definition SetPathAttributes (c : Negotiated) (s : UserSession) (t : Tree) (path : bytes) (attrs : Z)
  : M T () :=
  let useUnicode := negb (Z.land (GetCapabilities c) CAP_UNICODE =? 0) in
  let* info := lift (EncodeFileBasicInfo (mkFileBasicInfo 0 0 0 0 attrs 0)) in
  let* (params, data) := lift (EncodeSetPathInfo path SMB_SET_FILE_BASIC_INFO info useUnicode) in
  fun tr =>
    match SendTransact2 c s t TRANS2_SET_PATH_INFORMATION params data tr with
    | (Ok _, tr) => (Ok (), tr)
    | (Panic, tr) => (Panic, tr)
    | (Err e, tr) =>
      if is_err e (NtStatus STATUS_NOT_SUPPORTED)
      then SendSetInformation c s t path (dosAttributes attrs) 0 tr else (Err e, tr)
    end.
End client.

(** ** The connection as a transport *)

(** What happens during one call: what the waits pick, and what the rest of the
    program does to the connection.  A transaction is taken to see the connection
    close once [cp_events] are used up. *)
Record call_plan := mkCallPlan {
  cp_ctx : option error;
  cp_fails : option (nat * error);
  cp_events : list wait_event;
  cp_settle : settle_event;
  cp_ctxErr : option error;
  cp_connErr : error;
  cp_others : Conn -> Conn;
}.

(** A connection, its socket, and the plans of the calls to come (when there is
    none, the connection is closed). *)
Record wire := mkWire { w_conn : Conn; w_socket : Session; w_plans : list call_plan }.

Definition no_plan : call_plan := mkCallPlan None None [] SettleDone None conn_ErrConnectionClosed id.
Definition next_plan (w : wire) : call_plan := hd no_plan (w_plans w).

#[export] Instance wire_transport : Transport wire := {
  t_sendRecv h params data w :=
    let p := next_plan w in
    match sendRecv h params data (cp_ctx p) (cp_fails p) (hd EvDone (cp_events p)) (cp_ctxErr p)
            (Some (cp_connErr p)) (cp_others p) (w_conn w) (w_socket w) with
    | (r, c, s) => (r, mkWire c s (tl (w_plans w)))
    end;
  t_sendRecvSettled h params data w :=
    let p := next_plan w in
    match sendRecvSettled h params data (cp_ctx p) (cp_fails p) (hd EvDone (cp_events p)) (cp_settle p)
            (cp_ctxErr p) (Some (cp_connErr p)) (cp_others p) (w_conn w) (w_socket w) with
    | (r, c, s) => (r, mkWire c s (tl (w_plans w)))
    end;
  t_sendRecvTransaction h params data w :=
    let p := next_plan w in
    match sendRecvTransaction h params data (cp_ctx p) (cp_fails p) (cp_events p ++ [EvDone])
            (Some (cp_connErr p)) (cp_others p) (w_conn w) (w_socket w) with
    | (Some r, c, s) => (r, mkWire c s (tl (w_plans w)))
    | (None, c, s) => (Err (cp_connErr p), mkWire c s (tl (w_plans w)))
    end;
}.

(** The messages the waits pick come from the receive loop. *)
Definition from_server (ev : wait_event) : Prop :=
  match ev with EvResponse (Some r) => r_header r <> None -> received r | _ => True end.
Definition wire_ok (w : wire) : Prop :=
  Forall (fun p => Forall from_server (cp_events p)) (w_plans w).

Lemma response_of_received h params data : received (response_of h params data).
Proof. by exists h. Qed.

Lemma awaitResponse_received ev connErr resp :
  from_server ev -> awaitResponse ev connErr = Ok resp -> received resp.
Proof.
  unfold awaitResponse. destruct ev as [[r|]|e|]; [|done|done|by destruct connErr].
  intros Hr H. destruct (r_header r) eqn:E; [|by destruct (r_err r), connErr].
  injection H as <-. apply Hr. by rewrite E.
Qed.

Lemma DecodeTrans2Response_status p d r : DecodeTrans2Response p d = Ok r -> t2_Status r = 0.
Proof.
  unfold DecodeTrans2Response. destruct (_ =? 0); [by intros [= <-]|].
  destruct (_ <? _); [done|]. intros H. inv_binds; by injection H as <-.
Qed.

(** A good first message and a zero status. *)
Definition assembling (a : assembly) : Prop :=
  match as_first a with Some (resp, frag) => received resp /\ t2_Status frag = 0 | None => True end.
Definition good_result (r : res (response * Trans2Response)) : Prop :=
  match r with Ok (resp, t2) => received resp /\ t2_Status t2 = 0 | _ => True end.

Lemma add_fragment_good resp frag a :
  received resp -> t2_Status frag = 0 -> assembling a ->
  match add_fragment resp frag a with Again a' => assembling a' | Return _ r => good_result r end.
Proof.
  intros Hr Hf Ha. unfold add_fragment.
  assert (forall a', first_fragment resp frag a = Ok a' -> assembling a') as Hfirst.
  { intros a'. unfold first_fragment. unfold assembling in Ha.
    destruct (as_first a) as [x|] eqn:E; [intros [= <-]; unfold assembling; by rewrite E|].
    intros H. inv_binds. by injection H as <-. }
  destruct (first_fragment resp frag a) as [a1|e|]; cbn [bind]; [|done|done].
  specialize (Hfirst a1 eq_refl). unfold assembling in Hfirst.
  destruct (placeFragment _ _ _ _) as [pb|e|]; cbn [bind]; [|done|done].
  destruct (placeFragment _ _ _ _) as [db|e|]; cbn [bind]; [|done|done].
  cbn [as_first as_gotParams as_gotData as_wantParams as_wantData as_fragmentsRead as_emptyFragments].
  destruct (_ && _).
  - destruct (as_first a1) as [[f af]|]; [exact Hfirst|done].
  - destruct (_ && _ && _); [done|]. destruct (_ <? _); [done|]. exact Hfirst.
Qed.

Lemma transaction_loop_good events connErr a complete r :
  Forall from_server events -> assembling a ->
  transaction_loop events connErr a = Some (complete, r) -> good_result r.
Proof.
  intros He. revert a. induction He as [|ev evs Hev _ IH]; intros a Ha; [done|].
  cbn [transaction_loop]. unfold transaction_pass.
  destruct (awaitResponse ev connErr) as [resp|e|] eqn:Ea; [|by intros [= <- <-]..].
  apply awaitResponse_received in Ea as Hr; [|done].
  destruct (DecodeTrans2Response _ _) as [frag|e|] eqn:Ed; [|by intros [= <- <-]..].
  apply DecodeTrans2Response_status in Ed. destruct (failed resp); [by intros [= <- <-]|].
  pose proof (add_fragment_good resp frag a Hr Ed Ha) as Hg.
  destruct (add_fragment resp frag a) as [a'|? ?]; [by apply IH|by intros [= <- <-]].
Qed.

#[export, refine] Instance wire_laws : TransportLaws wire := { t_ok := wire_ok }.
Proof.
  - intros h p d w r w' Hok. cbn. unfold wire_ok, next_plan, sendRecv.
    destruct (w_plans w) as [|pl pls] eqn:Ew; [|unfold wire_ok in Hok; rewrite Ew in Hok;
      apply Forall_cons in Hok as [Hp Hok]]; cbn [hd tl].
    all: destruct (beginRequest _ _ _ _ _ _ _ _) as [[[[k mid]|e|] c] s];
      [|intros [= <- <-]; cbn [w_plans tl]; done..].
    all: destruct (awaitResponse _ _) as [resp|e|] eqn:Ea; intros [= <- <-]; cbn [w_plans tl]; try done.
    split; [done|]. split; [|done]. eapply awaitResponse_received, Ea.
    destruct (cp_events pl); [done|]. by apply Forall_cons in Hp as [? _].
  - intros h p d w r w' Hok. cbn. unfold wire_ok, next_plan, sendRecvSettled.
    destruct (w_plans w) as [|pl pls] eqn:Ew; [|unfold wire_ok in Hok; rewrite Ew in Hok;
      apply Forall_cons in Hok as [Hp Hok]]; cbn [hd tl].
    all: destruct (beginRequest _ _ _ _ _ _ _ _) as [[[[k mid]|e|] c] s];
      [|intros [= <- <-]; cbn [w_plans tl]; done..].
    all: destruct (awaitResponse _ _) as [resp|e|] eqn:Ea; try destruct (cp_ctxErr _); intros [= <- <-]; cbn [w_plans tl]; try done.
    split; [done|]. split; [|done]. eapply awaitResponse_received, Ea.
    destruct (cp_events pl); [done|]. by apply Forall_cons in Hp as [? _].
  - intros h p d w r w' Hok. cbn. unfold wire_ok, next_plan, sendRecvTransaction.
    destruct (w_plans w) as [|pl pls] eqn:Ew; [|unfold wire_ok in Hok; rewrite Ew in Hok;
      apply Forall_cons in Hok as [Hp Hok]]; cbn [hd tl].
    all: destruct (beginRequest _ _ _ _ _ _ _ _) as [[[[k mid]|e|] c] s];
      [|intros [= <- <-]; cbn [w_plans tl]; done..].
    all: destruct (transaction_loop _ _ _) as [[complete out]|] eqn:Et;
      intros [= <- <-]; cbn [w_plans tl]; try done.
    all: split; [done|]; eapply transaction_loop_good, Et; [|done].
    + repeat constructor.
    + apply Forall_app. split; [done|repeat constructor].
Defined.

(** ** A scripted server *)

(** The requests sent, oldest first, and the replies to come. *)
Record script := mkScript { sent : list (Header * bytes * bytes); replies : list response }.

(** Each request is answered by one message; the connection closes after the
    last one. *)
#[export] Instance script_transport : Transport script := {
  t_sendRecv h params data s :=
    let log := sent s ++ [(h, params, data)] in
    match replies s with
    | r :: rs => (Ok (r, r_err r), mkScript log rs)
    | [] => (Err conn_ErrConnectionClosed, mkScript log [])
    end;
  t_sendRecvSettled h params data s :=
    let log := sent s ++ [(h, params, data)] in
    match replies s with
    | r :: rs => (Ok (r, r_err r), mkScript log rs)
    | [] => (Err conn_ErrConnectionClosed, mkScript log [])
    end;
  t_sendRecvTransaction h params data s :=
    let log := sent s ++ [(h, params, data)] in
    match replies s with
    | r :: rs =>
      (match transaction_loop [EvResponse (Some r); EvDone] (Some conn_ErrConnectionClosed) no_assembly with
       | Some (_, out) => out
       | None => Err conn_ErrConnectionClosed
       end, mkScript log rs)
    | [] => (Err conn_ErrConnectionClosed, mkScript log [])
    end;
}.

(** No context is ever done. *)
#[export] Instance script_context : Ctx script := { ctx_poll s := (None, s) }.

#[export, refine] Instance script_laws : TransportLaws script := { t_ok s := Forall received (replies s) }.
Proof.
  - intros h p d [log [|x rs]] r s' Hok; cbn; intros [= <- <-]; [done|].
    apply Forall_cons in Hok as [Hx Hok]. done.
  - intros h p d [log [|x rs]] r s' Hok; cbn; intros [= <- <-]; [done|].
    apply Forall_cons in Hok as [Hx Hok]. done.
  - intros h p d [log [|x rs]] r s' Hok H; [by injection H as <- <-|].
    apply Forall_cons in Hok as [Hx Hok]. cbn [t_sendRecvTransaction script_transport replies] in H.
    destruct (transaction_loop _ _ _) as [[complete out]|] eqn:Et; injection H as <- <-; [|done].
    split; [done|]. eapply transaction_loop_good, Et; [|done].
    apply Forall_cons. split; [by intros _|]. by apply Forall_cons.
Defined.

(** ** Negotiation: properties *)

Lemma bind_M_Ok {S A B} (m : M S A) (f : A -> M S B) s b s' :
  (let* a := m in f a) s = (Ok b, s') -> exists a s1, m s = (Ok a, s1) /\ f a s1 = (Ok b, s').
Proof. unfold mbind_M. destruct (m s) as [[a|e|] s1]; [|done..]. intros H. by exists a, s1. Qed.

Lemma wrap_err_Ok {S A} fmt (m : M S A) s a s' : wrap_err fmt m s = (Ok a, s') -> m s = (Ok a, s').
Proof. unfold wrap_err. by destruct (m s) as [[?|?|] ?]. Qed.

Lemma lift_Ok {S A} (r : res A) (s s' : S) a : lift r s = (Ok a, s') -> r = Ok a /\ s' = s.
Proof. by intros [= -> <-]. Qed.

(** Takes a successful sequence of calls apart. *)
Ltac inv_calls :=
  repeat match goal with
  | H : mbind_M _ _ _ = (Ok _, _) |- _ =>
      let a := fresh "a" in let s := fresh "s" in let E := fresh "E" in
      apply bind_M_Ok in H as (a & s & E & H)
  | H : wrap_err _ _ _ = (Ok _, _) |- _ => apply wrap_err_Ok in H
  | H : lift _ _ = (Ok _, _) |- _ =>
      let E := fresh "E" in apply lift_Ok in H as [E ->]
  | H : (let (_, _) := ?x in _) _ = (Ok _, _) |- _ => destruct x
  end.

Lemma accept_negotiation_Ok r n :
  accept_negotiation r = Ok n ->
  ng_DialectIndex r <> 0xFFFF /\
  Z.land (ng_Capabilities r) requiredCaps = requiredCaps /\
  Z.land (ng_SecurityMode r) 2 <> 0 /\ Z.land (ng_SecurityMode r) 1 <> 0 /\
  Z.land (ng_SecurityMode r) 8 = 0 /\
  n = mkNegotiated (ng_Capabilities r) (ng_MaxBufferSize r) (ng_MaxMpxCount r) (ng_SessionKey r)
        (ng_SecurityMode r) (ng_Challenge r) (ng_ServerName r) (ng_DomainName r) (ng_SystemTime r)
        (ng_ServerTimeZone r).
Proof.
  unfold accept_negotiation, NEGOTIATE_ENCRYPT_PASSWORDS, NEGOTIATE_USER_SECURITY,
    NEGOTIATE_SECURITY_SIGNATURES_REQUIRED.
  destruct (Z.eqb_spec (ng_DialectIndex r) 0xFFFF); [done|].
  destruct (Z.eqb_spec (Z.land (ng_Capabilities r) requiredCaps) requiredCaps); [|done].
  destruct (Z.eqb_spec (Z.land (ng_SecurityMode r) 2) 0); [done|].
  destruct (Z.eqb_spec (Z.land (ng_SecurityMode r) 1) 0); [done|].
  destruct (Z.eqb_spec (Z.land (ng_SecurityMode r) 8) 0); [|done]. cbn [negb].
  rewrite make_ok by apply len_nonneg. cbn [bind].
  rewrite copy_at_all by (rewrite len_replicate; unfold len; lia). cbn [bind]. by intros [= <-].
Qed.

Lemma land_bit a k : 0 <= k -> Z.land a (2 ^ k) <> 0 -> Z.testbit a k = true.
Proof.
  intros Hk. destruct (Z.testbit a k) eqn:E; [done|]. intros []. apply Z.bits_inj'. intros n Hn.
  rewrite Z.land_spec, Z.pow2_bits_eqb, Z.bits_0 by done.
  destruct (Z.eqb_spec k n) as [<-|]; [by rewrite E|apply andb_false_r].
Qed.

Lemma land_mask a m k : Z.land a m = m -> Z.testbit m k = true -> Z.testbit a k = true.
Proof. intros H Hm. rewrite <- H, Z.land_spec in Hm. by apply andb_prop in Hm as [? _]. Qed.

(** A negotiated connection has a server that speaks one of the dialects and
    does Unicode, 64-bit offsets, NT commands and NT status codes (capability
    bits 2, 3, 4, 6), authenticates users (mode bit 0) by challenge (bit 1) and
    does not require signing (bit 3); its parameters are those of the reply, and
    any other reply is an error. *)
Theorem Negotiate_accepts {T} `{TransportLaws T} t n t' :
  t_ok t -> Negotiate t = (Ok n, t') ->
  exists params data r,
    DecodeNegotiateResponse params data = Ok r /\ ng_DialectIndex r <> 0xFFFF /\
    Forall (fun k => Z.testbit (capabilities n) k = true) [2; 3; 4; 6] /\
    Z.testbit (securityMode n) 0 = true /\ Z.testbit (securityMode n) 1 = true /\
    Z.testbit (securityMode n) 3 = false /\
    n = mkNegotiated (ng_Capabilities r) (ng_MaxBufferSize r) (ng_MaxMpxCount r) (ng_SessionKey r)
          (ng_SecurityMode r) (ng_Challenge r) (ng_ServerName r) (ng_DomainName r) (ng_SystemTime r)
          (ng_ServerTimeZone r).
Proof.
  intros Ht Hn. unfold Negotiate in Hn. inv_calls.
  destruct o0 as [e|]; [by destruct (_ || _)|]. destruct o as [resp|]; [|done]. inv_calls.
  apply accept_negotiation_Ok in E3 as (H1 & H2 & H3 & H4 & H5 & ->).
  exists (r_params resp), (r_data resp), a0. cbn [capabilities securityMode].
  split; [done|]. split; [done|]. split; [repeat constructor; by eapply land_mask|].
  split; [by apply (land_bit _ 0)|]. split; [by apply (land_bit _ 1)|]. split; [|done].
  destruct (Z.testbit (ng_SecurityMode a0) 3) eqn:E3; [|done].
  exfalso. assert (Z.testbit (Z.land (ng_SecurityMode a0) 8) 3 = true) as Hb
    by (rewrite Z.land_spec, E3; done). by rewrite H5 in Hb.
Qed.

(** A header of a reply. *)
Definition reply_of (command status u tid : Z) : Header :=
  mkHeader ProtocolSMB1 command status SMB_FLAGS_REPLY 0 0 (replicate 8 Byte.x00) 0 tid 0 u 0.

Definition negotiate_params (mode caps : Z) : bytes :=
  le_put 2 0 ++ [byte_of mode] ++ le_put 2 50 ++ le_put 2 1 ++ le_put 4 16644 ++ le_put 4 65536
  ++ le_put 4 0 ++ le_put 4 caps ++ le_put 8 0 ++ le_put 2 0 ++ [byte_of 0].
Definition negotiate_script : script :=
  mkScript [] [response_of (reply_of SMB_COM_NEGOTIATE 0 0 0) (negotiate_params 3 0x8000005C)
                 (replicate 16 Byte.x01)].
Definition example_negotiated : Negotiated :=
  mkNegotiated 0x8000005C 16644 50 0 3 [] [] [] 0 0.

Lemma Negotiate_accepts_witness :
  exists t', Negotiate negotiate_script = (Ok example_negotiated, t') /\
    Z.testbit (securityMode example_negotiated) 0 = true.
Proof.
  eexists. split; [vm_compute; reflexivity|].
  destruct (Negotiate_accepts (T := script) negotiate_script example_negotiated (Negotiate negotiate_script).2)
    as (_ & _ & _ & _ & _ & _ & H & _); [|vm_compute; reflexivity|exact H].
  apply Forall_cons. split; [apply response_of_received|by apply Forall_nil].
Defined.

(** ** Runs of calls *)

Lemma bind_run {S A B} (m : M S A) (f : A -> M S B) s a s1 :
  m s = (Ok a, s1) -> (let* x := m in f x) s = f a s1.
Proof. intros E. unfold mbind_M. by rewrite E. Qed.
Lemma wrap_run {S A} fmt (m : M S A) s a s1 : m s = (Ok a, s1) -> wrap_err fmt m s = (Ok a, s1).
Proof. intros E. unfold wrap_err. by rewrite E. Qed.
Lemma lift_run {S A} (r : res A) (s : S) a : r = Ok a -> lift r s = (Ok a, s).
Proof. by intros ->. Qed.
Lemma on_conn_run {T I A} (m : M T A) t (i : I) a t' : m t = (Ok a, t') -> on_conn m (t, i) = (Ok a, (t', i)).
Proof. intros E. unfold on_conn. cbn [fst snd]. by rewrite E. Qed.
Lemma on_initiator_run {T I A} (m : M I A) (t : T) i a i' :
  m i = (Ok a, i') -> on_initiator m (t, i) = (Ok a, (t, i')).
Proof. intros E. unfold on_initiator. cbn [fst snd]. by rewrite E. Qed.

Lemma exchange_run h p d log r rs :
  r_err r = None -> exchange h p d (mkScript log (r :: rs)) = (Ok r, mkScript (log ++ [(h, p, d)]) rs).
Proof. intros E. unfold exchange, sendRecv_both, mbind_M. cbn. by rewrite E. Qed.
Lemma check_reply_run {T} r (t : T) : r_err r = None -> check_reply r t = (Ok (), t).
Proof. intros E. unfold check_reply. by rewrite E. Qed.
Lemma response_of_no_error h p d : IsError h = false -> r_err (response_of h p d) = None.
Proof. intros E. unfold response_of. by rewrite E. Qed.

Create HintDb run.
#[export] Hint Resolve wrap_run lift_run on_conn_run on_initiator_run exchange_run check_reply_run
  response_of_no_error : run.
#[export] Hint Extern 1 (reply_header _ = Ok _) => reflexivity : run.

(** Runs the next call of a sequence. *)
Ltac run := erewrite bind_run; [|solve [eauto with run]]; cbv zeta beta iota.

(** ** Logging on: properties *)

Section logon.
Context {I : Type} `{Initiator I} (c : Negotiated).

Definition setup_exchange (msg : bytes) (h : Header) (log : list (Header * bytes * bytes)) : Prop :=
  exists params data, EncodeSessionSetupRequest (Some (setup_request c msg)) = Ok (params, data) /\
    log = [(h, params, data)].

Lemma setup_request_sent msg : exists pd, EncodeSessionSetupRequest (Some (setup_request c msg)) = Ok pd.
Proof. rewrite EncodeSessionSetupRequest_eq. by eexists. Qed.

(** Logging on in two rounds: the server's challenge goes to the initiator,
    its answer goes back under the UID of the first reply, and the session gets
    the UID and the guest flag of the second reply, which is refused when the
    server fell back to guest and the caller did not allow it. *)
Theorem NewSession_two_rounds allowGuest i i1 i2 nmsg amsg h1 p1 d1 s1 h2 p2 d2 s2 log :
  i_Negotiate i = (Ok nmsg, i1) -> Status h1 = STATUS_MORE_PROCESSING_REQUIRED ->
  DecodeSessionSetupResponse p1 d1 (use_unicode c) = Ok s1 ->
  i_Authenticate (sr_SecurityBlob s1) i1 = (Ok amsg, i2) -> IsError h2 = false ->
  DecodeSessionSetupResponse p2 d2 (use_unicode c) = Ok s2 ->
  exists log1 log2,
    setup_exchange nmsg (NewHeader SMB_COM_SESSION_SETUP_ANDX) log1 /\
    setup_exchange amsg (set_UID (UID h1) (NewHeader SMB_COM_SESSION_SETUP_ANDX)) log2 /\
    NewSession c allowGuest (mkScript log [response_of h1 p1 d1; response_of h2 p2 d2], i) =
    (if IsGuest s2 && negb allowGuest then Err ErrGuestLogon
     else Ok (mkUserSession (UID h2) (IsGuest s2) ∅),
     (mkScript ((log ++ log1) ++ log2) [], i2)).
Proof.
  intros Hi H1 D1 Ha H2 D2.
  destruct (setup_request_sent nmsg) as [[pa da] E1]. destruct (setup_request_sent amsg) as [[pb db] E2].
  eexists _, _. split; [by exists pa, da|]. split; [by exists pb, db|].
  assert (IsError h1 = false) as HE1 by (unfold IsError; by rewrite H1).
  unfold NewSession. do 4 run. rewrite H1.
  change (STATUS_MORE_PROCESSING_REQUIRED =? STATUS_SUCCESS) with false.
  change (negb (STATUS_MORE_PROCESSING_REQUIRED =? STATUS_MORE_PROCESSING_REQUIRED)) with false. cbv iota.
  do 6 run. destruct (_ && _); [done|]. by run.
Qed.

(** When the server answers the first round with success, its guest flag is
    not looked at: a guest logon is accepted from a caller that did not allow it,
    and the session says it is not a guest's. *)
Theorem guest_logon_unchecked i i1 nmsg h1 p1 d1 s1 log :
  i_Negotiate i = (Ok nmsg, i1) -> Status h1 = STATUS_SUCCESS ->
  DecodeSessionSetupResponse p1 d1 (use_unicode c) = Ok s1 -> IsGuest s1 = true ->
  exists st, NewSession c false (mkScript log [response_of h1 p1 d1], i) =
    (Ok (mkUserSession (UID h1) false ∅), st).
Proof.
  intros Hi H1 D1 _. destruct (setup_request_sent nmsg) as [[pa da] E1]. eexists.
  assert (IsError h1 = false) as HE1 by (unfold IsError; by rewrite H1).
  unfold NewSession. do 4 run. rewrite H1. change (STATUS_SUCCESS =? STATUS_SUCCESS) with true. cbv iota.
  by run.
Qed.
End logon.

(** An initiator whose messages are fixed. *)
Definition fixed_initiator : Initiator nat := {|
  i_Negotiate n := (Ok (str "NTLMSSP1"), S n);
  i_Authenticate b n := (Ok (b ++ str "NTLMSSP3"), S n);
|}.

(** A session setup reply with the given action and security blob. *)
Definition setup_reply_words (action : Z) (blob : bytes) : bytes :=
  [byte_of 0xFF; byte_of 0] ++ le_put 2 0 ++ le_put 2 action ++ le_put 2 (len blob).
Definition setup_reply (status u action : Z) (blob : bytes) : response :=
  response_of (reply_of SMB_COM_SESSION_SETUP_ANDX status u 0) (setup_reply_words action blob) blob.

Lemma NewSession_two_rounds_witness :
  exists log st,
    @NewSession script _ nat fixed_initiator example_negotiated true
      (mkScript [] [setup_reply STATUS_MORE_PROCESSING_REQUIRED 7 0 (str "NTLMSSP2");
                    setup_reply STATUS_SUCCESS 7 1 []], O) =
    (Ok (mkUserSession 7 true ∅), (mkScript log [], st)).
Proof.
  destruct (@NewSession_two_rounds nat fixed_initiator example_negotiated true 0%nat 1%nat 2%nat
    (str "NTLMSSP1") (str "NTLMSSP2NTLMSSP3")
    (reply_of SMB_COM_SESSION_SETUP_ANDX STATUS_MORE_PROCESSING_REQUIRED 7 0)
    (setup_reply_words 0 (str "NTLMSSP2")) (str "NTLMSSP2")
    (mkSessionSetupResponse 0xFF 0 0 0 8 (str "NTLMSSP2") [] [] [])
    (reply_of SMB_COM_SESSION_SETUP_ANDX STATUS_SUCCESS 7 0) (setup_reply_words 1 []) []
    (mkSessionSetupResponse 0xFF 0 0 1 0 [] [] [] []) []) as (l1 & l2 & _ & _ & E);
    [reflexivity|reflexivity|vm_compute; reflexivity|reflexivity|reflexivity|vm_compute; reflexivity|].
  exists (([] ++ l1) ++ l2), 2%nat. exact E.
Defined.

Lemma guest_logon_unchecked_witness :
  exists st,
    @NewSession script _ nat fixed_initiator example_negotiated false
      (mkScript [] [setup_reply STATUS_SUCCESS 7 1 []], O) = (Ok (mkUserSession 7 false ∅), st).
Proof.
  apply (@guest_logon_unchecked nat fixed_initiator example_negotiated 0%nat 1%nat (str "NTLMSSP1")
    (reply_of SMB_COM_SESSION_SETUP_ANDX STATUS_SUCCESS 7 0) (setup_reply_words 1 []) []
    (mkSessionSetupResponse 0xFF 0 0 1 0 [] [] [] []) []);
    [reflexivity|reflexivity|vm_compute; reflexivity|reflexivity].
Defined.

(** ** Shares: properties *)

(** Every tree of a session is registered under its own TID. *)
Definition registered (s : UserSession) : Prop := map_Forall (fun tid t => te_TID t = tid) (trees s).

(** Connecting to a share registers the tree under its TID and leaves the
    other trees alone, disconnecting removes it and no other, both keep the UID
    and the guest flag, and the registry stays keyed by TID; the tree has the
    path asked for, in upper case, and the TID of the server's reply. *)
Theorem trees_registered {T} `{TransportLaws T} ToUpper c s path t p s' t' :
  registered s -> TreeConnect ToUpper c s path t = (Ok (p, s'), t') ->
  registered s' /\ trees s' !! te_TID p = Some p /\ te_Path p = ToUpper path /\
  (forall tid, tid <> te_TID p -> trees s' !! tid = trees s !! tid) /\
  uid s' = uid s /\ isGuest s' = isGuest s /\
  forall tid t1 s'' t2, TreeDisconnect s' tid t1 = (Ok s'', t2) ->
    registered s'' /\ trees s'' !! tid = None /\
    (forall tid', tid' <> tid -> trees s'' !! tid' = trees s' !! tid') /\
    uid s'' = uid s /\ isGuest s'' = isGuest s.
Proof.
  intros Hs Hc. unfold TreeConnect in Hc. inv_calls.
  destruct o0 as [e|], o as [resp|]; try done. inv_calls. injection Hc as <- <- <-.
  cbn [te_TID te_Path trees uid isGuest tq_Path tree_request].
  split; [by apply map_Forall_insert_2|]. split; [by rewrite lookup_insert_eq|]. split; [done|].
  split; [intros tid Ht; by rewrite lookup_insert_ne by congruence|]. split; [done|]. split; [done|].
  intros tid t1 s'' t2 Hd. unfold TreeDisconnect in Hd. inv_calls. injection Hd as <- <-.
  cbn [trees uid isGuest].
  split; [by apply map_Forall_delete, map_Forall_insert_2|]. split; [by rewrite lookup_delete_eq|].
  split; [|done]. intros tid' Ht. by rewrite lookup_delete_ne by congruence.
Qed.

Definition example_session : UserSession := mkUserSession 7 false ∅.

Definition example_tree : Tree := mkTree 3 (str "\\SRV\DATA") (str "A:") 1 [].
Definition tree_script : script :=
  mkScript [] [response_of (reply_of SMB_COM_TREE_CONNECT_ANDX 0 7 3)
     ([byte_of 0xFF; byte_of 0] ++ le_put 2 0 ++ le_put 2 1) (str "A:" ++ [Byte.x00])].

Lemma trees_registered_witness :
  exists s' t',
    TreeConnect id example_negotiated example_session (str "\\SRV\DATA") tree_script =
      (Ok (example_tree, s'), t') /\ trees s' !! 3 = Some example_tree.
Proof.
  set (s' := mkUserSession 7 false {[3 := example_tree]}).
  assert (exists t', TreeConnect id example_negotiated example_session (str "\\SRV\DATA") tree_script =
    (Ok (example_tree, s'), t')) as [t' E] by (eexists; vm_compute; reflexivity).
  exists s', t'. split; [exact E|].
  exact (proj1 (proj2 (trees_registered (T := script) id example_negotiated example_session
    (str "\\SRV\DATA") tree_script example_tree s' t' (map_Forall_empty _) E))).
Defined.

(** ** Which requests are sent *)

(** All requests that [m] sends to a scripted server satisfy [P]. *)
Definition sends_only {A} (P : Header -> Prop) (m : M script A) : Prop :=
  forall s, exists log, sent (m s).2 = sent s ++ log /\ Forall (fun q => P q.1.1) log.

Lemma sends_ret {A} P (a : A) : sends_only P (ret a).
Proof. intros s. exists []. by rewrite app_nil_r. Qed.
Lemma sends_fail {A} P e : sends_only P (@fail script A e).
Proof. intros s. exists []. by rewrite app_nil_r. Qed.
Lemma sends_lift {A} P (r : res A) : sends_only P (lift r).
Proof. intros s. exists []. by rewrite app_nil_r. Qed.
Lemma sends_bind {A B} P (m : M script A) (f : A -> M script B) :
  sends_only P m -> (forall a, sends_only P (f a)) -> sends_only P (mbind_M m f).
Proof.
  intros Hm Hf s. destruct (Hm s) as (l1 & E1 & F1). unfold mbind_M. destruct (m s) as [[a|e|] s1].
  - destruct (Hf a s1) as (l2 & E2 & F2). exists (l1 ++ l2).
    rewrite E2. cbn [snd] in E1. rewrite E1, app_assoc. split; [done|]. by apply Forall_app.
  - by exists l1.
  - by exists l1.
Qed.
Lemma sends_wrap {A} P fmt (m : M script A) : sends_only P m -> sends_only P (wrap_err fmt m).
Proof. intros Hm s. destruct (Hm s) as (l & E & F). exists l. unfold wrap_err. by destruct (m s) as [[| |] ?]. Qed.
Lemma sends_sendRecv_both (P : Header -> Prop) h p d : P h -> sends_only P (sendRecv_both h p d).
Proof.
  intros Hh [log [|r rs]]; exists [(h, p, d)]; (split; [done|]); by repeat constructor.
Qed.
Lemma sends_transaction (P : Header -> Prop) h p d : P h -> sends_only P (t_sendRecvTransaction h p d).
Proof.
  intros Hh [log [|r rs]]; exists [(h, p, d)]; (split; [done|]); by repeat constructor.
Qed.
Lemma sends_exchange (P : Header -> Prop) h p d : P h -> sends_only P (exchange h p d).
Proof.
  intros Hh. apply sends_bind; [by apply sends_sendRecv_both|]. intros [[resp|] [e|]];
    first [apply sends_ret|apply sends_fail|apply sends_lift].
Qed.
Lemma sends_check_reply P r : sends_only P (check_reply r).
Proof. unfold check_reply. destruct (r_err r); [apply sends_fail|apply sends_ret]. Qed.

Create HintDb sends.
#[export] Hint Resolve sends_ret sends_fail sends_lift sends_wrap sends_exchange sends_sendRecv_both
  sends_transaction sends_check_reply : sends.
Ltac sends :=
  repeat first [ progress intros | progress cbv beta | solve [eauto with sends] | apply sends_bind
               | match goal with |- sends_only _ (let (_, _) := ?x in _) => destruct x end ].

Lemma sends_transaction_reply (P : Header -> Prop) h p d : P h -> sends_only P (transaction_reply h p d).
Proof.
  intros Hh. unfold transaction_reply. sends. destruct (r_err r); sends. by destruct (IsError _); sends.
Qed.
#[export] Hint Resolve sends_transaction_reply : sends.

Lemma sends_SendTransact2 (P : Header -> Prop) c s t sub params data :
  P (tree_header SMB_COM_TRANSACTION2 s t) -> sends_only P (SendTransact2 c s t sub params data).
Proof. intros. unfold SendTransact2. sends. Qed.
Lemma sends_SendSetInformation (P : Header -> Prop) c s t path attrs time :
  P (tree_header SMB_COM_SET_INFORMATION s t) -> sends_only P (SendSetInformation c s t path attrs time).
Proof. intros. unfold SendSetInformation. sends. Qed.
#[export] Hint Resolve sends_SendTransact2 sends_SendSetInformation : sends.

(** A request for tree [t] of session [s]. *)
Definition addressed (s : UserSession) (t : Tree) (h : Header) : Prop :=
  UID h = uid s /\ TID h = te_TID t.

(** Every request that an operation on a share sends carries the UID of the
    session and the TID of the share, whatever the server answers. *)
Theorem tree_requests_addressed c s t path path2 name params data sub attrs time :
  sends_only (addressed s t) (SendRename c s t path path2) /\
  sends_only (addressed s t) (SendDeleteDirectory c s t path) /\
  sends_only (addressed s t) (SendSetInformation c s t path attrs time) /\
  sends_only (addressed s t) (SendTransact2 c s t sub params data) /\
  sends_only (addressed s t) (SendTransaction c s t name params data) /\
  sends_only (addressed s t) (SetPathAttributes c s t path attrs).
Proof.
  assert (forall cmd, addressed s t (tree_header cmd s t)) as Ha by done.
  split_and!; [unfold SendRename|unfold SendDeleteDirectory|unfold SendSetInformation|unfold SendTransact2
    |unfold SendTransaction|unfold SetPathAttributes]; sends.
  intros st. match goal with |- context [SendTransact2 c s t ?sub ?p ?d st] =>
    destruct (sends_SendTransact2 (addressed s t) c s t sub p d (Ha _) st) as (l1 & E1 & F1);
    destruct (SendTransact2 c s t sub p d st) as [[r|e|] st1]; [by exists l1| |by exists l1] end.
  destruct (is_err e _); [|by exists l1]. cbn [snd] in E1.
  destruct (sends_SendSetInformation (addressed s t) c s t path (dosAttributes attrs) 0 (Ha _) st1)
    as (l2 & E2 & F2).
  exists (l1 ++ l2). rewrite E2, E1, app_assoc. split; [done|]. by apply Forall_app.
Qed.

(** ** Setting attributes: properties *)

Lemma testbit_lor2 a b k : Z.testbit (Z.lor a b) k = Z.testbit a k || Z.testbit b k.
Proof. apply Z.lor_spec. Qed.

(** The DOS attributes are bits 0, 1, 2 and 5. *)
Lemma dosAttributes_bit attrs k : 0 <= k ->
  Z.testbit (dosAttributes attrs) k = Z.testbit attrs k && bool_decide (k = 0 \/ k = 1 \/ k = 2 \/ k = 5).
Proof.
  intros Hk. unfold dosAttributes, wrap. destruct (Z.ltb_spec k 16) as [H16|H16].
  - rewrite Z.mod_pow2_bits_low, Z.land_spec by lia. f_equal.
    assert (k = 0 \/ k = 1 \/ k = 2 \/ k = 3 \/ k = 4 \/ k = 5 \/ k = 6 \/ k = 7 \/ k = 8 \/ k = 9 \/
      k = 10 \/ k = 11 \/ k = 12 \/ k = 13 \/ k = 14 \/ k = 15) as Hc by lia.
    destruct_or! Hc; subst k; vm_compute; reflexivity.
  - rewrite Z.mod_pow2_bits_high by lia. rewrite bool_decide_false by lia. by rewrite andb_false_r.
Qed.

(** A transaction refused with an error status. *)
Lemma transaction_refused h p d log hr rs :
  IsError hr = true ->
  transaction_reply h p d (mkScript log (response_of hr [] [] :: rs)) =
  (Err (NtStatus (Status hr)), mkScript (log ++ [(h, p, d)]) rs).
Proof.
  intros He.
  assert (r_err (response_of hr [] []) = Some (NtStatus (Status hr))) as Hr.
  { unfold response_of. rewrite He. cbn [r_err]. unfold Header_Error, StatusToError.
    destruct (Z.eqb_spec (Status hr) STATUS_SUCCESS) as [E|_]; [|done].
    unfold IsError in He. by rewrite E in He. }
  assert (failed (response_of hr [] []) = true) as Hf.
  { unfold failed. rewrite Hr. cbn [r_header response_of]. by rewrite He. }
  unfold transaction_reply, mbind_M. cbn [t_sendRecvTransaction script_transport replies sent].
  cbn [transaction_loop]. unfold transaction_pass. cbn [awaitResponse r_header response_of].
  change (mkResponse (Some hr) [] [] _) with (response_of hr [] []).
  cbn [r_params r_data response_of].
  change (DecodeTrans2Response [] []) with (DecodeTrans2Response [] []).
  destruct (DecodeTrans2Response [] []) as [frag|e|] eqn:Ed; [|by vm_compute in Ed..].
  change (mkResponse (Some hr) [] [] _) with (response_of hr [] []). rewrite Hf. cbv iota.
  rewrite Hr. unfold lift, mbind_M. cbn [reply_header r_header response_of]. by rewrite He.
Qed.

(** Setting the attributes of a path: a TRANS2 request first; when the
    server answers that it does not support it, and only then, the core-protocol
    request for the same path with the attribute bits DOS has (0, 1, 2 and 5),
    no other bit; any other error of the server is the result, after one
    request. *)
Theorem SetPathAttributes_fallback c s t path attrs hr rs log :
  path <> [] -> IsError hr = true ->
  (exists q, q.1.1 = tree_header SMB_COM_TRANSACTION2 s t /\
   SetPathAttributes c s t path attrs (mkScript log (response_of hr [] [] :: rs)) =
   if Status hr =? STATUS_NOT_SUPPORTED
   then SendSetInformation c s t path (dosAttributes attrs) 0 (mkScript (log ++ [q]) rs)
   else (Err (NtStatus (Status hr)), mkScript (log ++ [q]) rs)) /\
  forall k, 0 <= k -> Z.testbit (dosAttributes attrs) k =
    Z.testbit attrs k && bool_decide (k = 0 \/ k = 1 \/ k = 2 \/ k = 5).
Proof.
  intros Hp He. split; [|intros k Hk; by apply dosAttributes_bit].
  unfold SetPathAttributes.
  assert (exists b, EncodeFileBasicInfo (mkFileBasicInfo 0 0 0 0 attrs 0) = Ok b) as [info Ei].
  { unfold EncodeFileBasicInfo. rewrite (make_zeros 40 40) by done. cbn [bind]. unfold put32, put64.
    repeat enc_step. by eexists. }
  run. rewrite EncodeSetPathInfo_eq by done. run.
  unfold SendTransact2. rewrite EncodeTrans2Request_eq by (autorewrite with len; lia). cbv zeta.
  erewrite bind_run by (by apply lift_run). cbv beta iota. rewrite transaction_refused by done.
  eexists (_, _, _). split; [reflexivity|]. cbn [is_err].
  rewrite orb_false_r. destruct (Z.eqb_spec (Status hr) STATUS_NOT_SUPPORTED) as [->|Hn].
  - by rewrite bool_decide_true.
  - by rewrite bool_decide_false by congruence.
Qed.

Lemma SetPathAttributes_fallback_witness :
  exists q,
    SetPathAttributes example_negotiated example_session example_tree (str "a.txt") 0x81
      (mkScript [] [response_of (reply_of SMB_COM_TRANSACTION2 STATUS_NOT_SUPPORTED 7 3) [] [];
                    response_of (reply_of SMB_COM_SET_INFORMATION 0 7 3) [] []]) =
    SendSetInformation example_negotiated example_session example_tree (str "a.txt") 1 0
      (mkScript [q] [response_of (reply_of SMB_COM_SET_INFORMATION 0 7 3) [] []]) /\
    Command q.1.1 = SMB_COM_TRANSACTION2.
Proof.
  destruct (SetPathAttributes_fallback example_negotiated example_session example_tree (str "a.txt") 0x81
    (reply_of SMB_COM_TRANSACTION2 STATUS_NOT_SUPPORTED 7 3)
    [response_of (reply_of SMB_COM_SET_INFORMATION 0 7 3) [] []] [])
    as [(q & Eq & E) _]; [discriminate|reflexivity|].
  exists q. split; [exact E|]. rewrite Eq. reflexivity.
Defined.

(** ** Warnings *)

(** The warning status of a TRANS2 or TRANSACTION reply is not passed on:
    the [Status] of a response the caller gets is zero, whatever the server
    said, since a reply has an error only for error statuses. *)
Theorem warning_status_lost {T} `{TransportLaws T} c s t sub name params data tr r tr' :
  t_ok tr ->
  SendTransact2 c s t sub params data tr = (Ok r, tr') \/
  SendTransaction c s t name params data tr = (Ok r, tr') ->
  t2_Status r = 0.
Proof.
  intros Hok Hr.
  assert (exists h p d, transaction_reply h p d tr = (Ok r, tr')) as (h & p & d & Ht).
  { destruct Hr as [Hr|Hr]; unfold SendTransact2, SendTransaction in Hr; inv_calls;
      eexists _, _, _; exact Hr. }
  unfold transaction_reply in Ht. inv_calls.
  destruct (transaction_law _ _ _ _ _ _ Hok E) as [_ [(hr & H1 & H2) H3]].
  unfold reply_header in Ht. rewrite H1, H2 in Ht. destruct (IsError hr) eqn:Ee.
  - destruct (Header_Error hr); [|by injection Ht as <- <-]. unfold mbind_M, lift in Ht.
    by rewrite Ee in Ht.
  - by injection Ht as <- <-.
Qed.

Lemma warning_status_lost_witness :
  exists r tr',
    SendTransact2 example_negotiated example_session example_tree 1 [] []
      (mkScript [] [response_of (reply_of SMB_COM_TRANSACTION2 0x80000006 7 3) [] []]) = (Ok r, tr') /\
    t2_Status r = 0.
Proof.
  eexists _, _. split; [vm_compute; reflexivity|].
  refine (warning_status_lost (T := script) example_negotiated example_session example_tree 1 [] [] []
    (mkScript [] [response_of (reply_of SMB_COM_TRANSACTION2 0x80000006 7 3) [] []]) _
    (SendTransact2 example_negotiated example_session example_tree 1 [] []
      (mkScript [] [response_of (reply_of SMB_COM_TRANSACTION2 0x80000006 7 3) [] []])).2 _ _).
  - apply Forall_cons. split; [apply response_of_received|by apply Forall_nil].
  - left. vm_compute. reflexivity.
Defined.

(** ** Every decoder *)

(** No message of a server makes a decoder of [internal/smb1] panic or loop:
    packets, and the replies to negotiation, session setup, tree connect, file
    operations, transactions (TRANS2 and RAP) with all their listings and
    information levels, and path operations are decoded to a value or an error,
    whatever the bytes. *)
Lemma smb1_decoders_total (raw params data : bytes) level u :
  safe (DecodePacket raw) /\
  (safe (DecodeNegotiateResponse params data) /\ safe (DecodeSessionSetupResponse params data u) /\
   safe (DecodeTreeConnectResponse params data u) /\ safe (DecodeTreeDisconnectResponse params data)) /\
  (safe (DecodeNTCreateResponse params data) /\ safe (DecodeReadResponse params data) /\
   safe (DecodeWriteResponse params data) /\ safe (DecodeCloseResponse params data)) /\
  (safe (DecodeTrans2Response params data) /\ safe (ParseFileBothDirectoryInfo data) /\
   safe (DecodeFindFirst2Response params data level) /\ safe (DecodeFindNext2Response params data level) /\
   safe (DecodeQueryPathInfoResponse data level) /\ safe (DecodeFsSizeInfo data) /\
   safe (DecodeFsAllocationInfo data) /\ safe (DecodeFsVolumeInfo data)) /\
  (safe (DecodeRAPResponse params data) /\ safe (DecodeNetShareEnumResponse params data level) /\
   safe (DecodeTransactionResponse params data)) /\
  (safe (DecodeRenameResponse params data) /\ safe (DecodeSetInformationResponse params data) /\
   safe (DecodeDeleteDirectoryResponse params data)).
Proof.
  split_and!; try by apply setup_decoders_total. all: try by apply file_decoders_total.
  all: try by apply trans2_decoders_total. all: try by apply rap_decoders_total.
  - apply safe_DecodePacket.
  - unfold DecodeRenameResponse. safe_tac.
  - unfold DecodeSetInformationResponse. safe_tac.
  - unfold DecodeDeleteDirectoryResponse. safe_tac.
Qed.
