(* ===== verification/File.v ===== *)
(** * Open files ([internal/client/file.go])

    Opening and closing, reads and writes at a position in chunks of what the
    connection can carry, information about an open file, and its position.  A
    read returns the bytes it puts at the front of the caller's buffer, whose
    length is its argument [size]; like the code, reads and writes return a
    result together with an error.  Pipelined transfers are in [Transfer],
    directory listings in [Listing]. *)

From S2P Require Export Client.

(** ** Constants *)

Definition SMB_COM_CLOSE : Z := 0x04.
Definition SMB_COM_READ_ANDX : Z := 0x2E.
Definition SMB_COM_WRITE_ANDX : Z := 0x2F.
Definition SMB_COM_NT_CREATE_ANDX : Z := 0xA2.
Definition TRANS2_QUERY_FILE_INFORMATION : Z := 0x0007.
Definition TRANS2_SET_FILE_INFORMATION : Z := 0x0008.
Definition FILE_END_OF_FILE_INFORMATION : Z := 0x0104.
Definition FILE_ATTRIBUTE_NORMAL : Z := 0x00000080.
Definition SECURITY_IMPERSONATION : Z := 0x00000002.
Definition STATUS_END_OF_FILE : Z := 0xC0000011.
Definition SMBProtocolOverhead : Z := 1024.
Definition maxPipelineDepth : Z := 50.
Definition SeekStart : Z := 0.
Definition SeekCurrent : Z := 1.
Definition SeekEnd : Z := 2.
Definition ErrShortWrite : error := Errorf "short write".

(** [int64(z)] *)
Definition int64 (z : Z) : Z := let z := wrap 64 z in if z <? 2 ^ 63 then z else z - 2 ^ 64.

(** ** Sizes *)

Definition clampToNegotiatedBuffer (ceiling maxBufferSize : Z) : Z :=
  if maxBufferSize =? 0 then ceiling else
  let fits := maxBufferSize - SMBProtocolOverhead in
  if (0 <? fits) && (fits <? ceiling) then fits else ceiling.

Definition has_cap (c : Negotiated) (cap : Z) : bool := negb (Z.land (capabilities c) cap =? 0).

Definition maxReadChunk (c : Negotiated) : Z :=
  if has_cap c CAP_LARGE_READX then MaxSmallDataSize
  else clampToNegotiatedBuffer MaxSmallDataSize (maxBufferSize c).

Definition maxWriteChunk (c : Negotiated) : Z :=
  if has_cap c CAP_LARGE_WRITEX then MaxDataSize
  else clampToNegotiatedBuffer MaxSmallDataSize (maxBufferSize c).

Definition PipelineDepth (maxMpxCount : Z) : Z * bool :=
  if maxMpxCount <=? 1 then (1, false)
  else if maxPipelineDepth <? maxMpxCount then (maxPipelineDepth, true)
  else (maxMpxCount, true).

(** ** Files *)

(** The session is an argument of the methods. *)
Record File := mkFile { f_tid : Z; f_fid : Z; f_name : bytes; f_offset : Z }.

Record FileStat := mkFileStat {
  fs_CreationTime : Z;
  fs_LastAccessTime : Z;
  fs_LastWriteTime : Z;
  fs_ChangeTime : Z;
  fs_EndOfFile : Z;
  fs_AllocationSize : Z;
  fs_FileAttributes : Z;
  fs_FileName : bytes;
}.

(** [if err != nil { return h(err) }], where the function also returns a result. *)
Definition try_M {S A B} (m : M S A) (h : error -> B) (k : A -> M S B) : M S B := fun s =>
  match m s with
  | (Ok a, s) => k a s
  | (Err e, s) => (Ok (h e), s)
  | (Panic, s) => (Panic, s)
  end.
Notation "'try*' x := m 'else' h 'in' k" := (try_M m h (fun x => k))
  (at level 10, x pattern, m at level 100, h at level 100, k at level 200) : go_scope.

Section files.
Context {T : Type} `{Transport T} `{Ctx T}.

Definition settled_both (h : Header) (params data : bytes) : M T (option response * option error) :=
  fun t =>
    match t_sendRecvSettled h params data t with
    | (Ok (resp, e), t) => (Ok (Some resp, e), t)
    | (Err e, t) => (Ok (None, Some e), t)
    | (Panic, t) => (Panic, t)
    end.

(** The header of a request on an open file. *)
Definition file_header (command : Z) (s : UserSession) (f : File) : Header :=
  set_TID (f_tid f) (set_UID (uid s) (NewHeader command)).

Definition open_request (c : Negotiated) (name : bytes)
    (access shareAccess disposition createOptions : Z) : NTCreateRequest :=
  let useUnicode := use_unicode c in
  let nameLength := if useUnicode then wrap 16 (len name * 2) else wrap 16 (len name) in
  mkNTCreateRequest SMB_COM_NO_ANDX_COMMAND 0 0 0 nameLength 0 0 access 0
    FILE_ATTRIBUTE_NORMAL shareAccess disposition createOptions SECURITY_IMPERSONATION 0 name
    useUnicode.

Definition OpenFile (c : Negotiated) (s : UserSession) (t : Tree) (name : bytes)
    (access shareAccess disposition createOptions : Z) : M T File :=
  let req := open_request c name access shareAccess disposition createOptions in
  let* (params, data) := wrap_err "smb1: failed to encode nt create request"
                           (lift (EncodeNTCreateRequest (Some req))) in
  let* resp := wrap_err "smb1: nt create failed"
                 (exchange (tree_header SMB_COM_NT_CREATE_ANDX s t) params data) in
  let* _ := wrap_err "smb1: nt create returned error" (check_reply resp) in
  let* createResp := wrap_err "smb1: failed to decode nt create response"
                       (lift (DecodeNTCreateResponse (r_params resp) (r_data resp))) in
  ret (mkFile (te_TID t) (nr_FID createResp) name 0).

Definition Close_file (s : UserSession) (f : File) : M T () :=
  let* (params, data) := wrap_err "smb1: failed to encode close request"
                           (lift (EncodeCloseRequest (Some (mkCloseRequest (f_fid f) 0)))) in
  let* resp := wrap_err "smb1: close failed" (exchange (file_header SMB_COM_CLOSE s f) params data) in
  wrap_err "smb1: close returned error" (check_reply resp).

(** ** Reading *)

Definition read_request (f : File) (readSize offset : Z) : ReadRequest :=
  mkReadRequest SMB_COM_NO_ANDX_COMMAND 0 0 (f_fid f) (wrap 64 offset)
    (wrap 16 (Z.land readSize 0xFFFF)) 0 (wrap 16 (Z.land (Z.shiftr readSize 16) 0xFFFF)) 0 0.

Definition readAtChunk (c : Negotiated) (s : UserSession) (f : File) (size offset : Z)
  : M T (bytes * option error) :=
  let maxDataPerRead := maxReadChunk c in
  let readSize := if maxDataPerRead <? size then maxDataPerRead else size in
  let req := read_request f readSize offset in
  try* (params, data) := lift (EncodeReadRequest (Some req) (has_cap c CAP_LARGE_FILES)
                                 (has_cap c CAP_LARGE_READX))
    else (fun e => ([], Some (Wrapf "smb1: failed to encode read request" e))) in
  let* (resp, err) := settled_both (file_header SMB_COM_READ_ANDX s f) params data in
  match err, resp with
  | Some e, Some resp =>
    let* h := lift (reply_header resp) in
    ret ([], Some (if Status h =? STATUS_END_OF_FILE then EOF else Wrapf "smb1: read failed" e))
  | Some e, None => ret ([], Some (Wrapf "smb1: read failed" e))
  | None, None => lift Panic
  | None, Some resp =>
    match r_err resp with
    | Some e => ret ([], Some (Wrapf "smb1: read returned error" e))
    | None =>
      try* readResp := lift (DecodeReadResponse (r_params resp) (r_data resp))
        else (fun e => ([], Some (Wrapf "smb1: failed to decode read response" e))) in
      let got := take (Z.to_nat size) (rr_Data readResp) in
      ret (got, if len got =? 0 then Some EOF else None)
    end
  end.

(** The loop of [ReadAt], on what is still wanted; each pass reads a byte. *)
Fixpoint ReadAt_loop (fuel : nat) (c : Negotiated) (s : UserSession) (f : File)
    (got : bytes) (size offset : Z) : M T (bytes * option error) :=
  if len got <? size then
    match fuel with
    | O => lift Panic
    | S fuel =>
      let* (m, err) := readAtChunk c s f (size - len got) (offset + len got) in
      match err with
      | Some e => ret (got ++ m, Some e)
      | None => ReadAt_loop fuel c s f (got ++ m) size offset
      end
    end
  else ret (got, None).

Definition ReadAt (c : Negotiated) (s : UserSession) (f : File) (size offset : Z)
  : M T (bytes * option error) :=
  if size =? 0 then ret ([], None) else ReadAt_loop (Z.to_nat size) c s f [] size offset.

Fixpoint readSequential_loop (fuel : nat) (c : Negotiated) (s : UserSession) (f : File)
    (got : bytes) (size offset : Z) : M T (bytes * option error) :=
  if len got <? size then
    match fuel with
    | O => lift Panic
    | S fuel =>
      let remaining := size - len got in
      let chunkSize := if maxReadChunk c <? remaining then maxReadChunk c else remaining in
      let* (n, err) := ReadAt c s f chunkSize (offset + len got) in
      let got := got ++ n in
      match err with
      | Some e => ret (got, if bool_decide (e = EOF) && (0 <? len got) then None else Some e)
      | None => readSequential_loop fuel c s f got size offset
      end
    end
  else ret (got, None).

Definition readSequential (c : Negotiated) (s : UserSession) (f : File) (size offset : Z) :=
  readSequential_loop (Z.to_nat size) c s f [] size offset.

(** ** Writing *)

Definition write_request (f : File) (data : bytes) (offset : Z) : WriteRequest :=
  let writeSize := len data in
  mkWriteRequest SMB_COM_NO_ANDX_COMMAND 0 0 (f_fid f) (wrap 64 offset) 0 0 0
    (wrap 16 (Z.shiftr writeSize 16)) (wrap 16 (Z.land writeSize 0xFFFF)) 0 data.

Definition WriteAt (c : Negotiated) (s : UserSession) (f : File) (data : bytes) (offset : Z)
  : M T (Z * option error) :=
  if len data =? 0 then ret (0, None) else
  let maxDataPerWrite := maxWriteChunk c in
  let writeSize := if maxDataPerWrite <? len data then maxDataPerWrite else len data in
  let* chunk := lift (slice data 0 writeSize) in
  let req := write_request f chunk offset in
  try* (params, writeData) := lift (EncodeWriteRequest (Some req) (has_cap c CAP_LARGE_FILES))
    else (fun e => (0, Some (Wrapf "smb1: failed to encode write request" e))) in
  let* (resp, err) := settled_both (file_header SMB_COM_WRITE_ANDX s f) params writeData in
  match err, resp with
  | Some e, _ => ret (0, Some (Wrapf "smb1: write failed" e))
  | None, None => lift Panic
  | None, Some resp =>
    match r_err resp with
    | Some e => ret (0, Some (Wrapf "smb1: write returned error" e))
    | None =>
      try* writeResp := lift (DecodeWriteResponse (r_params resp) (r_data resp))
        else (fun e => (0, Some (Wrapf "smb1: failed to decode write response" e))) in
      ret (GetBytesWritten writeResp, None)
    end
  end.

(** The loop of [writeSequential], which looks at the context before each chunk.
    Fuel: a pass without error writes a whole chunk. *)
Fixpoint writeSequential_loop (fuel : nat) (c : Negotiated) (s : UserSession) (f : File)
    (totalWritten : Z) (data : bytes) (offset : Z)
  : M T (Z * option error) :=
  if totalWritten <? len data then
    let* cancelled := poll in
    match cancelled with
    | Some e => ret (totalWritten, Some e)
    | None =>
      match fuel with
      | O => lift Panic
      | S fuel =>
        let remaining := len data - totalWritten in
        let chunkSize := if maxWriteChunk c <? remaining then maxWriteChunk c else remaining in
        let* chunk := lift (slice data totalWritten (totalWritten + chunkSize)) in
        let* (n, err) := WriteAt c s f chunk (offset + totalWritten) in
        let totalWritten := totalWritten + n in
        match err with
        | Some e => ret (totalWritten, Some e)
        | None =>
          if n <? chunkSize then ret (totalWritten, Some ErrShortWrite)
          else writeSequential_loop fuel c s f totalWritten data offset
        end
      end
    end
  else ret (totalWritten, None).

Definition writeSequential (c : Negotiated) (s : UserSession) (f : File) (data : bytes) (offset : Z) :=
  writeSequential_loop (length data) c s f 0 data offset.

(** ** Information *)

(** [f.Tree()] *)
Definition Tree_of (f : File) : Tree := mkTree (f_tid f) [] [] 0 [].

(** The last element of a path: [end] and [start] are the loop variables. *)
Fixpoint trim_separators (n : nat) (path : bytes) (stop : byte -> bool) : nat :=
  match n with
  | O => O
  | S n' => match path !! n' with
            | Some b => if stop b then n else trim_separators n' path stop
            | None => n
            end
  end.
Definition baseName (path : bytes) : bytes :=
  let e := trim_separators (length path) path (fun b => negb (u8 b =? 0x5C)) in
  let start := trim_separators e path (fun b => u8 b =? 0x5C) in
  take (e - start) (drop start path).

Definition QueryBasicInfo (c : Negotiated) (s : UserSession) (f : File) : M T FileBasicInfo :=
  let* params := wrap_err "smb1: failed to encode query file info request"
    (lift (EncodeQueryFileInfo (f_fid f) SMB_QUERY_FILE_BASIC_INFO)) in
  let* resp := wrap_err "smb1: query file info (basic) failed"
    (SendTransact2 c s (Tree_of f) TRANS2_QUERY_FILE_INFORMATION params []) in
  wrap_err "smb1: failed to decode file basic info" (lift (DecodeFileBasicInfo (t2_Data resp))).

Definition Stat (c : Negotiated) (s : UserSession) (f : File) : M T FileStat :=
  let* params1 := wrap_err "smb1: failed to encode query file info request"
    (lift (EncodeQueryFileInfo (f_fid f) SMB_QUERY_FILE_BASIC_INFO)) in
  let* resp1 := wrap_err "smb1: query file info (basic) failed"
    (SendTransact2 c s (Tree_of f) TRANS2_QUERY_FILE_INFORMATION params1 []) in
  let* basicInfo := wrap_err "smb1: failed to decode file basic info"
    (lift (DecodeFileBasicInfo (t2_Data resp1))) in
  let* params2 := wrap_err "smb1: failed to encode query file info request"
    (lift (EncodeQueryFileInfo (f_fid f) SMB_QUERY_FILE_STANDARD_INFO)) in
  let* resp2 := wrap_err "smb1: query file info (standard) failed"
    (SendTransact2 c s (Tree_of f) TRANS2_QUERY_FILE_INFORMATION params2 []) in
  let* standardInfo := wrap_err "smb1: failed to decode file standard info"
    (lift (DecodeFileStandardInfo (t2_Data resp2))) in
  let attrs := if negb (si_Directory standardInfo =? 0)
               then Z.lor (bi_Attributes basicInfo) FILE_ATTRIBUTE_DIRECTORY
               else bi_Attributes basicInfo in
  ret (mkFileStat (bi_CreationTime basicInfo) (bi_LastAccessTime basicInfo)
         (bi_LastWriteTime basicInfo) (bi_ChangeTime basicInfo) (int64 (si_EndOfFile standardInfo))
         (int64 (si_AllocationSize standardInfo)) attrs (baseName (f_name f))).

Definition Truncate (c : Negotiated) (s : UserSession) (f : File) (size : Z) : M T () :=
  if size <? 0 then fail (Errorf "smb1: negative truncate size") else
  let* data := lift (let! d := make 8 in put64 d 0 8 (wrap 64 size)) in
  let* (params, dataBytes) := wrap_err "smb1: failed to encode set file info request"
    (lift (EncodeSetFileInfo (f_fid f) FILE_END_OF_FILE_INFORMATION data)) in
  let* _ := wrap_err "smb1: set file info failed"
    (SendTransact2 c s (Tree_of f) TRANS2_SET_FILE_INFORMATION params dataBytes) in
  ret ().

Definition SetBasicInfo (c : Negotiated) (s : UserSession) (f : File) (info : FileBasicInfo) : M T () :=
  let* data := lift (EncodeFileBasicInfo info) in
  let* (params, dataBytes) := wrap_err "smb1: failed to encode set file info request"
    (lift (EncodeSetFileInfo (f_fid f) SMB_SET_FILE_BASIC_INFO data)) in
  let* _ := wrap_err "smb1: set file info failed"
    (SendTransact2 c s (Tree_of f) TRANS2_SET_FILE_INFORMATION params dataBytes) in
  ret ().

Definition SetAttributes (c : Negotiated) (s : UserSession) (f : File) (attrs : Z) : M T () :=
  let* data := lift (EncodeFileBasicInfo (mkFileBasicInfo 0 0 0 0 attrs 0)) in
  let* (params, dataBytes) := wrap_err "smb1: failed to encode set file info request"
    (lift (EncodeSetFileInfo (f_fid f) SMB_SET_FILE_BASIC_INFO data)) in
  fun tr =>
    match SendTransact2 c s (Tree_of f) TRANS2_SET_FILE_INFORMATION params dataBytes tr with
    | (Ok _, tr) => (Ok (), tr)
    | (Panic, tr) => (Panic, tr)
    | (Err e, tr) =>
      if negb (is_err e (NtStatus STATUS_NOT_SUPPORTED))
      then (Err (Wrapf "smb1: set file info failed" e), tr)
      else wrap_err "smb1: set information failed"
             (SendSetInformation c s (Tree_of f) (f_name f) (dosAttributes attrs) 0) tr
    end.

(** ** The position *)

Definition with_offset (f : File) (offset : Z) : File := mkFile (f_tid f) (f_fid f) (f_name f) offset.
Definition GetOffset (f : File) : Z := f_offset f.

(** The file afterwards, and the result. *)
Definition SeekContext (c : Negotiated) (s : UserSession) (f : File) (offset whence : Z)
  : M T (File * (Z * option error)) :=
  let settle newOffset :=
    if newOffset <? 0 then ret (with_offset f 0, (0, Some (Errorf "smb1: negative seek position")))
    else ret (with_offset f newOffset, (newOffset, None)) in
  if whence =? SeekStart then settle offset
  else if whence =? SeekCurrent then settle (int64 (f_offset f + offset))
  else if whence =? SeekEnd then
    try* stat := Stat c s f
      else (fun e => (f, (0, Some (Wrapf "smb1: failed to get file size for SeekEnd" e)))) in
    settle (int64 (fs_EndOfFile stat + offset))
  else ret (f, (0, Some (Errorf "smb1: invalid whence value: %d"))).
End files.

(** ** A file server

    The reference the transfers are compared with: one file, served at the
    positions the requests name.  It may serve less than asked, as servers do:
    [serves] says how much of a request for so many bytes at so many it takes, and
    [eof_status] whether the end of the file is an error status or an empty
    reply; [contexts] is what the caller finds when it looks at its context. *)

Record file_server := mkFileServer {
  content : bytes;
  serves : Z -> Z -> Z;
  eof_status : bool;
  server_fid : Z;
  contexts : list (option error);
}.

(** The file with [d] written at [offset]; a gap is filled with zeros, and
    writing nothing changes nothing. *)
Definition splice (file : bytes) (offset : Z) (d : bytes) : bytes :=
  if len d =? 0 then file else
  let o := Z.to_nat offset in
  let file := file ++ replicate (o - length file) Byte.x00 in
  take o file ++ d ++ drop (o + length d) file.

(** The 64-bit position in a request, whose high half is at [hi]. *)
Definition request_offset (params : bytes) (hi : Z) : res Z :=
  let! l := u32 params 6 10 in
  let! h := if hi + 4 <=? len params then u32 params hi (hi + 4) else Ok 0 in
  Ok (l + h * 2 ^ 32).

Definition read_reply (d : bytes) : response :=
  response_of (reply_of SMB_COM_READ_ANDX 0 0 0)
    ([byte_of 0xFF] ++ [byte_of 0] ++ le_put 2 0 ++ le_put 2 0 ++ le_put 2 0 ++ le_put 2 0
     ++ le_put 2 (len d) ++ le_put 2 59 ++ le_put 4 (Z.shiftr (len d) 16) ++ replicate 6 Byte.x00) d.
Definition write_reply (n : Z) : response :=
  response_of (reply_of SMB_COM_WRITE_ANDX 0 0 0)
    ([byte_of 0xFF] ++ [byte_of 0] ++ le_put 2 0 ++ le_put 2 n ++ le_put 2 0
     ++ le_put 4 (Z.shiftr n 16)) [].
Definition status_reply (command status : Z) : response :=
  response_of (reply_of command status 0 0) [] [].

Definition STATUS_INVALID_HANDLE : Z := 0xC0000008.

Definition serve_read (params : bytes) (s : file_server) : res response :=
  let! fid := u16 params 4 6 in
  let! n := u16 params 10 12 in
  let! offset := request_offset params 20 in
  if negb (fid =? server_fid s) then Ok (status_reply SMB_COM_READ_ANDX STATUS_INVALID_HANDLE) else
  let avail := len (content s) - offset in
  if avail <=? 0
  then Ok (if eof_status s then status_reply SMB_COM_READ_ANDX STATUS_END_OF_FILE else read_reply [])
  else
    let k := Z.max 1 (Z.min (serves s offset n) (Z.min n avail)) in
    Ok (read_reply (take (Z.to_nat k) (drop (Z.to_nat offset) (content s)))).

(** The bytes it takes of a write are a prefix. *)
Definition serve_write (params data : bytes) (s : file_server) : res (response * file_server) :=
  let! fid := u16 params 4 6 in
  let! high := u16 params 18 20 in
  let! low := u16 params 20 22 in
  let! start := u16 params 22 24 in
  let! offset := request_offset params 24 in
  if negb (fid =? server_fid s) then Ok (status_reply SMB_COM_WRITE_ANDX STATUS_INVALID_HANDLE, s) else
  let from := start - (HeaderSize + 1 + len params + 2) in
  let! d := slice data from (from + (low + high * 2 ^ 16)) in
  let k := Z.max 0 (Z.min (serves s offset (len d)) (len d)) in
  Ok (write_reply k, mkFileServer (splice (content s) offset (take (Z.to_nat k) d)) (serves s)
                       (eof_status s) (server_fid s) (contexts s)).

Definition serve (h : Header) (params data : bytes) (s : file_server) : res response * file_server :=
  if Command h =? SMB_COM_READ_ANDX then (serve_read params s, s)
  else if Command h =? SMB_COM_WRITE_ANDX then
    match serve_write params data s with
    | Ok (r, s) => (Ok r, s)
    | Err e => (Err e, s)
    | Panic => (Panic, s)
    end
  else (Err (Errorf "not a transfer"), s).

Definition serve_both (h : Header) (params data : bytes) (s : file_server)
  : res (response * option error) * file_server :=
  match serve h params data s with
  | (Ok r, s) => (Ok (r, r_err r), s)
  | (Err e, s) => (Err e, s)
  | (Panic, s) => (Panic, s)
  end.

#[export] Instance file_server_transport : Transport file_server := {
  t_sendRecv := serve_both;
  t_sendRecvSettled := serve_both;
  t_sendRecvTransaction h params data s := (Err (Errorf "not a transfer"), s);
}.

#[export] Instance file_server_ctx : Ctx file_server := {
  ctx_poll s := (hd None (contexts s),
                 mkFileServer (content s) (serves s) (eof_status s) (server_fid s) (tl (contexts s)));
}.

(** ** Sizes: properties *)

Lemma clamp_range ceiling m : 0 < ceiling -> 0 < clampToNegotiatedBuffer ceiling m <= ceiling.
Proof.
  intros Hc. unfold clampToNegotiatedBuffer, SMBProtocolOverhead.
  destruct (m =? 0); [lia|]. destruct (_ && _) eqn:E; lia.
Qed.

Lemma maxReadChunk_range c : 0 < maxReadChunk c <= MaxSmallDataSize.
Proof.
  unfold maxReadChunk. destruct (has_cap _ _); [unfold MaxSmallDataSize; lia|].
  by apply clamp_range.
Qed.

Lemma maxWriteChunk_range c : 0 < maxWriteChunk c <= MaxDataSize.
Proof.
  unfold maxWriteChunk. destruct (has_cap _ _); [unfold MaxDataSize; lia|].
  pose proof (clamp_range MaxSmallDataSize (maxBufferSize c) eq_refl).
  unfold MaxSmallDataSize, MaxDataSize in *. lia.
Qed.

(** Transfer sizes: a chunk is never empty and always fits its length
    fields and a packet; without the large-transfer capability it also fits the
    negotiated buffer, overhead included, whenever that buffer holds more than
    the overhead; and the number of requests in flight is between one and fifty
    and never above what the server takes. *)
Theorem transfer_sizes c :
  0 <= maxMpxCount c ->
  0 < maxReadChunk c <= MaxSmallDataSize /\ 0 < maxWriteChunk c <= MaxDataSize /\
  (SMBProtocolOverhead < maxBufferSize c ->
   (has_cap c CAP_LARGE_READX = false -> maxReadChunk c + SMBProtocolOverhead <= maxBufferSize c) /\
   (has_cap c CAP_LARGE_WRITEX = false -> maxWriteChunk c + SMBProtocolOverhead <= maxBufferSize c)) /\
  1 <= (PipelineDepth (maxMpxCount c)).1 <= 50 /\
  (PipelineDepth (maxMpxCount c)).1 <= Z.max 1 (maxMpxCount c).
Proof.
  intros Hm. split; [apply maxReadChunk_range|]. split; [apply maxWriteChunk_range|].
  assert (SMBProtocolOverhead < maxBufferSize c ->
    clampToNegotiatedBuffer MaxSmallDataSize (maxBufferSize c) + SMBProtocolOverhead <= maxBufferSize c) as Hf.
  { unfold clampToNegotiatedBuffer, SMBProtocolOverhead. intros Hb.
    destruct (Z.eqb_spec (maxBufferSize c) 0); [lia|]. destruct (_ && _) eqn:E; lia. }
  split.
  - intros Hb. unfold maxReadChunk, maxWriteChunk. split; intros ->; by apply Hf.
  - unfold PipelineDepth, maxPipelineDepth.
    destruct (Z.leb_spec (maxMpxCount c) 1); cbn [fst]; [lia|].
    destruct (Z.ltb_spec 50 (maxMpxCount c)); cbn [fst]; lia.
Qed.

Lemma transfer_sizes_witness :
  0 <= 50 /\ 1 <= (PipelineDepth (maxMpxCount example_negotiated)).1 <= 50.
Proof.
  split; [lia|]. apply (transfer_sizes example_negotiated). vm_compute. discriminate.
Defined.

(** A buffer that the overhead alone fills does not limit a chunk at all. *)
Lemma tiny_buffer_unlimited m :
  0 < m <= SMBProtocolOverhead -> clampToNegotiatedBuffer MaxSmallDataSize m = MaxSmallDataSize.
Proof.
  intros Hm. unfold clampToNegotiatedBuffer. destruct (Z.eqb_spec m 0); [lia|].
  by rewrite (proj2 (Z.ltb_ge 0 _)) by lia.
Qed.

(** ** Reading: properties *)

Lemma land_low16 n : 0 <= n < 2 ^ 16 -> wrap 16 (Z.land n 0xFFFF) = n.
Proof.
  intros Hn. change 0xFFFF with (Z.ones 16). rewrite Z.land_ones by lia.
  unfold wrap. rewrite Z.mod_mod by lia. by apply Z.mod_small.
Qed.

Lemma request_offset_halves params lo hi o z :
  u32 params 6 10 = Ok lo -> o + 4 <= len params -> u32 params o (o + 4) = Ok hi ->
  lo + hi * 2 ^ 32 = z -> request_offset params o = Ok z.
Proof.
  intros E1 Hl E2 <-. unfold request_offset. rewrite E1. cbn [bind].
  rewrite (proj2 (Z.leb_le _ _)) by lia. by rewrite E2.
Qed.

(** The server's answer to one read request of an open file. *)
Lemma serve_read_request f n offset lr s :
  0 <= f_fid f < 2 ^ 16 -> f_fid f = server_fid s -> 0 <= offset < 2 ^ 64 -> 0 <= n < 2 ^ 16 ->
  exists params, EncodeReadRequest (Some (read_request f n offset)) true lr = Ok (params, []) /\
    serve_read params s =
    (let avail := len (content s) - offset in
     if avail <=? 0
     then Ok (if eof_status s then status_reply SMB_COM_READ_ANDX STATUS_END_OF_FILE else read_reply [])
     else Ok (read_reply (take (Z.to_nat (Z.max 1 (Z.min (serves s offset n) (Z.min n avail))))
                            (drop (Z.to_nat offset) (content s))))).
Proof.
  intros Hf Hs Ho Hn. set (r := read_request f n offset).
  assert (rq_Offset r = offset) as Er by (cbn; by rewrite wrap_small).
  assert (rq_MaxCountOfBytesToReturn r = n) as En by (cbn; by apply land_low16).
  destruct (EncodeReadRequest_fields r true lr) as (p & lo & E & _ & E1 & E2 & E3 & _ & hi & E4 & E5);
    [done|by rewrite Er|by rewrite En|apply Z.mod_pos_bound; lia|].
  exists p. split; [done|]. unfold serve_read.
  assert (len p = 24) as Hl.
  { rewrite EncodeReadRequest_eq in E. injection E as <-. by destruct lr. }
  rewrite E1, E3. cbn [bind]. rewrite (request_offset_halves p lo hi 20 offset) by (done || lia || by rewrite E5).
  cbn [bind]. rewrite Er in *. change (rq_FID r) with (f_fid f). rewrite Hs, Z.eqb_refl, En. cbn [negb]. by cbv zeta.
Qed.

Lemma DecodeReadResponse_reply (d : bytes) :
  len d < 2 ^ 16 ->
  exists r, DecodeReadResponse (r_params (read_reply d)) d = Ok r /\ rr_Data r = d.
Proof.
  intros Hd. unfold read_reply, response_of. cbn [r_params]. pose proof (len_nonneg d).
  set (p := [byte_of 0xFF] ++ _). assert (len p = 24) as Hp by (subst p; autorewrite with len; lia).
  unfold DecodeReadResponse. rewrite Hp. cbn [Z.ltb Z.compare].
  subst p. wire_read. rewrite (Z.shiftr_div_pow2 (len d) 16), (Z.div_small (len d)) by lia.
  rewrite read_section_eq. unfold HeaderSize.
  rewrite (wrap_small 16 (len d)), (wrap_small 16 59), (wrap_small 32 0) by lia.
  rewrite combine_eq by lia. replace (len d + 0 * 2 ^ 16) with (len d) by lia. cbv zeta.
  change (59 - (32 + 1 + 24 + 2)) with 0. change (0 <? 0) with false. cbn [orb].
  rewrite (proj2 (Z.ltb_ge (len d) 0)) by lia.
  destruct (Z.ltb_spec 0 (len d)).
  - rewrite slice_whole by lia. change (0 + len d) with (len d). rewrite (Z.ltb_irrefl (len d)). cbn [bind].
    eexists. split; [reflexivity|done].
  - cbn [bind]. eexists. split; [reflexivity|]. symmetry. apply len_0_nil. cbn [rr_Data]. lia.
Qed.

(** A chunk that is answered with data, and one answered with an error. *)
Lemma readAtChunk_answered c s f size offset srv p d :
  let n := if maxReadChunk c <? size then maxReadChunk c else size in
  EncodeReadRequest (Some (read_request f n offset)) (has_cap c CAP_LARGE_FILES)
    (has_cap c CAP_LARGE_READX) = Ok (p, []) ->
  len d < 2 ^ 16 -> serve_read p srv = Ok (read_reply d) ->
  readAtChunk c s f size offset srv =
  (Ok (take (Z.to_nat size) d, if len (take (Z.to_nat size) d) =? 0 then Some EOF else None), srv).
Proof.
  intros n E1 Hd E2. unfold readAtChunk. cbv zeta. fold n. rewrite E1. unfold try_M at 1. cbn [lift].
  unfold mbind_M at 1, settled_both.
  change (t_sendRecvSettled (file_header SMB_COM_READ_ANDX s f) p [] srv)
    with (serve_both (file_header SMB_COM_READ_ANDX s f) p [] srv).
  unfold serve_both, serve. change (Command (file_header SMB_COM_READ_ANDX s f) =? SMB_COM_READ_ANDX) with true.
  cbv iota. rewrite E2. change (r_err (read_reply d)) with (@None error). cbv iota.
  change (r_err (read_reply d)) with (@None error). cbv iota.
  destruct (DecodeReadResponse_reply d Hd) as (r & E3 & E4).
  change (r_data (read_reply d)) with d. unfold try_M, lift. by rewrite E3, E4.
Qed.

Lemma readAtChunk_refused c s f size offset srv p :
  let n := if maxReadChunk c <? size then maxReadChunk c else size in
  EncodeReadRequest (Some (read_request f n offset)) (has_cap c CAP_LARGE_FILES)
    (has_cap c CAP_LARGE_READX) = Ok (p, []) ->
  serve_read p srv = Ok (status_reply SMB_COM_READ_ANDX STATUS_END_OF_FILE) ->
  readAtChunk c s f size offset srv = (Ok ([], Some EOF), srv).
Proof.
  intros n E1 E2. unfold readAtChunk. cbv zeta. fold n. rewrite E1. unfold try_M at 1. cbn [lift].
  unfold mbind_M at 1, settled_both.
  change (t_sendRecvSettled (file_header SMB_COM_READ_ANDX s f) p [] srv)
    with (serve_both (file_header SMB_COM_READ_ANDX s f) p [] srv).
  unfold serve_both, serve. change (Command (file_header SMB_COM_READ_ANDX s f) =? SMB_COM_READ_ANDX) with true.
  cbv iota. rewrite E2. reflexivity.
Qed.

(** One chunk from the server: at the end of the file nothing, before it a
    prefix of what is left, not empty and not longer than asked. *)
Lemma readAtChunk_served c s f size offset srv :
  has_cap c CAP_LARGE_FILES = true -> 0 <= f_fid f < 2 ^ 16 -> f_fid f = server_fid srv ->
  0 <= offset < 2 ^ 64 -> 0 < size ->
  if len (content srv) <=? offset
  then readAtChunk c s f size offset srv = (Ok ([], Some EOF), srv)
  else exists k, 0 < k <= size /\ k <= len (content srv) - offset /\
    readAtChunk c s f size offset srv =
    (Ok (take (Z.to_nat k) (drop (Z.to_nat offset) (content srv)), None), srv).
Proof.
  intros Hc Hf Hs Ho Hsize. pose proof (maxReadChunk_range c) as Hm. unfold MaxSmallDataSize in Hm.
  set (n := if maxReadChunk c <? size then maxReadChunk c else size).
  assert (0 < n <= size /\ n < 2 ^ 16) as [Hn Hn2] by (unfold n; destruct (Z.ltb_spec (maxReadChunk c) size); lia).
  destruct (serve_read_request f n offset (has_cap c CAP_LARGE_READX) srv) as (p & E1 & E2); [lia..|].
  cbv zeta in E2. rewrite <- Hc in E1.
  destruct (Z.leb_spec (len (content srv)) offset) as [Hend|Hend].
  - rewrite (proj2 (Z.leb_le _ 0)) in E2 by lia. destruct (eof_status srv).
    + by eapply readAtChunk_refused.
    + rewrite (readAtChunk_answered c s f size offset srv p [] E1 eq_refl E2). by rewrite take_nil.
  - rewrite (proj2 (Z.leb_gt _ 0)) in E2 by lia.
    set (k := Z.max 1 _) in E2. exists k. assert (0 < k <= n /\ k <= len (content srv) - offset) as [Hk1 Hk2] by lia.
    split; [lia|]. split; [done|]. set (d := take _ _) in *.
    assert (len d = k) as Hd by (subst d; rewrite len_take, len_drop; lia).
    rewrite (readAtChunk_answered c s f size offset srv p d E1 ltac:(lia) E2).
    rewrite (take_ge d) by (unfold len in Hd; lia). by rewrite Hd, (proj2 (Z.eqb_neq k 0)) by lia.
Qed.

(** Two adjacent parts of a file. *)
Lemma take_drop_next (l : bytes) (offset m k : nat) :
  take m (drop offset l) ++ take k (drop (offset + m) l) = take (m + k) (drop offset l).
Proof. rewrite <- drop_drop. apply take_take_drop. Qed.

Section served.
Context (c : Negotiated) (s : UserSession) (f : File) (srv : file_server).
Context (Hc : has_cap c CAP_LARGE_FILES = true) (Hf : 0 <= f_fid f < 2 ^ 16)
  (Hs : f_fid f = server_fid srv).

(** What a read of [size] bytes at [offset] should give. *)
Definition file_part (size offset : Z) : bytes :=
  take (Z.to_nat size) (drop (Z.to_nat offset) (content srv)).

Lemma len_file_part size offset :
  0 <= size -> 0 <= offset -> len (file_part size offset) = Z.max 0 (Z.min size (len (content srv) - offset)).
Proof. intros. unfold file_part. rewrite len_take, len_drop. lia. Qed.

Lemma file_part_next m k offset :
  0 <= m -> 0 <= k -> 0 <= offset -> file_part m offset ++ file_part k (offset + m) = file_part (m + k) offset.
Proof.
  intros. unfold file_part. rewrite !Z2Nat.inj_add by lia. apply take_drop_next.
Qed.

Lemma file_part_clip m k offset :
  0 <= m <= k -> 0 <= offset -> len (content srv) - offset <= m -> file_part k offset = file_part m offset.
Proof.
  intros Hm Ho Hl. unfold file_part. rewrite !take_ge; [done|..]; rewrite length_drop; unfold len in *; lia.
Qed.

(** The positions a read comes to fit in 64 bits. *)
Definition fits (size offset : Z) : Prop :=
  offset < 2 ^ 64 /\ (offset + size < 2 ^ 64 \/ len (content srv) < 2 ^ 64).

Lemma ReadAt_loop_served fuel got size offset :
  0 <= offset -> fits size offset -> 0 <= got <= size -> size - got <= Z.of_nat fuel ->
  0 < size -> (got = 0 \/ got <= len (content srv) - offset) ->
  ReadAt_loop fuel c s f (file_part got offset) size offset srv =
  (Ok (file_part size offset, if size <=? len (content srv) - offset then None else Some EOF), srv).
Proof.
  intros Ho Hb. revert got. induction fuel as [|fuel IH]; intros got Hg Hfuel Hsize Ha; cbn [ReadAt_loop].
  all: assert (len (file_part got offset) = got) as Hl by (rewrite len_file_part by lia; lia); rewrite Hl.
  { assert (got = size) as -> by lia. rewrite Z.ltb_irrefl, (proj2 (Z.leb_le _ _)) by lia. done. }
  destruct (Z.ltb_spec got size) as [Hlt|Hge].
  - pose proof (readAtChunk_served c s f (size - got) (offset + got) srv Hc Hf Hs
      ltac:(unfold fits in Hb; lia) ltac:(lia)) as Hr.
    unfold mbind_M. destruct (Z.leb_spec (len (content srv)) (offset + got)) as [Hend|Hend].
    + rewrite Hr. rewrite app_nil_r. rewrite (proj2 (Z.leb_gt _ _)) by lia.
      unfold ret. by rewrite (file_part_clip got size) by lia.
    + destruct Hr as (k & Hk1 & Hk2 & ->). fold (file_part k (offset + got)).
      rewrite file_part_next by lia. apply IH; done || lia.
  - assert (got = size) as -> by lia. by rewrite (proj2 (Z.leb_le _ _)) by lia.
Qed.

Lemma ReadAt_served size offset :
  0 < size -> 0 <= offset -> fits size offset ->
  ReadAt c s f size offset srv =
  (Ok (file_part size offset, if size <=? len (content srv) - offset then None else Some EOF), srv).
Proof.
  intros Hsize Ho Hb. unfold ReadAt. rewrite (proj2 (Z.eqb_neq size 0)) by lia.
  change [] with (file_part 0 offset). apply ReadAt_loop_served; done || lia.
Qed.

Lemma readSequential_loop_served fuel got size offset :
  0 <= offset -> fits size offset -> 0 <= got <= size -> size - got <= Z.of_nat fuel ->
  (got = 0 \/ got <= len (content srv) - offset) ->
  readSequential_loop fuel c s f (file_part got offset) size offset srv =
  (Ok (file_part size offset,
       if (size <=? 0) || (offset <? len (content srv)) then None else Some EOF), srv).
Proof.
  intros Ho Hb. revert got. induction fuel as [|fuel IH]; intros got Hg Hfuel Ha; cbn [readSequential_loop].
  all: assert (len (file_part got offset) = got) as Hl by (rewrite len_file_part by lia; lia); rewrite Hl.
  { assert (got = size) as -> by lia. rewrite Z.ltb_irrefl. unfold ret. destruct (_ || _) eqn:E; [done|lia]. }
  destruct (Z.ltb_spec got size) as [Hlt|Hge].
  - pose proof (maxReadChunk_range c) as Hm.
    set (n := if maxReadChunk c <? size - got then maxReadChunk c else size - got).
    assert (0 < n <= size - got) as Hn by (unfold n; destruct (Z.ltb_spec (maxReadChunk c) (size - got)); lia).
    unfold mbind_M. rewrite ReadAt_served by (unfold fits in *; lia). rewrite file_part_next by lia.
    destruct (Z.leb_spec n (len (content srv) - (offset + got))) as [Hin|Hout].
    + apply IH; done || lia.
    + rewrite bool_decide_true by done. cbn [andb]. rewrite len_file_part by lia.
      rewrite (file_part_clip (got + n) size) by lia. unfold ret.
      destruct (Z.ltb_spec 0 (Z.max 0 (Z.min (got + n) (len (content srv) - offset))));
        destruct ((size <=? 0) || (offset <? len (content srv))) eqn:E; try done; lia.
  - assert (got = size) as -> by lia. unfold ret. destruct (_ || _) eqn:E; [done|lia].
Qed.

(** C13: reading: from any server of a file, whatever part of each request it
    serves and however it says that the file ends, [ReadAt] gets exactly the
    bytes of the file at the position, as many as were asked for, and [io.EOF]
    exactly when the file ends before that; a sequential read of any size gets
    the same bytes, and [io.EOF] only when there is none. *)
Theorem reads_are_faithful size offset :
  0 < size -> 0 <= offset -> offset + size < 2 ^ 64 ->
  ReadAt c s f size offset srv =
    (Ok (take (Z.to_nat size) (drop (Z.to_nat offset) (content srv)),
         if size <=? len (content srv) - offset then None else Some EOF), srv) /\
  readSequential c s f size offset srv =
    (Ok (take (Z.to_nat size) (drop (Z.to_nat offset) (content srv)),
         if offset <? len (content srv) then None else Some EOF), srv).
Proof.
  intros Hsize Ho Hb. assert (fits size offset) by (unfold fits; lia). split; [by apply ReadAt_served|].
  unfold readSequential. change [] with (file_part 0 offset).
  rewrite readSequential_loop_served by (done || lia). by rewrite (proj2 (Z.leb_gt size 0)) by lia.
Qed.
End served.

Definition example_server : file_server :=
  mkFileServer (str "hello, world") (fun _ n => n / 2) true 9 [].
Definition example_file : File := mkFile 3 9 (str "\a.txt") 0.

Lemma reads_are_faithful_witness :
  ReadAt example_negotiated example_session example_file 7 7 example_server =
    (Ok (str "world", Some EOF), example_server) /\
  readSequential example_negotiated example_session example_file 5 0 example_server =
    (Ok (str "hello", None), example_server).
Proof.
  split.
  - exact (proj1 (reads_are_faithful example_negotiated example_session example_file example_server
      eq_refl ltac:(cbn; lia) eq_refl 7 7 eq_refl ltac:(lia) eq_refl)).
  - exact (proj2 (reads_are_faithful example_negotiated example_session example_file example_server
      eq_refl ltac:(cbn; lia) eq_refl 5 0 eq_refl ltac:(lia) eq_refl)).
Defined.

(** ** Writing: properties *)

Lemma length_halves n : 0 <= n < 2 ^ 32 ->
  wrap 16 (Z.land n 0xFFFF) + wrap 16 (wrap 16 (Z.shiftr n 16)) * 2 ^ 16 = n.
Proof.
  intros Hn. change 0xFFFF with (Z.ones 16). rewrite Z.land_ones, Z.shiftr_div_pow2 by lia.
  unfold wrap. Z.to_euclidean_division_equations; lia.
Qed.

Lemma serve_write_request f d offset srv :
  0 <= f_fid f < 2 ^ 16 -> f_fid f = server_fid srv -> 0 <= offset < 2 ^ 64 -> len d <= MaxDataSize ->
  exists params, EncodeWriteRequest (Some (write_request f d offset)) true = Ok (params, d) /\
    let k := Z.max 0 (Z.min (serves srv offset (len d)) (len d)) in
    serve_write params d srv =
    Ok (write_reply k, mkFileServer (splice (content srv) offset (take (Z.to_nat k) d)) (serves srv)
                         (eof_status srv) (server_fid srv) (contexts srv)).
Proof.
  intros Hf Hs Ho Hd. rewrite EncodeWriteRequest_eq. eexists. split; [reflexivity|].
  pose proof (len_nonneg d). unfold MaxDataSize in Hd. cbv zeta. unfold serve_write.
  assert (len (write_params (write_request f d offset) true) = 28) as Hlen by done. rewrite Hlen.
  set (p := write_params _ true) in *.
  assert (u16 p 4 6 = Ok (f_fid f)) as -> by (subst p; unfold write_params; wire_read;
    cbn [wq_FID write_request]; by rewrite wrap_small).
  assert (u16 p 18 20 = Ok (wrap 16 (wrap 16 (Z.shiftr (len d) 16)))) as ->
    by (subst p; unfold write_params; by wire_read).
  assert (u16 p 20 22 = Ok (wrap 16 (Z.land (len d) 0xFFFF))) as ->
    by (subst p; unfold write_params; wire_read; cbn [wq_DataLength write_request]; by rewrite wrap_wrap).
  assert (u16 p 22 24 = Ok 63) as -> by (subst p; unfold write_params; by wire_read).
  assert (wrap 64 offset = offset) as Hw by (by apply wrap_small).
  rewrite (request_offset_halves p (wrap 32 offset) (wrap 32 (Z.shiftr offset 32)) 24 offset);
    [|subst p; unfold write_params; wire_read; cbn [wq_Offset write_request]; by rewrite Hw, wrap_wrap
     |lia| |by apply halves].
  2:{ subst p. unfold write_params. cbv iota.
      rewrite <- (app_nil_r (le_put 4 (wrap 32 (Z.shiftr (wq_Offset _) 32)))). wire_read.
      cbn [wq_Offset write_request]. by rewrite Hw, wrap_wrap. }
  cbn [bind]. rewrite Hs, Z.eqb_refl. cbn [negb]. unfold HeaderSize. change (63 - (32 + 1 + 28 + 2)) with 0.
  rewrite length_halves by lia. rewrite slice_whole by lia. by cbn [bind].
Qed.

Lemma DecodeWriteResponse_reply n :
  0 <= n < 2 ^ 32 ->
  exists r, DecodeWriteResponse (r_params (write_reply n)) [] = Ok r /\ GetBytesWritten r = n.
Proof.
  intros Hn. unfold write_reply, response_of. cbn [r_params].
  set (p := [byte_of 0xFF] ++ _). assert (len p = 12) as Hp by (subst p; autorewrite with len; lia).
  unfold DecodeWriteResponse. rewrite Hp. cbn [Z.ltb Z.compare].
  assert (u32 p 8 12 = Ok (wrap 32 (Z.shiftr n 16))) as ->.
  { subst p. rewrite <- (app_nil_r (le_put 4 (Z.shiftr n 16))). by wire_read. }
  subst p. wire_read. eexists. split; [reflexivity|].
  unfold GetBytesWritten. cbn [wr_Count wr_CountHigh].
  rewrite Z.shiftr_div_pow2 by lia. unfold wrap.
  rewrite combine_eq by (Z.to_euclidean_division_equations; lia).
  Z.to_euclidean_division_equations; lia.
Qed.

(** The server's file after a write. *)
Definition after_write (srv : file_server) (offset : Z) (d : bytes) : file_server :=
  mkFileServer (splice (content srv) offset d) (serves srv) (eof_status srv) (server_fid srv) (contexts srv).

Lemma WriteAt_served c s f d offset srv :
  has_cap c CAP_LARGE_FILES = true -> 0 <= f_fid f < 2 ^ 16 -> f_fid f = server_fid srv ->
  0 <= offset < 2 ^ 64 -> 0 < len d <= maxWriteChunk c ->
  exists k, 0 <= k <= len d /\ k = Z.max 0 (Z.min (serves srv offset (len d)) (len d)) /\
    WriteAt c s f d offset srv = (Ok (k, None), after_write srv offset (take (Z.to_nat k) d)).
Proof.
  intros Hc Hf Hs Ho Hd. pose proof (maxWriteChunk_range c) as Hm. unfold MaxDataSize in Hm.
  destruct (serve_write_request f d offset srv) as (p & E1 & E2); [done..|unfold MaxDataSize; lia|].
  cbv zeta in E2. set (k := Z.max 0 _) in E2. exists k. split; [lia|]. split; [done|].
  unfold WriteAt. rewrite (proj2 (Z.eqb_neq (len d) 0)), (proj2 (Z.ltb_ge (maxWriteChunk c) _)) by lia.
  rewrite slice_all. unfold mbind_M at 1, lift at 1. rewrite Hc, E1. unfold try_M at 1, lift at 1.
  unfold mbind_M, settled_both.
  change (t_sendRecvSettled (file_header SMB_COM_WRITE_ANDX s f) p d srv)
    with (serve_both (file_header SMB_COM_WRITE_ANDX s f) p d srv).
  unfold serve_both, serve. change (Command (file_header SMB_COM_WRITE_ANDX s f) =? SMB_COM_READ_ANDX) with false.
  change (Command (file_header SMB_COM_WRITE_ANDX s f) =? SMB_COM_WRITE_ANDX) with true. cbv iota.
  rewrite E2. change (r_err (write_reply k)) with (@None error). cbv iota.
  change (r_err (write_reply k)) with (@None error). cbv iota.
  destruct (DecodeWriteResponse_reply k) as (r & E3 & E4); [lia|].
  change (r_data (write_reply k)) with (@nil byte). unfold try_M, lift. by rewrite E3, E4.
Qed.

(** Adjacent writes make one. *)
Lemma splice_next file offset (d1 d2 : bytes) :
  0 <= offset -> splice (splice file offset d1) (offset + len d1) d2 = splice file offset (d1 ++ d2).
Proof.
  intros Ho. unfold splice. rewrite len_app. pose proof (len_nonneg d1). pose proof (len_nonneg d2).
  destruct (Z.eqb_spec (len d1) 0) as [E|Hd1].
  { apply len_0_nil in E as ->. change (len (@nil byte)) with 0. by rewrite Z.add_0_r. }
  rewrite (proj2 (Z.eqb_neq (len d1 + len d2) 0)) by lia.
  destruct (Z.eqb_spec (len d2) 0) as [E|_].
  { apply len_0_nil in E as ->. by rewrite app_nil_r. }
  set (o := Z.to_nat offset).
  replace (Z.to_nat (offset + len d1)) with (o + length d1)%nat by (unfold o, len; lia).
  set (file' := file ++ replicate (o - length file) Byte.x00).
  assert (o <= length file')%nat as Ho' by (unfold file'; rewrite length_app, length_replicate; lia).
  assert (length (take o file' ++ d1 ++ drop (o + length d1) file') >= o + length d1)%nat as Hlen.
  { rewrite !length_app, length_take. lia. }
  rewrite (proj2 (Nat.sub_0_le _ _)) by lia. cbn [replicate]. rewrite app_nil_r.
  assert (length (take o file') = o) as Ht by (rewrite length_take; lia).
  rewrite (app_assoc (take o file') d1), take_app_length' by (rewrite length_app; lia).
  rewrite length_app, <- !app_assoc. do 3 f_equal.
  rewrite app_assoc, drop_app_ge by (rewrite length_app; lia). rewrite length_app, Ht.
  rewrite drop_drop. f_equal. lia.
Qed.

Section written.
Context (c : Negotiated) (s : UserSession) (f : File).
Context (Hc : has_cap c CAP_LARGE_FILES = true) (Hf : 0 <= f_fid f < 2 ^ 16).

(** The server with other looks at the context to come. *)
Definition with_contexts (l : list (option error)) (srv : file_server) : file_server :=
  mkFileServer (content srv) (serves srv) (eof_status srv) (server_fid srv) l.

Lemma writeSequential_loop_served fuel total data offset srv :
  0 <= offset -> offset + len data < 2 ^ 64 -> f_fid f = server_fid srv ->
  0 <= total <= len data -> len data - total <= Z.of_nat fuel ->
  exists n err l, writeSequential_loop fuel c s f total data offset (after_write srv offset (take (Z.to_nat total) data)) =
    (Ok (n, err), with_contexts l (after_write srv offset (take (Z.to_nat n) data))) /\
    total <= n <= len data /\ (err = None <-> n = len data) /\
    (Forall (eq None) (contexts srv) -> (forall o k, k <= serves srv o k) -> err = None).
Proof.
  intros Ho Hb Hs. revert srv Hs total. induction fuel as [|fuel IH]; intros srv Hs total Ht Hfuel;
    cbn [writeSequential_loop].
  { assert (total = len data) as -> by lia. rewrite Z.ltb_irrefl. exists (len data), None, (contexts srv).
    split; [done|]. split; [lia|]. done. }
  destruct (Z.ltb_spec total (len data)) as [Hlt|Hge].
  2:{ exists total, None, (contexts srv). split; [done|]. split; [lia|]. split; [split; [lia|done]|done]. }
  unfold mbind_M at 1, poll. cbn [ctx_poll file_server_ctx after_write contexts content serves eof_status server_fid].
  destruct (hd None (contexts srv)) as [e|] eqn:Ep.
  { exists total, (Some e), (tl (contexts srv)). split; [done|]. split; [lia|]. split; [split; [done|lia]|].
    intros Hp _. destruct (contexts srv) as [|q l]; [done|]. apply Forall_cons in Hp as [<- _]. done. }
  pose proof (maxWriteChunk_range c) as Hm.
  set (chunkSize := if maxWriteChunk c <? len data - total then maxWriteChunk c else len data - total).
  assert (0 < chunkSize <= len data - total /\ chunkSize <= maxWriteChunk c) as [Hn Hn2]
    by (unfold chunkSize; destruct (Z.ltb_spec (maxWriteChunk c) (len data - total)); lia).
  unfold mbind_M at 1, lift at 1. rewrite slice_ok by lia.
  replace (total + chunkSize - total) with chunkSize by lia.
  set (chunk := take (Z.to_nat chunkSize) (drop (Z.to_nat total) data)).
  assert (len chunk = chunkSize) as Hl by (unfold chunk; rewrite len_take, len_drop; lia).
  set (srv1 := with_contexts (tl (contexts srv)) srv).
  destruct (WriteAt_served c s f chunk (offset + total) (after_write srv1 offset (take (Z.to_nat total) data))
    Hc Hf Hs) as (k & Hk & Ek & Ew); [lia|lia|].
  unfold mbind_M. change (mkFileServer _ _ _ _ _) with (after_write srv1 offset (take (Z.to_nat total) data)). rewrite Ew.
  assert (after_write (after_write srv1 offset (take (Z.to_nat total) data)) (offset + total) (take (Z.to_nat k) chunk)
    = after_write srv1 offset (take (Z.to_nat (total + k)) data)) as ->.
  { unfold after_write. cbn [content serves eof_status server_fid contexts]. f_equal.
    replace (offset + total) with (offset + len (take (Z.to_nat total) data)) by (rewrite len_take; lia).
    rewrite splice_next by lia. f_equal. unfold chunk. rewrite take_take, Nat.min_l by lia.
    rewrite Z2Nat.inj_add by lia. apply take_take_drop. }
  destruct (Z.ltb_spec k chunkSize) as [Hshort|Hfull].
  - exists (total + k), (Some ErrShortWrite), (contexts srv1). split; [done|]. split; [lia|].
    split; [split; [done|lia]|]. intros _ Hall. specialize (Hall (offset + total) (len chunk)).
    cbn in Ek. lia.
  - destruct (IH srv1 Hs (total + k)) as (n & err & l & E & Hn3 & Herr & Hall); [lia|lia|].
    exists n, err, l. split; [exact E|]. split; [lia|]. split; [done|]. intros Hp. apply Hall.
    cbn. destruct (contexts srv); [done|]. by apply Forall_cons in Hp as [_ ?].
Qed.

Lemma writeSequential_law data offset srv :
  0 <= offset -> offset + len data < 2 ^ 64 -> f_fid f = server_fid srv ->
  exists n err l,
    writeSequential c s f data offset srv =
      (Ok (n, err), mkFileServer (splice (content srv) offset (take (Z.to_nat n) data))
                      (serves srv) (eof_status srv) (server_fid srv) l) /\
    0 <= n <= len data /\ (err = None <-> n = len data) /\
    (Forall (eq None) (contexts srv) -> (forall o k, k <= serves srv o k) -> err = None).
Proof.
  intros Ho Hb Hs. destruct (writeSequential_loop_served (length data) 0 data offset srv)
    as (n & err & l & E & H); [done|done|done|pose proof (len_nonneg data); lia|unfold len; lia|].
  exists n, err, l. split; [|done].
  assert (after_write srv offset (take (Z.to_nat 0) data) = srv) as E0 by (by destruct srv).
  rewrite E0 in E. exact E.
Qed.

(** C14: writing: however much of each request the server takes and whenever
    the caller's context ends, a sequential write changes the file by exactly the
    prefix of the data that its count says, at the position, and nothing else; it
    reports no error exactly when that is all of it, which is the case when the
    context stays alive and the server takes what it is sent. *)
Theorem writes_are_faithful data offset srv :
  0 <= offset -> offset + len data < 2 ^ 64 -> f_fid f = server_fid srv ->
  exists n err l,
    writeSequential c s f data offset srv =
      (Ok (n, err), mkFileServer (splice (content srv) offset (take (Z.to_nat n) data))
                      (serves srv) (eof_status srv) (server_fid srv) l) /\
    0 <= n <= len data /\ (err = None <-> n = len data) /\
    (Forall (eq None) (contexts srv) -> (forall o k, k <= serves srv o k) -> err = None).
Proof. apply writeSequential_law. Qed.
End written.

Lemma writes_are_faithful_witness :
  exists n err l,
    writeSequential example_negotiated example_session example_file (str "HELLO") 7 example_server =
      (Ok (n, err), mkFileServer (splice (str "hello, world") 7 (take (Z.to_nat n) (str "HELLO")))
                      (serves example_server) true 9 l) /\
    0 <= n <= 5 /\ (err = None <-> n = 5).
Proof.
  destruct (writes_are_faithful example_negotiated example_session example_file eq_refl
    ltac:(cbn; lia) (str "HELLO") 7 example_server) as (n & err & l & E & H1 & H2 & _);
    [lia|reflexivity|reflexivity|].
  exists n, err, l. exact (conj E (conj H1 H2)).
Defined.

(** ** Opening: properties *)

Lemma utf16_Encode_ascii rs : Forall (fun r => 0 <= r < 128) rs -> utf16_Encode rs = rs.
Proof.
  induction 1 as [|r rs Hr _ IH]; [done|]. unfold utf16_Encode in *. cbn [mbind list_bind].
  rewrite (proj2 (orb_true_iff _ _)) by lia. by rewrite IH.
Qed.

Lemma runes_ascii s : Forall (fun b => u8 b < 128) s -> runes s = u8 <$> s.
Proof.
  induction 1 as [|b s Hb _ IH]; [done|]. rewrite runes_cons. unfold DecodeRune.
  rewrite (proj2 (Z.ltb_lt (u8 b) 0x80)) by lia. cbn [fst snd].
  change (drop 1%nat (b :: s)) with s. by rewrite IH.
Qed.

(** An open request carries its arguments, and the length it gives for the
    name is that of the UTF-16 name it sends when the name is ASCII; but it is
    computed from the length of the UTF-8 string, so that for a name as short as
    "é" it is twice too much. *)
Theorem open_name_length c name access shareAccess disposition createOptions :
  use_unicode c = true -> len name < 2 ^ 15 ->
  let r := open_request c name access shareAccess disposition createOptions in
  nc_FileName r = name /\ nc_DesiredAccess r = access /\ nc_CreateDisposition r = disposition /\
  (Forall (fun b => u8 b < 128) name -> nc_NameLength r = len (utf16le name)) /\
  (name = [Byte.xc3; Byte.xa9] -> ValidString name /\ nc_NameLength r = 4 /\ len (utf16le name) = 2).
Proof.
  intros Hu Hl r. pose proof (len_nonneg name).
  assert (nc_NameLength r = len name * 2) as Hn.
  { unfold r, open_request. cbn [nc_NameLength]. rewrite Hu. apply wrap_small. lia. }
  split; [done|]. split; [done|]. split; [done|]. split.
  - intros Ha. rewrite Hn. unfold utf16le. rewrite len_units_bytes, runes_ascii by done.
    rewrite utf16_Encode_ascii; [unfold len; rewrite length_fmap; lia|].
    apply Forall_fmap. eapply Forall_impl; [exact Ha|]. intros b Hb. cbn in Hb |- *.
    pose proof (u8_range b). lia.
  - intros ->. rewrite Hn. split; [vm_compute; reflexivity|]. split; vm_compute; reflexivity.
Qed.

Lemma open_name_length_witness :
  use_unicode example_negotiated = true /\
  nc_NameLength (open_request example_negotiated [Byte.xc3; Byte.xa9] 0 0 1 0) = 4 /\
  len (utf16le [Byte.xc3; Byte.xa9]) = 2.
Proof.
  split; [reflexivity|].
  exact (proj2 (proj2 (proj2 (proj2 (proj2 (open_name_length example_negotiated
    [Byte.xc3; Byte.xa9] 0 0 1 0 eq_refl eq_refl)))) eq_refl)).
Defined.

(** ** The position: properties *)

(** Seeking: from the start, from the position and from the end (the size
    [Stat] reports), a seek that succeeds returns the new position, which is not
    negative, and sets it; one that would end before the start of the file is an
    error and moves the position to the start; any other failure leaves it. *)
Theorem SeekContext_position {T} `{Transport T} c s f offset whence t f' n err t' :
  SeekContext c s f offset whence t = (Ok (f', (n, err)), t') ->
  f_fid f' = f_fid f /\ f_tid f' = f_tid f /\ f_name f' = f_name f /\
  match err with
  | None =>
    0 <= n /\ GetOffset f' = n /\
    (whence = SeekStart -> n = offset) /\
    (whence = SeekCurrent -> n = int64 (GetOffset f + offset)) /\
    (whence = SeekEnd -> exists st, Stat c s f t = (Ok st, t') /\ n = int64 (fs_EndOfFile st + offset))
  | Some _ => n = 0 /\ (GetOffset f' = 0 \/ f' = f)
  end.
Proof.
  unfold SeekContext, GetOffset.
  destruct (Z.eqb_spec whence SeekStart) as [->|H0].
  { destruct (Z.ltb_spec offset 0); intros [= <- <- <- <-]; cbn; [by split_and!; auto|].
    by split_and!. }
  destruct (Z.eqb_spec whence SeekCurrent) as [->|H1].
  { set (p := int64 (f_offset f + offset)).
    destruct (Z.ltb_spec p 0); intros [= <- <- <- <-]; cbn; [by split_and!; auto|]. by split_and!. }
  destruct (Z.eqb_spec whence SeekEnd) as [->|H2].
  - unfold try_M. destruct (Stat c s f t) as [[st|e|] t1] eqn:Est; [|intros [= <- <- <- <-]; by split_and!; auto|done].
    set (p := int64 (fs_EndOfFile st + offset)).
    destruct (Z.ltb_spec p 0); intros [= <- <- <- <-]; cbn; [by split_and!; auto|].
    split; [reflexivity|]. split; [reflexivity|]. split; [reflexivity|]. split; [assumption|].
    split; [reflexivity|]. split; [intros Hx; discriminate Hx|]. split; [intros Hx; discriminate Hx|].
    intros _. exists st. split; reflexivity.
  - intros [= <- <- <- <-]. by split_and!; auto.
Qed.

Lemma SeekContext_position_witness :
  exists f' t',
    SeekContext example_negotiated example_session (with_offset example_file 5) 3 SeekCurrent
      example_server = (Ok (f', (8, None)), t') /\ GetOffset f' = 8.
Proof.
  exists (with_offset example_file 8), example_server. split; [reflexivity|].
  exact (proj1 (proj2 (proj2 (proj2 (proj2 (SeekContext_position example_negotiated example_session
    (with_offset example_file 5) 3 SeekCurrent example_server (with_offset example_file 8) 8 None
    example_server eq_refl)))))).
Defined.

(** The count a server reports is taken as it is: one that claims more than it
    was sent makes a write return more than the length of its data. *)
Lemma overcounted_write :
  (writeSequential example_negotiated example_session example_file (str "abc") 0
     (mkScript [] [write_reply 10])).1 = Ok (10, None).
Proof. vm_compute. reflexivity. Qed.
