(* ===== verification/Errors.v ===== *)
(** * Error classification ([errors.go], the error mapping of [session.go])

    What a caller of the public API can ask of an error: [errors.As] over the
    chain of an error, the predicates [IsNotFoundError] and so on, and the
    functions that give an error its outward shape ([wrapError],
    [mapSMBErrorToOSError], [mapSMBErrorToLinkError]). *)

From S2P Require Export Client.

(** ** Status codes ([internal/erref/ntstatus.go]) *)

Definition STATUS_LOGON_FAILURE : Z := 0xC000006D.
Definition STATUS_ACCESS_DENIED : Z := 0xC0000022.
Definition STATUS_INVALID_LOGON_HOURS : Z := 0xC000006F.
Definition STATUS_INVALID_LOGON_TYPE : Z := 0xC000010B.
Definition STATUS_LOGON_TYPE_NOT_GRANTED : Z := 0xC000015B.
Definition STATUS_LOGON_NOT_GRANTED : Z := 0xC0000155.
Definition STATUS_ACCOUNT_DISABLED : Z := 0xC0000072.
Definition STATUS_ACCOUNT_EXPIRED : Z := 0xC0000193.
Definition STATUS_PASSWORD_EXPIRED : Z := 0xC0000071.
Definition STATUS_PASSWORD_MUST_CHANGE : Z := 0xC0000224.
Definition STATUS_WRONG_PASSWORD : Z := 0xC000006A.
Definition STATUS_NO_SUCH_USER : Z := 0xC0000064.
Definition STATUS_INVALID_ACCOUNT_NAME : Z := 0xC0000062.
Definition STATUS_INVALID_WORKSTATION : Z := 0xC0000070.
Definition STATUS_ACCOUNT_RESTRICTION : Z := 0xC000006E.
Definition STATUS_INSUFFICIENT_LOGON_INFO : Z := 0xC0000250.
Definition STATUS_SMARTCARD_LOGON_REQUIRED : Z := 0xC00002FA.
Definition STATUS_NO_SUCH_FILE : Z := 0xC000000F.
Definition STATUS_OBJECT_NAME_NOT_FOUND : Z := 0xC0000034.
Definition STATUS_OBJECT_PATH_NOT_FOUND : Z := 0xC000003A.
Definition STATUS_NOT_FOUND : Z := 0xC0000225.
Definition STATUS_PRIVILEGE_NOT_HELD : Z := 0xC0000061.
Definition STATUS_NETWORK_ACCESS_DENIED : Z := 0xC00000CA.
Definition STATUS_SHARING_VIOLATION : Z := 0xC0000043.
Definition STATUS_OBJECT_NAME_COLLISION : Z := 0xC0000035.
Definition STATUS_OBJECT_NAME_EXISTS : Z := 0x40000000.
Definition STATUS_PENDING : Z := 0x00000103.
Definition STATUS_RETRY : Z := 0xC000022D.
Definition STATUS_DEVICE_NOT_READY : Z := 0xC00000A3.
Definition STATUS_TOO_MANY_SESSIONS : Z := 0xC00000CE.
Definition STATUS_NETWORK_BUSY : Z := 0xC00000BF.
Definition STATUS_DIRECTORY_NOT_EMPTY : Z := 0xC0000101.

(** ** Chains of errors *)

(** [errors.As]: the first error of the chain, in pre-order, that [f] accepts.
    An [SMBError] unwraps to a [ResponseError]. *)
Fixpoint errors_As {A} (f : error -> option A) (e : error) : option A :=
  match f e with
  | Some x => Some x
  | None =>
    match e with
    | Wrapf _ e' | ConnectionError _ e' | TransportError e' | ContextError e'
    | AuthenticationError _ _ _ e' | PathError _ _ e' | LinkError _ _ _ e' | OpError _ e' =>
      errors_As f e'
    | Wrapf2 _ e1 e2 => match errors_As f e1 with Some x => Some x | None => errors_As f e2 end
    | SMBError status _ _ => f (ResponseError status)
    | _ => None
    end
  end.

Definition as_response (e : error) : option Z := match e with ResponseError c => Some c | _ => None end.
Definition as_status (e : error) : option Z := match e with NtStatus c => Some c | _ => None end.
Definition as_path (e : error) : option error := match e with PathError _ _ e' => Some e' | _ => None end.
Definition as_context (e : error) : option error := match e with ContextError e' => Some e' | _ => None end.
Definition as_transport (e : error) : option error := match e with TransportError e' => Some e' | _ => None end.
Definition as_op (e : error) : option error := match e with OpError _ e' => Some e' | _ => None end.

(** The error of a deadline on a socket ([os.ErrDeadlineExceeded]). *)
Definition ErrDeadlineExceeded : error := Errorf "i/o timeout".

(** What the [Timeout] method of an error says, for the types that have one
    ([net.OpError] and [os.PathError] ask the error they hold). *)
Fixpoint timeout_of (e : error) : option bool :=
  match e with
  | Errorf _ =>
    if bool_decide (e = DeadlineExceeded) || bool_decide (e = ErrDeadlineExceeded) then Some true
    else if bool_decide (e = ErrClosed) then Some false else None
  | Errno name => Some (bool_decide (name ∈ ["EAGAIN"; "EWOULDBLOCK"; "ETIMEDOUT"]%string))
  | OpError _ e' | PathError _ _ e' => Some (default false (timeout_of e'))
  | ContextError e' => Some (is_err e' DeadlineExceeded)
  | _ => None
  end.

(** The errors that are a [net.Error] (with [Timeout] and [Temporary]). *)
Definition as_net (e : error) : option bool :=
  match e with
  | Errorf _ | Errno _ | OpError _ _ => timeout_of e
  | _ => None
  end.

(** ** Predicates *)

Definition IsNetworkError (e : error) : bool :=
  bool_decide (is_Some (errors_As as_net e)) || bool_decide (is_Some (errors_As as_op e))
  || is_err e ErrClosed || is_err e (Errno "ECONNRESET") || is_err e (Errno "ECONNABORTED")
  || is_err e (Errno "EPIPE").

(** A status of the chain, as a [ResponseError] or an [NtStatus], is in [l]. *)
Definition has_status (l : list Z) (e : error) : bool :=
  match errors_As as_response e with Some c => bool_decide (c ∈ l) | None => false end
  || match errors_As as_status e with Some c => bool_decide (c ∈ l) | None => false end.

(** The predicates that look into an [os.PathError] again. *)
Fixpoint through_paths (fuel : nat) (direct : error -> bool) (e : error) : bool :=
  match fuel with
  | O => false
  | S fuel => direct e || match errors_As as_path e with
                          | Some e' => through_paths fuel direct e'
                          | None => false
                          end
  end.

Fixpoint size (e : error) : nat :=
  match e with
  | Wrapf _ e' | ConnectionError _ e' | TransportError e' | ContextError e'
  | AuthenticationError _ _ _ e' | PathError _ _ e' | LinkError _ _ _ e' | OpError _ e' => S (size e')
  | Wrapf2 _ e1 e2 => S (size e1 + size e2)
  | _ => 1
  end.

Definition auth_statuses : list Z :=
  [STATUS_LOGON_FAILURE; STATUS_ACCESS_DENIED; STATUS_INVALID_LOGON_HOURS; STATUS_INVALID_LOGON_TYPE;
   STATUS_LOGON_TYPE_NOT_GRANTED; STATUS_LOGON_NOT_GRANTED; STATUS_ACCOUNT_DISABLED;
   STATUS_ACCOUNT_EXPIRED; STATUS_PASSWORD_EXPIRED; STATUS_PASSWORD_MUST_CHANGE;
   STATUS_WRONG_PASSWORD; STATUS_NO_SUCH_USER; STATUS_INVALID_ACCOUNT_NAME;
   STATUS_INVALID_WORKSTATION; STATUS_ACCOUNT_RESTRICTION; STATUS_INSUFFICIENT_LOGON_INFO;
   STATUS_SMARTCARD_LOGON_REQUIRED].
Definition IsAuthError (e : error) : bool := through_paths (size e) (has_status auth_statuses) e.

Definition not_found_statuses : list Z :=
  [STATUS_NO_SUCH_FILE; STATUS_OBJECT_NAME_NOT_FOUND; STATUS_OBJECT_PATH_NOT_FOUND; STATUS_NOT_FOUND].
Definition IsNotFoundError (e : error) : bool :=
  through_paths (size e) (fun e => is_err e ErrNotExist || has_status not_found_statuses e) e.

Definition permission_statuses : list Z :=
  [STATUS_ACCESS_DENIED; STATUS_PRIVILEGE_NOT_HELD; STATUS_NETWORK_ACCESS_DENIED; STATUS_SHARING_VIOLATION].
Definition IsPermissionError (e : error) : bool :=
  through_paths (size e) (fun e => is_err e ErrPermission || has_status permission_statuses e) e.

Definition exist_statuses : list Z := [STATUS_OBJECT_NAME_COLLISION; STATUS_OBJECT_NAME_EXISTS].
Definition IsExistError (e : error) : bool :=
  through_paths (size e) (fun e => is_err e ErrExist || has_status exist_statuses e) e.

Definition IsSharingViolation (e : error) : bool :=
  match errors_As as_response e with
  | Some c => c =? STATUS_SHARING_VIOLATION
  | None => match errors_As as_status e with
            | Some c => c =? STATUS_SHARING_VIOLATION
            | None => false
            end
  end.

Definition IsTimeoutError (e : error) : bool :=
  is_err e DeadlineExceeded || default false (errors_As as_net e).

Definition temporary_statuses : list Z :=
  [STATUS_PENDING; STATUS_RETRY; STATUS_DEVICE_NOT_READY; STATUS_TOO_MANY_SESSIONS; STATUS_NETWORK_BUSY].
Definition IsTemporary (e : error) : bool :=
  is_err e (Errno "ECONNREFUSED") || is_err e (Errno "ETIMEDOUT") || is_err e (Errno "EHOSTUNREACH")
  || is_err e (Errno "ENETUNREACH") || is_err e (Errno "ECONNABORTED")
  || IsTimeoutError e || has_status temporary_statuses e.

(** ** The outward shape of errors *)

Definition ContextError_Timeout (Err : error) : bool := is_err Err DeadlineExceeded.

Definition wrapError (e : error) : error :=
  if bool_decide (is_Some (errors_As as_context e)) || bool_decide (is_Some (errors_As as_transport e)) then e
  else if is_err e Canceled || is_err e DeadlineExceeded then ContextError e
  else if IsNetworkError e then TransportError e
  else e.

Definition permissionError (e : error) : error :=
  if IsSharingViolation e
  then Wrapf2 "%w: %w" ErrPermission (ResponseError STATUS_SHARING_VIOLATION)
  else ErrPermission.

Definition mapSMBErrorToOSError (e : error) (op : string) (path : bytes) : error :=
  if IsNotFoundError e then PathError op path ErrNotExist
  else if IsPermissionError e then PathError op path (permissionError e)
  else PathError op path (wrapError e).

Definition mapRemoveDirError (e : error) (name : bytes) : error :=
  match errors_As as_status e with
  | Some status => if status =? STATUS_DIRECTORY_NOT_EMPTY
                   then PathError "remove" name (ResponseError status)
                   else mapSMBErrorToOSError e "remove" name
  | None => mapSMBErrorToOSError e "remove" name
  end.

Definition mapSMBErrorToLinkError (e : error) (op : string) (oldpath newpath : bytes) : error :=
  if IsNotFoundError e then LinkError op oldpath newpath ErrNotExist
  else if IsPermissionError e then LinkError op oldpath newpath (permissionError e)
  else LinkError op oldpath newpath (wrapError e).

(** ** Lemmas: wrappers *)

(** An error that wraps another one and adds nothing a predicate looks for. *)
Definition wraps (w e : error) : Prop :=
  match w with
  | Wrapf _ e' | ConnectionError _ e' | TransportError e' | ContextError e'
  | PathError _ _ e' | LinkError _ _ _ e' => e' = e
  | _ => False
  end.

Lemma errors_As_wraps {A} (f : error -> option A) w e :
  wraps w e -> f w = None -> errors_As f w = errors_As f e.
Proof. intros Hw Hf. destruct w; cbn [wraps] in Hw; try done; subst; cbn [errors_As]; by rewrite Hf. Qed.

(** The targets the predicates ask for. *)
Definition sentinel (t : error) : bool := match t with Errorf _ | Errno _ => true | _ => false end.

Lemma is_err_wraps w e t : wraps w e -> sentinel t = true -> is_err w t = is_err e t.
Proof.
  intros Hw Ht. assert (w <> t) by (intros ->; by destruct t).
  destruct w; cbn [wraps] in Hw; try done; subst; cbn [is_err]; by rewrite bool_decide_false.
Qed.

Lemma has_status_wraps l w e : wraps w e -> has_status l w = has_status l e.
Proof. intros Hw. unfold has_status. by rewrite !(errors_As_wraps _ w e Hw) by (by destruct w). Qed.

Lemma as_path_size e e' : errors_As as_path e = Some e' -> (size e' < size e)%nat.
Proof.
  induction e; cbn [errors_As as_path size]; intros H; try done; try (specialize (IHe H); lia).
  - destruct (errors_As as_path e1) as [x|]; [|specialize (IHe2 H); lia].
    injection H as ->. specialize (IHe1 eq_refl). lia.
  - injection H as ->. lia.
Qed.

Lemma through_paths_enough d n m e :
  (size e <= n)%nat -> (size e <= m)%nat -> through_paths n d e = through_paths m d e.
Proof.
  assert (0 < size e)%nat by (destruct e; cbn; lia).
  revert m e H. induction n as [|n IH]; intros m e H Hn Hm; [lia|]. destruct m as [|m]; [lia|].
  cbn [through_paths]. f_equal. destruct (errors_As as_path e) as [e'|] eqn:E; [|done].
  apply as_path_size in E. apply IH; [destruct e'; cbn; lia|lia|lia].
Qed.

(** A predicate sees through a wrapper when what it looks for directly does. *)
Lemma through_paths_wraps d w e :
  (forall w e, wraps w e -> d w = d e) -> wraps w e ->
  through_paths (size w) d w = through_paths (size e) d e.
Proof.
  intros Hd Hw. assert (exists n, size w = S n /\ (size e <= n)%nat) as (n & -> & Hn)
    by (destruct w; cbn [wraps] in Hw; try done; subst; cbn [size]; eauto).
  cbn [through_paths]. rewrite (Hd w e Hw).
  assert (size e = S (size e - 1)) as Es by (destruct e; cbn; lia).
  destruct (as_path w) as [e'|] eqn:Ep.
  - assert (errors_As as_path w = Some e /\ e' = e) as [-> ->]
      by (destruct w; cbn in Hw, Ep |- *; simplify_eq; done).
    rewrite (through_paths_enough d n (size e)) by lia. rewrite Es. cbn [through_paths].
    by destruct (d e).
  - rewrite (errors_As_wraps as_path w e Hw Ep). rewrite Es. cbn [through_paths]. f_equal.
    destruct (errors_As as_path e) as [x|] eqn:Ex; [|done]. apply as_path_size in Ex.
    apply through_paths_enough; lia.
Qed.

Section seen_through.
Context (w e : error) (Hw : wraps w e).

Lemma IsNotFoundError_wraps : IsNotFoundError w = IsNotFoundError e.
Proof.
  apply through_paths_wraps; [|done]. intros w' e' H.
  by rewrite (is_err_wraps w' e'), (has_status_wraps _ w' e').
Qed.
Lemma IsPermissionError_wraps : IsPermissionError w = IsPermissionError e.
Proof.
  apply through_paths_wraps; [|done]. intros w' e' H.
  by rewrite (is_err_wraps w' e'), (has_status_wraps _ w' e').
Qed.
Lemma IsExistError_wraps : IsExistError w = IsExistError e.
Proof.
  apply through_paths_wraps; [|done]. intros w' e' H.
  by rewrite (is_err_wraps w' e'), (has_status_wraps _ w' e').
Qed.
Lemma IsAuthError_wraps : IsAuthError w = IsAuthError e.
Proof. apply through_paths_wraps; [|done]. intros w' e' H. by apply has_status_wraps. Qed.
Lemma IsSharingViolation_wraps : IsSharingViolation w = IsSharingViolation e.
Proof. unfold IsSharingViolation. by rewrite !(errors_As_wraps _ w e Hw) by (by destruct w). Qed.
Lemma IsNetworkError_wraps : IsNetworkError w = IsNetworkError e.
Proof.
  unfold IsNetworkError. rewrite !(errors_As_wraps _ w e Hw) by (by destruct w).
  by rewrite !(is_err_wraps w e).
Qed.
Lemma IsTimeoutError_wraps : IsTimeoutError w = IsTimeoutError e.
Proof.
  unfold IsTimeoutError. rewrite !(errors_As_wraps _ w e Hw) by (by destruct w).
  by rewrite !(is_err_wraps w e).
Qed.
Lemma IsTemporary_wraps : IsTemporary w = IsTemporary e.
Proof.
  unfold IsTemporary. rewrite IsTimeoutError_wraps, (has_status_wraps _ w e Hw).
  by rewrite !(is_err_wraps w e).
Qed.
End seen_through.

(** What a caller can find out about an error. *)
Definition verdict (e : error) : list bool :=
  [IsNotFoundError e; IsPermissionError e; IsExistError e; IsAuthError e; IsSharingViolation e;
   IsNetworkError e; IsTimeoutError e; IsTemporary e].

Lemma verdict_wraps w e : wraps w e -> verdict w = verdict e.
Proof.
  intros Hw. unfold verdict.
  by rewrite (IsNotFoundError_wraps w e), (IsPermissionError_wraps w e), (IsExistError_wraps w e),
    (IsAuthError_wraps w e), (IsSharingViolation_wraps w e), (IsNetworkError_wraps w e),
    (IsTimeoutError_wraps w e), (IsTemporary_wraps w e).
Qed.

Lemma wrapError_cases e : wrapError e = e \/ wraps (wrapError e) e.
Proof. unfold wrapError. repeat case_match; auto; by right. Qed.

Lemma verdict_wrapError e : verdict (wrapError e) = verdict e.
Proof. destruct (wrapError_cases e) as [->|H]; [done|by apply verdict_wraps]. Qed.

Lemma sharing_is_permission e : IsSharingViolation e = true -> IsPermissionError e = true.
Proof.
  intros H. unfold IsPermissionError. assert (size e = S (size e - 1)) as -> by (destruct e; cbn; lia).
  cbn [through_paths]. enough (has_status permission_statuses e = true) as -> by (by rewrite orb_true_r).
  unfold IsSharingViolation in H. unfold has_status.
  destruct (errors_As as_response e) as [c|]; [by apply Z.eqb_eq in H as ->|].
  destruct (errors_As as_status e) as [c|]; [by apply Z.eqb_eq in H as ->|done].
Qed.

(** ** Properties *)

(** Giving an error its outward shape twice is giving it once, and no
    predicate can tell the shaped error from the original: context and
    transport errors only add a wrapper, chosen by [IsTimeoutError]'s causes
    first. *)
Theorem wrapError_transparent e :
  wrapError (wrapError e) = wrapError e /\ verdict (wrapError e) = verdict e /\
  (errors_As as_context e = None -> errors_As as_transport e = None ->
   wrapError e = (if is_err e Canceled || is_err e DeadlineExceeded then ContextError e
                  else if IsNetworkError e then TransportError e else e)).
Proof.
  split; [|split; [apply verdict_wrapError|]].
  - unfold wrapError at 2 3.
    destruct (bool_decide (is_Some (errors_As as_context e))
      || bool_decide (is_Some (errors_As as_transport e))) eqn:E0; [unfold wrapError; by rewrite E0|].
    destruct (is_err e Canceled || is_err e DeadlineExceeded) eqn:E1; [reflexivity|].
    destruct (IsNetworkError e) eqn:E2; [|unfold wrapError; by rewrite E0, E1, E2].
    unfold wrapError. cbn [errors_As as_transport as_context].
    rewrite (bool_decide_true (is_Some (Some e))) by (by eexists). by rewrite orb_true_r.
  - intros H1 H2. unfold wrapError. rewrite H1, H2.
    by rewrite !bool_decide_false by (by intros [? ?]).
Qed.

(** What a caller can find out about a mapped error. *)
Definition mapped_verdict (e : error) : list bool :=
  if IsNotFoundError e then [true; false; false; false; false; false; false; false]
  else if IsPermissionError e
  then [false; true; false; false; IsSharingViolation e; false; false; false]
  else verdict e.

Definition mapped_cause (e : error) : error :=
  if IsNotFoundError e then ErrNotExist
  else if IsPermissionError e then permissionError e else wrapError e.

Lemma not_found_direct e : is_err e ErrNotExist = true -> IsNotFoundError e = true.
Proof.
  intros H. unfold IsNotFoundError. assert (size e = S (size e - 1)) as -> by (destruct e; cbn; lia).
  cbn [through_paths]. by rewrite H.
Qed.

Lemma permission_direct e : is_err e ErrPermission = true -> IsPermissionError e = true.
Proof.
  intros H. unfold IsPermissionError. assert (size e = S (size e - 1)) as -> by (destruct e; cbn; lia).
  cbn [through_paths]. by rewrite H.
Qed.

Lemma is_err_wrapError e t : sentinel t = true -> is_err (wrapError e) t = is_err e t.
Proof. intros Ht. destruct (wrapError_cases e) as [->|H]; [done|by apply is_err_wraps]. Qed.

Lemma mapped_cause_is e :
  is_err (mapped_cause e) ErrNotExist = IsNotFoundError e /\
  is_err (mapped_cause e) ErrPermission = negb (IsNotFoundError e) && IsPermissionError e /\
  verdict (mapped_cause e) = mapped_verdict e.
Proof.
  unfold mapped_cause, mapped_verdict. destruct (IsNotFoundError e) eqn:En; [by vm_compute|].
  destruct (IsPermissionError e) eqn:Ep.
  { unfold permissionError. destruct (IsSharingViolation e); by vm_compute. }
  rewrite !is_err_wrapError, verdict_wrapError by done. split_and!; [..|done]; cbn [negb andb].
  - apply not_true_iff_false. intros H%not_found_direct. congruence.
  - apply not_true_iff_false. intros H%permission_direct. congruence.
Qed.

(** C35: What the operations on one path, and on two, make of an error [e]: an
    [os.PathError] (an [os.LinkError]) for the operation and the paths, with the
    same cause in both.  [errors.Is] finds [os.ErrNotExist] in it exactly when
    [IsNotFoundError] holds of [e], and [os.ErrPermission] exactly when it does
    not and [IsPermissionError] does.  Of an error that is neither, every
    predicate of the package answers as it does of [e]; of the other two kinds
    the predicates know nothing more than the kind, and whether a sharing
    violation denied the permission: that [e] was an authentication error too,
    as STATUS_ACCESS_DENIED is, is lost. *)
Theorem mapped_errors_classified e op path old new :
  exists cause,
    mapSMBErrorToOSError e op path = PathError op path cause /\
    mapSMBErrorToLinkError e op old new = LinkError op old new cause /\
    forall m, m = PathError op path cause \/ m = LinkError op old new cause ->
      is_err m ErrNotExist = IsNotFoundError e /\
      is_err m ErrPermission = negb (IsNotFoundError e) && IsPermissionError e /\
      verdict m = (if IsNotFoundError e then [true; false; false; false; false; false; false; false]
                   else if IsPermissionError e
                   then [false; true; false; false; IsSharingViolation e; false; false; false]
                   else verdict e).
Proof.
  exists (mapped_cause e). split; [|split].
  - unfold mapSMBErrorToOSError, mapped_cause. by repeat case_match.
  - unfold mapSMBErrorToLinkError, mapped_cause. by repeat case_match.
  - intros m Hm. assert (wraps m (mapped_cause e)) as Hw by (by destruct Hm as [->| ->]).
    rewrite !(is_err_wraps m _ _ Hw), (verdict_wraps m _ Hw) by done. apply mapped_cause_is.
Qed.

(** Access denied is an authentication error; its mapped form is not. *)
Lemma mapped_auth_lost :
  IsAuthError (NtStatus STATUS_ACCESS_DENIED) = true /\
  IsAuthError (mapSMBErrorToOSError (NtStatus STATUS_ACCESS_DENIED) "stat" (str "f")) = false.
Proof. by vm_compute. Qed.

(** A non-empty directory keeps its status in the error of removing it;
    every other status is mapped as for any operation. *)
Theorem mapRemoveDirError_spec e name :
  mapRemoveDirError e name =
  if decide (errors_As as_status e = Some STATUS_DIRECTORY_NOT_EMPTY)
  then PathError "remove" name (ResponseError STATUS_DIRECTORY_NOT_EMPTY)
  else mapSMBErrorToOSError e "remove" name.
Proof.
  unfold mapRemoveDirError. destruct (errors_As as_status e) as [c|]; [|done].
  destruct (Z.eqb_spec c STATUS_DIRECTORY_NOT_EMPTY) as [->|Hc]; [done|].
  rewrite decide_False; [done|]. congruence.
Qed.

(** An object that exists already is not [os.ErrExist] to a caller: only
    [IsExistError] recognises the mapped error. *)
Lemma collision_not_ErrExist :
  let m := mapSMBErrorToOSError (NtStatus STATUS_OBJECT_NAME_COLLISION) "mkdir" (str "dir") in
  is_err m ErrExist = false /\ IsExistError m = true.
Proof. by vm_compute. Qed.
