(* ===== verification/Match.v ===== *)
(** * Shell patterns ([match.go])

    The matcher of the public API: [Match], which splits a pattern at its stars
    and looks for each fixed segment at the leftmost place ([matchChunk]).  The
    grammar of the documentation of [Match] is the type [term], its meaning the
    relation [matches]; the matcher is compared with it. *)

From S2P Require Export Unicode.

Definition PathSeparator : Z := 0x5C.
Definition ErrBadPattern : error := Errorf "syntax error in pattern".

(** The bytes of the syntax. *)
Definition isb (c : byte) (ch : byte) : bool := bool_decide (c = ch).
Definition is_sep (c : byte) : bool := u8 c =? PathSeparator.
Definition star_byte : byte := Byte.x2a.
Definition any_byte : byte := Byte.x3f.
Definition open_byte : byte := Byte.x5b.
Definition close_byte : byte := Byte.x5d.
Definition dash_byte : byte := Byte.x2d.
Definition not_byte : byte := Byte.x5e.

(** ** The matcher *)

Definition classRune (chunk : bytes) : res (Z * bytes) :=
  match chunk with
  | [] => Err ErrBadPattern
  | c :: _ =>
    if isb c dash_byte || isb c close_byte then Err ErrBadPattern else
    let '(r, width) := DecodeRune chunk in
    if (r =? RuneError) && (width =? 1)%nat then Err ErrBadPattern else
    let rest := drop width chunk in
    if len rest =? 0 then Err ErrBadPattern else Ok (r, rest)
  end.

(** The loop over the ranges of a class: whether [r] is in one, and what
    follows the class. *)
Fixpoint class_loop (fuel : nat) (r : Z) (chunk : bytes) (inRange : bool) (nranges : Z)
    : res (bool * bytes) :=
  match fuel with
  | O => Panic
  | S fuel =>
    if (0 <? len chunk) && bool_decide (head chunk = Some close_byte) && (0 <? nranges)
    then Ok (inRange, drop 1 chunk) else
    let! (lo, chunk) := classRune chunk in
    let! c := index chunk 0 in
    let! (hi, chunk) :=
      (if isb c dash_byte then let! t := slice chunk 1 (len chunk) in classRune t
       else Ok (lo, chunk)) in
    class_loop fuel r chunk (inRange || (lo <=? r) && (r <=? hi)) (nranges + 1)
  end.

(** One pass per element of the segment; [failed] once the name has mismatched. *)
Fixpoint matchChunk_loop (fuel : nat) (chunk s : bytes) (failed : bool) : res (bytes * bool) :=
  match chunk with
  | [] => if failed then Ok ([], false) else Ok (s, true)
  | c :: chunk =>
    match fuel with
    | O => Panic
    | S fuel =>
      let failed := failed || (len s =? 0) in
      if isb c open_byte then
        let '(r, width) := if failed then (0, 0%nat) else DecodeRune s in
        let negated := (0 <? len chunk) && bool_decide (head chunk = Some not_byte) in
        let chunk := if negated then drop 1 chunk else chunk in
        let! (inRange, chunk) := class_loop (S (length chunk)) r chunk false 0 in
        matchChunk_loop fuel chunk (drop width s) (failed || Bool.eqb inRange negated)
      else if isb c any_byte then
        if failed then matchChunk_loop fuel chunk s true else
        let! s0 := index s 0 in
        matchChunk_loop fuel chunk (drop (DecodeRune s).2 s) (is_sep s0)
      else
        if failed then matchChunk_loop fuel chunk s true else
        let! s0 := index s 0 in
        let! t := slice s 1 (len s) in
        matchChunk_loop fuel chunk t (negb (bool_decide (c = s0)))
    end
  end.

Definition matchChunk (chunk s : bytes) : res (bytes * bool) :=
  matchChunk_loop (length chunk) chunk s false.

(** The leading stars, and the fixed segment up to the next star outside of a
    class. *)
Fixpoint skip_stars (pattern : bytes) : bool * bytes :=
  match pattern with
  | c :: t => if isb c star_byte then (true, (skip_stars t).2) else (false, pattern)
  | [] => (false, [])
  end.

Fixpoint segment (inClass : bool) (pattern : bytes) : bytes * bytes :=
  match pattern with
  | [] => ([], [])
  | c :: t =>
    if isb c star_byte && negb inClass then ([], pattern) else
    let inClass := if isb c open_byte then true else if isb c close_byte then false else inClass in
    let '(chunk, rest) := segment inClass t in (c :: chunk, rest)
  end.

Definition splitChunk (pattern : bytes) : bool * bytes * bytes :=
  let '(star, pattern) := skip_stars pattern in
  let '(chunk, rest) := segment false pattern in
  (star, chunk, rest).

(** Looking for the segment further on in the path element ([name] without its
    first bytes); [last] when the pattern ends with the segment. *)
Fixpoint star_loop (chunk : bytes) (last : bool) (name : bytes) : res (option bytes) :=
  match name with
  | [] => Ok None
  | c :: name =>
    if is_sep c then Ok None else
    let! (rest, ok) := matchChunk chunk name in
    if ok && negb (last && (0 <? len rest)) then Ok (Some rest)
    else star_loop chunk last name
  end.

Fixpoint Match_loop (fuel : nat) (pattern name : bytes) : res bool :=
  match pattern with
  | [] => Ok (len name =? 0)
  | _ =>
    match fuel with
    | O => Panic
    | S fuel =>
      let '(star, chunk, pattern) := splitChunk pattern in
      if star && (len chunk =? 0) then Ok (negb (existsb is_sep name)) else
      let! (rest, ok) := matchChunk chunk name in
      if ok && ((len rest =? 0) || (0 <? len pattern)) then Match_loop fuel pattern rest else
      if star then
        let! found := star_loop chunk (len pattern =? 0) name in
        match found with
        | Some rest => Match_loop fuel pattern rest
        | None => Ok false
        end
      else Ok false
    end
  end.

(** [strings.ReplaceAll(pattern, "/", "\\")], and dropping leading elements. *)
Definition to_backslash (c : byte) : byte := if isb c Byte.x2f then Byte.x5c else c.
Fixpoint drop_dots (pattern : bytes) : bytes :=
  match pattern with
  | a :: b :: t => if isb a Byte.x2e && isb b Byte.x5c then drop_dots t else pattern
  | _ => pattern
  end.
Definition normPattern (NORMALIZE_PATH : bool) (pattern : bytes) : bytes :=
  if negb NORMALIZE_PATH then pattern else drop_dots (to_backslash <$> pattern).

Definition Match (NORMALIZE_PATH : bool) (pattern name : bytes) : res bool :=
  let pattern := normPattern NORMALIZE_PATH pattern in
  Match_loop (length pattern) pattern name.

Definition hasGlobMeta (path : bytes) : bool :=
  existsb (fun c => isb c star_byte || isb c any_byte || isb c open_byte) path.

(** ** The language of patterns *)

(** A character range of the grammar: [c], or [lo '-' hi]. *)
Inductive range := Single (c : Z) | Range (lo hi : Z).
Inductive term := Star | Any | Class (negated : bool) (ranges : list range) | Lit (c : byte).

Definition print_range (i : range) : bytes :=
  match i with
  | Single c => EncodeRune c
  | Range lo hi => EncodeRune lo ++ [dash_byte] ++ EncodeRune hi
  end.
Definition print_term (t : term) : bytes :=
  match t with
  | Star => [star_byte]
  | Any => [any_byte]
  | Class negated rs =>
    [open_byte] ++ (if negated then [not_byte] else []) ++ (rs ≫= print_range) ++ [close_byte]
  | Lit c => [c]
  end.
Definition print (ts : list term) : bytes := ts ≫= print_term.

(** The side conditions of the grammar.  A class that begins with [^] is a
    negated one. *)
Definition wf_rune (c : Z) : bool := scalar c && negb (c =? 0x2D) && negb (c =? 0x5D).
Definition first_rune (i : range) : Z := match i with Single c => c | Range lo _ => lo end.
Definition wf_range (i : range) : bool :=
  match i with Single c => wf_rune c | Range lo hi => wf_rune lo && wf_rune hi end.
Definition wf_term (t : term) : bool :=
  match t with
  | Star | Any => true
  | Class negated rs =>
    match rs with
    | [] => false
    | i :: _ => (negated || negb (first_rune i =? 0x5E)) && forallb wf_range rs
    end
  | Lit c => negb (isb c star_byte || isb c any_byte || isb c open_byte)
  end.

Definition in_range (r : Z) (i : range) : bool :=
  match i with Single c => r =? c | Range lo hi => (lo <=? r) && (r <=? hi) end.

(** What a term other than a star leaves of a name. *)
Definition eat (t : term) (s : bytes) : option bytes :=
  match s with
  | [] => None
  | b :: s' =>
    let '(r, width) := DecodeRune s in
    match t with
    | Star => None
    | Any => if is_sep b then None else Some (drop width s)
    | Class negated rs =>
      if Bool.eqb (existsb (in_range r) rs) negated then None else Some (drop width s)
    | Lit c => if decide (c = b) then Some s' else None
    end
  end.

(** The names a pattern matches. *)
Inductive matches : list term -> bytes -> Prop :=
  | matches_nil : matches [] []
  | matches_star ts s : matches ts s -> matches (Star :: ts) s
  | matches_absorb ts c s : is_sep c = false -> matches (Star :: ts) s -> matches (Star :: ts) (c :: s)
  | matches_eat t ts s s' : eat t s = Some s' -> matches ts s' -> matches (t :: ts) s.

Fixpoint eats (ts : list term) (s : bytes) : option bytes :=
  match ts with
  | [] => Some s
  | t :: ts => match eat t s with Some s' => eats ts s' | None => None end
  end.

(** ** Lemmas: characters *)

Lemma isb_spec c ch : isb c ch = true <-> c = ch.
Proof. unfold isb. apply bool_decide_eq_true. Qed.
Lemma isb_refl c : isb c c = true.
Proof. by apply isb_spec. Qed.
Lemma isb_ne c ch : c <> ch -> isb c ch = false.
Proof. intros H. apply not_true_is_false. by rewrite isb_spec. Qed.

(** No rune but an ASCII one is encoded with an ASCII first byte. *)
Lemma EncodeRune_head r c :
  scalar r = true -> u8 c < 0x80 -> head (EncodeRune r) = Some c -> r = u8 c /\ EncodeRune r = [c].
Proof.
  intros Hs Hc. unfold EncodeRune. rewrite Hs. apply scalar_spec in Hs.
  destruct (Z.ltb_spec r 0x80).
  { intros [= <-]. rewrite u8_byte_of, Z.mod_small by lia. done. }
  repeat case_match; intros [= <-]; rewrite u8_byte_of, ?Z.mod_small in Hc;
    Z.to_euclidean_division_equations; lia.
Qed.

Lemma EncodeRune_head_ne r c :
  scalar r = true -> u8 c < 0x80 -> r <> u8 c ->
  exists b l, EncodeRune r = b :: l /\ b <> c.
Proof.
  intros Hs Hc Hr. destruct (EncodeRune_nonempty r) as (b & l & E). exists b, l. split; [done|].
  intros ->. destruct (EncodeRune_head r c Hs Hc); [by rewrite E|done].
Qed.

Lemma wf_rune_spec r :
  wf_rune r = true <-> scalar r = true /\ r <> 0x2D /\ r <> 0x5D.
Proof. unfold wf_rune. rewrite !andb_true_iff, !negb_true_iff, !Z.eqb_neq. tauto. Qed.

Lemma wf_rune_head r :
  wf_rune r = true -> exists b l, EncodeRune r = b :: l /\ b <> dash_byte /\ b <> close_byte.
Proof.
  rewrite wf_rune_spec. intros (Hs & H1 & H2).
  destruct (EncodeRune_head_ne r dash_byte Hs) as (b & l & E & Hb); [done..|].
  destruct (EncodeRune_head_ne r close_byte Hs) as (b' & l' & E' & Hb'); [done..|].
  exists b, l. rewrite E in E'. simplify_eq. auto.
Qed.

(** ** Lemmas: classes *)

Lemma classRune_print c t :
  wf_rune c = true -> t <> [] -> classRune (EncodeRune c ++ t) = Ok (c, t).
Proof.
  intros Hc Ht. destruct (wf_rune_head c Hc) as (b & l & E & H1 & H2).
  apply wf_rune_spec in Hc as (Hs & _ & _).
  pose proof (DecodeRune_EncodeRune c t Hs) as HD.
  rewrite E in *. cbn [app] in *. unfold classRune.
  rewrite !isb_ne, HD by done. cbn [orb length drop]. rewrite drop_app_length.
  destruct (Z.eqb_spec c RuneError) as [->|_]; cbn [andb].
  - assert (length (b :: l) = 3%nat) as Hl by (by rewrite <- E). cbn [length] in Hl. rewrite Hl.
    cbn [Nat.eqb]. destruct (Z.eqb_spec (len t) 0); [by apply len_0_nil in e|done].
  - destruct (Z.eqb_spec (len t) 0); [by apply len_0_nil in e|done].
Qed.

(** Malformed, or one rune of the grammar and a non-empty rest. *)
Lemma classRune_inv chunk :
  classRune chunk = Err ErrBadPattern \/
  exists c t, wf_rune c = true /\ t <> [] /\ chunk = EncodeRune c ++ t /\ classRune chunk = Ok (c, t).
Proof.
  destruct chunk as [|b l]; [by left|]. unfold classRune.
  destruct (isb b dash_byte || isb b close_byte) eqn:Eb; [by left|].
  apply orb_false_iff in Eb as [E1 E2].
  destruct (DecodeRune (b :: l)) as [r w] eqn:HD.
  destruct ((r =? RuneError) && (w =? 1)%nat) eqn:Hne; [by left|].
  destruct (Z.eqb_spec (len (drop w (b :: l))) 0) as [_|Hl]; [by left|]. right.
  exists r, (drop w (b :: l)).
  pose proof (EncodeRune_DecodeRune (b :: l) r w ltac:(done) HD Hne) as HE.
  pose proof (DecodeRune_scalar (b :: l) ltac:(done)) as Hs. rewrite HD in Hs.
  cbn [fst] in Hs.
  repeat split; try done; [|intros Hn; by rewrite Hn in Hl].
  apply wf_rune_spec. split; [done|].
  split; intros ->; apply (f_equal head) in HE; vm_compute in HE; simplify_eq; done.
Qed.

Lemma index_0 {A} (x : A) l : index (x :: l) 0 = Ok x.
Proof. done. Qed.

Lemma rune_not_close c u : wf_rune c = true -> head (EncodeRune c ++ u) <> Some close_byte.
Proof. intros Hc. destruct (wf_rune_head c Hc) as (b & l & -> & ? & ?). cbn. congruence. Qed.

(** What follows a rune of a class is a dash only in a range. *)
Lemma ranges_head rs t :
  forallb wf_range rs = true ->
  exists b l, (rs ≫= print_range) ++ [close_byte] ++ t = b :: l /\ b <> dash_byte.
Proof.
  destruct rs as [|j rs]; [by do 2 eexists|].
  cbn [forallb mbind list_bind]. intros [Hj _]%andb_true_iff.
  destruct j as [c|lo hi]; cbn [wf_range print_range] in *;
    [|apply andb_true_iff in Hj as [Hj _]];
    destruct (wf_rune_head _ Hj) as (b & l & -> & ? & ?); by do 2 eexists.
Qed.

Lemma class_loop_print fuel r rs t inRange n :
  forallb wf_range rs = true -> 0 <= n -> (0 < n \/ rs <> []) -> (length rs < fuel)%nat ->
  class_loop fuel r ((rs ≫= print_range) ++ [close_byte] ++ t) inRange n
  = Ok (inRange || existsb (in_range r) rs, t).
Proof.
  revert inRange n fuel. induction rs as [|i rs IH]; intros inRange n fuel Hwf Hn Hne Hf;
    (destruct fuel as [|fuel]; [cbn in Hf; lia|]); cbn [class_loop].
  { cbn [mbind list_bind app]. rewrite len_cons, (proj2 (Z.ltb_lt 0 _)) by len_lia.
    cbn [head]. rewrite bool_decide_true by done. destruct Hne; [|done].
    rewrite (proj2 (Z.ltb_lt 0 n)) by lia. cbn. by rewrite orb_false_r. }
  cbn [forallb] in Hwf. apply andb_true_iff in Hwf as [Hi Hwf].
  cbn [mbind list_bind]. rewrite <- app_assoc.
  destruct (ranges_head rs t Hwf) as (b0 & l0 & Et & Hb0).
  set (t' := (rs ≫= print_range) ++ [close_byte] ++ t) in *.
  cbn [length] in Hf.
  destruct i as [c|lo hi]; cbn [wf_range print_range in_range] in *.
  - rewrite bool_decide_false by (by apply rune_not_close). rewrite andb_false_r. cbn [andb].
    rewrite classRune_print by (by rewrite ?Et). cbn [bind].
    rewrite Et. rewrite @index_0. cbn [bind]. rewrite isb_ne by done. cbn [bind].
    rewrite <- Et. subst t'. rewrite IH by (first [done|lia|left; lia]).
    cbn [existsb]. f_equal. f_equal. rewrite orb_assoc. f_equal. f_equal.
    cbn [in_range]. destruct (Z.eqb_spec r c); lia.
  - apply andb_true_iff in Hi as [Hlo Hhi]. rewrite <- !app_assoc.
    rewrite bool_decide_false by (by apply rune_not_close). rewrite andb_false_r. cbn [andb].
    rewrite classRune_print by done. cbn [bind app].
    rewrite @index_0. cbn [bind]. rewrite isb_refl.
    rewrite (slice_suffix [dash_byte] (EncodeRune hi ++ t')) by (cbn; len_lia). cbn [bind].
    rewrite classRune_print by (by rewrite ?Et). cbn [bind].
    subst t'. rewrite IH by (first [done|lia|left; lia]).
    cbn [existsb]. by rewrite orb_assoc.
Qed.

(** What the class parser accepts is the text of a list of ranges. *)
Lemma class_loop_inv fuel r chunk inRange n :
  0 <= n -> (length chunk < fuel)%nat ->
  class_loop fuel r chunk inRange n = Err ErrBadPattern \/
  exists rs t, forallb wf_range rs = true /\ (0 < n \/ rs <> []) /\
    chunk = (rs ≫= print_range) ++ [close_byte] ++ t.
Proof.
  revert chunk inRange n. induction fuel as [|fuel IH]; intros chunk inRange n Hn Hf; [lia|].
  cbn [class_loop]. destruct (_ && _ && _) eqn:Eend.
  { apply andb_true_iff in Eend as [[_ Hh]%andb_true_iff Hp%Z.ltb_lt].
    apply bool_decide_eq_true in Hh. destruct chunk as [|c t]; simplify_eq/=.
    right. exists [], t. auto. }
  clear Eend.
  destruct (classRune_inv chunk) as [->|(lo & t & Hlo & Ht & -> & ->)]; [by left|]. cbn [bind].
  destruct t as [|c t]; [done|]. change (index (c :: t) 0) with (Ok c). cbn [bind].
  destruct (EncodeRune_nonempty lo) as (b & l & El). rewrite El, length_app in Hf.
  cbn [length] in Hf.
  destruct (isb c dash_byte) eqn:Ec.
  - apply isb_spec in Ec as ->. rewrite (slice_suffix [dash_byte] t) by (cbn; len_lia). cbn [bind].
    destruct (classRune_inv t) as [->|(hi & u & Hhi & Hu & -> & ->)]; [by left|]. cbn [bind].
    destruct (IH u (inRange || (lo <=? r) && (r <=? hi)) (n + 1)) as [->|(rs & v & Hrs & _ & ->)];
      [lia|rewrite length_app in Hf; lia|by left|right].
    exists (Range lo hi :: rs), v. cbn [forallb wf_range mbind list_bind print_range].
    rewrite Hlo, Hhi, Hrs. repeat split; [by right|]. by rewrite <- !app_assoc.
  - cbn [bind]. destruct (IH (c :: t) (inRange || (lo <=? r) && (r <=? lo)) (n + 1))
      as [->|(rs & v & Hrs & _ & ->)]; [lia|cbn [length]; lia|by left|right].
    exists (Single lo :: rs), v. cbn [forallb wf_range mbind list_bind print_range].
    rewrite Hlo, Hrs. repeat split; [by right|]. by rewrite <- !app_assoc.
Qed.

(** ** Lemmas: segments *)

(** A term of a fixed segment. *)
Definition fixed (t : term) : bool := match t with Star => false | _ => wf_term t end.

(** What a pass leaves: [failed], or else what the term leaves of the name. *)
Definition after (failed : bool) (t : term) (s s' : bytes) (failed' : bool) : Prop :=
  match (if failed then None else eat t s) with
  | Some x => failed' = false /\ s' = x
  | None => failed' = true
  end.

Lemma class_text negated rs u :
  wf_term (Class negated rs) = true ->
  let chunk := (if negated then [not_byte] else []) ++ (rs ≫= print_range) ++ [close_byte] ++ u in
  (0 <? len chunk) && bool_decide (head chunk = Some not_byte) = negated /\
  (if negated then drop 1 chunk else chunk) = (rs ≫= print_range) ++ [close_byte] ++ u /\
  forallb wf_range rs = true /\ rs <> [].
Proof.
  intros Hwf chunk. destruct rs as [|i rs]; [done|]. cbn [wf_term] in Hwf.
  apply andb_true_iff in Hwf as [Hneg Hwf].
  destruct negated; cbn [orb] in *; [by subst chunk|].
  assert (exists b l, chunk = b :: l /\ b <> not_byte) as (b & l & E & Hb).
  { subst chunk. cbn [app mbind list_bind]. cbn [forallb] in Hwf.
    apply andb_true_iff in Hwf as [Hi _].
    assert (wf_rune (first_rune i) = true) as Hr.
    { destruct i; cbn [wf_range first_rune] in *; [done|by apply andb_true_iff in Hi as [? _]]. }
    apply wf_rune_spec in Hr as (Hs & _).
    destruct (EncodeRune_head_ne (first_rune i) not_byte Hs) as (b & l & E & Hb);
      [done|intros E; by rewrite E in Hneg|].
    destruct i; cbn [first_rune print_range] in *; rewrite E; by do 2 eexists. }
  rewrite E. cbn [head]. rewrite bool_decide_false by congruence.
  rewrite andb_false_r, <- E. auto.
Qed.

Lemma ranges_length rs : forallb wf_range rs = true -> (length rs <= length (rs ≫= print_range))%nat.
Proof.
  induction rs as [|i rs IH]; [done|]. cbn [forallb mbind list_bind length].
  intros [_ H]%andb_true_iff. rewrite length_app. specialize (IH H).
  assert (1 <= length (print_range i))%nat; [|lia].
  destruct i as [c|c hi]; cbn [print_range]; destruct (EncodeRune_nonempty c) as (b & l & ->);
    cbn [length app]; lia.
Qed.

Lemma eat_class negated rs s :
  s <> [] -> eat (Class negated rs) s
  = if Bool.eqb (existsb (in_range (DecodeRune s).1) rs) negated then None
    else Some (drop (DecodeRune s).2 s).
Proof. destruct s as [|b s]; [done|]. intros _. cbn [eat]. by destruct (DecodeRune _). Qed.

(** One pass takes one term. *)
Lemma matchChunk_term fuel t u s failed :
  fixed t = true ->
  exists s' failed', matchChunk_loop (S fuel) (print_term t ++ u) s failed
                     = matchChunk_loop fuel u s' failed' /\ after failed t s s' failed'.
Proof.
  intros Ht. unfold after. destruct t as [| |negated rs|c]; [done|..].
  - cbn [print_term app]. cbn [matchChunk_loop]. rewrite isb_ne, isb_refl by done.
    destruct failed; cbn [orb]; [by eauto|].
    destruct s as [|b s]; [do 2 eexists; by split|]. rewrite nonempty_len by done. cbn [orb].
    rewrite index_0. cbn [bind]. do 2 eexists. split; [reflexivity|].
    cbn [eat]. destruct (DecodeRune (b :: s)). by destruct (is_sep b).
  - cbn [print_term]. rewrite <- !app_assoc. cbn [app matchChunk_loop]. rewrite isb_refl.
    change (close_byte :: u) with ([close_byte] ++ u).
    destruct (class_text negated rs u Ht) as (-> & -> & Hrs & Hne).
    assert (forall r, class_loop (S (length ((rs ≫= print_range) ++ [close_byte] ++ u))) r
              ((rs ≫= print_range) ++ [close_byte] ++ u) false 0 = Ok (existsb (in_range r) rs, u)) as HC.
    { intros r. rewrite class_loop_print; [done|done|lia|by right|].
      rewrite length_app. pose proof (ranges_length rs Hrs). lia. }
    destruct failed; cbn [orb]; [rewrite HC; cbn [bind]; by eauto|].
    destruct (decide (s = [])) as [->|Hs]; [|].
    { change (len (@nil byte) =? 0) with true. cbv iota beta. rewrite HC. cbn [bind]. do 2 eexists. by split. }
    rewrite nonempty_len, eat_class by done.
    destruct (DecodeRune s) as [r w]. rewrite HC. cbn [bind orb fst snd].
    do 2 eexists. split; [reflexivity|]. by destruct (Bool.eqb _ _).
  - cbn [fixed wf_term print_term app] in *. cbn [matchChunk_loop].
    apply negb_true_iff, orb_false_iff in Ht as [[Hstar Hany]%orb_false_iff Hopen].
    rewrite Hopen, Hany. destruct failed; cbn [orb]; [by eauto|].
    destruct s as [|b s]; [do 2 eexists; by split|]. rewrite nonempty_len by done. cbn [orb].
    rewrite index_0, (slice_suffix [b] s) by (cbn; len_lia). cbn [bind].
    do 2 eexists. split; [reflexivity|]. cbn [eat]. destruct (DecodeRune (b :: s)).
    by destruct (decide (c = b)) as [->|];
      [rewrite bool_decide_true|rewrite bool_decide_false].
Qed.

Definition chunk_result (o : option bytes) : bytes * bool :=
  match o with Some rest => (rest, true) | None => ([], false) end.

Lemma matchChunk_loop_print fuel fs s failed :
  forallb fixed fs = true -> (length fs <= fuel)%nat ->
  matchChunk_loop fuel (print fs) s failed
  = Ok (chunk_result (if failed then None else eats fs s)).
Proof.
  revert fuel s failed. induction fs as [|t fs IH]; intros fuel s failed Hf Hl.
  { destruct fuel; by destruct failed. }
  cbn [forallb] in Hf. apply andb_true_iff in Hf as [Ht Hf].
  destruct fuel as [|fuel]; [cbn in Hl; lia|]. cbn [length] in Hl.
  unfold print. cbn [mbind list_bind].
  destruct (matchChunk_term fuel t (fs ≫= print_term) s failed Ht) as (s' & f' & -> & Ha).
  unfold print in IH. rewrite IH by (first [done|lia]).
  unfold after in Ha. cbn [eats]. destruct failed; [by rewrite Ha|].
  destruct (eat t s); [by destruct Ha as [-> ->]|by rewrite Ha].
Qed.

Lemma print_term_nonempty t : exists b l, print_term t = b :: l.
Proof. destruct t; cbn; eauto. Qed.

Lemma length_print ts : (length ts <= length (print ts))%nat.
Proof.
  induction ts as [|t ts IH]; [done|]. unfold print in *. cbn [mbind list_bind length].
  destruct (print_term_nonempty t) as (b & l & ->). rewrite length_app. cbn [length]. lia.
Qed.

Lemma matchChunk_print fs s :
  forallb fixed fs = true -> matchChunk (print fs) s = Ok (chunk_result (eats fs s)).
Proof.
  intros Hf. unfold matchChunk. rewrite matchChunk_loop_print; [done..|]. apply length_print.
Qed.

(** ** Lemmas: splitting *)

Lemma EncodeRune_bytes r :
  scalar r = true -> EncodeRune r = [byte_of r] \/ Forall (fun b => 0x80 <= u8 b) (EncodeRune r).
Proof.
  intros Hs. unfold EncodeRune. rewrite Hs. apply scalar_spec in Hs.
  destruct (r <? 0x80); [by left|right].
  repeat case_match; repeat constructor; rewrite u8_byte_of, Z.mod_small;
    Z.to_euclidean_division_equations; lia.
Qed.

Lemma rune_no_close r : wf_rune r = true -> Forall (fun b => b <> close_byte) (EncodeRune r).
Proof.
  rewrite wf_rune_spec. intros (Hs & _ & Hr).
  destruct (EncodeRune_bytes r Hs) as [E|H].
  - destruct (EncodeRune_head_ne r close_byte Hs) as (b & l & E' & Hb); [done..|].
    rewrite E in *. simplify_eq. by repeat constructor.
  - eapply Forall_impl; [exact H|]. intros b Hb ->. by vm_compute in Hb.
Qed.

Lemma ranges_no_close rs :
  forallb wf_range rs = true -> Forall (fun b => b <> close_byte) (rs ≫= print_range).
Proof.
  induction rs as [|i rs IH]; [constructor|]. cbn [forallb mbind list_bind].
  intros [Hi Hrs]%andb_true_iff. apply Forall_app. split; [|by apply IH].
  destruct i as [c|lo hi]; cbn [wf_range print_range] in *; [by apply rune_no_close|].
  apply andb_true_iff in Hi as [Hlo Hhi]. rewrite !Forall_app.
  repeat split; [by apply rune_no_close|by repeat constructor|by apply rune_no_close].
Qed.

Lemma segment_in_class l u :
  Forall (fun b => b <> close_byte) l ->
  segment true (l ++ [close_byte] ++ u)
  = let '(chunk, rest) := segment false u in (l ++ [close_byte] ++ chunk, rest).
Proof.
  induction 1 as [|b l Hb _ IH]; cbn [app segment].
  - rewrite andb_false_r, isb_ne, isb_refl by done. by destruct (segment false u).
  - rewrite andb_false_r, (isb_ne b close_byte Hb).
    destruct (isb b open_byte); cbn [app] in IH; rewrite IH; by destruct (segment false u).
Qed.

Lemma segment_term t u :
  fixed t = true ->
  segment false (print_term t ++ u)
  = let '(chunk, rest) := segment false u in (print_term t ++ chunk, rest).
Proof.
  destruct t as [| |negated rs|c]; intros Ht; [done|..].
  - cbn [print_term app segment]. rewrite !isb_ne by done. cbn [andb].
    by destruct (segment false u).
  - cbn [print_term]. rewrite <- !app_assoc. cbn [app].
    destruct (class_text negated rs u Ht) as (_ & _ & Hrs & _).
    cbn [segment]. rewrite isb_ne, isb_refl by done. cbn [andb].
    change (close_byte :: u) with ([close_byte] ++ u).
    rewrite (app_assoc _ (rs ≫= print_range)).
    rewrite segment_in_class.
    + destruct (segment false u). by rewrite <- !app_assoc.
    + apply Forall_app. split; [|by apply ranges_no_close].
      destruct negated; by repeat constructor.
  - cbn [fixed wf_term print_term app segment] in *.
    apply negb_true_iff, orb_false_iff in Ht as [[-> _]%orb_false_iff ->]. cbn [andb].
    destruct (isb c close_byte); by destruct (segment false u).
Qed.

(** A rest is empty or begins with a star. *)
Definition star_headed (p : bytes) : Prop := p = [] \/ head p = Some star_byte.

Lemma segment_print fs u :
  forallb fixed fs = true -> star_headed u -> segment false (print fs ++ u) = (print fs, u).
Proof.
  intros Hf Hu. induction fs as [|t fs IH].
  - destruct u as [|c u]; [done|]. destruct Hu as [|Hu]; [done|].
    cbn [head] in Hu. simplify_eq. cbn [print mbind list_bind app segment].
    by rewrite isb_refl.
  - cbn [forallb] in Hf. apply andb_true_iff in Hf as [Ht Hf].
    unfold print in *. cbn [mbind list_bind]. rewrite <- app_assoc, segment_term by done.
    by rewrite IH.
Qed.

Lemma segment_app inClass p chunk rest :
  segment inClass p = (chunk, rest) -> p = chunk ++ rest /\ star_headed rest.
Proof.
  revert inClass chunk. induction p as [|c p IH]; intros inClass chunk; cbn [segment].
  { intros [= <- <-]. by split; [|left]. }
  destruct (isb c star_byte && negb inClass) eqn:Es.
  { intros [= <- <-]. apply andb_true_iff in Es as [->%isb_spec _]. by split; [|right]. }
  match goal with |- context [segment ?b p] => destruct (segment b p) as [ch r] eqn:E end.
  intros [= <- <-]. apply IH in E as [-> ?]. done.
Qed.

Lemma segment_idem inClass p chunk rest :
  segment inClass p = (chunk, rest) -> segment inClass chunk = (chunk, []).
Proof.
  revert inClass chunk. induction p as [|c p IH]; intros inClass chunk; cbn [segment].
  { by intros [= <- <-]. }
  destruct (isb c star_byte && negb inClass) eqn:Es; [by intros [= <- <-]|].
  match goal with |- context [segment ?b p] => destruct (segment b p) as [ch r] eqn:E end.
  intros [= <- <-]. cbn [segment]. rewrite Es. by rewrite (IH _ _ E).
Qed.

(** The text of a class, or the class is malformed. *)
Lemma class_inv fuel chunk s failed :
  (exists negated rs u, fixed (Class negated rs) = true /\
     open_byte :: chunk = print_term (Class negated rs) ++ u) \/
  matchChunk_loop (S fuel) (open_byte :: chunk) s failed = Err ErrBadPattern.
Proof.
  cbn [matchChunk_loop]. rewrite isb_refl.
  set (f := failed || (len s =? 0)).
  destruct (if f then (0, 0%nat) else DecodeRune s) as [r w].
  destruct ((0 <? len chunk) && bool_decide (head chunk = Some not_byte)) eqn:En.
  - apply andb_true_iff in En as [_ Hh%bool_decide_eq_true].
    destruct chunk as [|c t]; [done|]. cbn [head] in Hh. simplify_eq. change (drop 1 (not_byte :: t)) with t.
    destruct (class_loop_inv (S (length t)) r t false 0) as [->|(rs & u & Hrs & Hne & ->)];
      [lia|lia|by right|left].
    exists true, rs, u. split; [|cbn [print_term]; by rewrite <- !app_assoc].
    destruct Hne; [lia|]. cbn [fixed wf_term]. by destruct rs.
  - destruct (class_loop_inv (S (length chunk)) r chunk false 0) as [->|(rs & u & Hrs & Hne & ->)];
      [lia|lia|by right|left].
    exists false, rs, u. split; [|cbn [print_term app]; by rewrite <- !app_assoc].
    destruct Hne; [lia|]. cbn [fixed wf_term]. destruct rs as [|i rs]; [done|].
    rewrite Hrs, andb_true_r. cbn [orb]. apply negb_true_iff, Z.eqb_neq. intros Ei.
    apply andb_false_iff in En. destruct En as [En|En].
    { apply Z.ltb_ge in En. pose proof (len_nonneg ((i :: rs) ≫= print_range)). len_lia. }
    apply bool_decide_eq_false in En. apply En. cbn [mbind list_bind].
    destruct i; cbn [first_rune print_range] in *; by subst.
Qed.

Lemma matchChunk_loop_inv fuel chunk s failed :
  (length chunk <= fuel)%nat -> segment false chunk = (chunk, []) ->
  (exists fs, forallb fixed fs = true /\ chunk = print fs) \/
  matchChunk_loop fuel chunk s failed = Err ErrBadPattern.
Proof.
  revert chunk s failed. induction fuel as [|fuel IH]; intros chunk s failed Hl Hseg.
  { left. exists []. by destruct chunk; [|cbn in Hl; lia]. }
  destruct chunk as [|c chunk]; [left; by exists []|].
  assert ((exists t u, fixed t = true /\ c :: chunk = print_term t ++ u) \/
          matchChunk_loop (S fuel) (c :: chunk) s failed = Err ErrBadPattern) as [(t & u & Ht & E)|]; [|..].
  { destruct (decide (c = open_byte)) as [->|Ho].
    { destruct (class_inv fuel chunk s failed) as [(n & rs & u & ? & ?)|]; [left|by right].
      by exists (Class n rs), u. }
    left. destruct (decide (c = any_byte)) as [->|Ha]; [by exists Any, chunk|].
    exists (Lit c), chunk. split; [|done]. cbn [fixed wf_term].
    destruct (decide (c = star_byte)) as [->|Hs].
    { cbn [segment] in Hseg. by rewrite isb_refl in Hseg. }
    by rewrite !isb_ne. }
  2: by right.
  rewrite E in *. destruct (matchChunk_term fuel t u s failed Ht) as (s' & f' & -> & _).
  rewrite segment_term in Hseg by done. destruct (segment false u) as [ch r] eqn:Eu.
  injection Hseg as Hch ->. apply app_inv_head in Hch as ->.
  destruct (print_term_nonempty t) as (b & l & Et).
  assert (length u <= fuel)%nat as Hu.
  { rewrite Et in Hl. cbn [app length] in Hl. rewrite length_app in Hl. lia. }
  destruct (IH u s' f' Hu Eu) as [(fs & Hfs & ->)|]; [left|by right].
  exists (t :: fs). cbn [forallb]. by rewrite Ht, Hfs.
Qed.

(** A segment is malformed, or decided as its terms say. *)
Lemma matchChunk_inv chunk s :
  segment false chunk = (chunk, []) ->
  (exists fs, forallb fixed fs = true /\ chunk = print fs /\
     matchChunk chunk s = Ok (chunk_result (eats fs s))) \/
  matchChunk chunk s = Err ErrBadPattern.
Proof.
  intros Hseg. destruct (matchChunk_loop_inv (length chunk) chunk s false) as [(fs & Hf & ->)|];
    [done|done|left|by right].
  exists fs. split_and!; [done..|]. by apply matchChunk_print.
Qed.

(** ** Lemmas: the language *)

Lemma print_app a b : print (a ++ b) = print a ++ print b.
Proof. unfold print. by rewrite bind_app. Qed.

Lemma print_stars n : print (replicate n Star) = replicate n star_byte.
Proof. induction n as [|n IH]; [done|]. cbn [replicate]. unfold print in *. cbn. by rewrite IH. Qed.

Definition stars_headed (ts : list term) : Prop := ts = [] \/ head ts = Some Star.

(** A pattern is some stars, a fixed segment and a rest. *)
Lemma split_terms ts :
  forallb wf_term ts = true ->
  exists n fs rest, ts = replicate n Star ++ fs ++ rest /\ forallb fixed fs = true /\
    stars_headed rest /\ forallb wf_term rest = true /\ (fs = [] -> rest = []).
Proof.
  assert (forall ts, forallb wf_term ts = true -> exists fs rest, ts = fs ++ rest /\
    forallb fixed fs = true /\ stars_headed rest /\ forallb wf_term rest = true) as Hseg.
  { clear ts. induction ts as [|t ts IH]; intros Hwf.
    - exists [], []. repeat split. by left.
    - cbn [forallb] in Hwf. apply andb_true_iff in Hwf as [Ht Hwf].
      destruct (decide (fixed t = true)) as [Hf|Hf].
      + destruct IH as (fs & rest & -> & Hfs & ? & ?); [done|].
        exists (t :: fs), rest. cbn [forallb]. by rewrite Hf, Hfs.
      + exists [], (t :: ts). destruct t; [|done..]. repeat split; [by right|].
        cbn [forallb]. done. }
  induction ts as [|t ts IH]; intros Hwf.
  { exists 0%nat, [], []. repeat split. by left. }
  destruct (decide (fixed t = true)) as [Hf|Hf].
  - destruct (Hseg _ Hwf) as (fs & rest & E & ? & Hr & ?).
    exists 0%nat, fs, rest. repeat split; try done. intros ->.
    destruct Hr as [|Hr]; [done|]. destruct rest; [done|]. simplify_eq/=.
  - cbn [forallb] in Hwf. apply andb_true_iff in Hwf as [Ht Hwf].
    destruct t; [|done..]. destruct (IH Hwf) as (n & fs & rest & -> & ?).
    by exists (S n), fs, rest.
Qed.

Lemma matches_stars n ts s : matches (Star :: ts) s -> matches (replicate (S n) Star ++ ts) s.
Proof. intros H. induction n as [|n IH]; [done|]. cbn [replicate app] in *. by constructor. Qed.

Lemma matches_star_inv ts s :
  matches (Star :: ts) s -> exists a b, s = a ++ b /\ existsb is_sep a = false /\ matches ts b.
Proof.
  intros H. remember (Star :: ts) as p eqn:E. revert ts E.
  induction H as [|ts' s' H IH|ts' c s' Hc H IH|t ts' s' s'' He H IH]; intros ts E; simplify_eq.
  - by exists [], s'.
  - destruct (IH ts eq_refl) as (a & b & -> & Ha & Hb). exists (c :: a), b.
    cbn [existsb]. by rewrite Hc, Ha.
  - destruct s' as [|b s']; [done|]. cbn [eat] in He. by destruct (DecodeRune _).
Qed.

Lemma matches_absorb_app ts a b :
  existsb is_sep a = false -> matches (Star :: ts) b -> matches (Star :: ts) (a ++ b).
Proof.
  induction a as [|c a IH]; [done|]. cbn [existsb app]. intros [Hc Ha]%orb_false_iff Hb.
  constructor; [done|]. by apply IH.
Qed.

Lemma matches_stars_inv n ts s : matches (replicate (S n) Star ++ ts) s -> matches (Star :: ts) s.
Proof.
  revert s. induction n as [|n IH]; intros s H; [done|].
  change (replicate (S (S n)) Star ++ ts) with (Star :: (replicate (S n) Star ++ ts)) in H.
  apply matches_star_inv in H as (a & b & -> & Ha & Hb).
  apply matches_absorb_app; [done|]. by apply IH.
Qed.

Lemma matches_eats fs ts s s' : eats fs s = Some s' -> matches ts s' -> matches (fs ++ ts) s.
Proof.
  revert s. induction fs as [|t fs IH]; intros s; cbn [eats app]; [by intros [= <-]|].
  destruct (eat t s) as [s1|] eqn:E; [|done]. intros Hs Hm. eapply matches_eat; [done|]. by apply IH.
Qed.

Lemma matches_eats_inv fs ts s :
  forallb fixed fs = true -> matches (fs ++ ts) s -> exists s', eats fs s = Some s' /\ matches ts s'.
Proof.
  revert s. induction fs as [|t fs IH]; intros s Hf H; [by exists s|].
  cbn [forallb app] in *. apply andb_true_iff in Hf as [Ht Hf].
  inversion H; subst; [done..|]. cbn [eats].
  match goal with He : eat _ _ = Some _ |- _ => rewrite He end. by apply IH.
Qed.

(** ** Lemmas: looking for a segment *)

Lemma skip_stars_spec p :
  exists n, p = replicate n star_byte ++ (skip_stars p).2 /\
    (skip_stars p).1 = (0 <? n)%nat /\ head (skip_stars p).2 <> Some star_byte.
Proof.
  induction p as [|c p (n & IH & _ & Hh)]; [by exists 0%nat|].
  cbn [skip_stars]. destruct (isb c star_byte) eqn:E.
  - apply isb_spec in E as ->. exists (S n). cbn [fst snd replicate app]. split; [by f_equal|done].
  - exists 0%nat. cbn [fst snd replicate app head]. split_and!; [done..|].
    intros [= ->]. by rewrite isb_refl in E.
Qed.

Lemma splitChunk_spec p :
  exists n chunk rest, splitChunk p = ((0 <? n)%nat, chunk, rest) /\
    p = replicate n star_byte ++ chunk ++ rest /\ star_headed rest /\
    segment false chunk = (chunk, []) /\ (chunk = [] -> rest = []).
Proof.
  unfold splitChunk. destruct (skip_stars_spec p) as (n & Hp & Hst & Hh).
  destruct (skip_stars p) as [st q]. cbn [fst snd] in *. subst st.
  destruct (segment false q) as [chunk rest] eqn:E. exists n, chunk, rest.
  destruct (segment_app _ _ _ _ E) as [-> Hr]. split_and!; [done..|by eapply segment_idem|].
  intros ->. by destruct Hr.
Qed.

Lemma splitChunk_print n fs rest :
  forallb fixed fs = true -> stars_headed rest -> (fs = [] -> rest = []) ->
  splitChunk (print (replicate n Star ++ fs ++ rest)) = ((0 <? n)%nat, print fs, print rest).
Proof.
  intros Hf Hr Hne. unfold splitChunk.
  assert (skip_stars (print (replicate n Star ++ fs ++ rest))
          = ((0 <? n)%nat, print (fs ++ rest))) as ->.
  { rewrite print_app, print_stars. induction n as [|n IH].
    - cbn [replicate app]. destruct fs as [|t fs]; [by rewrite Hne|].
      cbn [forallb] in Hf. apply andb_true_iff in Hf as [Ht _].
      rewrite print_app. unfold print. cbn [mbind list_bind app].
      destruct t as [| |? ?|c]; [done|reflexivity..|].
      cbn [print_term app skip_stars fixed wf_term] in *.
      apply negb_true_iff, orb_false_iff in Ht as [[-> _]%orb_false_iff _]. done.
    - cbn [replicate app skip_stars]. by rewrite isb_refl, IH. }
  rewrite print_app, segment_print; [done|done|].
  destruct Hr as [->|Hr]; [by left|right].
  destruct rest; [done|]. cbn [head] in Hr. by simplify_eq.
Qed.

(** The segment [fs] is found in [name] after [a], leaving [r]. *)
Definition found (fs : list term) (last : bool) (name a r : bytes) : Prop :=
  exists b, name = a ++ b /\ existsb is_sep a = false /\ eats fs b = Some r /\
    (last = true -> r = []).

Lemma found_cons fs last c name a r :
  found fs last (c :: name) (c :: a) r <-> is_sep c = false /\ found fs last name a r.
Proof.
  unfold found. split.
  - intros (b & E & Ha & ?). cbn [app existsb] in *. apply orb_false_iff in Ha as [? ?].
    simplify_eq. split; [done|]. by exists b.
  - intros (Hc & b & -> & Ha & ?). exists b. cbn [existsb app]. by rewrite Hc, Ha.
Qed.

Lemma found_cons_inv fs last c name c' a r :
  found fs last (c :: name) (c' :: a) r -> c' = c /\ found fs last name a r.
Proof.
  intros H. assert (c' = c) as -> by (destruct H as (b & E & _); cbn [app] in E; congruence).
  by apply found_cons in H as [_ H].
Qed.

Lemma found_at fs last c name r :
  found fs last (c :: name) [c] r <->
  is_sep c = false /\ eats fs name = Some r /\ (last = true -> r = []).
Proof.
  rewrite found_cons. split.
  - intros (? & b & -> & _ & ? & ?). done.
  - intros (? & ? & ?). split; [done|]. by exists name.
Qed.

Definition accepted (last : bool) (r : bytes * bool) : bool :=
  r.2 && negb (last && (0 <? len r.1)).

Lemma accepted_spec last o r :
  accepted last (chunk_result o) = true /\ (chunk_result o).1 = r <->
  o = Some r /\ (last = true -> r = []).
Proof.
  unfold accepted. destruct o as [x|]; cbn [chunk_result fst snd andb]; [|by split; intros []].
  rewrite negb_true_iff. split.
  - intros [H ->]. split; [done|]. intros ->. cbn [andb] in H. apply Z.ltb_ge in H.
    apply len_0_nil. pose proof (len_nonneg r). lia.
  - intros [[= ->] H]. split; [|done]. destruct last; [|done]. by rewrite H.
Qed.

(** The search finds the first place, if there is one. *)
Lemma star_loop_spec fs last name :
  forallb fixed fs = true ->
  match star_loop (print fs) last name with
  | Ok (Some r) => exists a, a <> [] /\ found fs last name a r /\
      forall a' r', a' <> [] -> found fs last name a' r' -> (length a <= length a')%nat
  | Ok None => forall a r, a <> [] -> ~ found fs last name a r
  | _ => False
  end.
Proof.
  intros Hf. induction name as [|c name IH]; cbn [star_loop].
  { intros a r Ha (b & E & _). destruct a; simplify_eq/=. }
  destruct (is_sep c) eqn:Hc.
  { intros a r Ha (b & E & Hs & _). destruct a as [|c' a]; [done|]. simplify_eq/=.
    by rewrite Hc in Hs. }
  rewrite matchChunk_print by done. cbn [bind].
  pose proof (accepted_spec last (eats fs name)) as Hacc. unfold accepted in Hacc.
  destruct (chunk_result (eats fs name)) as [rest ok]. cbn [fst snd] in Hacc.
  destruct (ok && negb (last && (0 <? len rest))).
  - exists [c]. split; [done|]. split; [by apply found_at; split; [|apply Hacc]|].
    intros a' r' Ha' _. destruct a'; [done|]. cbn. lia.
  - assert (forall r, ~ found fs last (c :: name) [c] r) as Hno.
    { intros r (_ & [H _]%Hacc)%found_at. done. }
    destruct (star_loop (print fs) last name) as [[r|]| |] eqn:Es; [..|done|done].
    + destruct IH as (a & Ha & Hfd & Hmin). exists (c :: a). split; [done|].
      split; [by apply found_cons|]. intros a' r' Ha' Hfd'.
      destruct a' as [|c' a']; [done|]. destruct (found_cons_inv _ _ _ _ _ _ _ Hfd') as [-> Hf2].
      destruct a' as [|x a']; [by apply Hno in Hfd'|]. cbn [length].
      specialize (Hmin (x :: a') r'). cbn [length] in Hmin. pose proof (Hmin ltac:(done) Hf2). lia.
    + intros a' r' Ha' Hfd'.
      destruct a' as [|c' a']; [done|]. destruct (found_cons_inv _ _ _ _ _ _ _ Hfd') as [-> Hf2].
      destruct a' as [|x a']; [by apply Hno in Hfd'|]. by apply (IH (x :: a') r').
Qed.

(** ** Lemmas: the loop *)

(** What one pass of the loop does with a pattern of the grammar. *)
Lemma Match_loop_pass fuel n fs rest name :
  forallb fixed fs = true -> stars_headed rest -> (fs = [] -> rest = []) ->
  replicate n Star ++ fs ++ rest <> [] ->
  let last := len (print rest) =? 0 in
  Match_loop (S fuel) (print (replicate n Star ++ fs ++ rest)) name =
  if (0 <? n)%nat && (len (print fs) =? 0) then Ok (negb (existsb is_sep name)) else
  if accepted last (chunk_result (eats fs name))
  then Match_loop fuel (print rest) (chunk_result (eats fs name)).1 else
  if (0 <? n)%nat then
    let! o := star_loop (print fs) last name in
    match o with Some r => Match_loop fuel (print rest) r | None => Ok false end
  else Ok false.
Proof.
  intros Hf Hr Hne Hts last. set (ts := replicate n Star ++ fs ++ rest) in *.
  destruct (print ts) as [|b l] eqn:Ep.
  { exfalso. pose proof (length_print ts) as Hl. rewrite Ep in Hl. by destruct ts; [|cbn in Hl; lia]. }
  cbn [Match_loop]. rewrite <- Ep. subst ts. rewrite splitChunk_print by done.
  rewrite matchChunk_print by done. cbn [bind].
  destruct (chunk_result (eats fs name)) as [r ok].
  unfold accepted. cbn [fst snd]. subst last.
  replace (negb ((len (print rest) =? 0) && (0 <? len r)))
    with ((len r =? 0) || (0 <? len (print rest))); [done|].
  pose proof (len_nonneg r). pose proof (len_nonneg (print rest)).
  destruct (Z.eqb_spec (len r) 0), (Z.eqb_spec (len (print rest)) 0),
    (Z.ltb_spec 0 (len r)), (Z.ltb_spec 0 (len (print rest))); cbn; lia.
Qed.

Lemma existsb_false_lookup {A} (f : A -> bool) l :
  existsb f l = false <-> forall i x, l !! i = Some x -> f x = false.
Proof.
  induction l as [|y l IH]; [by split|]. cbn [existsb]. rewrite orb_false_iff, IH. split.
  - intros [Hy Hl] [|i] x; cbn; [by intros [= <-]|by apply Hl].
  - intros H. split; [by apply (H 0%nat)|]. intros i x. apply (H (S i)).
Qed.

(** ** Lemmas: names of ASCII characters *)

Definition ascii (name : bytes) : Prop := Forall (fun b => u8 b < 0x80) name.

Definition accepts (t : term) (b : byte) : Prop := eat t [b] = Some [].

(** A class that holds the separator. *)
Definition class_sep (t : term) : bool :=
  match t with
  | Class negated rs => negb (Bool.eqb (existsb (in_range PathSeparator) rs) negated)
  | _ => false
  end.

Lemma eat_ascii t b s r :
  u8 b < 0x80 -> eat t (b :: s) = Some r -> r = s /\ accepts t b.
Proof.
  intros Hb. unfold accepts, eat, DecodeRune. rewrite (proj2 (Z.ltb_lt _ _) Hb).
  destruct t; [done|..]; case_match; intros [= <-]; done.
Qed.

Lemma eats_ascii fs s r :
  ascii s -> eats fs s = Some r -> exists c, s = c ++ r /\ Forall2 accepts fs c.
Proof.
  revert s. induction fs as [|t fs IH]; intros s Ha; cbn [eats].
  { intros [= <-]. by exists []. }
  destruct s as [|b s]; [done|]. apply Forall_cons in Ha as [Hb Ha].
  destruct (eat t (b :: s)) as [s'|] eqn:E; [|done].
  apply (eat_ascii _ _ _ _ Hb) in E as [-> Hacc].
  intros (c & -> & Hc)%(IH s Ha). exists (b :: c). split; [done|by constructor].
Qed.

Lemma accepts_sep t b :
  class_sep t = false -> accepts t b -> is_sep b = true -> t = Lit b.
Proof.
  unfold accepts, is_sep. intros Ht Ha Hs%Z.eqb_eq. unfold eat, DecodeRune in Ha.
  rewrite Hs in Ha. cbn in Ha. destruct t as [| |negated rs|c]; [done|..].
  - unfold is_sep in Ha. by rewrite Hs in Ha.
  - cbn [class_sep] in Ht. apply negb_false_iff in Ht. unfold PathSeparator in *. by rewrite Ht in Ha.
  - destruct (decide (c = b)); [by subst|done].
Qed.

Lemma accepts_lit b b' : accepts (Lit b) b' -> b' = b.
Proof.
  unfold accepts, eat. destruct (DecodeRune [b']). by destruct (decide (b = b')).
Qed.

(** A segment that is found earlier too, after fewer bytes without separators,
    takes no separator: its first one would be a literal, which the earlier
    place would need even earlier. *)
Lemma no_sep_taken fs a c a' c' u u' :
  a ++ c ++ u = a' ++ c' ++ u' -> (length a' < length a)%nat ->
  Forall2 accepts fs c -> Forall2 accepts fs c' ->
  existsb is_sep a = false -> existsb class_sep fs = false -> existsb is_sep c = false.
Proof.
  intros E Hlt Hc Hc' Ha Hfs.
  pose proof (Forall2_length _ _ _ Hc) as Lc. pose proof (Forall2_length _ _ _ Hc') as Lc'.
  apply existsb_false_lookup. intros j.
  induction j as [j IH] using lt_wf_ind. intros b Hb. apply not_true_is_false. intros Hs.
  pose proof (lookup_lt_Some _ _ _ Hb) as Hj.
  destruct (Forall2_lookup_r _ _ _ _ _ Hc Hb) as (t & Ht & Hta).
  pose proof (accepts_sep t b (proj1 (existsb_false_lookup _ _) Hfs _ _ Ht) Hta Hs) as ->.
  destruct (Forall2_lookup_l _ _ _ _ _ Hc' Ht) as (b' & Hb' & ->%accepts_lit).
  assert ((a ++ c ++ u) !! (length a' + j)%nat = Some b) as HN.
  { rewrite E, lookup_app_r, lookup_app_l by lia. rewrite <- Hb'. f_equal. lia. }
  destruct (decide (length a' + j < length a)%nat) as [Hl|Hge].
  - rewrite lookup_app_l in HN by done.
    by rewrite (proj1 (existsb_false_lookup _ _) Ha _ _ HN) in Hs.
  - rewrite lookup_app_r, lookup_app_l in HN by lia.
    by rewrite (IH (length a' + j - length a)%nat ltac:(lia) b HN) in Hs.
Qed.

(** The first place a segment is found at leaves at least as much of the path
    element as any other. *)
Lemma leftmost fs a c r2 a' c' r1 :
  a ++ c ++ r2 = a' ++ c' ++ r1 -> (length a' <= length a)%nat ->
  Forall2 accepts fs c -> Forall2 accepts fs c' ->
  existsb is_sep a = false -> (existsb is_sep c = false \/ existsb class_sep fs = false) ->
  exists x, r1 = x ++ r2 /\ existsb is_sep x = false.
Proof.
  intros E Hle Hc Hc' Ha Hsep.
  pose proof (Forall2_length _ _ _ Hc) as Lc. pose proof (Forall2_length _ _ _ Hc') as Lc'.
  destruct (decide (length a' = length a)) as [Hl|Hl].
  { apply app_inj_1 in E as [-> E]; [|done]. apply app_inj_1 in E as [-> ->]; [|lia].
    by exists []. }
  assert (existsb is_sep (a ++ c) = false) as Hac.
  { rewrite existsb_app, Ha. destruct Hsep; [done|]. eapply (no_sep_taken fs a c a' c'); eauto. lia. }
  set (d := (length a - length a')%nat). exists (take d r1).
  assert (r1 = drop (length a' + length fs) (a ++ c) ++ r2) as ->.
  { rewrite app_assoc in E. apply (f_equal (drop (length a' + length fs))) in E.
    rewrite drop_app_le in E by (rewrite length_app; lia). rewrite E, Lc'.
    by rewrite <- drop_drop, drop_app_length, drop_app_length. }
  assert (length (drop (length a' + length fs) (a ++ c)) = d) as Hd
    by (rewrite length_drop, length_app; lia).
  rewrite <- Hd, take_app_length. split; [done|].
  apply existsb_false_lookup. intros i b. rewrite lookup_drop.
  by apply existsb_false_lookup.
Qed.

Lemma last_rest rest : (len (print rest) =? 0) = true -> rest = [].
Proof.
  intros H%Z.eqb_eq%len_0_nil. pose proof (length_print rest) as Hl. rewrite H in Hl.
  by destruct rest; [|cbn in Hl; lia].
Qed.

Lemma print_empty ts : (len (print ts) =? 0) = bool_decide (ts = []).
Proof.
  destruct (len (print ts) =? 0) eqn:E.
  - apply last_rest in E as ->. done.
  - rewrite bool_decide_false; [done|]. by intros ->.
Qed.

Lemma matches_nil_inv s : matches [] s -> s = [].
Proof. by inversion 1. Qed.

Lemma matches_sepfree a : existsb is_sep a = false -> matches [Star] a.
Proof.
  intros H. rewrite <- (app_nil_r a). apply matches_absorb_app; [done|]. repeat constructor.
Qed.

Lemma matches_only_stars n s :
  matches (replicate (S n) Star) s <-> existsb is_sep s = false.
Proof.
  rewrite <- (app_nil_r (replicate _ _)). split.
  - intros (a & b & -> & Ha & ->%matches_nil_inv)%matches_stars_inv%matches_star_inv.
    by rewrite app_nil_r.
  - intros H. by apply matches_stars, matches_sepfree.
Qed.

(** A pattern of the grammar, taken apart for one pass of the loop. *)
Ltac split_pattern ts Hwf :=
  let n := fresh "n" in let fs := fresh "fs" in let rest := fresh "rest" in
  destruct (split_terms ts Hwf) as (n & fs & rest & -> & Hfs & Hrest & Hwr & Hne).

Lemma Match_loop_sound fuel ts name :
  forallb wf_term ts = true -> Match_loop fuel (print ts) name = Ok true -> matches ts name.
Proof.
  revert ts name. induction fuel as [|fuel IH]; intros ts name Hwf H.
  { destruct ts as [|t ts].
    - cbn in H. injection H as H%Z.eqb_eq%len_0_nil. subst. constructor.
    - pose proof (length_print (t :: ts)) as Hl. cbn [Match_loop] in H.
      destruct (print (t :: ts)); [cbn in Hl; lia|done]. }
  destruct (decide (ts = [])) as [->|Hts].
  { cbn in H. injection H as H%Z.eqb_eq%len_0_nil. subst. constructor. }
  split_pattern ts Hwf. rewrite Match_loop_pass in H by done.
  destruct (_ && _) eqn:E1.
  { apply andb_true_iff in E1 as [Hn E1%last_rest]. subst. rewrite Hne by done.
    injection H as H%negb_true_iff. rewrite app_nil_r. destruct n; [done|].
    by apply matches_only_stars. }
  pose proof (accepted_spec (len (print rest) =? 0) (eats fs name)) as Hacc.
  destruct (accepted _ _).
  { destruct (Hacc (chunk_result (eats fs name)).1) as [[He _] _]; [done|].
    apply IH in H; [|done].
    assert (matches (fs ++ rest) name) as Hm by (by eapply matches_eats).
    destruct n as [|n]; [done|]. apply matches_stars. by constructor. }
  destruct n as [|n]; [done|]. cbn in H.
  pose proof (star_loop_spec fs (len (print rest) =? 0) name Hfs) as Hs.
  destruct (star_loop _ _ _) as [[r|]| |]; [..|done|done]; [|done].
  destruct Hs as (a & _ & (b & -> & Ha & He & _) & _). cbn [bind] in H.
  apply matches_stars, matches_absorb_app; [done|]. constructor.
  eapply matches_eats; [done|]. by apply IH.
Qed.

Lemma Match_loop_total fuel ts name :
  forallb wf_term ts = true -> (length ts <= fuel)%nat ->
  exists b, Match_loop fuel (print ts) name = Ok b.
Proof.
  revert ts name. induction fuel as [|fuel IH]; intros ts name Hwf Hl.
  { destruct ts; [by eexists|cbn in Hl; lia]. }
  destruct (decide (ts = [])) as [->|Hts]; [by eexists|].
  split_pattern ts Hwf. rewrite Match_loop_pass by done.
  assert (length rest <= fuel)%nat as Hr.
  { rewrite !length_app, length_replicate in Hl. destruct n as [|n]; [|lia].
    destruct fs; [|cbn in Hl; lia]. by rewrite Hne in Hts. }
  destruct (_ && _); [by eexists|]. destruct (accepted _ _); [by apply IH|].
  destruct (0 <? n)%nat; [|by eexists].
  pose proof (star_loop_spec fs (len (print rest) =? 0) name Hfs) as Hs.
  destruct (star_loop _ _ _) as [[r|]| |]; [..|done|done]; cbn [bind]; [by apply IH|by eexists].
Qed.

(** A name that is accepted or rejected for another reason than its pattern
    is one the grammar speaks of. *)
Lemma Match_loop_inv fuel p name :
  (length p <= fuel)%nat ->
  (exists ts, forallb wf_term ts = true /\ p = print ts) \/
  Match_loop fuel p name = Ok false \/ Match_loop fuel p name = Err ErrBadPattern.
Proof.
  revert p name. induction fuel as [|fuel IH]; intros p name Hl.
  { left. exists []. by destruct p; [|cbn in Hl; lia]. }
  destruct p as [|c p]; [left; by exists []|]. cbn [Match_loop].
  destruct (splitChunk_spec (c :: p)) as (n & chunk & rest & -> & Hp & Hr & Hseg & Hne).
  assert (forall fs ts, forallb fixed fs = true -> forallb wf_term ts = true ->
            chunk = print fs -> rest = print ts ->
            exists ts, forallb wf_term ts = true /\ c :: p = print ts) as Hbuild.
  { intros fs ts Hfs Hts -> ->. exists (replicate n Star ++ fs ++ ts).
    rewrite Hp, !print_app, print_stars. split; [|done].
    rewrite !forallb_app, Hts, andb_true_r. apply andb_true_iff. split.
    - clear. by induction n.
    - apply forallb_forall. intros t Ht. pose proof (proj1 (forallb_forall _ _) Hfs t Ht).
      by destruct t. }
  destruct (_ && _) eqn:E1.
  { left. apply andb_true_iff in E1 as [_ ->%Z.eqb_eq%len_0_nil].
    apply (Hbuild [] []); [done..|by apply Hne]. }
  assert (length rest <= fuel)%nat as Hlr.
  { apply (f_equal length) in Hp. rewrite !length_app, length_replicate in Hp.
    cbn [length] in *. destruct n as [|n]; [|lia]. destruct chunk; [|cbn in Hp; lia].
    rewrite Hne in Hp by done. cbn in Hp. lia. }
  destruct (matchChunk_inv chunk name Hseg) as [(fs & Hfs & Ech & ->)| ->]; [|by right; right].
  cbn [bind]. destruct (chunk_result _) as [r ok].
  assert (forall name, (exists ts, forallb wf_term ts = true /\ c :: p = print ts) \/
            Match_loop fuel rest name = Ok false \/ Match_loop fuel rest name = Err ErrBadPattern) as HIH.
  { intros name'. destruct (IH rest name' Hlr) as [(ts & Hts & Er)|]; [left; by eapply Hbuild|by right]. }
  destruct (ok && _); [apply HIH|]. destruct (0 <? n)%nat; [|by right; left].
  rewrite !Ech. pose proof (star_loop_spec fs (len rest =? 0) name Hfs) as Hs.
  destruct (star_loop _ _ _) as [[r'|]| |]; [..|done|done]; cbn [bind]; [apply HIH|by right; left].
Qed.

Lemma ascii_suffix a b : ascii (a ++ b) -> ascii b.
Proof. unfold ascii. rewrite Forall_app. tauto. Qed.

(** Going on after the first place the segment is found at loses nothing. *)
Lemma found_first fs rest name a a' r r' :
  let last := len (print rest) =? 0 in
  ascii name -> (existsb is_sep name = false \/ existsb class_sep fs = false) -> stars_headed rest ->
  found fs last name a r -> found fs last name a' r' -> (length a' <= length a)%nat ->
  matches rest r -> matches rest r'.
Proof.
  intros last Hasc Hsep Hr (b & -> & Ha & He & Hl) (b' & E & Ha' & He' & Hl') Hle Hm.
  destruct Hr as [->|Hr]; [by rewrite Hl'; [rewrite Hl in Hm|]|].
  destruct rest as [|t ts]; [done|]. cbn [head] in Hr. injection Hr as ->.
  pose proof (ascii_suffix _ _ Hasc) as Hb.
  rewrite E in Hasc. pose proof (ascii_suffix _ _ Hasc) as Hb'.
  destruct (eats_ascii _ _ _ Hb He) as (c & -> & Hc).
  destruct (eats_ascii _ _ _ Hb' He') as (c' & -> & Hc').
  destruct (leftmost fs a c r a' c' r') as (x & -> & Hx); [done..| |].
  - destruct Hsep as [Hsep|]; [left|by right].
    rewrite !existsb_app, !orb_false_iff in Hsep. tauto.
  - by apply matches_absorb_app.
Qed.

Lemma found_suffix fs last name a r :
  ascii name -> found fs last name a r ->
  ascii r /\ (existsb is_sep name = false -> existsb is_sep r = false).
Proof.
  intros Hasc (b & -> & Ha & He & _). apply ascii_suffix in Hasc.
  destruct (eats_ascii _ _ _ Hasc He) as (c & -> & _).
  split; [by eapply ascii_suffix|]. rewrite !existsb_app, !orb_false_iff. tauto.
Qed.

(** The segment of a matched name is found, after what the stars absorb. *)
Lemma matches_found n fs rest name :
  forallb fixed fs = true -> matches (replicate n Star ++ fs ++ rest) name ->
  exists a r, found fs (len (print rest) =? 0) name a r /\ matches rest r /\ (n = 0%nat -> a = []).
Proof.
  intros Hfs Hm. destruct n as [|n].
  - apply (matches_eats_inv fs) in Hm as (r & He & Hm); [|done]. exists [], r.
    split; [|by split]. exists name. split_and!; [done..|].
    intros ->%last_rest. by apply matches_nil_inv in Hm.
  - apply matches_stars_inv, matches_star_inv in Hm as (a & b & -> & Ha & Hm).
    apply (matches_eats_inv fs) in Hm as (r & He & Hm); [|done]. exists a, r.
    split; [|by split]. exists b. split_and!; [done..|].
    intros ->%last_rest. by apply matches_nil_inv in Hm.
Qed.

Lemma Match_loop_complete fuel ts name :
  forallb wf_term ts = true -> (length ts <= fuel)%nat -> ascii name ->
  existsb is_sep name = false \/ existsb class_sep ts = false ->
  matches ts name -> Match_loop fuel (print ts) name = Ok true.
Proof.
  revert ts name. induction fuel as [|fuel IH]; intros ts name Hwf Hl Hasc Hsep Hm.
  { destruct ts; [|cbn in Hl; lia]. by apply matches_nil_inv in Hm as ->. }
  destruct (decide (ts = [])) as [->|Hts]; [by apply matches_nil_inv in Hm as ->|].
  split_pattern ts Hwf. rewrite Match_loop_pass by done.
  assert (length rest <= fuel)%nat as Hr.
  { rewrite !length_app, length_replicate in Hl. destruct n as [|n]; [|lia].
    destruct fs; [|cbn in Hl; lia]. by rewrite Hne in Hts. }
  destruct (_ && _) eqn:E1.
  { apply andb_true_iff in E1 as [Hn E1%last_rest]. subst. rewrite Hne in Hm by done.
    rewrite app_nil_r in Hm. destruct n; [done|]. by apply matches_only_stars in Hm as ->. }
  destruct (matches_found n fs rest name Hfs Hm) as (a & r & Hfd & Hmr & Hn).
  set (last := len (print rest) =? 0) in *.
  rewrite !existsb_app, !orb_false_iff in Hsep.
  assert (forall a' r', found fs last name a' r' -> (length a' <= length a)%nat ->
            Match_loop fuel (print rest) r' = Ok true) as Hgo.
  { intros a' r' Hfd' Hle. destruct (found_suffix _ _ _ _ _ Hasc Hfd') as [? ?].
    apply IH; [done|done|done|tauto|].
    eapply (found_first fs rest name a a' r r'); [done|tauto|done..]. }
  pose proof (accepted_spec last (eats fs name)) as Hacc.
  destruct (accepted _ _).
  { apply (Hgo []); [|cbn; lia]. exists name. split_and!; [done..| |]; by apply Hacc. }
  assert (a <> []) as Hne0.
  { intros ->. destruct Hfd as (b & E & _ & He & Hlr). cbn [app] in E. subst b.
    by destruct (proj2 (Hacc r) (conj He Hlr)). }
  destruct n as [|n]; [by rewrite Hn in Hne0|]. cbn [Nat.ltb Nat.leb].
  pose proof (star_loop_spec fs last name Hfs) as Hs.
  destruct (star_loop _ _ _) as [[r'|]| |]; [..|done|done]; cbn [bind].
  - destruct Hs as (a' & _ & Hfd' & Hmin). eapply Hgo; [done|]. by eapply Hmin.
  - by destruct (Hs a r Hne0).
Qed.

(** ** Properties *)

(** [Match] always returns, and never panics: whatever the pattern and the
    name, the result is a boolean or [ErrBadPattern]. *)
Theorem Match_total NORMALIZE_PATH pattern name :
  (exists b, Match NORMALIZE_PATH pattern name = Ok b) \/
  Match NORMALIZE_PATH pattern name = Err ErrBadPattern.
Proof.
  unfold Match. set (p := normPattern NORMALIZE_PATH pattern).
  destruct (Match_loop_inv (length p) p name) as [(ts & Hts & E)|[->| ->]]; [done|..]; [|by left; eexists|by right].
  left. rewrite E. apply Match_loop_total; [done|apply length_print].
Qed.

(** A name [Match] accepts is matched by the pattern: the pattern (after
    normalisation) is one of the documented grammar, and the name is in its
    language. *)
Theorem Match_sound NORMALIZE_PATH pattern name :
  Match NORMALIZE_PATH pattern name = Ok true ->
  exists ts, forallb wf_term ts = true /\ normPattern NORMALIZE_PATH pattern = print ts /\
    matches ts name.
Proof.
  unfold Match. set (p := normPattern NORMALIZE_PATH pattern). intros H.
  destruct (Match_loop_inv (length p) p name) as [(ts & Hts & E)|[E|E]]; [done|..|congruence|congruence].
  exists ts. rewrite E in H. split_and!; [done..|]. by eapply Match_loop_sound.
Qed.

(** C29: For a pattern that is, after normalisation, one of the documented
    grammar, and a name that is ASCII and either holds no separator or meets no
    class of the pattern that contains the separator (as a negated class does
    that does not list it), [Match] decides the language of the pattern: it
    returns true exactly for the names the pattern matches, and never an error.
    For a name with separators and such a class it may miss a name of the
    language ([class_separator_missed]). *)
Theorem Match_decides NORMALIZE_PATH pattern ts name :
  forallb wf_term ts = true -> normPattern NORMALIZE_PATH pattern = print ts -> ascii name ->
  existsb is_sep name = false \/ existsb class_sep ts = false ->
  exists b, Match NORMALIZE_PATH pattern name = Ok b /\ (b = true <-> matches ts name).
Proof.
  intros Hwf E Hasc Hsep. unfold Match. rewrite E.
  pose proof (length_print ts) as Hl.
  destruct (Match_loop_total (length (print ts)) ts name Hwf Hl) as [b Hb].
  exists b. split; [done|]. split.
  - intros ->. by eapply Match_loop_sound.
  - intros Hm. rewrite Match_loop_complete in Hb by done. congruence.
Qed.

Lemma Match_decides_witness :
  exists b, Match true (str "dir/*.[a-c]?") (str "dir\report.c1") = Ok b /\
    (b = true <-> matches ([Lit Byte.x64; Lit Byte.x69; Lit Byte.x72; Lit Byte.x5c; Star;
      Lit Byte.x2e; Class false [Range 0x61 0x63]; Any]) (str "dir\report.c1")).
Proof.
  apply Match_decides; [reflexivity|reflexivity| |right; reflexivity].
  repeat constructor.
Defined.

Lemma Match_sound_witness :
  Match false (str "*[^0-9]") (str "x1y") = Ok true /\
  exists ts, forallb wf_term ts = true /\ normPattern false (str "*[^0-9]") = print ts /\
    matches ts (str "x1y").
Proof. split; [reflexivity|]. apply (Match_sound false). reflexivity. Defined.

(** A pattern without special characters matches itself and nothing else,
    whatever the encoding of the name. *)
Theorem Match_literal pattern name :
  hasGlobMeta pattern = false ->
  Match false pattern name = Ok (bool_decide (name = pattern)).
Proof.
  intros Hm. unfold Match, normPattern. cbn [negb].
  assert (pattern = print (Lit <$> pattern)) as Ep.
  { clear. induction pattern as [|c p IH]; [done|]. unfold print in *. cbn. by f_equal. }
  assert (forallb fixed (Lit <$> pattern) = true) as Hf.
  { clear Ep. induction pattern as [|c p IH]; [done|]. cbn [hasGlobMeta existsb] in Hm.
    apply orb_false_iff in Hm as [Hc Hp]. cbn [fmap list_fmap forallb fixed wf_term].
    rewrite Hc. by apply IH. }
  assert (forall p s r, eats (Lit <$> p) s = Some r <-> s = p ++ r) as He.
  { clear. induction p as [|c p IH]; intros s r; cbn [fmap list_fmap eats app]; [naive_solver|].
    destruct s as [|b s]; [naive_solver|]. cbn [eat]. destruct (DecodeRune _) as [? ?].
    destruct (decide (c = b)) as [->|]; [|naive_solver]. unfold fmap in IH. rewrite IH. naive_solver. }
  destruct (decide (pattern = [])) as [->|Hne].
  { cbn. by destruct name. }
  destruct pattern as [|c p] eqn:E0; [done|]. rewrite <- E0 in *.
  assert (length pattern = S (length p)) as Hl by (by rewrite E0). rewrite Hl. rewrite Ep at 1.
  pose proof (Match_loop_pass (length p) 0 (Lit <$> pattern) [] name) as H.
  cbn [replicate app Nat.ltb Nat.leb andb] in H. rewrite app_nil_r in H.
  rewrite H; [|done|by left|by intros|by rewrite E0]. clear H. cbn [andb print].
  pose proof (accepted_spec true (eats (Lit <$> pattern) name)) as Hacc.
  change (len (print []) =? 0) with true. destruct (accepted _ _) eqn:Ea.
  - destruct (Hacc (chunk_result (eats (Lit <$> pattern) name)).1) as [[Hx Hr] _]; [done|].
    rewrite Hr by done. apply He in Hx. rewrite Hr, app_nil_r in Hx by done. subst name.
    rewrite bool_decide_true by done. by destruct (length p).
  - rewrite bool_decide_false; [done|]. intros ->.
    assert (eats (Lit <$> pattern) pattern = Some []) as Hx by (apply He; by rewrite app_nil_r).
    destruct (proj2 (Hacc []) (conj Hx (fun _ => eq_refl))). congruence.
Qed.

Lemma Match_literal_witness :
  Match false (str "a.txt") (str "b.txt") = Ok (bool_decide (str "b.txt" = str "a.txt")).
Proof. apply Match_literal. reflexivity. Defined.

(** ** Where the code is not its documentation *)

(** A star retries at every byte: two [?] match one character of three bytes. *)
Example star_splits_characters : Match false (str "*??") (EncodeRune 0x20AC) = Ok true.
Proof. reflexivity. Qed.

(** When a class matches the separator, the leftmost place of a segment may be
    the wrong one: this name is in the language of the pattern, and [Match]
    rejects it. *)
Lemma class_separator_missed :
  let ts := [Star; Class true [Single 0x78]; Lit Byte.x62; Star; Lit Byte.x63] in
  print ts = str "*[^x]b*c" /\ matches ts (str "ab\bc") /\
  Match false (str "*[^x]b*c") (str "ab\bc") = Ok false.
Proof.
  split; [reflexivity|]. split; [|reflexivity]. cbn.
  do 2 (apply matches_absorb; [reflexivity|]). apply matches_star.
  do 2 (eapply matches_eat; [reflexivity|]). apply matches_star.
  eapply matches_eat; [reflexivity|]. constructor.
Qed.
