(* ===== verification/Pool.v ===== *)
(** * The connection pool ([pool.go])

    A pool of logged-on sessions shared by goroutines.  Each definition of the
    first part is one critical section of the code (a stretch under [p.mu]) or
    what happens between two of them; [Get] composes them.  A session is an
    object of a heap ([sessions]), since the pool and the callers hold pointers
    to it; the result of a health check, of creating a session and what a
    [select] picks are arguments.  Times are in nanoseconds. *)

From stdpp Require Export functions relations.
From S2P Require Export Prelude.

Definition ErrPoolClosed : error := Errorf "connection pool is closed".
Definition ErrPoolExhausted : error := Errorf "connection pool exhausted".

(** ** State *)

Record PoolConfig := mkConfig {
  MaxIdle : Z; MaxActive : Z; IdleTimeout : Z; WaitTimeout : Z;
  has_HealthCheck : bool;
}.

Definition DefaultPoolConfig : PoolConfig :=
  mkConfig 5 10 (5 * 60 * 10 ^ 9) (30 * 10 ^ 9) false.

Record pooledSession := mkPooled {
  ps_session : bool;           (* [session] is not nil *)
  ps_tcpConn : bool;           (* [tcpConn] is not nil *)
  lastUsed : Z;
  inUse : bool;
  realClosed : bool;
}.
Definition no_session : pooledSession := mkPooled false false 0 false false.

(** What [closeSession] calls. *)
Inductive teardown := Logoff_called (pid : nat) | Conn_closed (pid : nat).
Definition torn_pid (t : teardown) : nat := match t with Logoff_called n | Conn_closed n => n end.

Record ConnectionPool := mkPool {
  config : PoolConfig;
  idle : list nat;
  active : Z;
  closed : bool;
  waitChan : bool;             (* the channel, of capacity one, holds a signal *)
  sessions : nat -> pooledSession;
  next_pid : nat;              (* the next free address *)
  teardowns : list teardown;   (* the connections closed so far *)
}.

Definition set_idle (l : list nat) (n : Z) (p : ConnectionPool) : ConnectionPool :=
  mkPool (config p) l n (closed p) (waitChan p) (sessions p) (next_pid p) (teardowns p).
Definition set_active (n : Z) (p : ConnectionPool) : ConnectionPool := set_idle (idle p) n p.
Definition set_signal (b : bool) (p : ConnectionPool) : ConnectionPool :=
  mkPool (config p) (idle p) (active p) (closed p) b (sessions p) (next_pid p) (teardowns p).
Definition set_closed (p : ConnectionPool) : ConnectionPool :=
  mkPool (config p) (idle p) (active p) true (waitChan p) (sessions p) (next_pid p) (teardowns p).
Definition with_session (pid : nat) (f : pooledSession -> pooledSession) (p : ConnectionPool) : ConnectionPool :=
  mkPool (config p) (idle p) (active p) (closed p) (waitChan p) (alter f pid (sessions p))
    (next_pid p) (teardowns p).
Definition session_of (p : ConnectionPool) (pid : nat) : pooledSession := sessions p pid.

Definition used (now : Z) (b : bool) (ps : pooledSession) : pooledSession :=
  mkPooled (ps_session ps) (ps_tcpConn ps) now b (realClosed ps).
Definition really_closed (ps : pooledSession) : pooledSession :=
  mkPooled (ps_session ps) (ps_tcpConn ps) (lastUsed ps) (inUse ps) true.
Definition not_in_use (ps : pooledSession) : pooledSession :=
  mkPooled (ps_session ps) (ps_tcpConn ps) (lastUsed ps) false (realClosed ps).

(** The normalised configuration, and an empty pool. *)
Definition normal_config (c : PoolConfig) : PoolConfig :=
  let idle := if MaxIdle c <? 0 then 0 else MaxIdle c in
  let act := if MaxActive c <? 0 then 0 else MaxActive c in
  let idle := if (0 <? act) && (act <? idle) then act else idle in
  mkConfig idle act (IdleTimeout c) (WaitTimeout c) (has_HealthCheck c).

Definition NewConnectionPool (config : option PoolConfig) : ConnectionPool :=
  let c := match config with Some c => c | None => DefaultPoolConfig end in
  mkPool (normal_config c) [] 0 false false (fun _ => no_session) 0 [].

(** ** Critical sections *)

(** [closeSession]: logging off also closes the connection. *)
Definition closeSession (pid : nat) (p : ConnectionPool) : ConnectionPool :=
  let ps := session_of p pid in
  let t := if ps_session ps then [Logoff_called pid]
           else if ps_tcpConn ps then [Conn_closed pid] else [] in
  mkPool (config p) (idle p) (active p) (closed p) (waitChan p) (sessions p) (next_pid p)
    (teardowns p ++ t).

(** [isAlive]; [health] is the answer of the health check. *)
Definition isAlive (health : res bool) (pid : nat) (p : ConnectionPool) : bool :=
  let ps := session_of p pid in
  if realClosed ps then false
  else if negb (ps_tcpConn ps) || negb (ps_session ps) then false
  else if has_HealthCheck (config p)
  then match health with Ok b => b | _ => false end
  else true.

(** What a pass of [Get] decides under the mutex. *)
Inductive decision :=
  | Popped (pid : nat)
  | Creating
  | Refused (e : error)
  | Waiting (timeout : option Z).

Definition Get_locked (now : Z) (waitDeadline : option Z) (p : ConnectionPool)
    : decision * ConnectionPool :=
  let p := set_signal false p in
  if closed p then (Refused ErrPoolClosed, p) else
  match last (idle p) with
  | Some pid =>
    (Popped pid,
     with_session pid (used now true) (set_idle (take (length (idle p) - 1) (idle p)) (active p) p))
  | None =>
    if (MaxActive (config p) =? 0) || (active p <? MaxActive (config p))
    then (Creating, set_active (active p + 1) p)
    else if WaitTimeout (config p) =? 0 then (Refused ErrPoolExhausted, p)
    else match waitDeadline with
         | Some d => if d - now <=? 0 then (Refused ErrPoolExhausted, p)
                     else (Waiting (Some (d - now)), p)
         | None => (Waiting None, p)
         end
  end.

(** After [createConnection] (or the function configured in its place). *)
Definition created (ps : pooledSession) (p : ConnectionPool) : nat * ConnectionPool :=
  (next_pid p,
   mkPool (config p) (idle p) (active p) (closed p) (waitChan p)
     (<[next_pid p := ps]> (sessions p)) (S (next_pid p)) (teardowns p)).
Definition create_failed (p : ConnectionPool) : ConnectionPool := set_active (active p - 1) p.

(** [createConnection]: the outcomes of [net.Dial] and of [DialContext]. *)
Definition createConnection (now : Z) (dial dialContext : res unit) : res pooledSession :=
  match dial with
  | Ok _ => match dialContext with
            | Ok _ => Ok (mkPooled true true now true false)
            | Err e => Err e | Panic => Panic end
  | Err e => Err (Wrapf "failed to connect to %s: %w" e)
  | Panic => Panic
  end.

Definition put (now : Z) (pid : nat) (p : ConnectionPool) : ConnectionPool :=
  if realClosed (session_of p pid) || closed p then p else
  let p := with_session pid (used now false) p in
  if (MaxIdle (config p) =? 0) || (MaxIdle (config p) <=? len (idle p))
  then closeSession pid (set_active (active p - 1) p)
  else set_signal true (set_idle (idle p ++ [pid]) (active p) p).

(** The first occurrence of [pid] taken out of [l], if there is one. *)
Fixpoint remove_first (pid : nat) (l : list nat) : option (list nat) :=
  match l with
  | [] => None
  | x :: l => if decide (x = pid) then Some l else cons x <$> remove_first pid l
  end.

Definition remove (pid : nat) (p : ConnectionPool) : ConnectionPool :=
  let p := with_session pid really_closed p in
  let p :=
    if inUse (session_of p pid)
    then with_session pid not_in_use (set_active (active p - 1) p)
    else match remove_first pid (idle p) with
         | Some l => set_idle l (active p - 1) p
         | None => p
         end in
  closeSession pid p.

Definition expired (now : Z) (p : ConnectionPool) (pid : nat) : bool :=
  IdleTimeout (config p) <? now - lastUsed (session_of p pid).

Definition cleanupExpired (now : Z) (p : ConnectionPool) : ConnectionPool :=
  let toClose := filter (fun pid => Is_true (expired now p pid)) (idle p) in
  let validIdle := filter (fun pid => Is_true (negb (expired now p pid))) (idle p) in
  foldl (fun p pid => closeSession pid p)
    (set_idle validIdle (active p - len toClose) p) toClose.

Definition Close (p : ConnectionPool) : ConnectionPool :=
  if closed p then p else
  foldl (fun p pid => closeSession pid p) (set_idle [] (active p) (set_closed p)) (idle p).

Record PoolStats := mkStats { st_Idle : Z; st_Active : Z; st_Closed : bool }.
Definition Stats (p : ConnectionPool) : PoolStats := mkStats (len (idle p)) (active p) (closed p).

(** A caller's handle, possibly without a session. *)
Definition PooledSession := option nat.
Definition PooledSession_Close (now : Z) (ps : PooledSession) (p : ConnectionPool) : ConnectionPool :=
  match ps with None => p | Some pid => put now pid p end.
Definition ReallyClose (ps : PooledSession) (p : ConnectionPool) : ConnectionPool :=
  match ps with None => p | Some pid => remove pid p end.

(** ** [Get] in isolation

    What the environment answers: the health of each session, the outcomes of
    creating sessions, and for each wait the event the [select] picks with the
    pool as other goroutines have left it. *)
Inductive wakeup := Signalled (now : Z) (p : ConnectionPool) | CtxDone (e : error) | TimedOut.

Fixpoint Get_loop (fuel : nat) (health : nat -> res bool) (create : res pooledSession)
    (waits : list wakeup) (now : Z) (deadline : option Z) (p : ConnectionPool)
    : res nat * ConnectionPool :=
  match fuel with
  | O => (Panic, p)
  | S fuel =>
    let '(d, p) := Get_locked now deadline p in
    match d with
    | Refused e => (Err e, p)
    | Popped pid =>
      if isAlive (health pid) pid p then (Ok pid, p)
      else Get_loop fuel health create waits now deadline (closeSession pid p)
    | Creating =>
      match create with
      | Ok ps => let '(pid, p) := created ps p in (Ok pid, p)
      | Err e => (Err e, create_failed p)
      | Panic => (Panic, p)
      end
    | Waiting _ =>
      match waits with
      | Signalled now p' :: waits => Get_loop fuel health create waits now deadline p'
      | CtxDone e :: _ => (Err e, p)
      | TimedOut :: _ => (Err ErrPoolExhausted, p)
      | [] => (Panic, p)
      end
    end
  end.

(** [ctx]: nil, or a context with its error so far. *)
Definition Get (fuel : nat) (ctx : option (option error)) (health : nat -> res bool)
    (create : res pooledSession) (waits : list wakeup) (now : Z) (p : ConnectionPool)
    : res nat * ConnectionPool :=
  match ctx with
  | None => (Err (InternalError "nil context"), p)
  | Some (Some e) => (Err e, p)
  | Some None =>
    let deadline := if 0 <? WaitTimeout (config p) then Some (now + WaitTimeout (config p)) else None in
    Get_loop fuel health create waits now deadline p
  end.

(** ** Goroutines interleaved

    The pool with what the goroutines using it are doing: [creating] counts the
    calls of [Get] that are creating a session, [checking] holds the sessions
    popped and not yet found alive, [held] those in the hands of callers.
    [stale] holds the sessions that the pool still counts as active and that
    nobody can get any more. *)
Record System := mkSystem {
  pool : ConnectionPool;
  creating : nat;
  checking : list nat;
  held : list nat;
  stale : list nat;
}.

Definition with_pool (p : ConnectionPool) (s : System) : System :=
  mkSystem p (creating s) (checking s) (held s) (stale s).

(** What becomes of a system whose pool a pass of [Get] has left as [p]. *)
Definition decided (d : decision) (p : ConnectionPool) (s : System) : System :=
  match d with
  | Popped pid => mkSystem p (creating s) (pid :: checking s) (held s) (stale s)
  | Creating => mkSystem p (S (creating s)) (checking s) (held s) (stale s)
  | Refused _ | Waiting _ => with_pool p s
  end.

(** A pass of [Get] under the mutex, and the receive from the channel that ends
    a wait (the next pass of that [Get] follows it). *)
Inductive pass (s : System) : System -> Prop :=
  | pass_Get now deadline d p :
      Get_locked now deadline (pool s) = (d, p) -> pass s (decided d p s)
  | pass_wake : pass s (with_pool (set_signal false (pool s)) s).

(** Everything else, by callers that close each session they hold once ([Close]
    or [ReallyClose]; after [ReallyClose] they may call either again).  A session
    just created is in use and not closed, as [createConnection] leaves it. *)
Inductive act (s : System) : System -> Prop :=
  | act_alive pid rest health :
      checking s ≡ₚ pid :: rest -> isAlive health pid (pool s) = true ->
      act s (mkSystem (pool s) (creating s) rest (pid :: held s) (stale s))
  | act_dead pid rest health :
      checking s ≡ₚ pid :: rest -> isAlive health pid (pool s) = false ->
      act s (mkSystem (closeSession pid (pool s)) (creating s) rest (held s) (pid :: stale s))
  | act_created n ps :
      creating s = S n -> inUse ps = true -> realClosed ps = false ->
      act s (mkSystem (created ps (pool s)).2 n (checking s)
               ((created ps (pool s)).1 :: held s) (stale s))
  | act_create_failed n :
      creating s = S n -> act s (mkSystem (create_failed (pool s)) n (checking s) (held s) (stale s))
  | act_Close pid rest now :
      held s ≡ₚ pid :: rest ->
      act s (mkSystem (PooledSession_Close now (Some pid) (pool s)) (creating s) (checking s) rest
               (if closed (pool s) then pid :: stale s else stale s))
  | act_ReallyClose pid rest :
      held s ≡ₚ pid :: rest ->
      act s (mkSystem (ReallyClose (Some pid) (pool s)) (creating s) (checking s) rest (stale s))
  | act_Close_again pid now :
      realClosed (session_of (pool s) pid) = true ->
      act s (with_pool (PooledSession_Close now (Some pid) (pool s)) s)
  | act_ReallyClose_again pid :
      realClosed (session_of (pool s) pid) = true ->
      act s (with_pool (ReallyClose (Some pid) (pool s)) s)
  | act_cleanup now : act s (with_pool (cleanupExpired now (pool s)) s)
  | act_pool_Close :
      act s (mkSystem (Close (pool s)) (creating s) (checking s) (held s) (idle (pool s) ++ stale s)).

(** A caller closes a handle it got before, whatever it or others have done to
    the session since: a second [Close] of a session already returned, for one. *)
Inductive reclose (s : System) : System -> Prop :=
  | reclose_Close pid now :
      (pid < next_pid (pool s))%nat ->
      reclose s (with_pool (PooledSession_Close now (Some pid) (pool s)) s)
  | reclose_ReallyClose pid :
      (pid < next_pid (pool s))%nat ->
      reclose s (with_pool (ReallyClose (Some pid) (pool s)) s).

(** What the code allows: callers may close a handle any number of times. *)
Inductive step (s s' : System) : Prop :=
  | step_pass : pass s s' -> step s s'
  | step_act : act s s' -> step s s'
  | step_reclose : reclose s s' -> step s s'.

(** What it allows to callers that close each handle once. *)
Inductive orderly (s s' : System) : Prop :=
  | orderly_pass : pass s s' -> orderly s s'
  | orderly_act : act s s' -> orderly s s'.

Definition start (c : option PoolConfig) : System := mkSystem (NewConnectionPool c) 0 [] [] [].
Definition reachable (c : option PoolConfig) (s : System) : Prop := rtc step (start c) s.
Definition orderly_reachable (c : option PoolConfig) (s : System) : Prop := rtc orderly (start c) s.

(** The sessions the pool counts. *)
Definition counted (s : System) : list nat := idle (pool s) ++ checking s ++ held s ++ stale s.

Definition torn (s : System) : list nat := torn_pid <$> teardowns (pool s).

(** The invariant: every counted session is in one place, the count is right,
    the limits hold, and the sessions that can still be used are open. *)
Record inv (s : System) : Prop := {
  inv_nodup : NoDup (counted s);
  inv_active : active (pool s) = Z.of_nat (creating s) + len (counted s);
  inv_max_active : 0 < MaxActive (config (pool s)) -> active (pool s) <= MaxActive (config (pool s));
  inv_max_idle : len (idle (pool s)) <= Z.max 0 (MaxIdle (config (pool s)));
  inv_closed : closed (pool s) = true -> idle (pool s) = [];
  inv_idle : forall pid, pid ∈ idle (pool s) -> inUse (sessions (pool s) pid) = false;
  inv_used : forall pid, pid ∈ checking s ++ held s -> inUse (sessions (pool s) pid) = true;
  inv_live : forall pid, pid ∈ idle (pool s) ++ checking s ++ held s ->
    realClosed (sessions (pool s) pid) = false /\ pid ∉ torn s;
  inv_removed : forall pid, realClosed (sessions (pool s) pid) = true ->
    inUse (sessions (pool s) pid) = false /\ pid ∉ counted s;
  inv_fresh : forall pid, pid ∈ counted s \/ pid ∈ torn s \/ realClosed (sessions (pool s) pid) = true ->
    (pid < next_pid (pool s))%nat;
}.

(** ** Lemmas: the operations on a pool *)

Lemma closeSession_torn pid p :
  exists l, (torn_pid <$> teardowns (closeSession pid p)) = (torn_pid <$> teardowns p) ++ l /\
    forall x, x ∈ l -> x = pid.
Proof.
  unfold closeSession. cbn [teardowns]. rewrite fmap_app. eexists. split; [reflexivity|].
  repeat case_match; set_solver.
Qed.

Lemma last_split {A} (l : list A) x : last l = Some x -> l = take (length l - 1) l ++ [x].
Proof.
  intros (k & ->)%last_Some. rewrite length_app. cbn [length].
  by rewrite Nat.add_sub, take_app_length.
Qed.

Lemma remove_first_Some pid l k : remove_first pid l = Some k -> l ≡ₚ pid :: k.
Proof.
  revert k. induction l as [|x l IH]; intros k; [done|]. cbn [remove_first].
  destruct (decide (x = pid)) as [->|]; [by intros [= ->]|].
  intros (k' & E & ->)%fmap_Some. rewrite (IH k') by done. solve_Permutation.
Qed.

Lemma remove_first_None pid l : pid ∉ l -> remove_first pid l = None.
Proof.
  induction l as [|x l IH]; [done|]. rewrite not_elem_of_cons. intros [Hx Hl].
  cbn [remove_first]. rewrite decide_False by done. by rewrite IH.
Qed.

Lemma filter_split {A} (f : A -> bool) l :
  l ≡ₚ filter (fun x => Is_true (negb (f x))) l ++ filter (fun x => Is_true (f x)) l.
Proof.
  induction l as [|x l IH]; [done|]. rewrite !filter_cons.
  destruct (f x); cbn; rewrite IH at 1; solve_Permutation.
Qed.

(** Membership in lists, by cases, up to a permutation. *)
Ltac mem := rewrite ?elem_of_app, ?elem_of_cons, ?elem_of_nil in *.

Lemma len_perm {A} (l k : list A) : l ≡ₚ k -> len l = len k.
Proof. unfold len. by intros ->. Qed.

(** ** Lemmas: the steps keep the invariant *)

Lemma inv_set_signal b s : inv s -> inv (with_pool (set_signal b (pool s)) s).
Proof. intros []. by constructor. Qed.

(** Moving counted sessions between places, none of them into use. *)
Lemma inv_shuffle s ch hd st :
  inv s -> idle (pool s) ++ ch ++ hd ++ st ≡ₚ counted s ->
  (forall x, x ∈ ch ++ hd -> x ∈ checking s ++ held s) ->
  inv (mkSystem (pool s) (creating s) ch hd st).
Proof.
  intros [Hnd Hact Hma Hmi Hcl Hid Hus Hlv Hrm Hfr] Hp Hin.
  constructor; cbn; try done.
  - unfold counted at 1. cbn. by rewrite Hp.
  - unfold counted at 1. cbn. by rewrite Hact, (len_perm _ _ Hp).
  - intros x Hx. by apply Hus, Hin.
  - intros x Hx. apply Hlv. rewrite elem_of_app in *. destruct Hx as [|Hx]; [by left|right; by apply Hin].
  - intros x Hx. unfold counted. cbn. rewrite Hp. by apply Hrm.
  - intros x. unfold counted. cbn. rewrite Hp. apply Hfr.
Qed.

(** Closing the connection of a session nobody can get any more. *)
Lemma inv_close_one pid s :
  inv s -> pid ∉ idle (pool s) ++ checking s ++ held s -> (pid < next_pid (pool s))%nat ->
  inv (with_pool (closeSession pid (pool s)) s).
Proof.
  intros [Hnd Hact Hma Hmi Hcl Hid Hus Hlv Hrm Hfr] Hs Hlt.
  destruct (closeSession_torn pid (pool s)) as (l & Hl & Hin).
  constructor; try done; unfold torn in *; cbn [pool with_pool]; rewrite Hl.
  - intros x Hx. destruct (Hlv x Hx) as [? ?]. split; [done|].
    rewrite elem_of_app. by intros [?| ->%Hin].
  - intros x. rewrite elem_of_app. intros [?|[[?| ->%Hin]|?]]; [..|done|]; apply Hfr; tauto.
Qed.

Lemma inv_close_all l s :
  inv s -> (forall x, x ∈ l -> x ∉ idle (pool s) ++ checking s ++ held s /\ (x < next_pid (pool s))%nat) ->
  inv (with_pool (foldl (fun p pid => closeSession pid p) (pool s) l) s).
Proof.
  revert s. induction l as [|x l IH]; intros s Hi Hl; [by destruct s|]. cbn [foldl].
  apply (IH (with_pool (closeSession x (pool s)) s)).
  - apply inv_close_one; [done|apply Hl; by left..].
  - intros y Hy. apply (Hl y). by right.
Qed.

Definition with_heap (h : nat -> pooledSession) (p : ConnectionPool) : ConnectionPool :=
  mkPool (config p) (idle p) (active p) (closed p) (waitChan p) h (next_pid p) (teardowns p).

(** The invariant sees the flags of the sessions only. *)
Lemma inv_flags h s :
  inv s ->
  (forall x, inUse (h x) = inUse (sessions (pool s) x) /\ realClosed (h x) = realClosed (sessions (pool s) x)) ->
  inv (with_pool (with_heap h (pool s)) s).
Proof.
  intros [Hnd Hact Hma Hmi Hcl Hid Hus Hlv Hrm Hfr] Hh.
  constructor; try done; cbn; intros x; rewrite ?(proj1 (Hh x)), ?(proj2 (Hh x)); auto.
Qed.

(** A session in use that leaves the pool, its flags changed. *)
Lemma inv_drop pid rest h s :
  inv s -> held s ≡ₚ pid :: rest ->
  (forall x, x <> pid -> h x = sessions (pool s) x) -> inUse (h pid) = false ->
  inv (mkSystem (with_heap h (set_active (active (pool s) - 1) (pool s)))
         (creating s) (checking s) rest (stale s)).
Proof.
  intros [Hnd Hact Hma Hmi Hcl Hid Hus Hlv Hrm Hfr] Hh Hsame Hf.
  assert (counted s ≡ₚ pid :: (idle (pool s) ++ checking s ++ rest ++ stale s)) as Hp.
  { unfold counted. rewrite Hh. solve_Permutation. }
  rewrite Hp in Hnd. apply NoDup_cons in Hnd as [Hn Hnd].
  assert (forall x, x ∈ idle (pool s) ++ checking s ++ rest -> x <> pid) as Hne
    by (intros x Hx ->; apply Hn; set_solver).
  constructor; cbn; try done.
  - rewrite Hact, (len_perm _ _ Hp), len_cons. unfold counted. cbn. lia.
  - lia.
  - intros x Hx. rewrite Hsame; [by apply Hid|]. apply Hne. set_solver.
  - intros x Hx. rewrite Hsame by (apply Hne; set_solver). apply Hus. rewrite Hh. set_solver.
  - intros x Hx. rewrite Hsame by (by apply Hne). apply Hlv. rewrite Hh. set_solver.
  - intros x Hx. unfold counted. cbn. destruct (decide (x = pid)) as [->|]; [done|].
    rewrite Hsame in * by done. destruct (Hrm x Hx) as [? Hc]. split; [done|].
    rewrite Hp in Hc. set_solver.
  - intros x Hx. apply Hfr. rewrite Hp. unfold counted, torn in *. cbn in *.
    destruct (decide (x = pid)) as [->|]; [left; by left|].
    rewrite Hsame in Hx by done. set_solver.
Qed.

(** A session popped for a caller. *)
Lemma inv_popped now pid s :
  inv s -> last (idle (pool s)) = Some pid ->
  inv (decided (Popped pid)
         (with_session pid (used now true)
            (set_idle (take (length (idle (pool s)) - 1) (idle (pool s))) (active (pool s)) (pool s))) s).
Proof.
  intros [Hnd Hact Hma Hmi Hcl Hid Hus Hlv Hrm Hfr] Hl. apply last_split in Hl.
  set (l := take _ _) in *.
  assert (counted s ≡ₚ pid :: (l ++ checking s ++ held s ++ stale s)) as Hp.
  { unfold counted. rewrite Hl. solve_Permutation. }
  assert (Hp' : counted s ≡ₚ l ++ (pid :: checking s) ++ held s ++ stale s).
  { rewrite Hp. solve_Permutation. }
  assert (Hn := Hnd). rewrite Hp in Hn. apply NoDup_cons in Hn as [Hn _].
  assert (pid ∈ counted s) as Hin by (rewrite Hp; by left).
  constructor; cbn; try (unfold counted at 1; cbn).
  - by rewrite <- Hp'.
  - by rewrite Hact, (len_perm _ _ Hp').
  - done.
  - rewrite Hl, len_app in Hmi. pose proof (len_nonneg [pid]). lia.
  - intros E. rewrite (Hcl E) in Hl. by destruct l.
  - intros x Hx. rewrite fn_lookup_alter_ne; [apply Hid; rewrite Hl; set_solver|set_solver].
  - intros x Hx. destruct (decide (x = pid)) as [->|]; [by rewrite fn_lookup_alter|].
    rewrite fn_lookup_alter_ne by done. apply Hus. set_solver.
  - intros x Hx. destruct (Hlv x) as [? ?]; [rewrite Hl; set_solver|]. split; [|done].
    destruct (decide (x = pid)) as [->|];
      [by rewrite fn_lookup_alter|by rewrite fn_lookup_alter_ne].
  - intros x Hx. unfold counted. cbn. rewrite <- Hp'.
    destruct (decide (x = pid)) as [->|].
    + rewrite fn_lookup_alter in Hx. by destruct (Hrm pid Hx) as [_ []].
    + rewrite fn_lookup_alter_ne in * by done. by apply Hrm.
  - intros x. unfold torn. cbn. rewrite <- Hp'. intros Hx. apply Hfr.
    destruct (decide (x = pid)) as [->|]; [by left|]. by rewrite fn_lookup_alter_ne in Hx.
Qed.

(** A session put back. *)
Lemma inv_put_idle now pid rest s :
  inv s -> held s ≡ₚ pid :: rest -> closed (pool s) = false ->
  len (idle (pool s)) < MaxIdle (config (pool s)) ->
  inv (mkSystem (set_idle (idle (pool s) ++ [pid]) (active (pool s))
                   (with_session pid (used now false) (pool s)))
         (creating s) (checking s) rest (stale s)).
Proof.
  intros [Hnd Hact Hma Hmi Hcl Hid Hus Hlv Hrm Hfr] Hh Hopen Hroom.
  assert (counted s ≡ₚ pid :: (idle (pool s) ++ checking s ++ rest ++ stale s)) as Hp.
  { unfold counted. rewrite Hh. solve_Permutation. }
  assert (Hp' : counted s ≡ₚ (idle (pool s) ++ [pid]) ++ checking s ++ rest ++ stale s).
  { rewrite Hp. solve_Permutation. }
  assert (Hn := Hnd). rewrite Hp in Hn. apply NoDup_cons in Hn as [Hn _].
  assert (pid ∈ counted s) as Hin by (rewrite Hp; by left).
  constructor; cbn; try (unfold counted at 1; cbn).
  - by rewrite <- Hp'.
  - by rewrite Hact, (len_perm _ _ Hp').
  - done.
  - rewrite len_app, len_cons, len_nil. lia.
  - congruence.
  - intros x Hx. destruct (decide (x = pid)) as [->|]; [by rewrite fn_lookup_alter|].
    rewrite fn_lookup_alter_ne by done. apply Hid. set_solver.
  - intros x Hx. rewrite fn_lookup_alter_ne; [|set_solver]. apply Hus. rewrite Hh. set_solver.
  - intros x Hx. destruct (Hlv x) as [? ?]; [rewrite Hh; set_solver|]. split; [|done].
    destruct (decide (x = pid)) as [->|];
      [by rewrite fn_lookup_alter|by rewrite fn_lookup_alter_ne].
  - intros x Hx. unfold counted. cbn. rewrite <- Hp'.
    destruct (decide (x = pid)) as [->|].
    + rewrite fn_lookup_alter in Hx. by destruct (Hrm pid Hx) as [_ []].
    + rewrite fn_lookup_alter_ne in * by done. by apply Hrm.
  - intros x. unfold torn. cbn. rewrite <- Hp'. intros Hx. apply Hfr.
    destruct (decide (x = pid)) as [->|]; [by left|]. by rewrite fn_lookup_alter_ne in Hx.
Qed.

(** Idle sessions that leave the pool. *)
Lemma inv_forget l out s :
  inv s -> idle (pool s) ≡ₚ l ++ out ->
  inv (with_pool (set_idle l (active (pool s) - len out) (pool s)) s).
Proof.
  intros [Hnd Hact Hma Hmi Hcl Hid Hus Hlv Hrm Hfr] Hl.
  assert (counted s ≡ₚ out ++ l ++ checking s ++ held s ++ stale s) as Hp.
  { unfold counted. rewrite Hl. solve_Permutation. }
  assert (Hn := Hnd). rewrite Hp in Hn. apply NoDup_app in Hn as (_ & _ & Hn).
  pose proof (len_nonneg out).
  constructor; cbn; try (unfold counted at 1; cbn).
  - done.
  - rewrite Hact, (len_perm _ _ Hp), !len_app. lia.
  - lia.
  - rewrite (len_perm _ _ Hl), len_app in Hmi. lia.
  - intros E. rewrite (Hcl E) in Hl. apply Permutation_nil_l in Hl. symmetry in Hl.
    by apply app_eq_nil in Hl as [? _].
  - intros x Hx. apply Hid. rewrite Hl. set_solver.
  - done.
  - intros x Hx. apply Hlv. rewrite Hl. set_solver.
  - intros x Hx. destruct (Hrm x Hx) as [? Hc]. split; [done|]. rewrite Hp in Hc.
    unfold counted. cbn. set_solver.
  - intros x Hx. apply Hfr. rewrite Hp. set_solver.
Qed.

Lemma inv_created n ps s :
  inv s -> creating s = S n -> inUse ps = true -> realClosed ps = false ->
  inv (mkSystem (created ps (pool s)).2 n (checking s) ((created ps (pool s)).1 :: held s) (stale s)).
Proof.
  intros [Hnd Hact Hma Hmi Hcl Hid Hus Hlv Hrm Hfr] Hc Hu Hr. cbn.
  set (pid := next_pid (pool s)).
  assert (forall x, x ∈ counted s \/ x ∈ torn s \/ realClosed (sessions (pool s) x) = true -> x <> pid) as Hne
    by (intros x Hx%Hfr; subst pid; lia).
  assert (idle (pool s) ++ checking s ++ pid :: held s ++ stale s ≡ₚ pid :: counted s) as Hp.
  { unfold counted. solve_Permutation. }
  constructor; cbn; try (unfold counted at 1; cbn); fold pid.
  - rewrite Hp. constructor; [|done]. intros Hin. by eapply Hne; [left|].
  - rewrite Hact, Hc, (len_perm _ _ Hp), len_cons. lia.
  - done.
  - done.
  - done.
  - intros x Hx. rewrite fn_lookup_insert_ne; [by apply Hid|].
    intros <-. eapply Hne; [left|done]. unfold counted. set_solver.
  - intros x Hx. destruct (decide (x = pid)) as [->|]; [by rewrite fn_lookup_insert|].
    rewrite fn_lookup_insert_ne by done. apply Hus. set_solver.
  - intros x Hx. destruct (decide (x = pid)) as [->|].
    + rewrite fn_lookup_insert. split; [done|]. intros Ht. by eapply Hne; [right; left|].
    + rewrite fn_lookup_insert_ne by done. apply Hlv. set_solver.
  - intros x Hx. unfold counted. cbn. rewrite Hp.
    destruct (decide (x = pid)) as [->|]; [by rewrite fn_lookup_insert, Hr in Hx|].
    rewrite fn_lookup_insert_ne in * by done. destruct (Hrm x Hx). split; [done|]. set_solver.
  - intros x Hx. rewrite Hp in Hx. destruct (decide (x = pid)) as [->|]; [lia|].
    rewrite fn_lookup_insert_ne in Hx by done. cut (x < next_pid (pool s))%nat; [lia|].
    apply Hfr. unfold torn in *. cbn in Hx. set_solver.
Qed.

Lemma inv_creating s :
  inv s -> MaxActive (config (pool s)) = 0 \/ active (pool s) < MaxActive (config (pool s)) ->
  inv (mkSystem (set_active (active (pool s) + 1) (pool s)) (S (creating s)) (checking s) (held s) (stale s)).
Proof.
  intros [Hnd Hact Hma Hmi Hcl Hid Hus Hlv Hrm Hfr] Hroom.
  constructor; try done; unfold counted in *; cbn -[Z.of_nat] in *; lia.
Qed.

Lemma inv_create_failed n s :
  inv s -> creating s = S n ->
  inv (mkSystem (create_failed (pool s)) n (checking s) (held s) (stale s)).
Proof.
  intros [Hnd Hact Hma Hmi Hcl Hid Hus Hlv Hrm Hfr] Hn.
  constructor; try done; unfold counted in *; cbn -[Z.of_nat] in *; lia.
Qed.

Lemma inv_Get now deadline d p s :
  inv s -> Get_locked now deadline (pool s) = (d, p) -> inv (decided d p s).
Proof.
  intros Hi H. apply (inv_set_signal false) in Hi.
  unfold Get_locked in H. set (s0 := with_pool _ s) in Hi.
  assert (decided d p s = decided d p s0) as -> by (by destruct d).
  change (set_signal false (pool s)) with (pool s0) in H. clearbody s0. clear s. rename s0 into s.
  assert (inv (with_pool (pool s) s)) as Hsame by (by destruct s).
  destruct (closed (pool s)); [by injection H as <- <-|].
  destruct (last (idle (pool s))) as [pid|] eqn:El.
  { injection H as <- <-. by apply inv_popped. }
  destruct ((MaxActive _ =? 0) || _) eqn:Er.
  { injection H as <- <-. apply inv_creating; [done|]. lia. }
  destruct (WaitTimeout _ =? 0); [by injection H as <- <-|].
  destruct deadline as [t|]; [destruct (t - now <=? 0)|]; by injection H as <- <-.
Qed.

Lemma held_out_of_place pid rest s :
  inv s -> held s ≡ₚ pid :: rest ->
  pid ∉ idle (pool s) ++ checking s ++ rest /\ (pid < next_pid (pool s))%nat.
Proof.
  intros Hi Hh. assert (counted s ≡ₚ pid :: (idle (pool s) ++ checking s ++ rest) ++ stale s) as Hp.
  { unfold counted. rewrite Hh. solve_Permutation. }
  pose proof (inv_nodup s Hi) as Hnd. rewrite Hp in Hnd. apply NoDup_cons in Hnd as [Hn _].
  split; [set_solver|]. apply (inv_fresh s Hi). left. rewrite Hp. by left.
Qed.

Lemma inv_put now pid rest s :
  inv s -> held s ≡ₚ pid :: rest ->
  inv (mkSystem (put now pid (pool s)) (creating s) (checking s) rest
         (if closed (pool s) then pid :: stale s else stale s)).
Proof.
  intros Hi Hh. destruct (held_out_of_place _ _ _ Hi Hh) as [Hout Hlt].
  assert (realClosed (sessions (pool s) pid) = false) as Hlive.
  { apply (inv_live s Hi). rewrite Hh. set_solver. }
  unfold put, session_of. rewrite Hlive. cbn [orb].
  destruct (closed (pool s)) eqn:Ec.
  { apply inv_shuffle; [done| |].
    - unfold counted. rewrite Hh. solve_Permutation.
    - intros x. rewrite Hh. set_solver. }
  change (config (with_session pid (used now false) (pool s))) with (config (pool s)).
  change (idle (with_session pid (used now false) (pool s))) with (idle (pool s)).
  destruct ((_ =? 0) || _) eqn:Er.
  - apply (inv_close_one pid (mkSystem _ (creating s) (checking s) rest (stale s))); [|done..].
    apply (inv_drop pid rest (alter (used now false) pid (sessions (pool s))) s); [done|done|..].
    + intros x Hx. by rewrite fn_lookup_alter_ne.
    + by rewrite fn_lookup_alter.
  - apply (inv_set_signal true (mkSystem _ (creating s) (checking s) rest (stale s))).
    apply inv_put_idle; [done..|lia].
Qed.

Lemma inv_ReallyClose pid rest s :
  inv s -> held s ≡ₚ pid :: rest ->
  inv (mkSystem (remove pid (pool s)) (creating s) (checking s) rest (stale s)).
Proof.
  intros Hi Hh. destruct (held_out_of_place _ _ _ Hi Hh) as [Hout Hlt].
  assert (inUse (sessions (pool s) pid) = true) as Hu.
  { apply (inv_used s Hi). rewrite Hh. set_solver. }
  unfold remove, session_of. cbn [sessions with_session]. rewrite fn_lookup_alter. cbn [inUse really_closed].
  rewrite Hu. apply (inv_close_one pid (mkSystem _ (creating s) (checking s) rest (stale s))); [|done..].
  apply (inv_drop pid rest (alter not_in_use pid (alter really_closed pid (sessions (pool s)))) s);
    [done|done|..].
  - intros x Hx. by rewrite !fn_lookup_alter_ne.
  - by rewrite fn_lookup_alter.
Qed.

Lemma inv_again pid s :
  inv s -> realClosed (sessions (pool s) pid) = true -> inv (with_pool (remove pid (pool s)) s).
Proof.
  intros Hi Hr. destruct (inv_removed s Hi pid Hr) as [Hu Hc].
  unfold remove, session_of. cbn [sessions with_session]. rewrite fn_lookup_alter.
  cbn [inUse really_closed idle]. rewrite Hu.
  rewrite remove_first_None by (unfold counted in Hc; set_solver).
  apply (inv_close_one pid (with_pool (with_session pid really_closed (pool s)) s)).
  - apply (inv_flags (alter really_closed pid (sessions (pool s))) s Hi).
    intros x. destruct (decide (x = pid)) as [->|].
    + rewrite fn_lookup_alter. by rewrite Hr.
    + by rewrite fn_lookup_alter_ne.
  - unfold counted in Hc. cbn. set_solver.
  - apply (inv_fresh s Hi). by right; right.
Qed.

Lemma inv_expire now s : inv s -> inv (with_pool (cleanupExpired now (pool s)) s).
Proof.
  intros Hi. unfold cleanupExpired. pose proof (filter_split (expired now (pool s)) (idle (pool s))) as Hs.
  set (l := filter (fun pid => Is_true (negb (expired now (pool s) pid))) (idle (pool s))) in *.
  set (out := filter (fun pid => Is_true (expired now (pool s) pid)) (idle (pool s))) in *.
  apply (inv_close_all out (with_pool (set_idle l (active (pool s) - len out) (pool s)) s)); [by apply inv_forget|].
  intros x Hx. cbn. pose proof (inv_nodup s Hi) as Hnd. unfold counted in Hnd.
  split; [|apply (inv_fresh s Hi); left; unfold counted; rewrite Hs; set_solver].
  assert (idle (pool s) ++ checking s ++ held s ++ stale s
          ≡ₚ out ++ (l ++ checking s ++ held s) ++ stale s) as Hp by (rewrite Hs at 1; solve_Permutation).
  rewrite Hp in Hnd. apply NoDup_app in Hnd as (_ & Hnd & _). specialize (Hnd x Hx). set_solver.
Qed.

Lemma inv_set_closed s :
  inv s -> idle (pool s) = [] -> inv (with_pool (set_closed (pool s)) s).
Proof. intros [] E. by constructor. Qed.

(** The idle sessions of a pool that is closed. *)
Lemma inv_retire s :
  inv s ->
  inv (mkSystem (set_idle [] (active (pool s)) (pool s)) (creating s) (checking s) (held s)
         (idle (pool s) ++ stale s)).
Proof.
  intros [Hnd Hact Hma Hmi Hcl Hid Hus Hlv Hrm Hfr].
  assert (checking s ++ held s ++ idle (pool s) ++ stale s ≡ₚ counted s) as Hp
    by (unfold counted; solve_Permutation).
  constructor; cbn; try (unfold counted at 1; cbn); try done.
  - by rewrite Hp.
  - by rewrite Hact, (len_perm _ _ Hp).
  - unfold len. cbn. lia.
  - by intros x ?%elem_of_nil.
  - intros x Hx. apply Hlv. set_solver.
  - intros x Hx. unfold counted. cbn. rewrite Hp. by apply Hrm.
  - intros x. rewrite Hp. apply Hfr.
Qed.

Lemma inv_pool_Close s :
  inv s -> inv (mkSystem (Close (pool s)) (creating s) (checking s) (held s) (idle (pool s) ++ stale s)).
Proof.
  intros Hi. unfold Close. destruct (closed (pool s)) eqn:Ec.
  { rewrite (inv_closed s Hi Ec). by destruct s. }
  pose proof (inv_set_closed _ (inv_retire s Hi) eq_refl) as Hr.
  apply (inv_close_all (idle (pool s)) _ Hr).
  intros x Hx. split; [|apply (inv_fresh _ Hi); left; unfold counted; set_solver].
  pose proof (inv_nodup s Hi) as Hnd. unfold counted in Hnd.
  apply NoDup_app in Hnd as (_ & Hnd & _). specialize (Hnd x Hx). cbn. set_solver.
Qed.

Lemma inv_pass s s' : inv s -> pass s s' -> inv s'.
Proof. intros Hi [now dl d p H|]; [by eapply inv_Get|by apply inv_set_signal]. Qed.

Lemma inv_act s s' : inv s -> act s s' -> inv s'.
Proof.
  intros Hi [pid rest h Hc Ha|pid rest h Hc Ha|n ps Hc Hu Hr|n Hc|pid rest now Hh|
             pid rest Hh|pid now Hr|pid Hr|now|].
  - apply inv_shuffle; [done| |].
    + unfold counted. rewrite Hc. solve_Permutation.
    + intros x. rewrite Hc. set_solver.
  - assert (inv (mkSystem (pool s) (creating s) rest (held s) (pid :: stale s))) as Hs.
    { apply inv_shuffle; [done| |].
      - unfold counted. rewrite Hc. solve_Permutation.
      - intros x. rewrite Hc. set_solver. }
    apply (inv_close_one pid _ Hs); [|apply (inv_fresh _ Hs); left; unfold counted; set_solver].
    pose proof (inv_nodup _ Hs) as Hnd. unfold counted in Hnd. cbn in *.
    assert (idle (pool s) ++ rest ++ held s ++ pid :: stale s
            ≡ₚ pid :: (idle (pool s) ++ rest ++ held s) ++ stale s) as Hp by solve_Permutation.
    rewrite Hp in Hnd. apply NoDup_cons in Hnd as [Hn _]. set_solver.
  - by apply inv_created.
  - by apply inv_create_failed.
  - by apply inv_put.
  - by apply inv_ReallyClose.
  - cbn [PooledSession_Close]. unfold put. rewrite Hr. by destruct s.
  - by apply inv_again.
  - by apply inv_expire.
  - by apply inv_pool_Close.
Qed.

Lemma inv_start c : inv (start c).
Proof.
  constructor; cbn; try done; try (intros pid; rewrite ?elem_of_nil; naive_solver).
  - constructor.
  - unfold normal_config. cbn. repeat case_match; lia.
  - unfold len. cbn. lia.
Qed.

Lemma inv_reachable c s : orderly_reachable c s -> inv s.
Proof.
  unfold orderly_reachable. intros H. pose proof (inv_start c) as Hi.
  induction H as [|s1 s2 s3 [H12|H12] _ IH]; [done|..]; apply IH;
    [by eapply inv_pass|by eapply inv_act].
Qed.

(** The operations leave the configuration, and the room for idle sessions,
    whoever calls them. *)
Lemma close_all_same l p :
  config (foldl (fun p pid => closeSession pid p) p l) = config p /\
  idle (foldl (fun p pid => closeSession pid p) p l) = idle p /\
  closed (foldl (fun p pid => closeSession pid p) p l) = closed p /\
  waitChan (foldl (fun p pid => closeSession pid p) p l) = waitChan p.
Proof. revert p. induction l as [|x l IH]; intros p; [done|]. cbn [foldl]. by destruct (IH (closeSession x p)) as (->&->&->&->). Qed.

(** A pool that keeps no more idle sessions than it may, and none once closed. *)
Definition roomy (p : ConnectionPool) : Prop :=
  len (idle p) <= Z.max 0 (MaxIdle (config p)).

Lemma put_roomy now pid p : roomy p -> roomy (put now pid p) /\ config (put now pid p) = config p.
Proof.
  unfold roomy, put. intros H. destruct (_ || _); [done|].
  change (config (with_session pid (used now false) p)) with (config p).
  change (idle (with_session pid (used now false) p)) with (idle p).
  destruct (_ || _) eqn:E; [done|]. cbn. rewrite len_app, len_cons, len_nil. split; [lia|done].
Qed.

Lemma remove_roomy pid p : roomy p -> roomy (remove pid p) /\ config (remove pid p) = config p.
Proof.
  unfold roomy, remove. intros H. destruct (inUse _); [done|].
  destruct (remove_first _ _) as [l|] eqn:E; [|done]. cbn in *.
  apply remove_first_Some, len_perm in E. rewrite len_cons in E. split; [lia|done].
Qed.

Lemma Get_locked_roomy now dl p : roomy p -> roomy (Get_locked now dl p).2 /\
  config (Get_locked now dl p).2 = config p.
Proof.
  unfold roomy, Get_locked. intros H. cbn. destruct (closed p); [done|].
  destruct (last (idle p)) as [pid|] eqn:El; [|by repeat case_match].
  apply last_split in El. rewrite El, len_app in H. pose proof (len_nonneg [pid]). cbn. split; [lia|done].
Qed.

Lemma pass_roomy s s' : pass s s' -> roomy (pool s) ->
  roomy (pool s') /\ config (pool s') = config (pool s).
Proof.
  intros [now dl d p E|] H; [|done].
  pose proof (Get_locked_roomy now dl _ H) as Hg. rewrite E in Hg. by destruct d.
Qed.

Lemma act_roomy s s' : act s s' -> roomy (pool s) ->
  roomy (pool s') /\ config (pool s') = config (pool s).
Proof.
  intros [| | | |pid rest now ?|pid rest ?|pid now ?|pid ?|now|] Hr;
    cbn [pool with_pool PooledSession_Close ReallyClose];
    auto using put_roomy, remove_roomy.
  - unfold roomy, cleanupExpired. destruct (close_all_same (filter (fun pid => Is_true (expired now (pool s) pid)) (idle (pool s)))
      (set_idle (filter (fun pid => Is_true (negb (expired now (pool s) pid))) (idle (pool s)))
        (active (pool s) - len (filter (fun pid => Is_true (expired now (pool s) pid)) (idle (pool s)))) (pool s)))
      as (->&->&_). cbn. split; [|done]. pose proof (len_perm _ _ (filter_split (expired now (pool s)) (idle (pool s)))) as E.
    rewrite len_app in E. pose proof (len_nonneg (filter (fun pid => Is_true (expired now (pool s) pid)) (idle (pool s)))).
    unfold roomy in Hr. lia.
  - unfold roomy, Close. destruct (closed _); [done|].
    destruct (close_all_same (idle (pool s)) (set_idle [] (active (pool s)) (set_closed (pool s)))) as (->&->&_).
    cbn. split; [unfold len; cbn; lia|done].
Qed.

Lemma step_roomy s s' : step s s' -> roomy (pool s) ->
  roomy (pool s') /\ config (pool s') = config (pool s).
Proof.
  intros [?|?|[]] Hr; [by eapply pass_roomy|by eapply act_roomy|..];
    cbn [pool with_pool PooledSession_Close ReallyClose]; auto using put_roomy, remove_roomy.
Qed.

Lemma orderly_step s s' : orderly s s' -> step s s'.
Proof. intros []; [by apply step_pass|by apply step_act]. Qed.

Lemma reachable_roomy c s : reachable c s -> roomy (pool s).
Proof.
  unfold reachable. intros H. pose proof (inv_max_idle _ (inv_start c)) as Hr.
  change (roomy (pool (start c))) in Hr.
  induction H as [|s1 s2 s3 H12 _ IH]; [done|]. apply IH. by eapply step_roomy.
Qed.

Lemma reachable_config c s : reachable c s -> config (pool s) = config (NewConnectionPool c).
Proof.
  unfold reachable. intros H. pose proof (inv_max_idle _ (inv_start c)) as Hr.
  change (roomy (pool (start c))) in Hr.
  change (config (NewConnectionPool c)) with (config (pool (start c))).
  induction H as [|s1 s2 s3 H12 _ IH]; [done|].
  apply step_roomy in H12 as [Hg <-]; [|done]. by apply IH.
Qed.

Lemma orderly_is_reachable c s : orderly_reachable c s -> reachable c s.
Proof.
  unfold orderly_reachable, reachable. induction 1 as [|s1 s2 s3 H12 _ IH]; [done|].
  eapply rtc_l; [by apply orderly_step|done].
Qed.

Lemma config_nonneg c s : orderly_reachable c s -> 0 <= MaxActive (config (pool s)).
Proof.
  intros H%orderly_is_reachable%reachable_config. rewrite H. unfold NewConnectionPool, normal_config.
  cbn. repeat case_match; lia.
Qed.

(** ** Lemmas: [Get] *)

(** A pool after its last idle session has been popped and found dead. *)
Definition drop_dead (now : Z) (p : ConnectionPool) (pid : nat) : ConnectionPool :=
  closeSession pid
    (with_session pid (used now true)
       (set_idle (take (length (idle p) - 1) (idle p)) (active p) (set_signal false p))).

Lemma isAlive_used h now b pid x p :
  isAlive h x (with_session pid (used now b) p) = isAlive h x p.
Proof.
  unfold isAlive, session_of. cbn [sessions with_session config].
  destruct (decide (x = pid)) as [->|]; [by rewrite fn_lookup_alter|by rewrite fn_lookup_alter_ne].
Qed.

(** Only these are looked at by [isAlive]. *)
Lemma isAlive_drop_dead h now pid x p : isAlive h x (drop_dead now p pid) = isAlive h x p.
Proof.
  apply (isAlive_used h now true pid x (set_idle (take (length (idle p) - 1) (idle p)) (active p) p)).
Qed.

Lemma Get_locked_pop now deadline p l pid :
  closed p = false -> idle p = l ++ [pid] ->
  Get_locked now deadline p
  = (Popped pid, with_session pid (used now true) (set_idle l (active p) (set_signal false p))).
Proof.
  intros Hc Hi. unfold Get_locked. change (closed (set_signal false p)) with (closed p). rewrite Hc.
  change (idle (set_signal false p)) with (idle p). rewrite Hi, last_snoc.
  by rewrite length_app, Nat.add_sub, take_app_length.
Qed.

(** The loop drops the dead sessions at the end of the list, one per pass. *)
Lemma Get_loop_dead fuel health create waits now deadline p l dead :
  closed p = false -> idle p = l ++ dead ->
  Forall (fun pid => isAlive (health pid) pid p = false) dead ->
  Get_loop (length dead + fuel) health create waits now deadline p
  = Get_loop fuel health create waits now deadline (foldl (drop_dead now) p (reverse dead)).
Proof.
  revert p. induction dead as [|pid dead IH] using rev_ind; intros p Hc Hi Hd; [done|].
  replace (length (dead ++ [pid]) + fuel)%nat with (S (length dead + fuel))
    by (rewrite length_app; cbn [length]; lia).
  rewrite reverse_snoc. cbn [foldl]. rewrite app_assoc in Hi. apply Forall_app in Hd as [Hd Hp]. rewrite Forall_singleton in Hp.
  cbn [Get_loop]. rewrite (Get_locked_pop _ _ _ (l ++ dead) pid) by done.
  rewrite isAlive_used. change (isAlive (health pid) pid (set_idle _ _ _)) with (isAlive (health pid) pid p).
  rewrite Hp. assert (drop_dead now p pid
          = closeSession pid (with_session pid (used now true)
              (set_idle (l ++ dead) (active p) (set_signal false p)))) as <-.
  { unfold drop_dead. by rewrite Hi, length_app, Nat.add_sub, take_app_length. }
  apply IH; [done| |].
  - cbn. by rewrite Hi, length_app, Nat.add_sub, take_app_length.
  - eapply Forall_impl; [exact Hd|]. intros x Hx. by rewrite isAlive_drop_dead.
Qed.

(** What dropping leaves. *)
Lemma drop_dead_all now dead p l :
  idle p = l ++ dead ->
  let p' := foldl (drop_dead now) p (reverse dead) in
  idle p' = l /\ active p' = active p /\ closed p' = closed p /\ config p' = config p /\
  next_pid p' = next_pid p /\
  (forall h x, isAlive h x p' = isAlive h x p) /\
  (Forall (fun pid => ps_session (sessions p pid) = true) dead ->
   teardowns p' = teardowns p ++ (Logoff_called <$> reverse dead)).
Proof.
  revert p. induction dead as [|pid dead IH] using rev_ind; intros p Hi.
  { cbn. rewrite app_nil_r in Hi. rewrite app_nil_r. done. }
  rewrite reverse_snoc. cbn [foldl].
  rewrite app_assoc in Hi. destruct (IH (drop_dead now p pid)) as (-> & -> & -> & -> & -> & Hal & Ht).
  { cbn. by rewrite Hi, length_app, Nat.add_sub, take_app_length. }
  split_and!; [done..| |].
  - intros h x. rewrite Hal. apply isAlive_drop_dead.
  - intros [Hd Hp]%Forall_app. rewrite Forall_singleton in Hp. rewrite Ht.
    + cbn [fmap list_fmap]. unfold drop_dead, closeSession at 1, session_of. cbn.
      rewrite fn_lookup_alter. cbn. by rewrite Hp, <- app_assoc.
    + eapply Forall_impl; [exact Hd|]. intros x Hx. cbn.
      destruct (decide (x = pid)) as [->|]; [by rewrite fn_lookup_alter|by rewrite fn_lookup_alter_ne].
Qed.

(** ** Properties *)

(** C30: When every caller closes each handle once ([Close] or [ReallyClose];
    closing again after [ReallyClose] is allowed), then however the goroutines
    interleave ([Get], health checks, creation, [Close], [ReallyClose],
    clean-up, closing the pool), a session is in the hands of at most one
    caller, is never idle and handed out at once, and the pool never closes the
    connection of a session that is idle or handed out.  (A handle closed a
    second time after [Close] breaks this: [closed_twice_shared].) *)
Theorem sessions_exclusive c s :
  orderly_reachable c s ->
  NoDup (idle (pool s) ++ checking s ++ held s) /\
  forall pid, pid ∈ idle (pool s) ++ checking s ++ held s -> pid ∉ torn_pid <$> teardowns (pool s).
Proof.
  intros Hi%inv_reachable. split; [|intros pid Hp; by apply (inv_live s Hi)].
  pose proof (inv_nodup s Hi) as Hnd. unfold counted in Hnd.
  rewrite (app_assoc (checking s)), (app_assoc (idle (pool s))) in Hnd.
  by apply NoDup_app in Hnd as (Hnd & _).
Qed.

(** C31: In every interleaving, whatever handles the callers close and however
    often, no more than [MaxIdle] sessions are idle; and when every caller
    closes each handle once, no more than [MaxActive] sessions, if that is
    positive, are being created, idle, being checked, handed out or still
    counted without being reachable.  (A second [Close] of a handle breaks the
    latter: [closed_twice_exceeds].) *)
Theorem pool_limits c s :
  reachable c s ->
  len (idle (pool s)) <= Z.max 0 (MaxIdle (config (pool s))) /\
  (orderly_reachable c s -> 0 < MaxActive (config (pool s)) ->
   Z.of_nat (creating s) + len (idle (pool s)) + len (checking s) + len (held s) + len (stale s)
   <= MaxActive (config (pool s))).
Proof.
  intros Hr. split; [by eapply reachable_roomy|]. intros Hi%inv_reachable Hm.
  pose proof (inv_max_active s Hi Hm) as Ha. rewrite (inv_active s Hi) in Ha.
  unfold counted in Ha. rewrite !len_app in Ha. lia.
Qed.

Lemma stale_grows s s' : orderly s s' -> len (stale s) <= len (stale s').
Proof.
  pose proof (len_nonneg (idle (pool s))).
  intros [[now dl d p E|]|[]]; cbn [stale with_pool]; rewrite ?len_cons, ?len_app; try lia.
  - destruct d; cbn; lia.
  - destruct (closed _); rewrite ?len_cons; lia.
Qed.

(** Sessions found dead are counted for ever: once [MaxActive] of them have
    been dropped, the pool has no session and will never create one again,
    whatever its goroutines do. *)
Theorem dead_sessions_fill_pool c s s' :
  orderly_reachable c s -> 0 < MaxActive (config (pool s)) -> MaxActive (config (pool s)) <= len (stale s) ->
  rtc orderly s s' ->
  creating s' = 0%nat /\ idle (pool s') = [] /\ checking s' = [] /\ held s' = [] /\
  forall now deadline, (Get_locked now deadline (pool s')).1 <> Creating.
Proof.
  intros Hr Hm Hs Hst.
  assert (inv s') as Hi by (eapply (inv_reachable c); unfold orderly_reachable; by etrans).
  assert (config (pool s') = config (pool s) /\ MaxActive (config (pool s)) <= len (stale s')) as [Ec Hs'].
  { apply inv_reachable, inv_max_idle in Hr. change (roomy (pool s)) in Hr. clear Hm Hi.
    induction Hst as [|s1 s2 s3 H12 _ IH]; [done|]. pose proof (stale_grows _ _ H12).
    apply orderly_step, step_roomy in H12 as [Hg Hc]; [|done]. rewrite Hc in IH. apply IH; [done|lia]. }
  rewrite <- Ec in Hm, Hs'. pose proof (inv_max_active s' Hi Hm) as Ha.
  pose proof (inv_active s' Hi) as Hact. unfold counted in Hact. rewrite !len_app in Hact.
  pose proof (len_nonneg (idle (pool s'))). pose proof (len_nonneg (checking s')).
  pose proof (len_nonneg (held s')).
  assert (idle (pool s') = []) as Ei by (apply len_0_nil; lia).
  repeat split; [lia|done|apply len_0_nil; lia|apply len_0_nil; lia|].
  intros now dl. unfold Get_locked. cbn. rewrite Ei. cbn.
  destruct (closed _); [done|].
  destruct (_ =? 0) eqn:E1; [lia|]. destruct (_ <? _) eqn:E2; [lia|]. cbn.
  repeat case_match; done.
Qed.

(** In isolation, [Get] hands out the most recently returned session that is
    alive; the dead ones above it are logged off, the others stay idle, and the
    pool counts as many active sessions as before. *)
Theorem Get_reuses fuel health create waits now p l pid dead :
  closed p = false -> idle p = l ++ [pid] ++ dead ->
  isAlive (health pid) pid p = true ->
  Forall (fun x => isAlive (health x) x p = false) dead ->
  Forall (fun x => ps_session (sessions p x) = true) dead -> (length dead < fuel)%nat ->
  exists p', Get fuel (Some None) health create waits now p = (Ok pid, p') /\
    idle p' = l /\ active p' = active p /\ inUse (sessions p' pid) = true /\
    teardowns p' = teardowns p ++ (Logoff_called <$> reverse dead).
Proof.
  intros Hc Hi Ha Hd Hs Hf. unfold Get. cbn.
  assert (fuel = (length dead + S (fuel - S (length dead)))%nat) as -> by lia.
  rewrite app_assoc in Hi. rewrite (Get_loop_dead _ _ _ _ _ _ _ (l ++ [pid])) by done.
  destruct (drop_dead_all now dead p (l ++ [pid]) Hi) as (Hi' & Ha' & Hc' & _ & _ & Hal & Ht).
  set (q := foldl _ _ _) in *. cbn [Get_loop]. rewrite Hc in Hc'.
  rewrite (Get_locked_pop _ _ q l pid) by done.
  rewrite isAlive_used. change (isAlive (health pid) pid (set_idle _ _ _)) with (isAlive (health pid) pid q).
  rewrite Hal, Ha. eexists. split; [reflexivity|]. cbn. rewrite fn_lookup_alter.
  split_and!; [done..|by apply Ht].
Qed.

(** With no live idle session, [Get] in isolation creates one as long as the
    pool counts fewer active sessions than [MaxActive] (dead ones included),
    and otherwise fails at once when it is not to wait; a failure to create one
    is reported and leaves the count as it was. *)
Theorem Get_without_idle fuel health create waits now p :
  closed p = false -> Forall (fun x => isAlive (health x) x p = false) (idle p) ->
  (length (idle p) < fuel)%nat -> WaitTimeout (config p) = 0 -> create <> Panic ->
  exists p', idle p' = [] /\
    Get fuel (Some None) health create waits now p =
    (if (MaxActive (config p) =? 0) || (active p <? MaxActive (config p))
     then match create with Ok _ => Ok (next_pid p) | Err e => Err e | Panic => Panic end
     else Err ErrPoolExhausted, p') /\
    active p' = match create with
                | Ok _ => active p + (if (MaxActive (config p) =? 0) || (active p <? MaxActive (config p))
                                      then 1 else 0)
                | _ => active p end.
Proof.
  intros Hc Hd Hf Hw Hcr. unfold Get. cbn. rewrite Hw. cbn.
  assert (fuel = (length (idle p) + S (fuel - S (length (idle p))))%nat) as -> by lia.
  rewrite (Get_loop_dead _ _ _ _ _ _ _ []) by done.
  destruct (drop_dead_all now (idle p) p [] eq_refl) as (Hi' & Ha' & Hc' & Hcf & Hn & _ & _).
  set (q := foldl _ _ _) in *. cbn [Get_loop]. unfold Get_locked. cbn.
  rewrite Hc', Hc, Hi'. cbn. rewrite Hcf, Ha', Hw. cbn.
  destruct (_ || _).
  - destruct create; [..|done]; cbn; rewrite <- ?Hn; eexists;
      (split; [|split; [reflexivity|]]); cbn; try done; lia.
  - eexists. split; [|split; [reflexivity|]]; cbn; [done|].
    destruct create; [lia|done..].
Qed.

(** Nobody is to be woken, or the signal is there. *)
Definition awake (p : ConnectionPool) : Prop := idle p = [] \/ waitChan p = true.

Lemma put_awake now pid p : awake p -> awake (put now pid p).
Proof. unfold awake, put. intros H. repeat case_match; cbn; auto. Qed.

Lemma remove_awake pid p : awake p -> awake (remove pid p).
Proof.
  unfold awake, remove. intros [E|E]; [left|right]; cbn; repeat case_match; cbn in *; try done.
  by rewrite E in *.
Qed.

Lemma act_awake s s' : act s s' -> awake (pool s) -> awake (pool s').
Proof.
  intros [| | | |pid rest now ?|pid rest ?|pid now ?|pid ?|now|] Hw;
    cbn [pool with_pool PooledSession_Close ReallyClose];
    auto using put_awake, remove_awake.
  - unfold awake, cleanupExpired in *. destruct (close_all_same (filter (fun pid => Is_true (expired now (pool s) pid)) (idle (pool s)))
      (set_idle (filter (fun pid => Is_true (negb (expired now (pool s) pid))) (idle (pool s)))
        (active (pool s) - len (filter (fun pid => Is_true (expired now (pool s) pid)) (idle (pool s)))) (pool s)))
      as (_&->&_&->). cbn. destruct Hw as [->|]; auto.
  - unfold awake, Close in *. destruct (closed _); [done|].
    destruct (close_all_same (idle (pool s)) (set_idle [] (active (pool s)) (set_closed (pool s)))) as (_&->&_&->).
    by left.
Qed.

Lemma Get_locked_idle now dl p x l :
  closed p = false -> idle p = l ++ [x] -> (Get_locked now dl p).1 = Popped x.
Proof. intros Hc Hi. by rewrite (Get_locked_pop _ _ _ l x). Qed.

(** When a pass of [Get] decides to wait. *)
Lemma Get_locked_waiting now dl p t q :
  Get_locked now dl p = (Waiting t, q) ->
  q = set_signal false p /\ closed p = false /\ idle p = [] /\
  MaxActive (config p) <> 0 /\ MaxActive (config p) <= active p.
Proof.
  unfold Get_locked. cbn. intros H. destruct (closed p) eqn:Ec; [done|].
  destruct (last (idle p)) eqn:El; [done|]. apply last_None in El.
  destruct (_ || _) eqn:Er; [done|]. destruct (WaitTimeout _ =? 0); [done|].
  assert (q = set_signal false p) as -> by (repeat case_match; by simplify_eq).
  split_and!; [done..|lia|lia].
Qed.

(** C33: When every caller closes each handle once, a [Get] that decides to wait
    does so only because [MaxActive] sessions are being created, checked, in the
    hands of callers, or counted without being reachable any more.  From then
    on, through every interleaving of what the other goroutines do (health
    checks, creation, [Close], [ReallyClose], clean-up, closing the pool), as
    long as no pass of another [Get] comes between and the waiter itself has not
    been woken: whenever a session is idle, the pool is open, the signal is
    there, and the pass the waiter makes once it has received it pops an idle
    session; and a caller that returns a session to the pool while it is open
    and has room for it makes this the case, with its session the one popped.
    (With a pass of another [Get] between the two it is not so: [lost_wakeup].) *)
Theorem waiter_is_woken c s0 now dl t p s :
  orderly_reachable c s0 -> Get_locked now dl (pool s0) = (Waiting t, p) ->
  rtc act (with_pool p s0) s ->
  Z.of_nat (creating s0) + len (checking s0) + len (held s0) + len (stale s0)
  = MaxActive (config (pool s0)) /\
  (idle (pool s) <> [] ->
   closed (pool s) = false /\ waitChan (pool s) = true /\
   exists pid, pid ∈ idle (pool s) /\
     forall now' dl', (Get_locked now' dl' (set_signal false (pool s))).1 = Popped pid) /\
  (forall pid rest now1, held s ≡ₚ pid :: rest -> closed (pool s) = false ->
   len (idle (pool s)) < MaxIdle (config (pool s)) ->
   waitChan (put now1 pid (pool s)) = true /\
   forall now' dl', (Get_locked now' dl' (set_signal false (put now1 pid (pool s)))).1 = Popped pid).
Proof.
  intros Hr H Hs. apply inv_reachable in Hr as Hi.
  assert (inv (with_pool p s0)) as Hi' by (apply (inv_Get _ _ _ _ _ Hi H)).
  apply Get_locked_waiting in H as (-> & Hc & Hidle & Hne & Hle).
  pose proof (inv_active s0 Hi) as Hact. unfold counted in Hact. rewrite Hidle, !len_app, len_nil in Hact.
  pose proof (inv_max_active s0 Hi) as Hmax.
  assert (0 < MaxActive (config (pool s0))) as Hpos.
  { pose proof (config_nonneg _ _ Hr). lia. }
  specialize (Hmax Hpos). split; [lia|].
  assert (awake (pool s) /\ inv s) as [Hw Hs'].
  { assert (awake (pool (with_pool (set_signal false (pool s0)) s0))) as Ha by (by left).
    clear Hr Hi Hc Hidle Hne Hle Hact Hmax Hpos.
    induction Hs as [|s1 s2 s3 H12 _ IH]; [done|].
    apply IH; [by eapply inv_act|by eapply act_awake]. }
  split.
  - intros Hne'. destruct Hw as [|Hw]; [done|].
    destruct (closed (pool s)) eqn:Ec; [by rewrite (inv_closed s Hs' Ec) in Hne'|].
    split_and!; [done..|]. destruct (idle (pool s)) as [|x l _] eqn:E using rev_ind; [done|].
    exists x. split; [set_solver|]. intros now' dl'. by apply (Get_locked_idle _ _ _ x l).
  - intros pid rest now1 Hh Ho Hroom.
    assert (realClosed (sessions (pool s) pid) = false) as Hlive
      by (apply (inv_live s Hs'); rewrite Hh; set_solver).
    pose proof (len_nonneg (idle (pool s))).
    unfold put, session_of. rewrite Hlive, Ho. cbn [orb].
    change (config (with_session _ _ _)) with (config (pool s)).
    change (idle (with_session _ _ _)) with (idle (pool s)).
    destruct ((_ =? 0) || _) eqn:E; [lia|]. split; [done|]. intros now' dl'.
    by apply (Get_locked_idle _ _ _ pid (idle (pool s))).
Qed.

(** ** Runs

    Events, each one step of a system, so that concrete runs can be executed. *)
Inductive event :=
  | EGet (now : Z) (deadline : option Z)
  | ECheck (health : res bool)   (* of the session popped last *)
  | ECreated
  | EClose (now : Z)             (* of the session handed out last *)
  | EReallyClose
  | EPoolClose
  | EWake                        (* of a waiting [Get], by the signal *)
  | EClose_again (now : Z) (pid : nat).

Definition exec (e : event) (s : System) : option System :=
  match e with
  | EGet now dl => let '(d, p) := Get_locked now dl (pool s) in Some (decided d p s)
  | ECheck health =>
    match checking s with
    | pid :: rest =>
      Some (if isAlive health pid (pool s)
            then mkSystem (pool s) (creating s) rest (pid :: held s) (stale s)
            else mkSystem (closeSession pid (pool s)) (creating s) rest (held s) (pid :: stale s))
    | [] => None
    end
  | ECreated =>
    match creating s with
    | S n => let '(pid, p) := created (mkPooled true true 0 true false) (pool s) in
             Some (mkSystem p n (checking s) (pid :: held s) (stale s))
    | O => None
    end
  | EClose now =>
    match held s with
    | pid :: rest =>
      Some (mkSystem (PooledSession_Close now (Some pid) (pool s)) (creating s) (checking s) rest
              (if closed (pool s) then pid :: stale s else stale s))
    | [] => None
    end
  | EReallyClose =>
    match held s with
    | pid :: rest =>
      Some (mkSystem (ReallyClose (Some pid) (pool s)) (creating s) (checking s) rest (stale s))
    | [] => None
    end
  | EPoolClose =>
    Some (mkSystem (Close (pool s)) (creating s) (checking s) (held s) (idle (pool s) ++ stale s))
  | EWake => if waitChan (pool s) then Some (with_pool (set_signal false (pool s)) s) else None
  | EClose_again now pid =>
    if bool_decide (pid < next_pid (pool s))%nat
    then Some (with_pool (PooledSession_Close now (Some pid) (pool s)) s) else None
  end.
Definition is_orderly (e : event) : bool := match e with EClose_again _ _ => false | _ => true end.

Fixpoint run (l : list event) (s : System) : option System :=
  match l with
  | [] => Some s
  | e :: l => match exec e s with Some s => run l s | None => None end
  end.

Lemma exec_orderly e s s' : is_orderly e = true -> exec e s = Some s' -> orderly s s'.
Proof.
  destruct e; cbn [exec is_orderly]; intros Ho H; [| | | | | | |done].
  - destruct (Get_locked _ _ _) eqn:E. injection H as <-. by eapply orderly_pass, pass_Get.
  - apply orderly_act. destruct (checking s) as [|pid rest] eqn:Ec; [done|]. injection H as <-.
    destruct (isAlive _ _ _) eqn:Ea; econstructor; by rewrite ?Ec.
  - apply orderly_act. destruct (creating s) eqn:Ec; [done|]. injection H as <-.
    by apply (act_created s n (mkPooled true true 0 true false)).
  - apply orderly_act. destruct (held s) as [|pid rest] eqn:Eh; [done|]. injection H as <-.
    apply act_Close. by rewrite Eh.
  - apply orderly_act. destruct (held s) as [|pid rest] eqn:Eh; [done|]. injection H as <-.
    apply act_ReallyClose. by rewrite Eh.
  - injection H as <-. apply orderly_act, act_pool_Close.
  - destruct (waitChan _); [|done]. injection H as <-. apply orderly_pass, pass_wake.
Qed.

Lemma exec_step e s s' : exec e s = Some s' -> step s s'.
Proof.
  destruct (is_orderly e) eqn:Eo; [eauto using exec_orderly, orderly_step|].
  destruct e; try done. cbn [exec]. case_bool_decide; [|done]. intros [= <-].
  by apply step_reclose, reclose_Close.
Qed.

Lemma run_reachable c l s : run l (start c) = Some s -> reachable c s.
Proof.
  unfold reachable. generalize (start c). induction l as [|e l IH]; intros s0; cbn [run].
  { by intros [= ->]. }
  destruct (exec e s0) as [s1|] eqn:E; [|done]. intros H.
  eapply rtc_l; [by eapply exec_step|by apply IH].
Qed.

Lemma run_orderly l s s' : forallb is_orderly l = true -> run l s = Some s' -> rtc orderly s s'.
Proof.
  revert s. induction l as [|e l IH]; intros s; cbn [run forallb].
  { by intros _ [= ->]. }
  intros [He Hl]%andb_true_iff. destruct (exec e s) as [s1|] eqn:E; [|done]. intros H.
  eapply rtc_l; [by eapply exec_orderly|by apply IH].
Qed.

(** The state after a run (that of the start when an event is not possible). *)
Definition after (c : option PoolConfig) (l : list event) : System :=
  default (start c) (run l (start c)).

Lemma after_reachable c l : reachable c (after c l).
Proof.
  unfold after. destruct (run l (start c)) as [s|] eqn:E; [by eapply run_reachable|apply rtc_refl].
Qed.

Lemma after_orderly c l : forallb is_orderly l = true -> orderly_reachable c (after c l).
Proof.
  intros Hl. unfold after, orderly_reachable. destruct (run l (start c)) as [s|] eqn:E; [by eapply run_orderly|apply rtc_refl].
Qed.

(** A pool of one session, checked before it is used again. *)
Definition small : option PoolConfig := Some (mkConfig 1 1 0 0 true).
Definition reused : list event := [EGet 0 None; ECreated; EClose 1; EGet 2 None; ECheck (Ok true)].

Lemma sessions_exclusive_witness :
  let s := after small reused in
  held s = [0%nat] /\ NoDup (idle (pool s) ++ checking s ++ held s) /\
  forall pid, pid ∈ idle (pool s) ++ checking s ++ held s -> pid ∉ torn_pid <$> teardowns (pool s).
Proof.
  intros s. split; [reflexivity|]. by apply (sessions_exclusive small), after_orderly.
Defined.

Lemma pool_limits_witness :
  let s := after small reused in
  len (idle (pool s)) <= Z.max 0 (MaxIdle (config (pool s))) /\
  (orderly_reachable small s -> 0 < MaxActive (config (pool s)) ->
   Z.of_nat (creating s) + len (idle (pool s)) + len (checking s) + len (held s) + len (stale s)
   <= MaxActive (config (pool s))) /\ orderly_reachable small s.
Proof.
  intros s. destruct (pool_limits small s (after_reachable _ _)) as [H1 H2].
  exact (conj H1 (conj H2 (after_orderly small reused eq_refl))).
Defined.

(** One session that is returned and then found dead is enough to fill this
    pool: nobody holds a session, none is idle, and every [Get] is refused. *)
Definition dead_once : list event := [EGet 0 None; ECreated; EClose 1; EGet 2 None; ECheck (Ok false)].

Lemma dead_sessions_fill_pool_witness :
  let s := after small dead_once in
  (Get_locked 3 None (pool s)).1 = Refused ErrPoolExhausted /\
  creating s = 0%nat /\ idle (pool s) = [] /\ checking s = [] /\ held s = [] /\
  forall now deadline, (Get_locked now deadline (pool s)).1 <> Creating.
Proof.
  intros s. split; [reflexivity|].
  apply (dead_sessions_fill_pool small s); [by apply after_orderly|reflexivity|
    vm_compute; discriminate|apply rtc_refl].
Defined.

(** A pool with two idle sessions, the later of which is dead. *)
Definition two_idle : ConnectionPool :=
  mkPool (mkConfig 5 10 0 0 true) [3%nat; 4%nat] 2 false false
    (fun _ => mkPooled true true 0 false false) 5 [].
Definition only_3 (pid : nat) : res bool := Ok (pid =? 3)%nat.

Lemma Get_reuses_witness :
  exists p', Get 2 (Some None) only_3 (Ok (mkPooled true true 0 true false)) [] 7 two_idle = (Ok 3%nat, p') /\
    idle p' = [] /\ active p' = 2 /\ inUse (sessions p' 3) = true /\
    teardowns p' = [] ++ (Logoff_called <$> reverse [4%nat]).
Proof.
  apply (Get_reuses 2 only_3 _ [] 7 two_idle [] 3 [4%nat]); try reflexivity; try lia;
    repeat constructor.
Defined.

Lemma Get_without_idle_witness :
  exists p', idle p' = [] /\
    Get 3 (Some None) (fun _ => Ok false) (Err (Errorf "refused")) [] 7 two_idle
    = (Err (Errorf "refused"), p') /\ active p' = 2.
Proof.
  apply (Get_without_idle 3 (fun _ => Ok false) (Err (Errorf "refused")) [] 7 two_idle);
    try reflexivity; try (cbn; lia); try discriminate; repeat constructor.
Defined.

(** A [Get] waits for the only session of a pool, which is then returned. *)
Definition patient : option PoolConfig := Some (mkConfig 1 1 0 10 false).
Definition all_out : System := after patient [EGet 0 None; ECreated].
Definition returned : System := after patient [EGet 0 None; ECreated; EGet 1 (Some 10); EClose 2].

Lemma waiter_is_woken_witness :
  1 = MaxActive (config (pool all_out)) /\
  waitChan (pool returned) = true /\
  (exists pid, pid ∈ idle (pool returned) /\
    forall now' dl', (Get_locked now' dl' (set_signal false (pool returned))).1 = Popped pid) /\
  waitChan (put 2 0 (pool all_out)) = true.
Proof.
  assert (orderly_reachable patient all_out) as Hr by (by apply after_orderly).
  destruct (waiter_is_woken patient all_out 1 (Some 10) (Some 9) (set_signal false (pool all_out))
              returned Hr eq_refl) as (H1 & H2 & _).
  { eapply rtc_once, (act_Close _ 0%nat [] 2). reflexivity. }
  destruct (waiter_is_woken patient all_out 1 (Some 10) (Some 9) (set_signal false (pool all_out))
              (with_pool (set_signal false (pool all_out)) all_out) Hr eq_refl (rtc_refl _ _))
    as (_ & _ & H3).
  destruct H2 as (_ & H2 & H4); [discriminate|].
  exact (conj H1 (conj H2 (conj H4 (proj1 (H3 0%nat [] 2 (Permutation_refl _) eq_refl eq_refl))))).
Defined.

(** ** Where the pool does not do what it means to *)

(** A slot freed by a session that is closed rather than kept is not signalled:
    here a [Get] waits for the only slot, the session is returned, and the
    waiter is not woken although its next pass would create a session. *)
Lemma freed_slot_not_signalled :
  exists s1 s2, run [EGet 0 None; ECreated] (start (Some (mkConfig 0 1 0 10 false))) = Some s1 /\
    (Get_locked 0 (Some 10) (pool s1)).1 = Waiting (Some 10) /\
    run [EGet 0 (Some 10); EClose 1] s1 = Some s2 /\
    waitChan (pool s2) = false /\ (Get_locked 1 (Some 10) (pool s2)).1 = Creating.
Proof. do 2 eexists. repeat split; reflexivity. Qed.

(** A wake-up is lost when two sessions are returned before either of two
    waiters runs: the second signal finds the channel full, the first waiter
    takes the signal and a session, and the other one sleeps on although a
    session is idle (until its deadline, when it gets [ErrPoolExhausted]). *)
Definition pair : option PoolConfig := Some (mkConfig 2 2 0 10 false).
Definition both_out : list event := [EGet 0 None; ECreated; EGet 0 None; ECreated].
Definition both_wait_and_return : list event :=
  [EGet 1 (Some 10); EGet 1 (Some 10); EClose 2; EClose 2; EWake; EGet 3 (Some 10); ECheck (Ok true)].

Lemma lost_wakeup :
  let s1 := after pair both_out in
  let s2 := after pair (both_out ++ both_wait_and_return) in
  orderly_reachable pair s2 /\
  (Get_locked 1 (Some 10) (pool s1)).1 = Waiting (Some 9) /\
  waitChan (pool s2) = false /\ idle (pool s2) = [1%nat] /\ held s2 = [0%nat] /\
  (Get_locked 3 (Some 10) (pool s2)).1 = Popped 1%nat.
Proof. intros s1 s2. split; [by apply after_orderly|]. vm_compute. tauto. Qed.

(** Closing a handle twice makes its session idle twice: two callers get it. *)
Lemma closed_twice_shared :
  let c := Some (mkConfig 5 10 0 0 false) in
  let s := after c [EGet 0 None; ECreated; EClose 1; EClose_again 2 0; EGet 3 None; ECheck (Ok true);
                    EGet 4 None; ECheck (Ok true)] in
  reachable c s /\ held s = [0%nat; 0%nat].
Proof. intros c s. split; [apply after_reachable|by vm_compute]. Qed.

(** With no room for it the second [Close] frees a slot again: two sessions are
    in use in a pool of one (the first caller closes its handle once more
    while a second session is out). *)
Lemma closed_twice_exceeds :
  let c := Some (mkConfig 0 1 0 0 false) in
  let s := after c [EGet 0 None; ECreated; EClose 1; EGet 2 None; ECreated; EClose_again 3 0;
                    EGet 4 None; ECreated] in
  reachable c s /\ held s = [2%nat; 1%nat].
Proof. intros c s. split; [apply after_reachable|by vm_compute]. Qed.

(** A session returned to a closed pool is not closed. *)
Lemma returned_to_closed_pool :
  exists s, run [EGet 0 None; ECreated; EPoolClose; EClose 1] (start small) = Some s /\
    held s = [] /\ idle (pool s) = [] /\ teardowns (pool s) = [].
Proof. eexists. repeat split; reflexivity. Qed.
