(* ===== verification/Dcerpc.v ===== *)
(** * DCE/RPC and the server service ([internal/dcerpc], [internal/srvsvc])

    NDR marshalling, the protocol data units of a call over a named pipe (bind,
    request and their replies), and the one call the client makes:
    NetShareEnumAll of the server service. *)

From S2P Require Export Utf16le.

(** ** NDR ([ndr.go]) *)

Definition Align4 : Z := 4.

(** Go's [%] truncates towards zero. *)
Definition AlignOffset (offset alignment : Z) : Z :=
  if alignment =? 0 then offset else
  let remainder := Z.rem offset alignment in
  if remainder =? 0 then offset else offset + (alignment - remainder).

Definition MarshalUint16 (v : Z) : res bytes :=
  let! buf := make 2 in put16 buf 0 (len buf) v.
Definition MarshalUint32 (v : Z) : res bytes :=
  let! buf := make 4 in put32 buf 0 (len buf) v.
Definition MarshalUint64 (v : Z) : res bytes :=
  let! buf := make 8 in put64 buf 0 (len buf) v.

Definition UnmarshalUint16 (b : bytes) : res Z := if len b <? 2 then Ok 0 else get_le 2 b.
Definition UnmarshalUint32 (b : bytes) : res Z := if len b <? 4 then Ok 0 else get_le 4 b.
Definition UnmarshalUint64 (b : bytes) : res Z := if len b <? 8 then Ok 0 else get_le 8 b.

(** [for _, char := range utf16Chars { PutUint16(buf[offset:offset+2], char); offset += 2 }] *)
Fixpoint put_chars (buf : bytes) (offset : Z) (ws : list Z) : res bytes :=
  match ws with
  | [] => Ok buf
  | w :: ws => let! buf := put16 buf offset (offset + 2) w in put_chars buf (offset + 2) ws
  end.

Definition MarshalConformantVaryingString (s : bytes) : res bytes :=
  let utf16Chars := utf16_Encode (runes s) ++ [0] in
  let charCount := len utf16Chars in
  let byteCount := charCount * 2 in
  let! buf := make (12 + byteCount) in
  let! buf := put32 buf 0 4 (wrap 32 charCount) in
  let! buf := put32 buf 4 8 0 in
  let! buf := put32 buf 8 12 (wrap 32 charCount) in
  put_chars buf 12 utf16Chars.

(** [for i := 0; i < n; i++ { utf16Chars[i] = Uint16(b[offset+i*2 : offset+i*2+2]) }] *)
Fixpoint get_chars (b : bytes) (offset i : Z) (n : nat) : res (list Z) :=
  match n with
  | O => Ok []
  | S n => let! w := u16 b (offset + i * 2) (offset + i * 2 + 2) in
           let! ws := get_chars b offset (i + 1) n in Ok (w :: ws)
  end.

(** The string, and the offset past it. *)
Definition UnmarshalConformantVaryingString (b : bytes) (offset : Z) : res (bytes * Z) :=
  let offset := AlignOffset offset Align4 in
  if len b <? offset + 12 then Err (Errorf "dcerpc: buffer too short for string header") else
  let! maxCount := u32 b offset (offset + 4) in
  let offset := offset + 4 in
  let! stringOffset := u32 b offset (offset + 4) in
  let offset := offset + 4 in
  let! actualCount := u32 b offset (offset + 4) in
  let offset := offset + 4 in
  if maxCount <? actualCount
  then Err (Errorf "dcerpc: invalid string: actualCount=%d > maxCount=%d") else
  let byteCount := actualCount * 2 in
  if len b <? offset + byteCount then Err (Errorf "dcerpc: buffer too short for string data") else
  let! utf16Chars := get_chars b offset 0 (Z.to_nat actualCount) in
  let offset := offset + byteCount in
  let rs := utf16_Decode utf16Chars in
  let! rs :=
    if 0 <? len rs then
      let! z := index rs (len rs - 1) in
      if z =? 0 then slice rs 0 (len rs - 1) else Ok rs
    else Ok rs in
  Ok (string_of_runes rs, offset).

Definition MarshalPointer (referentID : Z) (data : bytes) : res bytes :=
  let! buf := make 4 in
  let! buf := put32 buf 0 (len buf) referentID in
  Ok (if negb (referentID =? 0) && (0 <? len data) then buf ++ data else buf).

Definition UnmarshalPointer (b : bytes) (offset : Z) : res (Z * Z) :=
  let offset := AlignOffset offset Align4 in
  if len b <? offset + 4 then Err (Errorf "dcerpc: buffer too short for pointer") else
  let! referentID := u32 b offset (offset + 4) in
  Ok (referentID, offset + 4).

Definition MarshalUniquePointer (data : bytes) : res bytes :=
  if len data =? 0 then MarshalPointer 0 [] else MarshalPointer 0x00020000 data.

Definition Pad (buf : bytes) (alignment : Z) : res bytes :=
  let currentLen := len buf in
  let padding := AlignOffset currentLen alignment - currentLen in
  if 0 <? padding then let! p := make padding in Ok (buf ++ p) else Ok buf.

(** ** Headers and UUIDs ([dcerpc.go]) *)

Definition VersionMajor : Z := 5.
Definition VersionMinor : Z := 0.
Definition PacketTypeRequest : Z := 0.
Definition PacketTypeResponse : Z := 2.
Definition PacketTypeBind : Z := 11.
Definition PacketTypeBindAck : Z := 12.
Definition PFCFirstFrag : Z := 0x01.
Definition PFCLastFrag : Z := 0x02.

(** A byte array literal. *)
Definition raw (l : list Z) : bytes := byte_of <$> l.

Definition DataRepresentation : bytes := raw [0x10; 0x00; 0x00; 0x00].
Definition TransferSyntaxUUID : bytes :=
  raw [0x04; 0x5d; 0x88; 0x8a; 0xeb; 0x1c; 0xc9; 0x11;
       0x9f; 0xe8; 0x08; 0x00; 0x2b; 0x10; 0x48; 0x60].
Definition TransferSyntaxVersion : Z := 0x00000002.

Record RpcHeader := mkRpcHeader {
  rh_Version : Z;
  rh_VersionMinor : Z;
  rh_PacketType : Z;
  rh_Flags : Z;
  rh_DataRep : bytes;          (* [4]byte *)
  rh_FragLength : Z;
  rh_AuthLength : Z;
  rh_CallID : Z;
}.
Definition RpcHeaderSize : Z := 16.

Definition EncodeRpcHeader (h : RpcHeader) : res bytes :=
  let! buf := make RpcHeaderSize in
  let! buf := put8 buf 0 (rh_Version h) in
  let! buf := put8 buf 1 (rh_VersionMinor h) in
  let! buf := put8 buf 2 (rh_PacketType h) in
  let! buf := put8 buf 3 (rh_Flags h) in
  let! buf := copy_at buf 4 8 (rh_DataRep h) in
  let! buf := put16 buf 8 10 (rh_FragLength h) in
  let! buf := put16 buf 10 12 (rh_AuthLength h) in
  put32 buf 12 16 (rh_CallID h).

Definition DecodeRpcHeader (buf : bytes) : res RpcHeader :=
  if len buf <? RpcHeaderSize then Err (Errorf "dcerpc: header too short: got %d bytes, need %d") else
  let! version := idx8 buf 0 in
  let! minor := idx8 buf 1 in
  let! type := idx8 buf 2 in
  let! flags := idx8 buf 3 in
  let! frag := u16 buf 8 10 in
  let! auth := u16 buf 10 12 in
  let! call := u32 buf 12 16 in
  let! rep := slice buf 4 8 in
  if negb (version =? VersionMajor)
  then Err (Errorf "dcerpc: unsupported version: got %d, expected %d") else
  Ok (mkRpcHeader version minor type flags rep frag auth call).

Definition EncodeUUID (uuid : bytes) : bytes := uuid.

Definition hexdigit (b : byte) : option Z :=
  let c := u8 b in
  if (0x30 <=? c) && (c <=? 0x39) then Some (c - 0x30)
  else if (0x41 <=? c) && (c <=? 0x46) then Some (c - 0x37)
  else if (0x61 <=? c) && (c <=? 0x66) then Some (c - 0x57)
  else None.
(** The ASCII characters [fmt] skips before a number, line feed apart. *)
Definition scan_space (b : byte) : bool := bool_decide (u8 b ∈ [0x09; 0x0B; 0x0C; 0x0D; 0x20]).

(** [fmt.Sscanf(s, "%02x", &b)] for a string of two bytes: spaces are skipped,
    then up to the width digits are read; what follows them is left. *)
Definition Sscanf_02x (s : bytes) : res Z :=
  match s with
  | [a; b] =>
    match hexdigit a, hexdigit b with
    | Some x, Some y => Ok (16 * x + y)
    | Some x, None => Ok x
    | None, Some y => if scan_space a then Ok y else Err (Errorf "expected integer")
    | None, None => Err (Errorf "expected integer")
    end
  | _ => Err (Errorf "expected integer")
  end.

(** [n] bytes from the digits at [at i], stored at [base + i]. *)
Fixpoint scan_group (s : bytes) (at_ : Z -> Z) (base i : Z) (n : nat) (uuid : bytes) : res bytes :=
  match n with
  | O => Ok uuid
  | S n =>
    let! digits := slice s (at_ i) (at_ i + 2) in
    match Sscanf_02x digits with
    | Ok b => let! uuid := put8 uuid (base + i) b in scan_group s at_ base (i + 1) n uuid
    | Err e => Err (Wrapf "dcerpc: invalid UUID format: %w" e)
    | Panic => Panic
    end
  end.

Definition hyphen (s : bytes) (i : Z) : res unit :=
  let! c := idx8 s i in
  if c =? 0x2D then Ok () else Err (Errorf "dcerpc: invalid UUID format: missing hyphen").

Definition ParseUUID (s : bytes) : res bytes :=
  let! uuid := make 16 in
  if negb (len s =? 36) then Err (Errorf "dcerpc: invalid UUID length: got %d, expected 36") else
  let! uuid := scan_group s (fun i => 6 - 2 * i) 0 0 4 uuid in
  let! _ := hyphen s 8 in
  let! uuid := scan_group s (fun i => 11 - 2 * i) 4 0 2 uuid in
  let! _ := hyphen s 13 in
  let! uuid := scan_group s (fun i => 16 - 2 * i) 6 0 2 uuid in
  let! _ := hyphen s 18 in
  let! uuid := scan_group s (fun i => 19 + 2 * i) 8 0 2 uuid in
  let! _ := hyphen s 23 in
  scan_group s (fun i => 24 + 2 * i) 10 0 6 uuid.

(** ** Bind ([bind.go]) *)

Definition MaxXmitFrag : Z := 4280.
Definition MaxRecvFrag : Z := 4280.
Definition ResultAcceptance : Z := 0.

Record ContextItem := mkContextItem {
  ci_ContextID : Z;
  ci_InterfaceUUID : bytes;    (* [16]byte *)
  ci_InterfaceVer : Z;
  ci_TransferSyntax : bytes;   (* [16]byte *)
  ci_SyntaxVer : Z;
}.

Definition bind_items (interfaceUUID : bytes) (version : Z) : list ContextItem :=
  [ mkContextItem 0 interfaceUUID version TransferSyntaxUUID TransferSyntaxVersion;
    mkContextItem 1 interfaceUUID version
      (raw [0x2c; 0x1c; 0xb7; 0x6c; 0x12; 0x98; 0x40; 0x45; 0x03; 0; 0; 0; 0; 0; 0; 0]) 1 ].

Fixpoint put_items (buf : bytes) (offset : Z) (items : list ContextItem) : res bytes :=
  match items with
  | [] => Ok buf
  | item :: items =>
    let! buf := put16 buf offset (offset + 2) (ci_ContextID item) in
    let offset := offset + 2 in
    let! buf := put8 buf offset 1 in
    let offset := offset + 1 in
    let offset := offset + 1 in
    let! buf := copy_at buf offset (offset + 16) (ci_InterfaceUUID item) in
    let offset := offset + 16 in
    let! buf := put32 buf offset (offset + 4) (ci_InterfaceVer item) in
    let offset := offset + 4 in
    let! buf := copy_at buf offset (offset + 16) (ci_TransferSyntax item) in
    let offset := offset + 16 in
    let! buf := put32 buf offset (offset + 4) (ci_SyntaxVer item) in
    put_items buf (offset + 4) items
  end.

Definition EncodeBind (interfaceUUID : bytes) (version : Z) : res bytes :=
  let contextItems := bind_items interfaceUUID version in
  let bodySize := 12 + len contextItems * 44 in
  let totalSize := RpcHeaderSize + bodySize in
  let! buf := make totalSize in
  let! header := EncodeRpcHeader (mkRpcHeader VersionMajor VersionMinor PacketTypeBind
    (Z.lor PFCFirstFrag PFCLastFrag) DataRepresentation (wrap 16 totalSize) 0 0) in
  let! buf := copy_at buf 0 RpcHeaderSize header in
  let offset := RpcHeaderSize in
  let! buf := put16 buf offset (offset + 2) MaxXmitFrag in
  let offset := offset + 2 in
  let! buf := put16 buf offset (offset + 2) MaxRecvFrag in
  let offset := offset + 2 in
  let! buf := put32 buf offset (offset + 4) 0 in
  let offset := offset + 4 in
  let! buf := put8 buf offset (len contextItems) in
  let offset := offset + 1 in
  let offset := offset + 3 in
  put_items buf offset contextItems.

Definition DecodeBindAck (data : bytes) : res Z :=
  match DecodeRpcHeader data with
  | Err e => Err (Wrapf "dcerpc: failed to decode Bind_Ack header: %w" e)
  | Panic => Panic
  | Ok header =>
    if negb (rh_PacketType header =? PacketTypeBindAck)
    then Err (Errorf "dcerpc: expected Bind_Ack packet type %d, got %d") else
    let minBodySize := 14 in
    if len data <? RpcHeaderSize + minBodySize
    then Err (Errorf "dcerpc: Bind_Ack body too short: got %d bytes, need at least %d") else
    let offset := RpcHeaderSize + 8 in
    let! secAddrLen := u16 data offset (offset + 2) in
    let offset := offset + 2 in
    let offset := offset + secAddrLen in
    let offset := if negb (Z.rem offset 4 =? 0) then offset + (4 - Z.rem offset 4) else offset in
    if len data <? offset + 4
    then Err (Errorf "dcerpc: Bind_Ack truncated: missing NumResults field") else
    let! numResults := idx8 data offset in
    let offset := offset + 4 in
    if numResults =? 0 then Err (Errorf "dcerpc: Bind_Ack contains no context results") else
    if len data <? offset + 24
    then Err (Errorf "dcerpc: Bind_Ack truncated: missing context results") else
    let! result := u16 data offset (offset + 2) in
    let! reason := u16 data (offset + 2) (offset + 4) in
    if negb (result =? ResultAcceptance)
    then Err (Errorf "dcerpc: Bind rejected: result=%d, reason=%d") else
    Ok 0
  end.

(** ** Requests and responses ([request.go]) *)

Definition EncodeRequest (contextID opnum : Z) (data : bytes) (callID : Z) : res bytes :=
  let bodySize := 8 + len data in
  let totalSize := RpcHeaderSize + bodySize in
  let! buf := make totalSize in
  let! header := EncodeRpcHeader (mkRpcHeader VersionMajor VersionMinor PacketTypeRequest
    (Z.lor PFCFirstFrag PFCLastFrag) DataRepresentation (wrap 16 totalSize) 0 callID) in
  let! buf := copy_at buf 0 RpcHeaderSize header in
  let offset := RpcHeaderSize in
  let! buf := put32 buf offset (offset + 4) (wrap 32 (len data)) in
  let offset := offset + 4 in
  let! buf := put16 buf offset (offset + 2) contextID in
  let offset := offset + 2 in
  let! buf := put16 buf offset (offset + 2) opnum in
  let offset := offset + 2 in
  if 0 <? len data then copy_at buf offset (offset + len data) data else Ok buf.

Definition DecodeResponse (data : bytes) : res (bytes * Z) :=
  match DecodeRpcHeader data with
  | Err e => Err (Wrapf "dcerpc: failed to decode Response header: %w" e)
  | Panic => Panic
  | Ok header =>
    if negb (rh_PacketType header =? PacketTypeResponse)
    then Err (Errorf "dcerpc: expected Response packet type %d, got %d") else
    let minBodySize := 8 in
    if len data <? RpcHeaderSize + minBodySize
    then Err (Errorf "dcerpc: Response body too short: got %d bytes, need at least %d") else
    let offset := RpcHeaderSize + 4 + 2 + 2 in
    let! responseData := make (len data - offset) in
    let! rest := slice data offset (len data) in
    let! responseData := copy_at responseData 0 (len responseData) rest in
    Ok (responseData, 0)
  end.

Definition DecodeFault (data : bytes) : res Z :=
  match DecodeRpcHeader data with
  | Err e => Err (Wrapf "dcerpc: failed to decode Fault header: %w" e)
  | Panic => Panic
  | Ok header =>
    if negb (rh_PacketType header =? 3)
    then Err (Errorf "dcerpc: expected Fault packet type 3, got %d") else
    let minBodySize := 16 in
    if len data <? RpcHeaderSize + minBodySize
    then Err (Errorf "dcerpc: Fault body too short: got %d bytes, need at least %d") else
    let offset := RpcHeaderSize + 8 in
    u32 data offset (offset + 4)
  end.

(** ** The server service ([srvsvc.go], [structures.go]) *)

Definition InterfaceUUID : bytes :=
  raw [0xc8; 0x4f; 0x32; 0x4b; 0x70; 0x16; 0xd3; 0x01;
       0x12; 0x78; 0x5a; 0x47; 0xbf; 0x6e; 0xe1; 0x88].
Definition InterfaceVersion : Z := 0x00000003.
Definition OpNetShareEnumAll : Z := 15.

(** [ShareInfo1] of [internal/srvsvc]. *)
Record SrvShareInfo1 := mkSrvShare { ss_Name : bytes; ss_Type : Z; ss_Comment : bytes }.

Definition backslash : byte := Byte.x5c.
(** [s[0]] and [s[1]] are backslashes. *)
Definition slash0 (s : bytes) : bool := bool_decide (head s = Some backslash).
Definition slash1 (s : bytes) : bool := bool_decide (head (drop 1 s) = Some backslash).

Definition EncodeServerName (name : bytes) : res bytes :=
  let uncName :=
    if negb ((1 <? len name) && slash0 name && slash1 name) then
      if negb ((0 <? len name) && slash0 name) then [backslash; backslash] ++ name
      else [backslash] ++ name
    else name in
  let! stringData := MarshalConformantVaryingString uncName in
  MarshalPointer 0x00020000 stringData.

(** The structures of the array, [n] to go: the name and comment pointers with
    the type of each. *)
Fixpoint share_structs (n : nat) (data : bytes) (offset : Z) : res (list (Z * Z * Z) * Z) :=
  match n with
  | O => Ok ([], offset)
  | S n =>
    let offset := AlignOffset offset Align4 in
    if len data <? offset + 4 then Err (Errorf "srvsvc: buffer too short for share %d name pointer") else
    let! s := slice data offset (offset + 4) in
    let! name := UnmarshalUint32 s in
    let offset := offset + 4 in
    if len data <? offset + 4 then Err (Errorf "srvsvc: buffer too short for share %d type") else
    let! s := slice data offset (offset + 4) in
    let! type := UnmarshalUint32 s in
    let offset := offset + 4 in
    if len data <? offset + 4 then Err (Errorf "srvsvc: buffer too short for share %d comment pointer") else
    let! s := slice data offset (offset + 4) in
    let! comment := UnmarshalUint32 s in
    let offset := offset + 4 in
    let! (l, offset) := share_structs n data offset in
    Ok ((name, type, comment) :: l, offset)
  end.

(** A string whose pointer is not null. *)
Definition deferred (msg : string) (pointer : Z) (data : bytes) (offset : Z) : res (bytes * Z) :=
  if negb (pointer =? 0) then
    match UnmarshalConformantVaryingString data offset with
    | Ok r => Ok r
    | Err e => Err (Wrapf msg e)
    | Panic => Panic
    end
  else Ok ([], offset).

Fixpoint share_strings (l : list (Z * Z * Z)) (data : bytes) (offset : Z) : res (list SrvShareInfo1 * Z) :=
  match l with
  | [] => Ok ([], offset)
  | (namePointer, type, commentPointer) :: l =>
    let! (name, offset) := deferred "srvsvc: failed to decode share %d name: %w" namePointer data offset in
    let! (comment, offset) :=
      deferred "srvsvc: failed to decode share %d comment: %w" commentPointer data offset in
    let! (shares, offset) := share_strings l data offset in
    Ok (mkSrvShare name type comment :: shares, offset)
  end.

(** The part before the slices for [count] shares are allocated. *)
Definition share_array_header (data : bytes) (offset count : Z) : res Z :=
  let offset := AlignOffset offset Align4 in
  if len data <? offset + 4 then Err (Errorf "srvsvc: buffer too short for array conformance") else
  let! s := slice data offset (offset + 4) in
  let! maxCount := UnmarshalUint32 s in
  let offset := offset + 4 in
  if maxCount <? count then Err (Errorf "srvsvc: invalid array: count=%d > maxCount=%d") else
  Ok offset.

Definition DecodeShareInfo1Array (data : bytes) (offset count : Z) : res (list SrvShareInfo1 * Z) :=
  if count =? 0 then Ok ([], offset) else
  let! offset := share_array_header data offset count in
  let! (l, offset) := share_structs (Z.to_nat count) data offset in
  share_strings l data offset.

(** ** NetShareEnumAll ([netshareenum.go]) *)

Definition unc_name (serverName : bytes) : bytes :=
  if (0 <? len serverName) && negb (slash0 serverName) then [backslash; backslash] ++ serverName
  else if (1 <? len serverName) && slash0 serverName && negb (slash1 serverName)
  then [backslash] ++ serverName
  else serverName.

(** Appending 32-bit values. *)
Fixpoint append_u32s (buf : bytes) (vs : list Z) : res bytes :=
  match vs with
  | [] => Ok buf
  | v :: vs => let! b := MarshalUint32 v in append_u32s (buf ++ b) vs
  end.

Definition EncodeNetShareEnumAllRequest (serverName : bytes) : res bytes :=
  let! serverNameString := MarshalConformantVaryingString (unc_name serverName) in
  let! buf := append_u32s [] [0x00020000] in
  let! buf := Pad (buf ++ serverNameString) Align4 in
  append_u32s buf [1; 1; 0x00020004; 0; 0; 0xFFFFFFFF; 0x00020008; 0].

(** [if len(data) < offset+4 { return msg }; UnmarshalUint32(data[offset:offset+4]); offset += 4] *)
Definition field32 (msg : string) (data : bytes) (offset : Z) : res (Z * Z) :=
  if len data <? offset + 4 then Err (Errorf msg) else
  let! s := slice data offset (offset + 4) in
  let! v := UnmarshalUint32 s in Ok (v, offset + 4).

Definition pointer_field (msg : string) (data : bytes) (offset : Z) : res (Z * Z) :=
  match UnmarshalPointer data offset with
  | Ok r => Ok r | Err e => Err (Wrapf msg e) | Panic => Panic end.

(** The container of the shares: the shares and their count, and the offset. *)
Definition share_container (data : bytes) (offset : Z) : res (list SrvShareInfo1 * Z * Z) :=
  let! (entriesRead, offset) := field32 "srvsvc: response too short for entries read" data offset in
  let! (bufferPtr, offset) := pointer_field "srvsvc: failed to read buffer pointer: %w" data offset in
  if negb (bufferPtr =? 0) && (0 <? entriesRead) then
    match DecodeShareInfo1Array data offset entriesRead with
    | Ok (shares, offset) => Ok (shares, entriesRead, offset)
    | Err e => Err (Wrapf "srvsvc: failed to decode share array: %w" e)
    | Panic => Panic
    end
  else Ok ([], entriesRead, offset).

Definition DecodeNetShareEnumAllResponse (data : bytes) : res (list SrvShareInfo1) :=
  let! (level, offset) := field32 "srvsvc: response too short for level field" data 0 in
  if negb (level =? 1) then Err (Errorf "srvsvc: unsupported info level: %d") else
  let! (infoLevel, offset) := field32 "srvsvc: response too short for infostruct level" data offset in
  if negb (infoLevel =? level) then Err (Errorf "srvsvc: level mismatch: top=%d, infostruct=%d") else
  let! (containerPtr, offset) := pointer_field "srvsvc: failed to read container pointer: %w" data offset in
  let! (shares, entriesRead, offset) :=
    if negb (containerPtr =? 0) then share_container data offset else Ok ([], 0, offset) in
  let! (totalEntries, offset) := field32 "srvsvc: response too short for total entries" data offset in
  if totalEntries <? entriesRead
  then Err (Errorf "srvsvc: invalid response: totalEntries=%d < entriesRead=%d") else
  let! (resumeHandlePtr, offset) :=
    pointer_field "srvsvc: failed to read resume handle pointer: %w" data offset in
  let! offset :=
    if negb (resumeHandlePtr =? 0) then
      if len data <? offset + 4 then Err (Errorf "srvsvc: response too short for resume handle")
      else Ok (offset + 4)
    else Ok offset in
  let! (returnCode, _) := field32 "srvsvc: response too short for return code" data offset in
  if negb (returnCode =? 0) then Err (Errorf "srvsvc: NetShareEnumAll failed with error code: 0x%08x") else
  Ok shares.

(** ** Lemmas: marshalling *)

Lemma AlignOffset_4 offset :
  0 <= offset -> offset <= AlignOffset offset 4 <= offset + 3 /\ AlignOffset offset 4 mod 4 = 0.
Proof.
  intros H. unfold AlignOffset. cbn [Z.eqb]. rewrite Z.rem_mod_nonneg by lia.
  pose proof (Z.mod_pos_bound offset 4 eq_refl).
  destruct (Z.eqb_spec (offset mod 4) 0); [lia|].
  split; [lia|]. Z.to_euclidean_division_equations; lia.
Qed.

Lemma AlignOffset_id offset : 0 <= offset -> offset mod 4 = 0 -> AlignOffset offset 4 = offset.
Proof.
  intros H Hm. unfold AlignOffset. cbn [Z.eqb]. rewrite Z.rem_mod_nonneg by lia. by rewrite Hm.
Qed.

Lemma MarshalUint32_eq v : MarshalUint32 v = Ok (le_put 4 v).
Proof. reflexivity. Qed.

Lemma UnmarshalUint32_slice data offset :
  0 <= offset -> offset + 4 <= len data ->
  (let! s := slice data offset (offset + 4) in UnmarshalUint32 s) = u32 data offset (offset + 4).
Proof.
  intros H1 H2. unfold u32. destruct (slice data offset (offset + 4)) as [s| |] eqn:E; [|done..].
  apply slice_inv in E as (_ & _ & E). cbn [bind]. unfold UnmarshalUint32.
  rewrite (proj2 (Z.ltb_ge _ _)) by lia. done.
Qed.

Lemma put_chars_eq ws (a : bytes) k :
  put_chars (a ++ replicate (2 * length ws + k) Byte.x00) (len a) ws
  = Ok (a ++ units_bytes ws ++ replicate k Byte.x00).
Proof.
  revert a. induction ws as [|w ws IH]; intros a; [done|]. cbn [put_chars length].
  unfold put16. rewrite put_le_zeros by (rewrite ?len_app; lia). cbn [bind].
  replace (2 * S (length ws) + k - 2)%nat with (2 * length ws + k)%nat by lia.
  replace (len a + 2) with (len (a ++ le_put 2 w)) by len_lia.
  rewrite IH. unfold units_bytes. cbn [mbind list_bind]. by rewrite <- !app_assoc.
Qed.

(** The text of a string in NDR. *)
Definition ndr_units (s : bytes) : list Z := utf16_Encode (runes s) ++ [0].
Definition ndr_string (s : bytes) : bytes :=
  le_put 4 (len (ndr_units s)) ++ le_put 4 0 ++ le_put 4 (len (ndr_units s)) ++ units_bytes (ndr_units s).

Lemma MarshalConformantVaryingString_eq s : MarshalConformantVaryingString s = Ok (ndr_string s).
Proof.
  unfold MarshalConformantVaryingString. fold (ndr_units s). set (us := ndr_units s).
  cbn zeta. rewrite (make_zeros _ (12 + (2 * length us + 0))) by (unfold len; lia). cbn [bind].
  unfold put32. do 3 enc_step.
  replace (12 + (2 * length us + 0) - 4 - 4 - 4)%nat with (2 * length us + 0)%nat by lia.
  replace 12 with (len (([] ++ le_put 4 (wrap 32 (len us))) ++ le_put 4 0) + 4) by (autorewrite with len; lia).
  rewrite put_chars_eq by (autorewrite with len; lia).
  unfold ndr_string. fold us. rewrite app_nil_r, <- !app_assoc. cbn [app].
  change (wrap 32) with (fun z => z mod 2 ^ (8 * Z.of_nat 4)). cbn beta. by rewrite le_put_mod.
Qed.

Lemma len_ndr_string s : len (ndr_string s) = 12 + 2 * len (ndr_units s).
Proof. unfold ndr_string. autorewrite with len. rewrite len_units_bytes. lia. Qed.

Lemma get_chars_eq ws (a rest : bytes) offset i :
  Forall (fun w => 0 <= w < 2 ^ 16) ws -> offset + i * 2 = len a ->
  get_chars (a ++ units_bytes ws ++ rest) offset i (length ws) = Ok ws.
Proof.
  intros Hw. revert a i. induction Hw as [|w ws Hw _ IH]; intros a i Ho; [done|].
  unfold units_bytes in *. cbn [length get_chars mbind list_bind]. rewrite <- app_assoc.
  rewrite Ho. wire_read. rewrite wrap_small by lia.
  rewrite app_assoc, IH by (rewrite len_app, len_le_put; lia). done.
Qed.

(** Dropping the terminator of a rune list. *)
Lemma drop_terminator (rs : list Z) :
  (if 0 <? len (rs ++ [0]) then
     let! z := index (rs ++ [0]) (len (rs ++ [0]) - 1) in
     if z =? 0 then slice (rs ++ [0]) 0 (len (rs ++ [0]) - 1) else Ok (rs ++ [0])
   else Ok (rs ++ [0])) = Ok rs.
Proof.
  assert (len (rs ++ [0]) = len rs + 1) as -> by (autorewrite with len; lia).
  pose proof (len_nonneg rs). destruct (Z.ltb_spec 0 (len rs + 1)); [|lia].
  pose proof (index_mid rs [] 0 (len rs + 1 - 1)) as Hi. rewrite app_nil_r in Hi.
  rewrite Hi by lia. cbn [bind]. cbn [Z.eqb]. apply slice_prefix. lia.
Qed.

Lemma ndr_units_range s : Forall (fun w => 0 <= w < 2 ^ 16) (ndr_units s).
Proof.
  unfold ndr_units. apply Forall_app. split; [apply utf16_Encode_range|]. repeat constructor; lia.
Qed.

Lemma ndr_units_decode s : utf16_Decode (ndr_units s) = runes s ++ [0].
Proof.
  unfold ndr_units. change [0] with (utf16_Encode [0]) at 1.
  assert (utf16_Encode (runes s) ++ utf16_Encode [0] = utf16_Encode (runes s ++ [0])) as ->
    by (unfold utf16_Encode; by rewrite bind_app).
  apply utf16_Decode_Encode, Forall_app. split; [apply runes_scalar|]. by repeat constructor.
Qed.

(** The bytes between an offset and the next aligned one. *)
Definition padding (offset : Z) : nat := Z.to_nat (AlignOffset offset 4 - offset).

Lemma AlignOffset_padding offset : 0 <= offset -> AlignOffset offset 4 = offset + Z.of_nat (padding offset).
Proof. intros H. unfold padding. pose proof (AlignOffset_4 offset H). lia. Qed.

(** A string read back where it was written, whatever the padding before it. *)
Lemma UnmarshalConformantVaryingString_at (a pad rest s : bytes) :
  len pad = Z.of_nat (padding (len a)) -> ValidString s -> len (ndr_units s) < 2 ^ 32 ->
  UnmarshalConformantVaryingString (a ++ pad ++ ndr_string s ++ rest) (len a)
  = Ok (s, len a + len pad + len (ndr_string s)).
Proof.
  intros Hpad Hs Hn. unfold UnmarshalConformantVaryingString, Align4.
  rewrite AlignOffset_padding, <- Hpad by apply len_nonneg.
  pose proof (AlignOffset_4 (len a) (len_nonneg a)) as [_ Hal].
  rewrite AlignOffset_padding, <- Hpad in Hal by apply len_nonneg.
  rewrite app_assoc. set (p := a ++ pad). replace (len a + len pad) with (len p) in * by (subst p; len_lia).
  pose proof (len_nonneg (ndr_units s)).
  rewrite (proj2 (Z.ltb_ge _ _)) by (rewrite !len_app, len_ndr_string; len_lia). cbn zeta.
  rewrite len_ndr_string. unfold ndr_string. set (us := ndr_units s) in *. rewrite <- !app_assoc.
  wire_read. unfold wrap. rewrite !Z.mod_small by lia.
  rewrite Z.ltb_irrefl.
  rewrite (proj2 (Z.ltb_ge _ _)) by (autorewrite with len; rewrite len_units_bytes; len_lia).
  replace (len p + 4 + 4 + 4) with (len (p ++ le_put 4 (len us) ++ le_put 4 0 ++ le_put 4 (len us)))
    by (autorewrite with len; lia).
  replace (Z.to_nat (len us)) with (length us) by (unfold len; lia).
  rewrite (app_assoc (le_put 4 (len us))), (app_assoc (_ ++ le_put 4 0)), (app_assoc p).
  rewrite <- (app_assoc (le_put 4 _)).
  rewrite get_chars_eq by (first [apply ndr_units_range|lia]). cbn [bind].
  subst us. rewrite ndr_units_decode, drop_terminator. cbn [bind].
  rewrite Hs. do 2 f_equal. autorewrite with len. lia.
Qed.

(** ** The reply of a server *)

(** A share with the referents the server gives its strings (zero for a null
    pointer, which stands for no text). *)
Record wire_share := mkWireShare { ws_share : SrvShareInfo1; ws_name_ref : Z; ws_comment_ref : Z }.

Definition triple (w : wire_share) : Z * Z * Z :=
  (ws_name_ref w, ss_Type (ws_share w), ws_comment_ref w).
Definition struct_text (w : wire_share) : bytes :=
  le_put 4 (ws_name_ref w) ++ le_put 4 (ss_Type (ws_share w)) ++ le_put 4 (ws_comment_ref w).

(** A string at the next aligned offset, if there is one. *)
Definition string_text (pointer : Z) (s : bytes) (offset : Z) : bytes :=
  if pointer =? 0 then [] else replicate (padding offset) Byte.x00 ++ ndr_string s.

Fixpoint strings_text (l : list wire_share) (offset : Z) : bytes :=
  match l with
  | [] => []
  | w :: l =>
    let a := string_text (ws_name_ref w) (ss_Name (ws_share w)) offset in
    let b := string_text (ws_comment_ref w) (ss_Comment (ws_share w)) (offset + len a) in
    a ++ b ++ strings_text l (offset + len a + len b)
  end.

(** A whole reply, each field at its aligned offset; a null pointer to the array
    has no array behind it. *)
Definition array_text (l : list wire_share) (offset : Z) : bytes :=
  let t := le_put 4 (len l) ++ (l ≫= struct_text) in
  t ++ strings_text l (offset + len t).
Definition share_reply (l : list wire_share) (container buffer total resume : Z) : bytes :=
  let head := le_put 4 1 ++ le_put 4 1 ++ le_put 4 container ++ le_put 4 (len l) ++ le_put 4 buffer in
  let body := head ++ (if buffer =? 0 then [] else array_text l (len head)) in
  body ++ replicate (padding (len body)) Byte.x00 ++
  le_put 4 total ++ le_put 4 resume ++ (if resume =? 0 then [] else le_put 4 0) ++ le_put 4 0.

(** What a server can send: values that fit their fields, valid text, and null
    pointers only for absent text. *)
Definition text_ok (pointer : Z) (s : bytes) : Prop :=
  0 <= pointer < 2 ^ 32 /\ ValidString s /\ len (ndr_units s) < 2 ^ 32 /\ (pointer = 0 -> s = []).
Definition share_ok (w : wire_share) : Prop :=
  0 <= ss_Type (ws_share w) < 2 ^ 32 /\
  text_ok (ws_name_ref w) (ss_Name (ws_share w)) /\ text_ok (ws_comment_ref w) (ss_Comment (ws_share w)).

(** ** Lemmas: reading the reply *)

Lemma deferred_text msg (a rest s : bytes) pointer :
  text_ok pointer s ->
  deferred msg pointer (a ++ string_text pointer s (len a) ++ rest) (len a)
  = Ok (s, len a + len (string_text pointer s (len a))).
Proof.
  intros (_ & Hs & Hn & H0). unfold deferred, string_text.
  destruct (Z.eqb_spec pointer 0) as [E|E]; cbn [negb].
  { rewrite H0 by done. f_equal. f_equal. unfold len. cbn. lia. }
  rewrite <- app_assoc, UnmarshalConformantVaryingString_at by (first [done|by rewrite len_replicate]).
  do 2 f_equal. autorewrite with len. lia.
Qed.

Lemma share_strings_text l (a rest : bytes) :
  Forall share_ok l ->
  share_strings (triple <$> l) (a ++ strings_text l (len a) ++ rest) (len a)
  = Ok (ws_share <$> l, len a + len (strings_text l (len a))).
Proof.
  intros Hl. revert a. induction Hl as [|w l (_ & Hn & Hc) _ IH]; intros a.
  { cbn. f_equal. f_equal. unfold len. cbn. lia. }
  cbn [fmap list_fmap triple share_strings strings_text].
  set (x := string_text (ws_name_ref w) _ _). set (y := string_text (ws_comment_ref w) _ _).
  rewrite <- !app_assoc. subst x. rewrite deferred_text by done. cbn [bind].
  set (x := string_text (ws_name_ref w) _ _) in *.
  replace (len a + len x) with (len (a ++ x)) by len_lia. rewrite (app_assoc a).
  assert (y = string_text (ws_comment_ref w) (ss_Comment (ws_share w)) (len (a ++ x))) as ->
    by (subst y; by rewrite len_app).
  rewrite deferred_text by done. cbn [bind].
  set (y := string_text (ws_comment_ref w) _ _).
  replace (len (a ++ x) + len y) with (len ((a ++ x) ++ y)) by len_lia. rewrite (app_assoc (a ++ x)).
  unfold fmap in IH. rewrite IH. cbn [bind].
  destruct w as [[name type comment] nr cr]. cbn. do 2 f_equal. len_lia.
Qed.

Lemma field32_slice data offset :
  0 <= offset -> offset + 4 <= len data ->
  forall {B} (f : Z -> res B),
  (let! s := slice data offset (offset + 4) in let! v := UnmarshalUint32 s in f v)
  = (let! v := u32 data offset (offset + 4) in f v).
Proof.
  intros H1 H2 B f. rewrite <- UnmarshalUint32_slice by done.
  by destruct (slice data offset (offset + 4)).
Qed.

Lemma struct_fields w (a r : bytes) :
  0 <= ss_Type (ws_share w) < 2 ^ 32 -> 0 <= ws_name_ref w < 2 ^ 32 -> 0 <= ws_comment_ref w < 2 ^ 32 ->
  let data := a ++ struct_text w ++ r in
  len a + 12 <= len data /\
  u32 data (len a) (len a + 4) = Ok (ws_name_ref w) /\
  u32 data (len a + 4) (len a + 4 + 4) = Ok (ss_Type (ws_share w)) /\
  u32 data (len a + 4 + 4) (len a + 4 + 4 + 4) = Ok (ws_comment_ref w).
Proof.
  intros Ht Hn Hc data. subst data. unfold struct_text. split; [len_lia|].
  rewrite <- !app_assoc. split_and!; wire_read; by rewrite wrap_small.
Qed.

Lemma share_structs_text l (a rest : bytes) :
  len a mod 4 = 0 -> Forall share_ok l ->
  share_structs (length l) (a ++ (l ≫= struct_text) ++ rest) (len a)
  = Ok (triple <$> l, len a + len (l ≫= struct_text)).
Proof.
  intros Ha Hl. revert a Ha. induction Hl as [|w l (Ht & (Hn & _) & (Hc & _)) _ IH]; intros a Ha.
  { cbn. f_equal. f_equal. unfold len. cbn. lia. }
  cbn [length share_structs]. rewrite bind_cons, fmap_cons. unfold Align4.
  rewrite AlignOffset_id by (first [apply len_nonneg|done]). cbn zeta.
  rewrite <- app_assoc. set (r := (l ≫= struct_text) ++ rest).
  destruct (struct_fields w a r Ht Hn Hc) as (Hlen & E1 & E2 & E3).
  assert (a ++ struct_text w ++ r = (a ++ struct_text w) ++ r) as Ea by (by rewrite app_assoc).
  set (data := a ++ struct_text w ++ r) in *. pose proof (len_nonneg a).
  rewrite (proj2 (Z.ltb_ge _ _)), field32_slice, E1 by lia. cbn [bind].
  rewrite (proj2 (Z.ltb_ge _ _)), field32_slice, E2 by lia. cbn [bind].
  rewrite (proj2 (Z.ltb_ge _ _)), field32_slice, E3 by lia. cbn [bind].
  assert (len (a ++ struct_text w) = len a + 4 + 4 + 4) as El
    by (unfold struct_text; autorewrite with len; lia).
  rewrite Ea, <- El. subst r. rewrite IH.
  - cbn [bind triple]. do 2 f_equal. rewrite !len_app in *. lia.
  - rewrite El. Z.to_euclidean_division_equations; lia.
Qed.

Lemma struct_text_len l : len (l ≫= struct_text) = 12 * len l.
Proof.
  induction l as [|w l IH]; [done|]. rewrite bind_cons, len_app, len_cons, IH.
  unfold struct_text. autorewrite with len. lia.
Qed.

#[local] Hint Rewrite struct_text_len : len.

Lemma DecodeShareInfo1Array_text l (a rest : bytes) :
  len a mod 4 = 0 -> Forall share_ok l -> l <> [] -> len l < 2 ^ 32 ->
  DecodeShareInfo1Array (a ++ array_text l (len a) ++ rest) (len a) (len l)
  = Ok (ws_share <$> l, len a + len (array_text l (len a))).
Proof.
  intros Ha Hl Hne Hn. unfold DecodeShareInfo1Array, share_array_header, Align4.
  pose proof (len_nonneg l). pose proof (len_nonneg a).
  destruct (Z.eqb_spec (len l) 0) as [E|_]; [by apply len_0_nil in E|].
  rewrite AlignOffset_id by done. cbn zeta. unfold array_text.
  set (t := le_put 4 (len l) ++ (l ≫= struct_text)).
  assert (len (a ++ le_put 4 (len l)) = len a + 4) as Et by (autorewrite with len; lia).
  assert (len a + len t = len ((a ++ le_put 4 (len l)) ++ (l ≫= struct_text))) as Es
    by (subst t; autorewrite with len; lia).
  rewrite Es. set (st := strings_text l _).
  rewrite (proj2 (Z.ltb_ge _ _)) by (subst t; len_lia).
  rewrite field32_slice by (first [lia|subst t; len_lia]).
  subst t. rewrite <- !app_assoc. wire_read. rewrite wrap_small, Z.ltb_irrefl by lia. cbn [bind].
  rewrite <- Et, (app_assoc a). replace (Z.to_nat (len l)) with (length l) by (unfold len; lia).
  rewrite share_structs_text; [|rewrite Et; Z.to_euclidean_division_equations; lia|done]. cbn [bind].
  rewrite (app_assoc (a ++ _)), <- len_app. subst st. rewrite share_strings_text by done.
  do 2 f_equal. autorewrite with len. lia.
Qed.

Lemma field32_at msg v (a rest : bytes) :
  0 <= v < 2 ^ 32 -> field32 msg (a ++ le_put 4 v ++ rest) (len a) = Ok (v, len a + 4).
Proof.
  intros Hv. unfold field32. pose proof (len_nonneg a).
  rewrite (proj2 (Z.ltb_ge _ _)) by len_lia.
  rewrite field32_slice by len_lia. wire_read. by rewrite wrap_small.
Qed.

Lemma field32_end msg v (a : bytes) :
  0 <= v < 2 ^ 32 -> field32 msg (a ++ le_put 4 v) (len a) = Ok (v, len a + 4).
Proof. intros Hv. rewrite <- (app_nil_r (le_put 4 v)). by apply field32_at. Qed.

Lemma pointer_at msg v (a rest : bytes) o :
  0 <= v < 2 ^ 32 -> AlignOffset o 4 = len a ->
  pointer_field msg (a ++ le_put 4 v ++ rest) o = Ok (v, len a + 4).
Proof.
  intros Hv Ha. unfold pointer_field, UnmarshalPointer, Align4. pose proof (len_nonneg a).
  rewrite Ha. cbn zeta. rewrite (proj2 (Z.ltb_ge _ _)) by len_lia.
  wire_read. by rewrite wrap_small.
Qed.

(** Strings take an even number of bytes, so that padding is none or two. *)
Lemma padding_even offset : 0 <= offset -> offset mod 2 = 0 ->
  (padding offset = 0%nat /\ offset mod 4 = 0) \/ (padding offset = 2%nat /\ offset mod 4 = 2).
Proof.
  intros H0 H. unfold padding. unfold AlignOffset. cbn [Z.eqb]. rewrite Z.rem_mod_nonneg by lia.
  assert (offset mod 4 = 0 \/ offset mod 4 = 2) as [E|E] by (Z.to_euclidean_division_equations; lia);
    rewrite E; cbn [Z.eqb]; [left|right]; split; lia.
Qed.

Lemma string_text_even pointer s offset :
  0 <= offset -> offset mod 2 = 0 -> len (string_text pointer s offset) mod 2 = 0.
Proof.
  intros H0 H. unfold string_text. destruct (pointer =? 0); [done|].
  rewrite len_app, len_replicate, len_ndr_string.
  destruct (padding_even offset H0 H) as [[-> _]|[-> _]]; Z.to_euclidean_division_equations; lia.
Qed.

Lemma strings_text_even l offset :
  0 <= offset -> offset mod 2 = 0 -> len (strings_text l offset) mod 2 = 0.
Proof.
  revert offset. induction l as [|w l IH]; intros offset H0 H; [done|]. cbn [strings_text].
  set (a := string_text _ _ _). assert (len a mod 2 = 0) as Ha by by apply string_text_even.
  assert (0 <= offset + len a) as H1 by len_lia.
  assert ((offset + len a) mod 2 = 0) as H2 by (Z.to_euclidean_division_equations; lia).
  set (b := string_text _ _ (offset + len a)).
  assert (len b mod 2 = 0) as Hb by by apply string_text_even.
  assert (len (strings_text l (offset + len a + len b)) mod 2 = 0) as Hc
    by (apply IH; [len_lia|Z.to_euclidean_division_equations; lia]).
  rewrite !len_app. Z.to_euclidean_division_equations; lia.
Qed.

(** What the total is read as: the decoder does not skip the padding. *)
Definition total_read (offset total : Z) : Z :=
  if (padding offset =? 0)%nat then total else 65536 * (total mod 65536).

Lemma total_at msg v (a rest : bytes) :
  0 <= v < 2 ^ 32 -> len a mod 2 = 0 ->
  field32 msg (a ++ replicate (padding (len a)) Byte.x00 ++ le_put 4 v ++ rest) (len a)
  = Ok (total_read (len a) v, len a + 4).
Proof.
  intros Hv Ha. unfold total_read. pose proof (len_nonneg a).
  destruct (padding_even (len a) ltac:(lia) Ha) as [[-> _]|[-> _]]; cbn [replicate Nat.eqb].
  { apply field32_at. done. }
  unfold field32. rewrite (proj2 (Z.ltb_ge _ _)) by len_lia. rewrite field32_slice by len_lia.
  change (le_put 4 v) with [byte_at v 0; byte_at v 1; byte_at v 2; byte_at v 3]. cbn [app].
  rewrite u32_skip by lia. rewrite Z.sub_diag. replace (len a + 4 - len a) with 4 by lia.
  unfold u32.
  change (Byte.x00 :: Byte.x00 :: byte_at v 0 :: byte_at v 1 :: byte_at v 2 :: byte_at v 3 :: rest)
    with ([Byte.x00; Byte.x00; byte_at v 0; byte_at v 1] ++ byte_at v 2 :: byte_at v 3 :: rest).
  rewrite slice_here by reflexivity. cbn [bind].
  change (get_le 4 [Byte.x00; Byte.x00; byte_at v 0; byte_at v 1])
    with (Ok (u8 Byte.x00 + 256 * (u8 Byte.x00 + 256 * le_get (le_put 2 v)))).
  cbn [bind]. rewrite le_get_put. change (u8 Byte.x00) with 0.
  change (2 ^ (8 * Z.of_nat 2)) with 65536. do 2 f_equal. lia.
Qed.

Lemma array_text_even l offset :
  0 <= offset -> offset mod 2 = 0 -> len (array_text l offset) mod 2 = 0.
Proof.
  intros H0 H. unfold array_text. cbn zeta. set (t := le_put 4 (len l) ++ _).
  assert (len t = 4 + 12 * len l) as Et by (subst t; autorewrite with len; lia).
  pose proof (len_nonneg l).
  assert (len (strings_text l (offset + len t)) mod 2 = 0) as Hs
    by (apply strings_text_even; rewrite Et; [lia|Z.to_euclidean_division_equations; lia]).
  rewrite len_app. remember (len (strings_text l (offset + len t))) as n eqn:En. rewrite Et.
  Z.to_euclidean_division_equations; lia.
Qed.

Lemma share_container_text l (a rest : bytes) buffer :
  Forall share_ok l -> l <> [] -> len l < 2 ^ 32 -> 0 < buffer < 2 ^ 32 -> len a mod 4 = 0 ->
  let t := array_text l (len a + 8) in
  share_container (a ++ le_put 4 (len l) ++ le_put 4 buffer ++ t ++ rest) (len a)
  = Ok (ws_share <$> l, len l, len a + 8 + len t).
Proof.
  intros Hl Hne Hn Hb Ha t. unfold share_container. pose proof (len_nonneg l). pose proof (len_nonneg a).
  rewrite field32_at by lia. cbn [bind]. rewrite (app_assoc a).
  assert (len (a ++ le_put 4 (len l)) = len a + 4) as E1 by (autorewrite with len; lia).
  rewrite pointer_at; [|lia|rewrite E1; apply AlignOffset_id; [lia|Z.to_euclidean_division_equations; lia]].
  cbn [bind]. rewrite (app_assoc (a ++ _)).
  assert (len ((a ++ le_put 4 (len l)) ++ le_put 4 buffer) = len a + 8) as E2 by (autorewrite with len; lia).
  rewrite E1. replace (len a + 4 + 4) with (len a + 8) by lia.
  destruct (Z.eqb_spec buffer 0); [lia|]. destruct (Z.ltb_spec 0 (len l)) as [_|Hz].
  2: { assert (len l = 0) as E by lia. by apply len_0_nil in E. }
  cbn [negb andb]. subst t. rewrite <- E2.
  rewrite DecodeShareInfo1Array_text; [done|rewrite E2; Z.to_euclidean_division_equations; lia|done..].
Qed.

(** The fields after the shares, read from the unaligned end of the strings. *)
Lemma reply_tail (body : bytes) total resume (shares : list SrvShareInfo1) entries :
  0 <= total < 2 ^ 32 -> 0 <= resume < 2 ^ 32 -> len body mod 2 = 0 ->
  entries <= total_read (len body) total ->
  let data := body ++ replicate (padding (len body)) Byte.x00 ++
    le_put 4 total ++ le_put 4 resume ++ (if resume =? 0 then [] else le_put 4 0) ++ le_put 4 0 in
  (let! (totalEntries, offset) := field32 "srvsvc: response too short for total entries" data (len body) in
   if totalEntries <? entries
   then Err (Errorf "srvsvc: invalid response: totalEntries=%d < entriesRead=%d") else
   let! (resumeHandlePtr, offset) :=
     pointer_field "srvsvc: failed to read resume handle pointer: %w" data offset in
   let! offset :=
     if negb (resumeHandlePtr =? 0) then
       if len data <? offset + 4 then Err (Errorf "srvsvc: response too short for resume handle")
       else Ok (offset + 4)
     else Ok offset in
   let! (returnCode, _) := field32 "srvsvc: response too short for return code" data offset in
   if negb (returnCode =? 0) then Err (Errorf "srvsvc: NetShareEnumAll failed with error code: 0x%08x") else
   Ok shares) = Ok shares.
Proof.
  intros Ht Hr Hb He data. subst data. rewrite total_at by done. cbn [bind].
  destruct (Z.ltb_spec (total_read (len body) total) entries); [lia|].
  pose proof (len_nonneg body).
  set (pre := (body ++ replicate (padding (len body)) Byte.x00) ++ le_put 4 total).
  assert (AlignOffset (len body + 4) 4 = len pre) as Ep.
  { subst pre. rewrite !len_app, len_replicate, len_le_put.
    unfold AlignOffset. cbn [Z.eqb]. rewrite Z.rem_mod_nonneg by lia.
    destruct (padding_even (len body)) as [[-> E]|[-> E]]; [lia|done|..].
    - replace ((len body + 4) mod 4) with 0 by (Z.to_euclidean_division_equations; lia). cbn. lia.
    - replace ((len body + 4) mod 4) with 2 by (Z.to_euclidean_division_equations; lia). cbn. lia. }
  set (tail := (if resume =? 0 then [] else le_put 4 0) ++ le_put 4 0).
  assert (body ++ replicate (padding (len body)) Byte.x00 ++ le_put 4 total ++ le_put 4 resume ++ tail
          = pre ++ le_put 4 resume ++ tail) as -> by (subst pre; by rewrite <- !app_assoc).
  rewrite pointer_at by done. cbn [bind]. pose proof (len_nonneg pre).
  subst tail. destruct (Z.eqb_spec resume 0) as [->|]; cbn [negb bind].
  - cbn [app]. rewrite (app_assoc pre). replace (len pre + 4) with (len (pre ++ le_put 4 0)) by len_lia.
    by rewrite field32_end.
  - destruct (Z.ltb_spec (len (pre ++ le_put 4 resume ++ le_put 4 0 ++ le_put 4 0)) (len pre + 4 + 4)) as [Hlt|_];
      [revert Hlt; len_lia|]. cbn [bind].
    rewrite (app_assoc pre), (app_assoc (pre ++ _)).
    replace (len pre + 4 + 4) with (len ((pre ++ le_put 4 resume) ++ le_put 4 0)) by len_lia.
    by rewrite field32_end.
Qed.

Lemma share_reply_decoded l container buffer total resume :
  Forall share_ok l -> l <> [] -> len l <= total < 2 ^ 16 ->
  0 < container < 2 ^ 32 -> 0 < buffer < 2 ^ 32 -> 0 <= resume < 2 ^ 32 ->
  DecodeNetShareEnumAllResponse (share_reply l container buffer total resume) = Ok (ws_share <$> l).
Proof.
  intros Hl Hne Htot Hc Hb Hr. unfold DecodeNetShareEnumAllResponse, share_reply.
  pose proof (len_nonneg l). destruct (Z.eqb_spec buffer 0) as [|_]; [lia|].
  set (head := le_put 4 1 ++ le_put 4 1 ++ le_put 4 container ++ le_put 4 (len l) ++ le_put 4 buffer).
  assert (len head = 20) as Eh by (subst head; by autorewrite with len).
  rewrite Eh. set (body := head ++ array_text l 20).
  assert (len body mod 2 = 0) as Hbody.
  { subst body. rewrite len_app, Eh. pose proof (array_text_even l 20 ltac:(lia) eq_refl).
    Z.to_euclidean_division_equations; lia. }
  set (data := body ++ _).
  assert (exists rest, data = le_put 4 1 ++ le_put 4 1 ++ le_put 4 container ++
    le_put 4 (len l) ++ le_put 4 buffer ++ array_text l 20 ++ rest) as (rest & E).
  { subst data body head. rewrite <- !app_assoc. by eexists. }
  assert (forall m, field32 m data 0 = Ok (1, 4)) as F1
    by (intros m; rewrite E; by apply (field32_at m 1 [])).
  assert (forall m, field32 m data 4 = Ok (1, 8)) as F2
    by (intros m; rewrite E; by apply (field32_at m 1 (le_put 4 1))).
  assert (forall m, pointer_field m data 8 = Ok (container, 12)) as F3
    by (intros m; rewrite E, app_assoc; apply (pointer_at m container (le_put 4 1 ++ le_put 4 1)); [lia|done]).
  assert (share_container data 12 = Ok (ws_share <$> l, len l, len body)) as F4.
  { rewrite E, app_assoc, app_assoc.
    pose proof (share_container_text l ((le_put 4 1 ++ le_put 4 1) ++ le_put 4 container) rest buffer
      Hl Hne ltac:(lia) Hb eq_refl) as Hs. etrans; [exact Hs|].
    change (len ((le_put 4 1 ++ le_put 4 1) ++ le_put 4 container)) with 12.
    cbn [Z.add Pos.add Pos.succ]. do 2 f_equal. subst body. rewrite (len_app head), Eh. done. }
  rewrite F1. cbn [bind]. cbn [Z.eqb negb]. rewrite F2. cbn [bind]. cbn [Z.eqb Pos.eqb negb].
  rewrite F3. cbn [bind]. destruct (Z.eqb_spec container 0); [lia|]. cbn [negb].
  rewrite F4. cbn [bind]. apply reply_tail; [lia|lia|done|].
  unfold total_read. destruct (padding (len body) =? 0)%nat; [lia|].
  rewrite Z.mod_small by lia. lia.
Qed.

(** A listing with no entries has a null pointer to its array. *)
Lemma empty_reply_decoded container total resume :
  0 <= total < 2 ^ 16 -> 0 < container < 2 ^ 32 -> 0 <= resume < 2 ^ 32 ->
  DecodeNetShareEnumAllResponse (share_reply [] container 0 total resume) = Ok [].
Proof.
  intros Htot Hc Hr. unfold DecodeNetShareEnumAllResponse, share_reply. cbn [Z.eqb].
  rewrite app_nil_r. change (len (@nil wire_share)) with 0.
  set (body := le_put 4 1 ++ _). assert (len body = 20) as Eb by (subst body; by autorewrite with len).
  set (data := body ++ _).
  assert (exists rest, data = le_put 4 1 ++ le_put 4 1 ++ le_put 4 container ++
    le_put 4 0 ++ le_put 4 0 ++ rest) as (rest & E).
  { subst data body. rewrite <- !app_assoc. by eexists. }
  assert (forall m, field32 m data 0 = Ok (1, 4)) as F1
    by (intros m; rewrite E; by apply (field32_at m 1 [])).
  assert (forall m, field32 m data 4 = Ok (1, 8)) as F2
    by (intros m; rewrite E; by apply (field32_at m 1 (le_put 4 1))).
  assert (forall m, pointer_field m data 8 = Ok (container, 12)) as F3
    by (intros m; rewrite E, app_assoc; apply (pointer_at m container (le_put 4 1 ++ le_put 4 1)); [lia|done]).
  assert (share_container data 12 = Ok ([], 0, len body)) as F4.
  { unfold share_container. rewrite Eb, E, app_assoc, app_assoc.
    set (pre := (le_put 4 1 ++ le_put 4 1) ++ le_put 4 container).
    change 12 with (len pre). rewrite (field32_at _ 0 pre) by lia. cbn [bind].
    rewrite (app_assoc pre). rewrite (pointer_at _ 0 (pre ++ le_put 4 0)) by (subst pre; done || lia).
    done. }
  rewrite F1. cbn [bind]. cbn [Z.eqb negb]. rewrite F2. cbn [bind]. cbn [Z.eqb Pos.eqb negb].
  rewrite F3. cbn [bind]. destruct (Z.eqb_spec container 0); [lia|]. cbn [negb].
  rewrite F4. cbn [bind]. apply reply_tail; [cbn; lia|lia|by rewrite Eb|].
  rewrite Eb. change (total_read 20 total) with total. lia.
Qed.

(** C34: A listing of shares as a server lays it out in NDR, with any referents
    and any valid text, is decoded into exactly its shares, names and comments
    included.  An array pointer is null exactly when there are no entries
    ([empty_array_misread] shows the other case is misread), a name or a comment
    may have a null pointer only when it is empty, and the total the server
    gives is at least the number of entries and below 65536 (the total after
    strings that do not end aligned is misread: [total_misread]). *)
Theorem DecodeNetShareEnumAllResponse_shares l container buffer total resume :
  Forall share_ok l -> (buffer = 0 <-> l = []) -> len l <= total < 2 ^ 16 ->
  0 < container < 2 ^ 32 -> 0 <= buffer < 2 ^ 32 -> 0 <= resume < 2 ^ 32 ->
  DecodeNetShareEnumAllResponse (share_reply l container buffer total resume) = Ok (ws_share <$> l).
Proof.
  intros Hl [Hb0 Hb1] Htot Hc Hb Hr. destruct (decide (buffer = 0)) as [->|Hn].
  - rewrite Hb0 by done. apply empty_reply_decoded; [rewrite Hb0 in Htot by done|..]; done.
  - apply share_reply_decoded; [done|by intros ->%Hb1|lia..].
Qed.

(** ** Lemmas: protocol data units *)

Definition rpc_header (h : RpcHeader) : bytes :=
  [byte_of (rh_Version h)] ++ [byte_of (rh_VersionMinor h)] ++ [byte_of (rh_PacketType h)] ++
  [byte_of (rh_Flags h)] ++ rh_DataRep h ++ le_put 2 (rh_FragLength h) ++ le_put 2 (rh_AuthLength h) ++
  le_put 4 (rh_CallID h).

(** The fields of a header fit their types. *)
Definition rpc_header_ok (h : RpcHeader) : Prop :=
  rh_Version h = VersionMajor /\ 0 <= rh_VersionMinor h < 2 ^ 8 /\ 0 <= rh_PacketType h < 2 ^ 8 /\
  0 <= rh_Flags h < 2 ^ 8 /\ length (rh_DataRep h) = 4%nat /\ 0 <= rh_FragLength h < 2 ^ 16 /\
  0 <= rh_AuthLength h < 2 ^ 16 /\ 0 <= rh_CallID h < 2 ^ 32.

Lemma EncodeRpcHeader_eq h : length (rh_DataRep h) = 4%nat -> EncodeRpcHeader h = Ok (rpc_header h).
Proof.
  intros Hd. unfold EncodeRpcHeader, RpcHeaderSize.
  rewrite (make_zeros 16 16) by done. cbn [bind]. unfold put16, put32.
  do 4 (rewrite put8_zeros by offsets; cbn [bind]).
  rewrite copy_at_zeros by offsets. cbn [bind]. rewrite Hd.
  do 2 (rewrite put_le_zeros by offsets; cbn [bind]).
  rewrite put_le_zeros by offsets. cbn [Nat.sub replicate]. rewrite app_nil_r.
  unfold rpc_header. rewrite <- !app_assoc. done.
Qed.

Lemma len_rpc_header h : length (rh_DataRep h) = 4%nat -> len (rpc_header h) = 16.
Proof. intros Hd. unfold rpc_header. autorewrite with len. unfold len at 1. lia. Qed.

(** A header is read back from the start of any unit. *)
Lemma DecodeRpcHeader_at h (rest : bytes) :
  rpc_header_ok h -> DecodeRpcHeader (rpc_header h ++ rest) = Ok h.
Proof.
  intros (Hv & Hm & Ht & Hf & Hd & Hfr & Ha & Hc). unfold DecodeRpcHeader.
  pose proof (len_rpc_header h Hd) as Hl.
  rewrite (proj2 (Z.ltb_ge _ _)) by (rewrite len_app, Hl; unfold RpcHeaderSize; len_lia).
  unfold rpc_header. rewrite <- !app_assoc.
  assert (len (rh_DataRep h) = 4) as Hd' by (unfold len; lia).
  wire_read. unfold wrap. rewrite !Z.mod_small by (unfold VersionMajor in *; lia).
  rewrite Hv, Z.eqb_refl. cbn [negb]. destruct h; cbn in *. by subst.
Qed.

Lemma EncodeRequest_eq contextID opnum data callID :
  EncodeRequest contextID opnum data callID
  = Ok (rpc_header (mkRpcHeader 5 0 0 3 DataRepresentation (wrap 16 (24 + len data)) 0 callID) ++
        le_put 4 (len data) ++ le_put 2 contextID ++ le_put 2 opnum ++ data).
Proof.
  unfold EncodeRequest, RpcHeaderSize. cbn zeta.
  rewrite (make_zeros _ (24 + length data)) by (unfold len; lia). cbn [bind].
  rewrite EncodeRpcHeader_eq by done. cbn [bind].
  replace (16 + (8 + len data)) with (24 + len data) by lia.
  set (h := rpc_header _). assert (len h = 16) as Hh by by apply len_rpc_header.
  rewrite copy_at_zeros by offsets. cbn [bind]. cbn [app]. unfold put32, put16.
  assert (length h = 16%nat) as Hh' by (unfold len in Hh; lia). rewrite Hh'.
  do 3 (rewrite put_le_zeros by (autorewrite with len; rewrite ?Hh, ?length_le_put; lia); cbn [bind]).
  replace (24 + length data - 16 - 4 - 2 - 2)%nat with (length data) by lia.
  rewrite copy_at_if by (first [autorewrite with len; lia|lia]).
  rewrite Nat.sub_diag, app_nil_r, <- !app_assoc.
  unfold wrap at 1. by rewrite (le_put_mod 4).
Qed.

(** The server that receives a call finds the header of a request with the
    caller's call identifier, its context and operation numbers, the length of
    the stub and the stub; the fragment length is that of the whole unit up to
    64 KiB, and its low 16 bits beyond. *)
Theorem EncodeRequest_layout contextID opnum data callID :
  0 <= contextID < 2 ^ 16 -> 0 <= opnum < 2 ^ 16 -> 0 <= callID < 2 ^ 32 -> len data < 2 ^ 32 ->
  exists pdu h, EncodeRequest contextID opnum data callID = Ok pdu /\ len pdu = 24 + len data /\
    DecodeRpcHeader pdu = Ok h /\ rh_PacketType h = PacketTypeRequest /\ rh_CallID h = callID /\
    rh_FragLength h = len pdu mod 2 ^ 16 /\
    u32 pdu 16 20 = Ok (len data) /\ u16 pdu 20 22 = Ok contextID /\ u16 pdu 22 24 = Ok opnum /\
    slice pdu 24 (len pdu) = Ok data.
Proof.
  intros Hx Ho Hc Hd. rewrite EncodeRequest_eq.
  set (h := mkRpcHeader _ _ _ _ _ _ _ _). pose proof (len_rpc_header h eq_refl) as Hl.
  pose proof (len_nonneg data).
  eexists _, h. split; [reflexivity|].
  assert (len (rpc_header h ++ le_put 4 (len data) ++ le_put 2 contextID ++ le_put 2 opnum ++ data)
          = 24 + len data) as El by (autorewrite with len; lia).
  rewrite El. split; [done|].
  rewrite DecodeRpcHeader_at.
  2: { subst h. unfold rpc_header_ok, wrap. cbn [rh_Version rh_VersionMinor rh_PacketType rh_Flags
         rh_DataRep rh_FragLength rh_AuthLength rh_CallID].
       repeat split; try done; try lia; apply Z.mod_pos_bound; lia. }
  split_and!; try done; wire_read; unfold wrap; rewrite ?Z.mod_small by lia; try done.
  rewrite Hl, !len_le_put. by rewrite slice_whole by lia.
Qed.

Lemma EncodeRequest_layout_witness :
  exists pdu h, EncodeRequest 0 15 (str "stub") 7 = Ok pdu /\ len pdu = 28 /\
    DecodeRpcHeader pdu = Ok h /\ rh_PacketType h = PacketTypeRequest /\ rh_CallID h = 7 /\
    rh_FragLength h = len pdu mod 2 ^ 16 /\
    u32 pdu 16 20 = Ok 4 /\ u16 pdu 20 22 = Ok 0 /\ u16 pdu 22 24 = Ok 15 /\
    slice pdu 24 (len pdu) = Ok (str "stub").
Proof. apply (EncodeRequest_layout 0 15 (str "stub") 7); first [lia|reflexivity]. Defined.

Lemma put_items_eq items (a : bytes) :
  Forall (fun i => length (ci_InterfaceUUID i) = 16%nat /\ length (ci_TransferSyntax i) = 16%nat) items ->
  put_items (a ++ replicate (44 * length items) Byte.x00) (len a) items
  = Ok (a ++ (items ≫= fun i => le_put 2 (ci_ContextID i) ++ [byte_of 1] ++ [Byte.x00] ++
        ci_InterfaceUUID i ++ le_put 4 (ci_InterfaceVer i) ++ ci_TransferSyntax i ++
        le_put 4 (ci_SyntaxVer i))).
Proof.
  intros Hi. revert a. induction Hi as [|i items [Hu Ht] _ IH]; intros a; [done|].
  cbn [put_items length]. rewrite bind_cons. unfold put16, put32.
  assert (len (ci_InterfaceUUID i) = 16) as Hu' by (unfold len; lia).
  assert (len (ci_TransferSyntax i) = 16) as Ht' by (unfold len; lia).
  replace (44 * S (length items))%nat with (44 + 44 * length items)%nat by lia.
  rewrite put_le_zeros by (first [lia|autorewrite with len; lia]). cbn [bind].
  rewrite put8_zeros by (first [lia|autorewrite with len; lia]). cbn [bind].
  rewrite (skip_zeros 1) by lia.
  rewrite copy_at_zeros by (first [lia|autorewrite with len; lia]). cbn [bind]. rewrite Hu.
  rewrite put_le_zeros by (first [lia|autorewrite with len; lia]). cbn [bind].
  rewrite copy_at_zeros by (first [lia|autorewrite with len; lia]). cbn [bind]. rewrite Ht.
  rewrite put_le_zeros by (first [lia|autorewrite with len; lia]). cbn [bind].
  set (a' := (_ ++ le_put 4 (ci_SyntaxVer i))).
  replace (len a + 2 + 1 + 1 + 16 + 4 + 16 + 4) with (len a')
    by (subst a'; autorewrite with len; lia).
  replace (44 + 44 * length items - 2 - 1 - 1 - 16 - 4 - 16 - 4)%nat with (44 * length items)%nat by lia.
  rewrite IH. subst a'. rewrite <- !app_assoc. done.
Qed.

(** A bind request offers the interface, in its version, with NDR in the
    first context and the feature negotiation in the second, after a header
    with the length of the unit. *)
Theorem EncodeBind_layout uuid version :
  length uuid = 16%nat -> 0 <= version < 2 ^ 32 ->
  exists pdu h, EncodeBind uuid version = Ok pdu /\ len pdu = 116 /\
    DecodeRpcHeader pdu = Ok h /\ rh_PacketType h = PacketTypeBind /\ rh_FragLength h = 116 /\
    idx8 pdu 24 = Ok 2 /\
    (u16 pdu 28 30 = Ok 0 /\ slice pdu 32 48 = Ok uuid /\ u32 pdu 48 52 = Ok version /\
     slice pdu 52 68 = Ok TransferSyntaxUUID /\ u32 pdu 68 72 = Ok TransferSyntaxVersion) /\
    (u16 pdu 72 74 = Ok 1 /\ slice pdu 76 92 = Ok uuid /\ u32 pdu 92 96 = Ok version /\
     u32 pdu 112 116 = Ok 1).
Proof.
  intros Hu Hv. unfold EncodeBind, RpcHeaderSize. cbn zeta.
  change (len (bind_items uuid version)) with 2. cbn [Z.mul Z.add Pos.add Pos.mul Pos.succ Pos.add_carry].
  rewrite (make_zeros _ 116) by done. cbn [bind]. rewrite EncodeRpcHeader_eq by done. cbn [bind].
  set (h := mkRpcHeader _ _ _ _ _ _ _ _). pose proof (len_rpc_header h eq_refl) as Hl.
  assert (length (rpc_header h) = 16%nat) as Hl' by (unfold len in Hl; lia).
  rewrite copy_at_zeros by (rewrite ?Hl, ?Hl'; first [lia|done]). cbn [bind app]. rewrite Hl'.
  unfold put16, put32.
  do 3 (rewrite put_le_zeros by (first [lia|autorewrite with len; rewrite ?Hl; lia]); cbn [bind]).
  rewrite put8_zeros by (first [lia|autorewrite with len; rewrite ?Hl; lia]). cbn [bind].
  rewrite (skip_zeros 3) by lia.
  set (a := (_ ++ replicate 3 Byte.x00)).
  assert (len a = 28) as Ea by (subst a; autorewrite with len; rewrite Hl; lia).
  change (116 - 16 - 2 - 2 - 4 - 1 - 3)%nat with (44 * length (bind_items uuid version))%nat.
  replace (16 + 2 + 2 + 4 + 1 + 3) with (len a) by lia.
  rewrite put_items_eq by (repeat constructor; done). subst a.
  unfold bind_items. rewrite !bind_cons. cbn [ci_ContextID ci_InterfaceUUID ci_InterfaceVer
    ci_TransferSyntax ci_SyntaxVer].
  set (nego := raw (0x2c :: _)). assert (length nego = 16%nat) as Hn by done.
  assert (length TransferSyntaxUUID = 16%nat) as Hs by done.
  set (ndr := TransferSyntaxUUID) in *. clearbody nego ndr.
  eexists _, h. split; [reflexivity|]. rewrite <- !app_assoc.
  split. { autorewrite with len. unfold len in *. cbn [mbind list_bind length]. lia. }
  rewrite DecodeRpcHeader_at.
  2: { subst h. repeat split; try done; lia. }
  split_and!; try done; wire_read; try done; unfold wrap; by rewrite Z.mod_small.
Qed.

Lemma EncodeBind_layout_witness :
  exists pdu h, EncodeBind InterfaceUUID InterfaceVersion = Ok pdu /\ len pdu = 116 /\
    DecodeRpcHeader pdu = Ok h /\ rh_PacketType h = PacketTypeBind /\ rh_FragLength h = 116 /\
    idx8 pdu 24 = Ok 2 /\
    (u16 pdu 28 30 = Ok 0 /\ slice pdu 32 48 = Ok InterfaceUUID /\ u32 pdu 48 52 = Ok InterfaceVersion /\
     slice pdu 52 68 = Ok TransferSyntaxUUID /\ u32 pdu 68 72 = Ok TransferSyntaxVersion) /\
    (u16 pdu 72 74 = Ok 1 /\ slice pdu 76 92 = Ok InterfaceUUID /\ u32 pdu 92 96 = Ok InterfaceVersion /\
     u32 pdu 112 116 = Ok 1).
Proof. apply (EncodeBind_layout InterfaceUUID InterfaceVersion); [reflexivity|unfold InterfaceVersion; lia]. Defined.

(** ** Lemmas: absence of panics *)

Lemma AlignOffset_nonneg offset : 0 <= offset -> 0 <= AlignOffset offset Align4.
Proof. intros H. pose proof (AlignOffset_4 offset H). unfold Align4. lia. Qed.

Lemma get_chars_safe b offset i n :
  0 <= offset -> 0 <= i -> offset + (i + Z.of_nat n) * 2 <= len b -> safe (get_chars b offset i n).
Proof.
  revert i. induction n as [|n IH]; intros i Ho Hi Hl; [done|]. cbn [get_chars].
  safe_tac. apply IH; lia.
Qed.
#[export] Hint Resolve get_chars_safe : safe.

Lemma UnmarshalConformantVaryingString_safe b offset :
  0 <= offset -> safe (UnmarshalConformantVaryingString b offset).
Proof.
  intros Ho. unfold UnmarshalConformantVaryingString. pose proof (AlignOffset_nonneg offset Ho).
  safe_tac; apply get_chars_safe; go_ranges; lia.
Qed.
#[export] Hint Resolve UnmarshalConformantVaryingString_safe : safe.

Lemma UnmarshalConformantVaryingString_offset b offset s o :
  0 <= offset -> UnmarshalConformantVaryingString b offset = Ok (s, o) -> 0 <= o.
Proof.
  intros Ho H. unfold UnmarshalConformantVaryingString in H.
  pose proof (AlignOffset_nonneg offset Ho). inv_binds; simplify_eq; go_ranges; lia.
Qed.

Lemma UnmarshalUint32_safe b : safe (UnmarshalUint32 b).
Proof.
  unfold UnmarshalUint32, get_le. change (Z.of_nat 4) with 4. by destruct (len b <? 4) eqn:E; rewrite ?E.
Qed.
#[export] Hint Resolve UnmarshalUint32_safe : safe.

Lemma field32_safe msg data offset : 0 <= offset -> safe (field32 msg data offset).
Proof.
  intros Ho. unfold field32. safe_tac.
Qed.
Lemma field32_offset msg data offset v o :
  field32 msg data offset = Ok (v, o) -> o = offset + 4.
Proof. unfold field32. intros H. inv_binds. by simplify_eq. Qed.
#[export] Hint Resolve field32_safe : safe.

Lemma UnmarshalPointer_safe data offset : 0 <= offset -> safe (UnmarshalPointer data offset).
Proof.
  intros Ho. unfold UnmarshalPointer. pose proof (AlignOffset_nonneg offset Ho). safe_tac.
Qed.
Lemma UnmarshalPointer_offset data offset v o :
  0 <= offset -> UnmarshalPointer data offset = Ok (v, o) -> 0 <= o.
Proof.
  intros Ho. unfold UnmarshalPointer. pose proof (AlignOffset_nonneg offset Ho).
  intros H'. inv_binds. simplify_eq. lia.
Qed.
Lemma pointer_field_safe msg data offset : 0 <= offset -> safe (pointer_field msg data offset).
Proof.
  intros Ho. unfold pointer_field. pose proof (UnmarshalPointer_safe data offset Ho).
  by destruct (UnmarshalPointer data offset).
Qed.
Lemma pointer_field_offset msg data offset v o :
  0 <= offset -> pointer_field msg data offset = Ok (v, o) -> 0 <= o.
Proof.
  intros Ho. unfold pointer_field. destruct (UnmarshalPointer data offset) eqn:E; try done.
  intros [= ->]. by eapply UnmarshalPointer_offset.
Qed.
#[export] Hint Resolve pointer_field_safe : safe.

Lemma share_structs_safe n data offset :
  0 <= offset ->
  safe (share_structs n data offset) /\
  forall l o, share_structs n data offset = Ok (l, o) ->
    offset + 12 * Z.of_nat n <= o /\ o <= Z.max offset (len data) /\ length l = n.
Proof.
  revert offset. induction n as [|n IH]; intros offset Ho.
  { split; [done|]. cbn. intros l o [= <- <-]. cbn. lia. }
  cbn [share_structs]. pose proof (AlignOffset_4 offset Ho) as [Ha _]. unfold Align4.
  set (o1 := AlignOffset offset 4) in *. cbn zeta. split.
  - repeat (apply safe_if; intros ?; [done|];
      rewrite field32_slice by lia; apply safe_bind; [apply safe_u32; lia|intros ? _]).
    apply safe_bind; [apply IH; lia|]. by intros [? ?].
  - intros l o H. inv_binds. destruct x5 as [l' o']. simplify_eq.
    repeat match goal with H : (_ <? _) = false |- _ => apply Z.ltb_ge in H end.
    destruct (IH (o1 + 4 + 4 + 4)) as [_ HI]; [lia|].
    destruct (HI l' o) as (? & ? & <-); [done|]. cbn [length]. lia.
Qed.

Lemma deferred_safe msg pointer data offset :
  0 <= offset -> safe (deferred msg pointer data offset) /\
  forall s o, deferred msg pointer data offset = Ok (s, o) -> 0 <= o.
Proof.
  intros Ho. unfold deferred. destruct (negb _); [|split; [done|by intros s o [= <- <-]]].
  pose proof (UnmarshalConformantVaryingString_safe data offset Ho) as Hs.
  destruct (UnmarshalConformantVaryingString data offset) as [[s' o']| |] eqn:E; try done.
  split; [done|]. intros s o [= <- <-]. by eapply UnmarshalConformantVaryingString_offset.
Qed.

Lemma share_strings_safe l data offset :
  0 <= offset -> safe (share_strings l data offset) /\
  forall r o, share_strings l data offset = Ok (r, o) -> 0 <= o /\ length r = length l.
Proof.
  revert offset. induction l as [|[[np t] cp] l IH]; intros offset Ho.
  { split; [done|]. by intros r o [= <- <-]. }
  cbn [share_strings].
  destruct (deferred_safe "srvsvc: failed to decode share %d name: %w" np data offset Ho) as [Hs Hn].
  destruct (deferred _ np data offset) as [[name o1]| |]; [cbn [bind]|done|done].
  specialize (Hn name o1 eq_refl).
  destruct (deferred_safe "srvsvc: failed to decode share %d comment: %w" cp data o1 Hn) as [Hs2 Hc].
  destruct (deferred _ cp data o1) as [[comment o2]| |]; [cbn [bind]|done|done].
  destruct (IH o2 (Hc comment o2 eq_refl)) as [Hs3 Hr].
  destruct (share_strings l data o2) as [[shares o3]| |]; [cbn [bind]|done|done].
  split; [done|]. intros r o [= <- <-]. destruct (Hr shares o3 eq_refl). cbn [length]. lia.
Qed.

Lemma share_array_header_safe data offset count :
  0 <= offset -> safe (share_array_header data offset count) /\
  forall o, share_array_header data offset count = Ok o -> offset + 4 <= o.
Proof.
  intros Ho. unfold share_array_header. pose proof (AlignOffset_4 offset Ho) as [Ha _]. unfold Align4.
  split; [safe_tac|]. intros o H. inv_binds. simplify_eq. lia.
Qed.

Lemma DecodeShareInfo1Array_safe data offset count :
  0 <= offset -> 0 <= count -> safe (DecodeShareInfo1Array data offset count) /\
  forall r o, DecodeShareInfo1Array data offset count = Ok (r, o) ->
    0 <= o /\ len r = count /\ 12 * len r <= len data.
Proof.
  intros Ho Hc. unfold DecodeShareInfo1Array. destruct (Z.eqb_spec count 0) as [->|Hne].
  { split; [done|]. intros r o [= <- <-]. pose proof (len_nonneg data). change (len (@nil SrvShareInfo1)) with 0. lia. }
  destruct (share_array_header_safe data offset count Ho) as [Hs1 H1].
  destruct (share_array_header data offset count) as [o1| |]; [cbn [bind]|done|done].
  specialize (H1 o1 eq_refl).
  destruct (share_structs_safe (Z.to_nat count) data o1) as [Hs2 H2]; [lia|].
  destruct (share_structs (Z.to_nat count) data o1) as [[l o2]| |]; [cbn [bind]|done|done].
  destruct (H2 l o2 eq_refl) as (Hlo & Hhi & Hl).
  destruct (share_strings_safe l data o2) as [Hs3 H3]; [lia|]. split; [done|].
  intros r o Hr. destruct (H3 r o Hr) as [? Hlen]. unfold len in *. lia.
Qed.

Lemma share_container_safe data offset :
  0 <= offset -> safe (share_container data offset) /\
  forall l n o, share_container data offset = Ok (l, n, o) -> 0 <= o /\ 12 * len l <= len data.
Proof.
  intros Ho. unfold share_container. pose proof (len_nonneg data).
  pose proof (field32_safe "srvsvc: response too short for entries read" data offset Ho) as Hs1.
  destruct (field32 _ data offset) as [[n o1]| |] eqn:E1; [cbn [bind]|done|done].
  assert (0 <= n) as Hn.
  { unfold field32 in E1. inv_binds. simplify_eq. unfold UnmarshalUint32 in *.
    destruct (_ <? 4); simplify_eq; try lia;
      match goal with H : get_le _ _ = Ok _ |- _ => apply get_le_range in H; lia end. }
  apply field32_offset in E1 as ->.
  pose proof (pointer_field_safe "srvsvc: failed to read buffer pointer: %w" data (offset + 4) ltac:(lia)) as Hs2.
  destruct (pointer_field _ data (offset + 4)) as [[b o2]| |] eqn:E2; [cbn [bind]|done|done].
  apply pointer_field_offset in E2; [|lia].
  destruct (negb (b =? 0) && (0 <? n)).
  - destruct (DecodeShareInfo1Array_safe data o2 n E2 Hn) as [Hs3 H3].
    destruct (DecodeShareInfo1Array data o2 n) as [[r o]| |]; [|done|done].
    split; [done|]. intros l n' o' [= <- <- <-]. destruct (H3 r o eq_refl) as (? & ? & ?). lia.
  - split; [done|]. intros l n' o' [= <- <- <-]. change (len (@nil SrvShareInfo1)) with 0. lia.
Qed.

(** No reply of a server makes the decoder of share listings panic, and a
    listing it accepts has no more shares than the reply has room for. *)
Theorem DecodeNetShareEnumAllResponse_total data :
  safe (DecodeNetShareEnumAllResponse data) /\
  forall l, DecodeNetShareEnumAllResponse data = Ok l -> 12 * len l <= len data.
Proof.
  unfold DecodeNetShareEnumAllResponse. pose proof (len_nonneg data).
  pose proof (field32_safe "srvsvc: response too short for level field" data 0 ltac:(lia)) as Hs1.
  destruct (field32 _ data 0) as [[lv o1]| |] eqn:E1; [cbn [bind]|done|done].
  apply field32_offset in E1 as ->. destruct (negb (lv =? 1)); [done|].
  pose proof (field32_safe "srvsvc: response too short for infostruct level" data (0 + 4) ltac:(lia)) as Hs2.
  destruct (field32 _ data (0 + 4)) as [[il o2]| |] eqn:E2; [cbn [bind]|done|done].
  apply field32_offset in E2 as ->. destruct (negb (il =? lv)); [done|].
  pose proof (pointer_field_safe "srvsvc: failed to read container pointer: %w" data (0 + 4 + 4) ltac:(lia)) as Hs3.
  destruct (pointer_field _ data (0 + 4 + 4)) as [[c o3]| |] eqn:E3; [cbn [bind]|done|done].
  apply pointer_field_offset in E3; [|lia].
  assert (exists r, (if negb (c =? 0) then share_container data o3 else Ok ([], 0, o3)) = r /\ safe r /\
    forall l n o, r = Ok (l, n, o) -> 0 <= o /\ 12 * len l <= len data) as (r & -> & Hs4 & H4).
  { eexists. split; [reflexivity|]. destruct (negb (c =? 0)); [by apply share_container_safe|].
    split; [done|]. intros l n o [= <- <- <-]. change (len (@nil SrvShareInfo1)) with 0. lia. }
  destruct r as [[[l n] o4]| |]; [cbn [bind]|done|done].
  destruct (H4 l n o4 eq_refl) as [Ho4 Hl].
  split.
  - apply safe_bind; [auto with safe|]. intros [tot o5] ->%field32_offset.
    apply safe_if; intros _; [done|].
    apply safe_bind; [apply pointer_field_safe; lia|]. intros [res o6] Ho6%pointer_field_offset; [|lia].
    apply safe_bind; [safe_tac|]. intros o7 H7.
    assert (0 <= o7) by (destruct (negb (res =? 0)); [destruct (len data <? o6 + 4)|]; simplify_eq; lia).
    apply safe_bind; [auto with safe|]. intros [rc o8] _. by destruct (negb (rc =? 0)).
  - intros l' H'. apply bind_Ok in H' as ([tot o5] & _ & H'). destruct (tot <? n); [done|].
    apply bind_Ok in H' as ([res o6] & _ & H'). apply bind_Ok in H' as (o7 & _ & H').
    apply bind_Ok in H' as ([rc o8] & _ & H'). destruct (negb (rc =? 0)); [done|]. by injection H' as <-.
Qed.

Lemma copy_of_slice_bind {B} (l : bytes) n lo hi (f : bytes -> res B) :
  0 <= n -> hi = lo + n ->
  (let! buf := make n in let! s := slice l lo hi in let! b := copy_at buf 0 (len buf) s in f b)
  = (let! s := slice l lo hi in f s).
Proof.
  intros Hn Hh. pose proof (copy_of_slice l n lo hi Hn Hh) as E.
  rewrite make_ok in * by done. cbn [bind] in *.
  destruct (slice l lo hi); cbn [bind] in *; [by rewrite E|done..].
Qed.

(** The replies to a bind, a call and a fault. *)
Lemma DecodeRpcHeader_safe data : safe (DecodeRpcHeader data).
Proof. unfold DecodeRpcHeader, RpcHeaderSize. safe_tac. Qed.

Lemma rem_4 offset : 0 <= offset -> 0 <= Z.rem offset 4 < 4.
Proof. intros H. rewrite Z.rem_mod_nonneg by lia. by apply Z.mod_pos_bound. Qed.

Lemma rpc_decoders_total data :
  safe (DecodeBindAck data) /\ safe (DecodeResponse data) /\ safe (DecodeFault data).
Proof.
  pose proof (DecodeRpcHeader_safe data) as Hs. pose proof (len_nonneg data).
  unfold DecodeBindAck, DecodeResponse, DecodeFault, RpcHeaderSize.
  destruct (DecodeRpcHeader data) as [h| |]; [|done|done]. split_and!; cbn zeta.
  - apply safe_if; intros _; [done|]. apply safe_if; intros H1; [done|].
    apply safe_bind; [apply safe_u16; lia|]. intros n Hn%u16_range.
    set (o := 16 + 8 + 2 + n). pose proof (rem_4 o ltac:(lia)).
    set (o' := if negb (Z.rem o 4 =? 0) then _ else _).
    assert (0 <= o') by (subst o'; destruct (negb _); lia). clearbody o'. safe_tac.
  - apply safe_if; intros _; [done|]. apply safe_if; intros H1; [done|].
    rewrite copy_of_slice_bind by lia. safe_tac.
  - safe_tac.
Qed.

(** ** Lemmas: the call *)

Lemma append_u32s_eq buf vs : append_u32s buf vs = Ok (buf ++ (vs ≫= le_put 4)).
Proof.
  revert buf. induction vs as [|v vs IH]; intros buf; cbn [append_u32s]; [by rewrite app_nil_r|].
  rewrite MarshalUint32_eq. cbn [bind]. rewrite IH, bind_cons. by rewrite app_assoc.
Qed.

Lemma Pad_4 buf : Pad buf Align4 = Ok (buf ++ replicate (padding (len buf)) Byte.x00).
Proof.
  unfold Pad, Align4. rewrite AlignOffset_padding by apply len_nonneg.
  replace (len buf + Z.of_nat (padding (len buf)) - len buf) with (Z.of_nat (padding (len buf))) by lia.
  destruct (Z.ltb_spec 0 (Z.of_nat (padding (len buf)))).
  - rewrite make_ok by lia. cbn [bind]. by rewrite Nat2Z.id.
  - assert (padding (len buf) = 0%nat) as -> by lia. by rewrite app_nil_r.
Qed.

(** The server that receives a NetShareEnumAll call reads the name of the
    server in UNC form from the string after the first pointer, and from the
    next aligned offset on the level (twice), an empty container, the preferred
    length and a null resume handle. *)
Theorem EncodeNetShareEnumAllRequest_read name :
  ValidString (unc_name name) -> len (ndr_units (unc_name name)) < 2 ^ 32 ->
  exists stub o, EncodeNetShareEnumAllRequest name = Ok stub /\
    u32 stub 0 4 = Ok 0x00020000 /\
    UnmarshalConformantVaryingString stub 4 = Ok (unc_name name, o) /\
    slice stub (AlignOffset o 4) (len stub)
    = Ok ([1; 1; 0x00020004; 0; 0; 0xFFFFFFFF; 0x00020008; 0] ≫= le_put 4).
Proof.
  intros Hv Hn. unfold EncodeNetShareEnumAllRequest.
  rewrite MarshalConformantVaryingString_eq. cbn [bind]. rewrite append_u32s_eq. cbn [bind].
  rewrite Pad_4. cbn [bind]. rewrite append_u32s_eq. cbn [app]. rewrite bind_cons, app_nil_r.
  set (s := ndr_string (unc_name name)). set (fields := [_; _; _; _; _; _; _; _] ≫= _).
  set (buf := le_put 4 0x00020000 ++ s).
  set (p := replicate (padding (len buf)) Byte.x00).
  eexists _, _. split; [reflexivity|].
  split. { subst buf. rewrite <- !app_assoc. wire_read. done. }
  split.
  { subst buf. rewrite <- !app_assoc.
    pose proof (UnmarshalConformantVaryingString_at (le_put 4 0x00020000) [] (p ++ fields)
      (unc_name name) eq_refl Hv Hn) as H. exact H. }
  change (ndr_string (unc_name name)) with s.
  replace (len (le_put 4 0x00020000) + len (@nil byte) + len s)
    with (len buf) by (subst buf; autorewrite with len; lia).
  rewrite AlignOffset_padding by apply len_nonneg.
  apply slice_suffix; [subst p; autorewrite with len; lia|by rewrite len_app].
Qed.

Lemma EncodeNetShareEnumAllRequest_read_witness :
  exists stub o, EncodeNetShareEnumAllRequest (str "server") = Ok stub /\
    u32 stub 0 4 = Ok 0x00020000 /\
    UnmarshalConformantVaryingString stub 4 = Ok (str "\\server", o) /\
    slice stub (AlignOffset o 4) (len stub)
    = Ok ([1; 1; 0x00020004; 0; 0; 0xFFFFFFFF; 0x00020008; 0] ≫= le_put 4).
Proof. apply (EncodeNetShareEnumAllRequest_read (str "server")); reflexivity. Defined.

(** The stub of a server's response is handed over whole. *)
Lemma DecodeResponse_stub h (body stub : bytes) :
  rpc_header_ok h -> rh_PacketType h = PacketTypeResponse -> len body = 8 ->
  DecodeResponse (rpc_header h ++ body ++ stub) = Ok (stub, 0).
Proof.
  intros Hh Ht Hb. unfold DecodeResponse. rewrite DecodeRpcHeader_at, Ht by done.
  cbn [negb Z.eqb Pos.eqb PacketTypeResponse]. unfold RpcHeaderSize. cbn zeta.
  pose proof (len_rpc_header h ltac:(apply Hh)) as Hl. pose proof (len_nonneg stub).
  assert (len (rpc_header h ++ body ++ stub) = 24 + len stub) as El by (rewrite !len_app; lia).
  rewrite (proj2 (Z.ltb_ge _ _)) by lia. rewrite copy_of_slice_bind by lia.
  rewrite app_assoc, slice_suffix by (rewrite ?len_app; lia). done.
Qed.

(** ** UUIDs *)

Definition hexchar (v : Z) : byte := if v <? 10 then byte_of (0x30 + v) else byte_of (0x57 + v).
Definition hex (b : byte) : bytes := [hexchar (u8 b / 16); hexchar (u8 b mod 16)].

(** The text of a UUID in its wire format: three little-endian groups, then two
    groups of bytes in order. *)
Definition print_uuid (u : bytes) : bytes :=
  match u with
  | [a; b; c; d; e; f; g; h; i; j; k; l; m; n; o; p] =>
    let dash := [Byte.x2d] in
    hex d ++ hex c ++ hex b ++ hex a ++ dash ++ hex f ++ hex e ++ dash ++ hex h ++ hex g ++ dash ++
    hex i ++ hex j ++ dash ++ hex k ++ hex l ++ hex m ++ hex n ++ hex o ++ hex p
  | _ => []
  end.

Lemma hexdigit_hexchar v : 0 <= v < 16 -> hexdigit (hexchar v) = Some v.
Proof.
  intros H. unfold hexchar, hexdigit.
  destruct (Z.ltb_spec v 10); rewrite u8_byte_of, Z.mod_small by lia;
    repeat case_match; try f_equal; lia.
Qed.

Lemma Sscanf_hex b : Sscanf_02x (hex b) = Ok (u8 b).
Proof.
  unfold hex, Sscanf_02x. pose proof (u8_range b).
  rewrite !hexdigit_hexchar by (Z.to_euclidean_division_equations; lia).
  f_equal. Z.to_euclidean_division_equations; lia.
Qed.

(** Parsing the text of a UUID gives the UUID in wire format. *)
Theorem ParseUUID_print u : length u = 16%nat -> ParseUUID (print_uuid u) = Ok u.
Proof.
  intros Hu. do 17 (destruct u as [|? u]; try done). clear Hu.
  assert (forall b, Sscanf_02x [hexchar (u8 b / 16); hexchar (u8 b mod 16)] = Ok (u8 b)) as H
    by apply Sscanf_hex.
  cbv -[Sscanf_02x hexchar u8 Z.div Z.modulo byte_of].
  repeat (rewrite H; cbv -[Sscanf_02x hexchar u8 Z.div Z.modulo byte_of]).
  by rewrite !byte_of_u8.
Qed.

(** ** Text received *)

Lemma get_units_range bs i n ws :
  get_units bs i n = Ok ws -> Forall (fun w => 0 <= w < 2 ^ 16) ws.
Proof.
  revert i ws. induction n as [|n IH]; intros i ws; cbn [get_units]; [by intros [= <-]|].
  intros H. inv_binds. simplify_eq. constructor; [by eapply u16_range|by eapply IH].
Qed.

Lemma get_chars_range b o i n ws :
  get_chars b o i n = Ok ws -> Forall (fun w => 0 <= w < 2 ^ 16) ws.
Proof.
  revert i ws. induction n as [|n IH]; intros i ws; cbn [get_chars]; [by intros [= <-]|].
  intros H. inv_binds. simplify_eq. constructor; [by eapply u16_range|by eapply IH].
Qed.

Lemma slice_Forall {A} (P : A -> Prop) l lo hi s : slice l lo hi = Ok s -> Forall P l -> Forall P s.
Proof.
  unfold slice. destruct (_ && _); [|done]. intros [= <-] H. by apply Forall_take, Forall_drop.
Qed.

(** The strings made of decoded code units are valid text, whatever the server
    sends: UTF-16 text ([DecodeToString], the names of listings) and the strings
    of an RPC reply; unpaired surrogates are replaced.  (OEM strings, as in the
    session set-up and in RAP, are the bytes sent.) *)
Lemma decoded_units_valid b :
  (forall s, DecodeToString b = Ok s -> ValidString s) /\
  (forall offset s o, UnmarshalConformantVaryingString b offset = Ok (s, o) -> ValidString s).
Proof.
  split.
  - intros s. unfold DecodeToString. destruct (len b =? 0); [by intros [= <-]|].
    rewrite bind_Ok. intros (ws & Hws%get_units_range & H). rewrite bind_Ok in H.
    destruct H as (ws' & H & [= <-]). apply string_of_runes_valid, utf16_Decode_scalar.
    inv_binds; simplify_eq; try done. by eapply slice_Forall.
  - intros offset s o H. unfold UnmarshalConformantVaryingString in H.
    inv_binds; simplify_eq; apply string_of_runes_valid;
      match goal with H : get_chars _ _ _ _ = Ok _ |- _ =>
        apply get_chars_range, utf16_Decode_scalar in H end; try done; by eapply slice_Forall.
Qed.

Lemma ParseUUID_print_witness :
  ParseUUID (str "4b324fc8-1670-01d3-1278-5a47bf6ee188") = Ok InterfaceUUID.
Proof. apply (ParseUUID_print InterfaceUUID). reflexivity. Defined.

(** Two shares, the second with a comment. *)
Definition two_shares : list wire_share :=
  [ mkWireShare (mkSrvShare (str "IPC$") 0x80000003 []) 0x20004 0;
    mkWireShare (mkSrvShare (str "Public") 0 (str "files")) 0x20008 0x2000c ].

Lemma DecodeNetShareEnumAllResponse_shares_witness :
  DecodeNetShareEnumAllResponse (share_reply two_shares 0x20000 0x20001 2 0x20010)
  = Ok (ws_share <$> two_shares).
Proof.
  apply DecodeNetShareEnumAllResponse_shares; try (change (len two_shares) with 2; lia); [|by split].
  repeat constructor; cbn [ws_share ws_name_ref ws_comment_ref ss_Type ss_Name ss_Comment];
    first [lia|reflexivity|discriminate].
Defined.

(** ** Where the decoders do not do what they mean to *)

(** The padding after the strings is not skipped before the total is read: a
    total below the number of entries, which is refused when the strings end
    aligned, is accepted when they do not. *)
Lemma total_misread :
  let odd := mkWireShare (mkSrvShare (str "ab") 0 []) 0x20004 0 in
  let even := mkWireShare (mkSrvShare (str "abc") 0 []) 0x20004 0 in
  DecodeNetShareEnumAllResponse (share_reply [odd; odd] 1 1 1 0) = Ok (ws_share <$> [odd; odd]) /\
  DecodeNetShareEnumAllResponse (share_reply [even; even] 1 1 1 0)
  = Err (Errorf "srvsvc: invalid response: totalEntries=%d < entriesRead=%d").
Proof. vm_compute. by split. Qed.

(** An empty array whose pointer is not null is not read at all, and the fields
    after it are misread. *)
Lemma empty_array_misread :
  DecodeNetShareEnumAllResponse (share_reply [] 0x20000 0x20004 0 0x20008)
  = Err (Errorf "srvsvc: NetShareEnumAll failed with error code: 0x%08x").
Proof. by vm_compute. Qed.

(** The count of a listing is only compared with another number of the reply
    before slices for that many shares are allocated. *)
Lemma count_not_bounded :
  share_array_header (le_put 4 0xFFFFFFFF) 0 0xFFFFFFFF = Ok 4.
Proof. by vm_compute. Qed.

(** A first fragment of a longer response is taken for the whole. *)
Lemma fragment_accepted :
  let h := mkRpcHeader 5 0 PacketTypeResponse PFCFirstFrag DataRepresentation 4280 0 1 in
  DecodeResponse (rpc_header h ++ replicate 8 Byte.x00 ++ str "part") = Ok (str "part", 0).
Proof. by vm_compute. Qed.

(** A digit that is none is skipped: [c?] is read as [0c]. *)
Lemma malformed_uuid_accepted :
  ParseUUID (str "4b324fc?-1670-01d3-1278-5a47bf6ee188")
  = Ok (byte_of 0x0c :: drop 1 InterfaceUUID).
Proof. by vm_compute. Qed.
