(* ===== verification/Listing.v ===== *)
(** * Listing directories ([internal/client/file.go], [session.go])

    A search: FIND_FIRST2, then FIND_NEXT2 as long as the server says there is
    more.  [readdirAll] of the client layer and [ReadDir] of the public API run the
    same search and differ in how they report errors ([find_errors]).  [Readdir]
    pages through the result by the position of the open directory. *)

From S2P Require Export File.

(** ** Constants *)

Definition TRANS2_FIND_FIRST2 : Z := 0x0001.
Definition TRANS2_FIND_NEXT2 : Z := 0x0002.
Definition SMB_FIND_CLOSE_AT_EOS : Z := 0x0002.
Definition SMB_FIND_CONTINUE_FROM_LAST : Z := 0x0008.
Definition SMB_SEARCH_ATTRIBUTE_HIDDEN : Z := 0x0002.
Definition SMB_SEARCH_ATTRIBUTE_SYSTEM : Z := 0x0004.
Definition SMB_SEARCH_ATTRIBUTE_DIRECTORY : Z := 0x0010.
Definition findRequestBatchSize : Z := 100.

(** How the steps of a search report their errors. *)
Record find_errors := mkFindErrors {
  fe_encode : error -> error;
  fe_first : error -> error;
  fe_next : error -> error;
  fe_decode : error -> error;
  fe_cancelled : error -> error;
}.
Definition plain_errors : find_errors := mkFindErrors id id id id id.

Definition map_err {S A} (f : error -> error) (m : M S A) : M S A := fun s =>
  match m s with (Err e, s) => (Err (f e), s) | out => out end.

(** ** The search *)

Definition find_first_request (c : Negotiated) (pattern : bytes) : FindFirst2Request :=
  mkFindFirst2Request
    (Z.lor (Z.lor SMB_SEARCH_ATTRIBUTE_DIRECTORY SMB_SEARCH_ATTRIBUTE_HIDDEN) SMB_SEARCH_ATTRIBUTE_SYSTEM)
    findRequestBatchSize SMB_FIND_CLOSE_AT_EOS SMB_FIND_FILE_BOTH_DIRECTORY_INFO 0 pattern
    (negb (Z.land (GetCapabilities c) CAP_UNICODE =? 0)).

Definition find_next_request (c : Negotiated) (sid : Z) (pattern : bytes) : FindNext2Request :=
  mkFindNext2Request sid findRequestBatchSize SMB_FIND_FILE_BOTH_DIRECTORY_INFO 0
    (Z.lor SMB_FIND_CONTINUE_FROM_LAST SMB_FIND_CLOSE_AT_EOS) pattern
    (negb (Z.land (GetCapabilities c) CAP_UNICODE =? 0)).

Section search.
Context {T : Type} `{Transport T} `{Ctx T}.

(** The loop asks as long as the server says there is more: nothing bounds its
    passes, so [fuel] is an argument, and [Panic] when it runs out. *)
Fixpoint find_next_loop (fuel : nat) (c : Negotiated) (s : UserSession) (t : Tree) (on : find_errors)
    (pattern : bytes) (sid endOfSearch searchCount : Z) (allFiles : list FileBothDirectoryInfo)
  : M T (list FileBothDirectoryInfo) :=
  if (endOfSearch =? 0) && (0 <? searchCount) then
    match fuel with
    | O => lift Panic
    | S fuel =>
      let* cancelled := poll in
      match cancelled with
      | Some e => fail (fe_cancelled on e)
      | None =>
        let* params2 := map_err (fe_encode on)
          (lift (EncodeFindNext2 (Some (find_next_request c sid pattern)))) in
        let* resp := map_err (fe_next on) (SendTransact2 c s t TRANS2_FIND_NEXT2 params2 []) in
        let* next := map_err (fe_decode on)
          (lift (DecodeFindNext2Response (t2_Parameters resp) (t2_Data resp)
                   SMB_FIND_FILE_BOTH_DIRECTORY_INFO)) in
        find_next_loop fuel c s t on pattern sid (fx_EndOfSearch next) (fx_SearchCount next)
          (allFiles ++ fx_Files next)
      end
    end
  else ret allFiles.

Definition find_all (fuel : nat) (c : Negotiated) (s : UserSession) (t : Tree) (on : find_errors)
    (pattern : bytes) : M T (list FileBothDirectoryInfo) :=
  let* params := map_err (fe_encode on) (lift (EncodeFindFirst2 (Some (find_first_request c pattern)))) in
  let* resp := map_err (fe_first on) (SendTransact2 c s t TRANS2_FIND_FIRST2 params []) in
  let* found := map_err (fe_decode on)
    (lift (DecodeFindFirst2Response (t2_Parameters resp) (t2_Data resp)
             SMB_FIND_FILE_BOTH_DIRECTORY_INFO)) in
  find_next_loop fuel c s t on pattern (fr_SID found) (fr_EndOfSearch found) (fr_SearchCount found)
    (fr_Files found).

(** ** An open directory *)

Definition dots : list bytes := [str "."; str ".."].

Definition entry_stat (f : FileBothDirectoryInfo) : FileStat :=
  mkFileStat (fb_CreationTime f) (fb_LastAccessTime f) (fb_LastWriteTime f) (fb_ChangeTime f)
    (int64 (fb_EndOfFile f)) (int64 (fb_AllocationSize f)) (fb_FileAttributes f) (fb_FileName f).

(** The entries kept: all but [.] and [..]. *)
Definition without_dots (fs : list FileBothDirectoryInfo) : list FileBothDirectoryInfo :=
  filter (fun f => fb_FileName f ∉ dots) fs.

Definition readdirAll (fuel : nat) (c : Negotiated) (s : UserSession) (t : Tree) (pattern : bytes)
  : M T (list FileStat) :=
  let* allFiles := find_all fuel c s t plain_errors pattern in
  ret (entry_stat <$> without_dots allFiles).

(** [directory\*] *)
Definition search_pattern (name : bytes) : bytes :=
  if bool_decide (name = []) then str "\*"
  else (if bool_decide (last name = Some Byte.x5c) then name else name ++ [Byte.x5c]) ++ str "*".

(** Paging: from the position [offset] in the entries, up to [n] of them; the
    new position, the page and the error.  [offset + n] wraps around. *)
Definition page {A} (entries : list A) (offset n : Z) : res (Z * (list A * option error)) :=
  if len entries <=? offset then Ok (offset, ([], Some EOF)) else
  let endIdx := int64 (offset + n) in
  let endIdx := if len entries <? endIdx then len entries else endIdx in
  let! result := slice entries offset endIdx in
  if len entries <=? endIdx then
    if len result =? 0 then Ok (endIdx, ([], Some EOF)) else Ok (endIdx, (result, Some EOF))
  else Ok (endIdx, (result, None)).

Definition Readdir (fuel : nat) (c : Negotiated) (s : UserSession) (f : File) (n : Z)
  : M T (File * (list FileStat * option error)) :=
  match trees s !! f_tid f with
  | None => ret (f, ([], Some (Errorf "smb1: tree connection not found")))
  | Some tree =>
    let searchPattern := search_pattern (f_name f) in
    if n <=? 0 then
      try* entries := readdirAll fuel c s tree searchPattern else (fun e => (f, ([], Some e))) in
      ret (f, (entries, None))
    else
      try* entries := readdirAll fuel c s tree searchPattern else (fun e => (f, ([], Some e))) in
      let* (offset, out) := lift (page entries (f_offset f) n) in
      ret (with_offset f offset, out)
  end.
End search.

(** ** A directory server

    It answers searches for one pattern: [batches] are the replies still to give,
    each with its encoding.  It reads the requests at the offsets their fields
    hold and refuses what it did not offer. *)
Record dir_server := mkDirServer {
  ds_pattern : bytes;
  ds_unicode : bool;
  ds_sid : Z;
  ds_batches : list (list FileBothDirectoryInfo * bytes);
  ds_requests : nat;
  ds_ctx : list (option error);
}.

Definition with_batches (bs : list (list FileBothDirectoryInfo * bytes)) (d : dir_server) : dir_server :=
  mkDirServer (ds_pattern d) (ds_unicode d) (ds_sid d) bs (S (ds_requests d)) (ds_ctx d).

(** The subcommand and the parameters of a TRANS2 request. *)
Definition read_trans2 (allParams dataBytes : bytes) : res (Z * bytes) :=
  let! count := u16 allParams 18 20 in
  let! po := u16 allParams 20 22 in
  let! sub := u16 allParams 28 30 in
  let from := po - (HeaderSize + 1 + len allParams + 2) in
  let! p := slice dataBytes from (from + count) in
  Ok (sub, p).

Definition trans2_reply (params data : bytes) : Trans2Response :=
  mkTrans2Response 0 (len params) (len data) 0 (len params) 0 0 (len data) 0 0 0 0 [] 0 [] params [] data.

(** [EndOfSearch] of a reply after which [rest] is left. *)
Definition end_of_search (rest : list (list FileBothDirectoryInfo * bytes)) : Z :=
  match rest with [] => 1 | _ => 0 end.

Definition ok_header : Header := NewHeader SMB_COM_TRANSACTION2.

Definition serve_search (allParams dataBytes : bytes) (d : dir_server)
  : res (response * Trans2Response) * dir_server :=
  let ask := let! (sub, p) := read_trans2 allParams dataBytes in
             let! name := (let! b := slice p 12 (len p) in read_name (ds_unicode d) b) in
             let! sid := u16 p 0 2 in Ok (sub, name, sid) in
  match ask, ds_batches d with
  | Ok (sub, name, sid), (fs, b) :: rest =>
    if negb (bool_decide (name = ds_pattern d)) then (Err (NtStatus 0xC000000F), d) else
    if sub =? TRANS2_FIND_FIRST2 then
      (Ok (response_of ok_header [] [],
           trans2_reply (le_put 2 (ds_sid d) ++ le_put 2 (len fs) ++ le_put 2 (end_of_search rest)
                         ++ le_put 2 0 ++ le_put 2 0) b), with_batches rest d)
    else if (sub =? TRANS2_FIND_NEXT2) && (sid =? ds_sid d) then
      (Ok (response_of ok_header [] [],
           trans2_reply (le_put 2 (len fs) ++ le_put 2 (end_of_search rest) ++ le_put 2 0 ++ le_put 2 0) b),
       with_batches rest d)
    else (Err (NtStatus 0xC0000008), d)
  | _, _ => (Err (NtStatus 0xC000000F), d)
  end.

#[export] Instance dir_transport : Transport dir_server := {
  t_sendRecv h params data d := (Err (Errorf "not a search"), d);
  t_sendRecvSettled h params data d := (Err (Errorf "not a search"), d);
  t_sendRecvTransaction h params data d := serve_search params data d;
}.
#[export] Instance dir_context : Ctx dir_server := {
  ctx_poll d :=
    (hd None (ds_ctx d),
     mkDirServer (ds_pattern d) (ds_unicode d) (ds_sid d) (ds_batches d) (ds_requests d) (tl (ds_ctx d)));
}.

(** ** Searching: properties *)

(** A server reads from a TRANS2 request the subcommand and parameters sent. *)
Lemma read_trans2_request sub params data maxDataCount :
  0 <= sub < 2 ^ 16 -> 70 + len params + len data <= 2 ^ 16 ->
  exists p d, EncodeTrans2Request [sub] params data [] maxDataCount = Ok (p, d) /\
    read_trans2 p d = Ok (sub, params).
Proof.
  intros Hsub Hsize. pose proof (len_nonneg params). pose proof (len_nonneg data).
  pose proof (Z.mod_pos_bound (len params) 2 eq_refl).
  eexists _, _. split; [apply EncodeTrans2Request_eq; change (len [sub]) with 1; lia|].
  change (len [sub]) with 1. change (len (@nil byte)) with 0.
  change (63 + 2 * 1 + 0) with 65. change (65 + 65 mod 2) with 66.
  unfold read_trans2, trans2_fixed. rewrite <- !app_assoc.
  change (units_bytes [sub]) with (le_put 2 sub ++ []).
  rewrite (wrap_small 16 (len params)), (wrap_small 16 (len data)), (wrap_small 16 66) by lia.
  wire_read. rewrite (wrap_small 16 (len params)), (wrap_small 16 66), (wrap_small 16 sub) by lia. cbn [bind].
  autorewrite with len. change ([] ++ ?x) with x.
  by rewrite (slice_mid (pad 65) params) by (unfold HeaderSize; change (len (pad 65)) with 1; lia).
Qed.

Lemma get_le_put2 v rest : 0 <= v < 2 ^ 16 -> u16 (le_put 2 v ++ rest) 0 2 = Ok v.
Proof. intros H. wire_read. by rewrite wrap_small. Qed.

(** The entries of a reply, whose encoding is a listing. *)
Lemma search_entries_listing what fs b :
  listing fs b -> search_entries what b SMB_FIND_FILE_BOTH_DIRECTORY_INFO = Ok fs.
Proof.
  intros H. unfold search_entries. pose proof (listing_nonempty _ _ H).
  rewrite (proj2 (Z.ltb_lt 0 (len b))) by lia. cbn [andb Z.eqb].
  change (SMB_FIND_FILE_BOTH_DIRECTORY_INFO =? SMB_FIND_FILE_BOTH_DIRECTORY_INFO) with true. cbn [andb].
  unfold ParseFileBothDirectoryInfo.
  pose proof (parse_entries_listing fs b H (S (length b)) [] []) as E. cbn [app] in E.
  change (len (@nil byte)) with 0 in E. rewrite E by (unfold len; lia). done.
Qed.

Lemma listing_len_pos fs b : listing fs b -> 0 < len fs.
Proof. intros []; rewrite len_cons; [done|]. pose proof (len_nonneg fs0). lia. Qed.

(** A batch the server may send. *)
Definition batch_ok (p : list FileBothDirectoryInfo * bytes) : Prop := listing p.1 p.2 /\ len p.1 < 2 ^ 16.

Lemma end_of_search_range rest : 0 <= end_of_search rest < 2 ^ 16.
Proof. by destruct rest. Qed.

(** The search a server offers and the client makes. *)
Record offered (c : Negotiated) (pattern : bytes) (d : dir_server) : Prop := {
  of_pattern : ds_pattern d = pattern;
  of_unicode : ds_unicode d = negb (Z.land (capabilities c) CAP_UNICODE =? 0);
  of_nonempty : pattern <> [];
  of_valid : ds_unicode d = true -> ValidString pattern;
  of_size : len (name_bytes (ds_unicode d) pattern) <= 65000;
  of_sid : 0 <= ds_sid d < 2 ^ 16;
}.

Section served.
Context (c : Negotiated) (s : UserSession) (t : Tree) (pattern : bytes).

Lemma search_answered sub params rest r d :
  0 <= sub < 2 ^ 16 -> 70 + len params <= 2 ^ 16 ->
  (forall p q, read_trans2 p q = Ok (sub, params) ->
     serve_search p q d = (Ok (response_of ok_header [] [], r), with_batches rest d)) ->
  SendTransact2 c s t sub params [] d = (Ok r, with_batches rest d).
Proof.
  intros Hsub Hp Hserve. destruct (read_trans2_request sub params [] (transactionMaxDataCount c TransactionMaxParameterCount))
    as (p & q & E1 & E2); [done|change (len (@nil byte)) with 0; lia|].
  unfold SendTransact2, mbind_M at 1, lift. rewrite E1. unfold transaction_reply, mbind_M.
  change (t_sendRecvTransaction ?h ?a ?b d) with (serve_search a b d). by rewrite (Hserve _ _ E2).
Qed.

Lemma first_served d fs b rest :
  offered c pattern d -> ds_batches d = (fs, b) :: rest -> batch_ok (fs, b) ->
  exists params r,
    EncodeFindFirst2 (Some (find_first_request c pattern)) = Ok params /\
    SendTransact2 c s t TRANS2_FIND_FIRST2 params [] d = (Ok r, with_batches rest d) /\
    DecodeFindFirst2Response (t2_Parameters r) (t2_Data r) SMB_FIND_FILE_BOTH_DIRECTORY_INFO =
    Ok (mkFindFirst2Response (ds_sid d) (len fs) (end_of_search rest) 0 0 fs).
Proof.
  intros [Hp Hu Hne Hv Hsize Hsid] Hb [Hl Hlen]. cbn [fst snd] in *.
  pose proof (end_of_search_range rest). pose proof (len_nonneg fs).
  eexists _, _. split; [by apply EncodeFindFirst2_eq|]. cbn [ff_SearchAttributes ff_SearchCount ff_Flags
    ff_InformationLevel ff_SearchStorageType ff_FileName ff_UseUnicode find_first_request].
  unfold GetCapabilities. rewrite <- Hu. split.
  - apply search_answered; [done|autorewrite with len; lia|].
    intros p q E. unfold serve_search. rewrite E. cbn [bind]. wire_read.
    rewrite slice_whole by offsets. cbn [bind]. rewrite read_name_bytes by done. cbn [bind].
    rewrite Hb, bool_decide_true by done. reflexivity.
  - cbn [t2_Parameters t2_Data trans2_reply]. unfold DecodeFindFirst2Response.
    rewrite (proj2 (Z.ltb_ge _ _)) by (autorewrite with len; lia). rewrite <- (app_nil_r (le_put 2 0)) at 2.
    wire_read. rewrite !wrap_small by lia. by rewrite (search_entries_listing _ fs b Hl).
Qed.

Lemma next_served d fs b rest :
  offered c pattern d -> ds_batches d = (fs, b) :: rest -> batch_ok (fs, b) ->
  exists params r,
    EncodeFindNext2 (Some (find_next_request c (ds_sid d) pattern)) = Ok params /\
    SendTransact2 c s t TRANS2_FIND_NEXT2 params [] d = (Ok r, with_batches rest d) /\
    DecodeFindNext2Response (t2_Parameters r) (t2_Data r) SMB_FIND_FILE_BOTH_DIRECTORY_INFO =
    Ok (mkFindNext2Response (len fs) (end_of_search rest) 0 0 fs).
Proof.
  intros [Hp Hu Hne Hv Hsize Hsid] Hb [Hl Hlen]. cbn [fst snd] in *.
  pose proof (end_of_search_range rest). pose proof (len_nonneg fs).
  eexists _, _. split; [by apply EncodeFindNext2_eq|]. cbn [fn_SID fn_SearchCount fn_Flags
    fn_InformationLevel fn_ResumeKey fn_FileName fn_UseUnicode find_next_request].
  unfold GetCapabilities. rewrite <- Hu. split.
  - apply search_answered; [done|autorewrite with len; lia|].
    intros p q E. unfold serve_search. rewrite E. cbn [bind]. wire_read.
    rewrite slice_whole by offsets. cbn [bind]. rewrite read_name_bytes by done. cbn [bind].
    rewrite Hb, bool_decide_true by done. cbn [negb]. rewrite wrap_small, !Z.eqb_refl by lia.
    change (TRANS2_FIND_NEXT2 =? TRANS2_FIND_FIRST2) with false. reflexivity.
  - cbn [t2_Parameters t2_Data trans2_reply]. unfold DecodeFindNext2Response.
    rewrite (proj2 (Z.eqb_neq _ _)), (proj2 (Z.ltb_ge _ _)) by (autorewrite with len; lia).
    rewrite <- (app_nil_r (le_put 2 0)) at 2.
    wire_read. rewrite !wrap_small by lia. by rewrite (search_entries_listing _ fs b Hl).
Qed.

Lemma find_next_loop_served on rest : forall fuel d e n all,
  offered c pattern d -> ds_batches d = rest -> Forall batch_ok rest -> Forall (eq None) (ds_ctx d) ->
  (length rest <= fuel)%nat -> e = end_of_search rest -> (rest <> [] -> 0 < n) ->
  exists d', find_next_loop fuel c s t on pattern (ds_sid d) e n all d = (Ok (all ++ (rest ≫= fst)), d') /\
    ds_batches d' = [] /\ ds_requests d' = (ds_requests d + length rest)%nat.
Proof.
  induction rest as [|[fs b] rest IH]; intros fuel d e n all Hd Hb Hok Hctx Hfuel -> Hn.
  { exists d. rewrite app_nil_r, Nat.add_0_r. by destruct fuel. }
  apply Forall_cons in Hok as [Hfb Hok]. destruct fuel as [|fuel]; [cbn in Hfuel; lia|].
  cbn [find_next_loop end_of_search Z.eqb andb]. rewrite (proj2 (Z.ltb_lt 0 n)) by (by apply Hn).
  set (d1 := (ctx_poll d).2). assert (poll d = (Ok None, d1)) as Hpoll.
  { unfold poll, d1. cbn. by destruct (ds_ctx d) as [|x l]; [|apply Forall_cons in Hctx as [<- _]]. }
  assert (offered c pattern d1) as Hd1 by (destruct Hd; by constructor).
  destruct (next_served d1 fs b rest Hd1 Hb Hfb) as (params & r & E1 & E2 & E3).
  unfold mbind_M at 1. rewrite Hpoll. change (ds_sid d1) with (ds_sid d) in E1.
  unfold mbind_M, map_err, lift. rewrite E1, E2, E3. cbn [fx_EndOfSearch fx_SearchCount fx_Files].
  destruct (IH fuel (with_batches rest d1) (end_of_search rest) (len fs) (all ++ fs)) as (d' & E & H1 & H2);
    [by destruct Hd1; constructor|done..| |cbn in Hfuel; lia|done| |].
  { cbn. by destruct (ds_ctx d) as [|x l]; [|apply Forall_cons in Hctx as [_ ?]]. }
  { intros _. destruct Hfb as [Hl _]. by apply listing_len_pos in Hl. }
  exists d'. change (ds_sid d) with (ds_sid (with_batches rest d1)). rewrite E, <- app_assoc. split; [done|].
  split; [done|]. rewrite H2. cbn. lia.
Qed.
End served.

(** A search gets exactly the entries the server has, in its order, with one
    request for each of its batches. *)
Lemma find_all_served c s t on pattern fuel (d : dir_server) :
  offered c pattern d -> ds_batches d <> [] -> Forall batch_ok (ds_batches d) ->
  Forall (eq None) (ds_ctx d) -> (length (ds_batches d) <= fuel)%nat ->
  exists d', find_all fuel c s t on pattern d = (Ok (ds_batches d ≫= fst), d') /\ ds_batches d' = [] /\
    ds_requests d' = (ds_requests d + length (ds_batches d))%nat.
Proof.
  intros Hd Hne Hok Hctx Hfuel. destruct (ds_batches d) as [|[fs b] rest] eqn:Hb; [done|].
  apply Forall_cons in Hok as [Hfb Hok].
  destruct (first_served c s t pattern d fs b rest Hd Hb Hfb) as (params & r & E1 & E2 & E3).
  unfold find_all, mbind_M, map_err, lift. rewrite E1, E2, E3. cbn [fr_SID fr_EndOfSearch fr_SearchCount fr_Files].
  destruct (find_next_loop_served c s t pattern on rest fuel (with_batches rest d) (end_of_search rest) (len fs) fs)
    as (d' & E & H1 & H2); [by destruct Hd; constructor|done..|cbn in Hfuel; lia|done| |].
  { intros _. destruct Hfb as [Hl _]. cbn in Hl. by apply listing_len_pos in Hl. }
  exists d'. change (ds_sid d) with (ds_sid (with_batches rest d)). rewrite E. split; [done|]. split; [done|].
  rewrite H2. cbn. lia.
Qed.

(** C36: Against a server that answers a search in any number of batches, listing
    an open directory gives exactly the entries of all batches in the server's
    order, with their names, sizes, times and attributes, except [.] and [..]; it
    takes one request for each batch and reads to the end of the search. *)
Theorem readdirAll_lists c s t pattern fuel (d : dir_server) :
  offered c pattern d -> ds_batches d <> [] -> Forall batch_ok (ds_batches d) ->
  Forall (eq None) (ds_ctx d) -> (length (ds_batches d) <= fuel)%nat ->
  exists d', readdirAll fuel c s t pattern d =
    (Ok (entry_stat <$> without_dots (ds_batches d ≫= fst)), d') /\
    ds_requests d' = (ds_requests d + length (ds_batches d))%nat.
Proof.
  intros Hd Hne Hok Hctx Hfuel.
  destruct (find_all_served c s t plain_errors pattern fuel d Hd Hne Hok Hctx Hfuel) as (d' & E & _ & H).
  exists d'. split; [|done]. unfold readdirAll, mbind_M. by rewrite E.
Qed.

Definition example_dir : dir_server :=
  mkDirServer (str "dir\*") true 7
    [([example_entry 0 (str ".")], entry_bytes (example_entry 0 (str ".")));
     ([example_entry 0 (str "b")], entry_bytes (example_entry 0 (str "b")));
     ([example_entry 0 (str "a")], entry_bytes (example_entry 0 (str "a")))] 0 [].

Lemma example_batch_ok name :
  ValidString name -> last name <> Some Byte.x00 -> len (utf16le name) < 2 ^ 32 ->
  batch_ok ([example_entry 0 name], entry_bytes (example_entry 0 name)).
Proof.
  intros H1 H2 H3. split; [|done]. apply listing_last; [|by left].
  pose proof (len_nonneg (utf16le name)).
  constructor; cbn; try lia; try done; try (repeat constructor; lia).
Qed.

Lemma readdirAll_lists_witness :
  exists d', readdirAll 3 example_negotiated example_session example_tree (str "dir\*") example_dir =
    (Ok [entry_stat (example_entry 0 (str "b")); entry_stat (example_entry 0 (str "a"))], d').
Proof.
  destruct (readdirAll_lists example_negotiated example_session example_tree (str "dir\*") 3 example_dir)
    as (d' & E & _).
  - constructor; vm_compute; done.
  - done.
  - repeat (apply Forall_cons; split; [apply example_batch_ok; vm_compute; done|]). constructor.
  - constructor.
  - reflexivity.
  - exists d'. exact E.
Defined.

(** ** Paging: properties *)

Lemma page_spec {A} (entries : list A) offset n :
  0 <= offset <= len entries -> 0 < n -> len entries + n < 2 ^ 63 ->
  page entries offset n =
  if len entries =? offset then Ok (offset, ([], Some EOF))
  else Ok (Z.min (offset + n) (len entries),
           (take (Z.to_nat n) (drop (Z.to_nat offset) entries),
            if len entries <=? offset + n then Some EOF else None)).
Proof.
  intros Ho Hn Hb. unfold page. destruct (Z.eqb_spec (len entries) offset) as [<-|Hne].
  { by rewrite Z.leb_refl. }
  rewrite (proj2 (Z.leb_gt _ _)) by lia.
  assert (int64 (offset + n) = offset + n) as ->.
  { unfold int64. rewrite wrap_small by lia. by rewrite (proj2 (Z.ltb_lt _ _)) by lia. }
  cbv zeta. destruct (Z.ltb_spec (len entries) (offset + n)).
  - rewrite slice_ok by lia. cbn [bind]. rewrite Z.leb_refl.
    rewrite (proj2 (Z.leb_le _ _)) by lia. rewrite Z.min_r by lia.
    rewrite !take_ge by (rewrite length_drop; unfold len in *; lia).
    rewrite (proj2 (Z.eqb_neq _ _)); [done|]. rewrite len_drop. lia.
  - rewrite slice_ok by lia. cbn [bind]. rewrite Z.min_l by lia.
    replace (offset + n - offset) with n by lia.
    destruct (Z.leb_spec (len entries) (offset + n)); [|done].
    rewrite (proj2 (Z.eqb_neq _ _)); [done|]. rewrite len_take, len_drop. lia.
Qed.

(** Calls of [Readdir(n)] until one reports an error: the pages, and the error. *)
Fixpoint read_pages {A} (fuel : nat) (entries : list A) (offset n : Z) : res (list (list A) * error) :=
  match fuel with
  | O => Panic
  | S fuel =>
    let! (offset, (result, err)) := page entries offset n in
    match err with
    | Some e => Ok ([result], e)
    | None => let! (pages, e) := read_pages fuel entries offset n in Ok (result :: pages, e)
    end
  end.

(** Reading a directory in pages of [n] visits every entry exactly once and in
    order, no page is longer than [n], and the last call, and no earlier one,
    reports [io.EOF]. *)
Theorem pages_are_the_listing {A} (entries : list A) n offset fuel :
  0 < n -> len entries + n < 2 ^ 63 -> 0 <= offset <= len entries ->
  len entries - offset < Z.of_nat fuel ->
  exists pages, read_pages fuel entries offset n = Ok (pages, EOF) /\
    mjoin pages = drop (Z.to_nat offset) entries /\ Forall (fun p => len p <= n) pages.
Proof.
  intros Hn Hb. revert offset. induction fuel as [|fuel IH]; intros offset Ho Hf; [lia|].
  cbn [read_pages]. rewrite page_spec by done. destruct (Z.eqb_spec (len entries) offset) as [E|Hne].
  - exists [[]]. split; [done|]. split; [|by repeat constructor; rewrite len_nil; lia].
    cbn. rewrite drop_ge; [done|]. unfold len in E. lia.
  - cbn [bind]. destruct (Z.leb_spec (len entries) (offset + n)) as [Hl|Hl].
    + eexists [_]. split; [done|]. cbn. rewrite app_nil_r. split.
      * apply take_ge. rewrite length_drop. unfold len in *. lia.
      * repeat constructor. rewrite len_take, len_drop. lia.
    + destruct (IH (Z.min (offset + n) (len entries)) ltac:(lia) ltac:(lia)) as (pages & E & H1 & H2).
      rewrite E. cbn [bind]. eexists. split; [done|]. split.
      * change (mjoin (?p :: pages)) with (p ++ mjoin pages).
        rewrite H1, Z.min_l, Z2Nat.inj_add, <- drop_drop by lia. apply take_drop.
      * constructor; [|done]. rewrite len_take, len_drop. lia.
Qed.

Lemma pages_are_the_listing_witness :
  exists pages, read_pages 6 [1; 2; 3; 4; 5] 0 2 = Ok (pages, EOF) /\ mjoin pages = [1; 2; 3; 4; 5].
Proof.
  destruct (pages_are_the_listing [1; 2; 3; 4; 5] 2 0 6) as (pages & E & H & _);
    [reflexivity|vm_compute; reflexivity|vm_compute; split; discriminate|vm_compute; reflexivity|].
  exists pages. exact (conj E H).
Defined.

(** [Readdir(math.MaxInt)] after a first page: the end of the page overflows and
    the slice expression panics. *)
Lemma page_overflow : page [1; 2; 3] 1 (2 ^ 63 - 1) = Panic.
Proof. reflexivity. Qed.

(** ** A server that never ends its search

    Every reply claims an entry and more to come, and holds none.  The state
    counts the requests. *)
Record endless := mkEndless { asked : nat }.
#[export] Instance endless_transport : Transport endless := {
  t_sendRecv h params data n := (Err (Errorf "not a search"), n);
  t_sendRecvSettled h params data n := (Err (Errorf "not a search"), n);
  t_sendRecvTransaction h params data n :=
    (Ok (response_of ok_header [] [],
         trans2_reply ((if decide (asked n = 0%nat) then le_put 2 7 else []) ++ le_put 2 1 ++ le_put 2 0
                       ++ le_put 2 0 ++ le_put 2 0) []), mkEndless (S (asked n)));
}.
#[export] Instance endless_context : Ctx endless := { ctx_poll n := (None, n) }.

Lemma endless_next_loop c s t on params sid : forall fuel n all,
  (forall e, EncodeFindNext2 (Some (find_next_request c sid params)) = Ok e ->
    exists q, EncodeTrans2Request [TRANS2_FIND_NEXT2] e [] []
      (transactionMaxDataCount c TransactionMaxParameterCount) = Ok q) ->
  find_next_loop fuel c s t on params sid 0 1 all (mkEndless (S n)) = (Panic, mkEndless (S n + fuel)).
Proof.
  induction fuel as [|fuel IH]; intros n all Hq; [by rewrite Nat.add_0_r|].
  cbn [find_next_loop]. unfold mbind_M, map_err, lift, poll. cbn [ctx_poll endless_context Z.eqb Z.ltb Z.compare andb].
  pose proof (EncodeFindNext2_eq (find_next_request c sid params)) as E. rewrite E.
  destruct (Hq _ E) as [[p q] Hpq].
  match type of E with _ = Ok ?e =>
    assert (SendTransact2 c s t TRANS2_FIND_NEXT2 e [] (mkEndless (S n)) =
      (Ok (trans2_reply (le_put 2 1 ++ le_put 2 0 ++ le_put 2 0 ++ le_put 2 0) []), mkEndless (S (S n)))) as ->
      by (unfold SendTransact2, mbind_M at 1, lift; rewrite Hpq; reflexivity) end.
  cbn [t2_Parameters t2_Data trans2_reply].
  change (DecodeFindNext2Response _ _ _) with (@Ok FindNext2Response (mkFindNext2Response 1 0 0 0 [])).
  cbn [fx_EndOfSearch fx_SearchCount fx_Files]. rewrite (IH (S n) (all ++ []) Hq). do 2 f_equal. lia.
Qed.

(** However many requests are allowed, the listing makes them all: it does not
    end. *)
Lemma listing_never_ends fuel :
  readdirAll fuel example_negotiated example_session example_tree (str "\*") (mkEndless 0)
  = (Panic, mkEndless (S fuel)).
Proof.
  unfold readdirAll, mbind_M at 1, find_all, mbind_M at 1, map_err at 1, lift at 1.
  assert (exists params, EncodeFindFirst2 (Some (find_first_request example_negotiated (str "\*"))) = Ok params
    /\ SendTransact2 example_negotiated example_session example_tree TRANS2_FIND_FIRST2 params [] (mkEndless 0) =
       (Ok (trans2_reply (le_put 2 7 ++ le_put 2 1 ++ le_put 2 0 ++ le_put 2 0 ++ le_put 2 0) []), mkEndless 1))
    as (params & E1 & E2) by (eexists; split; vm_compute; reflexivity).
  rewrite E1. unfold mbind_M at 1, map_err at 1. rewrite E2. unfold mbind_M at 1, map_err at 1, lift at 1.
  cbn [t2_Parameters t2_Data trans2_reply].
  change (DecodeFindFirst2Response _ _ _) with (@Ok FindFirst2Response (mkFindFirst2Response 7 1 0 0 0 [])).
  cbn [fr_SID fr_EndOfSearch fr_SearchCount fr_Files].
  rewrite endless_next_loop; [done|]. intros e E. eexists. apply EncodeTrans2Request_eq. done.
Qed.
