(* ===== verification/Paths.v ===== *)
(** * Paths ([session.go])

    The names callers give: trimming and separators ([normalizePath]), the check
    against leaving the share ([validateFilePath]), and the UNC path of a share
    ([Mount], [validateMountPath], [uncServerName]).  The variable
    [NORMALIZE_PATH] is an argument.  From the standard library: [TrimSpace],
    [Split], [SplitN] and [net.SplitHostPort]. *)

From S2P Require Export Match.

Definition sep_byte : byte := Byte.x5c.
Definition slash_byte : byte := Byte.x2f.
Definition IsPathSeparator (c : Z) : bool := c =? PathSeparator.

(** ** Strings *)

Definition HasPrefix (s p : bytes) : bool := bool_decide (p `prefix_of` s).
Definition contains_byte (s : bytes) (b : byte) : bool := existsb (fun c => isb c b) s.

(** [strings.Split(s, sep)] for a separator of one byte. *)
Fixpoint split_on (sep : byte) (s : bytes) : list bytes :=
  match s with
  | [] => [[]]
  | c :: t =>
    if isb c sep then [] :: split_on sep t
    else match split_on sep t with
         | h :: r => (c :: h) :: r
         | [] => [[c]]
         end
  end.

(** [strings.IndexByte] and [strings.LastIndexByte]. *)
Fixpoint index_byte (s : bytes) (b : byte) : option nat :=
  match s with
  | [] => None
  | c :: t => if isb c b then Some O else S <$> index_byte t b
  end.
Fixpoint last_index (s : bytes) (b : byte) : option nat :=
  match s with
  | [] => None
  | c :: t => match last_index t b with
              | Some i => Some (S i)
              | None => if isb c b then Some O else None
              end
  end.

(** ** White space *)

(** [unicode.IsSpace] *)
Definition IsSpace (r : Z) : bool :=
  (9 <=? r) && (r <=? 13) || (r =? 0x20) || (r =? 0x85) || (r =? 0xA0) || (r =? 0x1680)
  || (0x2000 <=? r) && (r <=? 0x200A) || (r =? 0x2028) || (r =? 0x2029) || (r =? 0x202F)
  || (r =? 0x205F) || (r =? 0x3000).

(** [utf8.DecodeLastRune]: from the last byte back to one that can start a rune,
    at most four bytes; [back s n] bytes are kept in front of it. *)
Definition RuneStart (b : byte) : bool := negb (cont (u8 b)).
Fixpoint back (s : bytes) (steps start : nat) : nat :=
  match start, steps with
  | O, _ | _, O => start
  | S start', S steps =>
    match s !! start with
    | Some b => if RuneStart b then start else back s steps start'
    | None => start
    end
  end.
Definition DecodeLastRune (s : bytes) : Z * nat :=
  match last s with
  | None => (RuneError, 0%nat)
  | Some b =>
    if u8 b <? 0x80 then (u8 b, 1%nat) else
    let start := back s 3 (length s - 2) in
    let '(r, size) := DecodeRune (drop start s) in
    if (start + size =? length s)%nat then (r, size) else (RuneError, 1%nat)
  end.

(** [strings.TrimLeftFunc] and [strings.TrimRightFunc] with [unicode.IsSpace]. *)
Fixpoint TrimLeft (fuel : nat) (s : bytes) : bytes :=
  match fuel, s with
  | S fuel, _ :: _ => let '(r, w) := DecodeRune s in if IsSpace r then TrimLeft fuel (drop w s) else s
  | _, _ => s
  end.
Fixpoint TrimRight (fuel : nat) (s : bytes) : bytes :=
  match fuel, s with
  | S fuel, _ :: _ =>
    let '(r, w) := DecodeLastRune s in
    if IsSpace r then TrimRight fuel (take (length s - w) s) else s
  | _, _ => s
  end.
Definition TrimSpace (s : bytes) : bytes :=
  let s := TrimLeft (length s) s in TrimRight (length s) s.

(** ** Normalization *)

Definition normalizePath (NORMALIZE_PATH : bool) (path : bytes) : bytes :=
  let trimmed := TrimSpace path in
  if negb NORMALIZE_PATH then trimmed
  else if bool_decide (trimmed = path) && negb (contains_byte path slash_byte) then path
  else if negb (contains_byte trimmed slash_byte) then trimmed
  else to_backslash <$> trimmed.

(** ** File paths *)

(** The loop over the components; [depth] below the root. *)
Fixpoint depth_loop (components : list bytes) (depth : Z) : res Z :=
  match components with
  | [] => Ok depth
  | component :: components =>
    if bool_decide (component = []) then depth_loop components depth
    else if bool_decide (component = str ".") then depth_loop components depth
    else if bool_decide (component = str "..") then
      let depth := depth - 1 in
      if depth <? 0 then Err (InternalError "path attempts to traverse above root directory")
      else depth_loop components depth
    else depth_loop components (depth + 1)
  end.

Definition validateFilePath (path : bytes) : res () :=
  if bool_decide (path = []) then Err (InternalError "empty path") else
  if HasPrefix path [sep_byte]
  then Err (InternalError "absolute paths not allowed (use relative paths)") else
  if contains_byte path Byte.x00 then Err (InternalError "path contains null bytes") else
  if contains_byte path slash_byte
  then Err (InternalError "path contains forward slashes (must be normalized first)") else
  let! depth := depth_loop (split_on sep_byte path) 0 in
  if depth <? 0 then Err (InternalError "path attempts to traverse above root directory") else Ok ().

(** ** UNC paths *)

(** [net.SplitHostPort]: the host. *)
Definition SplitHostPort (hostport : bytes) : res bytes :=
  let colon := Byte.x3a in
  match last_index hostport colon with
  | None => Err (Errorf "missing port in address")
  | Some i =>
    if bool_decide (head hostport = Some open_byte) then
      match index_byte hostport close_byte with
      | None => Err (Errorf "missing ']' in address")
      | Some e =>
        if (S e =? length hostport)%nat then Err (Errorf "missing port in address") else
        if (S e =? i)%nat then
          if contains_byte (drop 1 hostport) open_byte then Err (Errorf "unexpected '[' in address") else
          if contains_byte (drop (S e) hostport) close_byte then Err (Errorf "unexpected ']' in address") else
          Ok (take (e - 1) (drop 1 hostport))
        else if bool_decide (hostport !! S e = Some colon) then Err (Errorf "too many colons in address")
        else Err (Errorf "missing port in address")
      end
    else
      let host := take i hostport in
      if contains_byte host colon then Err (Errorf "too many colons in address") else
      if contains_byte hostport open_byte then Err (Errorf "unexpected '[' in address") else
      if contains_byte hostport close_byte then Err (Errorf "unexpected ']' in address") else
      Ok host
  end.

Definition uncServerName (addr : bytes) : bytes :=
  match SplitHostPort addr with Ok host => host | _ => addr end.

(** [strings.SplitN(path, `\`, 2)] *)
Definition split_once (s : bytes) : bytes * option bytes :=
  match index_byte s sep_byte with
  | Some i => (take i s, Some (drop (S i) s))
  | None => (s, None)
  end.

Definition unc_prefix : bytes := [sep_byte; sep_byte].

Definition validateMountPath (path : bytes) : res () :=
  if negb (HasPrefix path unc_prefix)
  then Err (InternalError "invalid UNC path: %s (must start with \\)") else
  let! path := slice path 2 (len path) in
  match split_once path with
  | (_, None) => Err (InternalError "invalid UNC path: missing share name (format: \\server\share)")
  | (server, Some share) =>
    if bool_decide (server = []) then Err (InternalError "invalid UNC path: empty server name") else
    if bool_decide (share = []) then Err (InternalError "invalid UNC path: empty share name") else
    if contains_byte share sep_byte
    then Err (InternalError "invalid UNC path: share name contains backslash (format: \\server\share)")
    else Ok ()
  end.

(** [Mount] before it connects: the path of the share. *)
Definition mount_path (NORMALIZE_PATH : bool) (addr sharename : bytes) : res bytes :=
  let sharename := normalizePath NORMALIZE_PATH sharename in
  let sharename := if negb (contains_byte sharename sep_byte)
                   then unc_prefix ++ uncServerName addr ++ [sep_byte] ++ sharename
                   else sharename in
  let sharename := if negb (HasPrefix sharename unc_prefix) then unc_prefix ++ sharename
                   else sharename in
  let! _ := validateMountPath sharename in
  Ok sharename.

Example trim_example : TrimSpace (str "  a b " ++ [Byte.xc2; Byte.xa0]) = str "a b".
Proof. reflexivity. Qed.
Example mount_example :
  mount_path true (str "192.168.1.5:445") (str " Public ") = Ok (str "\\192.168.1.5\Public").
Proof. reflexivity. Qed.
Example mount_v6 : mount_path true (str "[fe80::1]:445") (str "Public") = Ok (str "\\fe80::1\Public").
Proof. reflexivity. Qed.

(** ** Where a path leads

    The meaning of a path of components, from the directory whose names from the
    root down are [rev st]: [None] when it leaves the share. *)
Fixpoint resolve (st components : list bytes) : option (list bytes) :=
  match components with
  | [] => Some st
  | c :: components =>
    if bool_decide (c = []) || bool_decide (c = str ".") then resolve st components
    else if bool_decide (c = str "..") then
      match st with [] => None | _ :: st => resolve st components end
    else resolve (c :: st) components
  end.

(** A name of a directory entry. *)
Definition proper (c : bytes) : Prop :=
  c <> [] /\ c <> str "." /\ c <> str ".." /\ sep_byte ∉ c /\ slash_byte ∉ c /\ Byte.x00 ∉ c.

(** ** Strings: lemmas *)

Lemma contains_byte_spec s b : contains_byte s b = true <-> b ∈ s.
Proof.
  unfold contains_byte. rewrite existsb_exists. split.
  - intros (x & Hx & E). apply isb_spec in E as ->. by apply list_elem_of_In.
  - intros H. exists b. split; [by apply list_elem_of_In|by apply isb_spec].
Qed.

Lemma contains_byte_false s b : contains_byte s b = false <-> b ∉ s.
Proof. rewrite <- not_true_iff_false, contains_byte_spec. done. Qed.

Lemma HasPrefix_spec s p : HasPrefix s p = true <-> exists t, s = p ++ t.
Proof. unfold HasPrefix. by rewrite bool_decide_eq_true. Qed.

Lemma split_on_nonempty sep s : split_on sep s <> [].
Proof. destruct s as [|c t]; [done|]. cbn. destruct (isb c sep); [done|]. by destruct (split_on sep t). Qed.

(** Joining the components with the separator gives the string back. *)
Fixpoint join (sep : byte) (l : list bytes) : bytes :=
  match l with
  | [] => []
  | [c] => c
  | c :: l => c ++ sep :: join sep l
  end.

Lemma join_split sep s : join sep (split_on sep s) = s.
Proof.
  induction s as [|c t IH]; [done|]. cbn [split_on].
  pose proof (split_on_nonempty sep t). destruct (split_on sep t) as [|h r]; [done|].
  destruct (isb c sep) eqn:E; [apply isb_spec in E as ->|]; destruct r; cbn [join] in *; by rewrite <- IH.
Qed.

Lemma split_on_elem sep s c b : c ∈ split_on sep s -> b ∈ c -> b ∈ s /\ b <> sep.
Proof.
  revert c. induction s as [|x t IH]; intros c Hc Hb; cbn [split_on] in Hc.
  { apply list_elem_of_singleton in Hc as ->. by apply elem_of_nil in Hb. }
  destruct (isb x sep) eqn:E.
  - apply elem_of_cons in Hc as [->|Hc]; [by apply elem_of_nil in Hb|].
    destruct (IH c Hc Hb). split; [by right|done].
  - pose proof (split_on_nonempty sep t). destruct (split_on sep t) as [|h r]; [done|].
    apply elem_of_cons in Hc as [->|Hc].
    + apply elem_of_cons in Hb as [->|Hb].
      * split; [by left|]. intros ->. by rewrite isb_refl in E.
      * destruct (IH h ltac:(by left) Hb). split; [by right|done].
    + destruct (IH c ltac:(by right) Hb). split; [by right|done].
Qed.

Lemma index_byte_app s b t : b ∉ s -> index_byte (s ++ b :: t) b = Some (length s).
Proof.
  induction s as [|c s IH]; intros Hb; cbn [app index_byte length]; [by rewrite isb_refl|].
  destruct (isb c b) eqn:E; [apply isb_spec in E as ->; by destruct Hb; left|].
  rewrite IH; [done|]. intros H. apply Hb. by right.
Qed.

Lemma index_byte_inv s b i : index_byte s b = Some i -> s = take i s ++ b :: drop (S i) s /\ b ∉ take i s.
Proof.
  revert i. induction s as [|c t IH]; intros i H; [done|]. cbn [index_byte] in H.
  destruct (isb c b) eqn:E.
  - injection H as <-. apply isb_spec in E as ->. split; [done|apply not_elem_of_nil].
  - destruct (index_byte t b) as [j|]; [|done]. injection H as <-.
    destruct (IH j eq_refl) as [E2 Hn]. cbn [take drop app]. split; [by f_equal|].
    intros Hb. apply elem_of_cons in Hb as [->|Hb]; [by rewrite isb_refl in E|done].
Qed.

Lemma index_byte_None s b : index_byte s b = None <-> b ∉ s.
Proof.
  induction s as [|c t IH]; cbn [index_byte]; [split; [intros _; apply not_elem_of_nil|done]|].
  destruct (isb c b) eqn:E.
  - apply isb_spec in E as ->. split; [done|]. intros H. by destruct H; left.
  - rewrite elem_of_cons. destruct (index_byte t b) as [j|]; cbn; split; try done.
    + intros H. exfalso. assert (b ∉ t) as Hn by tauto. by apply IH in Hn.
    + intros _ [->|Hb]; [by rewrite isb_refl in E|]. by apply IH in Hb.
Qed.

Lemma last_index_None s b : last_index s b = None <-> b ∉ s.
Proof.
  induction s as [|c t IH]; cbn [last_index]; [split; [intros _; apply not_elem_of_nil|done]|].
  rewrite elem_of_cons. destruct (last_index t b) as [i|]; [split; [done|]; intros H; exfalso; assert (b ∉ t) as Hn by tauto; by apply IH in Hn|].
  destruct (isb c b) eqn:E; [apply isb_spec in E as ->; split; [done|]; intros H; by destruct H; left|].
  split; [|done]. intros _ [->|Hb]; [by rewrite isb_refl in E|]. by apply IH in Hb.
Qed.

Lemma last_index_app s b t : b ∉ t -> last_index (s ++ b :: t) b = Some (length s).
Proof.
  intros Hb. induction s as [|c s IH]; cbn [app last_index length]; [|by rewrite IH].
  by rewrite (proj2 (last_index_None t b) Hb), isb_refl.
Qed.

(** ** File paths: properties *)

Lemma depth_loop_resolve st components :
  depth_loop components (len st) =
  match resolve st components with
  | Some q => Ok (len q)
  | None => Err (InternalError "path attempts to traverse above root directory")
  end.
Proof.
  revert st. induction components as [|c l IH]; intros st; [done|]. cbn [depth_loop resolve].
  destruct (bool_decide (c = [])); [apply IH|]. cbn [orb].
  destruct (bool_decide (c = str ".")); [apply IH|].
  destruct (bool_decide (c = str "..")).
  - destruct st as [|x st]; [done|]. rewrite len_cons. replace (1 + len st - 1) with (len st) by lia.
    cbv zeta. rewrite (proj2 (Z.ltb_ge _ _)) by apply len_nonneg. apply IH.
  - rewrite <- IH. f_equal. rewrite len_cons. lia.
Qed.

Lemma resolve_take st l n q : resolve st l = Some q -> exists q', resolve st (take n l) = Some q'.
Proof.
  revert st n. induction l as [|c l IH]; intros st n H; [rewrite take_nil; by exists q|].
  destruct n as [|n]; [by exists st|]. cbn [take resolve] in *.
  destruct (_ || _); [by apply IH|]. destruct (bool_decide _); [destruct st; [done|]|]; by apply IH.
Qed.

Lemma resolve_names (P : bytes -> Prop) st l q :
  (forall c, c ∈ l -> c <> [] -> c <> str "." -> c <> str ".." -> P c) ->
  Forall P st -> resolve st l = Some q -> Forall P q.
Proof.
  revert st. induction l as [|c l IH]; intros st Hl Hst H; cbn [resolve] in H; [by simplify_eq|].
  assert (forall st, Forall P st -> resolve st l = Some q -> Forall P q) as IH'.
  { intros st' Hs. apply IH; [|done]. intros c' Hc'. apply Hl. by right. }
  destruct (bool_decide_reflect (c = [])); [by eapply IH'|].
  destruct (bool_decide_reflect (c = str ".")); [by eapply IH'|]. cbn [orb] in H.
  destruct (bool_decide_reflect (c = str "..")).
  - destruct st as [|x st]; [done|]. apply Forall_cons in Hst as [_ Hst]. by eapply IH'.
  - eapply IH'; [|done]. constructor; [|done]. apply Hl; [by left|done..].
Qed.

(** C40: A path is accepted exactly when it is not empty, not absolute, free of NUL
    bytes and slashes, and never above the share's root: from the root every prefix
    of its components leads to a place in the share, named by proper file names. *)
Theorem validateFilePath_confined path :
  validateFilePath path = Ok () <->
  path <> [] /\ head path <> Some sep_byte /\ Byte.x00 ∉ path /\ slash_byte ∉ path /\
  forall n, exists q, resolve [] (take n (split_on sep_byte path)) = Some q /\ Forall proper q.
Proof.
  unfold validateFilePath.
  destruct (bool_decide_reflect (path = [])) as [|Hne]; [split; [done|tauto]|].
  assert (HasPrefix path [sep_byte] = true <-> head path = Some sep_byte) as Hp.
  { rewrite HasPrefix_spec. destruct path as [|c t]; [done|]. cbn. split; [by intros [? [= -> _]]|].
    intros [= ->]. by exists t. }
  destruct (HasPrefix path [sep_byte]); [split; [done|]; intros (_ & H & _); by destruct H; apply Hp|].
  destruct (contains_byte path Byte.x00) eqn:E2; [apply contains_byte_spec in E2; split; [done|tauto]|].
  destruct (contains_byte path slash_byte) eqn:E3; [apply contains_byte_spec in E3; split; [done|tauto]|].
  apply contains_byte_false in E2, E3. change 0 with (len (@nil bytes)) at 1. rewrite depth_loop_resolve.
  destruct (resolve [] (split_on sep_byte path)) as [q|] eqn:Eq; cbn [bind].
  - rewrite (proj2 (Z.ltb_ge _ _)) by apply len_nonneg. split; [|done]. intros _.
    split_and!; [done| |done|done|].
    { intros H. apply Hp in H. congruence. }
    intros n. destruct (resolve_take _ _ n _ Eq) as [q' Hq']. exists q'. split; [done|].
    eapply resolve_names; [|constructor|exact Hq']. intros c Hc. apply elem_of_take in Hc as (i & Hc & _).
    apply list_elem_of_lookup_2 in Hc. pose proof (split_on_elem _ _ _ sep_byte Hc) as H1.
    pose proof (split_on_elem _ _ _ slash_byte Hc). pose proof (split_on_elem _ _ _ Byte.x00 Hc).
    unfold proper. naive_solver.
  - split; [done|]. intros (_ & _ & _ & _ & H). destruct (H (length (split_on sep_byte path))) as (q & H' & _).
    rewrite firstn_all in H'. congruence.
Qed.

(** ** UNC paths: properties *)

(** The host of an address is what is left of its port, also of a bracketed
    IPv6 address. *)
Lemma uncServerName_host host port :
  Byte.x3a ∉ host ++ port -> open_byte ∉ host ++ port -> close_byte ∉ host ++ port ->
  uncServerName (host ++ Byte.x3a :: port) = host.
Proof.
  intros H1 H2 H3. rewrite elem_of_app in *. unfold uncServerName, SplitHostPort.
  rewrite last_index_app by tauto. rewrite bool_decide_false.
  2:{ destruct host as [|c t]; cbn; [done|]. intros [= ->]. apply H2. left. by left. }
  rewrite take_app_length, !(proj2 (contains_byte_false _ _)); [done|..]; rewrite ?elem_of_app, ?elem_of_cons; naive_solver.
Qed.

Lemma uncServerName_v6 host port :
  Byte.x3a ∉ port -> open_byte ∉ host ++ port -> close_byte ∉ host ++ port ->
  uncServerName (open_byte :: host ++ close_byte :: Byte.x3a :: port) = host.
Proof.
  intros H1 H2 H3. rewrite elem_of_app in *. unfold uncServerName, SplitHostPort.
  assert (last_index (open_byte :: host ++ close_byte :: Byte.x3a :: port) Byte.x3a = Some (S (S (length host)))) as ->.
  { change (open_byte :: host ++ close_byte :: Byte.x3a :: port) with ((open_byte :: host) ++ [close_byte] ++ Byte.x3a :: port).
    rewrite app_assoc, last_index_app by done. f_equal. rewrite length_app. cbn. lia. }
  rewrite bool_decide_true by done.
  assert (index_byte (open_byte :: host ++ close_byte :: Byte.x3a :: port) close_byte = Some (S (length host))) as ->.
  { apply (index_byte_app (open_byte :: host)). rewrite elem_of_cons. naive_solver. }
  rewrite (proj2 (Nat.eqb_neq _ _)) by (cbn [length]; rewrite length_app; cbn [length]; lia).
  rewrite Nat.eqb_refl. cbn [drop]. rewrite !drop_0.
  rewrite (proj2 (contains_byte_false (host ++ _) open_byte)) by (rewrite ?elem_of_app, !elem_of_cons; naive_solver).
  rewrite (proj2 (contains_byte_false (drop (S (length host)) _) close_byte)).
  2:{ rewrite drop_app_ge by lia. replace (S (length host) - length host)%nat with 1%nat by lia. cbn.
      rewrite elem_of_cons. naive_solver. }
  replace (S (length host) - 1)%nat with (length host) by lia. by rewrite take_app_length.
Qed.

Lemma split_once_app server share :
  sep_byte ∉ server -> split_once (server ++ sep_byte :: share) = (server, Some share).
Proof.
  intros H. unfold split_once. rewrite index_byte_app by done.
  rewrite take_app_length. by rewrite drop_app_ge, Nat.sub_succ_l, Nat.sub_diag by lia.
Qed.

Lemma HasPrefix_app p s : HasPrefix (p ++ s) p = true.
Proof. apply HasPrefix_spec. by exists s. Qed.

Lemma slice_after (p s : bytes) : slice (p ++ s) (len p) (len (p ++ s)) = Ok s.
Proof. apply slice_suffix; [done|apply len_app]. Qed.

Lemma validateMountPath_spec p :
  validateMountPath p = Ok () <->
  exists server share, p = unc_prefix ++ server ++ sep_byte :: share /\
    server <> [] /\ share <> [] /\ sep_byte ∉ server /\ sep_byte ∉ share.
Proof.
  unfold validateMountPath. destruct (HasPrefix p unc_prefix) eqn:E; cbn [negb].
  2:{ split; [done|]. intros (server & share & -> & _). by rewrite HasPrefix_app in E. }
  apply HasPrefix_spec in E as [t ->]. change 2 with (len unc_prefix). rewrite slice_after. cbn [bind].
  split.
  - unfold split_once. destruct (index_byte t sep_byte) as [i|] eqn:Ei; [|done].
    apply index_byte_inv in Ei as [Et Hn].
    destruct (bool_decide_reflect (take i t = [])) as [|H1]; [done|].
    destruct (bool_decide_reflect (drop (S i) t = [])) as [|H2]; [done|].
    destruct (contains_byte _ _) eqn:H3; [done|]. intros _. apply contains_byte_false in H3.
    exists (take i t), (drop (S i) t). split_and!; [by rewrite <- Et|done..].
  - intros (server & share & E & H1 & H2 & H3 & H4). apply app_inv_head in E as ->.
    rewrite split_once_app, !bool_decide_false by done. by rewrite (proj2 (contains_byte_false _ _)).
Qed.

(** A share is mounted under a path [\\server\share] or not at all, with
    neither name empty and no further separator.  A plain share name gets the
    host of the session's address, never its port; a name with its server gets the
    two leading separators when it lacks them. *)
Theorem mount_path_unc b addr name :
  let n := normalizePath b name in
  (forall p, mount_path b addr name = Ok p ->
     exists server share, p = unc_prefix ++ server ++ sep_byte :: share /\
       server <> [] /\ share <> [] /\ sep_byte ∉ server /\ sep_byte ∉ share) /\
  (forall host port, addr = host ++ Byte.x3a :: port ->
     Byte.x3a ∉ host ++ port -> open_byte ∉ host ++ port -> close_byte ∉ host ++ port ->
     host <> [] -> sep_byte ∉ host -> n <> [] -> sep_byte ∉ n ->
     mount_path b addr name = Ok (unc_prefix ++ host ++ sep_byte :: n)) /\
  (forall server share, n = server ++ sep_byte :: share \/ n = unc_prefix ++ server ++ sep_byte :: share ->
     server <> [] -> share <> [] -> sep_byte ∉ server -> sep_byte ∉ share ->
     mount_path b addr name = Ok (unc_prefix ++ server ++ sep_byte :: share)).
Proof.
  intros n. unfold mount_path. fold n. split_and!.
  - intros p H. destruct (validateMountPath _) as [[]| |] eqn:E in H; cbn [bind] in H; [|done..].
    injection H as <-. by apply validateMountPath_spec.
  - intros host port -> H1 H2 H3 Hne Hs Hn Hn2. rewrite (proj2 (contains_byte_false n sep_byte)) by done.
    rewrite uncServerName_host by done. cbn [negb]. rewrite HasPrefix_app. cbn [negb].
    rewrite (proj2 (validateMountPath_spec _)); [done|]. by exists host, n.
  - intros server share Hn H1 H2 H3 H4.
    assert (contains_byte n sep_byte = true) as ->.
    { apply contains_byte_spec. destruct Hn as [-> | ->]; rewrite !elem_of_app, elem_of_cons; tauto. }
    cbn [negb].
    assert ((if negb (HasPrefix n unc_prefix) then unc_prefix ++ n else n) = unc_prefix ++ server ++ sep_byte :: share) as ->.
    { destruct Hn as [-> | ->]; [|by rewrite HasPrefix_app].
      destruct (HasPrefix _ _) eqn:E; [|done]. apply HasPrefix_spec in E as [t E]. cbn in E.
      destruct server as [|c server]; [done|]. injection E as -> _. destruct H3. by left. }
    rewrite (proj2 (validateMountPath_spec _)); [done|]. by exists server, share.
Qed.

(** Closed facts about bytes and lists. *)
Ltac closed := first [reflexivity | discriminate | apply (bool_decide_unpack _); vm_compute; exact I].

Lemma mount_path_unc_witness :
  mount_path true (str "10.0.0.7:445") (str "media ") = Ok (str "\\10.0.0.7\media") /\
  mount_path true (str "10.0.0.7:445") (str "//nas/media") = Ok (str "\\nas\media").
Proof.
  split.
  - apply (proj1 (proj2 (mount_path_unc true (str "10.0.0.7:445") (str "media "))) (str "10.0.0.7") (str "445"));
      closed.
  - apply (proj2 (proj2 (mount_path_unc true (str "10.0.0.7:445") (str "//nas/media"))) (str "nas") (str "media"));
      [right|..]; closed.
Defined.

(** ** Normalization: properties *)

Lemma TrimLeft_done fuel s : IsSpace (DecodeRune s).1 = false -> TrimLeft fuel s = s.
Proof. intros H. destruct fuel, s; try done. cbn [TrimLeft]. destruct (DecodeRune _) as [r w]. cbn in H. by rewrite H. Qed.

Lemma TrimRight_done fuel s : IsSpace (DecodeLastRune s).1 = false -> TrimRight fuel s = s.
Proof. intros H. destruct fuel, s; try done. cbn [TrimRight]. destruct (DecodeLastRune _) as [r w]. cbn in H. by rewrite H. Qed.

Lemma TrimLeft_first fuel s : (length s <= fuel)%nat -> IsSpace (DecodeRune (TrimLeft fuel s)).1 = false.
Proof.
  revert s. induction fuel as [|fuel IH]; intros s Hf; [destruct s; [done|cbn in Hf; lia]|].
  destruct s as [|c t]; [done|]. cbn [TrimLeft]. pose proof (DecodeRune_width (c :: t) ltac:(done)) as Hw.
  destruct (DecodeRune (c :: t)) as [r w] eqn:E. cbn [snd] in Hw. destruct (IsSpace r) eqn:Es.
  - apply IH. rewrite length_drop. lia.
  - by rewrite E.
Qed.

Lemma DecodeLastRune_width s : s <> [] -> (1 <= (DecodeLastRune s).2)%nat.
Proof.
  intros Hs. unfold DecodeLastRune. destruct (last s) as [b|] eqn:El; [|by apply last_None in El].
  destruct (_ <? _); [cbn; lia|]. destruct (DecodeRune _) as [r w] eqn:E. case_match eqn:H; [|cbn; lia]. apply Nat.eqb_eq in H.
  cbn [snd]. destruct w as [|w]; [|lia]. exfalso. rewrite Nat.add_0_r in H.
  assert (forall n start, back s n start <= start)%nat as Hb.
  { intros n start. revert n. induction start as [|k IH]; intros n; [destruct n; cbn; lia|]. destruct n; cbn; [lia|].
    destruct (s !! S k); [|lia]. destruct (RuneStart _); [lia|]. specialize (IH n). lia. }
  specialize (Hb 3%nat (length s - 2)%nat). destruct s; [done|]. cbn [length] in *. lia.
Qed.

Lemma TrimRight_last fuel s : (length s <= fuel)%nat -> IsSpace (DecodeLastRune (TrimRight fuel s)).1 = false.
Proof.
  revert s. induction fuel as [|fuel IH]; intros s Hf; [destruct s; [done|cbn in Hf; lia]|].
  destruct s as [|c t]; [done|]. cbn [TrimRight]. pose proof (DecodeLastRune_width (c :: t) ltac:(done)) as Hw.
  destruct (DecodeLastRune (c :: t)) as [r w] eqn:E. cbn [snd] in Hw. destruct (IsSpace r) eqn:Es.
  - apply IH. rewrite length_take. lia.
  - by rewrite E.
Qed.

Lemma TrimRight_prefix fuel s : exists k, TrimRight fuel s = take k s.
Proof.
  revert s. induction fuel as [|fuel IH]; intros s; [exists (length s); cbn; by rewrite firstn_all; destruct s|].
  destruct s as [|c t]; [by exists 0%nat|]. cbn [TrimRight]. destruct (DecodeLastRune _) as [r w].
  destruct (IsSpace r).
  - destruct (IH (take (length (c :: t) - w) (c :: t))) as [k ->]. rewrite take_take. eauto.
  - exists (length (c :: t)). by rewrite firstn_all.
Qed.

(** Cutting a string short keeps its first rune or spoils it. *)
Lemma DecodeRune_take k s :
  DecodeRune (take k s) = DecodeRune s \/ (DecodeRune (take k s)).1 = RuneError.
Proof.
  destruct k as [|k]; [by right|]. destruct s as [|b0 t]; [by left|]. cbn [take]. unfold DecodeRune.
  destruct (_ <? _); [by left|]. destruct (first _) as [[[sz lo] hi]|]; [|by left].
  destruct t as [|b1 t]; [rewrite take_nil; by left|]. destruct k as [|k]; [by right|]. cbn [take].
  destruct (negb _); [by left|].
  destruct sz as [|[|[|[|[|sz]]]]]; try (by left).
  - destruct t as [|b2 t]; [rewrite take_nil; by left|]. destruct k; [by right|]. by left.
  - destruct t as [|b2 t]; [rewrite take_nil; by left|]. destruct k as [|k]; [by right|]. cbn [take].
    destruct t as [|b3 t]; [rewrite take_nil; by left|]. destruct k as [|k]; [by right|]. by left.
Qed.

Lemma TrimSpace_trimmed s :
  IsSpace (DecodeRune (TrimSpace s)).1 = false /\ IsSpace (DecodeLastRune (TrimSpace s)).1 = false.
Proof.
  unfold TrimSpace. set (t := TrimLeft (length s) s). split; [|by apply TrimRight_last].
  destruct (TrimRight_prefix (length t) t) as [k ->].
  destruct (DecodeRune_take k t) as [-> | ->]; [by apply TrimLeft_first|done].
Qed.

Lemma TrimSpace_id s :
  IsSpace (DecodeRune s).1 = false -> IsSpace (DecodeLastRune s).1 = false -> TrimSpace s = s.
Proof. intros H1 H2. unfold TrimSpace. rewrite TrimLeft_done by done. by apply TrimRight_done. Qed.

(** Turning slashes round moves no rune and makes no space. *)
Lemma to_backslash_high b : 0x80 <= u8 b -> to_backslash b = b.
Proof.
  intros H. unfold to_backslash. fold slash_byte. destruct (isb b slash_byte) eqn:E; [|done]. apply isb_spec in E as ->. by destruct H.
Qed.
Lemma to_backslash_low b : (u8 b <? 0x80) = true ->
  (u8 (to_backslash b) <? 0x80) = true /\ IsSpace (u8 (to_backslash b)) = IsSpace (u8 b).
Proof. intros H. unfold to_backslash. fold slash_byte. destruct (isb b slash_byte) eqn:E; [|done]. apply isb_spec in E as ->. done. Qed.
Lemma to_backslash_between lo hi b : 0x80 <= lo ->
  (lo <=? u8 (to_backslash b)) && (u8 (to_backslash b) <=? hi) = (lo <=? u8 b) && (u8 b <=? hi).
Proof.
  intros Hlo. destruct (u8 b <? 0x80) eqn:E; [|apply Z.ltb_ge in E; by rewrite to_backslash_high].
  destruct (to_backslash_low b E) as [E2 _]. apply Z.ltb_lt in E, E2.
  rewrite !(proj2 (Z.leb_gt lo _)) by lia. done.
Qed.
Lemma first_high b sz lo hi : first b = Some (sz, lo, hi) -> 0x80 <= lo.
Proof. unfold first. intros H. repeat case_match; simplify_eq; lia. Qed.

Lemma DecodeRune_backslash s :
  IsSpace (DecodeRune (to_backslash <$> s)).1 = IsSpace (DecodeRune s).1 /\
  (DecodeRune (to_backslash <$> s)).2 = (DecodeRune s).2.
Proof.
  destruct s as [|b0 t]; [done|]. rewrite fmap_cons. unfold DecodeRune.
  destruct (u8 b0 <? 0x80) eqn:E0; [destruct (to_backslash_low b0 E0) as [-> H]; by split|].
  apply Z.ltb_ge in E0 as E0'. rewrite to_backslash_high, E0 by lia.
  destruct (first (u8 b0)) as [[[sz lo] hi]|] eqn:Ef; [|by destruct t]. apply first_high in Ef.
  destruct t as [|b1 t]; [done|]. rewrite fmap_cons, to_backslash_between by done.
  destruct ((lo <=? u8 b1) && (u8 b1 <=? hi)) eqn:E1; cbn [negb]; [|done].
  rewrite (to_backslash_high b1) by lia.
  destruct sz as [|[|[|[|[|sz]]]]]; try done.
  - destruct t as [|b2 t]; [done|]. rewrite fmap_cons. unfold cont. rewrite to_backslash_between by lia.
    destruct ((0x80 <=? u8 b2) && (u8 b2 <=? 0xBF)) eqn:E2; [|done].
    rewrite (to_backslash_high b2) by lia. done.
  - destruct t as [|b2 t]; [done|]. destruct t as [|b3 t]; [done|]. rewrite !fmap_cons. unfold cont.
    rewrite !to_backslash_between by lia.
    destruct ((0x80 <=? u8 b2) && (u8 b2 <=? 0xBF) && ((0x80 <=? u8 b3) && (u8 b3 <=? 0xBF))) eqn:E2; [|done].
    rewrite (to_backslash_high b2), (to_backslash_high b3) by lia. done.
Qed.

Lemma RuneStart_backslash b : RuneStart (to_backslash b) = RuneStart b.
Proof. unfold RuneStart, cont. by rewrite to_backslash_between by lia. Qed.

Lemma back_backslash s n start : back (to_backslash <$> s) n start = back s n start.
Proof.
  revert n. induction start as [|k IH]; intros n; [by destruct n|]. destruct n as [|n]; [done|]. cbn [back].
  rewrite list_lookup_fmap. destruct (s !! S k); [|done]. cbn. by rewrite RuneStart_backslash, IH.
Qed.

Lemma DecodeLastRune_backslash s :
  IsSpace (DecodeLastRune (to_backslash <$> s)).1 = IsSpace (DecodeLastRune s).1 /\
  (DecodeLastRune (to_backslash <$> s)).2 = (DecodeLastRune s).2.
Proof.
  unfold DecodeLastRune. rewrite fmap_last. destruct (last s) as [b|]; [|done]. cbn [fmap option_fmap option_map].
  destruct (u8 b <? 0x80) eqn:E0; [destruct (to_backslash_low b E0) as [-> H]; by split|].
  apply Z.ltb_ge in E0 as E0'. rewrite to_backslash_high, E0 by lia.
  rewrite back_backslash, length_fmap, <- fmap_drop.
  destruct (DecodeRune_backslash (drop (back s 3 (length s - 2)) s)) as [H1 H2].
  destruct (DecodeRune (_ <$> _)) as [r w], (DecodeRune _) as [r' w']. cbn [fst snd] in *. subst w'.
  by destruct (_ =? _)%nat.
Qed.

Lemma TrimLeft_backslash fuel s : TrimLeft fuel (to_backslash <$> s) = to_backslash <$> TrimLeft fuel s.
Proof.
  revert s. induction fuel as [|fuel IH]; intros s; [by destruct s|]. destruct s as [|c t]; [done|].
  destruct (DecodeRune_backslash (c :: t)) as [H1 H2]. rewrite fmap_cons in *. cbn [TrimLeft].
  destruct (DecodeRune (_ :: _)) as [r w], (DecodeRune (c :: t)) as [r' w']. cbn [fst snd] in *. subst w'.
  rewrite H1. destruct (IsSpace r'); [|done]. by rewrite <- IH, fmap_drop.
Qed.

Lemma TrimRight_backslash fuel s : TrimRight fuel (to_backslash <$> s) = to_backslash <$> TrimRight fuel s.
Proof.
  revert s. induction fuel as [|fuel IH]; intros s; [by destruct s|]. destruct s as [|c t]; [done|].
  destruct (DecodeLastRune_backslash (c :: t)) as [H1 H2].
  change (to_backslash <$> c :: t) with (to_backslash c :: (to_backslash <$> t)) in *. cbn [TrimRight].
  destruct (DecodeLastRune (to_backslash c :: _)) as [r w], (DecodeLastRune (c :: t)) as [r' w'].
  cbn [fst snd] in *. subst w'. rewrite H1. destruct (IsSpace r'); [|done].
  rewrite <- IH, fmap_take, length_cons, length_fmap. done.
Qed.

Lemma TrimSpace_backslash s : TrimSpace (to_backslash <$> s) = to_backslash <$> TrimSpace s.
Proof. unfold TrimSpace. by rewrite TrimLeft_backslash, TrimRight_backslash, !length_fmap. Qed.

Lemma backslash_none (s : bytes) : slash_byte ∉ s -> to_backslash <$> s = s.
Proof.
  intros H. induction s as [|c t IH]; [done|]. rewrite fmap_cons, IH by (intros Ht; apply H; by right).
  f_equal. unfold to_backslash. fold slash_byte. destruct (isb c slash_byte) eqn:E; [|done].
  apply isb_spec in E as ->. by destruct H; left.
Qed.

Lemma backslash_gone (s : bytes) : slash_byte ∉ (to_backslash <$> s).
Proof.
  rewrite list_elem_of_fmap. intros (c & H & _). unfold to_backslash in H. fold slash_byte in H.
  destruct (isb c slash_byte) eqn:E; [done|]. subst. by rewrite isb_refl in E.
Qed.

(** Both fast paths do what the slow one does. *)
Lemma normalizePath_eq b path :
  normalizePath b path = if b then to_backslash <$> TrimSpace path else TrimSpace path.
Proof.
  unfold normalizePath. destruct b; [|done]. cbn [negb].
  destruct (bool_decide_reflect (TrimSpace path = path)) as [E|]; cbn [andb].
  - rewrite E. destruct (contains_byte path slash_byte) eqn:Ec; cbn [negb]; [done|].
    apply contains_byte_false in Ec. by rewrite backslash_none.
  - destruct (contains_byte (TrimSpace path) slash_byte) eqn:Ec; cbn [negb]; [done|].
    apply contains_byte_false in Ec. by rewrite backslash_none.
Qed.

(** Normalizing again changes nothing: operations that call each other with
    normalized paths mean the same file. *)
Lemma normalizePath_idempotent b path : normalizePath b (normalizePath b path) = normalizePath b path.
Proof.
  rewrite !normalizePath_eq. assert (TrimSpace (TrimSpace path) = TrimSpace path) as E.
  { by apply TrimSpace_id; apply TrimSpace_trimmed. }
  destruct b; [|done]. rewrite TrimSpace_backslash, E. apply backslash_none, backslash_gone.
Qed.

Lemma normalizePath_no_slash path : slash_byte ∉ normalizePath true path.
Proof. rewrite normalizePath_eq. apply backslash_gone. Qed.

(** A name with white space at its end is taken for another. *)
Lemma trailing_space_lost : normalizePath true (str "dir\a ") = str "dir\a".
Proof. reflexivity. Qed.
