(* ===== verification/Transfer.v ===== *)
(** * Pipelined transfers ([internal/client/file.go])

    Large reads and writes keep several requests in flight: [readPipelined] and
    [writePipelined], the collection of replies nobody wants any more, and [Read]
    and [Write], which choose between these and the sequential transfers and move
    the file's position.  What they need of a connection is the class [Pipeline]:
    register and send a request on a channel of the caller's, wait on a channel,
    unregister.  The connection of [Conn] is an instance ([pipe_wire]), a server
    of one file that answers in any order another ([pipe_server]). *)

From S2P Require Export File.

(** ** What a pipeline needs of a connection *)

(** What a [select] picks: a reply (nil from a closed channel), the case of the
    context or of the timer, or the end of the connection with [connError()]. *)
Inductive picked (A : Type) :=
  | PickReply (r : option response)
  | PickOther (a : A)
  | PickDone (e : option error).
Arguments PickReply {A} r.
Arguments PickOther {A} a.
Arguments PickDone {A} e.

Class Pipeline (T : Type) := {
  pl_make : T -> nat * T;                                         (* make(chan *response, 1) *)
  pl_send : nat -> Header -> bytes -> bytes -> T -> res Z * T;    (* register, encode, write *)
  pl_wait : nat -> T -> picked error * T;                         (* or ctx.Done() *)
  pl_settle : nat -> T -> picked () * T;                          (* or a timer *)
  pl_delete : Z -> T -> T;                                        (* delete(pending, mid) *)
  pl_abandon : Z -> nat -> T -> T;                                (* releaseLocked(mid, ch, true) *)
}.

(** ** Chunks *)

(** The MID is zero until the request is sent. *)
Record wireRequest := mkWireRequest { w_mid : Z; w_respCh : nat }.

Record readChunk := mkReadChunk {
  rc_wire : wireRequest;
  rc_offset : Z;
  rc_size : Z;
  rc_bufOffset : Z;
}.
Record writeChunk := mkWriteChunk {
  wc_wire : wireRequest;
  wc_offset : Z;
  wc_data : bytes;
}.

Definition numChunks (totalSize perChunk : Z) : Z := (totalSize + perChunk - 1) / perChunk.

(** Where chunk [i] starts, and its size. *)
Definition chunk_bounds (totalSize perChunk i : Z) : Z * Z :=
  let chunkOffset := i * perChunk in
  (chunkOffset, if totalSize <? chunkOffset + perChunk then totalSize - chunkOffset else perChunk).

Definition pipelineReadThreshold : Z := 128 * 1024.
Definition pipelineWriteThreshold : Z := 256 * 1024.

(** What a write carries along: the total, the error to report at the end,
    and, in it, whether it is draining. *)
Record write_state := mkWriteState { ws_total : Z; ws_draining : bool; ws_deferred : option error }.

Section pipelines.
Context {T : Type} `{Transport T} `{Ctx T} `{Pipeline T}.

Definition make_wire : M T wireRequest := fun t =>
  let '(ch, t) := pl_make t in (Ok (mkWireRequest 0 ch), t).
Definition act (f : T -> T) : M T () := fun t => (Ok (), f t).

(** ** Replies nobody wants *)

Definition abandonChunks (chunks : list wireRequest) : M T () :=
  act (fun t => foldl (fun t w => pl_abandon (w_mid w) (w_respCh w) t) t chunks).

Fixpoint collectReplies (chunks : list wireRequest) : M T () :=
  match chunks with
  | [] => ret ()
  | w :: rest =>
    let* p := (fun t => let '(p, t) := pl_settle (w_respCh w) t in (Ok p, t)) in
    match p with
    | PickReply _ => let* _ := act (pl_delete (w_mid w)) in collectReplies rest
    | PickOther _ => abandonChunks chunks
    | PickDone _ => ret ()
    end
  end.

(** ** Sending *)

Definition sendReadRequest (c : Negotiated) (s : UserSession) (f : File) (chunk : readChunk) : M T readChunk :=
  let req := read_request f (rc_size chunk) (rc_offset chunk) in
  let* (params, data) := wrap_err "smb1: failed to encode read request"
    (lift (EncodeReadRequest (Some req) (has_cap c CAP_LARGE_FILES) (has_cap c CAP_LARGE_READX))) in
  let* mid := pl_send (w_respCh (rc_wire chunk)) (file_header SMB_COM_READ_ANDX s f) params data in
  ret (mkReadChunk (mkWireRequest mid (w_respCh (rc_wire chunk))) (rc_offset chunk) (rc_size chunk)
         (rc_bufOffset chunk)).

Definition sendWriteRequest (c : Negotiated) (s : UserSession) (f : File) (chunk : writeChunk) : M T writeChunk :=
  let req := write_request f (wc_data chunk) (wc_offset chunk) in
  let* (params, data) := wrap_err "smb1: failed to encode write request"
    (lift (EncodeWriteRequest (Some req) (has_cap c CAP_LARGE_FILES))) in
  let* mid := pl_send (w_respCh (wc_wire chunk)) (file_header SMB_COM_WRITE_ANDX s f) params data in
  ret (mkWriteChunk (mkWireRequest mid (w_respCh (wc_wire chunk))) (wc_offset chunk) (wc_data chunk)).

(** The initial batch: what went out, and the error that stopped it. *)
Fixpoint send_batch {C} (send : C -> M T C) (batch sent : list C) : M T (list C * option error) :=
  match batch with
  | [] => ret (sent, None)
  | chunk :: batch =>
    try* chunk := send chunk else (fun e => (sent, Some e)) in
    send_batch send batch (sent ++ [chunk])
  end.

(** ** Reading *)

Fixpoint make_chunks {C} (mk : wireRequest -> Z -> M T C) (n : nat) (i : Z) : M T (list C) :=
  match n with
  | O => ret []
  | S n =>
    let* w := make_wire in
    let* chunk := mk w i in
    let* rest := make_chunks mk n (i + 1) in
    ret (chunk :: rest)
  end.

Definition make_read_chunk (totalSize perChunk offset : Z) (w : wireRequest) (i : Z) : M T readChunk :=
  let '(chunkOffset, chunkSize) := chunk_bounds totalSize perChunk i in
  ret (mkReadChunk w (offset + chunkOffset) chunkSize chunkOffset).

(** The processing loop: [n] passes are left; [inflight] are the chunks from [i]
    up to [nextToSend], [unsent] the ones after. *)
Fixpoint read_loop (n : nat) (c : Negotiated) (s : UserSession) (f : File)
    (inflight unsent : list readChunk) (buf : bytes) (totalRead : Z)
  : M T (bytes * (Z * option error)) :=
  let end_read buf total err cause_chunks :=
    let* _ := collectReplies (rc_wire <$> cause_chunks) in ret (buf, (total, err)) in
  match n, inflight with
  | O, _ | _, [] => ret (buf, (totalRead, None))
  | S n, chunk :: inflight' =>
    let* p := (fun t => let '(p, t) := pl_wait (w_respCh (rc_wire chunk)) t in (Ok p, t)) in
    match p with
    | PickOther e => end_read buf totalRead (Some e) inflight
    | PickDone e => ret (buf, (totalRead, e))
    | PickReply resp =>
      let* _ := act (pl_delete (w_mid (rc_wire chunk))) in
      let* resp := lift (match resp with Some r => Ok r | None => Panic end) in
      match r_err resp with
      | Some e =>
        if match r_header resp with Some h => Status h =? STATUS_END_OF_FILE | None => false end
        then if 0 <? totalRead then end_read buf totalRead None inflight'
             else end_read buf 0 (Some EOF) inflight'
        else end_read buf totalRead (Some (Wrapf "smb1: read failed" e)) inflight'
      | None =>
        match DecodeReadResponse (r_params resp) (r_data resp) with
        | Panic => lift Panic
        | Err e => end_read buf totalRead (Some (Wrapf "smb1: failed to decode read response" e)) inflight'
        | Ok readResp =>
          let* buf := lift (copy_at buf (rc_bufOffset chunk) (rc_bufOffset chunk + rc_size chunk)
                              (rr_Data readResp)) in
          let n_copied := Z.min (rc_size chunk) (len (rr_Data readResp)) in
          let totalRead := totalRead + n_copied in
          if n_copied <? rc_size chunk then
            if 0 <? totalRead then end_read buf totalRead None inflight'
            else end_read buf 0 (Some EOF) inflight'
          else
            match unsent with
            | [] => read_loop n c s f inflight' [] buf totalRead
            | next :: unsent' => fun t =>
              match sendReadRequest c s f next t with
              | (Ok next, t) => read_loop n c s f (inflight' ++ [next]) unsent' buf totalRead t
              | (Err e, t) => end_read buf totalRead (Some e) inflight' t
              | (Panic, t) => (Panic, t)
              end
            end
        end
      end
    end
  end.

Definition pipeline_width (c : Negotiated) (numChunks : Z) : Z :=
  let maxPipeline := (PipelineDepth (maxMpxCount c)).1 in
  if numChunks <? maxPipeline then numChunks else maxPipeline.

Definition readPipelined (c : Negotiated) (s : UserSession) (f : File) (buf : bytes) (offset : Z)
  : M T (bytes * (Z * option error)) :=
  let maxDataPerRead := maxReadChunk c in
  let totalSize := len buf in
  let num := numChunks totalSize maxDataPerRead in
  let maxPipeline := Z.to_nat (pipeline_width c num) in
  let* chunks := make_chunks (make_read_chunk totalSize maxDataPerRead offset) (Z.to_nat num) 0 in
  let* (sent, sendErr) := send_batch (sendReadRequest c s f) (take maxPipeline chunks) [] in
  match sendErr with
  | Some e => let* _ := collectReplies (rc_wire <$> sent) in ret (buf, (0, Some e))
  | None => read_loop (Z.to_nat num) c s f sent (drop maxPipeline chunks) buf 0
  end.

(** ** Writing *)

(** The chunk's data, as a slice of the caller's. *)
Definition make_write_chunk (data : bytes) (perChunk offset : Z) (w : wireRequest) (i : Z) : M T writeChunk :=
  let '(chunkOffset, chunkSize) := chunk_bounds (len data) perChunk i in
  let* d := lift (slice data chunkOffset (chunkOffset + chunkSize)) in
  ret (mkWriteChunk w (offset + chunkOffset) d).

Definition stopFeeding (cause : error) (ws : write_state) : M T write_state :=
  if ws_draining ws then ret ws else
  let* ctxErr := poll in
  let cause := match ctxErr with Some e => e | None => cause end in
  ret (mkWriteState (ws_total ws) true (Some cause)).

(** [awaitChunk] in its two phases: while draining, and before; when the context
    ends, it goes on draining.  The error comes in the place of the reply. *)
Definition await_draining (chunk : writeChunk) (ws : write_state)
  : M T ((option response + option error) * write_state) := fun t =>
  match pl_settle (w_respCh (wc_wire chunk)) t with
  | (PickReply r, t) => (Ok (inl r, ws), t)
  | (PickOther _, t) => (Ok (inr (ws_deferred ws), ws), t)
  | (PickDone e, t) => (Ok (inr e, ws), t)
  end.
Definition awaitChunk (chunk : writeChunk) (ws : write_state)
  : M T ((option response + option error) * write_state) :=
  if ws_draining ws then await_draining chunk ws else fun t =>
  match pl_wait (w_respCh (wc_wire chunk)) t with
  | (PickReply r, t) => (Ok (inl r, ws), t)
  | (PickOther e, t) => (let* ws := stopFeeding e ws in await_draining chunk ws) t
  | (PickDone e, t) => (Ok (inr e, ws), t)
  end.

(** The end of a pass: the check of the context, and the next chunk. *)
Definition feed (c : Negotiated) (s : UserSession) (f : File) (unsent : list writeChunk) (ws : write_state)
  : M T (option writeChunk * list writeChunk * write_state) :=
  let* ws := (if ws_draining ws then ret ws else
              let* ctxErr := poll in
              match ctxErr with Some e => stopFeeding e ws | None => ret ws end) in
  match unsent with
  | next :: unsent' =>
    if ws_draining ws then ret (None, unsent, ws) else fun t =>
    match sendWriteRequest c s f next t with
    | (Ok next, t) => (Ok (Some next, unsent', ws), t)
    | (Err e, t) => (let* ws := stopFeeding e ws in ret (None, unsent, ws)) t
    | (Panic, t) => (Panic, t)
    end
  | [] => ret (None, [], ws)
  end.

Fixpoint write_loop (n : nat) (c : Negotiated) (s : UserSession) (f : File)
    (inflight unsent : list writeChunk) (ws : write_state) : M T (Z * option error) :=
  match n, inflight with
  | O, _ | _, [] => ret (ws_total ws, ws_deferred ws)
  | S n, chunk :: inflight' =>
    let settleRest (out : Z * option error) : M T (Z * option error) :=
      let* _ := collectReplies (wc_wire <$> inflight') in ret out in
    let* (got, ws) := awaitChunk chunk ws in
    match got with
    | inr None => lift Panic
    | inr (Some e) => let* _ := abandonChunks (wc_wire <$> inflight) in ret (ws_total ws, Some e)
    | inl resp =>
      let* _ := act (pl_delete (w_mid (wc_wire chunk))) in
      let* resp := lift (match resp with Some r => Ok r | None => Panic end) in
      match r_err resp with
      | Some e => settleRest (ws_total ws, Some (Wrapf "smb1: write failed" e))
      | None =>
        match DecodeWriteResponse (r_params resp) (r_data resp) with
        | Panic => lift Panic
        | Err e => settleRest (ws_total ws, Some (Wrapf "smb1: failed to decode write response" e))
        | Ok writeResp =>
          let bytesWritten := GetBytesWritten writeResp in
          let ws := mkWriteState (ws_total ws + bytesWritten) (ws_draining ws) (ws_deferred ws) in
          if bytesWritten <? len (wc_data chunk) then settleRest (ws_total ws, Some ErrShortWrite)
          else
            let* (next, unsent, ws) := feed c s f unsent ws in
            write_loop n c s f (inflight' ++ option_list next) unsent ws
        end
      end
    end
  end.

Definition writePipelined (c : Negotiated) (s : UserSession) (f : File) (data : bytes) (offset : Z)
  : M T (Z * option error) :=
  let maxDataPerWrite := maxWriteChunk c in
  let num := numChunks (len data) maxDataPerWrite in
  let maxPipeline := Z.to_nat (pipeline_width c num) in
  let* chunks := make_chunks (make_write_chunk data maxDataPerWrite offset) (Z.to_nat num) 0 in
  let* (sent, sendErr) := send_batch (sendWriteRequest c s f) (take maxPipeline chunks) [] in
  let ws := mkWriteState 0 false None in
  let* ws := (match sendErr with Some e => stopFeeding e ws | None => ret ws end) in
  write_loop (Z.to_nat num) c s f sent (drop (length sent) chunks) ws.

(** ** [Read] and [Write] *)

Definition advance (f : File) (n : Z) : File := with_offset f (int64 (f_offset f + n)).

(** The buffer afterwards, the count and the error. *)
Definition Read (c : Negotiated) (s : UserSession) (f : File) (buf : bytes)
  : M T (File * (bytes * (Z * option error))) :=
  if len buf =? 0 then ret (f, (buf, (0, None))) else
  let supportsPipelining := (PipelineDepth (maxMpxCount c)).2 in
  let* (buf, (totalRead, err)) :=
    (if negb supportsPipelining || (len buf <? pipelineReadThreshold) then
       let* (got, err) := readSequential c s f (len buf) (f_offset f) in
       ret (got ++ drop (length got) buf, (len got, err))
     else readPipelined c s f buf (f_offset f)) in
  ret (advance f totalRead, (buf, (totalRead, err))).

Definition Write (c : Negotiated) (s : UserSession) (f : File) (data : bytes)
  : M T (File * (Z * option error)) :=
  if len data =? 0 then ret (f, (0, None)) else
  let supportsPipelining := (PipelineDepth (maxMpxCount c)).2 in
  let* (totalWritten, err) :=
    (if negb supportsPipelining || (len data <? pipelineWriteThreshold)
     then writeSequential c s f data (f_offset f)
     else writePipelined c s f data (f_offset f)) in
  ret (advance f totalWritten, (totalWritten, err)).
End pipelines.

(** ** Running: rules

    [runs P m Q]: from a state in [P], [m] ends in [Q], or panics. *)
Definition runs {T A} (P : T -> Prop) (m : M T A) (Q : res A -> T -> Prop) : Prop :=
  forall t, P t -> match m t with (Panic, _) => True | (r, t') => Q r t' end.

Lemma runs_bind {T A B} (P : T -> Prop) (m : M T A) (R : A -> T -> Prop) (k : A -> M T B) Q :
  runs P m (fun r t => match r with Ok a => R a t | Err e => Q (Err e) t | Panic => True end) ->
  (forall a, runs (R a) (k a) Q) -> runs P (let* a := m in k a) Q.
Proof.
  intros Hm Hk t Ht. specialize (Hm t Ht). unfold mbind_M. destruct (m t) as [[a|e|] t1]; [|done..].
  exact (Hk a t1 Hm).
Qed.

Lemma runs_ret {T A} (P : T -> Prop) (a : A) Q : (forall t, P t -> Q (Ok a) t) -> runs P (ret a) Q.
Proof. intros HPQ t Ht. by apply HPQ. Qed.

Lemma runs_lift {T A} (P : T -> Prop) (r : res A) (Q : res A -> T -> Prop) :
  (forall t, P t -> r <> Panic -> Q r t) -> runs P (lift r) Q.
Proof. intros HPQ t Ht. unfold lift. destruct r; [by apply HPQ..|done]. Qed.

Lemma runs_act {T} (P : T -> Prop) (f : T -> T) (Q : res () -> T -> Prop) :
  (forall t, P t -> Q (Ok ()) (f t)) -> runs P (act f) Q.
Proof. intros HPQ t Ht. by apply HPQ. Qed.

Lemma runs_wrap {T A} (P : T -> Prop) fmt (m : M T A) (Q : res A -> T -> Prop) :
  runs P m (fun r t => Q (match r with Err e => Err (Wrapf fmt e) | r => r end) t) ->
  runs P (wrap_err fmt m) Q.
Proof. intros Hm t Ht. specialize (Hm t Ht). unfold wrap_err. by destruct (m t) as [[a|e|] t1]. Qed.

Lemma runs_weaken {T A} (P P' : T -> Prop) (m : M T A) (Q Q' : res A -> T -> Prop) :
  runs P' m Q' -> (forall t, P t -> P' t) -> (forall r t, Q' r t -> Q r t) -> runs P m Q.
Proof.
  intros Hm HP HQ t Ht. specialize (Hm t (HP t Ht)). destruct (m t) as [[a|e|] t1]; [by apply HQ..|done].
Qed.

Lemma copy_at_no_err buf lo hi src e : copy_at buf lo hi src <> Err e.
Proof. unfold copy_at. by destruct (_ && _). Qed.

(** ** The invariant rule of the transfers

    [I ws t]: the requests in flight in [t] are [ws].  Whatever the operations of
    a pipeline keep of it, the transfers keep, never going beyond [depth]; [Q]
    holds when they end. *)
Section rule.
Context {T : Type} `{Transport T} `{Ctx T} `{Pipeline T}.
Context (c : Negotiated) (s : UserSession) (f : File).
Context (I : list wireRequest -> T -> Prop) (Q : T -> Prop) (depth : nat).
Context (Hmake : forall ws t, I ws t -> I ws (pl_make t).2)
  (Hsend : forall ws ch h p d t t' mid, I ws t -> (length ws < depth)%nat ->
     pl_send ch h p d t = (Ok mid, t') -> I (ws ++ [mkWireRequest mid ch]) t')
  (Hrefused : forall ws ch h p d t t' e, I ws t -> (length ws < depth)%nat ->
     pl_send ch h p d t = (Err e, t') -> I ws t')
  (Hwait : forall w ws t, I (w :: ws) t ->
     match pl_wait (w_respCh w) t with
     | (PickReply _, t') => I ws (pl_delete (w_mid w) t')
     | (PickOther _, t') => I (w :: ws) t'
     | (PickDone _, t') => Q t'
     end)
  (Hsettle : forall w ws t, I (w :: ws) t ->
     match pl_settle (w_respCh w) t with
     | (PickReply _, t') => I ws (pl_delete (w_mid w) t')
     | (PickOther _, t') => I (w :: ws) t'
     | (PickDone _, t') => Q t'
     end)
  (Habandon : forall w ws t, I (w :: ws) t -> I ws (pl_abandon (w_mid w) (w_respCh w) t))
  (Hpoll : forall ws t, I ws t -> I ws (ctx_poll t).2)
  (Hend : forall t, I [] t -> Q t)
  (Hdead : forall m ch t, Q t -> Q (pl_abandon m ch t)).

Definition ended {A} (r : res A) (t : T) : Prop := Q t.

Lemma abandon_rule ws : runs (I ws) (abandonChunks ws) ended.
Proof.
  apply runs_act. induction ws as [|w ws IH]; intros t Ht; cbn; [by apply Hend|].
  apply IH. by apply Habandon.
Qed.

Lemma abandon_dead ws : runs Q (abandonChunks ws) ended.
Proof.
  apply runs_act. induction ws as [|w ws IH]; intros t Ht; cbn; [done|]. apply IH. by apply Hdead.
Qed.

Lemma collect_rule ws : runs (I ws) (collectReplies ws) ended.
Proof.
  induction ws as [|w ws IH]; cbn [collectReplies]; [apply runs_ret, Hend|].
  intros t Ht. unfold mbind_M at 1. pose proof (Hsettle w ws t Ht) as Hs.
  destruct (pl_settle (w_respCh w) t) as [[r|u|e] t1].
  - apply IH, Hs.
  - exact (abandon_rule (w :: ws) t1 Hs).
  - exact Hs.
Qed.

Lemma collect_ret {A} ws (a : A) : runs (I ws) (let* _ := collectReplies ws in ret a) ended.
Proof.
  eapply runs_bind with (R := fun _ => Q).
  - eapply runs_weaken; [apply collect_rule|done|by intros [] t].
  - intros _. by apply runs_ret.
Qed.

Lemma make_chunks_rule {C} (mk : wireRequest -> Z -> M T C) ws n : forall i,
  (forall w i, runs (I ws) (mk w i) (fun r t => I ws t)) ->
  runs (I ws) (make_chunks mk n i) (fun r t => I ws t).
Proof.
  induction n as [|n IH]; intros i Hmk; cbn [make_chunks]; [by apply runs_ret|].
  eapply runs_bind with (R := fun _ => I ws).
  { intros t Ht. unfold make_wire. pose proof (Hmake ws t Ht). by destruct (pl_make t). }
  intros w. eapply runs_bind with (R := fun _ => I ws); [eapply runs_weaken; [apply Hmk|done|by intros [] t]|].
  intros chunk. eapply runs_bind with (R := fun _ => I ws); [eapply runs_weaken; [by apply IH|done|by intros [] t]|].
  intros rest. by apply runs_ret.
Qed.

(** What one send does to the requests in flight. *)
Definition sends {C} (wire : C -> wireRequest) (send : C -> M T C) : Prop :=
  forall chunk ws, (length ws < depth)%nat ->
  runs (I ws) (send chunk) (fun r t => match r with
    | Ok chunk' => I (ws ++ [wire chunk']) t | Err _ => I ws t | Panic => True end).

Lemma send_read_rule : sends rc_wire (sendReadRequest c s f).
Proof.
  intros chunk ws Hd. unfold sendReadRequest.
  eapply runs_bind with (R := fun _ => I ws).
  { apply runs_wrap, runs_lift. intros t Ht _. by destruct (EncodeReadRequest _ _ _). }
  intros [params data]. eapply runs_bind with (R := fun mid t => I (ws ++ [mkWireRequest mid (w_respCh (rc_wire chunk))]) t).
  - intros t Ht. destruct (pl_send _ _ _ _ t) as [[mid|e|] t1] eqn:E; [by eapply Hsend|by eapply Hrefused|done].
  - intros mid. by apply runs_ret.
Qed.

Lemma send_write_rule : sends wc_wire (sendWriteRequest c s f).
Proof.
  intros chunk ws Hd. unfold sendWriteRequest.
  eapply runs_bind with (R := fun _ => I ws).
  { apply runs_wrap, runs_lift. intros t Ht _. by destruct (EncodeWriteRequest _ _). }
  intros [params data]. eapply runs_bind with (R := fun mid t => I (ws ++ [mkWireRequest mid (w_respCh (wc_wire chunk))]) t).
  - intros t Ht. destruct (pl_send _ _ _ _ t) as [[mid|e|] t1] eqn:E; [by eapply Hsend|by eapply Hrefused|done].
  - intros mid. by apply runs_ret.
Qed.

Lemma send_batch_rule {C} (wire : C -> wireRequest) send batch : sends wire send -> forall sent,
  (length sent + length batch <= depth)%nat ->
  runs (I (wire <$> sent)) (send_batch send batch sent) (fun r t => match r with
    | Ok (sent', err) => I (wire <$> sent') t /\ (length sent' <= depth)%nat
    | _ => False end).
Proof.
  intros Hs. induction batch as [|chunk batch IH]; intros sent Hl; cbn [send_batch].
  { apply runs_ret. intros t Ht. split; [done|]. cbn in Hl. lia. }
  cbn [length] in Hl. intros t Ht. unfold try_M.
  pose proof (Hs chunk (wire <$> sent)) as Hc. rewrite length_fmap in Hc. specialize (Hc ltac:(lia) t Ht).
  destruct (send chunk t) as [[chunk'|e|] t1]; [|split; [done|lia]|done].
  apply IH; [rewrite length_app; cbn; lia|]. by rewrite fmap_app.
Qed.

Lemma read_loop_rule n : forall inflight unsent buf total,
  (length inflight <= depth)%nat -> (length inflight + length unsent <= n)%nat ->
  runs (I (rc_wire <$> inflight)) (read_loop n c s f inflight unsent buf total) ended.
Proof.
  induction n as [|n IH]; intros [|chunk inflight] unsent buf total Hd Hn; cbn [length] in *; try lia;
    cbn [read_loop]; try (apply runs_ret; intros t Ht; by apply Hend).
  intros t Ht. unfold mbind_M at 1. cbn [fmap list_fmap] in Ht.
  pose proof (Hwait _ _ t Ht) as Hw. destruct (pl_wait _ t) as [[resp|e|e] t1]; [|by apply (collect_ret _ _ t1 Hw)|done].
  unfold mbind_M at 1, act. revert Hw. generalize (pl_delete (w_mid (rc_wire chunk)) t1). clear t t1 Ht. intros t Ht.
  unfold mbind_M at 1. destruct resp as [resp|]; [|done]. cbn [lift].
  destruct (r_err resp) as [e|].
  { destruct (match r_header resp with Some _ => _ | None => _ end); [destruct (0 <? total)|];
      by apply (collect_ret _ _ t Ht). }
  destruct (DecodeReadResponse _ _) as [rr|e|]; [|by apply (collect_ret _ _ t Ht)|done].
  unfold mbind_M at 1, lift. destruct (copy_at _ _ _ _) as [buf'|e|] eqn:Ecopy; [|by apply copy_at_no_err in Ecopy|done].
  destruct (_ <? rc_size chunk); [destruct (0 <? _); by apply (collect_ret _ _ t Ht)|].
  destruct unsent as [|next unsent]; cbn [length] in Hn.
  { apply IH; [lia|cbn; lia|done]. }
  pose proof (send_read_rule next (rc_wire <$> inflight)) as Hs. rewrite length_fmap in Hs.
  specialize (Hs ltac:(lia) t Ht).
  destruct (sendReadRequest _ _ _ _ t) as [[next'|e|] t2]; [|by apply (collect_ret _ _ t2 Hs)|done].
  apply IH; [rewrite length_app; cbn; lia|rewrite length_app; cbn; lia|]. by rewrite fmap_app.
Qed.

Lemma stop_rule ws cause w : runs (I ws) (stopFeeding cause w)
  (fun r t => match r with Ok w' => I ws t /\ ws_total w' = ws_total w | _ => False end).
Proof.
  intros t Ht. unfold stopFeeding. destruct (ws_draining w); [done|]. unfold mbind_M, poll.
  pose proof (Hpoll ws t Ht). by destruct (ctx_poll t).
Qed.

(** Waiting for a chunk of a write. *)
Lemma await_rule chunk ws w :
  runs (I (wc_wire chunk :: ws)) (awaitChunk chunk w) (fun r t => match r with
    | Ok (inl _, w') => I ws (pl_delete (w_mid (wc_wire chunk)) t) /\ ws_total w' = ws_total w
    | Ok (inr _, w') => I (wc_wire chunk :: ws) t \/ Q t
    | _ => False end).
Proof.
  assert (forall w, runs (I (wc_wire chunk :: ws)) (await_draining chunk w) (fun r t => match r with
    | Ok (inl _, w') => I ws (pl_delete (w_mid (wc_wire chunk)) t) /\ ws_total w' = ws_total w
    | Ok (inr _, w') => I (wc_wire chunk :: ws) t \/ Q t
    | _ => False end)) as Hdrain.
  { intros w' t Ht. unfold await_draining. pose proof (Hsettle _ _ t Ht) as Hs.
    destruct (pl_settle _ t) as [[r|u|e] t1]; [done|by left|by right]. }
  unfold awaitChunk. destruct (ws_draining w); [apply Hdrain|].
  intros t Ht. pose proof (Hwait _ _ t Ht) as Hw. destruct (pl_wait _ t) as [[r|e|e] t1]; [done| |by right].
  unfold mbind_M. pose proof (stop_rule _ e w t1 Hw) as Hs.
  destruct (stopFeeding e w t1) as [[w'|e'|] t2]; [|done..]. destruct Hs as [Hs <-]. by apply Hdrain.
Qed.

Lemma feed_rule ws unsent w : (length ws < depth)%nat ->
  runs (I ws) (feed c s f unsent w) (fun r t => match r with
    | Ok (next, unsent', w') => I (ws ++ (wc_wire <$> option_list next)) t
        /\ (length (option_list next) + length unsent' <= length unsent)%nat
    | _ => False end).
Proof.
  intros Hd. unfold feed. eapply runs_bind with (R := fun _ t => I ws t).
  { destruct (ws_draining w); [by apply runs_ret|]. eapply runs_bind with (R := fun _ t => I ws t).
    - intros t Ht. unfold poll. pose proof (Hpoll ws t Ht). by destruct (ctx_poll t).
    - intros [e|]; [|by apply runs_ret].
      eapply runs_weaken; [apply stop_rule|done|]. by intros [w2|e2|] t; [intros [? _]|..]. }
  intros w'. destruct unsent as [|next unsent]; [apply runs_ret; intros t Ht; by rewrite app_nil_r|].
  destruct (ws_draining w'); [apply runs_ret; intros t Ht; by rewrite app_nil_r|].
  intros t Ht. pose proof (send_write_rule next ws Hd t Ht) as Hs.
  destruct (sendWriteRequest _ _ _ _ t) as [[next'|e|] t1]; [by split; [|cbn; lia]| |done].
  unfold mbind_M. pose proof (stop_rule ws e w' t1 Hs) as Hs'.
  destruct (stopFeeding e w' t1) as [[w2|e2|] t2]; [|done..]. destruct Hs' as [Hs' _].
  split; [by rewrite app_nil_r|cbn; lia].
Qed.

Lemma write_loop_rule n : forall inflight unsent w,
  (length inflight <= depth)%nat -> (length inflight + length unsent <= n)%nat ->
  runs (I (wc_wire <$> inflight)) (write_loop n c s f inflight unsent w) ended.
Proof.
  induction n as [|n IH]; intros [|chunk inflight] unsent w Hd Hn; cbn [length] in *; try lia;
    cbn [write_loop]; try (apply runs_ret; intros t Ht; by apply Hend).
  intros t Ht. unfold mbind_M at 1. cbn [fmap list_fmap] in Ht.
  pose proof (await_rule chunk (wc_wire <$> inflight) w t Ht) as Ha.
  destruct (awaitChunk chunk w t) as [[[[resp|[e|]] w']|e|] t1]; [| |done..].
  2:{ unfold mbind_M. assert (runs (fun t => I (wc_wire <$> chunk :: inflight) t \/ Q t)
        (abandonChunks (wc_wire <$> chunk :: inflight)) ended) as Hr.
      { intros t0 [Ht0|Ht0]; [by apply (abandon_rule _ t0)|by apply (abandon_dead _ t0)]. }
      specialize (Hr t1 Ha). by destruct (abandonChunks _ t1) as [[[]|?|] t2]. }
  destruct Ha as [Ha _]. unfold mbind_M at 1, act. revert Ha.
  generalize (pl_delete (w_mid (wc_wire chunk)) t1). clear t t1 Ht. intros t Ht.
  unfold mbind_M at 1. destruct resp as [resp|]; [|done]. cbn [lift].
  destruct (r_err resp) as [e|]; [by apply (collect_ret _ _ t Ht)|].
  destruct (DecodeWriteResponse _ _) as [wr|e|]; [|by apply (collect_ret _ _ t Ht)|done].
  cbv zeta. destruct (_ <? len (wc_data chunk)); [by apply (collect_ret _ _ t Ht)|].
  unfold mbind_M at 1. pose proof (feed_rule (wc_wire <$> inflight) unsent
    (mkWriteState (ws_total w' + GetBytesWritten wr) (ws_draining w') (ws_deferred w'))) as Hf.
  rewrite length_fmap in Hf. specialize (Hf ltac:(lia) t Ht).
  destruct (feed _ _ _ _ _ t) as [[[[next unsent'] w2]|e|] t1]; [|done..]. destruct Hf as [Hf Hl].
  apply IH; [rewrite length_app; destruct next; cbn in *; lia|rewrite length_app; lia|]. by rewrite fmap_app.
Qed.
Lemma make_read_rule ws total per offset w i :
  runs (I ws) (make_read_chunk total per offset w i) (fun r t => I ws t).
Proof. unfold make_read_chunk. destruct (chunk_bounds _ _ _). by apply runs_ret. Qed.

Lemma make_write_rule ws data per offset w i :
  runs (I ws) (make_write_chunk data per offset w i) (fun r t => I ws t).
Proof.
  unfold make_write_chunk. destruct (chunk_bounds _ _ _).
  eapply runs_bind with (R := fun _ => I ws); [|intros d; by apply runs_ret].
  apply runs_lift. by intros t Ht; destruct (slice _ _ _).
Qed.

Lemma make_chunks_length {C} (mk : wireRequest -> Z -> M T C) n : forall i t chunks t',
  make_chunks mk n i t = (Ok chunks, t') -> length chunks = n.
Proof.
  induction n as [|n IH]; intros i t chunks t'; cbn [make_chunks]; [by intros [= <- <-]|].
  intros Hm. apply bind_M_Ok in Hm as (w & t1 & _ & Hm). apply bind_M_Ok in Hm as (x & t2 & _ & Hm).
  apply bind_M_Ok in Hm as (rest & t3 & E & Hm). injection Hm as <- <-. cbn. f_equal. by eapply IH.
Qed.

Context (Hdepth : Z.to_nat (PipelineDepth (maxMpxCount c)).1 = depth).

Lemma width_depth num : (Z.to_nat (pipeline_width c num) <= depth)%nat.
Proof. rewrite <- Hdepth. unfold pipeline_width. destruct (Z.ltb_spec num (PipelineDepth (maxMpxCount c)).1); lia. Qed.

Lemma sent_unsent {C} (send : C -> M T C) (batch : list C) : forall sent t sent' err t',
  send_batch send batch sent t = (Ok (sent', err), t') ->
  (length sent' <= length sent + length batch)%nat
  /\ (err = None -> length sent' = length sent + length batch)%nat.
Proof.
  induction batch as [|chunk batch IH]; intros sent t sent' err t'; cbn [send_batch length].
  { intros [= <- <- <-]. lia. }
  unfold try_M. destruct (send chunk t) as [[chunk'|e|] t1]; [|by intros [= <- <- <-]; split; [lia|]|done].
  intros E. destruct (IH _ _ _ _ _ E) as [Hle Heq]. rewrite length_app in Hle, Heq. cbn in *.
  split; [lia|]. intros He. rewrite (Heq He). lia.
Qed.

(** A pipelined read, and a pipelined write, end in [Q]. *)
Lemma read_rule buf offset : runs (I []) (readPipelined c s f buf offset) ended.
Proof.
  intros t Ht. unfold readPipelined. cbv zeta.
  set (num := numChunks _ _). set (k := Z.to_nat (pipeline_width c num)).
  pose proof (make_chunks_rule (make_read_chunk (len buf) (maxReadChunk c) offset) [] (Z.to_nat num) 0
    (fun w i => make_read_rule [] _ _ _ w i) t Ht) as Hm.
  unfold mbind_M at 1. destruct (make_chunks _ _ _ t) as [[chunks|e|] t1] eqn:Em; [|exact (Hend _ Hm)|done].
  apply make_chunks_length in Em. pose proof (width_depth num) as Hk.
  pose proof (send_batch_rule rc_wire _ (take k chunks) send_read_rule []) as Hb.
  specialize (Hb ltac:(rewrite length_take; cbn; lia) t1 Hm).
  unfold mbind_M at 1. destruct (send_batch _ _ _ t1) as [[[sent err]|e|] t2] eqn:Es; [|done..].
  destruct Hb as [Hb Hl]. apply sent_unsent in Es as [Es1 Es2]. cbn [length] in *.
  destruct err as [e|]; [by apply (collect_ret _ _ t2 Hb)|].
  apply read_loop_rule; [done| |done]. specialize (Es2 eq_refl). rewrite length_take in Es2.
  rewrite length_drop. lia.
Qed.

Lemma write_rule data offset : runs (I []) (writePipelined c s f data offset) ended.
Proof.
  intros t Ht. unfold writePipelined. cbv zeta.
  set (num := numChunks _ _). set (k := Z.to_nat (pipeline_width c num)).
  pose proof (make_chunks_rule (make_write_chunk data (maxWriteChunk c) offset) [] (Z.to_nat num) 0
    (fun w i => make_write_rule [] _ _ _ w i) t Ht) as Hm.
  unfold mbind_M at 1. destruct (make_chunks _ _ _ t) as [[chunks|e|] t1] eqn:Em; [|exact (Hend _ Hm)|done].
  apply make_chunks_length in Em. pose proof (width_depth num) as Hk.
  pose proof (send_batch_rule wc_wire _ (take k chunks) send_write_rule []) as Hb.
  specialize (Hb ltac:(rewrite length_take; cbn; lia) t1 Hm).
  unfold mbind_M at 1. destruct (send_batch _ _ _ t1) as [[[sent err]|e|] t2] eqn:Es; [|done..].
  destruct Hb as [Hb Hl]. apply sent_unsent in Es as [Es1 Es2]. cbn [length] in *.
  rewrite length_take in Es1.
  assert (runs (I (wc_wire <$> sent))
    (match err with Some e => stopFeeding e (mkWriteState 0 false None) | None => ret (mkWriteState 0 false None) end)
    (fun r t => match r with Ok _ => I (wc_wire <$> sent) t | _ => False end)) as Hstop.
  { destruct err as [e|]; [|by apply runs_ret]. eapply runs_weaken; [apply stop_rule|done|].
    by intros [w2|e2|] t'; [intros [? _]|..]. }
  specialize (Hstop t2 Hb). unfold mbind_M at 1. revert Hstop.
  set (start := match err with Some _ => _ | None => _ end). destruct (start t2) as [[w|e|] t3]; [|done..].
  intros Hstop.
  apply write_loop_rule; [done| |done]. rewrite length_drop. lia.
Qed.
End rule.

(** ** How many requests are in flight

    A pipeline watched: how many requests are registered and not settled, and
    the most there ever were. *)
Record watched (T : Type) := mkWatched { wt_inner : T; wt_inflight : nat; wt_peak : nat }.
Arguments mkWatched {T} wt_inner wt_inflight wt_peak.
Arguments wt_inner {T} w.
Arguments wt_inflight {T} w.
Arguments wt_peak {T} w.

Section watch.
Context {T : Type} `{Transport T} `{Ctx T} `{Pipeline T}.

Definition settled_one (w : watched T) (t : T) : watched T :=
  mkWatched t (wt_inflight w - 1) (wt_peak w).
Definition after_pick {A} (p : picked A * T) (w : watched T) : picked A * watched T :=
  (p.1, match p.1 with
        | PickReply _ => settled_one w p.2
        | _ => mkWatched p.2 (wt_inflight w) (wt_peak w)
        end).

#[export] Instance watched_transport : Transport (watched T) := {
  t_sendRecv h p d w := let '(r, t) := t_sendRecv h p d (wt_inner w) in (r, mkWatched t (wt_inflight w) (wt_peak w));
  t_sendRecvSettled h p d w :=
    let '(r, t) := t_sendRecvSettled h p d (wt_inner w) in (r, mkWatched t (wt_inflight w) (wt_peak w));
  t_sendRecvTransaction h p d w :=
    let '(r, t) := t_sendRecvTransaction h p d (wt_inner w) in (r, mkWatched t (wt_inflight w) (wt_peak w));
}.
#[export] Instance watched_ctx : Ctx (watched T) := {
  ctx_poll w := let '(e, t) := ctx_poll (wt_inner w) in (e, mkWatched t (wt_inflight w) (wt_peak w));
}.
#[export] Instance watched_pipeline : Pipeline (watched T) := {
  pl_make w := let '(ch, t) := pl_make (wt_inner w) in (ch, mkWatched t (wt_inflight w) (wt_peak w));
  pl_send ch h p d w :=
    let '(r, t) := pl_send ch h p d (wt_inner w) in
    (r, match r with
        | Ok _ => mkWatched t (S (wt_inflight w)) (wt_peak w `max` S (wt_inflight w))
        | _ => mkWatched t (wt_inflight w) (wt_peak w)
        end);
  pl_wait ch w := after_pick (pl_wait ch (wt_inner w)) w;
  pl_settle ch w := after_pick (pl_settle ch (wt_inner w)) w;
  pl_delete mid w := mkWatched (pl_delete mid (wt_inner w)) (wt_inflight w) (wt_peak w);
  pl_abandon mid ch w := settled_one w (pl_abandon mid ch (wt_inner w));
}.

Context (c : Negotiated) (s : UserSession) (f : File).

Definition depth_of : nat := Z.to_nat (PipelineDepth (maxMpxCount c)).1.
Definition counted (ws : list wireRequest) (w : watched T) : Prop :=
  wt_inflight w = length ws /\ (wt_peak w <= depth_of)%nat /\ (length ws <= depth_of)%nat.

Lemma counted_make ws w : counted ws w -> counted ws (pl_make w).2.
Proof. intros Hw. cbn. by destruct (pl_make (wt_inner w)). Qed.

Lemma counted_send ws ch h p d w w' mid :
  counted ws w -> (length ws < depth_of)%nat -> pl_send ch h p d w = (Ok mid, w') ->
  counted (ws ++ [mkWireRequest mid ch]) w'.
Proof.
  intros (Hn & Hp & _) Hl. cbn. destruct (pl_send ch h p d (wt_inner w)) as [r t].
  intros [= -> <-]. unfold counted. rewrite length_app. cbn. lia.
Qed.

Lemma counted_refused ws ch h p d w w' e :
  counted ws w -> (length ws < depth_of)%nat -> pl_send ch h p d w = (Err e, w') -> counted ws w'.
Proof.
  intros Hw _. cbn. destruct (pl_send ch h p d (wt_inner w)) as [r t]. by intros [= -> <-].
Qed.

Lemma counted_pick {A} (p : picked A * T) v ws w :
  counted (v :: ws) w ->
  match after_pick p w with
  | (PickReply _, w') => counted ws (pl_delete (w_mid v) w')
  | (PickOther _, w') => counted (v :: ws) w'
  | (PickDone _, w') => (wt_peak w' <= depth_of)%nat
  end.
Proof. intros (Hn & Hp & Hl). unfold after_pick, counted in *. cbn in *. destruct p as [[r|a|e] t]; cbn; lia. Qed.

Lemma counted_abandon v ws w : counted (v :: ws) w -> counted ws (pl_abandon (w_mid v) (w_respCh v) w).
Proof. unfold counted. cbn. lia. Qed.

Lemma counted_poll ws w : counted ws w -> counted ws (ctx_poll w).2.
Proof. intros Hw. cbn. by destruct (ctx_poll (wt_inner w)). Qed.

(** Whatever the server and the context do, a pipelined read or write never
    has more requests in flight than the depth for this server: at most fifty,
    and never more than the server said it takes at once. *)
Theorem pipeline_depth buf offset data (t : T) :
  match readPipelined c s f buf offset (mkWatched t 0 0) with
  | (Panic, _) => True
  | (_, w) => Z.of_nat (wt_peak w) <= Z.min 50 (Z.max 1 (maxMpxCount c))
  end /\
  match writePipelined c s f data offset (mkWatched t 0 0) with
  | (Panic, _) => True
  | (_, w) => Z.of_nat (wt_peak w) <= Z.min 50 (Z.max 1 (maxMpxCount c))
  end.
Proof.
  assert (Z.of_nat depth_of <= Z.min 50 (Z.max 1 (maxMpxCount c))) as Hd.
  { unfold depth_of, PipelineDepth, maxPipelineDepth. destruct (Z.leb_spec (maxMpxCount c) 1); cbn [fst]; [lia|].
    destruct (Z.ltb_spec 50 (maxMpxCount c)); cbn [fst]; lia. }
  assert (counted [] (mkWatched t 0 0)) as Hstart by (split_and!; cbn; lia).
  assert (forall A (m : M (watched T) A),
    runs (counted []) m (ended (fun w => (wt_peak w <= depth_of)%nat)) ->
    match m (mkWatched t 0 0) with
    | (Panic, _) => True
    | (_, w) => Z.of_nat (wt_peak w) <= Z.min 50 (Z.max 1 (maxMpxCount c))
    end) as Hfinal.
  { intros A m Hm. specialize (Hm _ Hstart). unfold ended in Hm. destruct (m _) as [[a|e|] w]; [lia..|done]. }
  split; apply Hfinal.
  - eapply (read_rule c s f counted _ depth_of);
      eauto using counted_make, counted_send, counted_refused, counted_abandon, counted_poll;
      [intros v ws w'; apply counted_pick..|by intros w' (_ & ? & _)].
  - eapply (write_rule c s f counted _ depth_of);
      eauto using counted_make, counted_send, counted_refused, counted_abandon, counted_poll;
      [intros v ws w'; apply counted_pick..|by intros w' (_ & ? & _)].
Qed.
End watch.

(** ** The connection

    Registering and sending on a channel of the caller's, as [sendReadRequest]
    and [sendWriteRequest] both do; compare [beginRequest], which makes its own. *)
Definition register (k : nat) (c : Conn) : res Z * Conn :=
  if done c then (match conn_err c with Some e => Err e | None => Panic end, c) else
  match allocateMID c with
  | (Ok mid, c) => (Ok mid, set_pending (<[mid := mkPending k false false]> (pending c)) c)
  | (Err e, c) => (Err e, c)
  | (Panic, c) => (Panic, c)
  end.

Definition send_chunk (k : nat) (header : Header) (params data : bytes)
    (ctx : option error) (fails : option (nat * error)) (c : Conn) (s : Session)
  : res Z * Conn * Session :=
  match register k c with
  | (Ok mid, c) =>
    match EncodePacket (Some (with_MID header mid)) params data with
    | Ok packet =>
      match WritePacketContext ctx fails packet s with
      | (Ok _, s) => (Ok mid, c, s)
      | (Err err, s) =>
        let c := cleanup mid c in
        let c := if negb (is_err err ErrNotSent)
                 then setError (Wrapf "smb1: failed to send packet" err) c else c in
        (Err err, c, s)
      | (Panic, s) => (Panic, c, s)
      end
    | Err e => (Err (Wrapf "smb1: failed to encode packet" e), cleanup mid c, s)
    | Panic => (Panic, c, s)
    end
  | (Err e, c) => (Err e, c, s)
  | (Panic, c) => (Panic, c, s)
  end.

(** What a [select] does: one of its ready cases, the one the environment
    prefers when that is ready.  The context, or the timer, is ready when the
    environment says so. *)
Inductive choice := WantReply | WantOther | WantDone.

(** The rest of the program before an operation, and what the operation finds. *)
Record turn := mkTurn {
  tu_others : Conn -> Conn;
  tu_ctx : option error;                (* the context at a write *)
  tu_fails : option (nat * error);      (* where a write fails *)
  tu_choice : choice;
  tu_cancel : error;                    (* ctx.Err() *)
}.

(** [pw_sent] records the requests that were registered and sent. *)
Record pipe_wire := mkPipeWire {
  pw_conn : Conn;
  pw_socket : Session;
  pw_turns : list turn;
  pw_sent : list (Z * nat);
}.
Definition quiet : turn := mkTurn id None None WantReply Canceled.

Definition wire_select {A} (a : turn -> A) (k : nat) (w : pipe_wire) : picked A * pipe_wire :=
  let tu := hd quiet (pw_turns w) in
  let c := tu_others tu (pw_conn w) in
  let next c := mkPipeWire c (pw_socket w) (tl (pw_turns w)) (pw_sent w) in
  match tu_choice tu, done c, chan_recv k c with
  | WantDone, true, _ | WantReply, true, None => (PickDone (conn_err c), next c)
  | WantReply, _, Some (r, c') | WantDone, false, Some (r, c') => (PickReply r, next c')
  | _, _, _ => (PickOther (a tu), next c)
  end.

#[export] Instance pipe_wire_pipeline : Pipeline pipe_wire := {
  pl_make w := let '(k, c) := make_chan 1 (pw_conn w) in
               (k, mkPipeWire c (pw_socket w) (pw_turns w) (pw_sent w));
  pl_send k h p d w :=
    let tu := hd quiet (pw_turns w) in
    if (next_chan (pw_conn w) <=? k)%nat then (Panic, w) else
    let '(r, c, s) := send_chunk k h p d (tu_ctx tu) (tu_fails tu) (tu_others tu (pw_conn w)) (pw_socket w) in
    (r, mkPipeWire c s (tl (pw_turns w)) (match r with Ok mid => pw_sent w ++ [(mid, k)] | _ => pw_sent w end));
  pl_wait := wire_select tu_cancel;
  pl_settle := wire_select (fun _ => ());
  pl_delete mid w := mkPipeWire (cleanup mid (pw_conn w)) (pw_socket w) (pw_turns w) (pw_sent w);
  pl_abandon mid k w :=
    mkPipeWire (releaseLocked mid k true (pw_conn w)) (pw_socket w) (pw_turns w) (pw_sent w);
}.
#[export] Instance pipe_wire_ctx : Ctx pipe_wire := {
  ctx_poll w := (tu_ctx (hd quiet (pw_turns w)),
                 mkPipeWire (pw_conn w) (pw_socket w) (tl (pw_turns w)) (pw_sent w));
}.

(** What every other goroutine respects: a closed connection stays closed,
    addresses of channels are not used again, and nobody registers a request on a
    channel that is not his own. *)
Definition polite (others : Conn -> Conn) : Prop := forall c,
  (done c = true -> done (others c) = true) /\ (next_chan c <= next_chan (others c))%nat /\
  (done (others c) = false -> forall k mid tr, (k < next_chan c)%nat ->
     pending (others c) !! mid = Some (mkPending k false tr) ->
     pending c !! mid = Some (mkPending k false tr)).

Lemma polite_id : polite id.
Proof. by intros c. Qed.

Lemma polite_compose f g : polite f -> polite g -> polite (fun c => g (f c)).
Proof.
  intros Hf Hg c. destruct (Hf c) as (Hf1 & Hf2 & Hf3). destruct (Hg (f c)) as (Hg1 & Hg2 & Hg3).
  split; [by auto|]. split; [lia|]. intros Hd k mid tr Hk Hm.
  destruct (done (f c)) eqn:E; [by rewrite Hg1 in Hd|]. apply (Hf3 eq_refl); [done|].
  apply (Hg3 Hd); [lia|done].
Qed.

Lemma try_send_frame k r c :
  pending (try_send k r c) = pending c /\ done (try_send k r c) = done c
  /\ next_chan (try_send k r c) = next_chan c.
Proof.
  unfold try_send. destruct (chans c !! k) as [ch|]; [|done].
  destruct (chan_closed ch); [done|]. by destruct (_ <? _).
Qed.

Lemma wake_all_frame p r c :
  done (wake_all p r c) = done c /\ next_chan (wake_all p r c) = next_chan c.
Proof.
  unfold wake_all. apply (map_fold_weak_ind (fun c' _ => done c' = done c /\ next_chan c' = next_chan c)); [done|].
  intros mid req m c' _ [Hd Hn]. destruct (try_send_frame (respCh req) r c') as (_ & -> & ->). done.
Qed.

Lemma setErrorLocked_frame e c :
  done (setErrorLocked e c) = true /\ next_chan (setErrorLocked e c) = next_chan c.
Proof.
  unfold setErrorLocked. destruct (done c) eqn:E; [done|]. cbn. split; [done|]. apply wake_all_frame.
Qed.

Lemma allocate_loop_frame fuel start : forall c r c',
  allocate_loop fuel start c = Some (r, c') ->
  next_chan c' = next_chan c /\
  match r with
  | Ok _ => pending c' = pending c /\ done c' = done c
  | Err _ => done c' = true
  | Panic => False
  end.
Proof.
  induction fuel as [|fuel IH]; intros c r c'; cbn [allocate_loop]; [done|].
  destruct (_ && _); [by intros [= <- <-]|]. destruct (_ =? start); [|intros E%IH; exact E].
  intros [= <- <-]. cbn. destruct (setErrorLocked_frame ErrMIDsExhausted (set_nextMID (wrap 16 (nextMID c + 1)) c)).
  done.
Qed.

Lemma allocateMID_frame c r c' :
  allocateMID c = (r, c') ->
  next_chan c' = next_chan c /\
  match r with
  | Ok _ | Panic => pending c' = pending c /\ done c' = done c
  | Err _ => done c' = true
  end.
Proof.
  unfold allocateMID. destruct (allocate_loop _ _ _) as [[r1 c1]|] eqn:E; cbn; intros [= <- <-]; [|done].
  pose proof (allocate_loop_frame _ _ _ _ _ E) as [Hn Hr]. split; [done|]. by destruct r1.
Qed.

(** Handing over a received message, tearing the connection down, registering
    another request and releasing one are polite. *)
Lemma dispatch_polite h p d : polite (fun c => (dispatch h p d c).2).
Proof.
  intros c. unfold dispatch. destruct (pending c !! MID h) as [req|]; [|done].
  destruct (cancelled req).
  - destruct (negb _); [|done]. cbn. split; [done|]. split; [done|]. intros _ k mid tr _.
    by intros [_ ?]%lookup_delete_Some.
  - cbn. destruct (try_send_frame (respCh req) (response_of h p d) c) as (-> & -> & ->). done.
Qed.

Lemma setError_polite e : polite (setError e).
Proof. intros c. unfold setError. destruct (setErrorLocked_frame e c) as [-> ->]. by split_and!. Qed.

Lemma begin_polite tr : polite (fun c => (begin_locked tr c).2).
Proof.
  intros c. unfold begin_locked. destruct (done c) eqn:Ed; cbn; [by rewrite Ed|].
  destruct (allocateMID c) as [[m|e|] c1] eqn:E; apply allocateMID_frame in E as [En E]; cbn.
  - destruct E as [-> E2]. split; [done|]. split; [lia|]. intros _ k mid tr' Hk.
    intros [[<- [= <- ?]]|[_ Hm]]%lookup_insert_Some; [lia|done].
  - rewrite E, En. split; [done|]. split; [done|]. intros [=].
  - destruct E as [-> ->]. rewrite En, Ed. done.
Qed.

Lemma released_frame m k ab c :
  done (releaseLocked m k ab c) = done c /\ next_chan (releaseLocked m k ab c) = next_chan c /\
  (forall mid k' tr, pending (releaseLocked m k ab c) !! mid = Some (mkPending k' false tr) ->
     pending c !! mid = Some (mkPending k' false tr) /\ (mid, k') <> (m, k)).
Proof.
  unfold releaseLocked. destruct (pending c !! m) as [req|] eqn:Em.
  2:{ split; [done|]. split; [done|]. intros mid k' tr Hm. split; [done|]. intros [= -> ->]. by rewrite Em in Hm. }
  destruct (bool_decide_reflect (respCh req = k)) as [<-|Hne]; cbn [negb].
  2:{ split; [done|]. split; [done|]. intros mid k' tr Hm. split; [done|]. intros [= -> ->].
      rewrite Em in Hm. by injection Hm as ->. }
  destruct (_ || _); cbn; split; try done; split; try done; intros mid k' tr.
  - intros [Hne Hm]%lookup_delete_Some. split; [done|congruence].
  - intros [[_ [=]]|[Hne Hm]]%lookup_insert_Some. split; [done|congruence].
Qed.

Lemma release_polite m k ab : polite (releaseLocked m k ab).
Proof.
  intros c. destruct (released_frame m k ab c) as (-> & -> & Hp). split; [done|]. split; [done|].
  intros _ k' mid tr _ Hm. by apply Hp in Hm as [? _].
Qed.

(** ** Nothing is left registered *)

(** The requests sent and still registered are among [ws]. *)
Definition accounted (ws : list wireRequest) (w : pipe_wire) : Prop :=
  Forall (fun tu => polite (tu_others tu)) (pw_turns w) /\
  (done (pw_conn w) = false -> Forall (fun '(mid, k) => (k < next_chan (pw_conn w))%nat /\
     forall tr, pending (pw_conn w) !! mid = Some (mkPending k false tr) -> mkWireRequest mid k ∈ ws)
     (pw_sent w)).

Lemma Forall_sent {sent : list (Z * nat)} {P P' : Z -> nat -> Prop} :
  (forall mid k, P mid k -> P' mid k) ->
  Forall (fun '(mid, k) => P mid k) sent -> Forall (fun '(mid, k) => P' mid k) sent.
Proof. intros HP Hf. eapply Forall_impl; [exact Hf|]. intros [mid k]. apply HP. Qed.

Lemma turn_polite l : Forall (fun tu => polite (tu_others tu)) l ->
  polite (tu_others (hd quiet l)) /\ Forall (fun tu => polite (tu_others tu)) (tl l).
Proof. destruct 1; [split; [apply polite_id|done]|done]. Qed.

(** An operation on the connection that only takes registrations away. *)
Lemma accounted_less ws ws' w c sock :
  accounted ws w -> (done (pw_conn w) = true -> done c = true) ->
  (next_chan (pw_conn w) <= next_chan c)%nat ->
  (done c = false -> forall mid k tr, (k < next_chan (pw_conn w))%nat ->
     pending c !! mid = Some (mkPending k false tr) ->
     pending (pw_conn w) !! mid = Some (mkPending k false tr) /\
     (mkWireRequest mid k ∈ ws -> mkWireRequest mid k ∈ ws')) ->
  accounted ws' (mkPipeWire c sock (pw_turns w) (pw_sent w)).
Proof.
  intros [Hp Hf] Hd Hn Hm. split; [done|]. cbn. intros Hopen.
  destruct (done (pw_conn w)) eqn:E; [by rewrite Hd in Hopen|].
  eapply Forall_sent, (Hf eq_refl). intros mid k [Hk Hr]. split; [lia|].
  intros tr Ht. destruct (Hm Hopen mid k tr Hk Ht) as [Ht' Hin]. by eapply Hin, Hr.
Qed.

(** The others' turn. *)
Lemma accounted_turn ws w :
  accounted ws w ->
  accounted ws (mkPipeWire (tu_others (hd quiet (pw_turns w)) (pw_conn w)) (pw_socket w)
                  (tl (pw_turns w)) (pw_sent w)).
Proof.
  intros [Hp Hf]. destruct (turn_polite _ Hp) as [Hpol Htl].
  destruct (Hpol (pw_conn w)) as (Hd & Hn & Hm).
  assert (accounted ws (mkPipeWire (tu_others (hd quiet (pw_turns w)) (pw_conn w)) (pw_socket w)
    (pw_turns w) (pw_sent w))) as [_ Ha].
  { apply (accounted_less ws); [done..|]. intros Ho mid k tr Hk Ht. split; [by apply Hm|done]. }
  by split.
Qed.

Lemma accounted_make ws w : accounted ws w -> accounted ws (pl_make w).2.
Proof. intros Hw. apply (accounted_less ws); [done|done|cbn; lia|]. by intros _ mid k tr _ Ht. Qed.

Lemma accounted_poll ws w : accounted ws w -> accounted ws (ctx_poll w).2.
Proof. intros [Hp Hf]. split; [apply turn_polite, Hp|exact Hf]. Qed.

Lemma accounted_delete v ws w :
  accounted (v :: ws) w -> accounted ws (pl_delete (w_mid v) w).
Proof.
  intros Hw. apply (accounted_less (v :: ws)); [done..|]. cbn. intros _ mid k tr _ [Hne Ht]%lookup_delete_Some.
  split; [done|]. intros [<-|Hin]%elem_of_cons; [done|done].
Qed.

Lemma accounted_abandon v ws w :
  accounted (v :: ws) w -> accounted ws (pl_abandon (w_mid v) (w_respCh v) w).
Proof.
  intros Hw. destruct (released_frame (w_mid v) (w_respCh v) true (pw_conn w)) as (Hd & Hn & Hp).
  apply (accounted_less (v :: ws)); [done|by rewrite Hd|by rewrite Hn|]. intros _ mid k tr _ Ht.
  apply Hp in Ht as [Ht Hne]. split; [done|].
  intros [<-|Hin]%elem_of_cons; [done|done].
Qed.

Lemma accounted_dead m k w : accounted [] w -> accounted [] (pl_abandon m k w).
Proof.
  intros Hw. destruct (released_frame m k true (pw_conn w)) as (Hd & Hn & Hp).
  apply (accounted_less []); [done|by rewrite Hd|by rewrite Hn|]. intros _ mid k' tr _ Ht.
  by apply Hp in Ht as [Ht _].
Qed.

Lemma chan_recv_frame k c r c' : chan_recv k c = Some (r, c') ->
  pending c' = pending c /\ done c' = done c /\ next_chan c' = next_chan c.
Proof.
  unfold chan_recv. destruct (chans c !! k) as [ch|]; [|done].
  destruct (queue ch); [destruct (chan_closed ch)|]; by intros [= <- <-].
Qed.

Lemma accounted_closed ws w : accounted ws w -> done (pw_conn w) = true -> accounted [] w.
Proof. intros [Hp _] Hd. split; [done|]. by rewrite Hd. Qed.

Lemma accounted_select {A} (a : turn -> A) v ws w :
  accounted (v :: ws) w ->
  match wire_select a (w_respCh v) w with
  | (PickReply _, w') => accounted ws (pl_delete (w_mid v) w')
  | (PickOther _, w') => accounted (v :: ws) w'
  | (PickDone _, w') => accounted [] w'
  end.
Proof.
  intros Hw%accounted_turn. unfold wire_select. revert Hw.
  set (c := tu_others _ _). intros Hw.
  assert (forall r c', chan_recv (w_respCh v) c = Some (r, c') -> accounted ws (pl_delete (w_mid v)
    (mkPipeWire c' (pw_socket w) (tl (pw_turns w)) (pw_sent w)))) as Hrecv.
  { intros r c' E. apply chan_recv_frame in E as (Ep & Ed & En). apply accounted_delete.
    apply (accounted_less (v :: ws) (v :: ws) _ c' (pw_socket w)) in Hw; [exact Hw|cbn; congruence|cbn; lia|].
    cbn. rewrite Ep. done. }
  destruct (tu_choice _); destruct (done c) eqn:Ed; destruct (chan_recv _ c) as [[r c']|] eqn:E;
    first [exact Hw|by eapply Hrecv|by apply (accounted_closed _ _ Hw)].
Qed.

(** A registration, and a whole send. *)
Lemma register_frame k c r c' : register k c = (r, c') ->
  next_chan c' = next_chan c /\ (done c = true -> done c' = true) /\
  match r with
  | Ok mid => pending c' = <[mid := mkPending k false false]> (pending c)
  | Err _ => done c' = true
  | Panic => True
  end.
Proof.
  unfold register. destruct (done c) eqn:Ed; [intros [= <- <-]; by destruct (conn_err c)|].
  destruct (allocateMID c) as [[m|e|] c1] eqn:E; apply allocateMID_frame in E as [En E]; intros [= <- <-]; cbn.
  - destruct E as [-> E]. done.
  - done.
  - done.
Qed.

Lemma send_chunk_frame k h p d ctx fails c sock r c' sock' :
  send_chunk k h p d ctx fails c sock = (r, c', sock') ->
  next_chan c' = next_chan c /\ (done c = true -> done c' = true) /\
  match r with
  | Ok mid => pending c' = <[mid := mkPending k false false]> (pending c)
  | Err _ => done c' = false -> forall mid k' tr, pending c' !! mid = Some (mkPending k' false tr) ->
      pending c !! mid = Some (mkPending k' false tr)
  | Panic => True
  end.
Proof.
  unfold send_chunk. destruct (register k c) as [[mid|e|] c1] eqn:E; apply register_frame in E as (En & Ed & E).
  2:{ intros [= <- <- <-]. split; [done|]. split; [done|]. rewrite E. done. }
  2:{ by intros [= <- <- <-]. }
  assert (forall mid' k' tr, pending (cleanup mid c1) !! mid' = Some (mkPending k' false tr) ->
    pending c !! mid' = Some (mkPending k' false tr)) as Hclean.
  { intros mid' k' tr. cbn. intros [Hne Ht]%lookup_delete_Some. rewrite E in Ht.
    by rewrite lookup_insert_ne in Ht. }
  destruct (EncodePacket _ _ _) as [packet|e|]; [|intros [= <- <- <-]; by split_and!|by intros [= <- <- <-]].
  destruct (WritePacketContext _ _ _ _) as [[u|e|] sock1]; intros [= <- <- <-]; [done| |done].
  destruct (negb _); [|by split_and!]. unfold setError.
  destruct (setErrorLocked_frame (Wrapf "smb1: failed to send packet" e) (cleanup mid c1)) as [Hd Hn].
  rewrite Hd, Hn. by split_and!.
Qed.

Lemma accounted_send ws k h p d w w' mid :
  accounted ws w -> pl_send k h p d w = (Ok mid, w') -> accounted (ws ++ [mkWireRequest mid k]) w'.
Proof.
  cbn. destruct (Nat.leb_spec (next_chan (pw_conn w)) k) as [?|Hk]; [done|].
  intros Hw. pose proof (accounted_turn _ _ Hw) as [Hp Hf]. cbn in Hp, Hf. destruct Hw as [Hpol _].
  apply turn_polite in Hpol as [Hpol _]. destruct (Hpol (pw_conn w)) as (_ & Hn & _).
  destruct (send_chunk _ _ _ _ _ _ _ _) as [[r c'] sock'] eqn:E. intros [= -> <-].
  apply send_chunk_frame in E as (En & Ed & E). split; [done|]. cbn. intros Hopen. apply Forall_app. split.
  - destruct (done (tu_others _ _)) eqn:Ed'; [by rewrite Ed in Hopen|]. eapply Forall_sent, (Hf eq_refl).
    intros mid' k' [Hk' Hr]. split; [lia|]. intros tr. rewrite E.
    intros [[<- [= <- _]]|[_ Ht]]%lookup_insert_Some; apply elem_of_app; [right; by apply list_elem_of_singleton|].
    left. by eapply Hr.
  - apply Forall_singleton. split; [lia|]. intros tr _. apply elem_of_app. right. by apply list_elem_of_singleton.
Qed.

Lemma accounted_refused ws k h p d w w' e :
  accounted ws w -> pl_send k h p d w = (Err e, w') -> accounted ws w'.
Proof.
  cbn. destruct (_ <=? k)%nat; [done|]. intros Hw%accounted_turn.
  destruct (send_chunk _ _ _ _ _ _ _ _) as [[r c'] sock'] eqn:E. intros [= -> <-].
  apply send_chunk_frame in E as (En & Ed & E).
  apply (accounted_less ws ws _ c' sock') in Hw; [exact Hw|exact Ed|cbn; lia|]. cbn. intros Ho mid k' tr _ Ht.
  split; [by apply E|done].
Qed.

(** Somebody waits for the request: it is registered, and not as given up, on an
    open connection. *)
Definition awaited (c : Conn) (mid : Z) (k : nat) : Prop :=
  done c = false /\ exists tr, pending c !! mid = Some (mkPending k false tr).
Definition none_awaited (w : pipe_wire) : Prop :=
  forall mid k, (mid, k) ∈ pw_sent w -> ~ awaited (pw_conn w) mid k.

Lemma accounted_none w : accounted [] w -> none_awaited w.
Proof.
  intros [_ Hf] mid k Hin [Hd [tr Hr]]. specialize (Hf Hd). rewrite Forall_forall in Hf.
  destruct (Hf _ Hin) as [_ Ha]. by eapply not_elem_of_nil, Ha.
Qed.

(** C17: when a pipelined read or write returns, nobody is left waiting for any of
    the requests it sent: each was answered, given up (its MID stays reserved until
    the late reply), or swept by the teardown of the connection; whatever the
    replies, cancellations, timeouts, failing sends and other goroutines. *)
Theorem transfers_leave_nothing c s f buf data offset (w : pipe_wire) :
  Forall (fun tu => polite (tu_others tu)) (pw_turns w) -> pw_sent w = [] ->
  match readPipelined c s f buf offset w with (Panic, _) => True | (_, w') => none_awaited w' end /\
  match writePipelined c s f data offset w with (Panic, _) => True | (_, w') => none_awaited w' end.
Proof.
  intros Hp Hs. assert (accounted [] w) as Hw by (split; [done|]; by rewrite Hs).
  assert (forall A (m : M pipe_wire A), runs (accounted []) m (ended (accounted [])) ->
    match m w with (Panic, _) => True | (_, w') => none_awaited w' end) as Hfinal.
  { intros A m Hm. specialize (Hm w Hw). unfold ended in Hm. destruct (m w) as [[a|e|] w'];
      [by apply accounted_none..|done]. }
  split; apply Hfinal.
  - eapply (read_rule c s f accounted _ _); eauto using accounted_make, accounted_send, accounted_refused,
      accounted_abandon, accounted_poll, accounted_dead; intros v ws w1; apply accounted_select.
  - eapply (write_rule c s f accounted _ _); eauto using accounted_make, accounted_send, accounted_refused,
      accounted_abandon, accounted_poll, accounted_dead; intros v ws w1; apply accounted_select.
Qed.

(** A read of two chunks: the first is answered while another goroutine starts a
    request, then the caller's context ends and the second is given up. *)
Definition example_pipe : pipe_wire :=
  mkPipeWire NewConn (mkSession [] EOF [] false [])
    [quiet; mkTurn (fun c => (begin_locked true c).2) None None WantReply Canceled;
     mkTurn (fun c => (dispatch (with_MID (reply_of SMB_COM_READ_ANDX 0 0 0) 0)
        (r_params (read_reply (replicate (Z.to_nat 15620) Byte.x41))) (replicate (Z.to_nat 15620) Byte.x41) c).2) None None WantReply Canceled;
     mkTurn id None None WantOther Canceled] [].

Definition example_buf : bytes := replicate (Z.to_nat 20000) Byte.x00.

Example example_pipe_reads :
  match readPipelined example_negotiated example_session example_file example_buf 0
          example_pipe with
  | (Ok (_, out), w) => out = (15620, Some Canceled) /\ pw_sent w = [(0, 0%nat); (2, 1%nat)]
      /\ cancelled <$> pending (pw_conn w) !! 2 = Some true
  | _ => False
  end.
Proof. vm_compute. by split_and!. Qed.

Lemma transfers_leave_nothing_witness :
  Forall (fun tu => polite (tu_others tu)) (pw_turns example_pipe) /\
  match readPipelined example_negotiated example_session example_file example_buf 0 example_pipe with
  | (Panic, _) => True
  | (_, w') => none_awaited w'
  end.
Proof.
  assert (Forall (fun tu => polite (tu_others tu)) (pw_turns example_pipe)) as H.
  { unfold example_pipe, pw_turns. repeat (apply Forall_cons; split); cbn [tu_others];
      [apply polite_id|apply begin_polite|apply dispatch_polite|apply polite_id|apply Forall_nil_2]. }
  assert (pw_sent example_pipe = []) as Hs by reflexivity. split; [exact H|].
  pose proof (transfers_leave_nothing example_negotiated example_session example_file
    example_buf [] 0 example_pipe H Hs) as [Hr _]. exact Hr.
Defined.
