(* ===== verification/PipeServer.v ===== *)
(** * Pipelined transfers against a file server

    A server of one file that takes requests while others are outstanding and
    answers them in any order, each as far as it likes ([pipe_server]), and what
    the pipelined transfers of [Transfer] make of it: which bytes a read gets, and
    what of a write is in the file. *)

From S2P Require Export Transfer.

(** ** The server *)

(** What happens while the client waits: the server handles a request it has
    received, hands a reply over, the context or timer fires, the connection
    ends (as it does when there is nothing left). *)
Inductive pipe_event := Serve (j : nat) | Deliver | Fire | Drop.

Record pipe_server := mkPipeServer {
  ps_file : file_server;
  ps_next : nat;                                      (* the next channel, and MID *)
  ps_inbox : list (nat * (Header * bytes * bytes));   (* received, not handled *)
  ps_replies : gmap nat response;                     (* sent, not received *)
  ps_sends : list (option error);                     (* the sends that fail *)
  ps_events : list pipe_event;
}.

Definition serve_nth (j : nat) (t : pipe_server) : pipe_server :=
  match ps_inbox t !! j with
  | Some (ch, (h, p, d)) =>
    match serve h p d (ps_file t) with
    | (Ok r, file) =>
      mkPipeServer file (ps_next t) (delete j (ps_inbox t)) (<[ch := r]> (ps_replies t)) (ps_sends t) (ps_events t)
    | _ => t
    end
  | None => t
  end.

Definition with_events (es : list pipe_event) (t : pipe_server) : pipe_server :=
  mkPipeServer (ps_file t) (ps_next t) (ps_inbox t) (ps_replies t) (ps_sends t) es.
Definition taken (ch : nat) (es : list pipe_event) (t : pipe_server) : pipe_server :=
  mkPipeServer (ps_file t) (ps_next t) (ps_inbox t) (delete ch (ps_replies t)) (ps_sends t) es.

Fixpoint pump {A} (a : A) (ch : nat) (es : list pipe_event) (t : pipe_server) : picked A * pipe_server :=
  match es with
  | [] => (PickDone (Some conn_ErrConnectionClosed), with_events [] t)
  | Serve j :: es => pump a ch es (serve_nth j t)
  | Deliver :: es =>
    match ps_replies t !! ch with
    | Some r => (PickReply (Some r), taken ch es t)
    | None => pump a ch es t
    end
  | Fire :: es => (PickOther a, with_events es t)
  | Drop :: es => (PickDone (Some conn_ErrConnectionClosed), with_events es t)
  end.

#[export] Instance pipe_server_pipeline : Pipeline pipe_server := {
  pl_make t := (ps_next t, mkPipeServer (ps_file t) (S (ps_next t)) (ps_inbox t) (ps_replies t) (ps_sends t) (ps_events t));
  pl_send ch h p d t :=
    match hd None (ps_sends t) with
    | Some e => (Err e, mkPipeServer (ps_file t) (ps_next t) (ps_inbox t) (ps_replies t) (tl (ps_sends t)) (ps_events t))
    | None =>
      (Ok (Z.of_nat ch), mkPipeServer (ps_file t) (ps_next t) (ps_inbox t ++ [(ch, (h, p, d))]) (ps_replies t)
                           (tl (ps_sends t)) (ps_events t))
    end;
  pl_wait ch t := pump Canceled ch (ps_events t) t;
  pl_settle ch t := pump () ch (ps_events t) t;
  pl_delete mid t := t;
  pl_abandon mid ch t := t;
}.

(** The context of a write, looked at between waits, is the file server's. *)
#[export] Instance pipe_server_ctx : Ctx pipe_server := {
  ctx_poll t := let '(e, file) := ctx_poll (ps_file t) in
                (e, mkPipeServer file (ps_next t) (ps_inbox t) (ps_replies t) (ps_sends t) (ps_events t));
}.

(** ** Chunks: properties *)

Lemma chunk_bounds_spec total per i :
  0 < total -> 0 < per -> 0 <= i < numChunks total per ->
  let '(o, size) := chunk_bounds total per i in
  o = i * per /\ 0 < size <= per /\ o + size <= total /\
  (i + 1 < numChunks total per -> size = per) /\ (i + 1 = numChunks total per -> o + size = total).
Proof.
  unfold chunk_bounds, numChunks. intros Ht Hp Hi. split; [done|].
  assert (i * per < total) by (Z.to_euclidean_division_equations; nia).
  assert (i + 1 < (total + per - 1) / per -> (i + 1) * per < total)
    by (intros; Z.to_euclidean_division_equations; nia).
  assert (i + 1 = (total + per - 1) / per -> total <= (i + 1) * per)
    by (intros; Z.to_euclidean_division_equations; nia).
  destruct (Z.ltb_spec total (i * per + per)); lia.
Qed.

Lemma numChunks_pos total per : 0 < total -> 0 < per -> 0 < numChunks total per.
Proof. intros. unfold numChunks. Z.to_euclidean_division_equations; nia. Qed.

Lemma collect_total {T} `{Pipeline T} ws : forall t : T, exists t', collectReplies ws t = (Ok (), t').
Proof.
  induction ws as [|w ws IH]; intros t; cbn [collectReplies]; [by eexists|].
  unfold mbind_M at 1. destruct (pl_settle _ t) as [[r|u|e] t1]; [apply IH|by eexists|by eexists].
Qed.

(** Giving up does nothing to the server. *)
Lemma abandon_id ws (t : pipe_server) : abandonChunks ws t = (Ok (), t).
Proof. unfold abandonChunks, act. f_equal. revert t. induction ws as [|w ws IH]; intros t; [done|apply IH]. Qed.

(** ** Chunks in order

    [P i chunk] says that [chunk] is the one with index [i]; [R i j] is kept of
    the server while the requests of the chunks from [i] up to [j] are under way;
    [next] is the next channel; [G i j] says that the chunk with index [j] may then
    be sent. *)
Section ordered.
Context {T C : Type} `{PT : Pipeline T} (P : Z -> C -> Prop).

Definition chunks_from (i : Z) (l : list C) : Prop :=
  forall j chunk, l !! j = Some chunk -> P (i + Z.of_nat j) chunk.

Lemma chunks_from_cons i x l : chunks_from i (x :: l) <-> P i x /\ chunks_from (i + 1) l.
Proof.
  split.
  - intros H. split; [specialize (H 0%nat x eq_refl); by rewrite Z.add_0_r in H|].
    intros j y Hj. specialize (H (S j) y Hj). by replace (i + 1 + Z.of_nat j) with (i + Z.of_nat (S j)) by lia.
  - intros [Hx Hl] [|j] y; [intros [= <-]; by rewrite Z.add_0_r|].
    intros Hj. replace (i + Z.of_nat (S j)) with (i + 1 + Z.of_nat j) by lia. by apply Hl.
Qed.

Lemma chunks_from_nil i : chunks_from i [].
Proof. by intros j chunk. Qed.

Lemma chunks_from_app a : forall i b,
  chunks_from i (a ++ b) <-> chunks_from i a /\ chunks_from (i + Z.of_nat (length a)) b.
Proof.
  induction a as [|x a IH]; intros i b; cbn [app length].
  - rewrite Z.add_0_r. pose proof (chunks_from_nil i). tauto.
  - rewrite !chunks_from_cons, IH. replace (i + 1 + Z.of_nat (length a)) with (i + Z.of_nat (S (length a))) by lia.
    tauto.
Qed.

(** A chunk replaced by itself with its MID. *)
Lemma chunks_from_next i a x y b :
  chunks_from i (a ++ x :: b) -> P (i + Z.of_nat (length a)) y -> chunks_from i ((a ++ [y]) ++ b).
Proof.
  rewrite !chunks_from_app, !chunks_from_cons, length_app. cbn [length].
  replace (i + Z.of_nat (length a + 1)) with (i + Z.of_nat (length a) + 1) by lia.
  pose proof (chunks_from_nil (i + Z.of_nat (length a) + 1)). tauto.
Qed.

Lemma chunks_from_mid i a x b : chunks_from i (a ++ x :: b) -> P (i + Z.of_nat (length a)) x.
Proof. rewrite chunks_from_app, chunks_from_cons. tauto. Qed.

Context (num : Z) (R : Z -> Z -> T -> Prop) (next : T -> nat) (failing : error -> Prop) (G : Z -> Z -> Prop).

(** What making a channel keeps. *)
Definition makes_ok : Prop := forall t, R 0 0 t ->
  (pl_make t).1 = next t /\ next (pl_make t).2 = S (next t) /\ R 0 0 (pl_make t).2.

Lemma make_all (mk : wireRequest -> Z -> M T C) base n :
  makes_ok ->
  (forall i t, 0 <= i < num -> R 0 0 t ->
     exists x, mk (mkWireRequest 0 (base + Z.to_nat i)) i t = (Ok x, t) /\ P i x) ->
  forall i t, 0 <= i -> i + Z.of_nat n <= num -> next t = (base + Z.to_nat i)%nat -> R 0 0 t ->
  exists l t', make_chunks mk n i t = (Ok l, t') /\ length l = n /\ chunks_from i l /\ R 0 0 t'.
Proof.
  intros HR Hmk. induction n as [|n IH]; intros i t Hi Hn Hb Ht; cbn [make_chunks].
  { eexists [], t. split_and!; done. }
  unfold mbind_M at 1, make_wire. destruct (HR t Ht) as (E1 & E2 & Ht1).
  destruct (pl_make t) as [ch t1]. cbn [fst snd] in E1, E2, Ht1. subst ch. rewrite Hb in E2 |- *.
  destruct (Hmk i t1 ltac:(lia) Ht1) as (x & E & Hx). unfold mbind_M at 1. rewrite E. unfold mbind_M at 1.
  destruct (IH (i + 1) t1) as (l & t' & -> & Hl & Hch & Ht'); [lia|lia|rewrite E2; lia|done|].
  eexists _, t'. split; [reflexivity|]. split; [cbn; lia|]. split; [|done]. by apply chunks_from_cons.
Qed.

Definition sends_ok (send : C -> M T C) : Prop := forall k i chunk t,
  0 <= k <= i -> i < num -> G k i -> P i chunk -> R k i t ->
  (exists chunk' t', send chunk t = (Ok chunk', t') /\ P i chunk' /\ R k (i + 1) t') \/
  (exists e t', send chunk t = (Err e, t') /\ failing e /\ R k i t').

Lemma send_all send batch : sends_ok send -> forall sent t,
  (forall i, 0 <= i < Z.of_nat (length (sent ++ batch)) -> G 0 i) ->
  Z.of_nat (length (sent ++ batch)) <= num -> chunks_from 0 (sent ++ batch) -> R 0 (Z.of_nat (length sent)) t ->
  exists sent' err t', send_batch send batch sent t = (Ok (sent', err), t') /\
    chunks_from 0 sent' /\ R 0 (Z.of_nat (length sent')) t' /\ (length sent' <= length (sent ++ batch))%nat /\
    match err with
    | None => length sent' = length (sent ++ batch)
    | Some e => failing e
    end.
Proof.
  intros Hsend. induction batch as [|chunk batch IH]; intros sent t HG Hl Hch Ht; cbn [send_batch].
  { rewrite app_nil_r in *. by exists sent, None, t. }
  pose proof (chunks_from_mid _ _ _ _ Hch) as Hc'. rewrite length_app in Hl, HG. cbn [length] in Hl, HG. unfold try_M.
  destruct (Hsend 0 (0 + Z.of_nat (length sent)) chunk t) as [(chunk' & t1 & -> & Hc1 & Ht1)|(e & t1 & -> & He & Ht1)];
    [lia|lia|apply HG; lia|done|done| |].
  - destruct (IH (sent ++ [chunk']) t1) as (sent' & err & t' & E & Hr);
      [intros i'; rewrite !length_app; cbn [length]; intros Hi'; apply HG; lia|
       rewrite !length_app; cbn; lia|by eapply chunks_from_next| |].
    { rewrite length_app. cbn [length]. by replace (Z.of_nat (length sent + 1)) with (0 + Z.of_nat (length sent) + 1) by lia. }
    exists sent', err, t'. split; [done|].
    assert (length ((sent ++ [chunk']) ++ batch) = length (sent ++ chunk :: batch)) as El
      by (rewrite !length_app; cbn; lia).
    by rewrite El in Hr.
  - eexists sent, (Some e), t1. split; [done|]. apply chunks_from_app in Hch as [Hch _].
    rewrite length_app. split_and!; [done..|lia|done].
Qed.
End ordered.

Lemma width_range c num : 0 < num ->
  (0 < Z.to_nat (pipeline_width c num) <= Z.to_nat num)%nat /\ pipeline_width c num <= maxPipelineDepth.
Proof.
  intros Hn. unfold pipeline_width, PipelineDepth, maxPipelineDepth.
  destruct (maxMpxCount c <=? 1) eqn:E1; cbn [fst]; [destruct (num <? 1) eqn:E2; lia|].
  destruct (50 <? maxMpxCount c) eqn:E2; cbn [fst]; destruct (num <? _) eqn:E3; lia.
Qed.

(** ** Reading *)

Section reading.
Context (c : Negotiated) (s : UserSession) (f : File) (srv : file_server).
Context (Hc : has_cap c CAP_LARGE_FILES = true) (Hf : 0 <= f_fid f < 2 ^ 16)
  (Hs : f_fid f = server_fid srv).
Context (base : nat) (buf0 : bytes) (offset : Z).
Context (Hsize : 0 < len buf0) (Ho : 0 <= offset).
Context (Hb : offset + len buf0 < 2 ^ 64 \/ offset < 2 ^ 63 /\ len (content srv) < 2 ^ 63).

Let per := maxReadChunk c.
Let num := numChunks (len buf0) per.

(** The chunk with index [i], sent with some MID. *)
Definition chunk_at (i : Z) (chunk : readChunk) : Prop :=
  w_respCh (rc_wire chunk) = (base + Z.to_nat i)%nat /\
  rc_bufOffset chunk = (chunk_bounds (len buf0) per i).1 /\
  rc_size chunk = (chunk_bounds (len buf0) per i).2 /\
  rc_offset chunk = offset + (chunk_bounds (len buf0) per i).1.

Definition part (k o : Z) : bytes := file_part srv k o.

(** What the server may answer a chunk. *)
Definition read_answer (i : Z) (r : response) : Prop :=
  let '(o, size) := chunk_bounds (len buf0) per i in
  (len (content srv) <= offset + o /\
   (r = status_reply SMB_COM_READ_ANDX STATUS_END_OF_FILE \/ r = read_reply [])) \/
  exists k, 0 < k <= size /\ k <= len (content srv) - (offset + o) /\ r = read_reply (part k (offset + o)).

Lemma len_part k o : 0 <= k -> 0 <= o -> k <= len (content srv) - o \/ k = 0 -> len (part k o) = k.
Proof. intros. unfold part. rewrite len_file_part by lia. lia. Qed.

(** A chunk is sent only when the ones before those under way have been read, so
    that its offset fits its field. *)
Definition may_send (k i : Z) : Prop :=
  i <= k + maxPipelineDepth /\ (k = 0 \/ offset + k * per <= len (content srv)).

(** The request of a chunk, and how the server handles it. *)
Lemma chunk_request k i chunk : 0 <= i < num -> may_send k i -> chunk_at i chunk ->
  exists p, EncodeReadRequest (Some (read_request f (rc_size chunk) (rc_offset chunk)))
      (has_cap c CAP_LARGE_FILES) (has_cap c CAP_LARGE_READX) = Ok (p, []) /\
    exists r, serve_read p srv = Ok r /\ read_answer i r.
Proof.
  intros Hi [Hw Hk] (Ech & Ebuf & Esize & Eoff). unfold maxPipelineDepth in Hw.
  pose proof (maxReadChunk_range c) as Hper. fold per in Hper. unfold MaxSmallDataSize in Hper.
  pose proof (chunk_bounds_spec (len buf0) per i Hsize ltac:(lia) Hi) as Hbounds.
  unfold read_answer. rewrite Esize, Eoff. destruct (chunk_bounds _ _ _) as [o size]. cbn [fst snd].
  destruct Hbounds as (-> & Hsz & Hle & _ & _).
  destruct (serve_read_request f size (offset + i * per) (has_cap c CAP_LARGE_READX) srv) as (p & E1 & E2); [lia|lia|destruct Hk as [->|]; nia|lia..|].
  exists p. rewrite Hc. split; [done|]. cbv zeta in E2. rewrite E2.
  destruct (Z.leb_spec (len (content srv) - (offset + i * per)) 0).
  - eexists. split; [reflexivity|]. left. split; [lia|]. destruct (eof_status srv); auto.
  - eexists. split; [reflexivity|]. right. eexists. split; [|split; [|reflexivity]]; lia.
Qed.

Lemma copy_next (a b d : bytes) o size :
  len a = o -> len d <= size -> size <= len b ->
  copy_at (a ++ b) o (o + size) d = Ok ((a ++ d) ++ drop (length d) b).
Proof.
  intros <- Hd Hl. unfold copy_at. pose proof (len_nonneg a). pose proof (len_nonneg d).
  assert ((0 <=? len a) && (len a <=? len a + size) && (len a + size <=? len (a ++ b)) = true) as ->
    by (rewrite !andb_true_iff, !Z.leb_le, len_app; lia).
  replace (Z.to_nat (len a)) with (length a) by (unfold len; lia).
  replace (Z.to_nat (Z.min (len a + size - len a) (len d))) with (length d) by (unfold len in *; lia).
  rewrite take_app_length, (take_ge d), drop_app_add by lia. by rewrite <- app_assoc.
Qed.

(** Chunks before [i] were read in full: [total] bytes. *)
Definition so_far (i total : Z) : Prop :=
  total = Z.min (i * per) (len buf0) /\ (total = 0 \/ total <= len (content srv) - offset).

Lemma per_pos : 0 < per < 2 ^ 16.
Proof. pose proof (maxReadChunk_range c) as H. unfold MaxSmallDataSize in H. subst per. lia. Qed.

Lemma next_so_far i total k : 0 <= i < num -> so_far i total -> k = (chunk_bounds (len buf0) per i).2 ->
  k <= len (content srv) - (offset + total) -> so_far (i + 1) (total + k).
Proof.
  intros Hi [Ht Hav] -> Hk. pose proof per_pos as Hp. pose proof (chunk_bounds_spec (len buf0) per i Hsize ltac:(lia) Hi) as Hb'.
  destruct (chunk_bounds _ _ _) as [o size]. cbn [snd] in *. destruct Hb' as (-> & H1 & H2 & H3 & H4).
  unfold so_far. assert (i + 1 < num \/ i + 1 = num) as [Hn|Hn] by lia.
  - specialize (H3 Hn). split; [nia|lia].
  - specialize (H4 Hn). split; [nia|lia].
Qed.

(** *** From any server that keeps its word

    [R i j] is kept of the server while the requests of the chunks from [i] up to
    [j] are under way: each is answered as above, or something goes wrong
    ([faulty]). *)
Section served.
Context {T : Type} `{PT : Pipeline T} (R : Z -> Z -> T -> Prop) (next : T -> nat) (faulty : Prop).

Record serves_reads : Prop := {
  sr_make : makes_ok R next;
  sr_send : sends_ok chunk_at num R (fun e => e <> EOF /\ faulty) may_send (sendReadRequest c s f);
  sr_wait : forall i j t, 0 <= i < j -> j <= num -> R i j t ->
    match pl_wait (base + Z.to_nat i) t with
    | (PickReply (Some r), t') => R (i + 1) j t' /\ read_answer i r
    | (PickReply None, _) => False
    | (PickOther e, t') | (PickDone (Some e), t') => e <> EOF /\ faulty
    | (PickDone None, t') => False
    end;
  sr_settle : forall i j t, 0 <= i < j -> j <= num -> R i j t ->
    match pl_settle (base + Z.to_nat i) t with
    | (PickReply _, t') => R (i + 1) j t'
    | _ => faulty
    end;
  sr_delete : forall i j mid t, R i j t -> R i j (pl_delete mid t);
}.
Context (Hserves : serves_reads).

(** What a read of the whole buffer may come to. *)
Definition read_result (out : res (bytes * (Z * option error)) * T) : Prop :=
  exists n err, out.1 = Ok (part n offset ++ drop (Z.to_nat n) buf0, (n, err)) /\
    0 <= n <= len buf0 /\ (n = 0 \/ n <= len (content srv) - offset) /\
    (err = None -> 0 < n) /\ (err = Some EOF -> n = 0 /\ len (content srv) <= offset) /\
    (forall e, err = Some e -> e = EOF \/ faulty) /\ (faulty \/ exists k, 0 < k /\ R k k out.2).

(** The rest of the replies, taken. *)
Lemma collect_settled l : forall i t, 0 < i -> i + Z.of_nat (length l) <= num -> chunks_from chunk_at i l ->
  R i (i + Z.of_nat (length l)) t ->
  exists t', collectReplies (rc_wire <$> l) t = (Ok (), t') /\ (faulty \/ exists k, 0 < k /\ R k k t').
Proof.
  induction l as [|x l IH]; intros i t Hi Hl Hch Ht.
  { exists t. split; [done|]. right. exists i. rewrite Z.add_0_r in Ht. done. }
  pose proof Hch as [(Ech & _) Hch']%chunks_from_cons. cbn [length] in Hl, Ht. rewrite fmap_cons. cbn [collectReplies].
  unfold mbind_M at 1. rewrite Ech.
  pose proof (sr_settle Hserves i (i + Z.of_nat (S (length l))) t ltac:(lia) Hl Ht) as Hset.
  destruct (pl_settle _ t) as [[r|u|e] t1].
  - unfold mbind_M at 1, act. apply (IH (i + 1)); [lia|lia|done|].
    replace (i + 1 + Z.of_nat (length l)) with (i + Z.of_nat (S (length l))) by lia. by apply (sr_delete Hserves).
  - eexists. split; [reflexivity|by left].
  - eexists. split; [reflexivity|by left].
Qed.

Lemma stops total err out t :
  out = Ok (part total offset ++ drop (Z.to_nat total) buf0, (total, err)) ->
  0 <= total <= len buf0 -> (total = 0 \/ total <= len (content srv) - offset) ->
  (err = None -> 0 < total) -> (err = Some EOF -> total = 0 /\ len (content srv) <= offset) ->
  (forall e, err = Some e -> e = EOF \/ faulty) -> (faulty \/ exists k, 0 < k /\ R k k t) ->
  read_result (out, t).
Proof. intros. by exists total, err. Qed.

(** A read that ends, with the chunks [l] from [i] on under way. *)
Lemma ends i l total err t : 0 < i -> i + Z.of_nat (length l) <= num -> chunks_from chunk_at i l ->
  R i (i + Z.of_nat (length l)) t ->
  0 <= total <= len buf0 -> (total = 0 \/ total <= len (content srv) - offset) ->
  (err = None -> 0 < total) -> (err = Some EOF -> total = 0 /\ len (content srv) <= offset) ->
  (forall e, err = Some e -> e = EOF \/ faulty) ->
  read_result ((let* _ := collectReplies (rc_wire <$> l) in
                ret (part total offset ++ drop (Z.to_nat total) buf0, (total, err))) t).
Proof.
  intros Hi Hl Hch Ht H1 H2 H3 H4 H5. destruct (collect_settled l i t Hi Hl Hch Ht) as (t' & E & Hk).
  unfold mbind_M. rewrite E. by apply (stops total err).
Qed.

(** A read that fails. *)
Lemma fails ws total e t : 0 <= total <= len buf0 -> (total = 0 \/ total <= len (content srv) - offset) ->
  e <> EOF -> faulty ->
  read_result ((let* _ := collectReplies ws in
                ret (part total offset ++ drop (Z.to_nat total) buf0, (total, Some e))) t).
Proof.
  intros H1 H2 He Hfa. destruct (collect_total ws t) as (t' & E). unfold mbind_M. rewrite E.
  apply (stops total (Some e)); try done; [congruence|by right|by left].
Qed.

(** The end of the file at chunk [i]. *)
Lemma stops_at_end i l total t : 0 <= i < num -> so_far i total -> len (content srv) <= offset + i * per ->
  i + 1 + Z.of_nat (length l) <= num -> chunks_from chunk_at (i + 1) l -> R (i + 1) (i + 1 + Z.of_nat (length l)) t ->
  read_result ((if 0 <? total
    then let* _ := collectReplies (rc_wire <$> l) in ret (part total offset ++ drop (Z.to_nat total) buf0, (total, None))
    else let* _ := collectReplies (rc_wire <$> l) in ret (part total offset ++ drop (Z.to_nat total) buf0, (0, Some EOF))) t).
Proof.
  intros Hi [Ht Hav] Hend Hl Hch HR. pose proof per_pos. destruct (Z.ltb_spec 0 total).
  - apply (ends (i + 1)); try done; lia.
  - assert (total = 0) as -> by lia. assert (i = 0) as -> by nia.
    apply (ends (0 + 1)); try done; [lia|intros _; lia|]. intros e [= <-]. by left.
Qed.

Lemma read_loop_served n : forall i inflight unsent total t,
  0 <= i -> i + Z.of_nat (length (inflight ++ unsent)) = num -> Z.of_nat n = num - i ->
  (inflight = [] -> unsent = []) -> Z.of_nat (length inflight) <= maxPipelineDepth ->
  chunks_from chunk_at i (inflight ++ unsent) -> so_far i total -> R i (i + Z.of_nat (length inflight)) t ->
  read_result (read_loop n c s f inflight unsent (part total offset ++ drop (Z.to_nat total) buf0) total t).
Proof.
  pose proof per_pos as Hper. pose proof (numChunks_pos (len buf0) per Hsize ltac:(lia)) as Hnum.
  induction n as [|n IH]; intros i inflight unsent total t Hi Hl Hn Hne Hw Hch Hsf Ht.
  { assert (i = num /\ inflight = []) as [-> ->].
    { rewrite length_app in Hl. split; [lia|]. apply nil_length_inv. lia. }
    cbn [read_loop length] in *. rewrite Z.add_0_r in Ht. destruct Hsf as [Htot Hav].
    pose proof (chunk_bounds_spec (len buf0) per (num - 1) Hsize ltac:(lia) ltac:(lia)) as Hlast.
    apply (stops total None); [done|lia|done| |done|done|right; by exists num].
    intros _. destruct (chunk_bounds _ _ _). nia. }
  destruct inflight as [|chunk inflight]; [rewrite Hne in Hl by done; cbn in Hl; lia|].
  assert (0 <= i < num) as Hi' by lia. rewrite <- app_comm_cons in Hch. pose proof Hch as Hch0.
  apply chunks_from_cons in Hch as [(Ech & Ebuf & Esize & _) Hch].
  pose proof (chunk_bounds_spec (len buf0) per i Hsize ltac:(lia) Hi') as Hbs.
  cbn [length app] in Ht, Hl, Hw. pose proof Hl as Hl'. rewrite length_app in Hl'.
  cbn [read_loop]. unfold mbind_M at 1. rewrite Ech.
  pose proof (sr_wait Hserves i (i + Z.of_nat (S (length inflight))) t ltac:(lia) ltac:(lia) Ht) as Hp. pose proof Hsf as [Etot Hav].
  destruct (pl_wait _ t) as [[[r|]|e|[e|]] t1]; [|done| | |done].
  2:{ apply fails; [lia|done|apply Hp..]. }
  2:{ apply (stops total (Some e)); try done; [lia|by intros [= ->]; destruct Hp|by right; destruct Hp|by left; destruct Hp]. }
  destruct Hp as [Ht1 Ha]. unfold mbind_M at 1, act. unfold mbind_M at 1, lift at 1.
  apply (sr_delete Hserves _ _ (w_mid (rc_wire chunk))) in Ht1. set (t2 := pl_delete _ t1) in *. clearbody t2.
  replace (i + Z.of_nat (S (length inflight))) with (i + 1 + Z.of_nat (length inflight)) in Ht1 by lia.
  assert (chunks_from chunk_at (i + 1) inflight) as Hin by (by apply chunks_from_app in Hch as [? _]).
  assert (i + 1 + Z.of_nat (length inflight) <= num) as Hil by lia.
  unfold read_answer in Ha. rewrite Ebuf, Esize. pose proof (next_so_far i total) as Hnext.
  destruct (chunk_bounds (len buf0) per i) as [o size] eqn:Eb. cbn [fst snd] in *.
  destruct Hbs as (-> & Hsz & Hle & Hper1 & _). fold num in Hper1. assert (total = i * per) as Ht' by nia.
  destruct Ha as [[Hend [-> | ->]] | (k & Hk & Hk' & ->)].
  - change (r_err (status_reply _ _)) with (Some (NtStatus STATUS_END_OF_FILE)). cbv iota.
    change (match r_header _ with Some h => _ | None => _ end) with true. cbv iota.
    by apply (stops_at_end i).
  - change (r_err (read_reply [])) with (@None error). cbv iota.
    destruct (DecodeReadResponse_reply [] eq_refl) as (rr & E1 & E2). change (r_data (read_reply [])) with (@nil byte).
    rewrite E1, E2. change (len (@nil byte)) with 0. unfold mbind_M at 1, lift at 1.
    rewrite (copy_next (part total offset) _ [] (i * per) size) by
      (rewrite ?len_part, ?len_drop by lia; change (len (@nil byte)) with 0; lia).
    rewrite app_nil_r. cbn [length]. rewrite drop_0.
    rewrite (Z.min_r size 0), Z.add_0_r, (proj2 (Z.ltb_lt 0 size)) by lia. by apply (stops_at_end i).
  - change (r_err (read_reply _)) with (@None error). cbv iota.
    assert (len (part k (offset + i * per)) = k) as Hlk by (apply len_part; lia).
    destruct (DecodeReadResponse_reply (part k (offset + i * per))) as (rr & E1 & E2); [lia|].
    change (r_data (read_reply ?d)) with d. rewrite E1, E2, Hlk. unfold mbind_M at 1, lift at 1.
    rewrite (copy_next (part total offset) _ _ (i * per) size) by (rewrite ?len_part, ?len_drop by lia; lia).
    rewrite drop_drop, (Z.min_r size k) by lia.
    replace (part total offset ++ part k (offset + i * per)) with (part (total + k) offset)
      by (unfold part; rewrite <- Ht'; symmetry; apply file_part_next; lia).
    replace (Z.to_nat total + length (part k (offset + i * per)))%nat with (Z.to_nat (total + k)) by (unfold len in Hlk; lia).
    destruct (Z.ltb_spec k size) as [Hshort|Hfull].
    { rewrite (proj2 (Z.ltb_lt 0 (total + k))) by lia. apply (ends (i + 1)); try done; lia. }
    assert (k = size) as -> by lia. specialize (Hnext size Hi' Hsf eq_refl ltac:(lia)).
    destruct unsent as [|next_chunk unsent].
    { apply (IH (i + 1)); try done; lia. }
    pose proof (chunks_from_mid _ _ _ _ _ Hch) as Hnx. cbn [length] in Hl'.
    destruct (sr_send Hserves (i + 1) (i + 1 + Z.of_nat (length inflight)) next_chunk t2)
      as [(next' & t3 & -> & Hc' & Ht3)|(e & t3 & -> & [He Hfa] & _)]; [lia|lia| |done|done| |].
    + split; [lia|]. right. specialize (Hper1 ltac:(lia)). destruct Hnext as [_ [|]]; nia.
    + apply (IH (i + 1)); [lia|rewrite !length_app; cbn; lia|lia|by intros []%app_nil| | |done|].
      * rewrite length_app. cbn. lia.
      * by eapply chunks_from_next.
      * rewrite length_app. cbn [length].
        by replace (i + 1 + Z.of_nat (length inflight + 1)) with (i + 1 + Z.of_nat (length inflight) + 1) by lia.
    + apply fails; [lia|lia|done..].
Qed.

Lemma readPipelined_served t : next t = base -> R 0 0 t ->
  read_result (readPipelined c s f buf0 offset t).
Proof.
  intros Hn Ht. pose proof per_pos as Hper. pose proof (numChunks_pos (len buf0) per Hsize ltac:(lia)) as Hnum.
  unfold readPipelined. fold per. fold num. cbv zeta. pose proof (width_range c num Hnum) as [Hk Hk50].
  set (k := Z.to_nat (pipeline_width c num)) in *.
  unfold mbind_M at 1. destruct (make_all chunk_at num R next (make_read_chunk (len buf0) per offset) base (Z.to_nat num))
    with (i := 0) (t := t) as (l & t1 & -> & Hl & Hch & Ht1); [apply Hserves| |lia|lia|lia|done|].
  { intros i t' Hi Ht'. unfold make_read_chunk. destruct (chunk_bounds (len buf0) per i) as [o size] eqn:Eb.
    eexists. split; [reflexivity|]. unfold chunk_at. rewrite Eb. by split_and!. }
  rewrite <- (take_drop k l) in Hch. apply chunks_from_app in Hch as [Hch1 Hch2].
  rewrite length_take in Hch2.
  unfold mbind_M at 1. destruct (send_all chunk_at num R _ may_send _ (take k l) (sr_send Hserves) [] t1)
    as (sent & err & t2 & -> & Hcs & Ht2 & _ & Hls);
    [intros i; cbn; rewrite length_take; split; [lia|by left]|cbn; rewrite length_take; lia|done|done|].
  assert (so_far 0 0) as H0 by (split; [lia|by left]).
  change buf0 with (part 0 offset ++ drop (Z.to_nat 0) buf0). destruct err as [e|].
  - apply fails; [lia|by left|apply Hls..].
  - cbn [app] in Hls. rewrite length_take in Hls.
    apply (read_loop_served _ 0); try done; [rewrite length_app, length_drop; lia|lia| | |].
    + intros ->. cbn in Hls. apply nil_length_inv. rewrite length_drop. lia.
    + lia.
    + apply chunks_from_app. by rewrite Hls.
Qed.
End served.

(** *** From the server of one file

    What is in its mailboxes while the read is on. *)
Definition read_request_for (e : nat * (Header * bytes * bytes)) : Prop :=
  exists i, 0 <= i < num /\ e.1 = (base + Z.to_nat i)%nat /\
  exists r, serve e.2.1.1 e.2.1.2 e.2.2 srv = (Ok r, srv) /\ read_answer i r.

Record reading (t : pipe_server) : Prop := {
  rd_file : ps_file t = srv;
  rd_inbox : Forall read_request_for (ps_inbox t);
  rd_replies : forall i r, 0 <= i < num -> ps_replies t !! (base + Z.to_nat i)%nat = Some r -> read_answer i r;
  rd_sends : Forall (fun o => o <> Some EOF) (ps_sends t);
}.

Lemma serve_nth_reading j t : reading t -> reading (serve_nth j t).
Proof.
  intros [Hfile Hin Hre Hse]. unfold serve_nth. destruct (ps_inbox t !! j) as [[ch [[h p] d]]|] eqn:E; [|done].
  apply (Forall_lookup_1 _ _ _ _ Hin) in E as (i & Hi & Ech & r & Er & Ha). cbn in Ech, Er. rewrite Hfile, Er.
  split; cbn; [done|by apply Forall_delete| |done].
  intros i' r' Hi' [[Hch <-]|[_ Hr]]%lookup_insert_Some; [|by apply Hre].
  assert (i' = i) as -> by lia. done.
Qed.

Lemma pump_reading {A} (a : A) i es : 0 <= i < num -> forall t, reading t ->
  match pump a (base + Z.to_nat i) es t with
  | (PickReply (Some r), t') => reading t' /\ read_answer i r
  | (PickReply None, _) => False
  | (PickOther a', t') => a' = a
  | (PickDone e, t') => e = Some conn_ErrConnectionClosed
  end.
Proof.
  intros Hi. induction es as [|[j| | |] es IH]; intros t Ht; cbn [pump]; [done|by apply IH, serve_nth_reading| |done|done].
  destruct (ps_replies t !! _) as [r|] eqn:E; [|by apply IH].
  destruct Ht as [Hfile Hin Hre Hse]. split; [|by eapply Hre]. split; cbn; [done|done| |done].
  intros i' r' Hi' [_ Hr]%lookup_delete_Some. by apply Hre.
Qed.

(** Sending a chunk. *)
Lemma send_reading : sends_ok chunk_at num (fun _ _ => reading) (fun e => e <> EOF /\ True) may_send (sendReadRequest c s f).
Proof.
  intros k i chunk t Hk Hi HG Hchunk [Hfile Hin Hre Hse].
  destruct (chunk_request k i chunk ltac:(lia) HG Hchunk) as (p & Ep & r & Er & Ha). destruct Hchunk as (Ech & Hrest).
  unfold sendReadRequest. cbv zeta. rewrite Ep. unfold mbind_M at 1, wrap_err, lift. unfold mbind_M. cbn [pl_send pipe_server_pipeline].
  assert (Forall (fun o => o <> Some EOF) (tl (ps_sends t))) as Htl by (by destruct Hse).
  destruct (hd None (ps_sends t)) as [e|] eqn:Esend.
  - right. eexists _, _. split; [reflexivity|]. split; [|by split]. split; [|done]. intros ->.
    destruct Hse; [done|]. by cbn in Esend.
  - left. eexists _, _. split; [reflexivity|]. split; [by split|]. split; cbn; [done| |done|done].
    apply Forall_app. split; [done|]. apply Forall_singleton. exists i. split; [lia|]. split; [done|].
    exists r. split; [|done]. cbn. unfold serve. cbn. by rewrite Er.
Qed.

Lemma pipe_server_reads : serves_reads (fun _ _ => reading) ps_next True.
Proof.
  split.
  - intros t Ht. split_and!; [done..|]. by destruct Ht.
  - apply send_reading.
  - intros i j t Hi Hj Ht. pose proof (pump_reading Canceled i (ps_events t) ltac:(lia) t Ht) as Hp.
    cbn [pl_wait pipe_server_pipeline]. destruct (pump _ _ _ t) as [[[r|]|e|[e|]] t1]; try done.
    + by rewrite Hp.
    + by injection Hp as ->.
  - intros i j t Hi Hj Ht. pose proof (pump_reading () i (ps_events t) ltac:(lia) t Ht) as Hp.
    cbn [pl_settle pipe_server_pipeline]. destruct (pump _ _ _ t) as [[[r|]|e|[e|]] t1]; by try destruct Hp.
  - done.
Qed.
End reading.

(** ** Writing *)

(** What a write leaves at a position: the new byte where it wrote, the old one
    elsewhere inside the file. *)
Lemma splice_in file o (d : bytes) (p : nat) :
  0 <= o -> (Z.to_nat o <= p < Z.to_nat o + length d)%nat ->
  splice file o d !! p = d !! (p - Z.to_nat o)%nat.
Proof.
  intros Ho Hp. unfold splice. rewrite (proj2 (Z.eqb_neq (len d) 0)) by (unfold len; lia).
  set (k := Z.to_nat o) in *. set (file' := file ++ _).
  assert (length (take k file') = k) as Hk.
  { unfold file'. rewrite length_take, length_app, length_replicate. lia. }
  rewrite lookup_app_r, Hk by lia. by rewrite lookup_app_l by lia.
Qed.

Lemma splice_out file o (d : bytes) (p : nat) :
  0 <= o -> (p < length file)%nat -> ~ (Z.to_nat o <= p < Z.to_nat o + length d)%nat ->
  splice file o d !! p = file !! p.
Proof.
  intros Ho Hp Hout. unfold splice. destruct (len d =? 0); [done|].
  set (k := Z.to_nat o) in *. set (file' := file ++ _).
  assert (length (take k file') = k) as Hk.
  { unfold file'. rewrite length_take, length_app, length_replicate. lia. }
  assert (file' !! p = file !! p) as <- by (unfold file'; by rewrite lookup_app_l).
  destruct (decide (p < k)%nat) as [Hlt|Hge].
  - rewrite lookup_app_l by lia. apply lookup_take_lt. lia.
  - rewrite lookup_app_r, Hk, lookup_app_r, lookup_drop by lia. f_equal. lia.
Qed.

Section writing.
Context (c : Negotiated) (s : UserSession) (f : File).
Context (Hc : has_cap c CAP_LARGE_FILES = true) (Hf : 0 <= f_fid f < 2 ^ 16).
Context (base : nat) (before data : bytes) (offset : Z).
Context (Hsize : 0 < len data) (Ho : 0 <= offset) (Hb : offset + len data < 2 ^ 64).

Let per := maxWriteChunk c.
Let num := numChunks (len data) per.
Let off := Z.to_nat offset.

(** The chunk's place in the data. *)
Definition start (i : Z) : nat := Z.to_nat (chunk_bounds (len data) per i).1.
Definition size_of (i : Z) : nat := Z.to_nat (chunk_bounds (len data) per i).2.
Definition piece (i : Z) : bytes := take (size_of i) (drop (start i) data).

Definition wchunk_at (i : Z) (chunk : writeChunk) : Prop :=
  w_respCh (wc_wire chunk) = (base + Z.to_nat i)%nat /\
  wc_offset chunk = offset + Z.of_nat (start i) /\ wc_data chunk = piece i.

(** The data from byte [a] to byte [a + k] are in the file. *)
Definition landed (a k : nat) (file : bytes) : Prop :=
  forall j, (a <= j < a + k)%nat -> file !! (off + j)%nat = data !! j.

(** The file outside of the range of the write is what it was. *)
Definition untouched (file : bytes) : Prop :=
  forall p, (p < length before)%nat -> ~ (off <= p < off + length data)%nat -> file !! p = before !! p.

Definition write_request_for (e : nat * (Header * bytes * bytes)) : Prop :=
  exists i, 0 <= i < num /\ e.1 = (base + Z.to_nat i)%nat /\
  forall srv, f_fid f = server_fid srv -> exists k, (k <= size_of i)%nat /\
    serve e.2.1.1 e.2.1.2 e.2.2 srv =
      (Ok (write_reply (Z.of_nat k)), after_write srv (offset + Z.of_nat (start i)) (take k (piece i))).

(** While the write is on, [total] bytes of it are confirmed. *)
Record writing (total : nat) (t : pipe_server) : Prop := {
  wr_fid : f_fid f = server_fid (ps_file t);
  wr_inbox : Forall write_request_for (ps_inbox t);
  wr_replies : forall i r, 0 <= i < num -> ps_replies t !! (base + Z.to_nat i)%nat = Some r ->
    exists k, (k <= size_of i)%nat /\ r = write_reply (Z.of_nat k) /\ landed (start i) k (content (ps_file t));
  wr_landed : landed 0 total (content (ps_file t));
  wr_untouched : untouched (content (ps_file t));
}.

Lemma per_wpos : 0 < per < 2 ^ 17.
Proof. pose proof (maxWriteChunk_range c) as H. unfold MaxDataSize in H. subst per. lia. Qed.

Lemma piece_bounds i : 0 <= i < num ->
  Z.of_nat (start i) = i * per /\ (0 < size_of i)%nat /\ Z.of_nat (size_of i) <= per /\
  (start i + size_of i <= length data)%nat /\
  (i + 1 < num -> Z.of_nat (size_of i) = per) /\ (i + 1 = num -> (start i + size_of i)%nat = length data) /\
  length (piece i) = size_of i.
Proof.
  intros Hi. pose proof per_wpos as Hp. pose proof (chunk_bounds_spec (len data) per i Hsize ltac:(lia) Hi) as H.
  unfold piece, start, size_of. destruct (chunk_bounds (len data) per i) as [o size]. cbn [fst snd].
  destruct H as (-> & H1 & H2 & H3 & H4). unfold len in *. rewrite length_take, length_drop.
  assert (0 <= i * per) by nia. fold num in H3, H4. lia.
Qed.

Lemma landed_mono a k file file' : landed a k file ->
  (forall j, (a <= j < a + k)%nat -> file !! (off + j)%nat = data !! j -> file' !! (off + j)%nat = data !! j) ->
  landed a k file'.
Proof. intros H H' j Hj. auto. Qed.

(** A part of the data written at its place: what had landed is still there. *)
Lemma splice_piece i k file : 0 <= i < num -> (k <= size_of i)%nat ->
  let file' := splice file (offset + Z.of_nat (start i)) (take k (piece i)) in
  landed (start i) k file' /\ (untouched file -> untouched file') /\
  (forall a m, (a + m <= length data)%nat -> landed a m file -> landed a m file').
Proof.
  intros Hi Hk file'. pose proof (piece_bounds i Hi) as (_ & _ & _ & Hin & _ & _ & Hlen).
  assert (length (take k (piece i)) = k) as Hd by (rewrite length_take; lia).
  assert (Z.to_nat (offset + Z.of_nat (start i)) = (off + start i)%nat) as Eo by (unfold off; lia).
  assert (forall j, (start i <= j < start i + k)%nat -> file' !! (off + j)%nat = data !! j) as Hnew.
  { intros j Hj. unfold file'. rewrite splice_in by lia. rewrite Eo.
    replace (off + j - (off + start i))%nat with (j - start i)%nat by lia.
    unfold piece. rewrite !lookup_take_lt, lookup_drop by lia. f_equal. lia. }
  assert (forall p, (p < length file)%nat -> ~ (off + start i <= p < off + start i + k)%nat -> file' !! p = file !! p)
    as Hold by (intros p Hp Hout; unfold file'; apply splice_out; lia).
  split; [done|]. split.
  - intros Hu p Hp Hout. rewrite <- (Hu p Hp Hout). apply Hold; [|lia].
    apply lookup_lt_is_Some. rewrite (Hu p Hp Hout). by apply lookup_lt_is_Some.
  - intros a m Ham Hl j Hj. destruct (decide (start i <= j < start i + k)%nat) as [Hr|Hr]; [by apply Hnew|].
    rewrite <- (Hl j Hj). apply Hold; [|lia].
    apply lookup_lt_is_Some. rewrite (Hl j Hj). apply lookup_lt_is_Some. lia.
Qed.

(** One request handled. *)
Lemma serve_nth_writing total j t : (total <= length data)%nat -> writing total t -> writing total (serve_nth j t).
Proof.
  intros Ht [Hfid Hin Hre Hla Hun]. unfold serve_nth. destruct (ps_inbox t !! j) as [[ch [[h p] d]]|] eqn:E; [|done].
  apply (Forall_lookup_1 _ _ _ _ Hin) in E as (i & Hi & Ech & Hserve). cbn in Ech, Hserve.
  destruct (Hserve _ Hfid) as (k & Hk & ->).
  destruct (splice_piece i k (content (ps_file t)) Hi Hk) as (Hnew & Hun' & Hkeep).
  split; cbn; [done|by apply Forall_delete| |by apply Hkeep|by apply Hun'].
  intros i' r' Hi' [[Hch <-]|[_ Hr]]%lookup_insert_Some.
  - assert (i' = i) as -> by lia. by exists k.
  - destruct (Hre i' r' Hi' Hr) as (k' & Hk' & -> & Hl'). exists k'. split; [done|]. split; [done|].
    apply Hkeep; [|done]. pose proof (piece_bounds i' Hi'). lia.
Qed.

(** While the client waits. *)
Lemma pump_writing {A} (a : A) total i es : 0 <= i < num -> (total <= length data)%nat -> forall t, writing total t ->
  match pump a (base + Z.to_nat i) es t with
  | (PickReply (Some r), t') => writing total t' /\ exists k, (k <= size_of i)%nat /\
      r = write_reply (Z.of_nat k) /\ landed (start i) k (content (ps_file t'))
  | (PickReply None, _) => False
  | (PickOther _, t') => writing total t'
  | (PickDone e, t') => e = Some conn_ErrConnectionClosed /\ writing total t'
  end.
Proof.
  intros Hi Hl. induction es as [|[j| | |] es IH]; intros t Ht; cbn [pump];
    [by destruct Ht|by apply IH, serve_nth_writing| |by destruct Ht|by destruct Ht].
  destruct (ps_replies t !! _) as [r|] eqn:E; [|by apply IH].
  destruct Ht as [Hfid Hin Hre Hla Hun]. split; [|by eapply Hre]. split; cbn; try done.
  intros i' r' Hi' [_ Hr]%lookup_delete_Some. by apply Hre.
Qed.

Lemma pump_any {A} (a : A) total ch es : (total <= length data)%nat -> forall t, writing total t ->
  writing total (pump a ch es t).2.
Proof.
  intros Hl. induction es as [|[j| | |] es IH]; intros t Ht; cbn [pump];
    [by destruct Ht|by apply IH, serve_nth_writing| |by destruct Ht|by destruct Ht].
  destruct (ps_replies t !! ch) as [r|] eqn:E; [|by apply IH].
  destruct Ht as [Hfid Hin Hre Hla Hun]. split; cbn; try done.
  intros i' r' Hi' [_ Hr]%lookup_delete_Some. by apply Hre.
Qed.

Lemma collect_writing total ws : (total <= length data)%nat -> forall t, writing total t ->
  exists t', collectReplies ws t = (Ok (), t') /\ writing total t'.
Proof.
  intros Hl. induction ws as [|w ws IH]; intros t Ht; cbn [collectReplies]; [by eexists|].
  unfold mbind_M at 1. cbn [pl_settle pipe_server_pipeline].
  pose proof (pump_any () total (w_respCh w) (ps_events t) Hl t Ht) as Hp.
  destruct (pump _ _ _ t) as [[r|u|e] t1]; cbn in Hp; [by apply IH| |by eexists].
  rewrite abandon_id. by eexists.
Qed.

Lemma stop_writing total cause w t : writing total t ->
  exists w' t', stopFeeding cause w t = (Ok w', t') /\ writing total t' /\ ws_total w' = ws_total w
    /\ ws_draining w' = true /\ (ws_draining w = true -> w' = w) /\ (ws_draining w = false -> ws_deferred w' <> None).
Proof.
  intros Ht. unfold stopFeeding. destruct (ws_draining w) eqn:Ed; [by exists w, t|].
  unfold mbind_M, poll. cbn [ctx_poll pipe_server_ctx]. destruct (ctx_poll (ps_file t)) as [e file] eqn:E.
  assert (content file = content (ps_file t) /\ server_fid file = server_fid (ps_file t)) as [E1 E2]
    by (by injection E as <- <-).
  eexists _, _. split; [reflexivity|]. split; [|by split_and!]. destruct Ht as [Hfid Hin Hre Hla Hun].
  split; cbn; rewrite ?E1, ?E2; done.
Qed.
(** Sending a chunk. *)
Lemma send_writing total : sends_ok wchunk_at num (fun _ _ => writing total) (fun _ => True) (fun _ _ => True) (sendWriteRequest c s f).
Proof.
  intros k0 i chunk t Hk0 Hi0 _ (Ech & Eoff & Edata) Ht. assert (0 <= i < num) as Hi by lia. pose proof per_wpos as Hper.
  pose proof (piece_bounds i Hi) as (Hst & Hsz & Hszp & Hin & _ & _ & Hlen).
  assert (len (piece i) <= MaxDataSize) as Hmax.
  { pose proof (maxWriteChunk_range c) as Hm. fold per in Hm. unfold len. lia. }
  assert (0 <= offset + Z.of_nat (start i) < 2 ^ 64) as Hr by (unfold len in *; lia).
  assert (exists p, EncodeWriteRequest (Some (write_request f (wc_data chunk) (wc_offset chunk)))
      (has_cap c CAP_LARGE_FILES) = Ok (p, piece i) /\
    forall srv, f_fid f = server_fid srv -> exists k, (k <= size_of i)%nat /\
      serve_write p (piece i) srv =
        Ok (write_reply (Z.of_nat k), after_write srv (offset + Z.of_nat (start i)) (take k (piece i))))
    as (p & Ep & Hserve).
  { rewrite Hc, Edata, Eoff.
    destruct (serve_write_request f (piece i) _ (ps_file t) Hf (wr_fid _ _ Ht) Hr Hmax) as (p & E & _).
    exists p. split; [done|]. intros srv Hsrv.
    destruct (serve_write_request f (piece i) _ srv Hf Hsrv Hr Hmax) as (p' & E' & Es).
    rewrite E in E'. injection E' as <-. cbv zeta in Es.
    set (k := Z.max 0 _) in Es. exists (Z.to_nat k). unfold len in *.
    split; [lia|]. rewrite Z2Nat.id by lia. exact Es. }
  unfold sendWriteRequest. cbv zeta. rewrite Ep. unfold mbind_M at 1, wrap_err, lift. unfold mbind_M.
  cbn [pl_send pipe_server_pipeline]. destruct Ht as [Hfid Hinb Hre Hla Hun].
  destruct (hd None (ps_sends t)) as [e|].
  - right. eexists _, _. split; [reflexivity|]. by split.
  - left. eexists _, _. split; [reflexivity|]. split; [by split_and!|]. split; cbn; try done.
    apply Forall_app. split; [done|]. apply Forall_singleton. exists i. split; [done|]. split; [done|].
    intros srv Hsrv. destruct (Hserve srv Hsrv) as (k & Hk & E). exists k. split; [done|].
    cbn. unfold serve. cbn. by rewrite E.
Qed.

(** The draining flag and the error to report go together. *)
Definition consistent (w : write_state) : Prop := ws_draining w = false <-> ws_deferred w = None.

Lemma stop_consistent total cause w t : writing total t -> consistent w ->
  exists w' t', stopFeeding cause w t = (Ok w', t') /\ writing total t' /\ ws_total w' = ws_total w
    /\ ws_draining w' = true /\ consistent w'.
Proof.
  intros Ht Hw. destruct (stop_writing total cause w t Ht) as (w' & t' & E & Ht' & Et & Ed & H1 & H2).
  exists w', t'. split_and!; try done. unfold consistent in *. destruct (ws_draining w) eqn:E0.
  - rewrite H1 by done. rewrite E0. exact Hw.
  - rewrite Ed. split; [done|]. intros Hn. by destruct (H2 eq_refl).
Qed.

Lemma await_writing total i chunk w t : 0 <= i < num -> (total <= length data)%nat -> wchunk_at i chunk ->
  writing total t -> consistent w ->
  exists got w' t', awaitChunk chunk w t = (Ok (got, w'), t') /\ writing total t' /\
    ws_total w' = ws_total w /\ consistent w' /\ (ws_draining w = true -> ws_draining w' = true) /\
    match got with
    | inr e => e <> None
    | inl (Some r) => exists k, (k <= size_of i)%nat /\ r = write_reply (Z.of_nat k) /\
        landed (start i) k (content (ps_file t'))
    | inl None => False
    end.
Proof.
  intros Hi Hl (Ech & _ & _) Ht Hw.
  assert (forall w t, writing total t -> consistent w -> ws_draining w = true ->
    exists got w' t', await_draining chunk w t = (Ok (got, w'), t') /\ writing total t' /\ w' = w /\
      match got with
      | inr e => e <> None
      | inl (Some r) => exists k, (k <= size_of i)%nat /\ r = write_reply (Z.of_nat k) /\
          landed (start i) k (content (ps_file t'))
      | inl None => False
      end) as Hdrain.
  { clear w t Ht Hw. intros w t Ht Hw Hd. unfold await_draining. cbn [pl_settle pipe_server_pipeline]. rewrite Ech.
    pose proof (pump_writing () total i (ps_events t) Hi Hl t Ht) as Hp.
    destruct (pump _ _ _ t) as [[[r|]|u|e] t1]; [|done| |].
    - destruct Hp as [Hp Hk]. by eexists _, w, t1.
    - eexists _, w, t1. split_and!; [done..|]. intros Hn. apply Hw in Hn. congruence.
    - destruct Hp as [-> Hp]. by eexists _, w, t1. }
  unfold awaitChunk. destruct (ws_draining w) eqn:Ed.
  - destruct (Hdrain w t Ht Hw Ed) as (got & w' & t' & E & Ht' & -> & Hg). exists got, w, t'. by split_and!.
  - cbn [pl_wait pipe_server_pipeline]. rewrite Ech.
    pose proof (pump_writing Canceled total i (ps_events t) Hi Hl t Ht) as Hp.
    destruct (pump _ _ _ t) as [[[r|]|e|e] t1]; [|done| |].
    + destruct Hp as [Hp Hk]. exists (inl (Some r)), w, t1. by split_and!.
    + destruct (stop_consistent total e w t1 Hp Hw) as (w1 & t2 & E & Ht2 & Et & Ed' & Hc').
      unfold mbind_M. rewrite E. destruct (Hdrain w1 t2 Ht2 Hc' Ed') as (got & w' & t' & E' & Ht' & -> & Hg).
      exists got, w1, t'. by split_and!.
    + destruct Hp as [-> Hp]. eexists (inr _), w, t1. by split_and!.
Qed.

Lemma feed_writing total i inflight unsent w t :
  0 <= i -> i + Z.of_nat (length (inflight ++ unsent)) <= num -> chunks_from wchunk_at i (inflight ++ unsent) ->
  writing total t -> consistent w ->
  exists next unsent' w' t', feed c s f unsent w t = (Ok (next, unsent', w'), t') /\ writing total t' /\
    ws_total w' = ws_total w /\ consistent w' /\
    chunks_from wchunk_at i ((inflight ++ option_list next) ++ unsent') /\
    length ((inflight ++ option_list next) ++ unsent') = length (inflight ++ unsent) /\
    (ws_draining w' = false -> next = None -> unsent' = []).
Proof.
  intros Hi Hl Hch Ht Hw. unfold feed.
  assert (exists w1 t1, (if ws_draining w then ret w else
      let* ctxErr := poll in match ctxErr with Some e => stopFeeding e w | None => ret w end) t = (Ok w1, t1)
    /\ writing total t1 /\ ws_total w1 = ws_total w /\ consistent w1) as (w1 & t1 & E & Ht1 & Et & Hw1).
  { destruct (ws_draining w); [by exists w, t|]. unfold mbind_M, poll. cbn [ctx_poll pipe_server_ctx].
    destruct (ctx_poll (ps_file t)) as [e file] eqn:E.
    assert (content file = content (ps_file t) /\ server_fid file = server_fid (ps_file t)) as [E1 E2]
      by (by injection E as <- <-).
    assert (writing total (mkPipeServer file (ps_next t) (ps_inbox t) (ps_replies t) (ps_sends t) (ps_events t))) as Ht1.
    { destruct Ht as [Hfid Hin Hre Hla Hun]. split; cbn; rewrite ?E1, ?E2; done. }
    destruct e as [e|]; [|by eexists _, _].
    destruct (stop_consistent total e w _ Ht1 Hw) as (w1 & t1 & E' & Ht' & Et & _ & Hc'). by exists w1, t1. }
  unfold mbind_M at 1. revert E. set (polled := if ws_draining w then _ else _). intros ->.
  destruct unsent as [|next unsent].
  { exists None, [], w1, t1. cbn. rewrite !app_nil_r in *. by split_and!. }
  destruct (ws_draining w1) eqn:Ed.
  { exists None, (next :: unsent), w1, t1. cbn. rewrite app_nil_r. split_and!; try done. by rewrite Ed. }
  pose proof (chunks_from_mid _ _ _ _ _ Hch) as Hnx. pose proof Hl as Hl'. rewrite length_app in Hl'. cbn [length] in Hl'.
  destruct (send_writing total i (i + Z.of_nat (length inflight)) next t1)
    as [(next' & t2 & -> & Hc' & Ht2)|(e & t2 & -> & _ & Ht2)]; [lia|lia|done|done|done| |].
  - exists (Some next'), unsent, w1, t2. split_and!; try done; [by eapply chunks_from_next|].
    cbn. rewrite !length_app. cbn. lia.
  - destruct (stop_consistent total e w1 t2 Ht2 Hw1) as (w2 & t3 & E & Ht3 & Et' & Ed' & Hc').
    unfold mbind_M. rewrite E. exists None, (next :: unsent), w2, t3. cbn. rewrite app_nil_r.
    split_and!; try done; [congruence|]. by rewrite Ed'.
Qed.
(** How a write may end: with [n] bytes confirmed, all of them without error. *)
Definition write_result (out : res (Z * option error) * pipe_server) : Prop :=
  exists n err, out.1 = Ok (Z.of_nat n, err) /\ (n <= length data)%nat /\ writing n out.2 /\
    (err = None -> n = length data).

Lemma settles n err ws t : (n <= length data)%nat -> (err = None -> n = length data) -> writing n t ->
  write_result ((let* _ := collectReplies ws in ret (Z.of_nat n, err)) t).
Proof.
  intros Hn He Ht. destruct (collect_writing n ws Hn t Ht) as (t' & E & Ht').
  unfold mbind_M. rewrite E. by exists n, err.
Qed.

Lemma landed_next n k file : landed 0 n file -> landed n k file -> landed 0 (n + k) file.
Proof. intros H1 H2 j Hj. destruct (decide (j < n)%nat); [apply H1|apply H2]; lia. Qed.

Lemma start_total i : 0 <= i < num -> Z.of_nat (start i) = Z.min (i * per) (len data).
Proof. intros Hi. pose proof (piece_bounds i Hi). unfold len. lia. Qed.

Lemma write_loop_served n : forall i inflight unsent w total t,
  0 <= i -> i + Z.of_nat (length (inflight ++ unsent)) = num -> Z.of_nat n = num - i ->
  (ws_draining w = false -> inflight = [] -> unsent = []) ->
  chunks_from wchunk_at i (inflight ++ unsent) ->
  ws_total w = Z.of_nat total -> Z.of_nat total = Z.min (i * per) (len data) -> consistent w ->
  writing total t ->
  write_result (write_loop n c s f inflight unsent w t).
Proof.
  pose proof per_wpos as Hper. pose proof (numChunks_pos (len data) per Hsize ltac:(lia)) as Hnum. fold num in Hnum.
  assert (len data <= num * per) as Hcover.
  { pose proof (piece_bounds (num - 1) ltac:(lia)). unfold len. nia. }
  induction n as [|n IH]; intros i inflight unsent w total t Hi Hl Hn Hne Hch Ew Etot Hw Ht.
  { cbn [write_loop]. assert (i = num) as -> by lia. exists total, (ws_deferred w).
    split; [by unfold ret; rewrite <- Ew|]. unfold len in *. split_and!; [lia|done|]. intros _. lia. }
  assert (0 <= i < num) as Hi' by lia. pose proof (piece_bounds i Hi') as (Hst & Hsz & Hszp & Hin & Hfull & Hlast & Hlen).
  assert (total = start i) as -> by (unfold len in *; lia).
  destruct inflight as [|chunk inflight].
  { cbn [write_loop]. exists (start i), (ws_deferred w). split; [by unfold ret; rewrite <- Ew|].
    split_and!; [lia|done|]. intros Hd. apply Hw in Hd. rewrite (Hne Hd eq_refl) in Hl. cbn in Hl. lia. }
  rewrite <- app_comm_cons in Hch. apply chunks_from_cons in Hch as [Hchunk Hch].
  cbn [app length] in Hl. assert (start i <= length data)%nat as Hsl by lia.
  cbn [write_loop]. unfold mbind_M at 1.
  destruct (await_writing (start i) i chunk w t Hi' Hsl Hchunk Ht Hw) as (got & w1 & t1 & -> & Ht1 & Et1 & Hw1 & Hd1 & Hgot).
  destruct got as [[r|]|[e|]]; [|done| |done].
  2:{ unfold mbind_M at 1. rewrite abandon_id. unfold ret. rewrite Et1, Ew. by exists (start i), (Some e). }
  destruct Hgot as (k & Hk & -> & Hland).
  unfold mbind_M at 1, act at 1. unfold mbind_M at 1, lift at 1. cbn [pl_delete pipe_server_pipeline].
  change (r_err (write_reply (Z.of_nat k))) with (@None error). cbv iota.
  destruct (DecodeWriteResponse_reply (Z.of_nat k)) as (wr & E1 & E2); [lia|].
  change (r_data (write_reply (Z.of_nat k))) with (@nil byte). rewrite E1, E2. cbv zeta.
  assert (len (wc_data chunk) = Z.of_nat (size_of i)) as Elen.
  { destruct Hchunk as (_ & _ & ->). unfold len. by rewrite Hlen. }
  rewrite Elen. cbn [ws_total]. rewrite Et1, Ew, <- Nat2Z.inj_add.
  assert (writing (start i + k) t1) as Ht1' by (destruct Ht1; split; try done; by apply landed_next).
  destruct (Z.ltb_spec (Z.of_nat k) (Z.of_nat (size_of i))) as [Hshort|Hwhole]; [by apply settles; [lia| |]|].
  assert (k = size_of i) as -> by lia. unfold mbind_M at 1.
  destruct (feed_writing (start i + size_of i) (i + 1) inflight unsent
    (mkWriteState (Z.of_nat (start i + size_of i)) (ws_draining w1) (ws_deferred w1)) t1)
    as (next & unsent' & w2 & t2 & -> & Ht2 & Et2 & Hw2 & Hch2 & Hl2 & Hn2); [lia|lia|done|done|done|].
  apply (IH (i + 1) _ _ _ (start i + size_of i)%nat); try done; [lia|lia|lia| |].
  - intros Hd Hnil. apply app_nil in Hnil as [_ Hnil]. apply Hn2; [done|]. by destruct next.
  - unfold len. assert (i + 1 < num \/ i + 1 = num) as [Hx|Hx] by lia; [specialize (Hfull Hx)|specialize (Hlast Hx)]; unfold len in *; nia.
Qed.

Lemma writePipelined_served t : ps_next t = base -> writing 0 t ->
  write_result (writePipelined c s f data offset t).
Proof.
  intros Hn Ht. pose proof per_wpos as Hper. pose proof (numChunks_pos (len data) per Hsize ltac:(lia)) as Hnum. fold num in Hnum.
  unfold writePipelined. fold per. fold num. cbv zeta. pose proof (width_range c num Hnum) as [Hk Hk50].
  set (k := Z.to_nat (pipeline_width c num)) in *.
  destruct (make_all wchunk_at num (fun _ _ => writing 0) ps_next (make_write_chunk data per offset) base (Z.to_nat num))
    with (i := 0) (t := t) as (l & t1 & E & Hl & Hch & Ht1);
    [intros t' Ht'; split_and!; [done..|by destruct Ht']| |lia|lia|lia|done|].
  { intros i t' Hi _. pose proof (piece_bounds i Hi) as (Hst & Hsz & Hszp & Hin & _ & _ & Hlen).
    pose proof (chunk_bounds_spec (len data) per i Hsize ltac:(lia) Hi) as Hcb.
    unfold make_write_chunk. destruct (chunk_bounds (len data) per i) as [o size] eqn:Eb.
    unfold mbind_M, lift. rewrite slice_ok by (destruct Hcb; lia).
    eexists. split; [reflexivity|]. unfold wchunk_at, piece, start, size_of. rewrite Eb. cbn.
    replace (o + size - o) with size by lia. split_and!; [done| |done]. destruct Hcb. lia. }
  unfold mbind_M at 1. rewrite E. rewrite <- (take_drop k l) in Hch. apply chunks_from_app in Hch as [Hch1 Hch2].
  rewrite length_take in Hch2.
  destruct (send_all wchunk_at num (fun _ _ => writing 0) _ _ _ (take k l) (send_writing 0) [] t1)
    as (sent & err & t2 & E2 & Hcs & Ht2 & Hle & Hls); [done|cbn; rewrite length_take; lia|done|done|].
  unfold mbind_M at 1. rewrite E2. cbn [app] in Hle, Hls. rewrite length_take in Hle, Hls.
  assert (exists w t3, (match err with Some e => stopFeeding e (mkWriteState 0 false None)
      | None => ret (mkWriteState 0 false None) end) t2 = (Ok w, t3) /\ writing 0 t3 /\ ws_total w = 0 /\
      consistent w /\ (ws_draining w = false -> err = None)) as (w & t3 & E3 & Ht3 & Ew & Hw & Hd).
  { destruct err as [e|]; [|by eexists _, t2].
    destruct (stop_consistent 0 e (mkWriteState 0 false None) t2 Ht2) as (w & t3 & E3 & Ht3 & Ew & Ed & Hw); [done|].
    exists w, t3. split_and!; try done. by rewrite Ed. }
  unfold mbind_M at 1. revert E3. set (m := match err with Some _ => _ | None => _ end). intros ->.
  assert (chunks_from wchunk_at 0 (sent ++ drop (length sent) l)) as Hall.
  { apply chunks_from_app. split; [done|]. intros j ch. rewrite lookup_drop. intros Hj.
    replace (0 + Z.of_nat (length sent) + Z.of_nat j) with (0 + Z.of_nat (length sent + j)) by lia.
    destruct (decide (length sent + j < k)%nat).
    - apply Hch1. by rewrite lookup_take_lt.
    - replace (0 + Z.of_nat (length sent + j)) with (0 + Z.of_nat (k `min` length l) + Z.of_nat (length sent + j - k)) by lia.
      apply Hch2. rewrite lookup_drop, <- Hj. f_equal. lia. }
  apply (write_loop_served _ 0 _ _ _ 0); [lia|rewrite length_app, length_drop; lia|lia| |done|done|unfold len; lia|done|done].
  intros Hd' Hnil. specialize (Hd Hd'). subst err. rewrite Hnil in Hls. cbn in Hls. lia.
Qed.
End writing.

(** ** Results *)

(** A server with nothing under way. *)
Definition idle_server (f : File) (t : pipe_server) : Prop :=
  f_fid f = server_fid (ps_file t) /\ ps_inbox t = [] /\ ps_replies t = ∅.

(** C15: a pipelined read from a server that answers its requests in any order,
    each with any part of what it asks for, while sends fail, the context ends and
    the connection breaks as they like, never panics; it puts at the front of the
    buffer exactly the bytes of the file at the position, as many as it says, and
    leaves the rest of the buffer; without an error there is at least one, and
    [io.EOF] comes only at the end of the file and with none. *)
Theorem readPipelined_faithful c s f buf offset (t : pipe_server) :
  has_cap c CAP_LARGE_FILES = true -> 0 <= f_fid f < 2 ^ 16 -> idle_server f t ->
  Forall (fun o => o <> Some EOF) (ps_sends t) ->
  0 < len buf -> 0 <= offset -> offset + len buf < 2 ^ 64 ->
  exists n err, (readPipelined c s f buf offset t).1 =
      Ok (take (Z.to_nat n) (drop (Z.to_nat offset) (content (ps_file t))) ++ drop (Z.to_nat n) buf, (n, err)) /\
    0 <= n <= len buf /\ (n = 0 \/ n <= len (content (ps_file t)) - offset) /\
    (err = None -> 0 < n) /\ (err = Some EOF -> n = 0 /\ len (content (ps_file t)) <= offset).
Proof.
  intros Hc Hf (Hs & Hin & Hre) Hse Hsize Ho Hb.
  destruct (readPipelined_served c s f (ps_file t) (ps_next t) buf offset Hsize Ho (or_introl Hb) _ _ _
    (pipe_server_reads c s f (ps_file t) Hc Hf Hs (ps_next t) buf offset Hsize Ho (or_introl Hb)) t eq_refl)
    as (n & err & E & H1 & H2 & H3 & H4 & _).
  { split; [done|by rewrite Hin|by rewrite Hre|done]. }
  by exists n, err.
Qed.

(** C16: a pipelined write to such a server never panics; the count it returns is
    of bytes that are in the file at their places, the file outside of the range of
    the write is as before, and without an error the count is all of the data.
    (Bytes beyond the count may have been written too: see [beyond_count].) *)
Theorem writePipelined_confirmed c s f data offset (t : pipe_server) :
  has_cap c CAP_LARGE_FILES = true -> 0 <= f_fid f < 2 ^ 16 -> idle_server f t ->
  0 < len data -> 0 <= offset -> offset + len data < 2 ^ 64 ->
  exists n err t', writePipelined c s f data offset t = (Ok (Z.of_nat n, err), t') /\
    (n <= length data)%nat /\ (err = None -> n = length data) /\
    (forall j, (j < n)%nat -> content (ps_file t') !! (Z.to_nat offset + j)%nat = data !! j) /\
    (forall p, (p < length (content (ps_file t)))%nat ->
       ~ (Z.to_nat offset <= p < Z.to_nat offset + length data)%nat ->
       content (ps_file t') !! p = content (ps_file t) !! p).
Proof.
  intros Hc Hf (Hs & Hin & Hre) Hsize Ho Hb.
  destruct (writePipelined_served c s f Hc Hf (ps_next t) (content (ps_file t)) data offset Hsize Ho Hb t eq_refl)
    as (n & err & E & Hn & Hw & He).
  { split; [done|by rewrite Hin|by rewrite Hre|intros j Hj; lia|by intros p]. }
  exists n, err, (writePipelined c s f data offset t).2. split; [by rewrite <- E; destruct (writePipelined _ _ _ _ _ _)|].
  split_and!; [done|done| |apply Hw]. intros j Hj. apply (wr_landed _ _ _ _ _ _ _ _ Hw). lia.
Qed.

(** Two chunks, the second handled before the first. *)
Definition busy_server : pipe_server :=
  mkPipeServer (mkFileServer (replicate (Z.to_nat 18000) Byte.x41) (fun _ n => n) true 9 [])
    0 [] ∅ [] [Serve 1; Serve 0; Deliver; Deliver].
Definition zeros : bytes := replicate (Z.to_nat 20000) Byte.x00.

Example busy_read :
  match readPipelined example_negotiated example_session example_file zeros 0 busy_server with
  | (Ok (buf, out), _) => out = (18000, None) /\ bool_decide (take (Z.to_nat 18000) buf = content (ps_file busy_server)) = true
  | _ => False
  end.
Proof. vm_compute. by split. Qed.

Lemma readPipelined_faithful_witness :
  idle_server example_file busy_server /\
  exists n err, (readPipelined example_negotiated example_session example_file zeros 0 busy_server).1 =
      Ok (take (Z.to_nat n) (drop (Z.to_nat 0) (content (ps_file busy_server))) ++ drop (Z.to_nat n) zeros, (n, err)) /\
    0 <= n <= len zeros /\ (n = 0 \/ n <= len (content (ps_file busy_server)) - 0) /\
    (err = None -> 0 < n) /\ (err = Some EOF -> n = 0 /\ len (content (ps_file busy_server)) <= 0).
Proof.
  assert (idle_server example_file busy_server) as Hidle by (split_and!; reflexivity).
  assert (0 < len zeros) as Hz by (vm_compute; reflexivity).
  assert (0 + len zeros < 2 ^ 64) as Hz' by (vm_compute; reflexivity).
  split; [exact Hidle|].
  pose proof (readPipelined_faithful example_negotiated example_session example_file zeros 0 busy_server
    eq_refl ltac:(cbn; lia) Hidle (Forall_nil_2 _) Hz (Z.le_refl 0) Hz') as H. exact H.
Defined.

(** A write of which the server takes the second chunk, but only five bytes of the
    first: the count is five, but the second chunk is in the file. *)
Definition greedy_server : pipe_server :=
  mkPipeServer (mkFileServer zeros (fun o n => if o =? 0 then 5 else n) true 9 [])
    0 [] ∅ [] [Serve 0; Deliver; Serve 0; Deliver].
Definition new_data : bytes := replicate (Z.to_nat 20000) Byte.x42.

Lemma beyond_count :
  match writePipelined example_negotiated example_session example_file new_data 0 greedy_server with
  | (Ok out, t) => out = (5, Some ErrShortWrite) /\
      content (ps_file t) !! 4%nat = Some Byte.x42 /\ content (ps_file t) !! 5%nat = Some Byte.x00 /\
      content (ps_file t) !! Z.to_nat 15620 = Some Byte.x42
  | _ => False
  end.
Proof. vm_compute. by split_and!. Qed.

Lemma writePipelined_confirmed_witness :
  idle_server example_file greedy_server /\
  exists n err t', writePipelined example_negotiated example_session example_file new_data 0 greedy_server =
      (Ok (Z.of_nat n, err), t') /\
    (n <= length new_data)%nat /\ (err = None -> n = length new_data) /\
    (forall j, (j < n)%nat -> content (ps_file t') !! (Z.to_nat 0 + j)%nat = new_data !! j) /\
    (forall p, (p < length (content (ps_file greedy_server)))%nat ->
       ~ (Z.to_nat 0 <= p < Z.to_nat 0 + length new_data)%nat ->
       content (ps_file t') !! p = content (ps_file greedy_server) !! p).
Proof.
  assert (idle_server example_file greedy_server) as Hidle by (split_and!; reflexivity).
  assert (0 < len new_data) as Hz by (vm_compute; reflexivity).
  assert (0 + len new_data < 2 ^ 64) as Hz' by (vm_compute; reflexivity).
  split; [exact Hidle|].
  pose proof (writePipelined_confirmed example_negotiated example_session example_file new_data 0 greedy_server
    eq_refl ltac:(cbn; lia) Hidle Hz (Z.le_refl 0) Hz') as H. exact H.
Defined.
