(* ===== verification/Pipe.v ===== *)
(** * Named pipes and share listings ([internal/client/file.go],
    [internal/client/session.go], [session.go])

    Transactions on an open named pipe with their fallback to writing and reading
    ([TransactNamedPipe]), remote procedure calls over it ([RPCBind],
    [RPCRequest]), and the listing of a server's shares ([ListSharenames]), which
    tries RAP and then SRVSVC.  The state of the last is the connection together
    with the session's registry of trees. *)

From S2P Require Export Transfer Dcerpc Paths.

(** ** Constants *)

Definition GENERIC_WRITE : Z := 0x40000000.
Definition GENERIC_READ : Z := 0x80000000.
Definition FILE_SHARE_READ : Z := 0x00000001.
Definition FILE_SHARE_WRITE : Z := 0x00000002.
Definition FILE_OPEN : Z := 0x00000001.
Definition rapReceiveBufferSizeCap : Z := 65535.

Section pipes.
Context {T : Type} `{Transport T} `{Ctx T} `{Pipeline T}.

(** [sendRecvTransaction] as the code sees it: an error, or a response with its
    own error field. *)
Definition transact (h : Header) (params data : bytes) : M T (option (response * Trans2Response)) := fun t =>
  match t_sendRecvTransaction h params data t with
  | (Ok r, t) => (Ok (Some r), t)
  | (Err _, t) => (Ok None, t)
  | (Panic, t) => (Panic, t)
  end.

(** Writing the request and reading the reply, for servers without the
    transaction: the pipe with its position, the reply and the error. *)
Definition pipe_by_file (c : Negotiated) (s : UserSession) (f : File) (data : bytes)
  : M T (File * (bytes * option error)) :=
  let* (f, (_, err)) := Write c s f data in
  match err with
  | Some e => ret (f, ([], Some (Wrapf "failed to write to named pipe" e)))
  | None =>
    let* buf := lift (make 65536) in
    let* (f, (response, (n, err))) := Read c s f buf in
    match err with
    | Some e =>
      if bool_decide (e = EOF) then let* r := lift (slice response 0 n) in ret (f, (r, None))
      else ret (f, ([], Some (Wrapf "failed to read from named pipe" e)))
    | None => let* r := lift (slice response 0 n) in ret (f, (r, None))
    end
  end.

Definition TransactNamedPipe (c : Negotiated) (s : UserSession) (f : File) (data : bytes)
  : M T (File * (bytes * option error)) :=
  try* (allParams, dataBytes) :=
    lift (EncodeTransactNamedPipeRequest (f_fid f) data (transactionMaxDataCount c 0) (use_unicode c))
    else (fun e => (f, ([], Some (Wrapf "failed to encode TransactNamedPipe request" e)))) in
  let* reply := transact (file_header SMB_COM_TRANSACTION s f) allParams dataBytes in
  match reply with
  | Some (resp, transResp) =>
    if bool_decide (r_err resp = None) then ret (f, (t2_Data transResp, None)) else pipe_by_file c s f data
  | None => pipe_by_file c s f data
  end.

Definition OpenNamedPipe (c : Negotiated) (s : UserSession) (t : Tree) (pipeName : bytes) : M T File :=
  wrap_err "failed to open named pipe %s"
    (OpenFile c s t pipeName (Z.lor GENERIC_READ GENERIC_WRITE) (Z.lor FILE_SHARE_READ FILE_SHARE_WRITE)
       FILE_OPEN 0).

(** ** Remote procedure calls *)

Definition RPCBind (c : Negotiated) (s : UserSession) (pipe : File) (interfaceUUID : bytes) (version : Z)
  : M T (File * (Z * option error)) :=
  let* bindRequest := lift (EncodeBind interfaceUUID version) in
  let* (pipe, (responseData, err)) := TransactNamedPipe c s pipe bindRequest in
  match err with
  | Some e => ret (pipe, (0, Some (Wrapf "RPC Bind failed" e)))
  | None =>
    if len responseData =? 0 then ret (pipe, (0, Some (Errorf "RPC Bind response is empty"))) else
    try* contextID := lift (DecodeBindAck responseData)
      else (fun e => (pipe, (0, Some (Wrapf "failed to decode Bind_Ack" e)))) in
    ret (pipe, (contextID, None))
  end.

Definition RPCRequest (c : Negotiated) (s : UserSession) (pipe : File) (contextID opnum : Z)
    (requestData : bytes) (callID : Z) : M T (File * (bytes * option error)) :=
  let* requestPDU := lift (EncodeRequest contextID opnum requestData callID) in
  let* (pipe, (responseData, err)) := TransactNamedPipe c s pipe requestPDU in
  match err with
  | Some e => ret (pipe, ([], Some (Wrapf "RPC Request failed" e)))
  | None =>
    if len responseData =? 0 then ret (pipe, ([], Some (Errorf "RPC Request response is empty"))) else
    try* (responseData, status) := lift (DecodeResponse responseData)
      else (fun e => (pipe, ([], Some (Wrapf "failed to decode RPC response" e)))) in
    if negb (status =? 0) then ret (pipe, ([], Some (Errorf "RPC request failed with status: 0x%08x")))
    else ret (pipe, (responseData, None))
  end.

(** ** The shares of a server *)

(** The state of a client: its connection and its session. *)
Definition with_session {A} (m : UserSession -> M T A) : M (T * UserSession) A :=
  fun st => match m st.2 st.1 with (r, t) => (r, (t, st.2)) end.

(** [defer]: whatever [m] comes to, then [fin], whose error is dropped. *)
Definition defer {S A B} (fin : M S B) (m : M S A) : M S A := fun st =>
  match m st with
  | (Panic, st) => (Panic, st)
  | (r, st) => match fin st with (Panic, st) => (Panic, st) | (_, st) => (r, st) end
  end.

Variable ToUpper : bytes -> bytes.

Definition tree_connect (c : Negotiated) (path : bytes) : M (T * UserSession) Tree := fun st =>
  match TreeConnect ToUpper c st.2 path st.1 with
  | (Ok (t, s), tr) => (Ok t, (tr, s))
  | (Err e, tr) => (Err e, (tr, st.2))
  | (Panic, tr) => (Panic, (tr, st.2))
  end.
Definition tree_disconnect (tid : Z) : M (T * UserSession) () := fun st =>
  match TreeDisconnect st.2 tid st.1 with
  | (Ok s, tr) => (Ok (), (tr, s))
  | (Err e, tr) => (Err e, (tr, st.2))
  | (Panic, tr) => (Panic, (tr, st.2))
  end.

(** [`\%s\IPC$`] *)
Definition ipc_path (addr : bytes) : bytes := unc_prefix ++ uncServerName addr ++ str "\IPC$".

Definition listSharenamesRAP (c : Negotiated) (addr : bytes) : M (T * UserSession) (list bytes) :=
  let* ipcShare := wrap_err "failed to connect to IPC$ share" (tree_connect c (ipc_path addr)) in
  defer (tree_disconnect (te_TID ipcShare)) (
    let receiveBuf := MaxTransactionDataCount (maxBufferSize c) TransactionMaxParameterCount in
    let receiveBuf := if rapReceiveBufferSizeCap <? receiveBuf then rapReceiveBufferSizeCap else receiveBuf in
    let* (params, data) := wrap_err "failed to encode NetShareEnum request"
      (lift (EncodeNetShareEnumRequest (Some (mkNetShareEnumRequest 1 receiveBuf)))) in
    let* transResp := wrap_err "NetShareEnum transaction failed"
      (with_session (fun s => SendTransaction c s ipcShare RAPPipeName params data)) in
    let* shareResp := wrap_err "failed to decode NetShareEnum response"
      (lift (DecodeNetShareEnumResponse (t2_Parameters transResp) (t2_Data transResp) 1)) in
    ret (sh_Name <$> ner_Shares shareResp)).

Definition listSharenamesRPC (c : Negotiated) (addr : bytes) : M (T * UserSession) (list bytes) :=
  let* ipcShare := wrap_err "failed to connect to IPC$ share" (tree_connect c (ipc_path addr)) in
  defer (tree_disconnect (te_TID ipcShare)) (
    let* pipe := wrap_err "failed to open \srvsvc pipe"
      (with_session (fun s => OpenNamedPipe c s ipcShare (str "\srvsvc"))) in
    defer (with_session (fun s => Close_file s pipe)) (
      let* (pipe, (contextID, err)) := with_session (fun s => RPCBind c s pipe InterfaceUUID InterfaceVersion) in
      match err with
      | Some e => fail (Wrapf "failed to bind SRVSVC interface" e)
      | None =>
        let* requestData := lift (EncodeNetShareEnumAllRequest (uncServerName addr)) in
        let* (pipe, (responseData, err)) :=
          with_session (fun s => RPCRequest c s pipe contextID OpNetShareEnumAll requestData 1) in
        match err with
        | Some e => fail (Wrapf "NetShareEnumAll RPC request failed" e)
        | None =>
          let* shareInfos := wrap_err "failed to decode share enumeration response"
            (lift (DecodeNetShareEnumAllResponse responseData)) in
          ret (ss_Name <$> shareInfos)
        end
      end)).

Definition ListSharenames (c : Negotiated) (addr : bytes) : M (T * UserSession) (list bytes) := fun st =>
  match listSharenamesRAP c addr st with
  | (Ok shares, st) => (Ok shares, st)
  | (Panic, st) => (Panic, st)
  | (Err rapErr, st) =>
    match listSharenamesRPC c addr st with
    | (Err rpcErr, st) => (Err (Wrapf2 "share enumeration failed: RAP: %w; RPC: %w" rapErr rpcErr), st)
    | out => out
    end
  end.
End pipes.

(** ** A server of shares

    It has no RAP; on its one pipe, opened and bound to SRVSVC, it answers
    NetShareEnumAll with its shares.  It reads the requests in their packets. *)
Inductive pipe_state := PipeClosed | PipeOpen | PipeBound.

Record rpc_server := mkRpcServer {
  rp_shares : list wire_share;
  rp_total : Z;
  rp_state : pipe_state;
}.
Definition with_state (st : pipe_state) (t : rpc_server) : rpc_server :=
  mkRpcServer (rp_shares t) (rp_total t) st.

Definition ipc_tid : Z := 3.
Definition srvsvc_fid : Z := 0x4001.

Definition tree_reply : response :=
  response_of (reply_of SMB_COM_TREE_CONNECT_ANDX 0 7 ipc_tid)
    ([byte_of 0xFF; byte_of 0] ++ le_put 2 0 ++ le_put 2 1) (str "IPC" ++ [Byte.x00]).
Definition create_reply : response :=
  response_of (reply_of SMB_COM_NT_CREATE_ANDX 0 7 ipc_tid)
    ([byte_of 0xFF; byte_of 0] ++ le_put 2 0 ++ [byte_of 0] ++ le_put 2 srvsvc_fid ++ replicate 61 Byte.x00) [].
Definition done_reply (command : Z) : response := response_of (reply_of command 0 7 ipc_tid) [] [].

Definition pdu_header (type callID : Z) : bytes :=
  rpc_header (mkRpcHeader VersionMajor VersionMinor type (Z.lor PFCFirstFrag PFCLastFrag) DataRepresentation 0 0 callID).
Definition bind_ack : bytes :=
  pdu_header PacketTypeBindAck 0 ++ le_put 2 4280 ++ le_put 2 4280 ++ le_put 4 1 ++ le_put 2 0 ++ le_put 2 0
  ++ [byte_of 2] ++ replicate 3 Byte.x00 ++ le_put 2 0 ++ le_put 2 0 ++ replicate 20 Byte.x00.

#[export] Instance res_eq_dec {A} `{EqDecision A} : EqDecision (res A).
Proof. intros x y. unfold Decision. decide equality; [apply (decide (_ = _))|apply error_eq_dec]. Defined.

(** The pipe and the unit of a named-pipe transaction. *)
Definition read_pipe (h : Header) (params data : bytes) : res (Z * bytes) :=
  let! raw := EncodePacket (Some h) params data in
  let! fid := u16 raw 63 65 in
  let! n := u16 raw 55 57 in
  let! o := u16 raw 57 59 in
  let! pdu := slice raw o (o + n) in
  Ok (fid, pdu).

Definition pipe_reply (data : bytes) : response * Trans2Response :=
  (done_reply SMB_COM_TRANSACTION,
   mkTrans2Response 0 0 (len data) 0 0 0 0 (len data) 0 0 0 0 [] 0 [] [] [] data).

Definition serve_pipe (pdu : bytes) (t : rpc_server) : res (response * Trans2Response) * rpc_server :=
  match DecodeRpcHeader pdu, rp_state t with
  | Ok h, PipeOpen =>
    if (rh_PacketType h =? PacketTypeBind) && bool_decide (slice pdu 32 48 = Ok InterfaceUUID)
    then (Ok (pipe_reply bind_ack), with_state PipeBound t) else (Err (NtStatus 0xC00000BB), t)
  | Ok h, PipeBound =>
    if (rh_PacketType h =? PacketTypeRequest) && bool_decide (u16 pdu 22 24 = Ok OpNetShareEnumAll)
    then (Ok (pipe_reply (pdu_header PacketTypeResponse (rh_CallID h) ++ replicate 8 Byte.x00
                ++ share_reply (rp_shares t) 1 2 (rp_total t) 0)), t)
    else (Err (NtStatus 0xC00000BB), t)
  | _, _ => (Err (NtStatus 0xC00000BB), t)
  end.

(** The server as a transport.  It is a model server, not code of the client: it
    answers a connect to any tree path, an open of any pipe name and any
    disconnect alike, so that theorems over it say nothing of those requests;
    what it reads of its requests is the pipe's handle and the RPC unit. *)
#[export] Instance rpc_transport : Transport rpc_server := {
  t_sendRecv h params data t :=
    if Command h =? SMB_COM_TREE_CONNECT_ANDX then (Ok (tree_reply, None), t)
    else if Command h =? SMB_COM_NT_CREATE_ANDX then (Ok (create_reply, None), with_state PipeOpen t)
    else if Command h =? SMB_COM_CLOSE then (Ok (done_reply SMB_COM_CLOSE, None), with_state PipeClosed t)
    else (Ok (done_reply (Command h), None), t);
  t_sendRecvSettled h params data t := (Err (Errorf "no files"), t);
  t_sendRecvTransaction h params data t :=
    match rp_state t with
    | PipeClosed => (Err (NtStatus 0xC00000BB), t)
    | _ =>
      match read_pipe h params data with
      | Ok (fid, pdu) => if fid =? srvsvc_fid then serve_pipe pdu t else (Err (NtStatus 0xC0000008), t)
      | Err e => (Err e, t)
      | Panic => (Panic, t)
      end
    end;
}.
#[export] Instance rpc_context : Ctx rpc_server := { ctx_poll t := (None, t) }.
#[export] Instance rpc_pipeline : Pipeline rpc_server := {
  pl_make t := (0%nat, t);
  pl_send _ _ _ _ t := (Err conn_ErrConnectionClosed, t);
  pl_wait _ t := (PickDone (Some conn_ErrConnectionClosed), t);
  pl_settle _ t := (PickDone (Some conn_ErrConnectionClosed), t);
  pl_delete _ t := t;
  pl_abandon _ _ t := t;
}.

(** ** Listing shares: properties *)

Lemma pdu_header_ok type callID : 0 <= type < 2 ^ 8 -> 0 <= callID < 2 ^ 32 ->
  rpc_header_ok (mkRpcHeader VersionMajor VersionMinor type (Z.lor PFCFirstFrag PFCLastFrag) DataRepresentation 0 0 callID).
Proof.
  intros Ht Hc. unfold rpc_header_ok. cbn. split_and!; try assumption; try apply Ht; try apply Hc; first [reflexivity|discriminate].
Qed.

Lemma response_stub stub callID : 0 <= callID < 2 ^ 32 ->
  DecodeResponse (pdu_header PacketTypeResponse callID ++ replicate 8 Byte.x00 ++ stub) = Ok (stub, 0).
Proof. intros. apply DecodeResponse_stub; [by apply pdu_header_ok|done|done]. Qed.

Lemma file_header_wf command s f :
  0 <= command < 2 ^ 8 -> 0 <= uid s < 2 ^ 16 -> 0 <= f_tid f < 2 ^ 16 -> Header_wf (file_header command s f).
Proof.
  intros Hc Hu Ht. constructor; try assumption; try reflexivity; vm_compute; split; congruence.
Qed.

Section listing.
Context (ToUpper : bytes -> bytes) (c : Negotiated) (addr : bytes) (s : UserSession).
Context (shares : list wire_share) (total : Z).
Context (Hup : ToUpper (ipc_path addr) <> []) (Huid : 0 <= uid s < 2 ^ 16) (Htid : trees s !! ipc_tid = None).
Context (Hstub : match EncodeNetShareEnumAllRequest (uncServerName addr) with
                 | Ok stub => 124 + len stub <= 2 ^ 16 | _ => False end).
Context (Hshares : Forall share_ok shares) (Hne : shares <> []) (Htotal : len shares <= total < 2 ^ 16).

Let srv (st : pipe_state) : rpc_server := mkRpcServer shares total st.
Let pipe : File := mkFile ipc_tid srvsvc_fid (str "\srvsvc") 0.
Let ipc : Tree := mkTree ipc_tid (ToUpper (ipc_path addr)) (str "IPC") 1 [].
Let connected : UserSession := mkUserSession (uid s) (isGuest s) (<[ipc_tid := ipc]> (trees s)).

(** A unit sent through the pipe reaches the server. *)
Lemma transact_served st pdu reply st' s' :
  uid s' = uid s -> st <> PipeClosed -> 100 + len pdu <= 2 ^ 16 ->
  serve_pipe pdu (srv st) = (Ok (pipe_reply reply), srv st') ->
  TransactNamedPipe c s' pipe pdu (srv st) = (Ok (pipe, (reply, None)), srv st').
Proof.
  intros Es Hst Hlen Hserve. unfold TransactNamedPipe.
  destruct (EncodeTransactNamedPipeRequest_layout (file_header SMB_COM_TRANSACTION s' pipe) srvsvc_fid pdu
    (transactionMaxDataCount c 0) (use_unicode c)) as (p & d & raw & o & E1 & E2 & _ & E3 & E4 & E5 & _ & E6);
    [apply file_header_wf; rewrite ?Es; [split; [discriminate|reflexivity]|exact Huid|split; [discriminate|reflexivity]]
    |split; [discriminate|reflexivity]|exact Hlen|].
  change (f_fid pipe) with srvsvc_fid. unfold try_M, lift at 1. rewrite E1.
  unfold mbind_M, transact. cbn [t_sendRecvTransaction rpc_transport].
  assert (read_pipe (file_header SMB_COM_TRANSACTION s' pipe) p d = Ok (srvsvc_fid, pdu)) as ->.
  { unfold read_pipe. rewrite E2. cbn [bind]. rewrite E3. cbn [bind]. rewrite E4. cbn [bind]. rewrite E5. cbn [bind].
    by rewrite E6. }
  rewrite Z.eqb_refl, Hserve. destruct st; [congruence|reflexivity..].
Qed.

Lemma bind_served s' : uid s' = uid s ->
  RPCBind c s' pipe InterfaceUUID InterfaceVersion (srv PipeOpen) = (Ok (pipe, (0, None)), srv PipeBound).
Proof.
  intros Es. unfold RPCBind.
  destruct (EncodeBind_layout InterfaceUUID InterfaceVersion) as (pdu & h & E & Hl & Eh & Et & _ & _ & (_ & Eu & _) & _);
    [reflexivity|unfold InterfaceVersion; lia|]. unfold mbind_M at 1, lift at 1. rewrite E. unfold mbind_M.
  rewrite (transact_served PipeOpen pdu bind_ack PipeBound); [vm_compute; reflexivity|exact Es|discriminate|lia|].
  unfold serve_pipe. rewrite Eh, Et. cbn [rp_state srv]. rewrite Eu, bool_decide_true by reflexivity. reflexivity.
Qed.

Lemma request_served s' stub : uid s' = uid s -> 124 + len stub <= 2 ^ 16 ->
  RPCRequest c s' pipe 0 OpNetShareEnumAll stub 1 (srv PipeBound) =
  (Ok (pipe, (share_reply shares 1 2 total 0, None)), srv PipeBound).
Proof.
  intros Es Hl. unfold RPCRequest. pose proof (len_nonneg stub).
  destruct (EncodeRequest_layout 0 OpNetShareEnumAll stub 1) as (pdu & h & E & Hp & Eh & Et & Ec & _ & _ & _ & Eo & _);
    [lia|unfold OpNetShareEnumAll; lia|lia|lia|]. unfold mbind_M at 1, lift at 1. rewrite E. unfold mbind_M.
  rewrite (transact_served PipeBound pdu (pdu_header PacketTypeResponse 1 ++ replicate 8 Byte.x00
    ++ share_reply shares 1 2 total 0) PipeBound); [|exact Es|discriminate|lia|].
  - rewrite response_stub by lia. rewrite (proj2 (Z.eqb_neq (len _) 0)); [reflexivity|].
    unfold pdu_header. rewrite len_app, len_rpc_header by reflexivity.
    pose proof (len_nonneg (replicate 8 Byte.x00 ++ share_reply shares 1 2 total 0)). lia.
  - unfold serve_pipe. rewrite Eh, Et, Ec. cbn [rp_state srv]. rewrite Eo, bool_decide_true by reflexivity. reflexivity.
Qed.
Lemma tree_connected st :
  tree_connect ToUpper c (ipc_path addr) (srv st, s) = (Ok ipc, (srv st, connected)).
Proof.
  unfold tree_connect, TreeConnect. cbn [fst snd].
  rewrite EncodeTreeConnectRequest_eq by exact Hup. subst ipc connected. unfold tree_request.
  destruct (use_unicode c); reflexivity.
Qed.

Lemma tree_disconnected st :
  tree_disconnect (te_TID ipc) (srv st, connected) = (Ok (), (srv st, s)).
Proof.
  unfold tree_disconnect, TreeDisconnect. cbn.
  assert (delete ipc_tid (<[ipc_tid := ipc]> (trees s)) = trees s) as Et by (by rewrite delete_insert_id).
  unfold ret. cbn. rewrite Et. by destruct s.
Qed.

Lemma pipe_opened :
  OpenNamedPipe c connected ipc (str "\srvsvc") (srv PipeClosed) = (Ok pipe, srv PipeOpen).
Proof.
  unfold OpenNamedPipe, OpenFile. unfold wrap_err at 1. unfold mbind_M at 1, wrap_err at 1, lift at 1.
  unfold open_request. destruct (use_unicode c); vm_compute; reflexivity.
Qed.

Lemma pipe_closed st :
  Close_file connected pipe (srv st) = (Ok (), srv PipeClosed).
Proof. reflexivity. Qed.

Lemma listSharenamesRPC_served :
  listSharenamesRPC ToUpper c addr (srv PipeClosed, s) =
  (Ok (ss_Name <$> (ws_share <$> shares)), (srv PipeClosed, s)).
Proof.
  unfold listSharenamesRPC. unfold mbind_M at 1, wrap_err at 1. rewrite tree_connected.
  unfold defer at 1. unfold mbind_M at 1, wrap_err at 1, with_session at 1. cbn [fst snd].
  rewrite pipe_opened. unfold defer at 1.
  unfold mbind_M at 1, with_session at 1. cbn [fst snd]. rewrite bind_served by reflexivity.
  unfold mbind_M at 1, lift at 1. destruct (EncodeNetShareEnumAllRequest _) as [stub|e|]; [|done..].
  unfold mbind_M at 1, with_session at 1. cbn [fst snd]. rewrite request_served by (reflexivity || exact Hstub).
  unfold mbind_M at 1, wrap_err at 1, lift at 1.
  rewrite share_reply_decoded by (assumption || lia).
  unfold ret at 1, with_session at 1. cbn [fst snd]. rewrite pipe_closed. by rewrite tree_disconnected.
Qed.

Lemma rap_request n : exists params, EncodeNetShareEnumRequest (Some (mkNetShareEnumRequest 1 n)) = Ok (params, [])
  /\ length params = 19%nat.
Proof. eexists. split; [cbn; reflexivity|reflexivity]. Qed.

Lemma listSharenamesRAP_refused :
  exists e, listSharenamesRAP ToUpper c addr (srv PipeClosed, s) = (Err e, (srv PipeClosed, s)).
Proof.
  unfold listSharenamesRAP. unfold mbind_M at 1, wrap_err at 1. rewrite tree_connected.
  unfold defer at 1. set (n := if _ <? _ then _ else _). destruct (rap_request n) as (params & E & Hl).
  unfold mbind_M at 1, wrap_err at 1, lift at 1. rewrite E.
  destruct (EncodeTransactionRequest_layout (NewHeader SMB_COM_TRANSACTION) RAPPipeName params []
    (transactionMaxDataCount c TransactionMaxParameterCount) (use_unicode c))
    as (p & d & raw & po & dofs & E1 & _);
    [apply NewHeader_wf; split; [discriminate|reflexivity]
    |unfold len; rewrite Hl; destruct (use_unicode c); vm_compute; discriminate|].
  unfold mbind_M at 1, wrap_err at 1, with_session at 1, SendTransaction. cbn [fst snd].
  unfold mbind_M at 1, lift at 1. rewrite E1.
  unfold transaction_reply, mbind_M at 1. cbn [t_sendRecvTransaction rpc_transport rp_state srv].
  rewrite tree_disconnected. by eexists.
Qed.
End listing.

(** C28: from a server that does not speak RAP but has shares, [ListSharenames]
    gets exactly their names over SRVSVC: the server finds its own pipe handle, a
    bind to its interface and a NetShareEnumAll request in the packets it receives,
    and the client decodes its NDR listing; afterwards the pipe is closed and the
    session's trees are what they were. *)
Theorem ListSharenames_served ToUpper c addr s shares total :
  ToUpper (ipc_path addr) <> [] -> 0 <= uid s < 2 ^ 16 -> trees s !! ipc_tid = None ->
  match EncodeNetShareEnumAllRequest (uncServerName addr) with
  | Ok stub => 124 + len stub <= 2 ^ 16
  | _ => False
  end ->
  Forall share_ok shares -> shares <> [] -> len shares <= total < 2 ^ 16 ->
  ListSharenames ToUpper c addr (mkRpcServer shares total PipeClosed, s) =
  (Ok ((fun w => ss_Name (ws_share w)) <$> shares), (mkRpcServer shares total PipeClosed, s)).
Proof.
  intros Hup Huid Htid Hstub Hsh Hne Htot. unfold ListSharenames.
  destruct (listSharenamesRAP_refused ToUpper c addr s shares total Hup Huid Htid) as [e ->].
  rewrite listSharenamesRPC_served by assumption. by rewrite <- list_fmap_compose.
Qed.

Lemma ListSharenames_served_witness :
  ListSharenames id example_negotiated (str "192.168.1.5:445") (mkRpcServer two_shares 2 PipeClosed, example_session) =
  (Ok ((fun w => ss_Name (ws_share w)) <$> two_shares), (mkRpcServer two_shares 2 PipeClosed, example_session)).
Proof.
  apply ListSharenames_served; [vm_compute; discriminate|vm_compute; split; [discriminate|reflexivity]
    |reflexivity|vm_compute; discriminate| |discriminate|vm_compute; split; [discriminate|reflexivity]].
  repeat constructor; cbn [ws_share ws_name_ref ws_comment_ref ss_Type ss_Name ss_Comment];
    first [lia|reflexivity|discriminate].
Defined.

(** ** Reading the reply of a pipe as a file

    A message pipe has nothing more to read after the reply; but [ReadAt] asks
    again, since the reply is shorter than the buffer, and the error of that read
    makes the call fail although the reply was received. *)
#[export] Instance script_pipeline : Pipeline script := {
  pl_make t := (0%nat, t);
  pl_send _ _ _ _ t := (Err conn_ErrConnectionClosed, t);
  pl_wait _ t := (PickDone (Some conn_ErrConnectionClosed), t);
  pl_settle _ t := (PickDone (Some conn_ErrConnectionClosed), t);
  pl_delete _ t := t;
  pl_abandon _ _ t := t;
}.

Definition STATUS_PIPE_EMPTY : Z := 0xC00000D9.
Lemma pipe_fallback_rereads :
  (pipe_by_file example_negotiated example_session (mkFile 3 9 (str "\srvsvc") 0) (str "ask")
     (mkScript [] [write_reply 3; read_reply (str "answer"); status_reply SMB_COM_READ_ANDX STATUS_PIPE_EMPTY])).1
  = Ok (mkFile 3 9 (str "\srvsvc") 9,
        ([], Some (Wrapf "failed to read from named pipe" (Wrapf "smb1: read failed" (NtStatus STATUS_PIPE_EMPTY))))).
Proof. vm_compute. reflexivity. Qed.

(** ** Every decoder *)

(** C24: None of the decoders of SMB1 messages ([internal/smb1]), of RPC units
    ([internal/dcerpc]) and of share listings ([internal/srvsvc]) panics or
    loops, whatever bytes the server sends: packets, and the replies to
    negotiation, session setup, tree connect and disconnect, file operations,
    transactions (TRANS2 and RAP) with all their listings and information
    levels, path operations, bind, call and fault, and the listing of shares are
    decoded to a value or an error.  The decoders of SPNEGO tokens and of the
    NTLM challenge are not among them: two kinds of challenge do panic the
    client ([short_flags_panic] and [wrapping_field_panics] of [NtlmSpec], and
    what holds is [client_Authenticate_bounds] of [NtlmSafe]). *)
Theorem decoders_total (raw params data : bytes) level u :
  safe (DecodePacket raw) /\
  (safe (DecodeNegotiateResponse params data) /\ safe (DecodeSessionSetupResponse params data u) /\
   safe (DecodeTreeConnectResponse params data u) /\ safe (DecodeTreeDisconnectResponse params data)) /\
  (safe (DecodeNTCreateResponse params data) /\ safe (DecodeReadResponse params data) /\
   safe (DecodeWriteResponse params data) /\ safe (DecodeCloseResponse params data)) /\
  (safe (DecodeTrans2Response params data) /\ safe (ParseFileBothDirectoryInfo data) /\
   safe (DecodeFindFirst2Response params data level) /\ safe (DecodeFindNext2Response params data level) /\
   safe (DecodeQueryPathInfoResponse data level) /\ safe (DecodeFsSizeInfo data) /\
   safe (DecodeFsAllocationInfo data) /\ safe (DecodeFsVolumeInfo data)) /\
  (safe (DecodeRAPResponse params data) /\ safe (DecodeNetShareEnumResponse params data level) /\
   safe (DecodeTransactionResponse params data)) /\
  (safe (DecodeRenameResponse params data) /\ safe (DecodeSetInformationResponse params data) /\
   safe (DecodeDeleteDirectoryResponse params data)) /\
  (safe (DecodeBindAck data) /\ safe (DecodeResponse data) /\ safe (DecodeFault data) /\
   safe (DecodeNetShareEnumAllResponse data)).
Proof.
  destruct (smb1_decoders_total raw params data level u) as (?&?&?&?&?&?).
  destruct (rpc_decoders_total data) as (?&?&?).
  destruct (DecodeNetShareEnumAllResponse_total data) as [? _]. tauto.
Qed.
