(* ===== verification/FileInfo.v ===== *)
(** * File information ([fileinfo.go], [setinfo.go], [servertime.go],
    [capabilities.go], [compat.go])

    What the public API says about files: [FileStat], the os.FileInfo of the
    package, with its modes and times; the attributes [Chmod] sets; and the
    conversion helpers of [compat.go].

    A [time.Time] is an instant: nanoseconds since 1970, an integer of any size.
    Where Go keeps it in 64 bits ([UnixNano], [time.Unix(0, nsec)]) the model
    wraps it. *)

From S2P Require Export Errors File Paths.

(** ** Constants *)

Definition FILE_ATTRIBUTE_DEVICE : Z := 0x00000040.
Definition FILE_ATTRIBUTE_REPARSE_POINT : Z := 0x00000400.

(** Bits of an [os.FileMode]. *)
Definition ModeDir : Z := 2 ^ 31.
Definition ModeSymlink : Z := 2 ^ 27.
Definition ModeDevice : Z := 2 ^ 26.
Definition Mode_IsDir (mode : Z) : bool := negb (Z.land mode ModeDir =? 0).
Definition Perm (mode : Z) : Z := Z.land mode 0x1ff.

(** ** Times *)

(** [time.Time{}]: 1 January of year 1. *)
Definition zeroTime : Z := -62135596800 * 10 ^ 9.
Definition IsZero (t : Z) : bool := t =? zeroTime.
Definition UnixNano (t : Z) : Z := int64 t.

(** 1 January 1970 as a FILETIME. *)
Definition windowsToUnixEpoch : Z := 116444736000000000.

Definition convertFileTimeToTime (filetime : Z) : Z :=
  if filetime =? 0 then zeroTime else
  if filetime <? windowsToUnixEpoch then zeroTime else
  let nsec := int64 (int64 (wrap 64 (filetime - windowsToUnixEpoch)) * 100) in
  nsec.

Definition convertTimeToFileTime (t : Z) : Z :=
  if IsZero t then 0 else
  let nsec := UnixNano t in
  wrap 64 (wrap 64 (Z.quot nsec 100) + windowsToUnixEpoch).

Definition FileTimeToTime := convertFileTimeToTime.
Definition TimeToFileTime := convertTimeToFileTime.

(** ** Files *)

(** [FileStat] of the public package. *)
Record FileInfo := mkFileInfo {
  fi_CreationTime : Z;
  fi_LastAccessTime : Z;
  fi_LastWriteTime : Z;
  fi_ChangeTime : Z;
  fi_EndOfFile : Z;
  fi_AllocationSize : Z;
  fi_FileAttributes : Z;
  fi_FileName : bytes;
}.

Definition attributesToMode (attrs : Z) : Z :=
  let mode := if negb (Z.land attrs FILE_ATTRIBUTE_DIRECTORY =? 0)
              then Z.lor 0 (Z.lor ModeDir 0x1ed) else Z.lor 0 0x1a4 in
  let mode := if negb (Z.land attrs FILE_ATTRIBUTE_READONLY =? 0) then Z.ldiff mode 0x092 else mode in
  let mode := if negb (Z.land attrs FILE_ATTRIBUTE_REPARSE_POINT =? 0) then Z.lor mode ModeSymlink else mode in
  if negb (Z.land attrs FILE_ATTRIBUTE_DEVICE =? 0) then Z.lor mode ModeDevice else mode.

Definition FileStat_Name (fi : FileInfo) : bytes := fi_FileName fi.
Definition FileStat_Size (fi : FileInfo) : Z := fi_EndOfFile fi.
Definition FileStat_Mode (fi : FileInfo) : Z := attributesToMode (fi_FileAttributes fi).
Definition FileStat_ModTime (fi : FileInfo) : Z := fi_LastWriteTime fi.
Definition FileStat_IsDir (fi : FileInfo) : bool := negb (Z.land (fi_FileAttributes fi) FILE_ATTRIBUTE_DIRECTORY =? 0).

(** The public record of a [FileStat] of the client layer. *)
Definition of_stat (stat : FileStat) : FileInfo :=
  mkFileInfo (convertFileTimeToTime (fs_CreationTime stat)) (convertFileTimeToTime (fs_LastAccessTime stat))
    (convertFileTimeToTime (fs_LastWriteTime stat)) (convertFileTimeToTime (fs_ChangeTime stat))
    (fs_EndOfFile stat) (fs_AllocationSize stat) (fs_FileAttributes stat) (fs_FileName stat).

Definition chmodAttributes (attrs mode : Z) : Z :=
  let attrs := if negb (Z.land mode 0x080 =? 0) then Z.ldiff attrs FILE_ATTRIBUTE_READONLY
               else Z.lor attrs FILE_ATTRIBUTE_READONLY in
  if attrs =? 0 then FILE_ATTRIBUTE_NORMAL else attrs.

(** ** Conversions of [compat.go] *)

Definition UnixModeToFileAttributes (mode : Z) : Z :=
  let attrs := if Mode_IsDir mode then Z.lor 0 FILE_ATTRIBUTE_DIRECTORY else Z.lor 0 FILE_ATTRIBUTE_NORMAL in
  if Z.land mode 0x080 =? 0 then Z.lor attrs FILE_ATTRIBUTE_READONLY else attrs.

Definition FileAttributesToUnixMode (attrs : Z) : Z :=
  let mode := 0x1a4 in
  let mode := if negb (Z.land attrs FILE_ATTRIBUTE_DIRECTORY =? 0) then Z.lor ModeDir 0x1ed else mode in
  if negb (Z.land attrs FILE_ATTRIBUTE_READONLY =? 0) then Z.ldiff mode 0x092 else mode.

(** [strings.ReplaceAll] of one byte by another. *)
Definition replace_byte (old new : byte) (s : bytes) : bytes :=
  (fun b => if isb b old then new else b) <$> s.

Definition ToWindowsPath (path : bytes) : bytes := replace_byte slash_byte sep_byte (TrimSpace path).
Definition ToUnixPath (path : bytes) : bytes := replace_byte sep_byte slash_byte (TrimSpace path).

Definition NormalizeShareName (shareName serverAddr : bytes) : bytes :=
  let shareName := TrimSpace shareName in
  let shareName := replace_byte slash_byte sep_byte shareName in
  if HasPrefix shareName unc_prefix then shareName else
  if contains_byte shareName sep_byte then unc_prefix ++ shareName else
  let serverAddr := match last_index serverAddr Byte.x3a with
                    | Some idx => take idx serverAddr
                    | None => serverAddr
                    end in
  unc_prefix ++ serverAddr ++ [sep_byte] ++ shareName.

(** The bytes no share name has: / \ : * ? < > | and the double quote. *)
Definition invalidChars : bytes :=
  [slash_byte; Byte.x3a; Byte.x2a; Byte.x3f; Byte.x22; Byte.x3c; Byte.x3e; Byte.x7c; sep_byte].

Definition ValidateShareName (name : bytes) : res () :=
  if bool_decide (name = []) then Err (InternalError "empty share name") else
  if 80 <? len name then Err (InternalError "share name too long (max 80 characters)") else
  if existsb (contains_byte name) invalidChars
  then Err (InternalError "share name contains invalid characters") else Ok ().

Definition IsHiddenFile (name : bytes) (attrs : Z) : bool :=
  if negb (Z.land attrs FILE_ATTRIBUTE_HIDDEN =? 0) then true else HasPrefix name (str ".").
Definition IsSystemFile (attrs : Z) : bool := negb (Z.land attrs FILE_ATTRIBUTE_SYSTEM =? 0).
Definition IsArchiveFile (attrs : Z) : bool := negb (Z.land attrs FILE_ATTRIBUTE_ARCHIVE =? 0).

(** ** The server ([servertime.go], [capabilities.go]) *)

Record ServerTime := mkServerTime { sv_Time : Z; sv_TimeZoneOffsetMinutes : Z; sv_ReceivedAt : Z }.

Definition newServerTime (systemTime timeZoneMinutes receivedAt : Z) : ServerTime :=
  mkServerTime (convertFileTimeToTime systemTime) timeZoneMinutes receivedAt.

Record ServerCapabilities := mkServerCapabilities {
  sc_MaxMpxCount : Z;
  sc_MaxBufferSize : Z;
  sc_ServerName : bytes;
  sc_DomainName : bytes;
  sc_SupportsPipelining : bool;
  sc_EffectivePipelineDepth : Z;
}.

Definition Capabilities (c : Negotiated) : ServerCapabilities :=
  let '(effectiveDepth, supportsPipelining) := PipelineDepth (maxMpxCount c) in
  mkServerCapabilities (maxMpxCount c) (maxBufferSize c) (serverName c) (domainName c)
    supportsPipelining effectiveDepth.

(** ** Times: properties *)

Lemma int64_small z : 0 <= z < 2 ^ 63 -> int64 z = z.
Proof.
  intros H. unfold int64. rewrite wrap_small by lia. by rewrite (proj2 (Z.ltb_lt _ _)) by lia.
Qed.

(** The FILETIMEs a [time.Time] in nanoseconds can hold: none, and 1970 to 2262. *)
Definition representable (ft : Z) : Prop :=
  ft = 0 \/ (windowsToUnixEpoch <= ft /\ (ft - windowsToUnixEpoch) * 100 < 2 ^ 63).

Lemma convertFileTimeToTime_exact ft :
  windowsToUnixEpoch <= ft -> (ft - windowsToUnixEpoch) * 100 < 2 ^ 63 ->
  convertFileTimeToTime ft = (ft - windowsToUnixEpoch) * 100.
Proof.
  intros H1 H2. unfold convertFileTimeToTime. pose proof (eq_refl : windowsToUnixEpoch = 116444736000000000).
  rewrite (proj2 (Z.eqb_neq _ _)), (proj2 (Z.ltb_ge _ _)) by lia.
  rewrite wrap_small, (int64_small (ft - _)), int64_small by lia. done.
Qed.

Lemma convertTimeToFileTime_exact t :
  0 <= t < 2 ^ 63 -> convertTimeToFileTime t = t / 100 + windowsToUnixEpoch.
Proof.
  intros Ht. unfold convertTimeToFileTime, IsZero, UnixNano. rewrite int64_small by done.
  rewrite (proj2 (Z.eqb_neq _ _)) by (unfold zeroTime; lia).
  rewrite Z.quot_div_nonneg by lia. pose proof (Z.div_pos t 100). pose proof (Z.div_le_upper_bound t 100 t).
  pose proof (eq_refl : windowsToUnixEpoch = 116444736000000000).
  rewrite (wrap_small 64 (t / 100)), wrap_small by lia. done.
Qed.

(** FILETIMEs from 1970 to 2262, and the absent one, survive the conversion to
    a time and back; a time comes back rounded down to its tenth of a microsecond. *)
Theorem filetime_roundtrip ft t :
  representable ft -> 0 <= t < 2 ^ 63 ->
  convertTimeToFileTime (convertFileTimeToTime ft) = ft /\
  convertFileTimeToTime (convertTimeToFileTime t) = t - t mod 100.
Proof.
  intros Hft Ht. split.
  - destruct Hft as [->|[H1 H2]]; [reflexivity|].
    rewrite convertFileTimeToTime_exact, convertTimeToFileTime_exact by lia.
    rewrite Z.div_mul by done. lia.
  - rewrite convertTimeToFileTime_exact by done. pose proof (Z.div_mod t 100). pose proof (Z.mod_pos_bound t 100).
    pose proof (Z.div_pos t 100). rewrite convertFileTimeToTime_exact; lia.
Qed.

(** 21 March 2024, 10:00 UTC. *)
Definition example_filetime : Z := 133554960000000000.
Lemma filetime_roundtrip_witness :
  convertTimeToFileTime (convertFileTimeToTime example_filetime) = example_filetime /\
  convertFileTimeToTime (convertTimeToFileTime 1234567) = 1234567 - 1234567 mod 100.
Proof. apply filetime_roundtrip; [right; split; vm_compute; congruence|lia]. Defined.

(** A file of 1965 has no time: its FILETIME is taken for an invalid one. *)
Lemma early_times_lost t :
  - 2 ^ 63 <= t <= -100 -> convertFileTimeToTime (convertTimeToFileTime t) = zeroTime.
Proof.
  intros Ht. pose proof (eq_refl : windowsToUnixEpoch = 116444736000000000).
  assert (int64 t = t) as E.
  { unfold int64, wrap. rewrite <- (Z.mod_add t 1 (2 ^ 64)), Z.mod_small by lia.
    rewrite (proj2 (Z.ltb_ge _ _)) by lia. lia. }
  assert (- windowsToUnixEpoch < Z.quot t 100 <= -1) as Hq.
  { rewrite <- (Z.opp_involutive t), Z.quot_opp_l, Z.quot_div_nonneg by lia.
    pose proof (Z.div_le_lower_bound (- t) 100 1). pose proof (Z.div_le_upper_bound (- t) 100 (2 ^ 63 / 100 + 1)).
    change (2 ^ 63 / 100 + 1) with 92233720368547759 in *. lia. }
  unfold convertTimeToFileTime, IsZero, UnixNano. rewrite E.
  destruct (Z.eqb_spec t zeroTime); [done|]. set (q := Z.quot t 100) in *.
  assert (wrap 64 (wrap 64 q + windowsToUnixEpoch) = q + windowsToUnixEpoch) as ->.
  { unfold wrap. rewrite Z.add_mod_idemp_l by done. apply Z.mod_small. lia. }
  unfold convertFileTimeToTime. destruct (Z.eqb_spec (q + windowsToUnixEpoch) 0); [done|].
  by rewrite (proj2 (Z.ltb_lt _ _)) by lia.
Qed.


(** A FILETIME of the year 2300 becomes a time of 1715. *)
Lemma late_times_misread :
  convertFileTimeToTime (windowsToUnixEpoch + 10413792000 * 10 ^ 7) = 10413792000 * 10 ^ 9 - 2 ^ 64.
Proof. reflexivity. Qed.

(** ** Modes and attributes: properties *)

(** A mask of one bit tests it. *)
Lemma has_bit a k : 0 <= k -> negb (Z.land a (2 ^ k) =? 0) = Z.testbit a k.
Proof.
  intros Hk. destruct (Z.eqb_spec (Z.land a (2 ^ k)) 0) as [E|E]; cbn [negb].
  - symmetry. apply (f_equal (fun z => Z.testbit z k)) in E.
    by rewrite Z.land_spec, Z.pow2_bits_true, Z.bits_0, andb_true_r in E.
  - symmetry. by apply land_bit.
Qed.

(** The mode is a table of four attributes. *)
Lemma attributesToMode_bits attrs :
  attributesToMode attrs =
  (let mode := if Z.testbit attrs 4 then 0x800001ed else 0x1a4 in
   let mode := if Z.testbit attrs 0 then Z.ldiff mode 0x092 else mode in
   let mode := if Z.testbit attrs 10 then Z.lor mode ModeSymlink else mode in
   if Z.testbit attrs 6 then Z.lor mode ModeDevice else mode).
Proof.
  unfold attributesToMode. change FILE_ATTRIBUTE_DIRECTORY with (2 ^ 4). change FILE_ATTRIBUTE_READONLY with (2 ^ 0).
  change FILE_ATTRIBUTE_REPARSE_POINT with (2 ^ 10). change FILE_ATTRIBUTE_DEVICE with (2 ^ 6).
  by rewrite !has_bit.
Qed.

Lemma chmodAttributes_nonzero attrs mode : chmodAttributes attrs mode <> 0.
Proof. unfold chmodAttributes. by destruct (_ =? 0) eqn:E; [|apply Z.eqb_neq in E]. Qed.

Lemma chmodAttributes_bit attrs mode k : 0 <= k -> k <> 7 ->
  Z.testbit (chmodAttributes attrs mode) k =
  if decide (k = 0) then negb (Z.testbit mode 7) else Z.testbit attrs k.
Proof.
  intros Hk Hk7. unfold chmodAttributes. change 0x080 with (2 ^ 7). rewrite has_bit by done.
  change FILE_ATTRIBUTE_READONLY with (2 ^ 0). change FILE_ATTRIBUTE_NORMAL with (2 ^ 7).
  set (a := if Z.testbit mode 7 then _ else _).
  assert (Z.testbit a k = if decide (k = 0) then negb (Z.testbit mode 7) else Z.testbit attrs k) as E.
  { unfold a. destruct (Z.testbit mode 7), (decide (k = 0)) as [-> | Hne];
      rewrite ?Z.ldiff_spec, ?Z.lor_spec, ?Z.pow2_bits_true, ?(Z.pow2_bits_false 0 k) by lia;
      cbn [negb]; by rewrite ?andb_false_r, ?andb_true_r, ?orb_false_r, ?orb_true_r. }
  destruct (Z.eqb_spec a 0) as [Ez|]; [|done]. rewrite Ez, Z.bits_0 in E.
  by rewrite Z.pow2_bits_false by lia.
Qed.

(** After [Chmod] the file's mode has exactly the write permission asked for;
    a directory stays one, and no other attribute but NORMAL changes. *)
Theorem chmod_mode attrs mode :
  Z.land (attributesToMode (chmodAttributes attrs mode)) 0x080 = Z.land mode 0x080 /\
  (forall k, 0 < k -> k <> 7 -> Z.testbit (chmodAttributes attrs mode) k = Z.testbit attrs k) /\
  chmodAttributes attrs mode <> 0 /\
  Z.ldiff (attributesToMode (chmodAttributes attrs mode)) 0x092 = Z.ldiff (attributesToMode attrs) 0x092.
Proof.
  split_and!; [|intros k Hk H7; rewrite chmodAttributes_bit by lia; by rewrite decide_False by lia
              |apply chmodAttributes_nonzero|].
  all: rewrite !attributesToMode_bits, !chmodAttributes_bit by lia; cbn [decide].
  - rewrite <- (Z.land_diag (2 ^ 7)) at 2. change 0x080 with (2 ^ 7).
    replace (Z.land mode (Z.land (2 ^ 7) (2 ^ 7))) with (if Z.testbit mode 7 then 2 ^ 7 else 0).
    + destruct (Z.testbit attrs 4), (Z.testbit attrs 10), (Z.testbit attrs 6), (Z.testbit mode 7); vm_compute; reflexivity.
    + rewrite Z.land_diag. apply Z.bits_inj'. intros i Hi. rewrite Z.land_spec, Z.pow2_bits_eqb by lia.
      destruct (Z.testbit mode 7) eqn:E; rewrite ?Z.pow2_bits_eqb, ?Z.bits_0 by lia;
        destruct (Z.eqb_spec 7 i) as [<- | ]; rewrite ?E; by rewrite ?andb_false_r.
  - destruct (Z.testbit attrs 4), (Z.testbit attrs 10), (Z.testbit attrs 6), (Z.testbit attrs 0), (Z.testbit mode 7); vm_compute; reflexivity.
Qed.

(** The two conversions of attributes to modes agree but for the kinds of file
    the older one does not know; and back. *)
Lemma FileAttributesToUnixMode_eq attrs :
  FileAttributesToUnixMode attrs = Z.ldiff (attributesToMode attrs) (Z.lor ModeSymlink ModeDevice).
Proof.
  rewrite attributesToMode_bits. unfold FileAttributesToUnixMode.
  change FILE_ATTRIBUTE_DIRECTORY with (2 ^ 4). change FILE_ATTRIBUTE_READONLY with (2 ^ 0). rewrite !has_bit by done.
  destruct (Z.testbit attrs 4), (Z.testbit attrs 10), (Z.testbit attrs 6), (Z.testbit attrs 0); vm_compute; reflexivity.
Qed.

Lemma UnixModeToFileAttributes_mode mode :
  Mode_IsDir (FileAttributesToUnixMode (UnixModeToFileAttributes mode)) = Mode_IsDir mode /\
  Z.testbit (FileAttributesToUnixMode (UnixModeToFileAttributes mode)) 7 = Z.testbit mode 7.
Proof.
  unfold UnixModeToFileAttributes, Mode_IsDir. change 0x080 with (2 ^ 7). pose proof (has_bit mode 7) as E.
  destruct (negb (Z.land mode ModeDir =? 0)), (Z.land mode (2 ^ 7) =? 0);
    rewrite <- E by done; split; reflexivity.
Qed.

Lemma IsDir_of_mode fi : FileStat_IsDir fi = Mode_IsDir (FileStat_Mode fi).
Proof.
  unfold FileStat_IsDir, FileStat_Mode. rewrite attributesToMode_bits. change FILE_ATTRIBUTE_DIRECTORY with (2 ^ 4). rewrite has_bit by done.
  set (a := fi_FileAttributes fi).
  destruct (Z.testbit a 4), (Z.testbit a 10), (Z.testbit a 6), (Z.testbit a 0); vm_compute; reflexivity.
Qed.

(** ** Share names: properties *)

Lemma replace_slashes s : replace_byte slash_byte sep_byte s = to_backslash <$> s.
Proof. reflexivity. Qed.

(** [ToWindowsPath] is the normalization of paths. *)
Lemma ToWindowsPath_normalizes path : ToWindowsPath path = normalizePath true path.
Proof. by rewrite normalizePath_eq. Qed.

(** For an address host:port and whatever share name, [NormalizeShareName]
    gives the very path [Mount] connects to, and [Mount] refuses the name exactly
    when that path is no UNC path of a share. *)
Theorem NormalizeShareName_as_Mount name host port :
  Byte.x3a ∉ host ++ port -> open_byte ∉ host ++ port -> close_byte ∉ host ++ port ->
  let addr := host ++ Byte.x3a :: port in
  mount_path true addr name =
  (let! _ := validateMountPath (NormalizeShareName name addr) in Ok (NormalizeShareName name addr)).
Proof.
  intros H1 H2 H3 addr. unfold mount_path, NormalizeShareName, addr.
  rewrite normalizePath_eq, replace_slashes, uncServerName_host by done.
  rewrite last_index_app, take_app_length by (rewrite elem_of_app in H1; tauto).
  set (n := to_backslash <$> TrimSpace name). destruct (HasPrefix n unc_prefix) eqn:Ep.
  - apply HasPrefix_spec in Ep as [t ->]. assert (contains_byte (unc_prefix ++ t) sep_byte = true) as ->.
    { apply contains_byte_spec. by left. }
    cbn [negb]. by rewrite HasPrefix_app.
  - destruct (contains_byte n sep_byte); cbn [negb]; [by rewrite Ep|by rewrite HasPrefix_app].
Qed.

Lemma NormalizeShareName_as_Mount_witness :
  mount_path true (str "10.0.0.7:445") (str "nas/media") = Ok (str "\\nas\media").
Proof.
  etrans; [apply (NormalizeShareName_as_Mount (str "nas/media") (str "10.0.0.7") (str "445"))|]; closed.
Defined.

(** An IPv6 address keeps its brackets, and loses its last group when it has no port. *)
Lemma NormalizeShareName_v6 :
  NormalizeShareName (str "Public") (str "[fe80::1]:445") = str "\\[fe80::1]\Public" /\
  mount_path true (str "[fe80::1]:445") (str "Public") = Ok (str "\\fe80::1\Public") /\
  NormalizeShareName (str "Public") (str "fe80::1") = str "\\fe80:\Public".
Proof. split_and!; reflexivity. Qed.

(** A valid share name has none of the characters that end it elsewhere. *)
Lemma ValidateShareName_spec name :
  ValidateShareName name = Ok () <->
  name <> [] /\ len name <= 80 /\ Forall (fun b => b ∉ invalidChars) name.
Proof.
  unfold ValidateShareName. destruct (bool_decide_reflect (name = [])); [naive_solver|].
  destruct (Z.ltb_spec 80 (len name)); [split; [done|lia]|].
  assert (existsb (contains_byte name) invalidChars = true <-> ~ Forall (fun b => b ∉ invalidChars) name) as E.
  { rewrite existsb_exists. split.
    - intros (x & Hx & Hc) Hf. apply contains_byte_spec in Hc. rewrite Forall_forall in Hf.
      apply (Hf x Hc). by apply list_elem_of_In.
    - intros Hf. apply not_Forall_Exists, Exists_exists in Hf as (x & Hx & Hn); [|intros ?; apply _].
      exists x. split; [apply list_elem_of_In; by apply dec_stable|by apply contains_byte_spec]. }
  destruct (existsb _ _) eqn:Eb.
  - split; [done|]. intros (_ & _ & Hf). by destruct (proj1 E eq_refl).
  - split; [|done]. intros _. split_and!; [done|lia|].
    destruct (decide (Forall (fun b => b ∉ invalidChars) name)) as [|Hn]; [done|].
    apply (proj2 E) in Hn. congruence.
Qed.

(** ** Server time and capabilities: properties *)

(** The depth reported is the number of requests a transfer keeps in flight:
    one without pipelining, at most fifty with it, and never more than the server
    takes. *)
Theorem Capabilities_depth c :
  0 <= maxMpxCount c < 2 ^ 16 ->
  let sc := Capabilities c in
  sc_SupportsPipelining sc = (1 <? sc_MaxMpxCount sc) /\
  (sc_EffectivePipelineDepth sc, sc_SupportsPipelining sc) = PipelineDepth (maxMpxCount c) /\
  1 <= sc_EffectivePipelineDepth sc <= Z.max 1 (Z.min 50 (sc_MaxMpxCount sc)).
Proof.
  intros H. unfold Capabilities. destruct (PipelineDepth (maxMpxCount c)) as [d p] eqn:E.
  cbn [sc_SupportsPipelining sc_MaxMpxCount sc_EffectivePipelineDepth]. revert E. unfold PipelineDepth, maxPipelineDepth.
  intros E. repeat match type of E with context [if ?b then _ else _] => destruct b eqn:? end;
    injection E as <- <-; rewrite ?Z.ltb_lt, ?Z.leb_le, ?Z.ltb_ge, ?Z.leb_gt in *; split_and!; try done; try lia.
  all: symmetry; rewrite ?Z.ltb_lt, ?Z.ltb_ge; lia.
Qed.
