(* ===== verification/PublicFile.v ===== *)
(** * Open files of the public API ([file.go], [setinfo.go], [readAll] of
    [session.go])

    The [File] a caller holds: a file of the client layer, and the name it was
    opened under, which its errors carry.  Its methods are those of the client
    layer with the errors reshaped.  [copyStream] and [readAll] work over any
    reader and writer, as functions on a state that holds both. *)

From S2P Require Export Transfer Listing FileInfo.

(** [os.ErrInvalid] *)
Definition ErrInvalid : error := Errorf "invalid argument".

Record RemoteFile := mkRemoteFile { rf_f : File; rf_name : bytes }.

(** [&os.PathError{Op: op, Path: f.name, Err: wrapError(err)}] *)
Definition path_error (op : string) (name : bytes) (e : error) : error := PathError op name (wrapError e).

(** ... for an error that is not [io.EOF]. *)
Definition stream_error (op : string) (name : bytes) (err : option error) : option error :=
  match err with
  | Some e => if bool_decide (e = EOF) then Some EOF else Some (path_error op name e)
  | None => None
  end.

Section public_file.
Context {T : Type} `{Transport T} `{Ctx T} `{Pipeline T}.
Implicit Types f : RemoteFile.

(** The buffer afterwards, the count and the error. *)
Definition file_Read (c : Negotiated) (s : UserSession) f (b : bytes)
  : M T (RemoteFile * (bytes * (Z * option error))) :=
  let* (f', (b, (n, err))) := Read c s (rf_f f) b in
  ret (mkRemoteFile f' (rf_name f), (b, (n, stream_error "read" (rf_name f) err))).

(** The bytes read, and the error. *)
Definition file_ReadAt (c : Negotiated) (s : UserSession) f (size off : Z) : M T (bytes * option error) :=
  if off <? 0 then ret ([], Some (PathError "read" (rf_name f) ErrInvalid)) else
  let* (got, err) := ReadAt c s (rf_f f) size off in
  ret (got, stream_error "read" (rf_name f) err).

Definition file_Write (c : Negotiated) (s : UserSession) f (b : bytes)
  : M T (RemoteFile * (Z * option error)) :=
  let* (f', (n, err)) := Write c s (rf_f f) b in
  ret (mkRemoteFile f' (rf_name f), (n, wrapError <$> err)).

Definition file_WriteString := file_Write.

Definition file_WriteAt (c : Negotiated) (s : UserSession) f (b : bytes) (off : Z) : M T (Z * option error) :=
  if off <? 0 then ret (0, Some (PathError "write" (rf_name f) ErrInvalid)) else
  let* (n, err) := WriteAt c s (rf_f f) b off in
  match err with
  | Some e => ret (n, Some (path_error "write" (rf_name f) e))
  | None => ret (n, None)
  end.

Definition file_Seek (c : Negotiated) (s : UserSession) f (offset whence : Z)
  : M T (RemoteFile * (Z * option error)) :=
  let* (f', (newOffset, err)) := SeekContext c s (rf_f f) offset whence in
  let f := mkRemoteFile f' (rf_name f) in
  match err with
  | Some e => ret (f, (0, Some (path_error "seek" (rf_name f) e)))
  | None => ret (f, (newOffset, None))
  end.

Definition file_Close (s : UserSession) f : M T () :=
  map_err (path_error "close" (rf_name f)) (Close_file s (rf_f f)).

Definition file_Stat (c : Negotiated) (s : UserSession) f : M T FileInfo :=
  let* stat := map_err (path_error "stat" (rf_name f)) (Stat c s (rf_f f)) in
  ret (of_stat stat).

Definition file_Readdir (fuel : nat) (c : Negotiated) (s : UserSession) f (n : Z)
  : M T (RemoteFile * (list FileInfo * option error)) :=
  let* (f', (internalStats, err)) := Readdir fuel c s (rf_f f) n in
  let f := mkRemoteFile f' (rf_name f) in
  match err with
  | Some e =>
    if bool_decide (e = EOF) then ret (f, (of_stat <$> internalStats, Some EOF))
    else ret (f, ([], Some (path_error "readdir" (rf_name f) e)))
  | None => ret (f, (of_stat <$> internalStats, None))
  end.

Definition file_Readdirnames (fuel : nat) (c : Negotiated) (s : UserSession) f (n : Z)
  : M T (RemoteFile * (list bytes * option error)) :=
  let* (f, (stats, err)) := file_Readdir fuel c s f n in
  match err with
  | Some e => if bool_decide (e = EOF) then ret (f, (FileStat_Name <$> stats, Some EOF)) else ret (f, ([], Some e))
  | None => ret (f, (FileStat_Name <$> stats, None))
  end.

Definition file_Truncate (c : Negotiated) (s : UserSession) f (size : Z) : M T () :=
  if size <? 0 then fail (PathError "truncate" (rf_name f) ErrInvalid) else
  map_err (path_error "truncate" (rf_name f)) (Truncate c s (rf_f f) size).

Definition file_Chmod (c : Negotiated) (s : UserSession) f (mode : Z) : M T () :=
  let* basic := map_err (path_error "chmod" (rf_name f)) (QueryBasicInfo c s (rf_f f)) in
  map_err (path_error "chmod" (rf_name f))
    (SetAttributes c s (rf_f f) (chmodAttributes (bi_Attributes basic) mode)).

Definition file_Sync : M T () := ret ().
End public_file.

(** ** Streams

    A reader and a writer, as methods on a state: [Read] takes the buffer and
    gives it back, with the count and the error. *)
Definition copyStreamBufferSize : Z := 128 * 1024.

Section streams.
Context {S : Type} (read : bytes -> M S (bytes * (Z * option error))) (write : bytes -> M S (Z * option error)).

(** The write of a pass of the loop: the total, and the error to return. *)
Definition copy_write (buf : bytes) (nr n : Z) : M S (Z * option error) :=
  if 0 <? nr then
    let* data := lift (slice buf 0 nr) in
    let* (nw, werr) := write data in
    let n := if 0 <? nw then int64 (n + nw) else n in
    match werr with
    | Some e => ret (n, Some e)
    | None => if negb (nw =? nr) then ret (n, Some ErrShortWrite) else ret (n, None)
    end
  else ret (n, None).

(** The loop of [copyStream] runs until the reader ends, so [fuel] is an
    argument, and [Panic] when it runs out. *)
Fixpoint copy_loop (fuel : nat) (buf : bytes) (n : Z) : M S (Z * option error) :=
  match fuel with
  | O => lift Panic
  | Datatypes.S fuel =>
    let* (buf, (nr, rerr)) := read buf in
    let* (n, failed) := copy_write buf nr n in
    match failed with
    | Some e => ret (n, Some e)
    | None =>
      match rerr with
      | Some e => if bool_decide (e = EOF) then ret (n, None) else ret (n, Some e)
      | None => copy_loop fuel buf n
      end
    end
  end.
Definition copyStream (fuel : nat) (buf : bytes) : M S (Z * option error) := copy_loop fuel buf 0.

(** [readAll]: [data] is what has been read, [spare] the rest of its array.
    [append] grows an array by its own rules, [grow] (the new capacity); the new
    part is zero. *)
Context (grow : Z -> Z).

Fixpoint readAll_loop (fuel : nat) (data spare : bytes) : M S (bytes * option error) :=
  match fuel with
  | O => lift Panic
  | Datatypes.S fuel =>
    let* spare := (if len spare =? 0 then lift (make (grow (len data) - len data)) else ret spare) in
    let* (buf, (n, err)) := read spare in
    let* more := lift (slice buf 0 n) in
    let data := data ++ more in
    match err with
    | Some e => ret (data, if bool_decide (e = EOF) then None else Some e)
    | None => readAll_loop fuel data (drop (Z.to_nat n) buf)
    end
  end.

Definition readAll (fuel : nat) (sizeHint : Z) : M S (bytes * option error) :=
  let sizeHint := if sizeHint <? 0 then 0 else sizeHint in
  let* spare := lift (make (sizeHint + 1)) in
  readAll_loop fuel [] spare.
End streams.

(** ** Files as streams *)

Section file_streams.
Context {T : Type} `{Transport T} `{Ctx T} `{Pipeline T} (c : Negotiated) (s : UserSession).

(** The file in a state is the one its method leaves. *)
Definition on_file {A} (m : RemoteFile -> M T (RemoteFile * A)) : M (T * RemoteFile) A := fun st =>
  match m st.2 st.1 with
  | (Ok (f, a), t) => (Ok a, (t, f))
  | (Err e, t) => (Err e, (t, st.2))
  | (Panic, t) => (Panic, (t, st.2))
  end.

(** [f.WriteTo(w)] and [f.ReadFrom(r)]: the other end has a state of its own, and
    may use the connection too. *)
Definition own_file {S A} (m : M (T * RemoteFile) A) : M ((T * RemoteFile) * S) A := fun st =>
  match m st.1 with (r, tf) => (r, (tf, st.2)) end.

Definition file_WriteTo {S} (fuel : nat) (write : bytes -> M ((T * RemoteFile) * S) (Z * option error))
  : M ((T * RemoteFile) * S) (Z * option error) :=
  let* buf := lift (make copyStreamBufferSize) in
  copyStream (fun b => own_file (on_file (fun f => file_Read c s f b))) write fuel buf.

Definition file_ReadFrom {S} (fuel : nat) (read : bytes -> M ((T * RemoteFile) * S) (bytes * (Z * option error)))
  : M ((T * RemoteFile) * S) (Z * option error) :=
  let* buf := lift (make copyStreamBufferSize) in
  copyStream read (fun b => own_file (on_file (fun f => file_Write c s f b))) fuel buf.
End file_streams.

(** ** The contracts of readers and writers

    [rd_rest] is what a reader still has to give.  A read gives some of it, all of
    it before [io.EOF], and something when it reports no error; the other errors
    it may report are [rd_error]. *)
Class Reader {S} (read : bytes -> M S (bytes * (Z * option error))) := {
  rd_ok : S -> Prop;
  rd_rest : S -> bytes;
  rd_error : error -> Prop;
  rd_law b st : rd_ok st -> 0 < len b ->
    exists b' n err st', read b st = (Ok (b', (n, err)), st') /\ rd_ok st' /\
      0 <= n <= len b /\ n <= len (rd_rest st) /\ len b' = len b /\
      take (Z.to_nat n) b' = take (Z.to_nat n) (rd_rest st) /\
      rd_rest st' = drop (Z.to_nat n) (rd_rest st) /\
      (err = None -> 0 < n) /\ (err = Some EOF -> rd_rest st' = []) /\
      (forall e, err = Some e -> e = EOF \/ rd_error e);
}.

(** A writer takes a prefix of what it is given, if it has room for it, and all of
    it when it reports no error; and the two ends do not disturb each other. *)
Class Writer {S} (read : bytes -> M S (bytes * (Z * option error))) (write : bytes -> M S (Z * option error))
    `{!Reader read} := {
  wr_written : S -> bytes;
  wr_room : S -> Z;
  wr_error : error -> Prop;
  wr_reads b st r st' : rd_ok st -> read b st = (r, st') -> wr_written st' = wr_written st /\ wr_room st' = wr_room st;
  wr_law d st : rd_ok st -> len d <= wr_room st ->
    exists n err st', write d st = (Ok (n, err), st') /\ rd_ok st' /\ rd_rest st' = rd_rest st /\
      0 <= n <= len d /\ wr_written st' = wr_written st ++ take (Z.to_nat n) d /\
      wr_room st' = wr_room st - n /\ (err = None -> n = len d) /\ (forall e, err = Some e -> wr_error e);
}.

(** A writer of which this is known for pieces of at most [most] bytes. *)
Class LimitedWriter {S} (most : Z) (read : bytes -> M S (bytes * (Z * option error)))
    (write : bytes -> M S (Z * option error)) `{!Reader read} := {
  lw_written : S -> bytes;
  lw_room : S -> Z;
  lw_error : error -> Prop;
  lw_reads b st r st' : rd_ok st -> read b st = (r, st') -> lw_written st' = lw_written st /\ lw_room st' = lw_room st;
  lw_law d st : rd_ok st -> len d <= most -> len d <= lw_room st ->
    exists n err st', write d st = (Ok (n, err), st') /\ rd_ok st' /\ rd_rest st' = rd_rest st /\
      0 <= n <= len d /\ lw_written st' = lw_written st ++ take (Z.to_nat n) d /\
      lw_room st' = lw_room st - n /\ (err = None -> n = len d) /\ (forall e, err = Some e -> lw_error e);
}.

Definition limited {S} most (read : bytes -> M S (bytes * (Z * option error)))
    (write : bytes -> M S (Z * option error)) `{!Reader read} `{!Writer read write} : LimitedWriter most read write :=
  {| lw_written := wr_written; lw_room := wr_room; lw_error := wr_error; lw_reads := wr_reads;
     lw_law d st Hok _ Hroom := wr_law d st Hok Hroom |}.

Section stream_properties.
Context {S : Type} (read : bytes -> M S (bytes * (Z * option error))) (write : bytes -> M S (Z * option error)).
Context `{!Reader read}.

Lemma slice_of_read (b : bytes) (n : Z) : 0 <= n <= len b -> slice b 0 n = Ok (take (Z.to_nat n) b).
Proof. intros. by rewrite slice_ok, drop_0, Z.sub_0_r by lia. Qed.

Section write.
Context (most : Z) `{!LimitedWriter most read write}.

Lemma copy_write_law buf nr n st : rd_ok st -> 0 <= nr <= len buf -> nr <= most -> nr <= lw_room st -> 0 <= n -> n + nr < 2 ^ 63 ->
  exists m err st', copy_write write buf nr n st = (Ok (n + m, err), st') /\ rd_ok st' /\
    rd_rest st' = rd_rest st /\ 0 <= m <= nr /\
    lw_written st' = lw_written st ++ take (Z.to_nat m) buf /\ lw_room st' = lw_room st - m /\
    (err = None -> m = nr) /\ (forall e, err = Some e -> lw_error e).
Proof.
  intros Hok Hnr Hmost Hroom Hn Hsum. unfold copy_write. destruct (Z.ltb_spec 0 nr) as [Hpos|Hneg].
  2:{ exists 0, None, st. rewrite Z.add_0_r, app_nil_r. split_and!; try done; lia. }
  rewrite slice_of_read by done. unfold lift at 1, mbind_M at 1.
  destruct (lw_law (take (Z.to_nat nr) buf) st Hok) as (m & err & st' & E & Hok' & Hr & Hm & Hw & Hro & Hall & Herr).
  { rewrite len_take. lia. }
  { rewrite len_take. lia. }
  rewrite len_take in Hm, Hall. unfold mbind_M at 1. rewrite E.
  assert ((if 0 <? m then int64 (n + m) else n) = n + m) as ->.
  { destruct (Z.ltb_spec 0 m); [|lia]. apply int64_small. lia. }
  rewrite take_take, Nat.min_l in Hw by lia.
  destruct err as [e|].
  - exists m, (Some e), st'. split_and!; try done; lia.
  - specialize (Hall eq_refl). assert (m = nr) as -> by lia. rewrite Z.eqb_refl. cbn [negb].
    exists nr, None, st'. split_and!; try done; lia.
Qed.

Lemma copy_loop_law fuel : forall buf n st,
  rd_ok st -> 0 < len buf <= most -> 0 <= n -> n + len (rd_rest st) < 2 ^ 63 -> len (rd_rest st) <= lw_room st ->
  (length (rd_rest st) < fuel)%nat ->
  exists m err st', copy_loop read write fuel buf n st = (Ok (n + m, err), st') /\ rd_ok st' /\
    0 <= m <= len (rd_rest st) /\ lw_written st' = lw_written st ++ take (Z.to_nat m) (rd_rest st) /\
    (err = None -> m = len (rd_rest st)) /\ (forall e, err = Some e -> rd_error e \/ lw_error e).
Proof.
  induction fuel as [|fuel IH]; intros buf n st Hok Hb Hn Hsum Hroom Hfuel; [lia|]. cbn [copy_loop].
  destruct (rd_law buf st Hok (proj1 Hb)) as (b' & k & err & st1 & E & Hok1 & Hk & Hk2 & Hb' & Ht & Hr & Hprog & Heof & Herr).
  destruct (lw_reads _ _ _ _ Hok E) as [Hw1 Hro1]. unfold mbind_M at 1. rewrite E.
  destruct (copy_write_law b' k n st1) as (m & werr & st2 & E2 & Hok2 & Hr2 & Hm & Hw2 & Hro2 & Hall & Hwerr); try done; try lia.
  unfold mbind_M at 1. rewrite E2.
  assert (lw_written st2 = lw_written st ++ take (Z.to_nat m) (rd_rest st)) as Hw.
  { rewrite Hw2, Hw1. f_equal. replace (Z.to_nat m) with (Z.to_nat m `min` Z.to_nat k)%nat by lia.
    by rewrite <- take_take, Ht, take_take. }
  destruct werr as [e|].
  { exists m, (Some e), st2. split_and!; try done; try lia. intros e' [= <-]. right. by apply Hwerr. }
  specialize (Hall eq_refl) as ->. rewrite Hr in Hr2.
  assert (len (rd_rest st2) = len (rd_rest st) - k) as Hlen by (rewrite Hr2, len_drop; lia).
  destruct err as [e|].
  - destruct (bool_decide_reflect (e = EOF)) as [-> | Hne].
    + exists k, None, st2. split_and!; try done; try lia. intros _. specialize (Heof eq_refl).
      rewrite Hr in Heof. rewrite Hr2, Heof in Hlen. rewrite len_nil in Hlen. lia.
    + exists k, (Some e), st2; split_and!; try done; try lia. intros e' [= <-]. left.
      by destruct (Herr e eq_refl).
  - specialize (Hprog eq_refl).
    destruct (IH b' (n + k) st2) as (m & err & st3 & E3 & Hok3 & Hm3 & Hw3 & Hall3 & Herr3); try done; try lia.
    { rewrite Hr2, length_drop. unfold len in *. lia. }
    exists (k + m), err, st3. rewrite Z.add_assoc. split_and!; try done; try lia.
    2: by intros He; specialize (Hall3 He); lia.
    rewrite Hw3, Hw, Hr2, <- app_assoc. f_equal. rewrite Z2Nat.inj_add by lia.
    by rewrite <- take_take_drop.
Qed.

Lemma copyStream_law fuel buf st :
  rd_ok st -> 0 < len buf <= most -> len (rd_rest st) < 2 ^ 63 -> len (rd_rest st) <= lw_room st ->
  (length (rd_rest st) < fuel)%nat ->
  exists n err st', copyStream read write fuel buf st = (Ok (n, err), st') /\ rd_ok st' /\
    0 <= n <= len (rd_rest st) /\ lw_written st' = lw_written st ++ take (Z.to_nat n) (rd_rest st) /\
    (err = None -> n = len (rd_rest st)) /\ (forall e, err = Some e -> rd_error e \/ lw_error e).
Proof.
  intros Hok Hb Hlen Hroom Hfuel. unfold copyStream.
  destruct (copy_loop_law fuel buf 0 st) as (n & err & st' & E & H); try done. by exists n, err, st'.
Qed.
End write.

(** C11: [copyStream] delivers to the writer exactly the bytes its count says, in
    order and from the start, whatever pieces the reader gives and however far the
    writer gets; without an error that is all the reader had, and an error is one
    of theirs; and it ends. *)
Theorem copyStream_delivers `{!Writer read write} fuel buf st :
  rd_ok st -> 0 < len buf -> len (rd_rest st) < 2 ^ 63 -> len (rd_rest st) <= wr_room st ->
  (length (rd_rest st) < fuel)%nat ->
  exists n err st', copyStream read write fuel buf st = (Ok (n, err), st') /\ rd_ok st' /\
    0 <= n <= len (rd_rest st) /\ wr_written st' = wr_written st ++ take (Z.to_nat n) (rd_rest st) /\
    (err = None -> n = len (rd_rest st)) /\ (forall e, err = Some e -> rd_error e \/ wr_error e).
Proof.
  intros Hok Hb. apply (copyStream_law (len buf) (LimitedWriter0 := limited (len buf) read write) fuel buf st Hok). lia.
Qed.

Lemma readAll_loop_law grow fuel : (forall n, n < grow n) -> forall data spare st,
  rd_ok st -> (length (rd_rest st) < fuel)%nat ->
  exists n err st', readAll_loop read grow fuel data spare st = (Ok (data ++ take n (rd_rest st), err), st') /\
    rd_ok st' /\ rd_rest st' = drop n (rd_rest st) /\ (err = None -> rd_rest st' = []) /\
    (forall e, err = Some e -> rd_error e).
Proof.
  intros Hgrow. induction fuel as [|fuel IH]; intros data spare st Hok Hfuel; [lia|]. cbn [readAll_loop].
  assert (exists spare', (if len spare =? 0 then lift (make (grow (len data) - len data)) else ret spare) st
            = (Ok spare', st) /\ 0 < len spare') as (sp & Esp & Hsp).
  { pose proof (len_nonneg spare). specialize (Hgrow (len data)). destruct (Z.eqb_spec (len spare) 0).
    - exists (replicate (Z.to_nat (grow (len data) - len data)) Byte.x00).
      unfold lift. rewrite make_ok by lia. split; [done|]. rewrite len_replicate. lia.
    - exists spare. split; [done|lia]. }
  unfold mbind_M at 1. rewrite Esp. clear Esp.
  destruct (rd_law sp st Hok Hsp) as (b' & k & err & st1 & E & Hok1 & Hk & Hk2 & Hb' & Ht & Hr & Hprog & Heof & Herr).
  unfold mbind_M at 1. rewrite E. unfold mbind_M at 1, lift at 1. rewrite slice_of_read, Ht by lia.
  destruct err as [e|].
  - exists (Z.to_nat k), (if bool_decide (e = EOF) then None else Some e), st1. split_and!; try done.
    + destruct (bool_decide_reflect (e = EOF)) as [-> | Hne]; [|done]. intros _. by apply Heof.
    + intros e'. destruct (bool_decide_reflect (e = EOF)) as [-> | Hne]; [done|]. intros [= <-].
      by destruct (Herr e eq_refl).
  - specialize (Hprog eq_refl).
    destruct (IH (data ++ take (Z.to_nat k) (rd_rest st)) (drop (Z.to_nat k) b') st1)
      as (n & err & st2 & E2 & Hok2 & Hr2 & Hend & Herr2); [done| |].
    { rewrite Hr, length_drop. unfold len in *. lia. }
    rewrite E2. exists (Z.to_nat k + n)%nat, err, st2. rewrite Hr, drop_drop in Hr2. split_and!; try done.
    rewrite Hr, <- app_assoc. by rewrite <- take_take_drop.
Qed.

Lemma readAll_law grow fuel sizeHint st :
  (forall n, n < grow n) -> rd_ok st -> (length (rd_rest st) < fuel)%nat ->
  exists data err st', readAll read grow fuel sizeHint st = (Ok (data, err), st') /\ rd_ok st' /\
    rd_rest st = data ++ rd_rest st' /\ (err = None -> data = rd_rest st) /\
    (forall e, err = Some e -> rd_error e).
Proof.
  intros Hgrow Hok Hfuel. unfold readAll. set (hint := if sizeHint <? 0 then 0 else sizeHint).
  assert (0 <= hint) by (unfold hint; destruct (Z.ltb_spec sizeHint 0); lia).
  unfold mbind_M at 1, lift at 1. rewrite make_ok by lia.
  destruct (readAll_loop_law grow fuel Hgrow [] (replicate (Z.to_nat (hint + 1)) Byte.x00) st Hok Hfuel)
    as (n & err & st' & E & Hok' & Hr & Hend & Herr). rewrite E.
  exists (take n (rd_rest st)), err, st'. split_and!; [done..|by rewrite Hr, take_drop| |done].
  intros He. specialize (Hend He). rewrite Hr in Hend.
  by rewrite <- (take_drop n (rd_rest st)), Hend, app_nil_r, take_take, Nat.min_id.
Qed.

(** C12: [readAll] reads whatever the reader has, however short its reads are and
    however arrays grow: all of it, or a prefix and the reader's error. *)
Theorem readAll_reads_all grow fuel sizeHint st :
  (forall n, n < grow n) -> rd_ok st -> (length (rd_rest st) < fuel)%nat ->
  exists data err st', readAll read grow fuel sizeHint st = (Ok (data, err), st') /\ rd_ok st' /\
    rd_rest st = data ++ rd_rest st' /\ (err = None -> data = rd_rest st) /\
    (forall e, err = Some e -> rd_error e).
Proof. apply readAll_law. Qed.
End stream_properties.

(** ** A reader and a writer in memory

    The state is what is left to read and what has been written.  The reader gives
    two bytes at a time, and the end with the last of them; the writer takes
    everything. *)
Definition mem_read (b : bytes) : M (bytes * bytes) (bytes * (Z * option error)) := fun st =>
  let n := Z.min 2 (Z.min (len b) (len st.1)) in
  (Ok (take (Z.to_nat n) st.1 ++ drop (Z.to_nat n) b, (n, if len st.1 <=? n then Some EOF else None)),
   (drop (Z.to_nat n) st.1, st.2)).
Definition mem_write (d : bytes) : M (bytes * bytes) (Z * option error) := fun st =>
  (Ok (len d, None), (st.1, st.2 ++ d)).

Lemma mem_read_law b (st : bytes * bytes) : True -> 0 < len b ->
  exists b' n err st', mem_read b st = (Ok (b', (n, err)), st') /\ True /\
    0 <= n <= len b /\ n <= len st.1 /\ len b' = len b /\ take (Z.to_nat n) b' = take (Z.to_nat n) st.1 /\
    st'.1 = drop (Z.to_nat n) st.1 /\ (err = None -> 0 < n) /\ (err = Some EOF -> st'.1 = []) /\
    (forall e, err = Some e -> e = EOF \/ False).
Proof.
  destruct st as [rest w]. intros _ Hb. unfold mem_read. cbn [fst snd]. set (n := Z.min 2 (Z.min (len b) (len rest))).
  pose proof (len_nonneg rest). assert (0 <= n <= len rest /\ n <= len b) as [Hn Hnb] by lia.
  assert (length (take (Z.to_nat n) rest) = Z.to_nat n) as Hl by (rewrite length_take; unfold len in *; lia).
  eexists _, _, _, _. split; [reflexivity|]. cbn [fst snd]. split_and!; [done|lia|lia|lia| | |done| | |].
  - rewrite len_app, len_drop. unfold len in *. lia.
  - by rewrite take_app_length'.
  - destruct (Z.leb_spec (len rest) n); [done|]. lia.
  - destruct (Z.leb_spec (len rest) n); [|done]. intros _. apply drop_ge. unfold len in *. lia.
  - intros e. destruct (_ <=? _); [intros [= <-]; by left|done].
Qed.
#[export] Instance mem_reader : Reader mem_read :=
  {| rd_ok _ := True; rd_rest st := st.1; rd_error _ := False; rd_law := mem_read_law |}.

Lemma mem_reads b (st : bytes * bytes) r st' : True -> mem_read b st = (r, st') ->
  st'.2 = st.2 /\ 2 ^ 62 - len st'.2 = 2 ^ 62 - len st.2.
Proof. intros _ E. by injection E as _ <-. Qed.
Lemma mem_write_law d (st : bytes * bytes) : True -> len d <= 2 ^ 62 - len st.2 ->
  exists n err st', mem_write d st = (Ok (n, err), st') /\ True /\ st'.1 = st.1 /\
    0 <= n <= len d /\ st'.2 = st.2 ++ take (Z.to_nat n) d /\
    2 ^ 62 - len st'.2 = 2 ^ 62 - len st.2 - n /\ (err = None -> n = len d) /\ (forall e, err = Some e -> False).
Proof.
  intros _ _. pose proof (len_nonneg d). eexists (len d), None, _. split; [reflexivity|]. cbn [fst snd].
  split_and!; [done|done|lia|lia| |rewrite len_app; lia|done|done].
  rewrite take_ge; [done|]. unfold len. lia.
Qed.
#[export] Instance mem_writer : Writer mem_read mem_write :=
  {| wr_written st := st.2; wr_room st := 2 ^ 62 - len st.2; wr_error _ := False;
     wr_reads := mem_reads; wr_law := mem_write_law |}.

Lemma copyStream_delivers_witness :
  exists n err st', copyStream mem_read mem_write 6 (str "buf") (str "hello", []) = (Ok (n, err), st') /\ True /\
    0 <= n <= 5 /\ st'.2 = take (Z.to_nat n) (str "hello") /\ (err = None -> n = 5) /\
    (forall e, err = Some e -> False \/ False).
Proof.
  exact (copyStream_delivers mem_read mem_write 6 (str "buf") (str "hello", []) I eq_refl eq_refl
    ltac:(vm_compute; congruence) ltac:(cbn; lia)).
Defined.

Lemma readAll_reads_all_witness :
  exists data err st', readAll mem_read (fun n => n + 3) 6 1 (str "hello", []) = (Ok (data, err), st') /\ True /\
    str "hello" = data ++ st'.1 /\ (err = None -> data = str "hello") /\ (forall e, err = Some e -> False).
Proof.
  exact (readAll_reads_all mem_read (fun n => n + 3) 6 1 (str "hello", []) ltac:(intros n; cbv beta; lia) I ltac:(cbn; lia)).
Defined.
