(* ===== verification/Share.v ===== *)
(** * Shares ([session.go], [setinfo.go])

    The methods of a mounted share that are not about directory trees: opening,
    creating, removing, renaming, listing, and reading and writing whole files.
    Every one normalizes and validates its paths, talks to the server through the
    client layer, and gives errors their outward shape. *)

From S2P Require Export PublicFile Pipe.

(** ** Constants *)

Definition SYNCHRONIZE : Z := 0x00100000.
Definition DELETE : Z := 0x00010000.
Definition FILE_APPEND_DATA : Z := 0x00000004.
Definition FILE_WRITE_ATTRIBUTES : Z := 0x00000100.
Definition FILE_SHARE_DELETE : Z := 0x00000004.
Definition FILE_CREATE : Z := 0x00000002.
Definition FILE_OPEN_IF : Z := 0x00000003.
Definition FILE_OVERWRITE : Z := 0x00000004.
Definition FILE_OVERWRITE_IF : Z := 0x00000005.
Definition FILE_DIRECTORY_FILE : Z := 0x00000001.
Definition FILE_NON_DIRECTORY_FILE : Z := 0x00000040.
Definition FILE_DELETE_ON_CLOSE : Z := 0x00001000.
Definition TRANS2_QUERY_PATH_INFORMATION : Z := 0x0005.

(** The flags of package [os] (on Linux). *)
Definition O_RDONLY : Z := 0x0.
Definition O_WRONLY : Z := 0x1.
Definition O_RDWR : Z := 0x2.
Definition O_CREATE : Z := 0x40.
Definition O_EXCL : Z := 0x80.
Definition O_TRUNC : Z := 0x200.
Definition O_APPEND : Z := 0x400.

Definition maxRemoveRetries : nat := 10.
Definition maxReadFileHint : Z := 2 ^ 26.

(** A mounted share; [sh_normalize] is the package variable NORMALIZE_PATH. *)
Record Share := mkShare {
  sh_conn : Negotiated;
  sh_session : UserSession;
  sh_tree : Tree;
  sh_normalize : bool;
}.

Definition normalize (fs : Share) : bytes -> bytes := normalizePath (sh_normalize fs).

(** The result of [m], its error included. *)
Definition attempt {S A} (m : M S A) : M S (A + error) := fun s =>
  match m s with
  | (Ok a, s) => (Ok (inl a), s)
  | (Err e, s) => (Ok (inr e), s)
  | (Panic, s) => (Panic, s)
  end.

(** ** Opening *)

(** The access mask of the flags. *)
Definition open_access (flag : Z) : Z :=
  let mode := Z.land flag (Z.lor (Z.lor O_RDONLY O_WRONLY) O_RDWR) in
  let access := if mode =? O_RDONLY then Z.lor GENERIC_READ SYNCHRONIZE
                else if mode =? O_WRONLY then Z.lor GENERIC_WRITE SYNCHRONIZE
                else if mode =? O_RDWR then Z.lor (Z.lor GENERIC_READ GENERIC_WRITE) SYNCHRONIZE
                else 0 in
  let access := if negb (Z.land flag O_CREATE =? 0) then Z.lor access GENERIC_WRITE else access in
  if negb (Z.land flag O_APPEND =? 0)
  then Z.lor (Z.ldiff access GENERIC_WRITE) FILE_APPEND_DATA else access.

(** The create disposition of the flags. *)
Definition open_disposition (flag : Z) : Z :=
  let create_excl := Z.lor O_CREATE O_EXCL in
  let create_trunc := Z.lor O_CREATE O_TRUNC in
  if Z.land flag create_excl =? create_excl then FILE_CREATE
  else if Z.land flag create_trunc =? create_trunc then FILE_OVERWRITE_IF
  else if Z.land flag O_CREATE =? O_CREATE then FILE_OPEN_IF
  else if Z.land flag O_TRUNC =? O_TRUNC then FILE_OVERWRITE
  else FILE_OPEN.

(** [validateFilePath], its error in an [os.PathError]. *)
Definition validated (op : string) (name : bytes) : res () :=
  match validateFilePath name with
  | Err e => Err (PathError op name e)
  | r => r
  end.

Section share.
Context {T : Type} `{Transport T} `{Ctx T} `{Pipeline T}.
Implicit Types fs : Share.

Definition tree_open fs (name : bytes) (access sharemode createmode createOptions : Z) : M T File :=
  OpenFile (sh_conn fs) (sh_session fs) (sh_tree fs) name access sharemode createmode createOptions.

Definition share_OpenFile fs (name : bytes) (flag : Z) : M T RemoteFile :=
  let originalName := name in
  let name := normalize fs name in
  let* _ := lift (validated "open" name) in
  let sharemode := Z.lor FILE_SHARE_READ FILE_SHARE_WRITE in
  let* f := map_err (path_error "open" name)
    (tree_open fs name (open_access flag) sharemode (open_disposition flag) FILE_NON_DIRECTORY_FILE) in
  if negb (Z.land flag O_APPEND =? 0) then
    let* (f, (_, err)) := SeekContext (sh_conn fs) (sh_session fs) f 0 SeekEnd in
    match err with
    | Some e =>
      let* _ := attempt (Close_file (sh_session fs) f) in
      fail (path_error "open" name e)
    | None => ret (mkRemoteFile f originalName)
    end
  else ret (mkRemoteFile f originalName).

Definition share_Open fs (name : bytes) : M T RemoteFile := share_OpenFile fs name O_RDONLY.
Definition share_Create fs (name : bytes) : M T RemoteFile :=
  share_OpenFile fs name (Z.lor (Z.lor O_RDWR O_CREATE) O_TRUNC).

(** ** Information *)

Definition useUnicode fs : bool := negb (Z.land (GetCapabilities (sh_conn fs)) CAP_UNICODE =? 0).

(** [TRANS2_QUERY_PATH_INFORMATION] at a level, up to the decoding. *)
Definition query_path fs (name : bytes) (level : Z) : M T Trans2Response :=
  let* params := lift (EncodeQueryPathInfo name level (useUnicode fs)) in
  SendTransact2 (sh_conn fs) (sh_session fs) (sh_tree fs) TRANS2_QUERY_PATH_INFORMATION params [].

Definition share_Stat fs (name : bytes) : M T FileInfo :=
  let name := normalize fs name in
  let* _ := lift (validated "stat" name) in
  let* params := map_err (PathError "stat" name)
    (lift (EncodeQueryPathInfo name SMB_QUERY_FILE_BASIC_INFO (useUnicode fs))) in
  let* trans2Resp := map_err (fun e => mapSMBErrorToOSError e "stat" name)
    (SendTransact2 (sh_conn fs) (sh_session fs) (sh_tree fs) TRANS2_QUERY_PATH_INFORMATION params []) in
  let* basicInfo := map_err (PathError "stat" name) (lift (DecodeFileBasicInfo (t2_Data trans2Resp))) in
  let* params2 := map_err (PathError "stat" name)
    (lift (EncodeQueryPathInfo name SMB_QUERY_FILE_STANDARD_INFO (useUnicode fs))) in
  let* trans2Resp2 := map_err (path_error "stat" name)
    (SendTransact2 (sh_conn fs) (sh_session fs) (sh_tree fs) TRANS2_QUERY_PATH_INFORMATION params2 []) in
  let* standardInfo := map_err (PathError "stat" name) (lift (DecodeFileStandardInfo (t2_Data trans2Resp2))) in
  let filename := match last_index name sep_byte with
                  | Some idx => drop (S idx) name
                  | None => name
                  end in
  let attrs := if negb (si_Directory standardInfo =? 0)
               then Z.lor (bi_Attributes basicInfo) FILE_ATTRIBUTE_DIRECTORY
               else bi_Attributes basicInfo in
  ret (mkFileInfo (convertFileTimeToTime (bi_CreationTime basicInfo))
         (convertFileTimeToTime (bi_LastAccessTime basicInfo))
         (convertFileTimeToTime (bi_LastWriteTime basicInfo))
         (convertFileTimeToTime (bi_ChangeTime basicInfo)) (int64 (si_EndOfFile standardInfo))
         (int64 (si_AllocationSize standardInfo)) attrs filename).

Definition share_Lstat := share_Stat.

Definition share_Exists fs (name : bytes) : M T bool :=
  let* stat := attempt (share_Stat fs name) in
  match stat with
  | inl _ => ret true
  | inr e => if IsNotFoundError e then ret false else fail e
  end.

Definition share_IsDir fs (name : bytes) : M T bool :=
  let* stat := attempt (share_Stat fs name) in
  match stat with
  | inl stat => ret (FileStat_IsDir stat)
  | inr e => if IsNotFoundError e then ret false else fail e
  end.

(** ** Listing *)

(** How [ReadDir] reports the errors of a search. *)
Definition readdir_errors (dirname : bytes) : find_errors :=
  mkFindErrors (PathError "readdir" dirname) (fun e => mapSMBErrorToOSError e "readdir" dirname)
    (path_error "readdir" dirname) (PathError "readdir" dirname) (path_error "readdir" dirname).

Definition info_of_entry (f : FileBothDirectoryInfo) : FileInfo := of_stat (entry_stat f).

(** [directory\*], and [\*] for the root. *)
Definition readdir_pattern (dirname : bytes) : bytes :=
  if bool_decide (dirname = []) then str "\*"
  else (if HasSuffix dirname [sep_byte] then dirname else dirname ++ [sep_byte]) ++ str "*".

Definition share_ReadDir (fuel : nat) fs (dirname : bytes) : M T (list FileInfo) :=
  let dirname := normalize fs dirname in
  let dirname := if bool_decide (dirname = str ".") then [] else dirname in
  let* _ := (if bool_decide (dirname = []) then ret () else lift (validated "readdir" dirname)) in
  let* allFiles := find_all fuel (sh_conn fs) (sh_session fs) (sh_tree fs) (readdir_errors dirname)
                     (readdir_pattern dirname) in
  ret (info_of_entry <$> without_dots allFiles).

(** The entries, and the error. *)
Definition share_Readdir (fuel : nat) fs (dirname : bytes) (n : Z) : M T (list FileInfo * option error) :=
  let* entries := attempt (share_ReadDir fuel fs dirname) in
  match entries with
  | inr e => ret ([], Some e)
  | inl allEntries =>
    if n <=? 0 then ret (allEntries, None)
    else if len allEntries <=? n then
      if len allEntries =? 0 then ret ([], Some EOF) else ret (allEntries, Some EOF)
    else let* first := lift (slice allEntries 0 n) in ret (first, None)
  end.

(** ** Creating and removing *)

Definition share_Mkdir fs (name : bytes) : M T () :=
  let name := normalize fs name in
  let* _ := lift (validated "mkdir" name) in
  let* f := map_err (path_error "mkdir" name)
    (tree_open fs name FILE_WRITE_ATTRIBUTES (Z.lor FILE_SHARE_READ FILE_SHARE_WRITE) FILE_CREATE
       FILE_DIRECTORY_FILE) in
  map_err (path_error "mkdir" name) (Close_file (sh_session fs) f).

(** The delay before a retry, in milliseconds. *)
Definition retry_delay (i : nat) : Z :=
  let delay := 50 * Z.shiftl 1 (Z.of_nat i) in
  if 1000 <? delay then 1000 else delay.

(** Up to [tries] more attempts after [err]; [poll] is the context, as the wait for
    the delay finds it. *)
Fixpoint retry_loop (tries : nat) fs (name : bytes) (err : error) : M T () :=
  match tries with
  | O => fail (mapRemoveDirError err name)
  | S tries =>
    let* cancelled := poll in
    match cancelled with
    | Some e => fail (path_error "remove" name e)
    | None =>
      let* again := attempt (SendDeleteDirectory (sh_conn fs) (sh_session fs) (sh_tree fs) name) in
      match again with
      | inl _ => ret ()
      | inr err =>
        if negb (IsSharingViolation err) then fail (mapRemoveDirError err name)
        else retry_loop tries fs name err
      end
    end
  end.

Definition share_removeDir fs (name : bytes) : M T () :=
  let* removed := attempt (SendDeleteDirectory (sh_conn fs) (sh_session fs) (sh_tree fs) name) in
  match removed with
  | inl _ => ret ()
  | inr err =>
    if IsSharingViolation err then retry_loop maxRemoveRetries fs name err
    else fail (mapRemoveDirError err name)
  end.

Definition share_Remove fs (name : bytes) : M T () :=
  let name := normalize fs name in
  let* _ := lift (validated "remove" name) in
  let* stat := map_err (PathError "remove" name) (share_Stat fs name) in
  if FileStat_IsDir stat then share_removeDir fs name else
  let sharemode := Z.lor (Z.lor FILE_SHARE_READ FILE_SHARE_WRITE) FILE_SHARE_DELETE in
  let createOptions := Z.lor FILE_DELETE_ON_CLOSE FILE_NON_DIRECTORY_FILE in
  let* f := map_err (fun e => mapSMBErrorToOSError e "remove" name)
    (tree_open fs name DELETE sharemode FILE_OPEN createOptions) in
  map_err (path_error "remove" name) (Close_file (sh_session fs) f).

(** [validateFilePath] of both paths, its error in an [os.LinkError]. *)
Definition validated_link (oldpath newpath path : bytes) : res () :=
  match validateFilePath path with
  | Err e => Err (LinkError "rename" oldpath newpath e)
  | r => r
  end.

Definition share_Rename fs (oldpath newpath : bytes) : M T () :=
  let oldpath := normalize fs oldpath in
  let newpath := normalize fs newpath in
  let* _ := lift (validated_link oldpath newpath oldpath) in
  let* _ := lift (validated_link oldpath newpath newpath) in
  map_err (fun e => mapSMBErrorToLinkError e "rename" oldpath newpath)
    (SendRename (sh_conn fs) (sh_session fs) (sh_tree fs) oldpath newpath).

(** ** Attributes ([setinfo.go]) *)

Definition queryPathBasicInfo fs (name : bytes) : M T FileBasicInfo :=
  let* resp := query_path fs name SMB_QUERY_FILE_BASIC_INFO in
  lift (DecodeFileBasicInfo (t2_Data resp)).

Definition setPathBasicInfo fs (name : bytes) (info : FileBasicInfo) : M T () :=
  let* info := lift (EncodeFileBasicInfo info) in
  let* (params, data) := lift (EncodeSetPathInfo name SMB_SET_FILE_BASIC_INFO info (useUnicode fs)) in
  let* _ := SendTransact2 (sh_conn fs) (sh_session fs) (sh_tree fs) TRANS2_SET_PATH_INFORMATION params data in
  ret ().

Definition share_Chtimes fs (name : bytes) (atime mtime : Z) : M T () :=
  let name := normalize fs name in
  let* _ := lift (validated "chtimes" name) in
  let basic := mkFileBasicInfo 0 (convertTimeToFileTime atime) (convertTimeToFileTime mtime) 0 0 0 in
  map_err (fun e => mapSMBErrorToOSError e "chtimes" name) (setPathBasicInfo fs name basic).

Definition share_Chmod fs (name : bytes) (mode : Z) : M T () :=
  let name := normalize fs name in
  let* _ := lift (validated "chmod" name) in
  let* basic := map_err (fun e => mapSMBErrorToOSError e "chmod" name) (queryPathBasicInfo fs name) in
  map_err (fun e => mapSMBErrorToOSError e "chmod" name)
    (SetPathAttributes (sh_conn fs) (sh_session fs) (sh_tree fs) name
       (chmodAttributes (bi_Attributes basic) mode)).

Definition ErrUnsupported : error := Errorf "unsupported operation".
Definition share_Symlink (target linkpath : bytes) : M T () :=
  fail (LinkError "symlink" target linkpath ErrUnsupported).
Definition share_Readlink (name : bytes) : M T bytes := fail (PathError "readlink" name ErrUnsupported).

(** ** Whole files *)

Definition share_Truncate fs (name : bytes) (size : Z) : M T () :=
  if size <? 0 then fail ErrInvalid else
  let* f := share_OpenFile fs name O_WRONLY in
  let* truncated := attempt (file_Truncate (sh_conn fs) (sh_session fs) f size) in
  let* closed := attempt (file_Close (sh_session fs) f) in
  match truncated, closed with
  | inr e, _ => fail e
  | inl _, inr e => fail e
  | inl _, inl _ => ret ()
  end.

(** The size hint of [ReadFile]: the file's size if it can be had, up to a bound. *)
Definition read_hint (stat : FileInfo + error) : Z :=
  match stat with
  | inl stat => let s := FileStat_Size stat in
                if 0 <? s then (if maxReadFileHint <? s then maxReadFileHint else s) else 0
  | inr _ => 0
  end.

Definition with_file {A} (f : RemoteFile) (m : M (T * RemoteFile) A) : M T A := fun t =>
  match m (t, f) with (r, (t, _)) => (r, t) end.

Definition share_ReadFile (grow : Z -> Z) (fuel : nat) fs (filename : bytes) : M T (bytes * option error) :=
  let c := sh_conn fs in let s := sh_session fs in
  let* f := share_Open fs filename in
  defer (file_Close s f) (
    let* stat := attempt (file_Stat c s f) in
    with_file f (readAll (fun b => on_file (fun f => file_Read c s f b)) grow fuel (read_hint stat))).

Definition share_WriteFile fs (filename data : bytes) : M T () :=
  let* f := share_OpenFile fs filename (Z.lor (Z.lor O_WRONLY O_CREATE) O_TRUNC) in
  defer (file_Close (sh_session fs) f) (
    let* (_, (n, err)) := file_Write (sh_conn fs) (sh_session fs) f data in
    match err with
    | Some e => fail e
    | None => if negb (n =? len data) then fail ErrShortWrite else ret ()
    end).

(** [io.Copy(dstFile, srcFile)] is [srcFile.WriteTo(dstFile)], and both files use
    the one connection. *)
Definition write_other (c : Negotiated) (s : UserSession) (b : bytes)
  : M ((T * RemoteFile) * RemoteFile) (Z * option error) := fun st =>
  match file_Write c s st.2 b st.1.1 with
  | (Ok (dst, out), t) => (Ok out, ((t, st.1.2), dst))
  | (Err e, t) => (Err e, ((t, st.1.2), st.2))
  | (Panic, t) => (Panic, ((t, st.1.2), st.2))
  end.
Definition io_Copy (fuel : nat) (c : Negotiated) (s : UserSession) (dst src : RemoteFile)
  : M T (Z * option error) := fun t =>
  match file_WriteTo c s fuel (write_other c s) ((t, src), dst) with (r, ((t, _), _)) => (r, t) end.

Definition share_CopyFile (fuel : nat) fs (src dst : bytes) : M T () :=
  let c := sh_conn fs in let s := sh_session fs in
  let* srcFile := share_Open fs src in
  defer (file_Close s srcFile) (
    let* srcInfo := share_Stat fs src in
    if FileStat_IsDir srcInfo then fail (PathError "copy" src ErrInvalid) else
    let* dstFile := share_OpenFile fs dst (Z.lor (Z.lor O_WRONLY O_CREATE) O_TRUNC) in
    defer (file_Close s dstFile) (
      let* (_, err) := io_Copy fuel c s dstFile srcFile in
      match err with Some e => fail e | None => ret () end)).
End share.
