(* ===== verification/Trees.v ===== *)
(** * Directory trees ([session.go])

    The operations of a share that go through directories: [MkdirAll],
    [RemoveAll], [Walk] and [Glob].  They are recursions over what the server
    lists, whose depth nothing in the client bounds: [fuel] is an argument, and
    [Panic] when it runs out. *)

From stdpp Require Export sorting.
From S2P Require Export Share.

(** [for _, x := range l], an error ending it. *)
Fixpoint for_each {S A} (f : A -> M S ()) (l : list A) : M S () :=
  match l with
  | [] => ret ()
  | x :: l => let* _ := f x in for_each f l
  end.

(** The path of an entry of a directory. *)
Definition child_path (path name : bytes) : bytes :=
  if bool_decide (path = []) then name else path ++ [sep_byte] ++ name.

Section trees.
Context {T : Type} `{Transport T} `{Ctx T} `{Pipeline T}.
Implicit Types fs : Share.

(** ** [MkdirAll] *)

(** The loop over the components; [currentPath] is the directory made last. *)
Fixpoint mkdir_loop fs (parts : list bytes) (currentPath : bytes) : M T () :=
  match parts with
  | [] => ret ()
  | part :: parts =>
    if bool_decide (part = []) then mkdir_loop fs parts currentPath else
    let currentPath := if bool_decide (currentPath = []) then part
                       else currentPath ++ [sep_byte] ++ part in
    let* made := attempt (share_Mkdir fs currentPath) in
    match made with
    | inr err => if negb (IsExistError err) then fail err else mkdir_loop fs parts currentPath
    | inl _ => mkdir_loop fs parts currentPath
    end
  end.

Definition share_MkdirAll fs (path : bytes) : M T () :=
  let path := normalize fs path in
  mkdir_loop fs (split_on sep_byte path) [].

(** ** [RemoveAll] *)

(** [find_fuel] bounds the searches, [fuel] the depth. *)
Fixpoint share_RemoveAll (fuel find_fuel : nat) fs (path : bytes) : M T () :=
  match fuel with
  | O => lift Panic
  | S fuel =>
    let path := normalize fs path in
    let* exists_ := map_err (PathError "remove" path) (share_Exists fs path) in
    if negb exists_ then ret () else
    let* isDir := map_err (PathError "remove" path) (share_IsDir fs path) in
    if negb isDir then share_Remove fs path else
    let* entries := map_err (PathError "remove" path) (share_ReadDir find_fuel fs path) in
    let* _ := for_each (fun entry => share_RemoveAll fuel find_fuel fs (child_path path (FileStat_Name entry)))
                entries in
    share_Remove fs path
  end.

(** ** [Walk]

    The callback takes part in the state; its result is its error. *)
Definition SkipDir : error := Errorf "skip this directory".

Definition WalkFunc := bytes -> option FileInfo -> option error -> M T ().

Fixpoint walk (fuel find_fuel : nat) fs (path : bytes) (info : FileInfo) (walkFn : WalkFunc) : M T () :=
  match fuel with
  | O => lift Panic
  | S fuel =>
    let* visited := attempt (walkFn path (Some info) None) in
    match visited with
    | inr err => if FileStat_IsDir info && bool_decide (err = SkipDir) then ret () else fail err
    | inl _ =>
      if negb (FileStat_IsDir info) then ret () else
      let* entries := attempt (share_ReadDir find_fuel fs path) in
      match entries with
      | inr err => walkFn path (Some info) (Some err)
      | inl entries =>
        for_each (fun entry =>
          let* walked := attempt (walk fuel find_fuel fs (child_path path (FileStat_Name entry)) entry walkFn) in
          match walked with
          | inr err => if negb (FileStat_IsDir entry) || negb (bool_decide (err = SkipDir)) then fail err else ret ()
          | inl _ => ret ()
          end) entries
      end
    end
  end.

(** The synthetic entry of the root. *)
Definition root_info : FileInfo := mkFileInfo zeroTime zeroTime zeroTime zeroTime 0 0 FILE_ATTRIBUTE_DIRECTORY [].

(** [if err == filepath.SkipDir { return nil }] *)
Definition unless_skipped (m : M T ()) : M T () :=
  let* done := attempt m in
  match done with
  | inr err => if bool_decide (err = SkipDir) then ret () else fail err
  | inl _ => ret ()
  end.

Definition share_Walk (fuel find_fuel : nat) fs (root : bytes) (walkFn : WalkFunc) : M T () :=
  let root := normalize fs root in
  let root := if bool_decide (root = str ".") then [] else root in
  if bool_decide (root = []) then unless_skipped (walk fuel find_fuel fs root root_info walkFn) else
  let* info := attempt (share_Stat fs root) in
  match info with
  | inr err => unless_skipped (walkFn root None (Some err))
  | inl info => unless_skipped (walk fuel find_fuel fs root info walkFn)
  end.
End trees.

(** ** [Glob]

    [globWith] works over anything that lists files. *)
Class GlobLister (S : Type) := {
  gl_Lstat : bytes -> M S FileInfo;
  gl_Stat : bytes -> M S FileInfo;
  gl_ReadDir : bytes -> M S (list FileInfo);
}.

(** [sort.Strings]: Go compares strings byte by byte. *)
Fixpoint string_le (a b : bytes) : bool :=
  match a, b with
  | [], _ => true
  | _ :: _, [] => false
  | x :: a, y :: b => if u8 x =? u8 y then string_le a b else u8 x <? u8 y
  end.
Definition string_order (a b : bytes) : Prop := string_le a b = true.
#[export] Instance string_order_dec a b : Decision (string_order a b) := decide (string_le a b = true).
Definition sort_Strings (l : list bytes) : list bytes := merge_sort string_order l.

(** The pattern after and up to its last separator, which stays on the directory. *)
Definition splitLastSep (pattern : bytes) : bytes * bytes :=
  match last_index pattern sep_byte with
  | Some i => (take (S i) pattern, drop (S i) pattern)
  | None => ([], pattern)
  end.

Definition cleanGlobDir (dir : bytes) : bytes :=
  if bool_decide (dir = []) then str "."
  else if bool_decide (dir = [sep_byte]) then dir
  else take (length dir - 1) dir.

Definition joinGlob (dir name : bytes) : bytes :=
  if bool_decide (dir = []) then name else dir ++ [sep_byte] ++ name.

Section glob.
Context {S : Type} `{!GlobLister S} (NORMALIZE_PATH : bool).

(** The loop over the entries: the matches so far, and the error of a pattern. *)
Fixpoint glob_entries (dir pattern : bytes) (entries : list FileInfo) (matches : list bytes)
  : res (list bytes * option error) :=
  match entries with
  | [] => Ok (matches, None)
  | entry :: entries =>
    match Match NORMALIZE_PATH pattern (FileStat_Name entry) with
    | Ok ok =>
      glob_entries dir pattern entries
        (if ok then matches ++ [joinGlob dir (FileStat_Name entry)] else matches)
    | Err e => Ok (matches, Some e)
    | Panic => Panic
    end
  end.

Definition globDir (dir pattern : bytes) (matches : list bytes) : M S (list bytes * option error) :=
  let root := bool_decide (dir = str ".") in
  let* usable := (if root then ret true else
                  let* fi := attempt (gl_Stat dir) in
                  ret (match fi with inl fi => FileStat_IsDir fi | inr _ => false end)) in
  if negb usable then ret (matches, None) else
  let dir := if root then [] else dir in
  let* entries := attempt (gl_ReadDir dir) in
  match entries with
  | inr _ => ret (matches, None)
  | inl entries =>
    let* (matches, err) := lift (glob_entries dir pattern entries matches) in
    match err with
    | Some e => ret (matches, Some e)
    | None => ret (sort_Strings matches, None)
    end
  end.

(** The directories an inner pattern stands for, each with the file pattern. *)
Fixpoint glob_dirs (dirs : list bytes) (file : bytes) (matches : list bytes) : M S (list bytes * option error) :=
  match dirs with
  | [] => ret (matches, None)
  | d :: dirs =>
    let* (matches, err) := globDir d file matches in
    match err with
    | Some e => ret (matches, Some e)
    | None => glob_dirs dirs file matches
    end
  end.

(** A pattern's directory is shorter than the pattern, whose length is fuel
    enough ([glob_terminates]). *)
Fixpoint globWith (fuel : nat) (pattern : bytes) : M S (list bytes * option error) :=
  match fuel with
  | O => lift Panic
  | Datatypes.S fuel =>
    let pattern := normPattern NORMALIZE_PATH pattern in
    match Match NORMALIZE_PATH pattern [] with
    | Panic => lift Panic
    | Err e => ret ([], Some e)
    | Ok _ =>
      if negb (hasGlobMeta pattern) then
        let* fi := attempt (gl_Lstat pattern) in
        match fi with
        | inr _ => ret ([], None)
        | inl _ => ret ([pattern], None)
        end
      else
        let '(dir, file) := splitLastSep pattern in
        let dir := cleanGlobDir dir in
        if negb (hasGlobMeta dir) then globDir dir file [] else
        if bool_decide (dir = pattern) then ret ([], Some ErrBadPattern) else
        let* (dirs, err) := globWith fuel dir in
        match err with
        | Some e => ret ([], Some e)
        | None => glob_dirs dirs file []
        end
    end
  end.
End glob.

Section share_glob.
Context {T : Type} `{Transport T} `{Ctx T} `{Pipeline T}.

(** A share lists files. *)
Definition share_lister (find_fuel : nat) (fs : Share) : GlobLister T := {|
  gl_Lstat := share_Lstat fs;
  gl_Stat := share_Stat fs;
  gl_ReadDir := share_ReadDir find_fuel fs;
|}.

Definition share_Glob (find_fuel : nat) (fs : Share) (pattern : bytes) : M T (list bytes * option error) :=
  @globWith T (share_lister find_fuel fs) (sh_normalize fs) (S (length pattern)) pattern.
End share_glob.
