(* ===== verification/FileTree.v ===== *)
(** * Directory trees

    The abstract trees the operations on a share are specified with: files by
    their path, a list of names; the paths in the bytes of requests; what is in a
    directory; and when a tree is one a server can have. *)

From S2P Require Export Trees.

(** ** Trees

    Files by their path, a list of names; the root is not in it. *)
Inductive node := Dir | Reg (data : bytes).
#[export] Instance node_eq_dec : EqDecision node.
Proof. solve_decision. Defined.

Notation path := (list bytes).
Notation nodes := (gmap path node).

Definition find_node (ns : nodes) (p : path) : option node :=
  match p with [] => Some Dir | _ => ns !! p end.
Definition parent (p : path) : path := take (length p - 1) p.

(** The name of [q] in the directory [p]. *)
Definition name_in (p q : path) : option bytes :=
  match last q with
  | Some x => if decide (q = p ++ [x]) then Some x else None
  | None => None
  end.
Definition children (ns : nodes) (p : path) : list (bytes * node) :=
  omap (fun '(q, n) => (fun x => (x, n)) <$> name_in p q) (map_to_list ns).

Definition STATUS_FILE_IS_A_DIRECTORY : Z := 0xC00000BA.
Definition STATUS_NOT_A_DIRECTORY : Z := 0xC0000103.

(** Opening a file: the tree afterwards, or a status. *)
Definition open_node (ns : nodes) (p : path) (disposition : Z) (dir nondir : bool) : nodes + Z :=
  match find_node ns p with
  | Some n =>
    if disposition =? FILE_CREATE then inr STATUS_OBJECT_NAME_COLLISION else
    match n with
    | Dir => if nondir then inr STATUS_FILE_IS_A_DIRECTORY else inl ns
    | Reg _ =>
      if dir then inr STATUS_NOT_A_DIRECTORY
      else if (disposition =? FILE_OVERWRITE) || (disposition =? FILE_OVERWRITE_IF)
      then inl (<[p := Reg []]> ns) else inl ns
    end
  | None =>
    if bool_decide (find_node ns (parent p) = Some Dir) then
      if (disposition =? FILE_OPEN) || (disposition =? FILE_OVERWRITE)
      then inr STATUS_OBJECT_NAME_NOT_FOUND
      else inl (<[p := if dir then Dir else Reg []]> ns)
    else inr STATUS_OBJECT_PATH_NOT_FOUND
  end.

(** Removing a directory. *)
Definition remove_node (ns : nodes) (p : path) : nodes + Z :=
  match ns !! p with
  | None => inr STATUS_OBJECT_NAME_NOT_FOUND
  | Some (Reg _) => inr STATUS_NOT_A_DIRECTORY
  | Some Dir => if bool_decide (children ns p = []) then inl (delete p ns) else inr STATUS_DIRECTORY_NOT_EMPTY
  end.

Definition attributes_of (n : node) : Z := match n with Dir => FILE_ATTRIBUTE_DIRECTORY | Reg _ => FILE_ATTRIBUTE_ARCHIVE end.
Definition size_of (n : node) : Z := match n with Dir => 0 | Reg d => len d end.
(** What is known of a file. *)
Definition info_of (p : path) (n : node) : FileInfo :=
  mkFileInfo zeroTime zeroTime zeroTime zeroTime (size_of n) (size_of n) (attributes_of n) (default [] (last p)).

Definition node_ok (n : node) : Prop := size_of n < 2 ^ 63.


(** ** Paths

    The components of a path in a request. *)
Definition comps (name : bytes) : path := filter (fun c => c <> []) (split_on sep_byte name).

Definition path_of (p : path) : bytes := join sep_byte p.

(** Text: valid strings put together, and their size in UTF-16. *)
Lemma string_of_runes_app a b : string_of_runes (a ++ b) = string_of_runes a ++ string_of_runes b.
Proof. apply bind_app. Qed.

Lemma ValidString_app a b : ValidString a -> ValidString b -> ValidString (a ++ b).
Proof.
  intros <- <-. rewrite <- string_of_runes_app. apply string_of_runes_valid, Forall_app.
  split; apply runes_scalar.
Qed.

Lemma utf16le_size s : ValidString s -> len (utf16le s) <= 2 * len s.
Proof.
  intros <-. rewrite <- (runes_string_of_runes (runes s)) at 1 by apply runes_scalar.
  unfold utf16le. rewrite runes_string_of_runes by (rewrite runes_string_of_runes; apply runes_scalar).
  rewrite runes_string_of_runes by apply runes_scalar.
  rewrite len_units_bytes. generalize (runes_scalar s). generalize (runes s). clear s. intros rs H.
  assert (len (utf16_Encode rs) <= len (string_of_runes rs)); [|lia].
  induction H as [|r rs Hr _ IH]; [done|]. unfold utf16_Encode, string_of_runes in *. cbn [mbind list_bind].
  rewrite !len_app. apply Z.add_le_mono; [|exact IH]. unfold EncodeRune. rewrite Hr. clear IH.
  unfold scalar in Hr. repeat match goal with |- context [if ?b then _ else _] => destruct b eqn:? end;
    unfold len; cbn [length]; lia.
Qed.

(** The names both sides write the same way, and the paths: proper names of valid
    text that the normalization leaves alone, of a size a request holds. *)
Definition name_ok (x : bytes) : Prop := proper x /\ ValidString x.

Record path_ok (p : path) : Prop := {
  po_nonempty : p <> [];
  po_names : Forall name_ok p;
  po_trim : TrimSpace (path_of p) = path_of p;
  po_size : len (path_of p) <= 30000;
}.

Lemma ValidString_path_of p : Forall name_ok p -> ValidString (path_of p).
Proof.
  induction 1 as [|c p [_ Hc] _ IH]; [reflexivity|]. destruct p as [|d p]; [done|].
  change (path_of (c :: d :: p)) with (c ++ [sep_byte] ++ path_of (d :: p)).
  apply ValidString_app; [done|]. by apply ValidString_app.
Qed.

Lemma names_proper p : Forall name_ok p -> Forall proper p.
Proof. intros H. eapply Forall_impl; [exact H|]. by intros x []. Qed.

Lemma name_bytes_size u s : ValidString s -> len (name_bytes u s) <= 2 * len s + 2.
Proof.
  intros H. pose proof (utf16le_size s H). pose proof (len_nonneg s).
  unfold name_bytes. destruct u; autorewrite with len; lia.
Qed.

Lemma name_in_path x p : x ∈ p -> len x <= len (path_of p).
Proof.
  intros H. induction p as [|c p IH]; [by apply elem_of_nil in H|]. apply elem_of_cons in H as [-> |H].
  - destruct p as [|d p]; [done|]. change (path_of (c :: d :: p)) with (c ++ sep_byte :: path_of (d :: p)).
    rewrite len_app. pose proof (len_nonneg (sep_byte :: path_of (d :: p))). lia.
  - specialize (IH H). destruct p as [|d p]; [by apply elem_of_nil in H|].
    change (path_of (c :: d :: p)) with (c ++ sep_byte :: path_of (d :: p)).
    rewrite len_app, len_cons. pose proof (len_nonneg c). lia.
Qed.

Lemma split_on_no_sep c : sep_byte ∉ c -> split_on sep_byte c = [c].
Proof.
  induction c as [|b t IH]; intros H; [done|]. cbn [split_on]. rewrite IH by (intros Ht; apply H; by right).
  rewrite isb_ne; [done|]. intros ->. apply H. by left.
Qed.

Lemma split_on_app c t : sep_byte ∉ c -> split_on sep_byte (c ++ sep_byte :: t) = c :: split_on sep_byte t.
Proof.
  induction c as [|b c IH]; intros H.
  - cbn [app split_on]. pose proof (split_on_nonempty sep_byte t). destruct (split_on sep_byte t) eqn:E; [done|].
    by rewrite isb_refl.
  - cbn [app split_on]. rewrite IH by (intros Ht; apply H; by right).
    rewrite isb_ne; [done|]. intros ->. apply H. by left.
Qed.

Lemma split_on_join p : p <> [] -> Forall (fun c => sep_byte ∉ c) p -> split_on sep_byte (path_of p) = p.
Proof.
  induction p as [|c p IH]; [done|]. intros _ H. apply Forall_cons in H as [Hc Hp]. destruct p as [|d p].
  - by apply split_on_no_sep.
  - change (path_of (c :: d :: p)) with (c ++ sep_byte :: path_of (d :: p)).
    rewrite split_on_app by done. f_equal. by apply IH.
Qed.

Lemma proper_no_sep p : Forall proper p -> Forall (fun c => sep_byte ∉ c) p.
Proof. intros H. eapply Forall_impl; [exact H|]. unfold proper. naive_solver. Qed.

Lemma comps_cons_sep s : comps (sep_byte :: s) = comps s.
Proof.
  unfold comps. cbn [split_on]. pose proof (split_on_nonempty sep_byte s).
  destruct (split_on sep_byte s) as [|h r]; [done|]. by rewrite isb_refl, filter_cons_False by naive_solver.
Qed.

Lemma comps_app c t : sep_byte ∉ c -> c <> [] -> comps (c ++ sep_byte :: t) = c :: comps t.
Proof. intros H Hc. unfold comps. by rewrite split_on_app, filter_cons_True. Qed.

Lemma filter_forall {A} (P : A -> Prop) `{!forall x, Decision (P x)} l : Forall P l -> filter P l = l.
Proof. induction 1; [done|]. rewrite filter_cons_True by done. by f_equal. Qed.

Lemma comps_path_of p : Forall proper p -> comps (path_of p) = p.
Proof.
  intros H. destruct p as [|c p]; [reflexivity|]. unfold comps. rewrite split_on_join; [|done|by apply proper_no_sep].
  apply filter_forall. eapply Forall_impl; [exact H|]. by intros x [Hx _].
Qed.

Lemma comps_rooted s : comps (rooted_path s) = comps s.
Proof.
  destruct s as [|b t]; [done|]. unfold rooted_path. case_bool_decide; [done|]. apply comps_cons_sep.
Qed.

(** Joining one more name. *)
Lemma path_of_snoc p x : p <> [] -> path_of (p ++ [x]) = path_of p ++ sep_byte :: x.
Proof.
  induction p as [|c p IH]; [done|]. intros _. destruct p as [|d p]; [done|].
  change (path_of ((c :: d :: p) ++ [x])) with (c ++ sep_byte :: path_of ((d :: p) ++ [x])).
  rewrite IH by done. by rewrite app_comm_cons, app_assoc.
Qed.

Lemma child_path_of p x : Forall proper p -> child_path (path_of p) x = path_of (p ++ [x]).
Proof.
  intros H. unfold child_path. destruct p as [|c p]; [done|].
  rewrite bool_decide_false, path_of_snoc by (try done; destruct p; cbn; apply Forall_cons in H as [[Hc _] _]; by destruct c). done.
Qed.

Lemma path_of_nonempty p : p <> [] -> Forall proper p -> path_of p <> [].
Proof. destruct p as [|c p]; [done|]. intros _ [[Hc _] _]%Forall_cons. by destruct c, p. Qed.

Lemma elem_of_path_of b p : b ∈ path_of p -> b = sep_byte \/ exists c, c ∈ p /\ b ∈ c.
Proof.
  induction p as [|c p IH]; [by intros ?%elem_of_nil|]. destruct p as [|d p].
  - intros H. right. exists c. split; [by left|done].
  - change (path_of (c :: d :: p)) with (c ++ sep_byte :: path_of (d :: p)).
    rewrite elem_of_app, elem_of_cons. intros [H|[-> |H]]; [right; exists c; split; [by left|done]|by left|].
    apply IH in H as [-> |(e & He & Hb)]; [by left|right; exists e; split; [by right|done]].
Qed.

(** A byte that is not in the names and not the separator is not in the path. *)
Lemma not_in_path_of b p : b <> sep_byte -> Forall (fun c => b ∉ c) p -> b ∉ path_of p.
Proof.
  intros Hb Hp H. apply elem_of_path_of in H as [-> |(c & Hc & H)]; [done|].
  rewrite Forall_forall in Hp. by apply (Hp c).
Qed.

Lemma resolve_proper l : forall st, Forall proper l -> resolve st l = Some (rev l ++ st).
Proof.
  induction l as [|c l IH]; intros st H; [done|]. apply Forall_cons in H as [(H1 & H2 & H3 & _) Hl].
  cbn [resolve rev]. rewrite !bool_decide_false by done. cbn [orb]. rewrite IH by done.
  by rewrite <- app_assoc.
Qed.

Lemma validate_proper p : p <> [] -> Forall proper p -> validateFilePath (path_of p) = Ok ().
Proof.
  intros Hne Hp. unfold validateFilePath. pose proof (path_of_nonempty p Hne Hp).
  rewrite bool_decide_false by done.
  assert (HasPrefix (path_of p) [sep_byte] = false) as ->.
  { apply not_true_iff_false. rewrite HasPrefix_spec. intros [t E].
    destruct p as [|c p]; [done|]. apply Forall_cons in Hp as [(Hc & _ & _ & Hs & _) _].
    destruct c as [|b c]; [done|]. apply Hs. destruct p; cbn in E; injection E as -> _; by left. }
  assert (Forall (fun c => Byte.x00 ∉ c) p /\ Forall (fun c => slash_byte ∉ c) p) as [H1 H2].
  { split; (eapply Forall_impl; [exact Hp|]); unfold proper; naive_solver. }
  rewrite !(proj2 (contains_byte_false _ _)) by (apply not_in_path_of; done).
  rewrite split_on_join by (try done; by apply proper_no_sep).
  change 0 with (len (@nil bytes)) at 1. rewrite depth_loop_resolve, resolve_proper by done.
  cbn [bind]. by rewrite (proj2 (Z.ltb_ge _ _)) by apply len_nonneg.
Qed.

Lemma path_of_dot p : path_ok p -> path_of p <> str ".".
Proof.
  intros [_ H _ _] Ed. pose proof (comps_path_of p (names_proper p H)) as Hc. rewrite Ed in Hc. cbn in Hc.
  rewrite <- Hc in H. by apply Forall_cons in H as [[(_ & H & _) _] _].
Qed.

Section path_ok.
Context (fs : Share) (p : path) (Hp : path_ok p).

Lemma normalize_ok : normalize fs (path_of p) = path_of p.
Proof.
  unfold normalize. rewrite normalizePath_eq, (po_trim p Hp). destruct (sh_normalize fs); [|done].
  apply backslash_none. apply not_in_path_of; [done|]. eapply Forall_impl; [apply names_proper, (po_names p Hp)|].
  unfold proper. naive_solver.
Qed.

Lemma validated_ok op : validated op (path_of p) = Ok ().
Proof. unfold validated. by rewrite validate_proper by (apply Hp || apply names_proper, Hp). Qed.

Lemma path_ok_nonempty : path_of p <> [].
Proof. apply path_of_nonempty; [apply Hp|apply names_proper, Hp]. Qed.

Lemma comps_ok : comps (path_of p) = p.
Proof. apply comps_path_of, names_proper, Hp. Qed.

Lemma find_node_ok ns : find_node ns p = ns !! p.
Proof. destruct Hp as [Hne _ _ _]. by destruct p. Qed.
End path_ok.

(** A directory that can be listed: the root, or a path. *)
Definition dir_path (p : path) : Prop := p = [] \/ path_ok p.


(** ** What is in a directory *)

Lemma name_in_spec p q x : name_in p q = Some x <-> q = p ++ [x].
Proof.
  unfold name_in. split.
  - destruct (last q) as [y|] eqn:E; [|done]. case_decide; [|done]. by intros [= <-].
  - intros ->. rewrite last_snoc. by rewrite decide_True.
Qed.

Lemma elem_of_children ns p x n : (x, n) ∈ children ns p <-> ns !! (p ++ [x]) = Some n.
Proof.
  unfold children. rewrite list_elem_of_omap. split.
  - intros ([q m] & Hq & E). destruct (name_in p q) as [y|] eqn:Ey; [|done]. cbn in E. injection E as -> ->.
    apply name_in_spec in Ey as ->. by apply elem_of_map_to_list in Hq.
  - intros H. exists (p ++ [x], n). split; [by apply elem_of_map_to_list|]. by rewrite (proj2 (name_in_spec p _ x) eq_refl).
Qed.

Lemma children_nil ns p : children ns p = [] <-> forall x, ns !! (p ++ [x]) = None.
Proof.
  split.
  - intros E x. destruct (ns !! (p ++ [x])) as [n|] eqn:En; [|done]. apply elem_of_children in En.
    rewrite E in En. by apply elem_of_nil in En.
  - intros H. destruct (children ns p) as [|[x n] l] eqn:E; [done|].
    assert ((x, n) ∈ children ns p) as Hx by (rewrite E; by left). apply elem_of_children in Hx. by rewrite H in Hx.
Qed.

Lemma NoDup_children ns p : NoDup (children ns p).*1.
Proof.
  assert (forall l : list (path * node), NoDup l.*1 ->
    NoDup (omap (fun '(q, n) => (fun x => (x, n)) <$> name_in p q) l).*1) as H; [|apply H, NoDup_fst_map_to_list].
  induction l as [|[q n] l IH]; intros Hd; [constructor|].
  apply NoDup_cons in Hd as [Hq Hd]. specialize (IH Hd). cbn. destruct (name_in p q) as [x|] eqn:E; [|done].
  cbn. constructor; [|done]. intros Hx. apply list_elem_of_fmap in Hx as ([y m] & Ey & Hy). cbn in Ey. subst y.
  apply list_elem_of_omap in Hy as ([q' n'] & Hq' & E'). destruct (name_in p q') as [y|] eqn:Ey; [|done].
  cbn in E'. injection E' as -> ->. apply name_in_spec in E as ->, Ey as ->. apply Hq.
  by apply list_elem_of_fmap; exists (p ++ [x], m).
Qed.

Lemma children_size ns p : (length (children ns p) <= size ns)%nat.
Proof.
  rewrite <- length_map_to_list. unfold children. induction (map_to_list ns) as [|[q n] l IH]; [done|].
  cbn. destruct (name_in p q); cbn; lia.
Qed.

(** The tree a server has: every file under a directory, with proper names. *)
Record tree_ok (ns : nodes) : Prop := {
  tr_path p n : ns !! p = Some n -> path_ok p /\ node_ok n;
  tr_parent p n : ns !! p = Some n -> find_node ns (parent p) = Some Dir;
}.

(** The tree after an operation is again one a server can have. *)
Lemma tree_ok_insert ns p n : tree_ok ns -> path_ok p -> node_ok n -> find_node ns (parent p) = Some Dir ->
  match ns !! p with Some Dir => n = Dir | _ => True end -> tree_ok (<[p := n]> ns).
Proof.
  intros [H1 H2] Hp Hn Hpar Hkeep. split; intros q m; rewrite lookup_insert_Some; (intros [[<- <-]|[Hq Hm]]; [|]).
  - done.
  - by apply H1 in Hm.
  - assert (parent p <> p) as Hne.
    { intros E. pose proof (po_nonempty p Hp). apply (f_equal length) in E. unfold parent in E. rewrite length_take in E.
      destruct p; [done|]. cbn in E. lia. }
    unfold find_node in *. destruct (parent p) eqn:E; [done|]. rewrite lookup_insert_ne by congruence. done.
  - apply H2 in Hm. unfold find_node in *. destruct (parent q) eqn:E; [done|]. rewrite <- E in *.
    destruct (decide (p = parent q)) as [->|Hne]; [|by rewrite lookup_insert_ne].
    rewrite lookup_insert_eq. rewrite Hm in Hkeep. by subst.
Qed.

Lemma tree_ok_delete ns p : tree_ok ns -> children ns p = [] -> tree_ok (delete p ns).
Proof.
  intros [H1 H2] Hc. split; intros q m; rewrite lookup_delete_Some; intros [Hq Hm].
  - by apply H1 in Hm.
  - pose proof (H1 _ _ Hm) as [Hok _]. apply H2 in Hm as Hpar. unfold find_node in *.
    destruct (parent q) eqn:E; [done|]. rewrite <- E in *. rewrite lookup_delete_ne; [done|]. intros ->.
    destruct (exists_last (po_nonempty q Hok)) as (q' & x & ->). unfold parent in Hc.
    rewrite length_app in Hc. cbn in Hc. rewrite Nat.add_sub, take_app_length in Hc.
    by rewrite (proj1 (children_nil ns q') Hc x) in Hm.
Qed.

(** ** Subtrees *)

Definition subtree (ns : nodes) (p : path) : nodes := filter (fun '(q, _) => p `prefix_of` q) ns.
Definition prune (ns : nodes) (p : path) : nodes := filter (fun '(q, _) => ~ p `prefix_of` q) ns.

Lemma lookup_subtree ns p q n : subtree ns p !! q = Some n <-> ns !! q = Some n /\ p `prefix_of` q.
Proof. unfold subtree. by rewrite map_lookup_filter_Some. Qed.

Lemma lookup_prune ns p q n : prune ns p !! q = Some n <-> ns !! q = Some n /\ ~ p `prefix_of` q.
Proof. unfold prune. by rewrite map_lookup_filter_Some. Qed.

Lemma parent_snoc p x : parent (p ++ [x]) = p.
Proof. unfold parent. rewrite length_app. cbn. by rewrite Nat.add_sub, take_app_length. Qed.

Lemma prefix_snoc (p q : path) x : p `prefix_of` q ++ [x] <-> p = q ++ [x] \/ p `prefix_of` q.
Proof.
  split.
  - intros [k E]. destruct k as [|z k _] using rev_ind; [left; by rewrite app_nil_r in E|].
    right. rewrite app_assoc in E. apply app_inj_tail in E as [-> _]. by exists k.
  - intros [-> |H]; [done|by apply prefix_app_r].
Qed.

Lemma prefix_snoc_not (p : path) x : ~ p ++ [x] `prefix_of` p.
Proof. intros H%prefix_length. rewrite length_app in H. cbn in H. lia. Qed.

(** Two children of a directory have nothing in common. *)
Lemma prefix_child_inj (p q : path) x y : p ++ [x] `prefix_of` q -> p ++ [y] `prefix_of` q -> x = y.
Proof. intros [k ->] [l E]. rewrite <- !app_assoc in E. apply app_inv_head in E. by injection E. Qed.

(** The directories above a file are there. *)
Lemma above_there ns : tree_ok ns -> forall q n p, ns !! q = Some n -> p `prefix_of` q -> p <> q -> find_node ns p = Some Dir.
Proof.
  intros Hns. induction q as [|x q IH] using rev_ind; intros n p Hq Hp Hne.
  - by apply prefix_nil_inv in Hp.
  - apply prefix_snoc in Hp as [-> |Hp]; [done|]. apply (tr_parent ns Hns) in Hq. rewrite parent_snoc in Hq.
    destruct (decide (p = q)) as [-> |Hpq]; [done|]. destruct q as [|y q]; [by apply prefix_nil_inv in Hp|].
    by apply (IH Dir).
Qed.

(** A file under a directory is, or is under, a child of it. *)
Lemma below_child ns p q n : tree_ok ns -> ns !! q = Some n -> p `prefix_of` q -> p <> q ->
  exists x m, ns !! (p ++ [x]) = Some m /\ p ++ [x] `prefix_of` q.
Proof.
  intros Hns Hq [k ->] Hne. destruct k as [|x k]; [by rewrite app_nil_r in Hne|]. exists x.
  assert (p ++ [x] `prefix_of` p ++ x :: k) as Hpre by (apply prefix_app, prefix_cons, prefix_nil).
  destruct (decide (k = [])) as [-> |Hk]; [by exists n|]. exists Dir. split; [|done].
  assert (find_node ns (p ++ [x]) = Some Dir) as Ha.
  { apply (above_there ns Hns _ _ _ Hq Hpre). intros E. apply app_inv_head in E. by destruct k. }
  unfold find_node in Ha. by destruct p.
Qed.

Lemma prune_missing ns p : tree_ok ns -> path_ok p -> ns !! p = None -> prune ns p = ns.
Proof.
  intros Hns Hp Hn. apply map_eq. intros q. apply option_eq. intros n. rewrite lookup_prune.
  split; [tauto|]. intros Hq. split; [done|]. intros Hpre.
  destruct (decide (p = q)) as [<-|Hne]; [by rewrite Hn in Hq|].
  pose proof (above_there ns Hns q n p Hq Hpre Hne) as H. rewrite find_node_ok in H by done. congruence.
Qed.

Lemma prune_file ns p d : tree_ok ns -> path_ok p -> ns !! p = Some (Reg d) -> prune ns p = delete p ns.
Proof.
  intros Hns Hp Hn. apply map_eq. intros q. apply option_eq. intros n. rewrite lookup_prune, lookup_delete_Some.
  split; intros [H1 H2]; (split; [|tauto || idtac]).
  - intros ->. by apply H2.
  - done.
  - intros Hpre. pose proof (above_there ns Hns q n p H2 Hpre H1) as H. rewrite find_node_ok in H by done. congruence.
Qed.

Lemma subtree_child_size ns p x n : find_node ns p = Some n -> p <> [] ->
  (size (subtree ns (p ++ [x])) < size (subtree ns p))%nat.
Proof.
  intros Hn Hp. apply map_subset_size, map_subset_alt. split.
  - apply map_subseteq_spec. intros q m. rewrite !lookup_subtree. intros [? H]. split; [done|].
    etrans; [|done]. by apply prefix_app_r.
  - exists p. destruct p as [|y p]; [done|]. split.
    + apply eq_None_not_Some. intros [m Hm]. apply lookup_subtree in Hm as [_ Hm]. by apply prefix_snoc_not in Hm.
    + exists n. by apply lookup_subtree.
Qed.

(** Enough depth for what is under a path: the files there, and the root. *)
Definition weight (ns : nodes) (p : path) : nat := size (subtree ns p) + (if bool_decide (p = []) then 1 else 0).

Lemma weight_child ns p x n : find_node ns p = Some n -> (weight ns (p ++ [x]) < weight ns p)%nat.
Proof.
  intros Hn. unfold weight. rewrite (bool_decide_false (p ++ [x] = [])) by by destruct p.
  case_bool_decide as E; [subst p|pose proof (subtree_child_size ns p x n Hn E); lia].
  assert (size (subtree ns ([] ++ [x])) <= size (subtree ns []))%nat; [|lia].
  apply map_subseteq_size, map_subseteq_spec. intros q m. rewrite !lookup_subtree. intros [? _].
  split; [done|apply prefix_nil].
Qed.

(** ** Servers of a tree

    What the recursions of [Trees] need of a server: a tree that [Stat],
    [ReadDir], [Mkdir] and [Remove] look at and change as they should, a
    directory being listed in any order; and a place where a callback can leave
    what it was called with. *)
Class TreeServer (T : Type) `{Transport T} `{Ctx T} `{Pipeline T} (fs : Share) := {
  ts_nodes : T -> nodes;
  ts_ok : T -> Prop;
  ts_notes : T -> list (bytes * FileInfo);
  ts_note : bytes * FileInfo -> T -> T;
}.
Arguments ts_nodes {T _ _ _} fs {_} st.
Arguments ts_ok {T _ _ _} fs {_} st.
Arguments ts_notes {T _ _ _} fs {_} st.
Arguments ts_note {T _ _ _} fs {_} x st.

(** The state after an operation that makes the tree [ns], and does nothing else. *)
Record moved `{TreeServer T fs} (st : T) (ns : nodes) (st' : T) : Prop := {
  mv_ok : ts_ok fs st';
  mv_nodes : ts_nodes fs st' = ns;
  mv_notes : ts_notes fs st' = ts_notes fs st;
}.
Arguments moved {T _ _ _} fs {_} st ns st'.

Class TreeLaws (T : Type) `{TreeServer T fs} : Prop := {
  tl_tree st : ts_ok fs st -> tree_ok (ts_nodes fs st);
  tl_stat p st : ts_ok fs st -> path_ok p ->
    exists st', moved fs st (ts_nodes fs st) st' /\
    share_Stat fs (path_of p) st =
      (match ts_nodes fs st !! p with
       | Some n => Ok (info_of p n)
       | None => Err (PathError "stat" (path_of p) ErrNotExist)
       end, st');
  tl_readdir p st fuel : ts_ok fs st -> dir_path p -> find_node (ts_nodes fs st) p = Some Dir ->
    (size (ts_nodes fs st) + 2 <= fuel)%nat ->
    exists l st', moved fs st (ts_nodes fs st) st' /\ l ≡ₚ children (ts_nodes fs st) p /\
    share_ReadDir fuel fs (path_of p) st = (Ok ((fun '(x, n) => info_of [x] n) <$> l), st');
  tl_mkdir p st : ts_ok fs st -> path_ok p ->
    match open_node (ts_nodes fs st) p FILE_CREATE true false with
    | inl ns => exists st', moved fs st ns st' /\ share_Mkdir fs (path_of p) st = (Ok (), st')
    | inr status => exists e st', moved fs st (ts_nodes fs st) st' /\
        IsExistError e = (status =? STATUS_OBJECT_NAME_COLLISION) /\
        share_Mkdir fs (path_of p) st = (Err e, st')
    end;
  tl_remove p n st : ts_ok fs st -> path_ok p -> ts_nodes fs st !! p = Some n ->
    (n = Dir -> children (ts_nodes fs st) p = []) ->
    exists st', moved fs st (delete p (ts_nodes fs st)) st' /\ share_Remove fs (path_of p) st = (Ok (), st');
  tl_note x st : ts_ok fs st ->
    ts_ok fs (ts_note fs x st) /\ ts_nodes fs (ts_note fs x st) = ts_nodes fs st /\
    ts_notes fs (ts_note fs x st) = ts_notes fs st ++ [x];
}.

(** ** Deciding that a concrete tree is one *)

#[export] Instance name_ok_dec x : Decision (name_ok x).
Proof. unfold name_ok, proper, ValidString. apply _. Defined.
#[export] Instance path_ok_dec p : Decision (path_ok p).
Proof.
  refine (cast_if (decide (p <> [] /\ Forall name_ok p /\ TrimSpace (path_of p) = path_of p /\ len (path_of p) <= 30000)));
    abstract (first [split; tauto | intros []; tauto]).
Defined.
#[export] Instance node_ok_dec n : Decision (node_ok n) := decide (size_of n < 2 ^ 63).

Lemma tree_ok_list (l : list (path * node)) :
  Forall (fun '(p, n) => path_ok p /\ node_ok n /\ find_node (list_to_map l) (parent p) = Some Dir) l ->
  tree_ok (list_to_map l).
Proof.
  intros H. rewrite Forall_forall in H. split; intros p n Hn%elem_of_list_to_map_2; apply H in Hn; tauto.
Qed.
