(* ===== verification/ShareServer.v ===== *)
(** * A server of a directory tree

    The reference the operations on a share are compared with: a tree of
    directories and files, and a server that answers the requests of the client
    out of it ([share_server]).  The server reads the requests in the bytes it
    receives: the paths, the dispositions, the search patterns; and replies in
    bytes.  The lemmas say what each operation of [Share] and of the files
    opened on it comes to, as operations on the tree. *)

From S2P Require Export FileTree.

(** ** The server *)

(** An open handle: its path, and whether closing it removes the file. *)
Record handle := mkHandle { ha_path : path; ha_delete : bool }.

Record share_server := mkShareServer {
  sv_nodes : nodes;
  sv_open : gmap Z handle;
  sv_search : dir_server;                 (* the search in progress *)
  sv_serves : Z -> Z -> Z;                (* how much of a transfer it takes *)
  sv_eof : bool;                          (* how it says that a file ends *)
  sv_unicode : bool;
  sv_notes : list (bytes * FileInfo);     (* what a caller's callback noted down *)
  sv_chan : nat;                          (* the next channel a transfer makes *)
  sv_replies : gmap nat response;         (* sent, and not received yet, by channel *)
}.

Definition with_nodes (ns : nodes) (st : share_server) : share_server :=
  mkShareServer ns (sv_open st) (sv_search st) (sv_serves st) (sv_eof st) (sv_unicode st) (sv_notes st)
    (sv_chan st) (sv_replies st).
Definition with_open (o : gmap Z handle) (st : share_server) : share_server :=
  mkShareServer (sv_nodes st) o (sv_search st) (sv_serves st) (sv_eof st) (sv_unicode st) (sv_notes st)
    (sv_chan st) (sv_replies st).
Definition with_search (d : dir_server) (st : share_server) : share_server :=
  mkShareServer (sv_nodes st) (sv_open st) d (sv_serves st) (sv_eof st) (sv_unicode st) (sv_notes st)
    (sv_chan st) (sv_replies st).
Definition with_notes (l : list (bytes * FileInfo)) (st : share_server) : share_server :=
  mkShareServer (sv_nodes st) (sv_open st) (sv_search st) (sv_serves st) (sv_eof st) (sv_unicode st) l
    (sv_chan st) (sv_replies st).
Definition with_pipe (ch : nat) (m : gmap nat response) (st : share_server) : share_server :=
  mkShareServer (sv_nodes st) (sv_open st) (sv_search st) (sv_serves st) (sv_eof st) (sv_unicode st) (sv_notes st) ch m.

(** The handles there are, and the first that is free. *)
Definition fids : list Z := [1; 2; 3; 4].
Definition free_fid (o : gmap Z handle) : option Z := head (filter (fun i => o !! i = None) fids).

Definition basic_of (n : node) : FileBasicInfo := mkFileBasicInfo 0 0 0 0 (attributes_of n) 0.
Definition standard_of (n : node) : FileStandardInfo :=
  mkFileStandardInfo (size_of n) (size_of n) 1 0 (match n with Dir => 1 | Reg _ => 0 end) 0.
Definition entry_of (x : bytes) (n : node) : FileBothDirectoryInfo :=
  mkFileBoth 0 0 0 0 0 0 (size_of n) (size_of n) (attributes_of n) (len (utf16le x)) 0 0 0
    (replicate 24 Byte.x00) x.

(** A listing, with the dot entries, in replies of one entry each. *)
Definition listing_of (ns : nodes) (p : path) : list FileBothDirectoryInfo :=
  entry_of (str ".") Dir :: entry_of (str "..") Dir :: ((fun '(x, n) => entry_of x n) <$> children ns p).
Definition search_of (unicode : bool) (pattern : bytes) (l : list FileBothDirectoryInfo) : dir_server :=
  mkDirServer pattern unicode 5 ((fun e => ([e], entry_bytes e)) <$> l) 0 [].

(** The open file a transfer names, as the file server of [File.v]. *)
Definition file_view (fid : Z) (data : bytes) (st : share_server) : file_server :=
  mkFileServer data (sv_serves st) (sv_eof st) fid [].

Definition file_create_reply (fid : Z) : response :=
  response_of (reply_of SMB_COM_NT_CREATE_ANDX 0 0 0)
    ([byte_of 0xFF; byte_of 0] ++ le_put 2 0 ++ [byte_of 0] ++ le_put 2 fid ++ replicate 61 Byte.x00) [].

(** NT_CREATE_ANDX *)
Definition serve_create (params data : bytes) (st : share_server) : res response * share_server :=
  let ask := let! disposition := u32 params 35 39 in
             let! options := u32 params 39 43 in
             let! b := (if sv_unicode st then slice data 1 (len data) else Ok data) in
             let! name := read_name (sv_unicode st) b in
             Ok (disposition, options, name) in
  match ask with
  | Ok (disposition, options, name) =>
    let p := comps name in
    match open_node (sv_nodes st) p disposition (Z.testbit options 0) (Z.testbit options 6), free_fid (sv_open st) with
    | inl ns, Some fid =>
      (Ok (file_create_reply fid),
       with_open (<[fid := mkHandle p (Z.testbit options 12)]> (sv_open st)) (with_nodes ns st))
    | inl _, None => (Ok (status_reply SMB_COM_NT_CREATE_ANDX STATUS_TOO_MANY_SESSIONS), st)
    | inr status, _ => (Ok (status_reply SMB_COM_NT_CREATE_ANDX status), st)
    end
  | Err e => (Err e, st)
  | Panic => (Panic, st)
  end.

(** CLOSE *)
Definition serve_close (params : bytes) (st : share_server) : res response * share_server :=
  match u16 params 0 2 with
  | Ok fid =>
    match sv_open st !! fid with
    | None => (Ok (status_reply SMB_COM_CLOSE STATUS_INVALID_HANDLE), st)
    | Some h =>
      (Ok (response_of (reply_of SMB_COM_CLOSE 0 0 0) [] []),
       with_open (delete fid (sv_open st))
         (if ha_delete h then with_nodes (delete (ha_path h) (sv_nodes st)) st else st))
    end
  | Err e => (Err e, st)
  | Panic => (Panic, st)
  end.

(** DELETE_DIRECTORY *)
Definition serve_rmdir (data : bytes) (st : share_server) : res response * share_server :=
  match (let! b := slice data 1 (len data) in read_name (sv_unicode st) b) with
  | Ok name =>
    match remove_node (sv_nodes st) (comps name) with
    | inl ns => (Ok (response_of (reply_of SMB_COM_DELETE_DIRECTORY 0 0 0) [] []), with_nodes ns st)
    | inr status => (Ok (status_reply SMB_COM_DELETE_DIRECTORY status), st)
    end
  | Err e => (Err e, st)
  | Panic => (Panic, st)
  end.

(** READ_ANDX and WRITE_ANDX *)
Definition serve_transfer (h : Header) (params data : bytes) (st : share_server) : res response * share_server :=
  match u16 params 4 6 with
  | Ok fid =>
    match sv_open st !! fid with
    | Some ha =>
      match find_node (sv_nodes st) (ha_path ha) with
      | Some (Reg d) =>
        match serve h params data (file_view fid d st) with
        | (r, srv) => (r, with_nodes (<[ha_path ha := Reg (content srv)]> (sv_nodes st)) st)
        end
      | _ => (Ok (status_reply (Command h) STATUS_INVALID_HANDLE), st)
      end
    | None => (Ok (status_reply (Command h) STATUS_INVALID_HANDLE), st)
    end
  | Err e => (Err e, st)
  | Panic => (Panic, st)
  end.

(** TRANS2: information by path and by handle, and searches. *)
Definition node_info (level : Z) (n : node) : res (response * Trans2Response) :=
  let! data := (if level =? SMB_QUERY_FILE_BASIC_INFO then EncodeFileBasicInfo (basic_of n)
                else EncodeFileStandardInfo (standard_of n)) in
  Ok (response_of ok_header [] [], trans2_reply [] data).

Definition serve_query (p : bytes) (st : share_server) : res (response * Trans2Response) :=
  let! level := u16 p 0 2 in
  let! b := slice p 6 (len p) in
  let! name := read_name (sv_unicode st) b in
  match find_node (sv_nodes st) (comps name) with
  | None => Err (NtStatus STATUS_OBJECT_NAME_NOT_FOUND)
  | Some n => node_info level n
  end.

Definition serve_query_file (p : bytes) (st : share_server) : res (response * Trans2Response) :=
  let! fid := u16 p 0 2 in
  let! level := u16 p 2 4 in
  match sv_open st !! fid with
  | None => Err (NtStatus STATUS_INVALID_HANDLE)
  | Some h =>
    match find_node (sv_nodes st) (ha_path h) with
    | None => Err (NtStatus STATUS_OBJECT_NAME_NOT_FOUND)
    | Some n => node_info level n
    end
  end.

(** The directory a search pattern names: all but its last component, the star. *)
Definition pattern_dir (pattern : bytes) : path := parent (comps pattern).

Definition serve_trans2 (allParams dataBytes : bytes) (st : share_server)
  : res (response * Trans2Response) * share_server :=
  match read_trans2 allParams dataBytes with
  | Ok (sub, p) =>
    if sub =? TRANS2_QUERY_PATH_INFORMATION then (serve_query p st, st)
    else if sub =? TRANS2_QUERY_FILE_INFORMATION then (serve_query_file p st, st)
    else if sub =? TRANS2_FIND_FIRST2 then
      match (let! b := slice p 12 (len p) in read_name (sv_unicode st) b) with
      | Ok pattern =>
        let dir := pattern_dir pattern in
        if bool_decide (find_node (sv_nodes st) dir = Some Dir) then
          let '(r, d) := serve_search allParams dataBytes
                           (search_of (sv_unicode st) pattern (listing_of (sv_nodes st) dir)) in
          (r, with_search d st)
        else (Err (NtStatus STATUS_OBJECT_PATH_NOT_FOUND), st)
      | Err e => (Err e, st)
      | Panic => (Panic, st)
      end
    else if sub =? TRANS2_FIND_NEXT2 then
      let '(r, d) := serve_search allParams dataBytes (sv_search st) in (r, with_search d st)
    else (Err (NtStatus STATUS_NOT_SUPPORTED), st)
  | Err e => (Err e, st)
  | Panic => (Panic, st)
  end.

Definition both (out : res response * share_server) : res (response * option error) * share_server :=
  match out with
  | (Ok r, st) => (Ok (r, r_err r), st)
  | (Err e, st) => (Err e, st)
  | (Panic, st) => (Panic, st)
  end.

#[export] Instance share_server_transport : Transport share_server := {
  t_sendRecv h params data st :=
    both (if Command h =? SMB_COM_NT_CREATE_ANDX then serve_create params data st
          else if Command h =? SMB_COM_CLOSE then serve_close params st
          else if Command h =? SMB_COM_DELETE_DIRECTORY then serve_rmdir data st
          else (Ok (status_reply (Command h) STATUS_NOT_SUPPORTED), st));
  t_sendRecvSettled h params data st := both (serve_transfer h params data st);
  t_sendRecvTransaction h params data st := serve_trans2 params data st;
}.
#[export] Instance share_server_ctx : Ctx share_server := { ctx_poll st := (None, st) }.

(** A client that pipelines: the server handles each request when it comes, and
    its reply waits until the client takes it from the channel.  When no reply is
    waiting the channels made so far are of no use to anyone, and their names are
    given again. *)
Definition received (ch : nat) (st : share_server) : share_server :=
  let m := delete ch (sv_replies st) in
  with_pipe (if bool_decide (m = ∅) then 0 else sv_chan st)%nat m st.
Definition take_reply {A} (ch : nat) (st : share_server) : picked A * share_server :=
  match sv_replies st !! ch with
  | Some r => (PickReply (Some r), received ch st)
  | None => (PickDone (Some conn_ErrConnectionClosed), st)
  end.

#[export] Instance share_server_pipeline : Pipeline share_server := {
  pl_make st := (sv_chan st, with_pipe (S (sv_chan st)) (sv_replies st) st);
  pl_send ch h params data st :=
    match serve_transfer h params data st with
    | (Ok r, st) => (Ok (Z.of_nat ch), with_pipe (sv_chan st) (<[ch := r]> (sv_replies st)) st)
    | (Err e, st) => (Err e, st)
    | (Panic, st) => (Panic, st)
    end;
  pl_wait ch st := take_reply ch st;
  pl_settle ch st := take_reply ch st;
  pl_delete _ st := st;
  pl_abandon _ _ st := st;
}.

(** ** Information: properties *)

Section served.
Context (fs : Share).
Let c := sh_conn fs.
Let s := sh_session fs.
Let t := sh_tree fs.

(** A TRANS2 request comes to what the server makes of its parameters. *)
Lemma transact2_on (te : Tree) sub params r (st st' : share_server) :
  0 <= sub < 2 ^ 16 -> 70 + len params <= 2 ^ 16 ->
  (forall p q, read_trans2 p q = Ok (sub, params) ->
     serve_trans2 p q st = (match r with
                            | inl r => Ok (response_of ok_header [] [], r)
                            | inr e => Err e
                            end, st')) ->
  SendTransact2 c s te sub params [] st = (match r with inl r => Ok r | inr e => Err e end, st').
Proof.
  intros Hsub Hp Hserve.
  destruct (read_trans2_request sub params [] (transactionMaxDataCount c TransactionMaxParameterCount))
    as (p & q & E1 & E2); [done|change (len (@nil byte)) with 0; lia|].
  unfold SendTransact2, mbind_M at 1, lift. rewrite E1. unfold transaction_reply, mbind_M.
  change (t_sendRecvTransaction ?h ?a ?b st) with (serve_trans2 a b st). rewrite (Hserve _ _ E2).
  by destruct r.
Qed.

Lemma transact2_served sub params r (st st' : share_server) :
  0 <= sub < 2 ^ 16 -> 70 + len params <= 2 ^ 16 ->
  (forall p q, read_trans2 p q = Ok (sub, params) ->
     serve_trans2 p q st = (match r with
                            | inl r => Ok (response_of ok_header [] [], r)
                            | inr e => Err e
                            end, st')) ->
  SendTransact2 c s t sub params [] st = (match r with inl r => Ok r | inr e => Err e end, st').
Proof. apply transact2_on. Qed.

Lemma path_parameters_fields level u name :
  0 <= level < 2 ^ 16 -> (u = true -> ValidString name) ->
  u16 (path_parameters level u name) 0 2 = Ok level /\
  (let! b := slice (path_parameters level u name) 6 (len (path_parameters level u name)) in read_name u b) = Ok name /\
  len (path_parameters level u name) = 6 + len (name_bytes u name).
Proof.
  intros Hl Hv. unfold path_parameters. split_and!.
  - wire_read. by rewrite wrap_small.
  - wire_read. rewrite slice_whole by offsets. by apply read_name_bytes.
  - autorewrite with len. lia.
Qed.

Lemma basic_info_roundtrip b : FileBasicInfo_wf b ->
  exists d, EncodeFileBasicInfo b = Ok d /\ DecodeFileBasicInfo d = Ok b.
Proof.
  intros Hb. destruct (file_information_roundtrip b (mkFileStandardInfo 0 0 0 0 0 0)) as (E & _ & _);
    [done|by repeat split; vm_compute|].
  destruct (EncodeFileBasicInfo b) as [d|e|]; [|done..]. exists d. split; [done|]. cbn [bind] in E.
  unfold DecodeQueryPathInfoResponse in E. rewrite Z.eqb_refl in E.
  destruct (DecodeFileBasicInfo d); [|done..]. by injection E as ->.
Qed.

Lemma standard_info_roundtrip i : FileStandardInfo_wf i ->
  exists d, EncodeFileStandardInfo i = Ok d /\ DecodeFileStandardInfo d = Ok i.
Proof.
  intros Hi. destruct (file_information_roundtrip (mkFileBasicInfo 0 0 0 0 0 0) i) as (_ & _ & E);
    [repeat split; repeat constructor; vm_compute; done|done|].
  destruct (EncodeFileStandardInfo i) as [d|e|]; [|done..]. exists d. split; [done|]. cbn [bind] in E.
  unfold DecodeQueryPathInfoResponse in E.
  change (SMB_QUERY_FILE_STANDARD_INFO =? SMB_QUERY_FILE_BASIC_INFO) with false in E. rewrite Z.eqb_refl in E.
  destruct (DecodeFileStandardInfo d); [|done..]. by injection E as ->.
Qed.

Lemma basic_of_wf n : FileBasicInfo_wf (basic_of n).
Proof. destruct n; repeat split; repeat constructor; vm_compute; done. Qed.
Lemma standard_of_wf n : node_ok n -> FileStandardInfo_wf (standard_of n).
Proof.
  unfold node_ok. destruct n as [|d]; cbn [size_of]; intros; [repeat split; vm_compute; done|].
  pose proof (len_nonneg d). repeat split; cbn; lia.
Qed.

(** What a query of a file gives, at the two levels the client asks for. *)
Lemma node_info_decodes level n : node_ok n ->
  exists r, node_info level n = Ok (response_of ok_header [] [], r) /\
    if level =? SMB_QUERY_FILE_BASIC_INFO then DecodeFileBasicInfo (t2_Data r) = Ok (basic_of n)
    else DecodeFileStandardInfo (t2_Data r) = Ok (standard_of n).
Proof.
  intros Hn. unfold node_info.
  destruct (basic_info_roundtrip (basic_of n) (basic_of_wf n)) as (d1 & D1 & D2).
  destruct (standard_info_roundtrip (standard_of n) (standard_of_wf n Hn)) as (d2 & D3 & D4).
  destruct (level =? SMB_QUERY_FILE_BASIC_INFO).
  - exists (trans2_reply [] d1). by rewrite D1.
  - exists (trans2_reply [] d2). by rewrite D3.
Qed.

(** A query of information by path. *)
Lemma query_served p level (st : share_server) :
  path_ok p -> sv_unicode st = useUnicode fs -> 0 <= level < 2 ^ 16 ->
  (forall n, sv_nodes st !! p = Some n -> node_ok n) ->
  exists params, EncodeQueryPathInfo (path_of p) level (useUnicode fs) = Ok params /\
    match sv_nodes st !! p with
    | None => SendTransact2 c s t TRANS2_QUERY_PATH_INFORMATION params [] st =
              (Err (NtStatus STATUS_OBJECT_NAME_NOT_FOUND), st)
    | Some n => exists r, SendTransact2 c s t TRANS2_QUERY_PATH_INFORMATION params [] st = (Ok r, st) /\
        if level =? SMB_QUERY_FILE_BASIC_INFO then DecodeFileBasicInfo (t2_Data r) = Ok (basic_of n)
        else DecodeFileStandardInfo (t2_Data r) = Ok (standard_of n)
    end.
Proof.
  intros Hp Hu Hl Hn. exists (path_parameters level (useUnicode fs) (path_of p)).
  split; [by apply EncodeQueryPathInfo_eq, path_ok_nonempty|].
  destruct (path_parameters_fields level (useUnicode fs) (path_of p)) as (E1 & E2 & E3);
    [done|intros _; apply ValidString_path_of, Hp|].
  pose proof (po_size p Hp) as Hsize.
  pose proof (name_bytes_size (useUnicode fs) (path_of p) ltac:(apply ValidString_path_of, Hp)) as Hsize2.
  assert (forall a b, read_trans2 a b = Ok (TRANS2_QUERY_PATH_INFORMATION, path_parameters level (useUnicode fs) (path_of p)) ->
    serve_trans2 a b st = (serve_query (path_parameters level (useUnicode fs) (path_of p)) st, st)) as Hserve.
  { intros a b E. unfold serve_trans2. by rewrite E, Z.eqb_refl. }
  assert (0 <= TRANS2_QUERY_PATH_INFORMATION < 2 ^ 16) as Hsub by done.
  unfold serve_query in Hserve. rewrite E1, Hu in Hserve. cbn [bind] in Hserve.
  destruct (slice _ 6 _) as [b'|e|]; [|done..]. cbn [bind] in E2, Hserve. rewrite E2 in Hserve. cbn [bind] in Hserve.
  rewrite (comps_ok p Hp), (find_node_ok p Hp) in Hserve.
  destruct (sv_nodes st !! p) as [n|] eqn:En.
  - destruct (node_info_decodes level n (Hn n eq_refl)) as (r & D1 & D2). exists r. split; [|done].
    rewrite D1 in Hserve. apply (transact2_served _ _ (inl r)); [done|lia|done].
  - apply (transact2_served _ _ (inr (NtStatus STATUS_OBJECT_NAME_NOT_FOUND))); [done|lia|done].
Qed.

Lemma last_index_path_of p : p <> [] -> Forall proper p ->
  match last_index (path_of p) sep_byte with
  | Some idx => drop (S idx) (path_of p)
  | None => path_of p
  end = default [] (last p).
Proof.
  intros Hne Hp. destruct (exists_last Hne) as (q & x & ->). rewrite last_snoc. cbn [default].
  apply Forall_app in Hp as [Hq Hx]. apply Forall_cons in Hx as [(_ & _ & _ & Hx & _) _].
  destruct q as [|y q].
  - cbn. by rewrite (proj2 (last_index_None x sep_byte) Hx).
  - rewrite path_of_snoc, last_index_app by done.
    change (?a ++ sep_byte :: x) with (a ++ [sep_byte] ++ x). rewrite app_assoc, drop_app_length'; [done|].
    rewrite length_app. cbn. lia.
Qed.

(** [Stat] on a share says of every file what the server has, and of a path
    that is not there that it does not exist. *)
Lemma Stat_served p (st : share_server) :
  path_ok p -> sv_unicode st = useUnicode fs -> (forall n, sv_nodes st !! p = Some n -> node_ok n) ->
  share_Stat fs (path_of p) st =
  (match sv_nodes st !! p with
   | Some n => Ok (info_of p n)
   | None => Err (PathError "stat" (path_of p) ErrNotExist)
   end, st).
Proof.
  intros Hp Hu Hn. unfold share_Stat. rewrite normalize_ok, validated_ok by done.
  unfold mbind_M at 1, lift at 1.
  destruct (query_served p SMB_QUERY_FILE_BASIC_INFO st Hp Hu ltac:(done) Hn) as (q1 & E1 & H1).
  destruct (query_served p SMB_QUERY_FILE_STANDARD_INFO st Hp Hu ltac:(done) Hn) as (q2 & E2 & H2).
  rewrite E1. unfold mbind_M at 1, map_err at 1, lift at 1. unfold mbind_M at 1, map_err at 1. fold c s t.
  destruct (sv_nodes st !! p) as [n|] eqn:En; [|rewrite H1; reflexivity].
  destruct H1 as (r1 & -> & D1). destruct H2 as (r2 & F2 & D2).
  change (SMB_QUERY_FILE_BASIC_INFO =? SMB_QUERY_FILE_BASIC_INFO) with true in D1.
  change (SMB_QUERY_FILE_STANDARD_INFO =? SMB_QUERY_FILE_BASIC_INFO) with false in D2. cbv iota in D1, D2.
  unfold mbind_M at 1, map_err at 1, lift at 1. rewrite D1.
  unfold mbind_M at 1, map_err at 1, lift at 1. rewrite E2. unfold mbind_M at 1, map_err at 1. rewrite F2.
  unfold mbind_M at 1, map_err at 1, lift at 1. rewrite D2.
  rewrite last_index_path_of by (apply Hp || apply names_proper, Hp). specialize (Hn n eq_refl). unfold ret, info_of.
  assert (0 <= size_of n) by (destruct n; cbn; [lia|apply len_nonneg]).
  cbn [bi_CreationTime bi_LastAccessTime bi_LastWriteTime bi_ChangeTime bi_Attributes basic_of
    si_EndOfFile si_AllocationSize standard_of]. rewrite int64_small by (split; [assumption|exact Hn]). by destruct n.
Qed.
End served.

(** ** Listings: properties *)

Lemma entry_of_wf x n : ValidString x -> last x <> Some Byte.x00 -> len x <= 30000 -> node_ok n ->
  entry_wf (entry_of x n).
Proof.
  intros Hx Hl Hs Hn. pose proof (utf16le_size x Hx). pose proof (len_nonneg (utf16le x)). unfold node_ok in Hn.
  assert (0 <= size_of n) by (destruct n; cbn; [lia|apply len_nonneg]).
  constructor; cbn [entry_of fb_NextEntryOffset fb_FileIndex fb_CreationTime fb_LastAccessTime fb_LastWriteTime
    fb_ChangeTime fb_EndOfFile fb_AllocationSize fb_FileAttributes fb_FileNameLength fb_FileName fb_EaSize
    fb_ShortNameLength fb_Reserved fb_ShortName]; try lia; try done.
  - repeat constructor; lia.
  - destruct n; vm_compute; split; congruence.
Qed.

Lemma proper_last x : proper x -> last x <> Some Byte.x00.
Proof. intros (_ & _ & _ & _ & _ & H) E. apply H. by eapply last_Some_elem_of. Qed.

Lemma listing_of_wf ns p : tree_ok ns ->
  Forall (fun e => entry_wf e /\ fb_NextEntryOffset e = 0) (listing_of ns p).
Proof.
  intros [Hns _]. assert (node_ok Dir) by (vm_compute; done).
  constructor; [split; [apply entry_of_wf; vm_compute; done|done]|].
  constructor; [split; [apply entry_of_wf; vm_compute; done|done]|].
  apply Forall_fmap, Forall_forall. intros [x n] Hx. apply elem_of_children in Hx.
  destruct (Hns _ _ Hx) as [[_ Hnames _ Hsize] Hn].
  assert (len x <= 30000). { etrans; [apply (name_in_path x (p ++ [x]))|done]. apply elem_of_app. right. by left. }
  apply Forall_app in Hnames as [_ [[Hp Hv] _]%Forall_cons]. cbn. split; [|done]. apply entry_of_wf; [done|by apply proper_last|done|done].
Qed.

(** The searches of the directory server are those of the tree's. *)
Section searching.
Context (fs : Share) (pattern : bytes) (Hpat : pattern <> []) (Hv : ValidString pattern) (Hsize : len pattern <= 30002).
Let c := sh_conn fs.
Let s := sh_session fs.
Let t := sh_tree fs.

Lemma serve_search_ctx p q d : ds_ctx (serve_search p q d).2 = ds_ctx d.
Proof.
  unfold serve_search. destruct (bind _ _) as [[[sub name] sid]|e|]; [|done..].
  destruct (ds_batches d) as [|[es b] rest]; [done|]. destruct (negb _); [done|].
  destruct (sub =? _); [done|]. by destruct (_ && _).
Qed.

(** Computations on the tree's server in step with computations on its search. *)
Definition in_step {A} (m1 : M share_server A) (m2 : M dir_server A) (st0 : share_server) (d : dir_server)
    (st : share_server) : Prop :=
  m1 st = (let '(r, d) := m2 d in (r, with_search d st0)).

Lemma in_step_bind {A B} (m1 : M share_server A) m2 (k1 : A -> M share_server B) k2 st0 d st :
  in_step m1 m2 st0 d st ->
  (forall a d', m2 d = (Ok a, d') -> in_step (k1 a) (k2 a) st0 d' (with_search d' st0)) ->
  in_step (mbind_M m1 k1) (mbind_M m2 k2) st0 d st.
Proof.
  unfold in_step, mbind_M. intros -> Hk. destruct (m2 d) as [[a|e|] d'] eqn:E; [|done..]. by apply Hk.
Qed.

Lemma in_step_lift {A} (r : res A) st0 d : in_step (lift r) (lift r) st0 d (with_search d st0).
Proof. done. Qed.

Lemma in_step_map_err {A} f (m1 : M share_server A) m2 st0 d st :
  in_step m1 m2 st0 d st -> in_step (map_err f m1) (map_err f m2) st0 d st.
Proof. unfold in_step, map_err. intros ->. by destruct (m2 d) as [[a|e|] d']. Qed.

(** A search request on the tree's server, whose search is [d]. *)
Lemma reply_in_step h p q d st :
  serve_trans2 p q st = (let '(r, d) := serve_search p q d in (r, with_search d st)) ->
  in_step (transaction_reply h p q) (transaction_reply h p q) st d st /\
  ds_ctx (transaction_reply h p q d).2 = ds_ctx d.
Proof.
  intros Hserve. pose proof (serve_search_ctx p q d) as Hctx. unfold in_step, transaction_reply, mbind_M.
  change (t_sendRecvTransaction h p q st) with (serve_trans2 p q st). rewrite Hserve. clear Hserve.
  change (t_sendRecvTransaction h p q d) with (serve_search p q d).
  destruct (serve_search p q d) as [[[r r2]|e|] d']; cbn [snd] in *; [|split; [reflexivity|exact Hctx]..].
  destruct (r_err r) as [e|]; [|split; [reflexivity|exact Hctx]].
  destruct (reply_header r) as [h'|e'|]; cbv [lift]; [|split; [reflexivity|exact Hctx]..].
  destruct (IsError h'); split; [reflexivity|exact Hctx|reflexivity|exact Hctx].
Qed.

Lemma search_on_server sub params d st : 70 + len params <= 2 ^ 16 -> 0 <= sub < 2 ^ 16 ->
  (forall p q, read_trans2 p q = Ok (sub, params) ->
     serve_trans2 p q st = (let '(r, d) := serve_search p q d in (r, with_search d st))) ->
  in_step (SendTransact2 c s t sub params []) (SendTransact2 c s t sub params []) st d st /\
  ds_ctx (SendTransact2 c s t sub params [] d).2 = ds_ctx d.
Proof.
  intros Hlen Hsub Hserve.
  destruct (read_trans2_request sub params [] (transactionMaxDataCount c TransactionMaxParameterCount))
    as (p & q & E1 & E2); [done|change (len (@nil byte)) with 0; lia|].
  destruct (reply_in_step (tree_header SMB_COM_TRANSACTION2 s t) p q d st (Hserve _ _ E2)) as [H1 H2].
  unfold in_step, SendTransact2, mbind_M, lift. rewrite E1. split; [exact H1|exact H2].
Qed.

Lemma find_next_loop_on_server on fuel : forall sid e n all d st, ds_ctx d = [] ->
  in_step (find_next_loop fuel c s t on pattern sid e n all) (find_next_loop fuel c s t on pattern sid e n all)
    st d (with_search d st).
Proof.
  induction fuel as [|fuel IH]; intros sid e n all d st Hd; cbn [find_next_loop].
  { by destruct (_ && _). }
  destruct (_ && _); [|done]. apply in_step_bind.
  { unfold in_step, poll. cbn [ctx_poll share_server_ctx dir_context]. rewrite Hd. cbn [hd tl]. rewrite <- Hd. by destruct d. }
  intros o d0 E0. unfold poll in E0. cbn [ctx_poll dir_context] in E0. rewrite Hd in E0. cbn [hd tl] in E0.
  assert (mkDirServer (ds_pattern d) (ds_unicode d) (ds_sid d) (ds_batches d) (ds_requests d) [] = d) as Ed
    by (rewrite <- Hd; by destruct d).
  rewrite Ed in E0. injection E0 as <- <-.
  rewrite EncodeFindNext2_eq. cbn [fn_SID fn_SearchCount fn_InformationLevel fn_ResumeKey fn_Flags fn_UseUnicode
    fn_FileName find_next_request]. set (params := le_put 2 sid ++ _).
  pose proof (name_bytes_size (negb (Z.land (GetCapabilities c) CAP_UNICODE =? 0)) pattern Hv) as Hn.
  assert (70 + len params <= 2 ^ 16) as Hlen by (subst params; autorewrite with len; lia).
  destruct (search_on_server TRANS2_FIND_NEXT2 params d (with_search d st) Hlen ltac:(done)) as [E Hctx].
  { intros p q Er. unfold serve_trans2. by rewrite Er. }
  apply in_step_bind; [done|]. intros params' d' [= <- <-].
  apply in_step_bind; [by apply in_step_map_err|]. intros r d' Er.
  assert (ds_ctx d' = []) as Hd'.
  { unfold map_err in Er. rewrite <- Hctx in Hd. destruct (SendTransact2 c s t TRANS2_FIND_NEXT2 params [] d) as [[?|?|] d2];
      by injection Er as _ <-. }
  apply in_step_bind; [by apply in_step_map_err|]. intros nx d2 Enx.
  assert (d2 = d') as -> by (unfold map_err, lift in Enx; destruct (DecodeFindNext2Response _ _ _); by injection Enx).
  by apply IH.
Qed.

Lemma find_all_on_server on fuel st :
  sv_unicode st = useUnicode fs -> find_node (sv_nodes st) (pattern_dir pattern) = Some Dir ->
  in_step (find_all fuel c s t on pattern) (find_all fuel c s t on pattern) st
    (search_of (useUnicode fs) pattern (listing_of (sv_nodes st) (pattern_dir pattern))) st.
Proof.
  intros Hu Hdir. set (d := search_of _ _ _). unfold find_all. rewrite EncodeFindFirst2_eq by done.
  cbn [ff_SearchAttributes ff_SearchCount ff_Flags ff_InformationLevel ff_SearchStorageType ff_FileName ff_UseUnicode
    find_first_request]. set (params := le_put 2 _ ++ _).
  pose proof (name_bytes_size (negb (Z.land (GetCapabilities c) CAP_UNICODE =? 0)) pattern Hv) as Hn.
  assert (70 + len params <= 2 ^ 16) as Hlen by (subst params; autorewrite with len; lia).
  destruct (search_on_server TRANS2_FIND_FIRST2 params d st Hlen ltac:(done)) as [E Hctx].
  { intros p q Er. unfold serve_trans2. rewrite Er.
    change (TRANS2_FIND_FIRST2 =? TRANS2_QUERY_PATH_INFORMATION) with false. rewrite Z.eqb_refl. cbv iota.
    subst params. wire_read. rewrite slice_whole by offsets. cbn [bind].
    change (negb (Z.land (GetCapabilities c) CAP_UNICODE =? 0)) with (useUnicode fs).
    rewrite Hu, read_name_bytes by done. by rewrite bool_decide_true. }
  unfold in_step. change (mbind_M (map_err (fe_encode on) (lift (Ok params))) ?k) with (k params).
  change (in_step (mbind_M (map_err (fe_first on) (SendTransact2 c s t TRANS2_FIND_FIRST2 params []))
    (fun resp => let* found := map_err (fe_decode on) (lift (DecodeFindFirst2Response (t2_Parameters resp) (t2_Data resp)
       SMB_FIND_FILE_BOTH_DIRECTORY_INFO)) in
       find_next_loop fuel c s t on pattern (fr_SID found) (fr_EndOfSearch found) (fr_SearchCount found) (fr_Files found)))
   (mbind_M (map_err (fe_first on) (SendTransact2 c s t TRANS2_FIND_FIRST2 params []))
    (fun resp => let* found := map_err (fe_decode on) (lift (DecodeFindFirst2Response (t2_Parameters resp) (t2_Data resp)
       SMB_FIND_FILE_BOTH_DIRECTORY_INFO)) in
       find_next_loop fuel c s t on pattern (fr_SID found) (fr_EndOfSearch found) (fr_SearchCount found) (fr_Files found)))
   st d st).
  apply in_step_bind; [by apply in_step_map_err|]. intros r d' Er.
  assert (ds_ctx d' = []) as Hd'.
  { unfold map_err in Er. change (ds_ctx d) with (@nil (option error)) in Hctx.
    destruct (SendTransact2 c s t TRANS2_FIND_FIRST2 params [] d) as [[?|?|] d2]; by injection Er as _ <-. }
  apply in_step_bind; [by apply in_step_map_err|]. intros fr d2 Efr.
  assert (d2 = d') as -> by (unfold map_err, lift in Efr; destruct (DecodeFindFirst2Response _ _ _); by injection Efr).
  by apply find_next_loop_on_server.
Qed.
End searching.

Section listing_served.
Context (fs : Share).
Let c := sh_conn fs.
Let s := sh_session fs.
Let t := sh_tree fs.

Lemma readdir_pattern_ok p : dir_path p ->
  exists pattern, readdir_pattern (path_of p) = pattern /\ pattern <> [] /\ ValidString pattern /\
    len pattern <= 30002 /\ pattern_dir pattern = p.
Proof.
  intros [-> |Hp]; eexists; (split; [reflexivity|]).
  { split_and!; [done|reflexivity|vm_compute; discriminate|reflexivity]. }
  unfold readdir_pattern. rewrite bool_decide_false by apply path_ok_nonempty, Hp.
  assert (HasSuffix (path_of p) [sep_byte] = false) as ->.
  { apply bool_decide_eq_false. intros [k Hk]. destruct Hp as [Hne Hnames _ _].
    assert (comps (path_of p) = p) as Hc by by apply comps_path_of, names_proper.
    destruct (exists_last Hne) as (q & x & ->). apply Forall_app in Hnames as [Hq [[(Hx & _ & _ & Hsep & _) _] _]%Forall_cons].
    assert (exists k', x = k' ++ [sep_byte]) as [k' ->].
    { destruct q as [|y q]; [by exists k|]. rewrite path_of_snoc in Hk by done.
      destruct (exists_last Hx) as (x' & b & ->). rewrite app_comm_cons, app_assoc in Hk.
      apply app_inj_tail in Hk as [_ ->]. by exists x'. }
    apply Hsep, elem_of_app. right. by left. }
  rewrite <- app_assoc. change ([sep_byte] ++ str "*") with (sep_byte :: str "*").
  rewrite <- path_of_snoc by apply Hp.
  assert (Forall name_ok (p ++ [str "*"])) as Hn.
  { apply Forall_app. split; [apply Hp|]. constructor; [|constructor]. split; [|reflexivity].
    unfold proper. split_and!; try discriminate; apply (bool_decide_unpack _); vm_compute; exact I. }
  split_and!.
  - apply path_of_nonempty; [by destruct p|by apply names_proper].
  - by apply ValidString_path_of.
  - rewrite path_of_snoc, len_app, len_cons by apply Hp. pose proof (po_size p Hp). change (len (str "*")) with 1. lia.
  - unfold pattern_dir, parent. rewrite comps_path_of by by apply names_proper.
    rewrite length_app. cbn [length]. rewrite Nat.add_sub. by rewrite take_app_length.
Qed.

Lemma info_of_entry_of x n : node_ok n -> info_of_entry (entry_of x n) = info_of [x] n.
Proof.
  intros Hn. unfold node_ok in Hn. unfold info_of_entry, of_stat, entry_stat, info_of, entry_of.
  cbn [fs_CreationTime fs_LastAccessTime fs_LastWriteTime fs_ChangeTime fs_EndOfFile fs_AllocationSize fs_FileAttributes
    fs_FileName fb_CreationTime fb_LastAccessTime fb_LastWriteTime fb_ChangeTime fb_EndOfFile fb_AllocationSize
    fb_FileAttributes fb_FileName].
  assert (0 <= size_of n) by (destruct n; cbn; [lia|apply len_nonneg]).
  rewrite int64_small by (split; assumption). reflexivity.
Qed.

Lemma listing_batches (l : list FileBothDirectoryInfo) :
  ((fun e => ([e], entry_bytes e)) <$> l) ≫= fst = l.
Proof. induction l as [|e l IH]; [done|]. rewrite fmap_cons, bind_cons, IH. done. Qed.

Lemma without_dots_listing ns p : tree_ok ns ->
  without_dots (listing_of ns p) = (fun '(x, n) => entry_of x n) <$> children ns p.
Proof.
  intros Hns. unfold without_dots, listing_of.
  rewrite !filter_cons_False by (intros H; apply H; unfold dots; rewrite !elem_of_cons; cbn; tauto).
  apply filter_forall, Forall_fmap, Forall_forall. intros [x n] Hx. apply elem_of_children in Hx. cbn.
  destruct (tr_path ns Hns _ _ Hx) as [[_ Hn _ _] _]. apply Forall_app in Hn as [_ [[(_ & H1 & H2 & _) _] _]%Forall_cons].
  unfold dots. rewrite !elem_of_cons, elem_of_nil. tauto.
Qed.

(** [ReadDir] on a share lists exactly the files of the directory, with what the
    server says of them. *)
Lemma ReadDir_served p (st : share_server) fuel :
  dir_path p -> tree_ok (sv_nodes st) -> sv_unicode st = useUnicode fs ->
  find_node (sv_nodes st) p = Some Dir -> (size (sv_nodes st) + 2 <= fuel)%nat ->
  exists d, share_ReadDir fuel fs (path_of p) st =
    (Ok ((fun '(x, n) => info_of [x] n) <$> children (sv_nodes st) p), with_search d st).
Proof.
  intros Hp Hns Hu Hdir Hfuel. destruct (readdir_pattern_ok p Hp) as (pattern & E & Hne & Hv & Hsize & Hpd).
  assert (normalize fs (path_of p) = path_of p) as En by (destruct Hp as [-> |Hp]; [by unfold normalize; rewrite normalizePath_eq; destruct (sh_normalize fs)|by apply normalize_ok]).
  assert (path_of p <> str ".") as Hdot.
  { destruct Hp as [-> |Hp]; [done|by apply path_of_dot]. }
  unfold share_ReadDir. rewrite En, (bool_decide_false (_ = str ".")) by done.
  assert ((if bool_decide (path_of p = []) then ret () else lift (validated "readdir" (path_of p))) st = (Ok (), st)) as Ev.
  { destruct Hp as [-> |Hp]; [done|]. rewrite bool_decide_false by by apply path_ok_nonempty.
    unfold lift. by rewrite validated_ok. }
  unfold mbind_M at 1. rewrite Ev. rewrite E. unfold mbind_M.
  pose proof (find_all_on_server fs pattern Hne Hv Hsize (readdir_errors (path_of p)) fuel st Hu) as Hstep.
  rewrite Hpd in Hstep. specialize (Hstep Hdir). unfold in_step in Hstep. rewrite Hstep. clear Hstep.
  destruct (find_all_served (sh_conn fs) (sh_session fs) (sh_tree fs) (readdir_errors (path_of p)) pattern fuel
    (search_of (useUnicode fs) pattern (listing_of (sv_nodes st) p))) as (d & Ed & _).
  - constructor; cbn [ds_pattern ds_unicode ds_sid search_of]; try done.
    pose proof (name_bytes_size (useUnicode fs) pattern Hv). lia.
  - done.
  - apply Forall_fmap. eapply Forall_impl; [by apply listing_of_wf|]. intros e [He H0]. split; [|done].
    apply listing_last; [done|]. by left.
  - constructor.
  - cbn [ds_batches search_of]. rewrite length_fmap. cbn [listing_of length]. rewrite length_fmap.
    pose proof (children_size (sv_nodes st) p). lia.
  - rewrite Ed. exists d. unfold ret. do 2 f_equal. cbn [ds_batches search_of]. rewrite listing_batches.
    rewrite without_dots_listing by done. rewrite <- list_fmap_compose. apply list_fmap_ext.
    intros i [x n] Hx. cbn. apply info_of_entry_of.
    apply list_elem_of_lookup_2, elem_of_children in Hx. by eapply tr_path in Hx as [_ Hx].
Qed.
End listing_served.

(** ** Opening, closing, removing: properties *)

Lemma free_fid_Some o fid : free_fid o = Some fid -> fid ∈ fids /\ o !! fid = None.
Proof.
  unfold free_fid. intros H. apply head_Some_elem_of in H. apply list_elem_of_filter in H. tauto.
Qed.

(** Facts about the four handles, one by one. *)
Ltac each_fid H :=
  unfold fids in H; rewrite !elem_of_cons, elem_of_nil in H; destruct H as [-> |[-> |[-> |[-> |[]]]]].

Lemma create_reply_fid fid : fid ∈ fids ->
  exists r, DecodeNTCreateResponse (r_params (file_create_reply fid)) (r_data (file_create_reply fid)) = Ok r /\ nr_FID r = fid.
Proof. intros H. each_fid H; (eexists; split; [vm_compute; reflexivity|reflexivity]). Qed.

Definition refusals : list Z :=
  [STATUS_OBJECT_NAME_COLLISION; STATUS_FILE_IS_A_DIRECTORY; STATUS_NOT_A_DIRECTORY; STATUS_OBJECT_NAME_NOT_FOUND;
   STATUS_OBJECT_PATH_NOT_FOUND; STATUS_DIRECTORY_NOT_EMPTY].

Lemma status_reply_err command status : status ∈ refusals -> r_err (status_reply command status) = Some (NtStatus status).
Proof.
  unfold refusals. rewrite !elem_of_cons, elem_of_nil.
  intros [-> |[-> |[-> |[-> |[-> |[-> |[]]]]]]]; reflexivity.
Qed.

Lemma open_node_refusal ns p disposition dir nondir status :
  open_node ns p disposition dir nondir = inr status -> status ∈ refusals.
Proof.
  unfold open_node, refusals. rewrite !elem_of_cons.
  repeat case_match; intros E; inversion E; subst; tauto.
Qed.

Lemma remove_node_refusal ns p status : remove_node ns p = inr status -> status ∈ refusals.
Proof.
  unfold remove_node, refusals. rewrite !elem_of_cons. repeat case_match; intros E; inversion E; subst; tauto.
Qed.

Section opening.
Context (fs : Share).
Let c := sh_conn fs.
Let s := sh_session fs.
Let t := sh_tree fs.

Lemma create_params_fields r :
  0 <= nc_CreateDisposition r < 2 ^ 32 -> 0 <= nc_CreateOptions r < 2 ^ 32 ->
  u32 (create_params r) 35 39 = Ok (nc_CreateDisposition r) /\ u32 (create_params r) 39 43 = Ok (nc_CreateOptions r).
Proof. intros. unfold create_params. split; wire_read; by rewrite wrap_small. Qed.

Lemma tree_open_served p access sharemode disposition options (st : share_server) fid :
  path_ok p -> sv_unicode st = useUnicode fs -> 0 <= disposition < 2 ^ 32 -> 0 <= options < 2 ^ 32 ->
  free_fid (sv_open st) = Some fid ->
  tree_open fs (path_of p) access sharemode disposition options st =
  match open_node (sv_nodes st) p disposition (Z.testbit options 0) (Z.testbit options 6) with
  | inl ns => (Ok (mkFile (te_TID t) fid (path_of p) 0),
               with_open (<[fid := mkHandle p (Z.testbit options 12)]> (sv_open st)) (with_nodes ns st))
  | inr status => (Err (Wrapf "smb1: nt create failed" (NtStatus status)), st)
  end.
Proof.
  intros Hp Hu Hd Ho Hf. unfold tree_open, OpenFile.
  set (req := open_request (sh_conn fs) (path_of p) access sharemode disposition options).
  destruct (create_params_fields req) as [E1 E2]; [done|done|].
  rewrite EncodeNTCreateRequest_eq by by apply path_ok_nonempty.
  unfold mbind_M at 1, wrap_err at 1, lift at 1. unfold mbind_M at 1, wrap_err at 1.
  set (h := tree_header SMB_COM_NT_CREATE_ANDX (sh_session fs) (sh_tree fs)).
  set (data := (if nc_UseUnicode req then _ else _) ++ _).
  assert ((let! b := (if sv_unicode st then slice data 1 (len data) else Ok data) in read_name (sv_unicode st) b)
    = Ok (path_of p)) as E3.
  { change (nc_UseUnicode req) with (use_unicode (sh_conn fs)) in data. change (useUnicode fs) with (use_unicode (sh_conn fs)) in Hu.
    rewrite Hu. subst data. pose proof (ValidString_path_of p (po_names p Hp)).
    destruct (use_unicode (sh_conn fs)); [|by apply read_name_bytes].
    change [Byte.x00] with (le_put 1 0). wire_read. rewrite slice_whole by offsets. by apply read_name_bytes. }
  assert (serve_create (create_params req) data st = match open_node (sv_nodes st) p disposition (Z.testbit options 0) (Z.testbit options 6) with
    | inl ns => (Ok (file_create_reply fid), with_open (<[fid := mkHandle p (Z.testbit options 12)]> (sv_open st)) (with_nodes ns st))
    | inr status => (Ok (status_reply SMB_COM_NT_CREATE_ANDX status), st) end) as Hserve.
  { unfold serve_create. rewrite E1, E2. cbn [bind].
    destruct (if sv_unicode st then _ else _) as [b|e|]; [|done..]. cbn [bind] in *. rewrite E3. cbn [bind].
    rewrite comps_ok by done. rewrite Hf. reflexivity. }
  assert (exchange h (create_params req) data st = match open_node (sv_nodes st) p disposition (Z.testbit options 0) (Z.testbit options 6) with
    | inl ns => (Ok (file_create_reply fid), with_open (<[fid := mkHandle p (Z.testbit options 12)]> (sv_open st)) (with_nodes ns st))
    | inr status => (Err (NtStatus status), st) end) as ->.
  { unfold exchange, mbind_M at 1, sendRecv_both. cbn [t_sendRecv share_server_transport].
    change (Command h =? SMB_COM_NT_CREATE_ANDX) with true. cbv iota. rewrite Hserve. clear Hserve.
    destruct (open_node _ _ _ _ _) as [ns|status] eqn:Eo; [reflexivity|].
    cbn [both]. by rewrite status_reply_err by by eapply open_node_refusal. }
  destruct (open_node _ _ _ _ _) as [ns|status]; [|reflexivity].
  change (check_reply (file_create_reply fid)) with (@ret share_server _ ()).
  unfold mbind_M at 1, wrap_err at 1, ret at 1. unfold mbind_M at 1, wrap_err at 1, lift at 1.
  destruct (create_reply_fid fid) as (r & -> & Er); [by apply free_fid_Some in Hf as [? _]|].
  unfold ret. by rewrite Er.
Qed.

Lemma Close_served f (st : share_server) h :
  f_fid f ∈ fids -> sv_open st !! f_fid f = Some h ->
  Close_file s f st =
  (Ok (), with_open (delete (f_fid f) (sv_open st))
            (if ha_delete h then with_nodes (delete (ha_path h) (sv_nodes st)) st else st)).
Proof.
  intros Hf Ho. unfold Close_file.
  assert (exists params, EncodeCloseRequest (Some (mkCloseRequest (f_fid f) 0)) = Ok (params, []) /\ u16 params 0 2 = Ok (f_fid f))
    as (params & E1 & E2).
  { revert Hf. generalize (f_fid f). intros i Hi. each_fid Hi; (eexists; split; vm_compute; reflexivity). }
  unfold mbind_M at 1, wrap_err at 1, lift at 1. rewrite E1. unfold mbind_M at 1, wrap_err at 1.
  unfold exchange, mbind_M at 1, sendRecv_both. cbn [t_sendRecv share_server_transport].
  change (Command (file_header SMB_COM_CLOSE s f) =? SMB_COM_NT_CREATE_ANDX) with false.
  change (Command (file_header SMB_COM_CLOSE s f) =? SMB_COM_CLOSE) with true. cbv iota.
  unfold serve_close. rewrite E2, Ho. reflexivity.
Qed.

(** [delete] after [insert] of a free handle. *)
Lemma close_opened fid h (o : gmap Z handle) : o !! fid = None -> delete fid (<[fid := h]> o) = o.
Proof. intros H. by rewrite delete_insert_id. Qed.

Lemma removeDir_sent p (st : share_server) :
  path_ok p -> sv_unicode st = useUnicode fs ->
  SendDeleteDirectory c s t (path_of p) st =
  match remove_node (sv_nodes st) p with
  | inl ns => (Ok (), with_nodes ns st)
  | inr status => (Err (NtStatus status), st)
  end.
Proof.
  intros Hp Hu. unfold SendDeleteDirectory. rewrite EncodeDeleteDirectoryRequest_eq by by apply path_ok_nonempty.
  cbn [dd_UseUnicode dd_DirectoryName]. unfold mbind_M at 1, lift at 1. unfold mbind_M at 1.
  set (h := tree_header SMB_COM_DELETE_DIRECTORY s t).
  set (data := [Byte.x04] ++ _).
  assert (rooted_path (path_of p) = path_of p \/ rooted_path (path_of p) = sep_byte :: path_of p) as Hr.
  { unfold rooted_path. destruct (path_of p) as [|b l]; [by left|]. case_bool_decide; [by left|by right]. }
  assert (ValidString (rooted_path (path_of p))) as Hv.
  { pose proof (ValidString_path_of p (po_names p Hp)). destruct Hr as [-> | ->]; [done|].
    by apply (ValidString_app [sep_byte]). }
  assert ((let! b := slice data 1 (len data) in read_name (sv_unicode st) b) = Ok (rooted_path (path_of p))) as E.
  { subst data. change [Byte.x04] with (le_put 1 4). wire_read. rewrite slice_whole by offsets. cbn [bind].
    rewrite Hu. by apply read_name_bytes. }
  unfold exchange, mbind_M at 1, sendRecv_both. cbn [t_sendRecv share_server_transport].
  change (Command h =? SMB_COM_NT_CREATE_ANDX) with false. change (Command h =? SMB_COM_CLOSE) with false.
  change (Command h =? SMB_COM_DELETE_DIRECTORY) with true. cbv iota.
  unfold serve_rmdir. rewrite E, comps_rooted, comps_ok by done.
  destruct (remove_node _ _) as [ns|status] eqn:Er; [reflexivity|].
  cbn [both]. by rewrite status_reply_err by by eapply remove_node_refusal.
Qed.
End opening.

(** ** Creating and removing: properties *)

Section creating.
Context (fs : Share).

(** What a state must be for the operations on it: the encoding agreed on, a
    handle to give out, a tree, no transfer under way. *)
Record server_ok (st : share_server) : Prop := {
  so_tree : tree_ok (sv_nodes st);
  so_unicode : sv_unicode st = useUnicode fs;
  so_fid : is_Some (free_fid (sv_open st));
  so_quiet : sv_chan st = 0%nat /\ sv_replies st = ∅;
}.

Lemma restored fid h ns (st : share_server) : free_fid (sv_open st) = Some fid ->
  with_open (delete fid (<[fid := h]> (sv_open st))) (with_nodes ns st) = with_nodes ns st.
Proof. intros [_ H]%free_fid_Some. rewrite close_opened by done. by destruct st. Qed.

Lemma Mkdir_served p (st : share_server) : path_ok p -> server_ok st ->
  share_Mkdir fs (path_of p) st =
  match open_node (sv_nodes st) p FILE_CREATE true false with
  | inl ns => (Ok (), with_nodes ns st)
  | inr status => (Err (path_error "mkdir" (path_of p) (Wrapf "smb1: nt create failed" (NtStatus status))), st)
  end.
Proof.
  intros Hp [_ Hu [fid Hf]]. unfold share_Mkdir. rewrite normalize_ok, validated_ok by done.
  unfold mbind_M at 1, lift at 1. unfold mbind_M at 1, map_err at 1.
  rewrite (tree_open_served fs p _ _ FILE_CREATE FILE_DIRECTORY_FILE st fid) by done.
  change (Z.testbit FILE_DIRECTORY_FILE 0) with true. change (Z.testbit FILE_DIRECTORY_FILE 6) with false.
  change (Z.testbit FILE_DIRECTORY_FILE 12) with false.
  destruct (open_node _ _ _ _ _) as [ns|status]; [|done]. unfold map_err.
  rewrite (Close_served fs _ _ (mkHandle p false)) by (cbn; (by eapply free_fid_Some in Hf as [? _]) || apply lookup_insert_eq).
  cbn [ha_delete f_fid with_open sv_open]. pose proof (restored fid (mkHandle p false) ns st Hf) as E.
  by rewrite <- E at 2.
Qed.

(** Removing a file: it is gone when the handle is closed. *)
Lemma Remove_served p (st : share_server) : path_ok p -> server_ok st ->
  match sv_nodes st !! p with
  | None => share_Remove fs (path_of p) st =
      (Err (PathError "remove" (path_of p) (PathError "stat" (path_of p) ErrNotExist)), st)
  | Some (Reg _) => share_Remove fs (path_of p) st = (Ok (), with_nodes (delete p (sv_nodes st)) st)
  | Some Dir => share_Remove fs (path_of p) st =
      if bool_decide (children (sv_nodes st) p = []) then (Ok (), with_nodes (delete p (sv_nodes st)) st)
      else (Err (PathError "remove" (path_of p) (ResponseError STATUS_DIRECTORY_NOT_EMPTY)), st)
  end.
Proof.
  intros Hp [Hns Hu [fid Hf] Hq].
  assert (forall r, share_Stat fs (path_of p) st = r -> share_Remove fs (path_of p) st =
    (let* stat := map_err (PathError "remove" (path_of p)) (fun _ => r) in
     if FileStat_IsDir stat then share_removeDir fs (path_of p) else
     let* f := map_err (fun e => mapSMBErrorToOSError e "remove" (path_of p))
       (tree_open fs (path_of p) DELETE (Z.lor (Z.lor FILE_SHARE_READ FILE_SHARE_WRITE) FILE_SHARE_DELETE) FILE_OPEN
         (Z.lor FILE_DELETE_ON_CLOSE FILE_NON_DIRECTORY_FILE)) in
     map_err (path_error "remove" (path_of p)) (Close_file (sh_session fs) f)) st) as H.
  { intros r E. unfold share_Remove. rewrite normalize_ok, validated_ok by done.
    unfold mbind_M at 1, lift at 1. unfold mbind_M, map_err at 1 3. by rewrite E. }
  rewrite (H _ (Stat_served fs p st Hp Hu ltac:(intros n Hn; by eapply tr_path in Hn as [_ Hn]))). clear H.
  destruct (sv_nodes st !! p) as [[|d]|] eqn:En; unfold mbind_M at 1, map_err at 1; cbv iota.
  - change (FileStat_IsDir (info_of p Dir)) with true. cbv iota. unfold share_removeDir, mbind_M, attempt.
    rewrite (removeDir_sent fs p st Hp Hu). unfold remove_node. rewrite En. by case_bool_decide.
  - change (FileStat_IsDir (info_of p (Reg d))) with false. cbv iota. unfold mbind_M, map_err at 1.
    rewrite (tree_open_served fs p _ _ FILE_OPEN (Z.lor FILE_DELETE_ON_CLOSE FILE_NON_DIRECTORY_FILE) st fid) by done.
    unfold open_node. rewrite (find_node_ok p Hp), En.
    change (FILE_OPEN =? FILE_CREATE) with false. change (Z.testbit (Z.lor FILE_DELETE_ON_CLOSE FILE_NON_DIRECTORY_FILE) 0) with false.
    change ((FILE_OPEN =? FILE_OVERWRITE) || (FILE_OPEN =? FILE_OVERWRITE_IF)) with false.
    change (Z.testbit (Z.lor FILE_DELETE_ON_CLOSE FILE_NON_DIRECTORY_FILE) 12) with true. cbv iota. unfold map_err.
    rewrite (Close_served fs _ _ (mkHandle p true)) by (cbn; (by eapply free_fid_Some in Hf as [? _]) || apply lookup_insert_eq).
    cbn [ha_delete ha_path f_fid with_open sv_open sv_nodes with_nodes]. do 2 f_equal.
    apply free_fid_Some in Hf as [_ Hf]. rewrite close_opened by done. by destruct st.
  - done.
Qed.

End creating.

(** ** The server of a tree serves a tree *)

Section instances.
Context (fs : Share).

#[export] Instance share_tree_server : TreeServer share_server fs := {
  ts_nodes := sv_nodes;
  ts_ok := server_ok fs;
  ts_notes := sv_notes;
  ts_note x st := with_notes (sv_notes st ++ [x]) st;
}.

Lemma moved_nodes st ns : server_ok fs st -> tree_ok ns -> moved fs st ns (with_nodes ns st).
Proof. intros [_ Hu Hf] Hns. constructor; [by constructor|done..]. Qed.

Lemma moved_same st : server_ok fs st -> moved fs st (sv_nodes st) st.
Proof. by constructor. Qed.

#[export] Instance share_tree_laws : TreeLaws share_server.
Proof.
  split.
  - by intros st [? _ _].
  - intros p st Hst Hp. exists st. split; [by apply moved_same|].
    apply Stat_served; [done|apply Hst|]. intros n Hn. by eapply tr_path in Hn as [_ Hn]; [|apply Hst].
  - intros p st fuel Hst Hp Hdir Hfuel. destruct (ReadDir_served fs p st fuel) as (d & E); [done|apply Hst..|done|done|].
    exists (children (sv_nodes st) p), (with_search d st). split_and!; [|done|done].
    destruct Hst as [Hns Hu Hf Hq]. constructor; [by constructor|done..].
  - intros p st Hst Hp. cbn [ts_nodes share_tree_server]. pose proof (Mkdir_served fs p st Hp Hst) as E.
    destruct (open_node _ _ _ _ _) as [ns|status] eqn:Eo.
    + exists (with_nodes ns st). split; [|done]. apply moved_nodes; [done|].
      unfold open_node in Eo. change (FILE_CREATE =? FILE_CREATE) with true in Eo.
      change ((FILE_CREATE =? FILE_OPEN) || (FILE_CREATE =? FILE_OVERWRITE)) with false in Eo.
      destruct (find_node _ p) as [n|] eqn:En; [done|]. case_bool_decide; [|done]. injection Eo as <-. rewrite find_node_ok in En by done.
      apply tree_ok_insert; [apply Hst|done|vm_compute; done|done|by rewrite En].
    + eexists _, st. split; [by apply moved_same|]. split; [|exact E].
      apply open_node_refusal in Eo. unfold refusals in Eo. rewrite !elem_of_cons, elem_of_nil in Eo.
      destruct Eo as [-> |[-> |[-> |[-> |[-> |[-> |[]]]]]]]; reflexivity.
  - intros p n st Hst Hp Hn Hc. exists (with_nodes (delete p (sv_nodes st)) st).
    assert (tree_ok (delete p (sv_nodes st))) as Hok.
    { apply tree_ok_delete; [apply Hst|]. destruct n as [|d]; [by apply Hc|]. apply children_nil. intros x.
      apply eq_None_not_Some. intros [m Hm]. apply (tr_parent _ (so_tree fs st Hst)) in Hm. rewrite parent_snoc in Hm.
      rewrite find_node_ok in Hm by done. cbn in Hn. congruence. }
    split; [by apply moved_nodes|]. pose proof (Remove_served fs p st Hp Hst) as E. cbn in Hn, Hc. rewrite Hn in E.
    destruct n as [|d]; [|done]. by rewrite bool_decide_true in E by by apply Hc.
  - intros x st [Hns Hu Hf Hq]. split; [by constructor|done].
Qed.
End instances.

(** ** An example *)

Ltac by_deciding := apply (bool_decide_unpack _); vm_compute; exact I.

(** A tree to run the operations on: two directories, one in the other, an empty
    one, and files; and a server of it. *)
Definition example_paths : list (path * node) :=
  [([str "a"], Dir); ([str "a"; str "x"], Reg (str "one")); ([str "a"; str "b"], Dir);
   ([str "a"; str "b"; str "y"], Reg (str "two")); ([str "c"], Dir); ([str "f"], Reg [])].
Definition example_nodes : nodes := list_to_map example_paths.
Definition example_share : Share := mkShare example_negotiated example_session Client.example_tree false.
Definition example_server (ns : nodes) : share_server :=
  mkShareServer ns ∅ (search_of true [] []) (fun _ n => n) false true [] 0 ∅.

Lemma example_nodes_ok : tree_ok example_nodes.
Proof. apply tree_ok_list. by_deciding. Qed.

Lemma example_server_ok ns : tree_ok ns -> server_ok example_share (example_server ns).
Proof. intros H. split; [done|reflexivity|by exists 1|done]. Qed.
