(* ===== verification/PipeShare.v ===== *)
(** * Pipelined transfers on the server of a tree

    The server of [ShareServer] handles a pipelined request when it comes, and its
    replies wait for the client.  A pipelined read from it gets a part of the file
    whatever part of each request it serves ([share_read]); a pipelined write to
    one that takes all it is sent leaves all of the data in the file
    ([share_write]).  Both leave nothing under way. *)

From S2P Require Import PipeServer.
From S2P Require Export ShareServer.

(** ** An open file *)

Definition quiet (st : share_server) : Prop := sv_chan st = 0%nat /\ sv_replies st = ∅.

(** The handle [f] is open on a file with the content [d] at the path [p]. *)
Record holds (st : share_server) (f : File) (p : path) (d : bytes) : Prop := {
  ho_handle : exists h, sv_open st !! f_fid f = Some h /\ ha_path h = p;
  ho_fid : f_fid f ∈ fids;
  ho_path : p <> [];
  ho_node : sv_nodes st !! p = Some (Reg d);
  ho_quiet : quiet st;
}.

Definition with_data (p : path) (d : bytes) (st : share_server) : share_server :=
  with_nodes (<[p := Reg d]> (sv_nodes st)) st.

Lemma with_data_same p d st : sv_nodes st !! p = Some (Reg d) -> with_data p d st = st.
Proof. intros H. unfold with_data. rewrite insert_id by done. by destruct st. Qed.

Lemma with_data_twice p d d' st : with_data p d' (with_data p d st) = with_data p d' st.
Proof. unfold with_data. cbn [with_nodes sv_nodes]. by rewrite insert_insert_eq. Qed.

Lemma holds_with_data st f p d d' : holds st f p d -> holds (with_data p d' st) f p d'.
Proof. intros [Hh Hf Hp Hn Hq]. split; [done..| |done]. apply lookup_insert_eq. Qed.

Lemma holds_other st f p d p' d' : holds st f p d -> p' <> p -> holds (with_data p' d' st) f p d.
Proof. intros [Hh Hf Hp Hn Hq] Hne. split; [done..| |done]. unfold with_data. cbn. by rewrite lookup_insert_ne. Qed.

Lemma fid_range i : i ∈ fids -> 0 <= i < 2 ^ 16.
Proof. intros H. each_fid H; lia. Qed.

(** A transfer that names a handle is the file server's. *)
Lemma serve_transfer_at hd params data (st : share_server) fid h d :
  u16 params 4 6 = Ok fid -> sv_open st !! fid = Some h -> ha_path h <> [] ->
  sv_nodes st !! ha_path h = Some (Reg d) ->
  serve_transfer hd params data st =
  (let '(r, srv) := serve hd params data (file_view fid d st) in (r, with_data (ha_path h) (content srv) st)).
Proof.
  intros Hf Ho Hp Hn. unfold serve_transfer. rewrite Hf, Ho.
  assert (find_node (sv_nodes st) (ha_path h) = Some (Reg d)) as -> by (unfold find_node; by destruct (ha_path h)).
  by destruct (serve _ _ _ _).
Qed.

Lemma file_view_pipe fid d ch m st : file_view fid d (with_pipe ch m st) = file_view fid d st.
Proof. reflexivity. Qed.

(** ** Replies that wait

    The replies of the chunks from [i] up to [j], and no others, each as [Q]
    says; once they are all taken nothing is under way. *)
Section waiting.
Context (Q : Z -> response -> Prop).

Record waiting (i j : Z) (ch : nat) (m : gmap nat response) : Prop := {
  wt_reply : forall k, i <= k < j -> exists r, m !! Z.to_nat k = Some r /\ Q k r;
  wt_only : forall n r, m !! n = Some r -> i <= Z.of_nat n < j;
  wt_done : 0 < i -> i = j -> ch = 0%nat;
}.

Lemma waiting_none ch : waiting 0 0 ch ∅.
Proof. split; [lia|intros n r; by rewrite lookup_empty|lia]. Qed.

Lemma waiting_empty i ch m : waiting i i ch m -> m = ∅.
Proof.
  intros [_ Ho _]. apply map_empty. intros n. apply eq_None_not_Some. intros [r Hr]. apply Ho in Hr. lia.
Qed.

Lemma waiting_sent i j ch ch' m r : 0 <= i <= j -> waiting i j ch m -> Q j r ->
  waiting i (j + 1) ch' (<[Z.to_nat j := r]> m).
Proof.
  intros Hi [Hr Ho _] Hq. split; [| |lia].
  - intros k Hk. destruct (decide (k = j)) as [->|]; [exists r; by rewrite lookup_insert_eq|].
    rewrite lookup_insert_ne by lia. apply Hr. lia.
  - intros n r' [[<- _]|[_ Hn]]%lookup_insert_Some; [lia|]. apply Ho in Hn. lia.
Qed.

Lemma waiting_taken i j ch m : 0 <= i < j -> waiting i j ch m ->
  exists r, m !! Z.to_nat i = Some r /\ Q i r /\
    waiting (i + 1) j (if bool_decide (delete (Z.to_nat i) m = ∅) then 0 else ch)%nat (delete (Z.to_nat i) m).
Proof.
  intros Hi [Hr Ho _]. destruct (Hr i ltac:(lia)) as (r & Em & Hq). exists r. split; [done|]. split; [done|]. split.
  - intros k Hk. rewrite lookup_delete_ne by lia. apply Hr. lia.
  - intros n r' [Hne Hn]%lookup_delete_Some. apply Ho in Hn. lia.
  - intros _ <-. rewrite bool_decide_true; [done|]. apply map_empty. intros n.
    destruct (decide (n = Z.to_nat i)) as [->|]; [by rewrite lookup_delete_eq|].
    rewrite lookup_delete_ne by done. apply eq_None_not_Some. intros [r' Hn]. apply Ho in Hn. lia.
Qed.
End waiting.

Lemma taken_reply {A} (st : share_server) i m r : m !! Z.to_nat i = Some r ->
  forall ch, take_reply (A := A) (Z.to_nat i) (with_pipe ch m st) =
  (PickReply (Some r),
   with_pipe (if bool_decide (delete (Z.to_nat i) m = ∅) then 0 else ch)%nat (delete (Z.to_nat i) m) st).
Proof. intros E ch. unfold take_reply. cbn [with_pipe sv_replies]. by rewrite E. Qed.

Lemma with_pipe_quiet st : quiet st -> with_pipe 0 ∅ st = st.
Proof. destruct st. by intros [Ec Er]; cbn in Ec, Er; subst. Qed.

(** ** Reading *)

Section read.
Context (c : Negotiated) (s : UserSession) (f : File) (st : share_server) (p : path) (d : bytes).
Context (Hc : has_cap c CAP_LARGE_FILES = true) (Hh : holds st f p d).
Context (buf : bytes) (offset : Z) (Hsize : 0 < len buf) (Ho : 0 <= offset < 2 ^ 63) (Hd : len d < 2 ^ 63).

Let srv := file_view (f_fid f) d st.
Let num := numChunks (len buf) (maxReadChunk c).

Definition reads_under_way (i j : Z) (t : share_server) : Prop :=
  exists ch m, t = with_pipe ch m st /\ waiting (read_answer c srv buf offset) i j ch m.

Lemma share_send : sends_ok (chunk_at c 0 buf offset) num reads_under_way (fun e => e <> EOF /\ False)
  (may_send c srv offset) (sendReadRequest c s f).
Proof.
  intros k i chunk t Hk Hi Hsend Hch (ch & m & -> & Hw). left. pose proof Hh as [(h & Hop & Hhp) Hfid Hp Hn _].
  destruct (chunk_request c f srv Hc (fid_range _ Hfid) eq_refl 0 buf offset Hsize ltac:(lia) (or_intror (conj (proj2 Ho) Hd))
    k i chunk ltac:(lia) Hsend Hch) as (q & Eq & r & Er & Ha).
  unfold sendReadRequest. cbv zeta. rewrite Eq. unfold mbind_M at 1, wrap_err, lift. unfold mbind_M.
  destruct Hch as (Ec & Hrest). rewrite Ec. cbn [pl_send share_server_pipeline]. cbn [Nat.add].
  rewrite (serve_transfer_at _ q [] _ (f_fid f) h d); [|..].
  - rewrite file_view_pipe. fold srv. unfold serve. cbn. rewrite Er.
    eexists _, _. split; [reflexivity|]. split; [by split|]. subst p.
    rewrite with_data_same by done. eexists _, _. split; [reflexivity|]. by apply (waiting_sent _ k i ch).
  - rewrite EncodeReadRequest_eq in Eq. injection Eq as <-. unfold read_params. wire_read.
    cbn [rq_FID read_request]. by rewrite wrap_small by by apply fid_range.
  - done.
  - by rewrite Hhp.
  - by rewrite Hhp.
Qed.

Lemma share_reads : serves_reads c s f srv 0 buf offset reads_under_way sv_chan False.
Proof.
  split.
  - intros t (ch & m & -> & Hw). split; [done|]. split; [done|]. exists (S ch), m. split; [done|].
    rewrite (waiting_empty _ _ _ _ Hw). apply waiting_none.
  - apply share_send.
  - intros i j t Hi Hj (ch & m & -> & Hw). destruct (waiting_taken _ i j ch m Hi Hw) as (r & Em & Hr & Hw').
    cbn [pl_wait share_server_pipeline Nat.add]. rewrite (taken_reply st i m r Em). split; [|done].
    by eexists _, _.
  - intros i j t Hi Hj (ch & m & -> & Hw). destruct (waiting_taken _ i j ch m Hi Hw) as (r & Em & Hr & Hw').
    cbn [pl_settle share_server_pipeline Nat.add]. rewrite (taken_reply st i m r Em).
    by eexists _, _.
  - done.
Qed.

(** A pipelined read: a part of the file, at least a byte of it unless the
    position is at its end. *)
Lemma share_read :
  exists n err, readPipelined c s f buf offset st =
      (Ok (take (Z.to_nat n) (drop (Z.to_nat offset) d) ++ drop (Z.to_nat n) buf, (n, err)), st) /\
    0 <= n <= len buf /\ (n = 0 \/ n <= len d - offset) /\
    (err = None -> 0 < n) /\ (err = Some EOF -> n = 0 /\ len d <= offset) /\
    (forall e, err = Some e -> e = EOF).
Proof.
  pose proof (ho_quiet _ _ _ _ Hh) as Hq.
  destruct (readPipelined_served c s f srv 0 buf offset Hsize ltac:(lia) (or_intror (conj (proj2 Ho) Hd))
    reads_under_way sv_chan False share_reads st (proj1 Hq))
    as (n & err & E & H1 & H2 & H3 & H4 & H5 & [[]|(k & Hk & ch & m & Et & Hw)]).
  { exists 0%nat, ∅. split; [by rewrite with_pipe_quiet|apply waiting_none]. }
  exists n, err. split; [|split_and!; try done; [lia|lia|intros e He; by destruct (H5 e He)]].
  rewrite (wt_done _ _ _ _ _ Hw Hk eq_refl), (waiting_empty _ _ _ _ Hw), with_pipe_quiet in Et by done.
  destruct (readPipelined c s f buf offset st) as [r t]. cbn [fst snd] in E, Et. by rewrite E, Et.
Qed.
End read.

(** ** Writing *)

(** A server that takes all it is sent. *)
Definition takes_all (st : share_server) : Prop := forall o k, k <= sv_serves st o k.

Section write.
Context (c : Negotiated) (s : UserSession) (f : File) (st : share_server) (p : path) (d : bytes).
Context (Hc : has_cap c CAP_LARGE_FILES = true) (Hh : holds st f p d) (Htake : takes_all st).
Context (data : bytes) (offset : Z).
Context (Hsize : 0 < len data) (Ho : 0 <= offset) (Hb : offset + len data < 2 ^ 64).

Let per := maxWriteChunk c.
Let num := numChunks (len data) per.

(** The data of the chunks before the one with index [i]. *)
Definition upto (i : Z) : bytes := take (Z.to_nat (Z.min (i * per) (len data))) data.

Definition writes_under_way (i j : Z) (t : share_server) : Prop :=
  exists ch m, t = with_pipe ch m (with_data p (splice d offset (upto j)) st) /\
    waiting (fun k r => r = write_reply (len (piece c data k))) i j ch m.

Lemma upto_next i : 0 <= i < num -> len (upto i) = Z.of_nat (start c data i) /\ upto (i + 1) = upto i ++ piece c data i /\
  len (upto (i + 1)) = len (upto i) + len (piece c data i) /\ 0 < len (piece c data i) <= per.
Proof.
  intros Hi. pose proof (piece_bounds c data offset Hsize i Hi) as (H1 & H2 & H3 & H4 & H5 & H6 & H7).
  fold per in H1, H3, H5. fold per in H5, H6. fold num in H5, H6.
  assert (Z.of_nat (start c data i + PipeServer.size_of c data i) = Z.min ((i + 1) * per) (len data)) as E.
  { assert (i + 1 < num \/ i + 1 = num) as [Hn|Hn] by lia; [specialize (H5 Hn)|specialize (H6 Hn)]; unfold len; nia. }
  assert (Z.min (i * per) (len data) = Z.of_nat (start c data i)) as E0 by (unfold len in *; lia).
  assert (len (upto i) = Z.of_nat (start c data i)) as L by (unfold upto; rewrite len_take; unfold len in *; lia).
  assert (upto (i + 1) = upto i ++ piece c data i) as Eu.
  { unfold upto, piece. rewrite E0, <- E, !Nat2Z.id. symmetry; apply take_take_drop. }
  split_and!; [done|done|by rewrite Eu, len_app|unfold len; lia|unfold len; lia].
Qed.

Lemma upto_all : upto num = data.
Proof.
  pose proof (per_wpos c data offset) as Hp. fold per in Hp. pose proof (numChunks_pos (len data) per Hsize ltac:(lia)) as Hn. fold num in Hn.
  assert (len data <= num * per) by (unfold num, numChunks; Z.to_euclidean_division_equations; nia).
  unfold upto. apply take_ge. unfold len in *. lia.
Qed.

(** Each request is handled in full. *)
Lemma share_write_send k i chunk t : 0 <= k <= i -> i < num -> wchunk_at c 0 data offset i chunk ->
  writes_under_way k i t ->
  exists chunk' t', sendWriteRequest c s f chunk t = (Ok chunk', t') /\ wchunk_at c 0 data offset i chunk' /\
    writes_under_way k (i + 1) t'.
Proof.
  intros Hk Hi (Ec & Eo & Ed) (ch & m & -> & Hw). pose proof Hh as [(h & Hop & Hhp) Hfid Hp Hn _].
  assert (0 <= i < num) as Hi' by lia. destruct (upto_next i Hi') as (L & Eu & L' & Hpc).
  pose proof (per_wpos c data offset) as Hper. fold per in Hper. pose proof (fid_range _ Hfid) as Hr.
  assert (len (upto (i + 1)) <= len data) as Hle.
  { unfold upto. rewrite len_take. pose proof (len_nonneg data). lia. }
  assert (len (piece c data i) <= MaxDataSize) as Hmax.
  { pose proof (maxWriteChunk_range c) as Hm. fold per in Hm. lia. }
  pose proof (len_nonneg (upto i)) as Hnn.
  set (st1 := with_data p (splice d offset (upto i)) st) in *.
  assert (offset + Z.of_nat (start c data i) = offset + len (upto i)) as Eoff by lia.
  destruct (serve_write_request f (piece c data i) (offset + len (upto i))
    (file_view (f_fid f) (splice d offset (upto i)) st1) Hr eq_refl ltac:(lia) Hmax) as (q & Eq & Es). cbv zeta in Es.
  cbn [serves content file_view] in Es. change (sv_serves st1) with (sv_serves st) in Es.
  replace (Z.max 0 (Z.min (sv_serves st (offset + len (upto i)) (len (piece c data i))) (len (piece c data i))))
    with (len (piece c data i)) in Es by (pose proof (Htake (offset + len (upto i)) (len (piece c data i))); lia).
  unfold sendWriteRequest. cbv zeta. rewrite Hc, Eo, Ed, Eoff, Eq. unfold mbind_M at 1, wrap_err, lift. unfold mbind_M.
  rewrite Ec. cbn [pl_send share_server_pipeline]. cbn [Nat.add].
  rewrite (serve_transfer_at _ q _ _ (f_fid f) h (splice d offset (upto i))); [|..].
  - rewrite file_view_pipe. unfold serve. cbn [Command file_header].
    change (SMB_COM_WRITE_ANDX =? SMB_COM_READ_ANDX) with false. change (SMB_COM_WRITE_ANDX =? SMB_COM_WRITE_ANDX) with true.
    cbv iota. rewrite Es. cbn [content]. eexists _, _. split; [reflexivity|].
    split; [unfold wchunk_at; cbn; by rewrite <- Eoff, <- Eo|].
    assert (take (Z.to_nat (len (piece c data i))) (piece c data i) = piece c data i) as ->
      by (unfold len; rewrite Nat2Z.id; apply firstn_all).
    rewrite splice_next, <- Eu by done.
    exists ch, (<[Z.to_nat i := write_reply (len (piece c data i))]> m). split; [|by apply (waiting_sent _ k i ch)].
    rewrite Hhp. unfold st1, with_data, with_pipe, with_nodes. cbn. by rewrite insert_insert_eq.
  - rewrite EncodeWriteRequest_eq in Eq. injection Eq as <-. unfold write_params. wire_read.
    cbn [wq_FID write_request]. by rewrite wrap_small.
  - exact Hop.
  - by rewrite Hhp.
  - rewrite Hhp. apply lookup_insert_eq.
Qed.

Lemma share_write_wait k j chunk w t : 0 <= k < j -> wchunk_at c 0 data offset k chunk -> ws_draining w = false ->
  writes_under_way k j t ->
  exists t', awaitChunk chunk w t = (Ok (inl (Some (write_reply (len (piece c data k)))), w), t') /\
    writes_under_way (k + 1) j t'.
Proof.
  intros Hk (Ec & _) Hw (ch & m & -> & Hm). destruct (waiting_taken _ k j ch m Hk Hm) as (r & Em & -> & Hm').
  unfold awaitChunk. rewrite Hw, Ec. cbn [pl_wait share_server_pipeline Nat.add]. rewrite (taken_reply _ k m _ Em).
  eexists. split; [reflexivity|]. by eexists _, _.
Qed.

Lemma share_write_loop n : forall i inflight unsent t,
  0 <= i -> i + Z.of_nat (length (inflight ++ unsent)) = num -> Z.of_nat n = num - i ->
  (inflight = [] -> unsent = []) -> chunks_from (wchunk_at c 0 data offset) i (inflight ++ unsent) ->
  writes_under_way i (i + Z.of_nat (length inflight)) t ->
  exists t', write_loop n c s f inflight unsent (mkWriteState (len (upto i)) false None) t = (Ok (len data, None), t') /\
    writes_under_way num num t'.
Proof.
  induction n as [|n IH]; intros i inflight unsent t Hi Hl Hn Hne Hch Ht.
  { assert (i = num /\ inflight = []) as [-> ->].
    { rewrite length_app in Hl. split; [lia|]. apply nil_length_inv. lia. }
    exists t. rewrite upto_all. cbn [length] in Ht. rewrite Z.add_0_r in Ht. done. }
  destruct inflight as [|chunk inflight]; [rewrite Hne in Hl by done; cbn in Hl; lia|].
  rewrite <- app_comm_cons in Hch. apply chunks_from_cons in Hch as [Hchunk Hch]. cbn [app length] in Hl, Ht.
  assert (0 <= i < num) as Hi' by lia. destruct (upto_next i Hi') as (L & Eu & L' & Hpc).
  pose proof (per_wpos c data offset) as Hper. fold per in Hper. pose proof Hl as Hl'. rewrite length_app in Hl'.
  cbn [write_loop]. unfold mbind_M at 1.
  destruct (share_write_wait i (i + Z.of_nat (S (length inflight))) chunk (mkWriteState (len (upto i)) false None) t ltac:(lia) Hchunk eq_refl Ht) as (t1 & -> & Ht1).
  unfold mbind_M at 1, act. unfold mbind_M at 1, lift at 1. cbn [pl_delete share_server_pipeline].
  change (r_err (write_reply _)) with (@None error). cbv iota.
  destruct (DecodeWriteResponse_reply (len (piece c data i))) as (wr & E1 & E2); [lia|].
  change (r_data (write_reply _)) with (@nil byte). rewrite E1, E2. cbv zeta. cbn [ws_total ws_draining ws_deferred].
  destruct Hchunk as (_ & _ & ->). rewrite Z.ltb_irrefl, <- L'.
  replace (i + Z.of_nat (S (length inflight))) with (i + 1 + Z.of_nat (length inflight)) in Ht1 by lia.
  unfold mbind_M at 1. unfold feed. unfold mbind_M at 1. cbn [ws_draining]. unfold mbind_M at 1, poll.
  cbn [ctx_poll share_server_ctx]. unfold ret at 1.
  destruct unsent as [|next unsent].
  - unfold ret at 1. cbn [option_list]. rewrite app_nil_r. rewrite app_nil_r in Hch. cbn [length] in Hl'.
    apply (IH (i + 1)); [lia|rewrite app_nil_r; lia|lia|done|by rewrite app_nil_r|done].
  - cbn [ws_draining length] in *. pose proof (chunks_from_mid _ _ _ _ _ Hch) as Hnx.
    destruct (share_write_send (i + 1) (i + 1 + Z.of_nat (length inflight)) next t1 ltac:(lia) ltac:(lia) Hnx Ht1)
      as (next' & t2 & -> & Hc' & Ht2). cbn [option_list].
    apply (IH (i + 1)); [lia|rewrite !length_app; cbn; lia|lia|by intros []%app_nil| |].
    + by eapply chunks_from_next.
    + rewrite length_app. change (length (option_list (Some next'))) with 1%nat.
      by replace (i + 1 + Z.of_nat (length inflight + 1)) with (i + 1 + Z.of_nat (length inflight) + 1) by lia.
Qed.

(** A pipelined write: all of the data, at their place. *)
Lemma share_write :
  writePipelined c s f data offset st = (Ok (len data, None), with_data p (splice d offset data) st).
Proof.
  pose proof (per_wpos c data offset) as Hper. fold per in Hper. pose proof (numChunks_pos (len data) per Hsize ltac:(lia)) as Hnum. fold num in Hnum.
  pose proof (ho_quiet _ _ _ _ Hh) as Hq.
  unfold writePipelined. fold per. fold num. cbv zeta. pose proof (width_range c num Hnum) as [Hk Hk50].
  set (k := Z.to_nat (pipeline_width c num)) in *.
  assert (writes_under_way 0 0 st) as H0.
  { exists 0%nat, ∅. split; [|apply waiting_none]. unfold upto. rewrite Z.mul_0_l, Z.min_l by lia.
    change (splice d offset (take (Z.to_nat 0) data)) with d. rewrite with_data_same by apply Hh. by rewrite with_pipe_quiet. }
  destruct (make_all (wchunk_at c 0 data offset) num writes_under_way sv_chan (make_write_chunk data per offset) 0 (Z.to_nat num))
    with (i := 0) (t := st) as (l & t1 & E & Hl & Hch & Ht1); [| |lia|lia|apply Hq|done|].
  { intros t (ch & m & -> & Hw). split; [done|]. split; [done|]. exists (S ch), m. split; [done|].
    rewrite (waiting_empty _ _ _ _ Hw). apply waiting_none. }
  { intros i t' Hi _. pose proof (piece_bounds c data offset Hsize i Hi) as (Hst & Hsz & Hszp & Hin & _ & _ & Hlen).
    pose proof (chunk_bounds_spec (len data) per i Hsize ltac:(lia) Hi) as Hcb.
    unfold make_write_chunk. fold per. destruct (chunk_bounds (len data) per i) as [o size] eqn:Eb.
    unfold mbind_M, lift. rewrite slice_ok by (destruct Hcb; lia).
    eexists. split; [reflexivity|]. unfold wchunk_at, piece, start, PipeServer.size_of. fold per. rewrite Eb. cbn.
    replace (o + size - o) with size by lia. split_and!; [done| |done]. destruct Hcb. lia. }
  unfold mbind_M at 1. rewrite E. rewrite <- (take_drop k l) in Hch. apply chunks_from_app in Hch as [Hch1 Hch2].
  rewrite length_take in Hch2.
  destruct (send_all (wchunk_at c 0 data offset) num writes_under_way (fun _ => False) (fun _ _ => True)
    (sendWriteRequest c s f) (take k l)) with (sent := @nil writeChunk) (t := t1)
    as (sent & err & t2 & E2 & Hcs & Ht2 & Hle & Hls); [|done|cbn; rewrite length_take; lia|done|done|].
  { intros k' i chunk t Hk' Hi _ Hc' Ht. left. by apply share_write_send. }
  unfold mbind_M at 1. rewrite E2. destruct err as [e|]; [done|]. cbn [app] in Hls. rewrite length_take in Hls.
  unfold mbind_M at 1. unfold ret at 1.
  assert (length sent = k `min` length l)%nat as Hls' by exact Hls.
  assert (drop (length sent) l = drop k l) as -> by (f_equal; lia).
  destruct (share_write_loop (Z.to_nat num) 0 sent (drop k l) t2) as (t3 & E3 & ch & m & -> & Hw).
  - lia.
  - rewrite length_app, length_drop. lia.
  - lia.
  - intros ->. cbn in Hls'. apply nil_length_inv. rewrite length_drop. lia.
  - apply chunks_from_app. split; [done|]. by rewrite Hls'.
  - done.
  - assert (len (upto 0) = 0) as Eu by (unfold upto; rewrite Z.mul_0_l, Z.min_l by lia; reflexivity).
    rewrite Eu in E3. rewrite E3, upto_all, (wt_done _ _ _ _ _ Hw Hnum eq_refl), (waiting_empty _ _ _ _ Hw).
    by rewrite with_pipe_quiet.
Qed.
End write.
