(* ===== verification/TreeSpec.v ===== *)
(** * Directory trees: what the recursions do

    [MkdirAll], [RemoveAll] and [Walk] of [Trees], on any server of a tree
    ([TreeServer]): the tree they leave, the files they visit and in which
    order.  [ShareServer] is such a server, and the witnesses run on it. *)

From S2P Require Export ShareServer.

(** ** The order of a walk *)

(** A file before what is under it; what is under a directory, child by child, in
    whatever order they are listed; nothing under a directory that is skipped. *)
Inductive walked (ns : nodes) (skip : bytes -> bool) : path -> node -> list path -> Prop :=
  | walked_file p d : walked ns skip p (Reg d) [p]
  | walked_skipped p : skip (path_of p) = true -> walked ns skip p Dir [p]
  | walked_dir p l v : skip (path_of p) = false -> l ≡ₚ children ns p -> walked_children ns skip p l v ->
      walked ns skip p Dir (p :: v)
with walked_children (ns : nodes) (skip : bytes -> bool) : path -> list (bytes * node) -> list path -> Prop :=
  | walked_none p : walked_children ns skip p [] []
  | walked_child p x n l v w : walked ns skip (p ++ [x]) n v -> walked_children ns skip p l w ->
      walked_children ns skip p ((x, n) :: l) (v ++ w).

Scheme walked_ind' := Induction for walked Sort Prop
  with walked_children_ind' := Induction for walked_children Sort Prop.
Combined Scheme walked_mutual from walked_ind', walked_children_ind'.

(** What a walk from [p] comes to: the files under it that no directory above them
    keeps it from. *)
Definition reached (ns : nodes) (skip : bytes -> bool) (p q : path) : Prop :=
  p `prefix_of` q /\ is_Some (find_node ns q) /\
  forall r, p `prefix_of` r -> r `prefix_of` q -> r <> q -> skip (path_of r) = false.

(** No file comes after one that is under it, nor twice. *)
Notation parents_first := (StronglySorted (fun q r : path => ~ r `prefix_of` q)).

Lemma reached_self ns skip p n : find_node ns p = Some n -> reached ns skip p p.
Proof. intros Hn. split_and!; [done|by exists n|]. intros r H1 H2 []. by apply (anti_symm prefix). Qed.

Lemma reached_child ns skip p q : tree_ok ns -> p <> q ->
  reached ns skip p q <-> skip (path_of p) = false /\ exists x, is_Some (ns !! (p ++ [x])) /\ reached ns skip (p ++ [x]) q.
Proof.
  intros Hns Hne. split.
  - intros (Hpre & [n Hn] & Hskip). split; [by apply Hskip|].
    assert (ns !! q = Some n) as Hq by (destruct q; [by apply prefix_nil_inv in Hpre|done]).
    destruct (below_child ns p q n Hns Hq Hpre Hne) as (x & m & Hm & Hx). exists x. split; [by exists m|].
    split_and!; [done|by exists n|]. intros r H1. apply Hskip. etrans; [|exact H1]. by apply prefix_app_r.
  - intros (Hskip & x & Hx & Hpre & Hn & Hs). split_and!; [etrans; [|exact Hpre]; by apply prefix_app_r|done|].
    intros r [k ->] H2 H3. destruct k as [|y k]; [by rewrite app_nil_r|].
    assert (p ++ [y] `prefix_of` q) as Hy by (etrans; [|exact H2]; apply prefix_app, prefix_cons, prefix_nil).
    rewrite (prefix_child_inj p q y x Hy Hpre) in *. apply Hs; [|done..]. apply prefix_app, prefix_cons, prefix_nil.
Qed.

Lemma StronglySorted_app_under {A} (R : A -> A -> Prop) (l k : list A) :
  StronglySorted R l -> StronglySorted R k -> (forall x y, x ∈ l -> y ∈ k -> R x y) -> StronglySorted R (l ++ k).
Proof.
  intros Hl Hk. induction Hl as [|x l Hl IH Hx]; intros H; [done|]. cbn. constructor.
  - apply IH. intros y z Hy. apply H. by right.
  - apply Forall_app. split; [done|]. apply Forall_forall. intros y Hy. apply H; [by left|done].
Qed.

Lemma walked_reaches ns skip : tree_ok ns ->
  (forall p n v, walked ns skip p n v -> find_node ns p = Some n ->
     (forall q, q ∈ v <-> reached ns skip p q) /\ parents_first v) /\
  (forall p l v, walked_children ns skip p l v -> NoDup l.*1 -> (forall x n, (x, n) ∈ l -> ns !! (p ++ [x]) = Some n) ->
     (forall q, q ∈ v <-> exists x, x ∈ l.*1 /\ reached ns skip (p ++ [x]) q) /\ parents_first v).
Proof.
  intros Hns. apply walked_mutual.
  - intros p d Hn. split; [|by repeat constructor]. intros q. rewrite elem_of_cons, elem_of_nil.
    split; [intros [-> |[]]; by eapply reached_self|]. intros Hq. left. destruct (decide (p = q)) as [|Hne]; [done|].
    apply (reached_child ns skip p q Hns) in Hq as (_ & x & [m Hm] & _); [|done].
    apply (tr_parent ns Hns) in Hm. rewrite parent_snoc in Hm. congruence.
  - intros p Hskip Hn. split; [|by repeat constructor]. intros q. rewrite elem_of_cons, elem_of_nil.
    split; [intros [-> |[]]; by eapply reached_self|]. intros Hq. left. destruct (decide (p = q)) as [|Hne]; [done|].
    apply (reached_child ns skip p q Hns) in Hq as (H & _); [|done]. congruence.
  - intros p l v Hskip Hl Hw IH Hn. destruct IH as [Hv Hs].
    { rewrite Hl. apply NoDup_children. }
    { intros x m Hx. rewrite Hl in Hx. by apply elem_of_children. }
    assert (forall q, q ∈ v -> p `prefix_of` q /\ p <> q) as Hbelow.
    { intros q Hq. apply Hv in Hq as (x & _ & Hpre & _). split; [etrans; [|exact Hpre]; by apply prefix_app_r|].
      intros ->. by apply prefix_snoc_not in Hpre. }
    split.
    + intros q. rewrite elem_of_cons. destruct (decide (p = q)) as [<-|Hne].
      { split; [intros _; by eapply reached_self|by left]. }
      rewrite Hv, (reached_child ns skip p q Hns Hne). split.
      * intros [->|(x & Hx & Hr)]; [done|]. split; [done|]. exists x. split; [|done].
        apply list_elem_of_fmap in Hx as ([y m] & -> & Hy). rewrite Hl in Hy. apply elem_of_children in Hy. by exists m.
      * intros (_ & x & [m Hm] & Hr). right. exists x. split; [|done]. apply elem_of_children in Hm. rewrite <- Hl in Hm.
        apply list_elem_of_fmap. by exists (x, m).
    + constructor; [done|]. apply Forall_forall. intros q Hq Hpre. apply Hbelow in Hq as [H1 H2].
      by apply H2, (anti_symm prefix).
  - intros p _ _. split; [|constructor]. intros q. cbn. setoid_rewrite elem_of_nil. naive_solver.
  - intros p x n l v w _ IHv _ IHw Hd Hl. cbn in Hd. apply NoDup_cons in Hd as [Hx Hd].
    destruct IHv as [Hv Sv].
    { pose proof (Hl x n ltac:(by left)). unfold find_node. by destruct (p ++ [x]) eqn:E; [destruct p|]. }
    destruct IHw as [Hw Sw]; [done|intros; apply Hl; by right|].
    split.
    + intros q. rewrite elem_of_app, Hv, Hw. cbn. setoid_rewrite elem_of_cons. naive_solver.
    + apply StronglySorted_app_under; [done..|]. intros q r Hq Hr Hpre. apply Hv in Hq as [Hq _].
      apply Hw in Hr as (y & Hy & Hr & _). apply Hx. rewrite (prefix_child_inj p q x y); [done..|]. by etrans.
Qed.

Section specs.
Context {T : Type} {tr : Transport T} {cx : Ctx T} {pl : Pipeline T} {fs : Share} {ts : TreeServer T fs} {laws : TreeLaws T}.
Implicit Types st : T.

Lemma moved_trans st ns st' ns' st'' : moved fs st ns st' -> moved fs st' ns' st'' -> moved fs st ns' st''.
Proof. intros [] []. split; congruence. Qed.

Lemma moved_refl st : ts_ok fs st -> moved fs st (ts_nodes fs st) st.
Proof. by split. Qed.

(** ** [MkdirAll] *)

(** The directories on the way to a path, the path included, below [p]. *)
Fixpoint prefixes_from (p parts : path) : list path :=
  match parts with
  | [] => []
  | x :: parts => (p ++ [x]) :: prefixes_from (p ++ [x]) parts
  end.
Definition made (ns : nodes) (l : list path) : nodes := foldl (fun ns q => match ns !! q with Some _ => ns | None => <[q := Dir]> ns end) ns l.

Lemma elem_of_prefixes parts : forall p q, q ∈ prefixes_from p parts <->
  p `prefix_of` q /\ q <> p /\ q `prefix_of` p ++ parts.
Proof.
  induction parts as [|x parts IH]; intros p q; cbn [prefixes_from].
  - rewrite elem_of_nil, app_nil_r. split; [done|]. intros (H1 & H2 & H3). apply H2. by apply (anti_symm prefix).
  - rewrite elem_of_cons, IH, <- app_assoc. cbn [app]. split.
    + intros [-> |(H1 & H2 & H3)].
      * split_and!; [by apply prefix_app_r|intros E; apply (f_equal length) in E; rewrite length_app in E; cbn in E; lia|].
        exists parts. by rewrite <- app_assoc.
      * split_and!; [etrans; [|exact H1]; by apply prefix_app_r|intros ->; by apply prefix_snoc_not in H1|done].
    + intros ([k ->] & H2 & H3). destruct k as [|y k]; [by rewrite app_nil_r in H2|].
      apply prefix_app_inv in H3. assert (y = x) as -> by (by apply prefix_cons_inv_1 in H3).
      destruct k as [|z k]; [by left|right]. split_and!; [exists (z :: k); by rewrite <- app_assoc| |].
      * intros E. apply (f_equal length) in E. rewrite !length_app in E. cbn in E. lia.
      * by apply prefix_app.
Qed.

Lemma each_prefix (P : path -> Prop) p : Forall P (prefixes_from [] p) -> forall q, q <> [] -> q `prefix_of` p -> P q.
Proof.
  rewrite Forall_forall. intros H q Hne Hq. apply H, elem_of_prefixes. split_and!; [apply prefix_nil|done|done].
Qed.

Lemma mkdir_loop_cons part parts p st : Forall proper p -> proper part ->
  mkdir_loop fs (part :: parts) (path_of p) st =
  (let* made := attempt (share_Mkdir fs (path_of (p ++ [part]))) in
   match made with
   | inr err => if negb (IsExistError err) then fail err else mkdir_loop fs parts (path_of (p ++ [part]))
   | inl _ => mkdir_loop fs parts (path_of (p ++ [part]))
   end) st.
Proof.
  intros Hp [Hpart _]. cbn [mkdir_loop]. rewrite bool_decide_false by done.
  change (if bool_decide (path_of p = []) then part else path_of p ++ [sep_byte] ++ part) with (child_path (path_of p) part).
  by rewrite child_path_of.
Qed.

(** One step: the directory is there afterwards, or its parent is a file. *)
Lemma mkdir_step p x st : ts_ok fs st -> path_ok (p ++ [x]) -> is_Some (find_node (ts_nodes fs st) p) ->
  match find_node (ts_nodes fs st) p with
  | Some Dir => exists st' r, moved fs st (made (ts_nodes fs st) [p ++ [x]]) st' /\
      attempt (share_Mkdir fs (path_of (p ++ [x]))) st = (Ok r, st') /\
      match r with inr e => IsExistError e = true | inl _ => True end
  | _ => exists st' e, moved fs st (ts_nodes fs st) st' /\
      attempt (share_Mkdir fs (path_of (p ++ [x]))) st = (Ok (inr e), st') /\ IsExistError e = false
  end.
Proof.
  intros Hst Hp Hpar. pose proof (tl_mkdir (p ++ [x]) st Hst Hp) as E. unfold open_node in E.
  rewrite parent_snoc, (find_node_ok (p ++ [x]) Hp) in E. change (FILE_CREATE =? FILE_CREATE) with true in E.
  change ((FILE_CREATE =? FILE_OPEN) || (FILE_CREATE =? FILE_OVERWRITE)) with false in E. cbv iota in E.
  unfold made, attempt. cbn [foldl].
  destruct (ts_nodes fs st !! (p ++ [x])) as [n|] eqn:En.
  - pose proof (tl_tree st Hst) as Hns. pose proof (tr_parent _ Hns _ _ En) as Hd. rewrite parent_snoc in Hd. rewrite Hd.
    destruct E as (e & st' & Hm & He & ->). exists st', (inr e). by split_and!.
  - destruct (find_node (ts_nodes fs st) p) as [[|d]|]; [| |by destruct Hpar].
    + rewrite bool_decide_true in E by done. destruct E as (st' & Hm & ->). by exists st', (inl ()).
    + rewrite bool_decide_false in E by done. destruct E as (e & st' & Hm & He & ->). by exists st', e.
Qed.

Lemma find_made ns l p n : find_node ns p = Some n -> find_node (made ns l) p = Some n.
Proof.
  revert ns. induction l as [|q l IH]; intros ns Hn; [done|]. apply IH. destruct (ns !! q) eqn:E; [done|].
  unfold find_node in *. destruct p; [done|]. rewrite lookup_insert_ne; [done|]. intros ->. congruence.
Qed.

Lemma made_there ns l q n : ns !! q = Some n -> made ns l !! q = Some n.
Proof.
  revert ns. induction l as [|q' l IH]; intros ns Hn; [done|]. apply IH. destruct (ns !! q') eqn:E; [done|].
  rewrite lookup_insert_ne; [done|]. intros ->. congruence.
Qed.

Lemma lookup_made ns l q : made ns l !! q = match ns !! q with Some n => Some n | None => if decide (q ∈ l) then Some Dir else None end.
Proof.
  revert ns. induction l as [|q' l IH]; intros ns.
  - cbn. by destruct (ns !! q).
  - destruct (ns !! q) as [n|] eqn:E; [by apply made_there|]. cbn [made foldl]. fold (made (match ns !! q' with Some _ => ns | None => <[q' := Dir]> ns end) l).
    rewrite IH. destruct (ns !! q') as [m|] eqn:E'.
    + rewrite E. assert (q <> q') by congruence. repeat case_decide; rewrite elem_of_cons in *; tauto.
    + destruct (decide (q = q')) as [-> |Hne].
      * rewrite lookup_insert_eq, decide_True; [done|by left].
      * rewrite lookup_insert_ne, E by done. repeat case_decide; rewrite elem_of_cons in *; tauto.
Qed.

Lemma mkdir_loop_makes parts : forall p st, ts_ok fs st -> Forall proper p ->
  Forall path_ok (prefixes_from p parts) -> is_Some (find_node (ts_nodes fs st) p) ->
  (forall q d, p `prefix_of` q -> q `prefix_of` p ++ parts -> q <> p ++ parts -> find_node (ts_nodes fs st) q <> Some (Reg d)) ->
  exists st', moved fs st (made (ts_nodes fs st) (prefixes_from p parts)) st' /\
    mkdir_loop fs parts (path_of p) st = (Ok (), st').
Proof.
  induction parts as [|x parts IH]; intros p st Hst Hp Hok Hpar Hno.
  { exists st. split; [by apply moved_refl|done]. }
  apply Forall_cons in Hok as [Hx Hok].
  assert (Forall proper (p ++ [x])) as Hpx by apply names_proper, Hx.
  rewrite mkdir_loop_cons by (try done; by apply Forall_app in Hpx as [_ [? _]%Forall_cons]).
  pose proof (mkdir_step p x st Hst Hx Hpar) as Hstep.
  assert (find_node (ts_nodes fs st) p = Some Dir) as Hd.
  { destruct Hpar as [[|d] Hd]; [done|]. exfalso. apply (Hno p d); [done|by apply prefix_app_r| |done].
    intros E. apply (f_equal length) in E. rewrite length_app in E. cbn in E. lia. }
  rewrite Hd in Hstep. destruct Hstep as (st1 & r & Hm & E & Hr).
  destruct (IH (p ++ [x]) st1) as (st2 & Hm2 & E2); [apply Hm|done|done| | |].
  - destruct Hm as [_ -> _]. rewrite find_node_ok by done. unfold made; cbn. destruct (ts_nodes fs st !! _) eqn:E1; [by exists n|].
    rewrite lookup_insert_eq. by exists Dir.
  - intros q d H1 H2 H3. destruct Hm as [_ -> _]. rewrite <- app_assoc in H2, H3. cbn [app] in H2, H3. intros Hq.
    assert (p `prefix_of` q) as Hpq by (etrans; [|exact H1]; by apply prefix_app_r).
    apply (Hno q d); [done..|]. unfold find_node in *. destruct q as [|y q]; [done|]. rewrite lookup_made in Hq.
    destruct (ts_nodes fs st !! (y :: q)) as [m|]; [done|]. by case_decide.
  - exists st2. split.
    + eapply moved_trans in Hm2; [|exact Hm]. rewrite (mv_nodes _ _ _ Hm) in Hm2. exact Hm2.
    + unfold mbind_M. rewrite E. destruct r as [[]|e]; [done|]. by rewrite Hr.
Qed.

(** With no file on the way the missing directories are made (and a file at the
    path itself is passed over). *)
Lemma MkdirAll_unblocked p st : ts_ok fs st -> path_ok p ->
  (forall q, q <> [] -> q `prefix_of` p -> path_ok q) ->
  (forall q d, q `prefix_of` p -> q <> p -> ts_nodes fs st !! q <> Some (Reg d)) ->
  exists st', share_MkdirAll fs (path_of p) st = (Ok (), st') /\ ts_ok fs st' /\
    forall q, ts_nodes fs st' !! q =
      match ts_nodes fs st !! q with
      | Some n => Some n
      | None => if decide (q <> [] /\ q `prefix_of` p) then Some Dir else None
      end.
Proof.
  intros Hst Hp Hpre Hno. unfold share_MkdirAll. rewrite normalize_ok by done.
  rewrite split_on_join; [|apply Hp|by apply proper_no_sep, names_proper, Hp].
  destruct (mkdir_loop_makes p [] st) as (st' & Hm & E); [done|constructor| |by exists Dir| |].
  - apply Forall_forall. intros q Hq. apply elem_of_prefixes in Hq as (_ & H1 & H2). by apply Hpre.
  - intros q d _ H1 H2. destruct q as [|y q]; [done|]. by apply Hno.
  - exists st'. split_and!; [exact E|apply Hm|]. intros q. rewrite (mv_nodes _ _ _ Hm), lookup_made.
    destruct (ts_nodes fs st !! q) as [n|]; [done|]. apply decide_ext. rewrite elem_of_prefixes. cbn [app].
    pose proof (prefix_nil q). tauto.
Qed.

(** A file on the way stops it, with an error and nothing made. *)
Lemma mkdir_loop_blocked parts : forall p st, ts_ok fs st -> Forall proper p ->
  Forall path_ok (prefixes_from p parts) -> is_Some (find_node (ts_nodes fs st) p) ->
  (exists q d, p `prefix_of` q /\ q `prefix_of` p ++ parts /\ q <> p ++ parts /\ find_node (ts_nodes fs st) q = Some (Reg d)) ->
  exists st' e, moved fs st (ts_nodes fs st) st' /\ mkdir_loop fs parts (path_of p) st = (Err e, st').
Proof.
  induction parts as [|x parts IH]; intros p st Hst Hp Hok Hpar (q & d & H1 & H2 & H3 & Hq).
  { rewrite app_nil_r in *. destruct H3. by apply (anti_symm prefix). }
  apply Forall_cons in Hok as [Hx Hok].
  assert (Forall proper (p ++ [x])) as Hpx by apply names_proper, Hx.
  rewrite mkdir_loop_cons by (try done; by apply Forall_app in Hpx as [_ [? _]%Forall_cons]).
  pose proof (mkdir_step p x st Hst Hx Hpar) as Hstep. unfold mbind_M.
  destruct (find_node (ts_nodes fs st) p) as [[|d']|] eqn:Ep; [| |by destruct Hpar].
  2:{ destruct Hstep as (st1 & e & Hm & -> & ->). by exists st1, e. }
  assert (q <> p) as Hne by congruence.
  assert (q ∈ prefixes_from p (x :: parts)) as Hin by by apply elem_of_prefixes.
  assert (p ++ [x] `prefix_of` q) as Hpq.
  { apply elem_of_cons in Hin as [-> |Hin]; [done|]. by apply elem_of_prefixes in Hin as [? _]. }
  destruct q as [|y q]; [by apply prefix_nil_inv in H1 as -> |].
  assert (exists n, ts_nodes fs st !! (p ++ [x]) = Some n) as [n Hn].
  { destruct (decide (p ++ [x] = y :: q)) as [-> |Hd]; [by exists (Reg d)|].
    exists Dir. pose proof (above_there _ (tl_tree st Hst) _ _ _ Hq Hpq Hd) as Ha. by rewrite find_node_ok in Ha. }
  destruct Hstep as (st1 & r & Hm & E & Hr). unfold made in Hm. cbn [foldl] in Hm. rewrite Hn in Hm.
  destruct (IH (p ++ [x]) st1) as (st2 & e & Hm2 & E2); [apply Hm|done|done| | |].
  - rewrite (mv_nodes _ _ _ Hm), find_node_ok by done. by exists n.
  - exists (y :: q), d. rewrite (mv_nodes _ _ _ Hm), <- app_assoc. by split_and!.
  - exists st2, e. split.
    + eapply moved_trans in Hm2; [|exact Hm]. by rewrite (mv_nodes _ _ _ Hm) in Hm2.
    + rewrite E. destruct r as [[]|e']; [done|]. by rewrite Hr.
Qed.

Lemma MkdirAll_blocked p st : ts_ok fs st -> path_ok p ->
  (forall q, q <> [] -> q `prefix_of` p -> path_ok q) ->
  (exists q d, q `prefix_of` p /\ q <> p /\ ts_nodes fs st !! q = Some (Reg d)) ->
  exists st' e, moved fs st (ts_nodes fs st) st' /\ share_MkdirAll fs (path_of p) st = (Err e, st').
Proof.
  intros Hst Hp Hpre (q & d & Hq1 & Hq2 & Hq). unfold share_MkdirAll. rewrite normalize_ok by done.
  rewrite split_on_join; [|apply Hp|by apply proper_no_sep, names_proper, Hp].
  apply (mkdir_loop_blocked p [] st); [done|constructor| |by exists Dir|].
  - apply Forall_forall. intros r Hr. apply elem_of_prefixes in Hr as (_ & H1 & H2). by apply Hpre.
  - exists q, d. split_and!; [apply prefix_nil|done|done|].
    pose proof (tr_path _ (tl_tree st Hst) _ _ Hq) as [[Hne _ _ _] _]. by destruct q.
Qed.

(** C7: [MkdirAll] of a path on a server that keeps a tree, when the path and
    every path above it is one that client and server write alike ([path_ok]:
    not empty, proper names of valid text, no white space at the ends, at most
    30000 bytes).  When neither the path nor one above it is a file, it succeeds:
    afterwards the path and every path above it is a directory, and nothing else
    of the tree has changed.  When one above it is a file, it fails, and the tree
    is what it was.  (The remaining case is not as documented: when the path
    itself is a file it returns nil and makes no directory,
    [MkdirAll_existing_file].) *)
Theorem MkdirAll_makes p st : ts_ok fs st -> path_ok p ->
  (forall q, q <> [] -> q `prefix_of` p -> path_ok q) ->
  ((forall q d, q `prefix_of` p -> ts_nodes fs st !! q <> Some (Reg d)) ->
   exists st', share_MkdirAll fs (path_of p) st = (Ok (), st') /\ ts_ok fs st' /\
     forall q, ts_nodes fs st' !! q =
       if decide (q <> [] /\ q `prefix_of` p) then Some Dir else ts_nodes fs st !! q) /\
  ((exists q d, q `prefix_of` p /\ q <> p /\ ts_nodes fs st !! q = Some (Reg d)) ->
   exists st' e, share_MkdirAll fs (path_of p) st = (Err e, st') /\ ts_ok fs st' /\
     ts_nodes fs st' = ts_nodes fs st).
Proof.
  intros Hst Hp Hpre. split.
  - intros Hno. destruct (MkdirAll_unblocked p st Hst Hp Hpre) as (st' & E & Hst' & Hn);
      [by intros q d Hq _; apply Hno|].
    exists st'. split_and!; [done..|]. intros q. rewrite Hn.
    destruct (ts_nodes fs st !! q) as [[|d]|] eqn:E'; case_decide as Hd; try done.
    by destruct (Hno q d (proj2 Hd)).
  - intros Hf. destruct (MkdirAll_blocked p st Hst Hp Hpre Hf) as (st' & e & Hm & E).
    exists st', e. split_and!; [done|apply Hm..].
Qed.

(** ** [RemoveAll] *)

Lemma lookup_prunes ns p (l : list bytes) q n :
  foldl prune ns ((fun x => p ++ [x]) <$> l) !! q = Some n <->
  ns !! q = Some n /\ forall x, x ∈ l -> ~ p ++ [x] `prefix_of` q.
Proof.
  revert ns. induction l as [|x l IH]; intros ns; cbn.
  - split; [intros H; split; [done|by intros ? ?%elem_of_nil]|tauto].
  - rewrite IH, lookup_prune. split.
    + intros ((H1 & H2) & H3). split; [done|]. intros y Hy. apply elem_of_cons in Hy as [-> |Hy]; [done|by apply H3].
    + intros (H1 & H2). split_and!; [done|apply H2; by left|]. intros y Hy. apply H2. by right.
Qed.

(** With the children pruned, only the directory itself is left. *)
Lemma prunes_directory ns p (l : list (bytes * node)) : tree_ok ns -> path_ok p -> ns !! p = Some Dir ->
  l ≡ₚ children ns p ->
  let ns' := foldl prune ns ((fun x => p ++ [x]) <$> l.*1) in
  ns' !! p = Some Dir /\ children ns' p = [] /\ delete p ns' = prune ns p.
Proof.
  intros Hns Hp Hdir Hl ns'.
  assert (forall q n, ns !! q = Some n -> p `prefix_of` q -> p <> q -> exists x, x ∈ l.*1 /\ p ++ [x] `prefix_of` q) as Hbelow.
  { intros q n Hq Hpre Hne. destruct (below_child ns p q n Hns Hq Hpre Hne) as (x & m & Hm & Hx). exists x.
    split; [|done]. apply elem_of_children in Hm. rewrite <- Hl in Hm. apply list_elem_of_fmap. by exists (x, m). }
  split_and!.
  - apply lookup_prunes. split; [done|]. intros x _. apply prefix_snoc_not.
  - apply children_nil. intros x. apply eq_None_not_Some. intros [n Hn]. apply lookup_prunes in Hn as [Hn Hno].
    apply elem_of_children in Hn. rewrite <- Hl in Hn. apply (Hno x); [|done]. apply list_elem_of_fmap. by exists (x, n).
  - apply map_eq. intros q. apply option_eq. intros n. rewrite lookup_delete_Some, lookup_prune.
    unfold ns'. rewrite lookup_prunes. split.
    + intros (Hne & Hq & Hno). split; [done|]. intros Hpre.
      destruct (Hbelow q n Hq Hpre Hne) as (x & Hx & Hpx). by apply (Hno x Hx).
    + intros (Hq & Hno). split_and!; [by intros -> |done|]. intros x _ Hpx. apply Hno. etrans; [|exact Hpx].
      by apply prefix_app_r.
Qed.

Lemma size_prune ns p : (size (prune ns p) <= size ns)%nat.
Proof. apply map_subseteq_size, map_filter_subseteq. Qed.

Lemma weight_prune ns p q : (weight (prune ns p) q <= weight ns q)%nat.
Proof.
  unfold weight. apply Nat.add_le_mono_r. apply map_subseteq_size, map_subseteq_spec. intros r n.
  rewrite !lookup_subtree, lookup_prune. tauto.
Qed.

(** Removing the children one after the other. *)
Lemma remove_each fuel find_fuel p (l : list (bytes * node)) :
  (forall q st, ts_ok fs st -> path_ok q -> (weight (ts_nodes fs st) q < fuel)%nat -> (size (ts_nodes fs st) + 2 <= find_fuel)%nat ->
     exists st', moved fs st (prune (ts_nodes fs st) q) st' /\ share_RemoveAll fuel find_fuel fs (path_of q) st = (Ok (), st')) ->
  forall st, ts_ok fs st -> Forall proper p -> Forall (fun x => path_ok (p ++ [x]) /\ (weight (ts_nodes fs st) (p ++ [x]) < fuel)%nat) l.*1 ->
  (size (ts_nodes fs st) + 2 <= find_fuel)%nat ->
  exists st', moved fs st (foldl prune (ts_nodes fs st) ((fun x => p ++ [x]) <$> l.*1)) st' /\
    for_each (fun entry => share_RemoveAll fuel find_fuel fs (child_path (path_of p) (FileStat_Name entry)))
      ((fun '(x, n) => info_of [x] n) <$> l) st = (Ok (), st').
Proof.
  intros Hrec. induction l as [|[x n] l IH]; intros st Hst Hp Hl Hff.
  { exists st. split; [by apply moved_refl|done]. }
  apply Forall_cons in Hl as [[Hx Hw] Hl]. cbn in Hx, Hw. cbn [fmap list_fmap for_each]. unfold mbind_M.
  change (FileStat_Name (info_of [x] n)) with x. rewrite child_path_of by done.
  destruct (Hrec (p ++ [x]) st) as (st1 & Hm & ->); [done..|].
  pose proof (mv_nodes _ _ _ Hm) as En. pose proof (size_prune (ts_nodes fs st) (p ++ [x])).
  destruct (IH st1) as (st2 & Hm2 & E2); [apply Hm|done| |rewrite En; lia|].
  - eapply Forall_impl; [exact Hl|]. intros y [Hy Hwy]. split; [done|]. rewrite En.
    pose proof (weight_prune (ts_nodes fs st) (p ++ [x]) (p ++ [y])). lia.
  - exists st2. split; [|done]. eapply moved_trans in Hm2; [|exact Hm]. by rewrite En in Hm2.
Qed.

Lemma RemoveAll_step fuel find_fuel p st : ts_ok fs st -> path_ok p ->
  exists st', moved fs st (ts_nodes fs st) st' /\
  match ts_nodes fs st !! p with
  | None => share_RemoveAll (S fuel) find_fuel fs (path_of p) st = (Ok (), st')
  | Some (Reg _) => share_RemoveAll (S fuel) find_fuel fs (path_of p) st = share_Remove fs (path_of p) st'
  | Some Dir => share_RemoveAll (S fuel) find_fuel fs (path_of p) st =
      (let* entries := map_err (PathError "remove" (path_of p)) (share_ReadDir find_fuel fs (path_of p)) in
       let* _ := for_each (fun entry => share_RemoveAll fuel find_fuel fs (child_path (path_of p) (FileStat_Name entry))) entries in
       share_Remove fs (path_of p)) st'
  end.
Proof.
  intros Hst Hp. cbn [share_RemoveAll]. rewrite normalize_ok by done.
  destruct (tl_stat p st Hst Hp) as (st1 & Hm1 & E1).
  destruct (tl_stat p st1 (mv_ok _ _ _ Hm1) Hp) as (st2 & Hm2 & E2). rewrite (mv_nodes _ _ _ Hm1) in Hm2, E2.
  destruct (ts_nodes fs st !! p) as [[|d]|]; [exists st2|exists st2|exists st1];
    (split; [done || by eapply moved_trans|]); unfold share_Exists, share_IsDir;
    unfold mbind_M at 1, map_err at 1; unfold mbind_M at 1, attempt at 1; rewrite E1; [..|reflexivity];
    unfold ret at 1; cbn [negb]; unfold mbind_M at 1, map_err at 1; unfold mbind_M at 1, attempt at 1;
    rewrite E2; reflexivity.
Qed.

Lemma RemoveAll_prunes_aux find_fuel fuel : forall p st, ts_ok fs st -> path_ok p ->
  (weight (ts_nodes fs st) p < fuel)%nat -> (size (ts_nodes fs st) + 2 <= find_fuel)%nat ->
  exists st', moved fs st (prune (ts_nodes fs st) p) st' /\ share_RemoveAll fuel find_fuel fs (path_of p) st = (Ok (), st').
Proof.
  induction fuel as [|fuel IH]; [lia|]. intros p st Hst Hp Hw Hff. pose proof (tl_tree st Hst) as Hns.
  destruct (RemoveAll_step fuel find_fuel p st Hst Hp) as (st1 & Hm & E). pose proof (mv_nodes _ _ _ Hm) as En.
  destruct (ts_nodes fs st !! p) as [[|d]|] eqn:Ep.
  - rewrite E. clear E.
    destruct (tl_readdir p st1 find_fuel) as (l & st2 & Hm2 & Hl & E2); [apply Hm|by right|by rewrite En, find_node_ok|by rewrite En|].
    rewrite En in Hm2, Hl. unfold mbind_M at 1, map_err. rewrite E2. unfold mbind_M.
    pose proof (mv_nodes _ _ _ Hm2) as En2.
    destruct (remove_each fuel find_fuel p l IH st2) as (st3 & Hm3 & E3); [apply Hm2|apply names_proper, Hp| |by rewrite En2|].
    { apply Forall_forall. intros x Hx. apply list_elem_of_fmap in Hx as ([y n] & -> & Hy). cbn [fst].
      rewrite Hl in Hy. apply elem_of_children in Hy. split; [by eapply tr_path in Hy as [? _]|].
      rewrite En2. pose proof (weight_child (ts_nodes fs st) p y Dir ltac:(by rewrite find_node_ok)). lia. }
    rewrite E3. rewrite En2 in Hm3. destruct (prunes_directory (ts_nodes fs st) p l Hns Hp Ep Hl) as (P1 & P2 & P3).
    destruct (tl_remove p Dir st3) as (st4 & Hm4 & E4); [apply Hm3|done|by rewrite (mv_nodes _ _ _ Hm3)|by rewrite (mv_nodes _ _ _ Hm3)|].
    exists st4. split; [|done]. rewrite <- P3. rewrite (mv_nodes _ _ _ Hm3) in Hm4.
    by eapply moved_trans, moved_trans, moved_trans.
  - rewrite E. destruct (tl_remove p (Reg d) st1) as (st2 & Hm2 & E2); [apply Hm|done|by rewrite En|done|].
    exists st2. split; [|done]. rewrite En in Hm2. erewrite prune_file by done. by eapply moved_trans.
  - exists st1. split; [|done]. by rewrite prune_missing.
Qed.

(** C5: [RemoveAll] removes a path and everything under it, and nothing else; a
    path that is not there is no error.  It ends: fuel for as many levels as there
    are files under the path, and searches for as many files as there are, are
    enough. *)
Theorem RemoveAll_prunes p st fuel find_fuel : ts_ok fs st -> path_ok p ->
  (size (subtree (ts_nodes fs st) p) < fuel)%nat -> (size (ts_nodes fs st) + 2 <= find_fuel)%nat ->
  exists st', share_RemoveAll fuel find_fuel fs (path_of p) st = (Ok (), st') /\ ts_ok fs st' /\
    ts_nodes fs st' = prune (ts_nodes fs st) p.
Proof.
  intros Hst Hp Hw Hff. destruct (RemoveAll_prunes_aux find_fuel fuel p st) as (st' & Hm & E); [done|done| |done|].
  - unfold weight. rewrite bool_decide_false by apply Hp. lia.
  - exists st'. split_and!; [done|apply Hm..].
Qed.
(** ** [Walk] *)

(** A callback that leaves a note of every file it is called with, skips the
    directories that [skip] names, and passes on the errors it is given. *)
Definition visit (skip : bytes -> bool) : @WalkFunc T := fun path info err st =>
  match err, info with
  | Some e, _ => (Err e, st)
  | None, Some info => (if FileStat_IsDir info && skip path then Err SkipDir else Ok (), ts_note fs (path, info) st)
  | None, None => (Ok (), st)
  end.

Definition entries (ns : nodes) (v : list path) : list (bytes * FileInfo) :=
  (fun q => (path_of q, info_of q (default Dir (find_node ns q)))) <$> v.

(** The state after a walk over [v]. *)
Record noted (st : T) (v : list path) (st' : T) : Prop := {
  nd_ok : ts_ok fs st';
  nd_nodes : ts_nodes fs st' = ts_nodes fs st;
  nd_notes : ts_notes fs st' = ts_notes fs st ++ entries (ts_nodes fs st) v;
}.

Lemma noted_trans st v st1 w st2 : noted st v st1 -> noted st1 w st2 -> noted st (v ++ w) st2.
Proof.
  intros [_ En Ev] [Hok En2 Ew]. split; [done|congruence|]. unfold entries in *.
  by rewrite Ew, Ev, En, fmap_app, app_assoc.
Qed.

Lemma noted_moved st st1 v st2 : moved fs st (ts_nodes fs st) st1 -> noted st1 v st2 -> noted st v st2.
Proof. intros [_ En Ev] [Hok En2 Ew]. split; [done|congruence|]. by rewrite Ew, Ev, En. Qed.

Lemma noted_one p n st : ts_ok fs st -> find_node (ts_nodes fs st) p = Some n ->
  noted st [p] (ts_note fs (path_of p, info_of p n) st).
Proof. intros Hst Hn. destruct (tl_note (path_of p, info_of p n) st Hst) as (H1 & H2 & H3). split; [done..|]. by rewrite H3; cbn; rewrite Hn. Qed.

Lemma walk_each fuel find_fuel skip p (l : list (bytes * node)) :
  (forall q n st, ts_ok fs st -> dir_path q -> find_node (ts_nodes fs st) q = Some n -> (weight (ts_nodes fs st) q < fuel)%nat ->
     (size (ts_nodes fs st) + 2 <= find_fuel)%nat ->
     exists v st', walked (ts_nodes fs st) skip q n v /\ noted st v st' /\
       walk fuel find_fuel fs (path_of q) (info_of q n) (visit skip) st = (Ok (), st')) ->
  forall st, ts_ok fs st -> Forall proper p -> (size (ts_nodes fs st) + 2 <= find_fuel)%nat ->
  (forall x n, (x, n) ∈ l -> ts_nodes fs st !! (p ++ [x]) = Some n /\ (weight (ts_nodes fs st) (p ++ [x]) < fuel)%nat) ->
  exists v st', walked_children (ts_nodes fs st) skip p l v /\ noted st v st' /\
    for_each (fun entry =>
      let* walked := attempt (walk fuel find_fuel fs (child_path (path_of p) (FileStat_Name entry)) entry (visit skip)) in
      match walked with
      | inr err => if negb (FileStat_IsDir entry) || negb (bool_decide (err = SkipDir)) then fail err else ret ()
      | inl _ => ret ()
      end) ((fun '(x, n) => info_of [x] n) <$> l) st = (Ok (), st').
Proof.
  intros Hrec. induction l as [|[x n] l IH]; intros st Hst Hp Hff Hl.
  { exists [], st. split_and!; [constructor| |done]. split; [done..|]. by rewrite app_nil_r. }
  destruct (Hl x n) as [Hn Hw]; [by left|]. destruct (tr_path _ (tl_tree st Hst) _ _ Hn) as [Hx _].
  destruct (Hrec (p ++ [x]) n st) as (v & st1 & Hv & Hm & E); [done|by right|by rewrite find_node_ok|done|done|].
  pose proof (nd_nodes _ _ _ Hm) as En.
  destruct (IH st1) as (w & st2 & Hw' & Hm2 & E2); [apply Hm|done|by rewrite En| |].
  { intros y m Hy. rewrite En. apply Hl. by right. }
  exists (v ++ w), st2. rewrite En in Hw'. split_and!; [by constructor|by eapply noted_trans|].
  cbn [fmap list_fmap for_each]. unfold mbind_M at 1. unfold mbind_M at 1, attempt at 1.
  change (FileStat_Name (info_of [x] n)) with x. rewrite child_path_of by done.
  assert (info_of [x] n = info_of (p ++ [x]) n) as -> by (unfold info_of; by rewrite last_snoc).
  rewrite E. exact E2.
Qed.

Lemma walk_notes find_fuel skip fuel : forall p n st, ts_ok fs st -> dir_path p -> find_node (ts_nodes fs st) p = Some n ->
  (weight (ts_nodes fs st) p < fuel)%nat -> (size (ts_nodes fs st) + 2 <= find_fuel)%nat ->
  exists v st', walked (ts_nodes fs st) skip p n v /\ noted st v st' /\
    walk fuel find_fuel fs (path_of p) (info_of p n) (visit skip) st = (Ok (), st').
Proof.
  induction fuel as [|fuel IH]; [lia|]. intros p n st Hst Hp Hn Hw Hff.
  pose proof (noted_one p n st Hst Hn) as Hm1. set (st1 := ts_note fs _ st) in *. pose proof (nd_nodes _ _ _ Hm1) as En.
  assert (visit skip (path_of p) (Some (info_of p n)) None st =
    (if bool_decide (n = Dir) && skip (path_of p) then Err SkipDir else Ok (), st1)) as Ev by by destruct n.
  cbn [walk]. unfold mbind_M at 1, attempt at 1. rewrite Ev. destruct n as [|d].
  2:{ exists [p], st1. split_and!; [constructor|done|reflexivity]. }
  change (bool_decide (Dir = Dir)) with true. change (FileStat_IsDir (info_of p Dir)) with true. cbn [andb negb].
  destruct (skip (path_of p)) eqn:Hskip; cbv iota.
  { exists [p], st1. split_and!; [by constructor|done|reflexivity]. }
  destruct (tl_readdir p st1 find_fuel) as (l & st2 & Hm2 & Hl & E2); [apply Hm1|done|by rewrite En|by rewrite En|].
  unfold mbind_M at 1, attempt at 1. rewrite E2. rewrite En in Hl. pose proof (mv_nodes _ _ _ Hm2) as En2. rewrite En in En2.
  destruct (walk_each fuel find_fuel skip p l) with (st := st2) as (v & st3 & Hv & Hm3 & E3).
  - intros q n' st' Hst' Hq. by apply IH.
  - apply Hm2.
  - destruct Hp as [-> |Hp]; [constructor|apply names_proper, Hp].
  - by rewrite En2.
  - intros x m Hx. rewrite Hl in Hx. apply elem_of_children in Hx. rewrite En2. split; [done|].
    pose proof (weight_child (ts_nodes fs st) p x Dir Hn). lia.
  - exists (p :: v), st3. rewrite En2 in Hv. split_and!; [by econstructor| |exact E3].
    eapply (noted_trans _ [p]); [exact Hm1|]. by eapply noted_moved.
Qed.

(** C6: [Walk] calls its function once with every file under the root it starts
    from that is not under a directory the function skips, with what the server
    says of that file, a directory before what is in it; it changes nothing else,
    and it ends. *)
Theorem Walk_visits skip p n st fuel find_fuel : ts_ok fs st -> dir_path p -> find_node (ts_nodes fs st) p = Some n ->
  (size (ts_nodes fs st) + 1 < fuel)%nat -> (size (ts_nodes fs st) + 2 <= find_fuel)%nat ->
  exists v st', share_Walk fuel find_fuel fs (path_of p) (visit skip) st = (Ok (), st') /\
    ts_ok fs st' /\ ts_nodes fs st' = ts_nodes fs st /\
    ts_notes fs st' = ts_notes fs st ++ entries (ts_nodes fs st) v /\
    (forall q, q ∈ v <-> reached (ts_nodes fs st) skip p q) /\ parents_first v.
Proof.
  intros Hst Hp Hn Hw Hff.
  assert (weight (ts_nodes fs st) p < fuel)%nat as Hw'.
  { assert (size (subtree (ts_nodes fs st) p) <= size (ts_nodes fs st))%nat by apply map_subseteq_size, map_filter_subseteq.
    unfold weight. case_bool_decide; lia. }
  assert (exists v st', walked (ts_nodes fs st) skip p n v /\ noted st v st' /\
    share_Walk fuel find_fuel fs (path_of p) (visit skip) st = (Ok (), st')) as (v & st' & Hv & [] & E).
  2:{ exists v, st'. destruct (proj1 (walked_reaches _ skip (tl_tree st Hst)) p n v Hv Hn) as [H1 H2].
      by split_and!. }
  assert (forall i st0, ts_ok fs st0 -> ts_nodes fs st0 = ts_nodes fs st -> i = info_of p n ->
    exists v st', walked (ts_nodes fs st) skip p n v /\ noted st0 v st' /\
      unless_skipped (walk fuel find_fuel fs (path_of p) i (visit skip)) st0 = (Ok (), st')) as Hwalk.
  { intros i st0 Hst0 En0 ->. destruct (walk_notes find_fuel skip fuel p n st0) as (v & st' & Hv & Hm & E);
      [done|done|by rewrite En0|by rewrite En0|by rewrite En0|]. rewrite En0 in Hv. exists v, st'. split_and!; [done..|].
    unfold unless_skipped, mbind_M, attempt. by rewrite E. }
  unfold share_Walk. destruct Hp as [-> |Hp].
  - assert (normalize fs (path_of []) = []) as -> by (unfold normalize; rewrite normalizePath_eq; by destruct (sh_normalize fs)).
    injection Hn as <-. by apply Hwalk.
  - rewrite normalize_ok by done.
    assert (path_of p <> str ".") as Hdot by by apply path_of_dot.
    rewrite (bool_decide_false _ Hdot), (bool_decide_false (path_of p = [])) by by apply path_ok_nonempty.
    destruct (tl_stat p st Hst Hp) as (st1 & Hm1 & E1). unfold mbind_M at 1, attempt at 1. rewrite E1.
    rewrite find_node_ok in Hn by done. rewrite Hn. destruct (Hwalk (info_of p n) st1) as (v & st' & Hv & Hm & E);
      [apply Hm1|apply Hm1|done|]. exists v, st'. split_and!; [done|by eapply noted_moved|done].
Qed.
End specs.

(** ** On a server *)

Lemma MkdirAll_makes_witness :
  (exists st', share_MkdirAll example_share (str "a\n\m") (example_server example_nodes) = (Ok (), st') /\
    server_ok example_share st' /\
    sv_nodes st' !! [str "a"; str "n"; str "m"] = Some Dir /\ sv_nodes st' !! [str "a"; str "n"] = Some Dir /\
    sv_nodes st' !! [str "f"] = Some (Reg [])) /\
  (exists st' e, share_MkdirAll example_share (str "f\m") (example_server example_nodes) = (Err e, st') /\
    sv_nodes st' = example_nodes).
Proof.
  change (str "a\n\m") with (path_of [str "a"; str "n"; str "m"]).
  change (str "f\m") with (path_of [str "f"; str "m"]).
  assert (server_ok example_share (example_server example_nodes)) as Hok
    by apply example_server_ok, example_nodes_ok. split.
  - destruct (proj1 (MkdirAll_makes (fs := example_share) (ts := share_tree_server example_share)
      [str "a"; str "n"; str "m"] (example_server example_nodes) Hok ltac:(by_deciding) ltac:(apply each_prefix; by_deciding)))
      as (st' & E & Hst & Hn);
      [|exists st'; split_and!; [exact E|exact Hst|apply (eq_trans (Hn _)); by vm_compute..]].
    intros q d Hq. destruct q as [|x q]; [done|]. revert d.
    apply (each_prefix (fun q => forall d, example_nodes !! q <> Some (Reg d))
      [str "a"; str "n"; str "m"]); [|done|done].
    repeat constructor; intros d; vm_compute; congruence.
  - destruct (proj2 (MkdirAll_makes (fs := example_share) (ts := share_tree_server example_share)
      [str "f"; str "m"] (example_server example_nodes) Hok ltac:(by_deciding) ltac:(apply each_prefix; by_deciding)))
      as (st' & e & E & _ & Hn); [|exists st', e; split; [exact E|exact Hn]].
    exists [str "f"], []. split; [by exists [str "m"]|]. split; [discriminate|by vm_compute].
Defined.

(** [MkdirAll] of a path that is a file is no error. *)
Lemma MkdirAll_existing_file :
  (share_MkdirAll example_share (str "f") (example_server example_nodes)).1 = Ok () /\
  example_nodes !! [str "f"] = Some (Reg []).
Proof. by vm_compute. Qed.

Lemma RemoveAll_prunes_witness :
  exists st', share_RemoveAll 7 8 example_share (str "a") (example_server example_nodes) = (Ok (), st') /\
    server_ok example_share st' /\ sv_nodes st' = prune example_nodes [str "a"].
Proof.
  change (str "a") with (path_of [str "a"]) at 1.
  apply (RemoveAll_prunes (fs := example_share) (ts := share_tree_server example_share) [str "a"] (example_server example_nodes) 7 8).
  - apply example_server_ok, example_nodes_ok.
  - by_deciding.
  - by_deciding.
  - by_deciding.
Defined.

Lemma Walk_visits_witness :
  exists v st', share_Walk 8 8 example_share [] (visit (fs := example_share) (fun s => bool_decide (s = str "a\b")))
      (example_server example_nodes) = (Ok (), st') /\
    server_ok example_share st' /\ sv_nodes st' = example_nodes /\
    sv_notes st' = entries example_nodes v /\
    (forall q, q ∈ v <-> reached example_nodes (fun s => bool_decide (s = str "a\b")) [] q) /\ parents_first v.
Proof.
  apply (Walk_visits (fs := example_share) (ts := share_tree_server example_share) _ [] Dir (example_server example_nodes) 8 8).
  - apply example_server_ok, example_nodes_ok.
  - by left.
  - reflexivity.
  - by_deciding.
  - by_deciding.
Defined.
