(* ===== verification/GlobSpec.v ===== *)
(** * Glob: what it finds

    [Glob] on a server of a tree ([TreeServer]): the paths of the tree whose
    names match the segments of the pattern one by one, sorted. *)

From S2P Require Export TreeSpec.

(** ** Patterns by their segments *)

(** A segment of the grammar of patterns. *)
Definition segment_ok (seg : bytes) : Prop := exists ts, forallb wf_term ts = true /\ seg = print ts.

(** A name that a segment takes. *)
Definition hit (norm : bool) (seg x : bytes) : bool :=
  match Match norm seg x with Ok b => b | _ => false end.
Definition globbed (norm : bool) (segs p : path) : Prop := Forall2 (fun seg x => hit norm seg x = true) segs p.

Lemma normPattern_proper norm p : Forall proper p -> normPattern norm (path_of p) = path_of p.
Proof.
  intros Hp. unfold normPattern. destruct norm; [|done]. cbn [negb].
  assert (to_backslash <$> path_of p = path_of p) as ->.
  { assert (slash_byte ∉ path_of p) as Hs.
    { apply not_in_path_of; [done|]. eapply Forall_impl; [exact Hp|]. unfold proper. naive_solver. }
    revert Hs. generalize (path_of p). clear. intros s. induction s as [|c s IH]; [done|]. intros Hs. cbn.
    rewrite IH by (intros H; apply Hs; by right). unfold to_backslash. rewrite isb_ne; [done|].
    intros ->. apply Hs. by left. }
  destruct p as [|c p]; [done|]. apply Forall_cons in Hp as [(Hne & Hdot & _ & Hsep & _) _].
  destruct c as [|a c]; [done|].
  destruct c as [|b c].
  - destruct p as [|d p]; [done|]. change (path_of ([a] :: d :: p)) with (a :: sep_byte :: path_of (d :: p)). cbn [drop_dots].
    rewrite (isb_ne a Byte.x2e) by (intros ->; by apply Hdot). done.
  - assert (exists t, path_of ((a :: b :: c) :: p) = a :: b :: t) as [t ->] by (destruct p; by eexists).
    cbn [drop_dots]. rewrite (isb_ne b Byte.x5c), andb_false_r; [done|]. intros ->. apply Hsep. right. by left.
Qed.

Lemma segment_total norm seg x : proper seg -> segment_ok seg -> Match norm seg x = Ok (hit norm seg x).
Proof.
  intros Hp (ts & Hts & E). unfold hit. pose proof (normPattern_proper norm [seg]) as En.
  change (path_of [seg]) with seg in En. unfold Match. rewrite En by (by constructor). subst seg.
  destruct (Match_loop_total (length (print ts)) ts x Hts (length_print ts)) as [b Hb]. by rewrite Hb.
Qed.

Lemma path_segments_ok segs : Forall segment_ok segs -> segment_ok (path_of segs).
Proof.
  induction 1 as [|seg segs (ts & Hts & ->) _ (us & Hus & IH)]; [by exists []|].
  destruct segs as [|d segs]; [by exists ts|].
  exists (ts ++ Lit sep_byte :: us). split; [rewrite forallb_app, Hts; cbn; done|].
  change (path_of (print ts :: d :: segs)) with (print ts ++ sep_byte :: path_of (d :: segs)).
  by rewrite IH, print_app.
Qed.

Lemma pattern_total norm segs x : Forall proper segs -> Forall segment_ok segs ->
  exists b, Match norm (path_of segs) x = Ok b.
Proof.
  intros Hp Hs. unfold Match. rewrite normPattern_proper by done.
  destruct (path_segments_ok segs Hs) as (ts & Hts & ->). apply Match_loop_total; [done|apply length_print].
Qed.

Lemma hit_literal norm seg x : proper seg -> hasGlobMeta seg = false -> hit norm seg x = bool_decide (x = seg).
Proof.
  intros Hp Hm. unfold hit, Match. pose proof (normPattern_proper norm [seg] ltac:(by constructor)) as En.
  change (path_of [seg]) with seg in En. rewrite En. pose proof (Match_literal seg x Hm) as H. unfold Match, normPattern in H.
  cbn [negb] in H. by rewrite H.
Qed.

Lemma hasGlobMeta_path segs : hasGlobMeta (path_of segs) = existsb hasGlobMeta segs.
Proof.
  induction segs as [|seg segs IH]; [done|]. destruct segs as [|d segs]; [cbn; by rewrite orb_false_r|].
  change (path_of (seg :: d :: segs)) with (seg ++ sep_byte :: path_of (d :: segs)).
  unfold hasGlobMeta at 1. rewrite existsb_app. cbn [existsb]. fold (hasGlobMeta (path_of (d :: segs))). rewrite IH. done.
Qed.

Lemma globbed_literal norm segs p : Forall proper segs -> existsb hasGlobMeta segs = false ->
  globbed norm segs p <-> p = segs.
Proof.
  intros Hp Hm. unfold globbed. revert p. induction Hp as [|seg segs Hseg Hp IH]; intros p.
  - split; [by intros ->%Forall2_nil_inv_l|intros ->; constructor].
  - cbn in Hm. apply orb_false_iff in Hm as [Hm Hms]. split.
    + intros (x & q & Hx & Hq & ->)%Forall2_cons_inv_l. rewrite hit_literal in Hx by done.
      apply bool_decide_eq_true in Hx as ->. f_equal. by apply IH.
    + intros ->. constructor; [rewrite hit_literal by done; by apply bool_decide_eq_true|by apply IH].
Qed.

Lemma globbed_snoc norm segs seg q x : globbed norm (segs ++ [seg]) (q ++ [x]) <-> globbed norm segs q /\ hit norm seg x = true.
Proof.
  unfold globbed. split.
  - intros H. assert (length segs = length q) as Hl.
    { apply Forall2_length in H. rewrite !length_app in H. cbn in H. lia. }
    apply Forall2_app_inv in H as [H1 H2]; [|done]. split; [done|]. by apply Forall2_cons in H2 as [? _].
  - intros [H1 H2]. by apply Forall2_app; [|constructor].
Qed.

Lemma globbed_snoc_inv norm segs seg p : globbed norm (segs ++ [seg]) p -> exists q x, p = q ++ [x].
Proof.
  intros H%Forall2_length. rewrite length_app in H. cbn in H. destruct p as [|y p] using rev_ind; [cbn in H; lia|]. by exists p, y.
Qed.

(** ** Sorting *)

Lemma string_le_total a : forall b, string_le a b = true \/ string_le b a = true.
Proof.
  induction a as [|x a IH]; intros [|y b]; cbn; [by left..|by right|]. rewrite (Z.eqb_sym (u8 y)).
  destruct (u8 x =? u8 y) eqn:E; [apply IH|]. apply Z.eqb_neq in E. rewrite !Z.ltb_lt. lia.
Qed.
#[export] Instance string_order_total : Total string_order.
Proof. intros a b. apply string_le_total. Qed.

#[export] Instance string_order_trans : Transitive string_order.
Proof.
  unfold string_order. intros a. induction a as [|x a IH]; intros [|y b] [|z c]; cbn; try done.
  destruct (u8 x =? u8 y) eqn:E1, (u8 y =? u8 z) eqn:E2; rewrite ?Z.eqb_eq, ?Z.eqb_neq in *.
  - rewrite E1, E2, Z.eqb_refl. apply IH.
  - rewrite E1. rewrite (proj2 (Z.eqb_neq _ _)) by done. done.
  - rewrite <- E2. rewrite (proj2 (Z.eqb_neq _ _)) by done. done.
  - rewrite !Z.ltb_lt. intros. rewrite (proj2 (Z.eqb_neq _ _)) by lia. apply Z.ltb_lt. lia.
Qed.

Lemma sort_Strings_sorted l : StronglySorted string_order (sort_Strings l).
Proof. apply (StronglySorted_merge_sort string_order). Qed.

Lemma sort_Strings_perm l : sort_Strings l ≡ₚ l.
Proof. apply (merge_sort_Permutation string_order). Qed.

Lemma path_of_inj p q : Forall proper p -> Forall proper q -> path_of p = path_of q -> p = q.
Proof. intros Hp Hq E. rewrite <- (comps_path_of p), <- (comps_path_of q) by done. by rewrite E. Qed.

(** ** On a server of a tree *)

(** The files of a directory that a segment takes. *)
Definition hits_in (norm : bool) (ns : nodes) (seg : bytes) (d : path) : list path :=
  (fun x => d ++ [x]) <$> filter (fun x => hit norm seg x = true) (children ns d).*1.

Lemma elem_of_hits norm ns seg d q : q ∈ hits_in norm ns seg d <->
  exists x, q = d ++ [x] /\ is_Some (ns !! q) /\ hit norm seg x = true.
Proof.
  unfold hits_in. rewrite list_elem_of_fmap. setoid_rewrite list_elem_of_filter. setoid_rewrite list_elem_of_fmap. split.
  - intros (x & -> & Hx & [y n] & -> & Hy). apply elem_of_children in Hy. exists y. split_and!; [done|by exists n|done].
  - intros (x & -> & [n Hn] & Hx). exists x. split_and!; [done..|]. exists (x, n). split; [done|by apply elem_of_children].
Qed.

Lemma NoDup_hits norm ns seg d : NoDup (hits_in norm ns seg d).
Proof.
  unfold hits_in. apply (NoDup_fmap_2_strong _ _); [|apply NoDup_filter, NoDup_children].
  intros x y _ _ E. apply app_inj_tail in E. tauto.
Qed.

Lemma NoDup_all_hits norm ns seg ds : NoDup ds -> NoDup (ds ≫= hits_in norm ns seg).
Proof.
  intros Hd. apply NoDup_bind; [|intros; apply NoDup_hits|done].
  intros d1 d2 q _ _ (x & -> & _)%elem_of_hits (y & E & _)%elem_of_hits. by apply app_inj_tail in E as [-> _].
Qed.

Lemma hits_not_dir norm ns seg d : tree_ok ns -> find_node ns d <> Some Dir -> hits_in norm ns seg d = [].
Proof.
  intros Hns Hd. destruct (hits_in norm ns seg d) as [|q l] eqn:E; [done|].
  assert (q ∈ hits_in norm ns seg d) as (x & -> & [n Hn] & _)%elem_of_hits by (rewrite E; by left).
  apply (tr_parent ns Hns) in Hn. by rewrite parent_snoc in Hn.
Qed.

Lemma glob_entries_spec norm dir seg (l : list (bytes * node)) : proper seg -> segment_ok seg -> forall ms,
  glob_entries norm dir seg ((fun '(x, n) => info_of [x] n) <$> l) ms =
  Ok (ms ++ (joinGlob dir <$> filter (fun x => hit norm seg x = true) l.*1), None).
Proof.
  intros Hp Hs. induction l as [|[x n] l IH]; intros ms; [by rewrite app_nil_r|]. cbn [fmap list_fmap glob_entries].
  change (FileStat_Name (info_of [x] n)) with x. rewrite segment_total by done. unfold fmap in IH. rewrite IH.
  cbn [fst]. rewrite filter_cons. destruct (hit norm seg x); [rewrite decide_True by done|by rewrite decide_False by done].
  cbn [fmap list_fmap]. by rewrite <- app_assoc.
Qed.

(** The directory as [globWith] passes it on. *)
Definition glob_dir (d : path) : bytes := if bool_decide (d = []) then str "." else path_of d.

Lemma split_last pre seg : Forall proper (pre ++ [seg]) ->
  exists dir, splitLastSep (path_of (pre ++ [seg])) = (dir, seg) /\ cleanGlobDir dir = glob_dir pre.
Proof.
  intros Hp. apply Forall_app in Hp as [Hpre [(_ & _ & _ & Hsep & _) _]%Forall_cons]. unfold splitLastSep, glob_dir.
  destruct pre as [|y pre].
  - change (path_of ([] ++ [seg])) with seg. rewrite (proj2 (last_index_None seg sep_byte) Hsep). by exists [].
  - rewrite path_of_snoc by done. rewrite last_index_app by done. set (d := path_of (y :: pre)).
    assert (d <> []) as Hd by (by apply path_of_nonempty).
    assert (length (d ++ [sep_byte]) = S (length d)) as Hl by (rewrite length_app; cbn; lia).
    exists (d ++ [sep_byte]). split.
    + change (d ++ sep_byte :: seg) with (d ++ [sep_byte] ++ seg). rewrite app_assoc.
      by rewrite take_app_length', drop_app_length' by lia.
    + unfold cleanGlobDir. rewrite bool_decide_false by (by destruct d).
      assert (d ++ [sep_byte] <> [sep_byte]) as Hnot.
      { intros E. apply Hd, nil_length_inv. apply (f_equal length) in E. rewrite Hl in E. change (length [sep_byte]) with 1%nat in E. lia. }
      rewrite (bool_decide_false _ Hnot).
      rewrite bool_decide_false by done. rewrite take_app_length' by lia. done.
Qed.

Lemma hasGlobMeta_dir pre : hasGlobMeta (glob_dir pre) = existsb hasGlobMeta pre.
Proof. unfold glob_dir. case_bool_decide as E; [by subst|apply hasGlobMeta_path]. Qed.

Section glob.
Context {T : Type} {tr : Transport T} {cx : Ctx T} {pl : Pipeline T} {fs : Share} {ts : TreeServer T fs} {laws : TreeLaws T}.
Context (find_fuel : nat).
Implicit Types st : T.
Let norm := sh_normalize fs.
#[local] Instance lister : GlobLister T := share_lister find_fuel fs.

(** What has been found so far: sorted, and the paths [L]. *)
Record finds (ms : list bytes) (L : list path) : Prop := {
  fd_sorted : StronglySorted string_order ms;
  fd_paths : ms ≡ₚ path_of <$> L;
}.

Lemma globDir_finds d seg ms L st : ts_ok fs st -> dir_path d -> proper seg -> segment_ok seg ->
  (size (ts_nodes fs st) + 2 <= find_fuel)%nat -> finds ms L ->
  exists ms' st', moved fs st (ts_nodes fs st) st' /\ finds ms' (L ++ hits_in norm (ts_nodes fs st) seg d) /\
    globDir norm (glob_dir d) seg ms st = (Ok (ms', None), st').
Proof.
  intros Hst Hd Hp Hs Hff [Hms HL]. pose proof (tl_tree st Hst) as Hns.
  assert (exists st1, moved fs st (ts_nodes fs st) st1 /\
    globDir norm (glob_dir d) seg ms st =
    (if negb (bool_decide (find_node (ts_nodes fs st) d = Some Dir)) then (Ok (ms, None), st1) else
     (let* entries := attempt (gl_ReadDir (path_of d)) in
      match entries with
      | inr _ => ret (ms, None)
      | inl entries =>
        let* (matches, err) := lift (glob_entries norm (path_of d) seg entries ms) in
        match err with Some e => ret (matches, Some e) | None => ret (sort_Strings matches, None) end
      end) st1)) as (st1 & Hm1 & ->).
  { unfold globDir, glob_dir. destruct Hd as [-> |Hd].
    { exists st. by split; [apply moved_refl|]. }
    rewrite (bool_decide_false (d = [])) by apply Hd. rewrite (bool_decide_false (path_of d = _)) by by apply path_of_dot.
    destruct (tl_stat d st Hst Hd) as (st1 & Hm1 & E1). exists st1. split; [done|]. unfold mbind_M at 1. unfold mbind_M at 1, attempt at 1.
    change (gl_Stat (path_of d) st) with (share_Stat fs (path_of d) st). rewrite E1, find_node_ok by done.
    by destruct (ts_nodes fs st !! d) as [[|dd]|]. }
  case_bool_decide as Hdir; cbn [negb].
  2:{ exists ms, st1. split_and!; [done| |done]. rewrite hits_not_dir, app_nil_r by done. by split. }
  pose proof (mv_nodes _ _ _ Hm1) as En.
  destruct (tl_readdir d st1 find_fuel) as (l & st2 & Hm2 & Hl & E2); [apply Hm1|done|by rewrite En|by rewrite En|].
  unfold mbind_M at 1, attempt at 1. change (gl_ReadDir (path_of d) st1) with (share_ReadDir find_fuel fs (path_of d) st1).
  rewrite E2, glob_entries_spec by done. unfold mbind_M, lift. eexists _, st2. split_and!; [|split|reflexivity].
  - rewrite En in Hm2. by eapply moved_trans.
  - apply sort_Strings_sorted.
  - rewrite sort_Strings_perm, HL, fmap_app. unfold hits_in. rewrite <- list_fmap_compose. rewrite En in Hl.
    rewrite Hl. apply Permutation_app_head. assert (Forall proper d) as Hdp by (destruct Hd as [-> |Hd]; [constructor|apply names_proper, Hd]).
    erewrite list_fmap_ext; [reflexivity|]. intros i x _. cbn. by apply child_path_of.
Qed.

Lemma glob_dirs_finds ds seg : proper seg -> segment_ok seg -> forall ms L st, ts_ok fs st -> Forall path_ok ds ->
  (size (ts_nodes fs st) + 2 <= find_fuel)%nat -> finds ms L ->
  exists ms' st', moved fs st (ts_nodes fs st) st' /\ finds ms' (L ++ (ds ≫= hits_in norm (ts_nodes fs st) seg)) /\
    glob_dirs norm (path_of <$> ds) seg ms st = (Ok (ms', None), st').
Proof.
  intros Hp Hs. induction ds as [|d ds IH]; intros ms L st Hst Hds Hff HL.
  { exists ms, st. split_and!; [by apply moved_refl| |done]. by rewrite app_nil_r. }
  apply Forall_cons in Hds as [Hd Hds].
  destruct (globDir_finds d seg ms L st Hst ltac:(by right) Hp Hs Hff HL) as (ms1 & st1 & Hm1 & HL1 & E1).
  unfold glob_dir in E1. rewrite bool_decide_false in E1 by apply Hd.
  pose proof (mv_nodes _ _ _ Hm1) as En.
  destruct (IH ms1 _ st1 (mv_ok _ _ _ Hm1) Hds ltac:(by rewrite En) HL1) as (ms2 & st2 & Hm2 & HL2 & E2).
  rewrite En in Hm2, HL2. exists ms2, st2. split_and!; [by eapply moved_trans|by rewrite bind_cons, app_assoc|].
  cbn [fmap list_fmap glob_dirs]. unfold mbind_M. by rewrite E1.
Qed.
Lemma globWith_finds fuel : forall segs st, ts_ok fs st -> segs <> [] -> Forall segment_ok segs ->
  (forall q, q <> [] -> q `prefix_of` segs -> path_ok q) ->
  (size (ts_nodes fs st) + 2 <= find_fuel)%nat -> (length (path_of segs) < fuel)%nat ->
  exists ms L st', moved fs st (ts_nodes fs st) st' /\ finds ms L /\ NoDup L /\
    (forall q, q ∈ L <-> is_Some (ts_nodes fs st !! q) /\ globbed norm segs q) /\
    globWith norm fuel (path_of segs) st = (Ok (ms, None), st').
Proof.
  induction fuel as [|fuel IH]; [lia|]. intros segs st Hst Hne Hseg Hpre Hff Hfuel.
  pose proof (tl_tree st Hst) as Hns.
  assert (path_ok segs) as Hok by by apply Hpre. pose proof (names_proper _ (po_names _ Hok)) as Hp.
  cbn [globWith]. rewrite normPattern_proper by done.
  destruct (pattern_total norm segs [] Hp Hseg) as [b ->]. rewrite hasGlobMeta_path.
  destruct (existsb hasGlobMeta segs) eqn:Hmeta; cbn [negb].
  2:{ destruct (tl_stat segs st Hst Hok) as (st1 & Hm1 & E1). unfold mbind_M at 1, attempt at 1.
      change (gl_Lstat (path_of segs) st) with (share_Stat fs (path_of segs) st). rewrite E1.
      destruct (ts_nodes fs st !! segs) as [n|] eqn:En.
      - exists [path_of segs], [segs], st1. split_and!; [done|by repeat constructor|apply NoDup_singleton| |reflexivity].
        intros q. rewrite globbed_literal, list_elem_of_singleton by done. split; [by intros ->; split; [exists n|]|by intros [_ ->]].
      - exists [], [], st1. split_and!; [done|by repeat constructor|constructor| |reflexivity].
        intros q. rewrite globbed_literal, elem_of_nil by done. split; [done|]. intros [[n Hn] ->]. congruence. }
  destruct (exists_last Hne) as (pre & seg & ->).
  destruct (split_last pre seg Hp) as (dir & -> & ->). rewrite hasGlobMeta_dir.
  apply Forall_app in Hseg as [Hsegs [Hseg _]%Forall_cons]. pose proof Hp as Hp'.
  apply Forall_app in Hp' as [Hppre [Hpseg _]%Forall_cons].
  assert (dir_path pre) as Hd.
  { destruct (decide (pre = [])) as [-> |Hpne]; [by left|right]. apply Hpre; [done|by apply prefix_app_r]. }
  destruct (existsb hasGlobMeta pre) eqn:Hmpre; cbn [negb].
  2:{ destruct (globDir_finds pre seg [] [] st Hst Hd Hpseg Hseg Hff) as (ms & st1 & Hm1 & HL & E1); [by repeat constructor|].
      exists ms, (hits_in norm (ts_nodes fs st) seg pre), st1. split_and!; [done..|apply NoDup_hits| |exact E1].
      intros q. rewrite elem_of_hits. split.
      - intros (x & -> & Hn & Hx). split; [done|]. apply globbed_snoc. split; [by apply globbed_literal|done].
      - intros [Hn Hg]. destruct (globbed_snoc_inv _ _ _ _ Hg) as (q' & x & ->). apply globbed_snoc in Hg as [Hg Hx].
        apply globbed_literal in Hg as ->; [|done..]. by exists x. }
  assert (pre <> []) as Hpne by by intros ->.
  assert (length (path_of pre) < length (path_of (pre ++ [seg])))%nat as Hshort.
  { rewrite path_of_snoc, length_app by done. cbn. lia. }
  rewrite bool_decide_false.
  2:{ unfold glob_dir. rewrite bool_decide_false by done. intros E. rewrite E in Hshort. lia. }
  destruct (IH pre st Hst Hpne Hsegs) as (ms & L & st1 & Hm1 & [Hs HL] & HdL & HinL & E1);
    [intros q Hq Hq'; apply Hpre; [done|by apply prefix_app_r]|done|lia|].
  unfold glob_dir. rewrite bool_decide_false by done. unfold mbind_M at 1. rewrite E1. cbv iota.
  pose proof (mv_nodes _ _ _ Hm1) as En.
  destruct (Permutation_map_inv _ _ HL) as (ds & -> & HLds).
  destruct (glob_dirs_finds ds seg Hpseg Hseg [] [] st1 (mv_ok _ _ _ Hm1)) as (ms2 & st2 & Hm2 & HL2 & E2);
    [|by rewrite En|by repeat constructor|].
  { apply Forall_forall. intros q Hq. rewrite <- HLds in Hq. apply HinL in Hq as [[n Hn] _]. by apply (tr_path _ Hns) in Hn as [? _]. }
  rewrite En in Hm2, HL2. exists ms2, (ds ≫= hits_in norm (ts_nodes fs st) seg), st2.
  split_and!; [by eapply moved_trans|exact HL2|apply NoDup_all_hits; by rewrite <- HLds| |exact E2].
  intros q. rewrite list_elem_of_bind. setoid_rewrite elem_of_hits. split.
  - intros (d & (x & -> & Hn & Hx) & Hd'). rewrite <- HLds in Hd'. apply HinL in Hd' as [_ Hg]. split; [done|].
    by apply globbed_snoc.
  - intros [Hn Hg]. destruct (globbed_snoc_inv _ _ _ _ Hg) as (d & x & ->). apply globbed_snoc in Hg as [Hg Hx].
    exists d. split; [by exists x|]. rewrite <- HLds. apply HinL. split; [|done]. destruct Hn as [n Hn].
    apply (tr_parent _ Hns) in Hn. rewrite parent_snoc in Hn. destruct d as [|y d]; [|by exists Dir].
    apply Forall2_length in Hg. by destruct pre.
Qed.

(** C4: [Glob] finds exactly the paths of the tree whose names match the
    segments of the pattern one by one, however deep it goes, once each and
    sorted as Go sorts strings; it reports no error for a pattern whose segments
    are of the documented grammar. *)
Theorem Glob_finds segs st : ts_ok fs st -> segs <> [] -> Forall segment_ok segs ->
  (forall q, q <> [] -> q `prefix_of` segs -> path_ok q) -> (size (ts_nodes fs st) + 2 <= find_fuel)%nat ->
  exists ms st', share_Glob find_fuel fs (path_of segs) st = (Ok (ms, None), st') /\
    ts_ok fs st' /\ ts_nodes fs st' = ts_nodes fs st /\ StronglySorted string_order ms /\ NoDup ms /\
    forall s, s ∈ ms <-> exists q, s = path_of q /\ is_Some (ts_nodes fs st !! q) /\ globbed (sh_normalize fs) segs q.
Proof.
  intros Hst Hne Hseg Hpre Hff. pose proof (tl_tree st Hst) as Hns.
  destruct (globWith_finds (S (length (path_of segs))) segs st) as (ms & L & st' & Hm & [Hs HL] & Hd & Hin & E); [done..|lia|].
  exists ms, st'. split_and!; [exact E|apply Hm|apply Hm|done| |].
  - rewrite HL. apply (NoDup_fmap_2_strong _ _); [|done]. intros p q Hp Hq.
    apply Hin in Hp as [[n Hp] _]. apply Hin in Hq as [[m Hq] _].
    apply (tr_path _ Hns) in Hp as [[_ Hp _ _] _], Hq as [[_ Hq _ _] _]. by apply path_of_inj; apply names_proper.
  - intros s. rewrite HL, list_elem_of_fmap. setoid_rewrite Hin. done.
Qed.
End glob.

(** ** On a server *)

Lemma Glob_finds_witness :
  exists ms st', share_Glob 8 example_share (str "[ab]*\?") (example_server example_nodes) = (Ok (ms, None), st') /\
    server_ok example_share st' /\ sv_nodes st' = example_nodes /\ StronglySorted string_order ms /\ NoDup ms /\
    forall s, s ∈ ms <-> exists q, s = path_of q /\ is_Some (example_nodes !! q) /\
      globbed false [str "[ab]*"; str "?"] q.
Proof.
  change (str "[ab]*\?") with (path_of [str "[ab]*"; str "?"]).
  apply (Glob_finds (fs := example_share) (ts := share_tree_server example_share) 8 [str "[ab]*"; str "?"]
    (example_server example_nodes)).
  - apply example_server_ok, example_nodes_ok.
  - done.
  - repeat constructor.
    + by exists [Class false [Single 0x61; Single 0x62]; Star].
    + by exists [Any].
  - apply each_prefix. by_deciding.
  - by_deciding.
Defined.

(** A malformed pattern that no name takes far enough is no error, although it is
    tried on the empty name up front. *)
Lemma Glob_malformed_unseen :
  (share_Glob 8 example_share (str "q*[") (example_server example_nodes)).1 = Ok ([], None) /\
  (share_Glob 8 example_share (str "a*[") (example_server example_nodes)).1 = Ok ([], Some ErrBadPattern).
Proof. by vm_compute. Qed.
