(* ===== verification/FileSpec.v ===== *)
(** * Whole files: what the operations do

    Reading, writing and copying whole files on the server of a tree, whatever
    part of each request it serves.  A transfer that sends one request at a time
    is one of the server of one file of [File.v], in step ([same_file]); a
    pipelined one is that of [PipeShare].  An open file is a [Reader], and two of
    them a [Reader] and a [LimitedWriter], so that [readAll] and [copyStream] do
    what [PublicFile] says they do. *)

From S2P Require Export PipeShare.

(** ** One open file

    Computations on the server, seen from a handle: what they do is what the
    computations on a server of that file do. *)
Section view.
Context (st : share_server) (fid : Z) (h : handle).
Context (Hopen : sv_open st !! fid = Some h) (Hpath : ha_path h <> []).

Definition with_content (d : bytes) : share_server := with_nodes (<[ha_path h := Reg d]> (sv_nodes st)) st.

Definition same_file {A} (m1 : M share_server A) (m2 : M file_server A) : Prop :=
  forall d, exists r d', m2 (file_view fid d st) = (r, file_view fid d' st) /\ m1 (with_content d) = (r, with_content d').

Lemma same_ret {A} (a : A) : same_file (ret a) (ret a).
Proof. intros d. by exists (Ok a), d. Qed.

Lemma same_lift {A} (r : res A) : same_file (lift r) (lift r).
Proof. intros d. by exists r, d. Qed.

Lemma same_poll : same_file poll poll.
Proof. intros d. by exists (Ok None), d. Qed.

Lemma same_bind {A B} (m1 : M share_server A) m2 (k1 : A -> M share_server B) k2 :
  same_file m1 m2 -> (forall a, same_file (k1 a) (k2 a)) -> same_file (mbind_M m1 k1) (mbind_M m2 k2).
Proof.
  intros Hm Hk d. destruct (Hm d) as (r & d1 & E2 & E1). unfold mbind_M. rewrite E1, E2.
  destruct r as [a|e|]; [apply Hk|by eexists _, d1..].
Qed.

Lemma same_try {A B} (m1 : M share_server A) m2 (e : error -> B) (k1 : A -> M share_server B) k2 :
  same_file m1 m2 -> (forall a, same_file (k1 a) (k2 a)) -> same_file (try_M m1 e k1) (try_M m2 e k2).
Proof.
  intros Hm Hk d. destruct (Hm d) as (r & d1 & E2 & E1). unfold try_M. rewrite E1, E2.
  destruct r as [a|e'|]; [apply Hk|by eexists _, d1..].
Qed.

(** A transfer that names the handle. *)
Lemma same_settled hd params data :
  u16 params 4 6 = Ok fid -> same_file (settled_both hd params data) (settled_both hd params data).
Proof.
  intros Hf d. unfold settled_both. cbn [t_sendRecvSettled share_server_transport file_server_transport].
  unfold serve_transfer, serve_both. rewrite Hf. change (sv_open (with_content d)) with (sv_open st). rewrite Hopen.
  assert (find_node (sv_nodes (with_content d)) (ha_path h) = Some (Reg d)) as ->.
  { unfold find_node. destruct (ha_path h) eqn:E; [done|]. unfold with_content. cbn [with_nodes sv_nodes]. rewrite E. by rewrite lookup_insert_eq. }
  change (file_view fid d (with_content d)) with (file_view fid d st).
  assert (exists d', (serve hd params data (file_view fid d st)).2 = file_view fid d' st) as [d' E].
  { unfold serve. destruct (_ =? _); [by exists d|]. destruct (_ =? _); [|by exists d].
    destruct (serve_write params data (file_view fid d st)) as [[r srv]|e|] eqn:E; [|by exists d..].
    unfold serve_write in E. cbn [content serves eof_status server_fid contexts file_view] in E.
    repeat match type of E with
    | bind ?r _ = _ => destruct r; [|done..]; cbn [bind] in E
    | (if ?b then _ else _) = _ => destruct b
    end; injection E as _ <-; by eexists. }
  assert (forall d1, with_nodes (<[ha_path h := Reg d1]> (sv_nodes (with_content d))) (with_content d) = with_content d1) as Hw.
  { intros d1. unfold with_content. cbn [with_nodes sv_nodes]. by rewrite insert_insert_eq. }
  destruct (serve hd params data (file_view fid d st)) as [r srv]. cbn [snd] in E. subst srv.
  cbn [content file_view]. rewrite Hw. unfold both. destruct r as [r|e|]; by eexists _, d'.
Qed.

Lemma same_try_ok {A B} (a : A) (e : error -> B) (k1 : A -> M share_server B) k2 :
  same_file (k1 a) (k2 a) -> same_file (try_M (lift (Ok a)) e k1) (try_M (lift (Ok a)) e k2).
Proof. done. Qed.

Context (c : Negotiated) (s : UserSession) (f : File) (Hfid : f_fid f = fid) (Hrange : 0 <= fid < 2 ^ 16).

Lemma same_readAtChunk size offset : same_file (readAtChunk c s f size offset) (readAtChunk c s f size offset).
Proof.
  unfold readAtChunk. rewrite EncodeReadRequest_eq. apply same_try_ok. apply same_bind.
  { apply same_settled. unfold read_params. wire_read. cbn [rq_FID read_request]. by rewrite Hfid, wrap_small. }
  intros [[resp|] [e|]].
  - apply same_bind; [apply same_lift|]. intros hd. apply same_ret.
  - destruct (r_err resp); [apply same_ret|]. apply same_try; [apply same_lift|]. intros r. apply same_ret.
  - apply same_ret.
  - apply same_lift.
Qed.

Lemma same_ReadAt_loop fuel : forall got size offset,
  same_file (ReadAt_loop fuel c s f got size offset) (ReadAt_loop fuel c s f got size offset).
Proof.
  induction fuel as [|fuel IH]; intros got size offset; cbn [ReadAt_loop]; destruct (_ <? _);
    [apply same_lift|apply same_ret| |apply same_ret].
  apply same_bind; [apply same_readAtChunk|]. intros [m [e|]]; [apply same_ret|apply IH].
Qed.

Lemma same_ReadAt size offset : same_file (ReadAt c s f size offset) (ReadAt c s f size offset).
Proof. unfold ReadAt. destruct (_ =? _); [apply same_ret|apply same_ReadAt_loop]. Qed.

Lemma same_readSequential size offset : same_file (readSequential c s f size offset) (readSequential c s f size offset).
Proof.
  unfold readSequential. generalize (Z.to_nat size) as fuel, (@nil byte) as got.
  induction fuel as [|fuel IH]; intros got; cbn [readSequential_loop]; destruct (_ <? _);
    [apply same_lift|apply same_ret| |apply same_ret].
  apply same_bind; [apply same_ReadAt|]. intros [n [e|]]; [apply same_ret|apply IH].
Qed.

Lemma same_WriteAt data offset : same_file (WriteAt c s f data offset) (WriteAt c s f data offset).
Proof.
  unfold WriteAt. destruct (_ =? _); [apply same_ret|]. apply same_bind; [apply same_lift|]. intros chunk.
  rewrite EncodeWriteRequest_eq. apply same_try_ok. apply same_bind.
  { apply same_settled. unfold write_params. wire_read. cbn [wq_FID write_request]. by rewrite Hfid, wrap_small. }
  intros [[resp|] [e|]]; [apply same_ret| |apply same_ret|apply same_lift].
  destruct (r_err resp); [apply same_ret|]. apply same_try; [apply same_lift|]. intros r. apply same_ret.
Qed.

Lemma same_writeSequential data offset : same_file (writeSequential c s f data offset) (writeSequential c s f data offset).
Proof.
  unfold writeSequential. generalize (length data) as fuel, 0 as total.
  induction fuel as [|fuel IH]; intros total; cbn [writeSequential_loop]; destruct (_ <? _);
    [|apply same_ret| |apply same_ret]; (apply same_bind; [apply same_poll|]); intros [e|]; try apply same_ret; try apply same_lift.
  apply same_bind; [apply same_lift|]. intros chunk. apply same_bind; [apply same_WriteAt|]. intros [n [e|]]; [apply same_ret|].
  destruct (_ <? _); [apply same_ret|apply IH].
Qed.

(** Reading and writing at a position. *)
Context (Hc : has_cap c CAP_LARGE_FILES = true).

Lemma readSequential_view d size offset : 0 < size -> 0 <= offset < 2 ^ 64 -> len d < 2 ^ 64 ->
  readSequential c s f size offset (with_content d) =
  (Ok (take (Z.to_nat size) (drop (Z.to_nat offset) d), if offset <? len d then None else Some EOF), with_content d).
Proof.
  intros Hs Ho Hd. destruct (same_readSequential size offset d) as (r & d' & E2 & ->).
  unfold readSequential in E2. change [] with (file_part (file_view fid d st) 0 offset) in E2.
  rewrite (readSequential_loop_served c s f (file_view fid d st)) in E2; [|done|by rewrite Hfid|done|lia| |lia|lia|by left].
  2:{ split; [lia|by right]. }
  injection E2 as <- <-. by rewrite (proj2 (Z.leb_gt size 0)).
Qed.

Lemma writeSequential_view d data offset : 0 <= offset -> offset + len data < 2 ^ 64 ->
  exists n err, writeSequential c s f data offset (with_content d) =
    (Ok (n, err), with_content (splice d offset (take (Z.to_nat n) data))) /\
    0 <= n <= len data /\ (err = None <-> n = len data) /\
    ((forall o k, k <= sv_serves st o k) -> err = None).
Proof.
  intros Ho Hd. destruct (same_writeSequential data offset d) as (r & d' & E2 & E1).
  destruct (writeSequential_law c s f Hc ltac:(by rewrite Hfid) data offset (file_view fid d st)) as (n & err & l & E & H1 & H2 & H3);
    [done|done|done|].
  rewrite E in E2. injection E2 as <- Ed _. cbn [content file_view] in Ed. subst d'.
  exists n, err. split_and!; [done|lia|lia|done|]. apply H3. constructor.
Qed.
End view.

(** ** Reading and writing an open file *)

Section opened.
Context (c : Negotiated) (s : UserSession).
Context (Hc : has_cap c CAP_LARGE_FILES = true).

Definition moved_to (f : RemoteFile) (offset : Z) : RemoteFile := mkRemoteFile (with_offset (rf_f f) offset) (rf_name f).

Lemma advance_small f n : 0 <= f_offset f + n < 2 ^ 63 -> advance f n = with_offset f (f_offset f + n).
Proof. intros. unfold advance. by rewrite int64_small. Qed.

(** Whether a transfer of [size] bytes sends one request at a time: its threshold
    is [most], and the server may take several requests at once. *)
Definition one_at_a_time (size most : Z) : bool := negb (PipelineDepth (maxMpxCount c)).2 || (size <? most).

Lemma file_Read_served st f p d b : holds st (rf_f f) p d -> 0 < len b -> len d < 2 ^ 63 ->
  0 <= f_offset (rf_f f) < 2 ^ 63 -> one_at_a_time (len b) pipelineReadThreshold = true ->
  let got := take (Z.to_nat (len b)) (drop (Z.to_nat (f_offset (rf_f f))) d) in
  file_Read c s f b st =
  (Ok (moved_to f (f_offset (rf_f f) + len got),
       (got ++ drop (length got) b, (len got, if f_offset (rf_f f) <? len d then None else Some EOF))), st).
Proof.
  intros [(h & Hh & Hhp) Hf Hp Hn _] Hb Hd Ho Hone got. unfold file_Read, Read.
  rewrite (proj2 (Z.eqb_neq (len b) 0)) by lia. unfold one_at_a_time in Hone. rewrite Hone.
  pose proof (readSequential_view st (f_fid (rf_f f)) h Hh ltac:(by rewrite Hhp) c s (rf_f f) eq_refl (fid_range _ Hf) Hc d (len b)
    (f_offset (rf_f f)) Hb ltac:(lia) ltac:(lia)) as E.
  assert (with_content st h d = st) as Ew by (unfold with_content; rewrite Hhp; by apply with_data_same).
  rewrite Ew in E. unfold mbind_M. rewrite E. cbn [ret]. fold got.
  assert (0 <= len got /\ f_offset (rf_f f) + len got < 2 ^ 63) as [H1 H2].
  { unfold got. rewrite len_take, len_drop. lia. }
  unfold moved_to, ret. rewrite advance_small by lia.
  unfold stream_error. destruct (f_offset (rf_f f) <? len d); [done|]. by rewrite bool_decide_true.
Qed.

(** A pipelined read. *)
Lemma file_Read_piped st f p d b : holds st (rf_f f) p d -> 0 < len b -> len d < 2 ^ 63 ->
  0 <= f_offset (rf_f f) < 2 ^ 63 -> one_at_a_time (len b) pipelineReadThreshold = false ->
  let rest := drop (Z.to_nat (f_offset (rf_f f))) d in
  exists n err, file_Read c s f b st =
      (Ok (moved_to f (f_offset (rf_f f) + n), (take (Z.to_nat n) rest ++ drop (Z.to_nat n) b, (n, err))), st) /\
    0 <= n <= len b /\ n <= len rest /\ (err = None -> 0 < n) /\ (err = Some EOF -> len rest = n) /\
    (forall e, err = Some e -> e = EOF).
Proof.
  intros Hh Hb Hd Ho Hone rest.
  destruct (share_read c s (rf_f f) st p d Hc Hh b (f_offset (rf_f f)) Hb Ho Hd) as (n & err & E & Hn & Hd' & Hprog & Heof & Herr).
  assert (n <= len rest) as Hr by (unfold rest; rewrite len_drop; lia).
  exists n, err. split_and!; try done; try lia.
  - unfold file_Read, Read. rewrite (proj2 (Z.eqb_neq (len b) 0)) by lia. unfold one_at_a_time in Hone. rewrite Hone.
    unfold mbind_M. rewrite E. unfold ret. cbn [rf_f]. rewrite advance_small by (unfold rest in Hr; rewrite len_drop in Hr; lia).
    fold rest. unfold moved_to, stream_error. destruct err as [e|]; [|done]. by rewrite (Herr e eq_refl).
  - intros [-> He]%Heof. unfold rest. rewrite len_drop. lia.
Qed.

(** A write that sends one request at a time, or to a server that takes all it is
    sent. *)
Lemma file_Write_served st f p d data : holds st (rf_f f) p d -> 0 <= f_offset (rf_f f) -> f_offset (rf_f f) + len data < 2 ^ 63 ->
  one_at_a_time (len data) pipelineWriteThreshold = true \/ takes_all st ->
  exists n err, file_Write c s f data st =
    (Ok (moved_to f (f_offset (rf_f f) + n), (n, wrapError <$> err)),
     with_data p (splice d (f_offset (rf_f f)) (take (Z.to_nat n) data)) st) /\
    0 <= n <= len data /\ (err = None <-> n = len data) /\ ((forall o k, k <= sv_serves st o k) -> err = None).
Proof.
  intros Hholds Ho Hd Hhow. pose proof Hholds as [(h & Hh & Hhp) Hf Hp Hn _].
  pose proof (len_nonneg data). unfold file_Write, Write.
  destruct (Z.eqb_spec (len data) 0) as [E0|Hne].
  - exists 0, None. unfold moved_to. rewrite Z.add_0_r. change (splice d _ (take (Z.to_nat 0) data)) with d.
    rewrite with_data_same by done. assert (with_offset (rf_f f) (f_offset (rf_f f)) = rf_f f) as -> by (by destruct (rf_f f)).
    split_and!; [done|lia|lia|done|done].
  - destruct (one_at_a_time (len data) pipelineWriteThreshold) eqn:Hone; unfold one_at_a_time in Hone; rewrite Hone.
    2:{ destruct Hhow as [|Ht]; [done|].
      pose proof (share_write c s (rf_f f) st p d Hc Hholds Ht data (f_offset (rf_f f)) ltac:(lia) Ho ltac:(lia)) as E.
      exists (len data), None. unfold mbind_M. rewrite E. unfold ret. cbn [rf_f]. rewrite advance_small by lia.
      split_and!; [|lia|lia|done|done]. unfold len. by rewrite Nat2Z.id, firstn_all. }
    destruct (writeSequential_view st (f_fid (rf_f f)) h Hh ltac:(by rewrite Hhp) c s (rf_f f) eq_refl (fid_range _ Hf) Hc d data
      (f_offset (rf_f f)) Ho ltac:(lia)) as (n & err & E & H1 & H2 & H3).
    assert (with_content st h d = st) as Ew by (unfold with_content; rewrite Hhp; by apply with_data_same).
    rewrite Ew in E. exists n, err. split_and!; [|lia|lia|done|done].
    unfold mbind_M. rewrite E. cbn [ret]. unfold ret. rewrite advance_small by lia. unfold with_content. by rewrite Hhp.
Qed.
End opened.

(** ** An open file as a reader *)

Lemma holds_moved st f p d o : holds st (rf_f f) p d -> holds st (rf_f (moved_to f o)) p d.
Proof. by intros []. Qed.

Lemma take_taken {A} (k : nat) (l : list A) : take (length (take k l)) l = take k l.
Proof.
  rewrite length_take. destruct (decide (k <= length l)%nat); [by rewrite Nat.min_l|].
  rewrite Nat.min_r by lia. by rewrite !take_ge by lia.
Qed.

Section reader.
Context (c : Negotiated) (s : UserSession).
Context (Hc : has_cap c CAP_LARGE_FILES = true).

(** One read, whatever the buffer. *)
Lemma file_Read_rest st f p d b : holds st (rf_f f) p d -> len d < 2 ^ 63 -> 0 <= f_offset (rf_f f) < 2 ^ 63 ->
  exists b' n err, file_Read c s f b st = (Ok (moved_to f (f_offset (rf_f f) + n), (b', (n, err))), st) /\
    0 <= f_offset (rf_f f) + n < 2 ^ 63 /\
    (0 < len b ->
     0 <= n <= len b /\ n <= len (drop (Z.to_nat (f_offset (rf_f f))) d) /\ len b' = len b /\
     take (Z.to_nat n) b' = take (Z.to_nat n) (drop (Z.to_nat (f_offset (rf_f f))) d) /\
     drop (Z.to_nat (f_offset (rf_f f) + n)) d = drop (Z.to_nat n) (drop (Z.to_nat (f_offset (rf_f f))) d) /\
     (err = None -> 0 < n) /\ (err = Some EOF -> drop (Z.to_nat (f_offset (rf_f f) + n)) d = []) /\
     (forall e, err = Some e -> e = EOF)).
Proof.
  intros Hh Hd Ho. pose proof (len_nonneg b). destruct (Z.eqb_spec (len b) 0) as [E0|Hne].
  { exists b, 0, None. split_and!; [|lia..]. unfold file_Read, Read. rewrite E0, Z.eqb_refl. unfold mbind_M, ret, moved_to.
    rewrite Z.add_0_r. destruct f as [[] ?]. done. }
  destruct (one_at_a_time c (len b) pipelineReadThreshold) eqn:Hone.
  2:{ destruct (file_Read_piped c s Hc st f p d b Hh ltac:(lia) Hd Ho Hone) as (n & err & E & H1 & H2 & H3 & H4 & H5).
    set (rest := drop (Z.to_nat (f_offset (rf_f f))) d) in *.
    assert (len rest = Z.max 0 (len d - f_offset (rf_f f))) as Hr by (unfold rest; rewrite len_drop; lia).
    exists (take (Z.to_nat n) rest ++ drop (Z.to_nat n) b), n, err. split; [exact E|]. split; [lia|]. intros _.
    assert (drop (Z.to_nat (f_offset (rf_f f) + n)) d = drop (Z.to_nat n) rest) as Hdr.
    { unfold rest. by rewrite drop_drop, Z2Nat.inj_add by lia. }
    split_and!; [lia|lia|lia| | |done|done| |done].
    - rewrite len_app, len_take, len_drop. lia.
    - apply take_app_length'. rewrite length_take. unfold len in *. lia.
    - intros He. rewrite Hdr. apply drop_ge. specialize (H4 He). unfold len in *. lia. }
  pose proof (file_Read_served c s Hc st f p d b Hh ltac:(lia) Hd Ho Hone) as E. cbv zeta in E.
  set (o := f_offset (rf_f f)) in *. set (got := take (Z.to_nat (len b)) (drop (Z.to_nat o) d)) in *.
  assert (len got = Z.max 0 (Z.min (len b) (len d - o))) as Hg by (unfold got; rewrite len_take, len_drop; lia).
  exists (got ++ drop (length got) b), (len got), (if o <? len d then None else Some EOF).
  split; [exact E|]. split; [lia|]. intros _.
  assert (take (Z.to_nat (len got)) got = got) as Htg by (apply take_ge; unfold len; lia).
  split_and!; [lia|lia|rewrite len_drop; lia| | | | | |].
  - rewrite len_app, len_drop. unfold len in *. lia.
  - rewrite take_app_le by (unfold len; lia). rewrite Htg. unfold len. rewrite Nat2Z.id. symmetry. apply take_taken.
  - rewrite drop_drop, Z2Nat.inj_add by lia. done.
  - destruct (Z.ltb_spec o (len d)); [lia|done].
  - destruct (Z.ltb_spec o (len d)); [done|]. intros _. apply drop_ge. unfold len in *. lia.
  - intros e. by destruct (_ <? _); [|intros [= <-]].
Qed.

Section one_file.
Context (st0 : share_server) (f0 : RemoteFile) (p : path) (d : bytes).
Context (Hh : holds st0 (rf_f f0) p d) (Hd : len d < 2 ^ 63).

Definition reading (sf : share_server * RemoteFile) : Prop :=
  sf.1 = st0 /\ exists o, sf.2 = moved_to f0 o /\ 0 <= o < 2 ^ 63.
Definition unread (sf : share_server * RemoteFile) : bytes := drop (Z.to_nat (f_offset (rf_f sf.2))) d.

Lemma reading_law b sf : reading sf -> 0 < len b ->
  exists b' n err sf', on_file (fun f => file_Read c s f b) sf = (Ok (b', (n, err)), sf') /\ reading sf' /\
    0 <= n <= len b /\ n <= len (unread sf) /\ len b' = len b /\
    take (Z.to_nat n) b' = take (Z.to_nat n) (unread sf) /\ unread sf' = drop (Z.to_nat n) (unread sf) /\
    (err = None -> 0 < n) /\ (err = Some EOF -> unread sf' = []) /\ (forall e, err = Some e -> e = EOF \/ False).
Proof.
  destruct sf as [st f]. intros [E0 (o & E1 & Ho)] Hb. cbn [fst snd] in E0, E1. subst st f. unfold unread. cbn [snd].
  destruct (file_Read_rest st0 (moved_to f0 o) p d b (holds_moved _ _ _ _ _ Hh) Hd Ho) as (b' & n & err & E & Hn & H).
  specialize (H Hb). exists b', n, err, (st0, moved_to (moved_to f0 o) (o + n)).
  unfold on_file. cbn [fst snd]. cbn [moved_to rf_f with_offset f_offset] in *. rewrite E. split; [done|].
  split; [split; [done|]; exists (o + n); split; [done|lia]|].
  destruct H as (H1 & H2 & H3 & H4 & H5 & H6 & H7 & H8). split_and!; [apply H1|apply H1|done..|].
  intros e He. left. by apply H8.
Qed.

Definition open_file_reader : Reader (fun b => on_file (fun f => file_Read c s f b)) :=
  {| rd_ok := reading; rd_rest := unread; rd_error _ := False; rd_law := reading_law |}.
End one_file.
End reader.

(** ** Two open files as a reader and a writer *)


Lemma splice_end (w d : bytes) : splice w (len w) d = w ++ d.
Proof.
  unfold splice. destruct (Z.eqb_spec (len d) 0) as [E|Hne]; [by rewrite (len_0_nil d E), app_nil_r|].
  unfold len. rewrite Nat2Z.id, Nat.sub_diag, app_nil_r, firstn_all.
  rewrite drop_ge by (rewrite ?length_app; lia). by rewrite app_nil_r.
Qed.

Section copying.
Context (c : Negotiated) (s : UserSession).
Context (Hc : has_cap c CAP_LARGE_FILES = true).
Context (st0 : share_server) (src dst : RemoteFile) (p q : path) (d : bytes).
Context (Hsrc : holds st0 (rf_f src) p d) (Hdst : holds st0 (rf_f dst) q []) (Hne : q <> p) (Hd : len d < 2 ^ 63).

Notation copy_state := ((share_server * RemoteFile) * RemoteFile)%type.
Definition copying (t : copy_state) : Prop :=
  exists w o, t = ((with_data q w st0, moved_to src o), moved_to dst (len w)) /\ 0 <= o < 2 ^ 63 /\ len w < 2 ^ 63.


Lemma src_read w o b : 0 <= o < 2 ^ 63 ->
  exists b' n err, own_file (S := RemoteFile) (on_file (fun f => file_Read c s f b))
      ((with_data q w st0, moved_to src o), moved_to dst (len w)) =
    (Ok (b', (n, err)), ((with_data q w st0, moved_to src (o + n)), moved_to dst (len w))) /\
    0 <= o + n < 2 ^ 63 /\
    (0 < len b ->
     0 <= n <= len b /\ n <= len (drop (Z.to_nat o) d) /\ len b' = len b /\
     take (Z.to_nat n) b' = take (Z.to_nat n) (drop (Z.to_nat o) d) /\
     drop (Z.to_nat (o + n)) d = drop (Z.to_nat n) (drop (Z.to_nat o) d) /\
     (err = None -> 0 < n) /\ (err = Some EOF -> drop (Z.to_nat (o + n)) d = []) /\ (forall e, err = Some e -> e = EOF)).
Proof.
  intros Ho. pose proof (holds_other _ _ _ _ q w Hsrc Hne) as Hh.
  destruct (file_Read_rest c s Hc (with_data q w st0) (moved_to src o) p d b (holds_moved _ _ _ _ o Hh) Hd Ho)
    as (b' & n & err & E & H). exists b', n, err. split; [|exact H].
  unfold own_file, on_file. cbn [fst snd]. by rewrite E.
Qed.

Lemma copying_reads b t : copying t -> 0 < len b ->
  exists b' n err t', own_file (S := RemoteFile) (on_file (fun f => file_Read c s f b)) t = (Ok (b', (n, err)), t') /\ copying t' /\
    0 <= n <= len b /\ n <= len (drop (Z.to_nat (f_offset (rf_f t.1.2))) d) /\ len b' = len b /\
    take (Z.to_nat n) b' = take (Z.to_nat n) (drop (Z.to_nat (f_offset (rf_f t.1.2))) d) /\
    drop (Z.to_nat (f_offset (rf_f t'.1.2))) d = drop (Z.to_nat n) (drop (Z.to_nat (f_offset (rf_f t.1.2))) d) /\
    (err = None -> 0 < n) /\ (err = Some EOF -> drop (Z.to_nat (f_offset (rf_f t'.1.2))) d = []) /\
    (forall e, err = Some e -> e = EOF \/ False).
Proof.
  intros (w & o & -> & Ho & Hw) Hb. destruct (src_read w o b Ho) as (b' & n & err & E & Ho' & H).
  destruct (H Hb) as ([H1 H1'] & H2 & H3 & H4 & H5 & H6 & H7 & H8).
  exists b', n, err, ((with_data q w st0, moved_to src (o + n)), moved_to dst (len w)).
  cbn [fst snd moved_to rf_f with_offset f_offset]. split_and!; try done.
  - exists w, (o + n). exact (conj eq_refl (conj Ho' Hw)).
  - intros e He. left. by apply H8.
Qed.

#[local] Instance source : Reader (fun b => own_file (S := RemoteFile) (on_file (fun f => file_Read c s f b))) :=
  {| rd_ok := copying; rd_rest t := drop (Z.to_nat (f_offset (rf_f t.1.2))) d; rd_error _ := False; rd_law := copying_reads |}.




End copying.

(** ** Opening, and whole files *)

Section whole.
Context (fs : Share).
Let c := sh_conn fs.
Let s := sh_session fs.
Context (Hc : has_cap c CAP_LARGE_FILES = true).

(** The file an operation opens. *)
Definition opened_at (p : path) (fid : Z) : RemoteFile := mkRemoteFile (mkFile (te_TID (sh_tree fs)) fid (path_of p) 0) (path_of p).

Definition opened (p : path) (fid : Z) (ns : nodes) (st : share_server) : share_server :=
  with_open (<[fid := mkHandle p false]> (sv_open st)) (with_nodes ns st).

Lemma disposition_range flag : 0 <= open_disposition flag < 2 ^ 32.
Proof. unfold open_disposition. repeat case_match; split; by vm_compute. Qed.

(** [OpenFile] without [O_APPEND]. *)
Lemma OpenFile_served p flag st fid : path_ok p -> sv_unicode st = useUnicode fs -> free_fid (sv_open st) = Some fid ->
  Z.land flag O_APPEND = 0 ->
  match open_node (sv_nodes st) p (open_disposition flag) false true with
  | inl ns => share_OpenFile fs (path_of p) flag st = (Ok (opened_at p fid), opened p fid ns st)
  | inr status => exists e, share_OpenFile fs (path_of p) flag st = (Err e, st)
  end.
Proof.
  intros Hp Hu Hf Ha. pose proof (disposition_range flag) as Hd.
  pose proof (tree_open_served fs p (open_access flag) (Z.lor FILE_SHARE_READ FILE_SHARE_WRITE) (open_disposition flag)
    FILE_NON_DIRECTORY_FILE st fid Hp Hu Hd ltac:(done) Hf) as E.
  change (Z.testbit FILE_NON_DIRECTORY_FILE 0) with false in E. change (Z.testbit FILE_NON_DIRECTORY_FILE 6) with true in E.
  change (Z.testbit FILE_NON_DIRECTORY_FILE 12) with false in E.
  destruct (open_node _ _ _ _ _) as [ns|status]; [|eexists]; unfold share_OpenFile; rewrite normalize_ok, validated_ok by done;
    unfold mbind_M at 1, lift at 1; unfold mbind_M, map_err; rewrite E; [|reflexivity].
  by rewrite Ha.
Qed.

Lemma opened_holds p fid ns st d : quiet st -> free_fid (sv_open st) = Some fid -> p <> [] -> ns !! p = Some (Reg d) ->
  holds (opened p fid ns st) (rf_f (opened_at p fid)) p d.
Proof.
  intros Hq [Hf1 Hf2]%free_fid_Some Hp Hn. split; [|done..]. exists (mkHandle p false). split; [apply lookup_insert_eq|done].
Qed.

(** Opening a file for reading. *)
Lemma open_served p d st fid : quiet st -> path_ok p -> sv_unicode st = useUnicode fs -> free_fid (sv_open st) = Some fid ->
  sv_nodes st !! p = Some (Reg d) ->
  share_OpenFile fs (path_of p) O_RDONLY st = (Ok (opened_at p fid), opened p fid (sv_nodes st) st) /\
  holds (opened p fid (sv_nodes st) st) (rf_f (opened_at p fid)) p d.
Proof.
  intros Hq Hp Hu Hf Hn. split; [|apply opened_holds; [done|done|apply Hp|done]].
  pose proof (OpenFile_served p O_RDONLY st fid Hp Hu Hf eq_refl) as Eo.
  change (open_disposition O_RDONLY) with FILE_OPEN in Eo. unfold open_node in Eo. rewrite find_node_ok, Hn in Eo by done.
  change (FILE_OPEN =? FILE_CREATE) with false in Eo.
  change ((FILE_OPEN =? FILE_OVERWRITE) || (FILE_OPEN =? FILE_OVERWRITE_IF)) with false in Eo. cbv iota in Eo.
  exact Eo.
Qed.

(** Closing a handle that does not delete. *)
Lemma file_Close_served f p d st : holds st (rf_f f) p d -> (forall h, sv_open st !! f_fid (rf_f f) = Some h -> ha_delete h = false) ->
  file_Close s f st = (Ok (), with_open (delete (f_fid (rf_f f)) (sv_open st)) st).
Proof.
  intros [(h & Hh & _) Hf _ _] Hkeep. unfold file_Close, map_err. unfold s. rewrite (Close_served fs _ _ h) by done.
  by rewrite (Hkeep h Hh).
Qed.

(** [Stat] of an open file does not disturb anything. *)
Lemma query_file_served f p d level st : holds st f p d -> len d < 2 ^ 63 -> 0 <= level < 2 ^ 16 ->
  exists params r, EncodeQueryFileInfo (f_fid f) level = Ok params /\
    SendTransact2 c s (Tree_of f) TRANS2_QUERY_FILE_INFORMATION params [] st = (Ok r, st) /\
    if level =? SMB_QUERY_FILE_BASIC_INFO then DecodeFileBasicInfo (t2_Data r) = Ok (basic_of (Reg d))
    else DecodeFileStandardInfo (t2_Data r) = Ok (standard_of (Reg d)).
Proof.
  intros [(h & Hh & Hhp) Hf Hp Hn] Hd Hl. destruct (node_info_decodes level (Reg d)) as (r & E1 & E2); [done|].
  exists (le_put 2 (f_fid f) ++ le_put 2 level ++ []), r.
  assert (EncodeQueryFileInfo (f_fid f) level = Ok (le_put 2 (f_fid f) ++ le_put 2 level ++ [])) as E.
  { unfold EncodeQueryFileInfo, put16. rewrite (make_zeros 4 4) by done. cbn [bind]. repeat enc_step. by rewrite ?app_nil_r. }
  split_and!; [done| |done].
  pose proof (fid_range _ Hf) as Hr.
  apply (transact2_on fs (Tree_of f) TRANS2_QUERY_FILE_INFORMATION _ (inl r)); [done|autorewrite with len; lia|].
  intros a b Er. unfold serve_trans2. rewrite Er.
  change (TRANS2_QUERY_FILE_INFORMATION =? TRANS2_QUERY_PATH_INFORMATION) with false.
  change (TRANS2_QUERY_FILE_INFORMATION =? TRANS2_QUERY_FILE_INFORMATION) with true. cbv iota. f_equal.
  unfold serve_query_file. wire_read. cbn [bind]. rewrite (wrap_small 16 (f_fid f)), (wrap_small 16 level) by done.
  cbn [bind]. rewrite Hh, Hhp. unfold find_node. destruct p as [|x p]; [done|]. rewrite Hn. exact E1.
Qed.

Lemma file_Stat_served f p d st : holds st (rf_f f) p d -> len d < 2 ^ 63 ->
  exists info, file_Stat c s f st = (Ok info, st) /\ FileStat_Size info = len d.
Proof.
  intros Hh Hd. assert (0 <= SMB_QUERY_FILE_BASIC_INFO < 2 ^ 16 /\ 0 <= SMB_QUERY_FILE_STANDARD_INFO < 2 ^ 16) as [L1 L2] by done.
  destruct (query_file_served (rf_f f) p d SMB_QUERY_FILE_BASIC_INFO st Hh Hd L1) as (q1 & r1 & E1 & F1 & D1).
  destruct (query_file_served (rf_f f) p d SMB_QUERY_FILE_STANDARD_INFO st Hh Hd L2) as (q2 & r2 & E2 & F2 & D2).
  change (SMB_QUERY_FILE_BASIC_INFO =? SMB_QUERY_FILE_BASIC_INFO) with true in D1.
  change (SMB_QUERY_FILE_STANDARD_INFO =? SMB_QUERY_FILE_BASIC_INFO) with false in D2. cbv iota in D1, D2.
  unfold file_Stat, File.Stat. rewrite E1. unfold mbind_M at 1, map_err at 1.
  unfold mbind_M at 1, wrap_err at 1, lift at 1. unfold mbind_M at 1, wrap_err at 1. rewrite F1.
  unfold mbind_M at 1, wrap_err at 1, lift at 1. rewrite D1, E2.
  unfold mbind_M at 1, wrap_err at 1, lift at 1. unfold mbind_M at 1, wrap_err at 1. rewrite F2.
  unfold mbind_M at 1, wrap_err at 1, lift at 1. rewrite D2.
  unfold ret. eexists. split; [reflexivity|].
  change (int64 (len d) = len d). apply int64_small. split; [apply len_nonneg|exact Hd].
Qed.

(** [ReadFile] gets the whole content of a file, in as many reads as the
    server's shortest replies make necessary and however arrays grow, and leaves
    the tree and the open handles as they were. *)
Theorem ReadFile_reads p d st grow fuel : path_ok p -> server_ok fs st -> sv_nodes st !! p = Some (Reg d) ->
  (forall n, n < grow n) -> (length d < fuel)%nat ->
  share_ReadFile grow fuel fs (path_of p) st = (Ok (d, None), st).
Proof.
  intros Hp [Hns Hu [fid Hf] Hquiet] Hn Hgrow Hfuel. pose proof (tr_path _ Hns _ _ Hn) as [_ Hd]. unfold node_ok in Hd. cbn in Hd.
  destruct (open_served p d st fid Hquiet Hp Hu Hf Hn) as [Eo Hh].
  unfold share_ReadFile, share_Open. unfold mbind_M at 1. rewrite Eo.
  set (st1 := opened p fid (sv_nodes st) st) in *. set (f := opened_at p fid) in *.
  unfold defer. unfold mbind_M at 1, attempt at 1. fold c s.
  destruct (file_Stat_served f p d st1 Hh Hd) as (info & -> & _).
  destruct (@readAll_law _ _ (open_file_reader c s Hc st1 f p d Hh Hd) grow fuel (read_hint (inl info)) (st1, f))
    as (data & err & [st2 f2] & E & [Hst (o & Ef & _)] & _ & Hall & Herr); [done| |done|].
  { split; [done|]. exists 0. split; [done|lia]. }
  cbn in Hst, Ef. subst st2 f2. destruct err as [e|]; [by destruct (Herr e eq_refl)|]. specialize (Hall eq_refl).
  change (rd_rest (st1, f)) with d in Hall. subst data.
  unfold with_file. fold c s in E |- *. rewrite E. cbv beta iota. rewrite (file_Close_served f p d st1 Hh).
  2:{ intros h. change (f_fid (rf_f f)) with fid. unfold st1, opened. cbn [with_open sv_open]. rewrite lookup_insert_eq. by intros [= <-]. }
  f_equal. change (f_fid (rf_f f)) with fid. unfold st1, opened. cbn [with_open sv_open].
  destruct (free_fid_Some _ _ Hf) as [_ Hfree]. rewrite close_opened by done. by destruct st.
Qed.

(** Creating a file: it is there, empty, and open. *)
Definition create_flags : Z := Z.lor (Z.lor O_WRONLY O_CREATE) O_TRUNC.
Lemma create_served p st fid : quiet st -> path_ok p -> sv_unicode st = useUnicode fs -> free_fid (sv_open st) = Some fid ->
  find_node (sv_nodes st) (parent p) = Some Dir -> sv_nodes st !! p <> Some Dir ->
  share_OpenFile fs (path_of p) create_flags st = (Ok (opened_at p fid), opened p fid (<[p := Reg []]> (sv_nodes st)) st) /\
  holds (opened p fid (<[p := Reg []]> (sv_nodes st)) st) (rf_f (opened_at p fid)) p [].
Proof.
  intros Hq Hp Hu Hf Hpar Hn. split; [|apply opened_holds; [done|done|apply Hp|apply lookup_insert_eq]].
  pose proof (OpenFile_served p create_flags st fid Hp Hu Hf eq_refl) as Eo.
  change (open_disposition create_flags) with FILE_OVERWRITE_IF in Eo. unfold open_node in Eo. rewrite find_node_ok in Eo by done.
  change (FILE_OVERWRITE_IF =? FILE_CREATE) with false in Eo.
  change ((FILE_OVERWRITE_IF =? FILE_OVERWRITE) || (FILE_OVERWRITE_IF =? FILE_OVERWRITE_IF)) with true in Eo.
  change ((FILE_OVERWRITE_IF =? FILE_OPEN) || (FILE_OVERWRITE_IF =? FILE_OVERWRITE)) with false in Eo. cbv iota in Eo.
  destruct (sv_nodes st !! p) as [[|d]|]; [done|done|]. by rewrite bool_decide_true in Eo.
Qed.

(** Closing what was opened, when only the file's content has changed. *)
Lemma close_written p fid ns d st : quiet st -> free_fid (sv_open st) = Some fid -> p <> [] ->
  file_Close s (opened_at p fid) (with_data p d (opened p fid ns st)) = (Ok (), with_nodes (<[p := Reg d]> ns) st).
Proof.
  intros Hq Hf Hp. rewrite (file_Close_served _ p d).
  - unfold with_data, opened. cbn [with_open sv_open with_nodes sv_nodes].
    change (f_fid (rf_f (opened_at p fid))) with fid. apply free_fid_Some in Hf as [_ Hf].
    rewrite close_opened by done. by destruct st.
  - apply free_fid_Some in Hf as [Hf _]. split; [|done..|apply lookup_insert_eq|exact Hq].
    exists (mkHandle p false). split; [apply lookup_insert_eq|done].
  - intros h. change (f_fid (rf_f (opened_at p fid))) with fid. cbn. rewrite lookup_insert_eq. by intros [= <-].
Qed.


Lemma WriteFile_law p data st : path_ok p -> server_ok fs st -> find_node (sv_nodes st) (parent p) = Some Dir ->
  sv_nodes st !! p <> Some Dir -> len data < 2 ^ 63 ->
  one_at_a_time c (len data) pipelineWriteThreshold = true \/ takes_all st ->
  exists r n, share_WriteFile fs (path_of p) data st = (r, with_data p (take (Z.to_nat n) data) st) /\
    0 <= n <= len data /\ (r = Ok () <-> n = len data) /\ r <> Panic /\ (takes_all st -> r = Ok ()).
Proof.
  intros Hp [Hns Hu [fid Hf] Hquiet] Hpar Hn Hd Hhow. destruct (create_served p st fid Hquiet Hp Hu Hf Hpar Hn) as [Eo Hh].
  unfold share_WriteFile. unfold mbind_M at 1. change (Z.lor (Z.lor O_WRONLY O_CREATE) O_TRUNC) with create_flags. rewrite Eo.
  set (st1 := opened p fid _ st) in *. set (f := opened_at p fid) in *.
  destruct (file_Write_served c s Hc st1 f p [] data Hh) as (n & err & E & Hn' & Herr & Hall); [done|exact Hd|done|].
  change (f_offset (rf_f f)) with (len (@nil byte)) in E. rewrite splice_end in E. cbn [app] in E.
  set (got := take (Z.to_nat n) data) in *.
  unfold defer. unfold mbind_M. fold c s. rewrite E.
  assert (file_Close s f (with_data p got st1) = (Ok (), with_data p got st)) as Ec.
  { unfold f, st1. rewrite close_written by (done || apply Hp). unfold with_data. by rewrite insert_insert_eq. }
  destruct err as [e|]; cbn [fmap option_fmap option_map].
  - exists (Err (wrapError e)), n. unfold fail. rewrite Ec. split_and!; [done|lia|lia| |done|].
    + split; [done|]. intros En. by apply Herr in En.
    + intros Ht. by apply Hall in Ht.
  - pose proof (proj1 Herr eq_refl) as En. rewrite En, Z.eqb_refl. cbn [negb]. exists (Ok ()), (len data). unfold ret. rewrite Ec.
    unfold got. rewrite En. split_and!; [done|lia|lia|done|done|done].
Qed.

(** C8: [WriteFile] leaves in the file a prefix of the data, and nothing else
    of what was there, whatever the server takes of each request; it returns nil
    exactly when that is all of the data, which is the case when the server takes
    what it is sent; it does not panic; and it leaves the rest of the tree and the
    open handles as they were.  The path is one that validation lets through, its
    parent is a directory and it is not one itself, the tree is well formed, a
    handle is free and no reply is waited for, the server has CAP_LARGE_FILES, and
    the data are shorter than 2^63 bytes.  This is for a transfer of one request at
    a time, which the data of less than 256 KiB take, as all do to a server that
    takes one request at once (MaxMpxCount), or for a server that takes all it is
    sent; what a pipelined write leaves of the data with another server is
    [PipeServer.writePipelined_confirmed]. *)
Theorem WriteFile_writes p data st : path_ok p -> server_ok fs st -> find_node (sv_nodes st) (parent p) = Some Dir ->
  sv_nodes st !! p <> Some Dir -> len data < 2 ^ 63 ->
  (PipelineDepth (maxMpxCount c)).2 = false \/ len data < pipelineWriteThreshold \/ takes_all st ->
  exists r n, share_WriteFile fs (path_of p) data st = (r, with_data p (take (Z.to_nat n) data) st) /\
    0 <= n <= len data /\ (r = Ok () <-> n = len data) /\ r <> Panic /\ (takes_all st -> r = Ok ()).
Proof.
  intros Hp Hst Hpar Hn Hd Hhow. apply WriteFile_law; try done. unfold one_at_a_time. rewrite orb_true_iff, negb_true_iff, Z.ltb_lt. tauto.
Qed.


End whole.

(** ** On a server *)

(** The share is on a connection that takes fifty requests at once.  A server
    that gives and takes seven bytes at a time. *)
Definition slow_server (ns : nodes) : share_server :=
  mkShareServer ns ∅ (search_of true [] []) (fun _ _ => 7) false true [] 0 ∅.

Lemma slow_server_ok ns : tree_ok ns -> server_ok example_share (slow_server ns).
Proof. intros H. split; [done|reflexivity|by exists 1|done]. Qed.

Lemma ReadFile_reads_witness :
  share_ReadFile (fun n => n + 5) 4 example_share (str "a\b\y") (slow_server example_nodes) =
  (Ok (str "two", None), slow_server example_nodes).
Proof.
  apply (ReadFile_reads example_share eq_refl [str "a"; str "b"; str "y"] (str "two") (slow_server example_nodes)).
  - by_deciding.
  - apply slow_server_ok, example_nodes_ok.
  - reflexivity.
  - intros n. lia.
  - by_deciding.
Defined.

Lemma WriteFile_writes_witness :
  exists r n, share_WriteFile example_share (str "c\new") (str "hello, world") (slow_server example_nodes) =
    (r, with_data [str "c"; str "new"] (take (Z.to_nat n) (str "hello, world")) (slow_server example_nodes)) /\
    0 <= n <= 12 /\ (r = Ok () <-> n = 12) /\ r <> Panic.
Proof.
  destruct (WriteFile_writes example_share eq_refl [str "c"; str "new"] (str "hello, world") (slow_server example_nodes))
    as (r & n & E & Hn & Hr & Hp & _).
  - by_deciding.
  - apply slow_server_ok, example_nodes_ok.
  - reflexivity.
  - discriminate.
  - reflexivity.
  - right. left. reflexivity.
  - exists r, n. exact (conj E (conj Hn (conj Hr Hp))).
Defined.



(** A file copied onto itself is emptied, and [CopyFile] returns nil. *)
Lemma CopyFile_onto_itself :
  let out := share_CopyFile 4 example_share (str "a\x") (str "a\x") (example_server example_nodes) in
  out.1 = Ok () /\ example_nodes !! [str "a"; str "x"] = Some (Reg (str "one")) /\
  sv_nodes out.2 !! [str "a"; str "x"] = Some (Reg []).
Proof. by vm_compute. Qed.
