(* ===== verification/FsInfo.v ===== *)
(** * The filesystem behind a share ([fsinfo.go], [servertime.go])

    [Statfs] asks at the 64-bit level, and at the legacy one when the server
    declines the first; [VolumeInfo] asks for the identity of the volume. *)

From S2P Require Export Share.

Definition TRANS2_QUERY_FS_INFORMATION : Z := 0x0003.
Definition SMB_INFO_ALLOCATION : Z := 0x0001.
Definition SMB_QUERY_FS_VOLUME_INFO : Z := 0x0102.
Definition SMB_QUERY_FS_SIZE_INFO : Z := 0x0103.
Definition STATUS_INVALID_PARAMETER : Z := 0xC000000D.
Definition STATUS_NOT_IMPLEMENTED : Z := 0xC0000002.
Definition STATUS_INVALID_INFO_CLASS : Z := 0xC0000003.
Definition STATUS_INVALID_LEVEL : Z := 0xC0000148.

Record fileFsSizeInfo := mkFileFsSizeInfo {
  totalUnits : Z;
  freeUnits : Z;
  sectorsPerUnit : Z;
  bytesPerSector : Z;
}.
Definition BlockSize (fi : fileFsSizeInfo) : Z := bytesPerSector fi.
Definition FragmentSize (fi : fileFsSizeInfo) : Z := sectorsPerUnit fi.
Definition TotalBlockCount (fi : fileFsSizeInfo) : Z := totalUnits fi.
Definition FreeBlockCount (fi : fileFsSizeInfo) : Z := freeUnits fi.
Definition AvailableBlockCount (fi : fileFsSizeInfo) : Z := freeUnits fi.

Record VolumeInfo := mkVolumeInfo {
  vi_SerialNumber : Z;
  vi_Label : bytes;
  vi_CreationTime : Z;
}.

Definition newFileFsSizeInfo (totalUnits freeUnits sectorsPerUnit bytesPerSector : Z) : res fileFsSizeInfo :=
  if (sectorsPerUnit =? 0) || (bytesPerSector =? 0)
  then Err (Errorf "smb1: server reported a zero-byte allocation unit (%d sectors/unit, %d bytes/sector)")
  else Ok (mkFileFsSizeInfo totalUnits freeUnits sectorsPerUnit bytesPerSector).

(** ** The status of an error *)

Definition as_smb (e : error) : option Z := match e with SMBError s _ _ => Some s | _ => None end.

Definition ntStatusOf (err : error) : option Z :=
  match errors_As as_status err with
  | Some s => Some s
  | None => match errors_As as_response err with
            | Some c => Some c
            | None => errors_As as_smb err
            end
  end.

Definition unsupported_statuses : list Z :=
  [STATUS_INVALID_LEVEL; STATUS_INVALID_INFO_CLASS; STATUS_NOT_SUPPORTED; STATUS_NOT_IMPLEMENTED; STATUS_INVALID_PARAMETER].

Definition isUnsupportedLevelError (err : error) : bool :=
  match ntStatusOf err with
  | Some status => bool_decide (status ∈ unsupported_statuses)
  | None => false
  end.

(** ** The queries *)

Section fsinfo.
Context {T : Type} `{Transport T} `{Ctx T} `{Pipeline T}.

Definition statfsSizeInfo (c : Negotiated) (s : UserSession) (t : Tree) : M T fileFsSizeInfo :=
  let* params := wrap_err "smb1: failed to encode fs size info request" (lift (EncodeQueryFSInfo SMB_QUERY_FS_SIZE_INFO)) in
  let* resp := SendTransact2 c s t TRANS2_QUERY_FS_INFORMATION params [] in
  let* raw := lift (DecodeFsSizeInfo (t2_Data resp)) in
  lift (newFileFsSizeInfo (fs_TotalAllocationUnits raw) (fs_TotalFreeAllocationUnits raw)
          (fs_SectorsPerAllocationUnit raw) (fs_BytesPerSector raw)).

Definition statfsAllocation (c : Negotiated) (s : UserSession) (t : Tree) : M T fileFsSizeInfo :=
  let* params := wrap_err "smb1: failed to encode fs allocation info request" (lift (EncodeQueryFSInfo SMB_INFO_ALLOCATION)) in
  let* resp := SendTransact2 c s t TRANS2_QUERY_FS_INFORMATION params [] in
  let* raw := lift (DecodeFsAllocationInfo (t2_Data resp)) in
  lift (newFileFsSizeInfo (fa_TotalAllocationUnits raw) (fa_FreeAllocationUnits raw)
          (fa_SectorsPerAllocationUnit raw) (fa_BytesPerSector raw)).

Definition statfsTree (c : Negotiated) (s : UserSession) (t : Tree) : M T fileFsSizeInfo :=
  let* info := attempt (statfsSizeInfo c s t) in
  match info with
  | inl info => ret info
  | inr err =>
    if negb (isUnsupportedLevelError err) then fail err
    else wrap_err "smb1: statfs failed (FS_SIZE_INFO unsupported, INFO_ALLOCATION failed)" (statfsAllocation c s t)
  end.

Definition share_Statfs (fs : Share) (name : bytes) : M T fileFsSizeInfo :=
  let name := normalize fs name in
  let* _ := (if bool_decide (name = []) then ret () else lift (validated "statfs" name)) in
  map_err (path_error "statfs" name) (statfsTree (sh_conn fs) (sh_session fs) (sh_tree fs)).

Definition file_Statfs (c : Negotiated) (s : UserSession) (f : RemoteFile) : M T fileFsSizeInfo :=
  map_err (path_error "statfs" (rf_name f)) (statfsTree c s (Tree_of (rf_f f))).

Definition share_VolumeInfo (fs : Share) : M T VolumeInfo :=
  let* params := wrap_err "smb1: failed to encode fs volume info request" (lift (EncodeQueryFSInfo SMB_QUERY_FS_VOLUME_INFO)) in
  let* resp := SendTransact2 (sh_conn fs) (sh_session fs) (sh_tree fs) TRANS2_QUERY_FS_INFORMATION params [] in
  let* raw := lift (DecodeFsVolumeInfo (t2_Data resp)) in
  ret (mkVolumeInfo (fv_SerialNumber raw) (fv_Label raw) (convertFileTimeToTime (fv_VolumeCreationTime raw))).
End fsinfo.

(** [ServerTime] of a session: what the negotiation kept. *)
Definition session_ServerTime (c : Negotiated) (receivedAt : Z) : ServerTime :=
  newServerTime (systemTime c) (timeZone c) receivedAt.

(** ** A server of a filesystem

    The reference: the geometry of a volume and its identity; at the 64-bit level
    the server gives the geometry, or declines with a status; at the legacy level
    counts that do not fit are the largest that do. *)
Record fs_server := mkFsServer {
  fz_geometry : fileFsSizeInfo;
  fz_decline : option Z;
  fz_volume : VolumeInfo;
  fz_created : Z;                   (* the FILETIME of the volume's creation *)
  fz_asked : list Z;                (* the levels asked for *)
}.

Definition saturate (w z : Z) : Z := Z.min z (2 ^ w - 1).
Definition legacy (g : fileFsSizeInfo) : fileFsSizeInfo :=
  mkFileFsSizeInfo (saturate 32 (totalUnits g)) (saturate 32 (freeUnits g)) (sectorsPerUnit g) (saturate 16 (bytesPerSector g)).

Definition size_reply (g : fileFsSizeInfo) : bytes :=
  le_put 8 (totalUnits g) ++ le_put 8 (freeUnits g) ++ le_put 4 (sectorsPerUnit g) ++ le_put 4 (bytesPerSector g) ++ [].
Definition allocation_reply (g : fileFsSizeInfo) : bytes :=
  le_put 4 0 ++ le_put 4 (sectorsPerUnit g) ++ le_put 4 (totalUnits g) ++ le_put 4 (freeUnits g) ++ le_put 2 (bytesPerSector g) ++ [].
Definition volume_reply (created : Z) (v : VolumeInfo) : bytes :=
  le_put 8 created ++ le_put 4 (vi_SerialNumber v) ++ le_put 4 (len (utf16le (vi_Label v))) ++ le_put 2 0 ++ utf16le (vi_Label v).

Definition serve_fs (params : bytes) (d : fs_server) : res bytes * Z :=
  match u16 params 0 2 with
  | Ok level =>
    (if level =? SMB_QUERY_FS_SIZE_INFO then
       match fz_decline d with
       | Some status => Err (NtStatus status)
       | None => Ok (size_reply (fz_geometry d))
       end
     else if level =? SMB_INFO_ALLOCATION then Ok (allocation_reply (legacy (fz_geometry d)))
     else if level =? SMB_QUERY_FS_VOLUME_INFO then Ok (volume_reply (fz_created d) (fz_volume d))
     else Err (NtStatus STATUS_INVALID_LEVEL), level)
  | Err e => (Err e, 0)
  | Panic => (Panic, 0)
  end.

Definition asked (level : Z) (d : fs_server) : fs_server :=
  mkFsServer (fz_geometry d) (fz_decline d) (fz_volume d) (fz_created d) (fz_asked d ++ [level]).

#[export] Instance fs_server_transport : Transport fs_server := {
  t_sendRecv _ _ _ d := (Err (Errorf "not a transaction"), d);
  t_sendRecvSettled _ _ _ d := (Err (Errorf "not a transaction"), d);
  t_sendRecvTransaction _ params data d :=
    match read_trans2 params data with
    | Ok (sub, p) =>
      if sub =? TRANS2_QUERY_FS_INFORMATION then
        match serve_fs p d with
        | (Ok b, level) => (Ok (response_of ok_header [] [], trans2_reply [] b), asked level d)
        | (Err e, level) => (Err e, asked level d)
        | (Panic, _) => (Panic, d)
        end
      else (Err (NtStatus STATUS_NOT_SUPPORTED), d)
    | Err e => (Err e, d)
    | Panic => (Panic, d)
    end;
}.
#[export] Instance fs_server_ctx : Ctx fs_server := { ctx_poll d := (None, d) }.
#[export] Instance fs_server_pipeline : Pipeline fs_server := {
  pl_make d := (0%nat, d);
  pl_send _ _ _ _ d := (Err conn_ErrConnectionClosed, d);
  pl_wait _ d := (PickDone (Some conn_ErrConnectionClosed), d);
  pl_settle _ d := (PickDone (Some conn_ErrConnectionClosed), d);
  pl_delete _ d := d;
  pl_abandon _ _ d := d;
}.

Record geometry_ok (g : fileFsSizeInfo) : Prop := {
  go_total : 0 <= totalUnits g < 2 ^ 64;
  go_free : 0 <= freeUnits g < 2 ^ 64;
  go_sectors : 0 < sectorsPerUnit g < 2 ^ 32;
  go_bytes : 0 < bytesPerSector g < 2 ^ 32;
}.

(** ** Properties *)

Lemma EncodeQueryFSInfo_eq level : EncodeQueryFSInfo level = Ok (le_put 2 level ++ []).
Proof. unfold EncodeQueryFSInfo, put16. rewrite (make_zeros 2 2) by done. cbn [bind]. repeat enc_step. by rewrite ?app_nil_r. Qed.

(** A query at a level. *)
Lemma fs_query c s t level d : 0 <= level < 2 ^ 16 ->
  SendTransact2 c s t TRANS2_QUERY_FS_INFORMATION (le_put 2 level ++ []) [] d =
  match serve_fs (le_put 2 level ++ []) d with
  | (Ok b, _) => (Ok (trans2_reply [] b), asked level d)
  | (Err e, _) => (Err e, asked level d)
  | (Panic, _) => (Panic, d)
  end.
Proof.
  intros Hl. destruct (read_trans2_request TRANS2_QUERY_FS_INFORMATION (le_put 2 level ++ []) []
    (transactionMaxDataCount c TransactionMaxParameterCount)) as (p & q & E1 & E2);
    [done|autorewrite with len; change (len (@nil byte)) with 0; lia|].
  unfold SendTransact2, mbind_M at 1, lift. rewrite E1. unfold transaction_reply, mbind_M.
  cbn [t_sendRecvTransaction fs_server_transport]. rewrite E2. rewrite Z.eqb_refl.
  assert (exists r, serve_fs (le_put 2 level ++ []) d = (r, level)) as [r E].
  { unfold serve_fs. wire_read. rewrite wrap_small by done. by eexists. }
  rewrite E. by destruct r.
Qed.

Lemma DecodeFsSizeInfo_reply g : geometry_ok g ->
  DecodeFsSizeInfo (size_reply g) = Ok (mkFsSizeInfo (totalUnits g) (freeUnits g) (sectorsPerUnit g) (bytesPerSector g)).
Proof.
  intros [H1 H2 H3 H4]. unfold DecodeFsSizeInfo, size_reply. autorewrite with len. cbn [Z.ltb Z.compare].
  wire_read. cbn [bind]. by rewrite (wrap_small 64 (totalUnits g)), (wrap_small 64 (freeUnits g)), !wrap_small by lia.
Qed.

Lemma legacy_range g : geometry_ok g ->
  0 <= totalUnits (legacy g) < 2 ^ 32 /\ 0 <= freeUnits (legacy g) < 2 ^ 32 /\
  0 < sectorsPerUnit (legacy g) < 2 ^ 32 /\ 0 < bytesPerSector (legacy g) < 2 ^ 16.
Proof. intros [H1 H2 H3 H4]. unfold legacy, saturate. cbn [totalUnits freeUnits sectorsPerUnit bytesPerSector]. lia. Qed.

Lemma DecodeFsAllocationInfo_reply g :
  0 <= totalUnits g < 2 ^ 32 -> 0 <= freeUnits g < 2 ^ 32 -> 0 < sectorsPerUnit g < 2 ^ 32 -> 0 < bytesPerSector g < 2 ^ 16 ->
  DecodeFsAllocationInfo (allocation_reply g) =
  Ok (mkFsAllocationInfo 0 (sectorsPerUnit g) (totalUnits g) (freeUnits g) (bytesPerSector g)).
Proof.
  intros. unfold DecodeFsAllocationInfo, allocation_reply. autorewrite with len. cbn [Z.ltb Z.compare].
  wire_read. cbn [bind]. rewrite (wrap_small 32 (sectorsPerUnit g)), (wrap_small 32 (totalUnits g)),
    (wrap_small 32 (freeUnits g)), (wrap_small 16 (bytesPerSector g)) by lia. by rewrite wrap_small.
Qed.

Lemma newFileFsSizeInfo_ok g : 0 < sectorsPerUnit g -> 0 < bytesPerSector g ->
  newFileFsSizeInfo (totalUnits g) (freeUnits g) (sectorsPerUnit g) (bytesPerSector g) = Ok g.
Proof.
  intros. unfold newFileFsSizeInfo. rewrite !(proj2 (Z.eqb_neq _ 0)) by lia. by destruct g.
Qed.

Lemma serve_fs_level level d : 0 <= level < 2 ^ 16 ->
  serve_fs (le_put 2 level ++ []) d =
  (if level =? SMB_QUERY_FS_SIZE_INFO then
     match fz_decline d with Some status => Err (NtStatus status) | None => Ok (size_reply (fz_geometry d)) end
   else if level =? SMB_INFO_ALLOCATION then Ok (allocation_reply (legacy (fz_geometry d)))
   else if level =? SMB_QUERY_FS_VOLUME_INFO then Ok (volume_reply (fz_created d) (fz_volume d))
   else Err (NtStatus STATUS_INVALID_LEVEL), level).
Proof. intros Hl. unfold serve_fs. wire_read. by rewrite wrap_small. Qed.

Lemma statfsTree_served c s t d : geometry_ok (fz_geometry d) ->
  statfsTree c s t d =
  match fz_decline d with
  | None => (Ok (fz_geometry d), asked SMB_QUERY_FS_SIZE_INFO d)
  | Some status =>
    if bool_decide (status ∈ unsupported_statuses)
    then (Ok (legacy (fz_geometry d)), asked SMB_INFO_ALLOCATION (asked SMB_QUERY_FS_SIZE_INFO d))
    else (Err (NtStatus status), asked SMB_QUERY_FS_SIZE_INFO d)
  end.
Proof.
  intros Hg. unfold statfsTree, statfsSizeInfo. unfold mbind_M at 1, attempt at 1.
  rewrite EncodeQueryFSInfo_eq. unfold mbind_M at 1, wrap_err at 1, lift at 1. unfold mbind_M at 1.
  rewrite fs_query, serve_fs_level by done.
  change (SMB_QUERY_FS_SIZE_INFO =? SMB_QUERY_FS_SIZE_INFO) with true. cbv iota.
  destruct (fz_decline d) as [status|].
  - unfold isUnsupportedLevelError, ntStatusOf. cbn [errors_As as_status]. case_bool_decide as Hu; [|done]. cbn [negb].
    unfold statfsAllocation. rewrite EncodeQueryFSInfo_eq. unfold wrap_err at 1. unfold mbind_M at 1, wrap_err at 1, lift at 1.
    unfold mbind_M at 1. rewrite fs_query, serve_fs_level by done.
    change (SMB_INFO_ALLOCATION =? SMB_QUERY_FS_SIZE_INFO) with false.
    change (SMB_INFO_ALLOCATION =? SMB_INFO_ALLOCATION) with true. cbv iota. cbn [t2_Data trans2_reply].
    change (fz_geometry (asked SMB_QUERY_FS_SIZE_INFO d)) with (fz_geometry d).
    destruct (legacy_range _ Hg) as (H1 & H2 & H3 & H4).
    unfold mbind_M at 1, lift at 1. rewrite DecodeFsAllocationInfo_reply by done.
    cbn [fa_TotalAllocationUnits fa_FreeAllocationUnits fa_SectorsPerAllocationUnit fa_BytesPerSector].
    unfold lift. by rewrite newFileFsSizeInfo_ok by lia.
  - cbn [t2_Data trans2_reply]. unfold mbind_M at 1, lift at 1. rewrite DecodeFsSizeInfo_reply by done.
    cbn [fs_TotalAllocationUnits fs_TotalFreeAllocationUnits fs_SectorsPerAllocationUnit fs_BytesPerSector].
    unfold lift. rewrite newFileFsSizeInfo_ok; [done|apply Hg..].
Qed.

(** C37: [Statfs] of a share, with an empty name or one that validation lets
    through, reports the geometry the server gives of its volume at the 64-bit
    level, whatever its size, in one query; from a server that declines that
    level, with any of the five statuses servers use for that, it reports the
    legacy counts, each the largest that fits when it does not fit, in a second;
    any other refusal is the caller's error, and nothing else is asked.  The
    counts are below 2^64, and the sizes of sectors and units positive and below
    2^32. *)
Theorem Statfs_reports fs name d :
  geometry_ok (fz_geometry d) -> normalize fs name = [] \/ validateFilePath (normalize fs name) = Ok () ->
  share_Statfs fs name d =
  match fz_decline d with
  | None => (Ok (fz_geometry d), asked SMB_QUERY_FS_SIZE_INFO d)
  | Some status =>
    if bool_decide (status ∈ [STATUS_INVALID_LEVEL; STATUS_INVALID_INFO_CLASS; STATUS_NOT_SUPPORTED;
                              STATUS_NOT_IMPLEMENTED; STATUS_INVALID_PARAMETER])
    then (Ok (legacy (fz_geometry d)), asked SMB_INFO_ALLOCATION (asked SMB_QUERY_FS_SIZE_INFO d))
    else (Err (PathError "statfs" (normalize fs name) (wrapError (NtStatus status))), asked SMB_QUERY_FS_SIZE_INFO d)
  end.
Proof.
  intros Hg Hname. unfold share_Statfs.
  assert ((if bool_decide (normalize fs name = []) then ret () else lift (validated "statfs" (normalize fs name))) d = (Ok (), d)) as Ev.
  { case_bool_decide; [done|]. unfold lift, validated. destruct Hname as [?|E]; [done|by rewrite E]. }
  unfold mbind_M at 1. rewrite Ev. unfold map_err. rewrite statfsTree_served by done. unfold unsupported_statuses.
  destruct (fz_decline d) as [status|]; [|done]. by destruct (bool_decide (status ∈ _)).
Qed.

(** The counts of both levels agree when they fit. *)
Lemma legacy_exact g : totalUnits g < 2 ^ 32 -> freeUnits g < 2 ^ 32 -> bytesPerSector g < 2 ^ 16 -> legacy g = g.
Proof. intros. destruct g. unfold legacy, saturate. cbn in *. f_equal; lia. Qed.

Lemma of_utf16le_text s : ValidString s -> last s <> Some Byte.x00 -> DecodeToString (utf16le s) = Ok s.
Proof. intros. rewrite DecodeToString_eq. by rewrite of_utf16le_utf16le. Qed.

(** [VolumeInfo] reports the serial number, the label and the time of creation
    the server gives. *)
Theorem VolumeInfo_reports fs d :
  0 <= vi_SerialNumber (fz_volume d) < 2 ^ 32 -> 0 <= fz_created d < 2 ^ 64 ->
  ValidString (vi_Label (fz_volume d)) -> last (vi_Label (fz_volume d)) <> Some Byte.x00 ->
  len (utf16le (vi_Label (fz_volume d))) < 2 ^ 32 ->
  share_VolumeInfo fs d =
  (Ok (mkVolumeInfo (vi_SerialNumber (fz_volume d)) (vi_Label (fz_volume d)) (convertFileTimeToTime (fz_created d))),
   asked SMB_QUERY_FS_VOLUME_INFO d).
Proof.
  intros Hs Hc Hv Hl Hlen. unfold share_VolumeInfo. rewrite EncodeQueryFSInfo_eq.
  unfold mbind_M at 1, wrap_err at 1, lift at 1. unfold mbind_M at 1. rewrite fs_query, serve_fs_level by done.
  change (SMB_QUERY_FS_VOLUME_INFO =? SMB_QUERY_FS_SIZE_INFO) with false.
  change (SMB_QUERY_FS_VOLUME_INFO =? SMB_INFO_ALLOCATION) with false. rewrite Z.eqb_refl. cbv iota. cbn [t2_Data trans2_reply].
  set (v := fz_volume d) in *. set (text := utf16le (vi_Label v)) in *. pose proof (len_nonneg text).
  assert (DecodeFsVolumeInfo (volume_reply (fz_created d) v) = Ok (mkFsVolumeInfo (fz_created d) (vi_SerialNumber v) (vi_Label v))) as E.
  { unfold DecodeFsVolumeInfo, volume_reply. fold text.
    assert (len (le_put 8 (fz_created d) ++ le_put 4 (vi_SerialNumber v) ++ le_put 4 (len text) ++ le_put 2 0 ++ text) = 18 + len text) as ->
      by (autorewrite with len; lia).
    rewrite (proj2 (Z.ltb_ge (18 + len text) 18)) by lia. wire_read. cbn [bind].
    rewrite (wrap_small 64), (wrap_small 32 (vi_SerialNumber v)), (wrap_small 32 (len text)) by lia.
    rewrite (proj2 (Z.ltb_ge _ (len text))) by lia. destruct (Z.ltb_spec 0 (len text)) as [Hpos|Hzero].
    - wire_read. rewrite slice_whole by offsets. cbn [bind]. unfold text. by rewrite of_utf16le_text.
    - assert (text = []) as Et by (apply len_0_nil; lia). unfold text in Et.
      pose proof (of_utf16le_text _ Hv Hl) as Ed. rewrite Et in Ed. cbn [bind]. change (DecodeToString []) with (Ok (@nil byte)) in Ed.
      injection Ed as Ed. by rewrite <- Ed. }
  unfold mbind_M at 1, lift at 1. by rewrite E.
Qed.

(** ** Examples *)

(** A volume of 2^40 units, on a server that declines the 64-bit level. *)
Definition example_fs (decline : option Z) : fs_server :=
  mkFsServer (mkFileFsSizeInfo (2 ^ 40) 12345 8 512) decline (mkVolumeInfo 0xCAFE (str "DATA") 0) 0 [].
Definition fs_share : Share := mkShare example_negotiated example_session Client.example_tree false.

Lemma Statfs_reports_witness :
  share_Statfs fs_share [] (example_fs (Some STATUS_INVALID_LEVEL)) =
  (Ok (mkFileFsSizeInfo (2 ^ 32 - 1) 12345 8 512),
   asked SMB_INFO_ALLOCATION (asked SMB_QUERY_FS_SIZE_INFO (example_fs (Some STATUS_INVALID_LEVEL)))).
Proof.
  apply (Statfs_reports fs_share [] (example_fs (Some STATUS_INVALID_LEVEL))).
  - split; cbn; lia.
  - by left.
Defined.

Lemma VolumeInfo_reports_witness :
  share_VolumeInfo fs_share (example_fs None) =
  (Ok (mkVolumeInfo 0xCAFE (str "DATA") (convertFileTimeToTime 0)), asked SMB_QUERY_FS_VOLUME_INFO (example_fs None)).
Proof. apply (VolumeInfo_reports fs_share (example_fs None)); vm_compute; try done; split; congruence. Defined.
