(* ===== verification/DirFS.v ===== *)
(** * A share as an io/fs file system ([dirfs.go])

    [DirFS] presents the subtree of a share under a root as a read-only
    [fs.FS]: names with slashes, checked by [fs.ValidPath], become paths of the
    share; a directory is a snapshot of its listing, read page by page; errors
    carry the names the caller used. *)

From S2P Require Export GlobSpec FileSpec.

(** ** [fs.ValidPath] *)

Definition valid_elem (e : bytes) : bool :=
  negb (bool_decide (e = [])) && negb (bool_decide (e = str ".")) && negb (bool_decide (e = str "..")).
Definition ValidPath (name : bytes) : bool :=
  bool_decide (ValidString name) && (bool_decide (name = str ".") || forallb valid_elem (split_on slash_byte name)).

(** ** The file system *)

Record dirFS := mkDirFS { df_share : Share; df_root : bytes }.

(** The loop that drops [.\] is [drop_dots]. *)
Definition dirFSRoot (normalize_path : bool) (dirname : bytes) : bytes :=
  let p := drop_dots (normalizePath normalize_path dirname) in
  if bool_decide (p = str ".") then [] else p.

Definition share_DirFS (fs : Share) (dirname : bytes) : dirFS := mkDirFS fs (dirFSRoot (sh_normalize fs) dirname).

Definition colon_byte : byte := Byte.x3a.

Definition smbPath (d : dirFS) (name : bytes) : option bytes :=
  if negb (ValidPath name) || (contains_byte name sep_byte || contains_byte name colon_byte) then None else
  if bool_decide (name = str ".") then Some (df_root d) else
  let p := to_backslash <$> name in
  Some (if bool_decide (df_root d = []) then p else df_root d ++ [sep_byte] ++ p).

Definition reshapeError (op : string) (name : bytes) (err : error) : error :=
  match err with
  | PathError _ _ e => PathError op name e
  | e => PathError op name e
  end.

(** An open file, and an open directory: its listing once it is loaded, and how
    far it has been read. *)
Record dirFSFile := mkDirFSFile { ff_f : RemoteFile; ff_name : bytes }.
Record dirFSDir := mkDirFSDir {
  fd_fsys : dirFS;
  fd_name : bytes;
  fd_path : bytes;
  fd_info : FileInfo;
  fd_loaded : bool;
  fd_entries : list FileInfo;
  fd_offset : Z;
}.

Definition errIsDirectory : error := InternalError "is a directory".

(** [sort.Slice] by name. *)
Definition info_order (a b : FileInfo) : Prop := string_order (FileStat_Name a) (FileStat_Name b).
#[export] Instance info_order_dec a b : Decision (info_order a b) := decide (string_order _ _).
Definition sort_infos (l : list FileInfo) : list FileInfo := merge_sort info_order l.

(** Calls of [ReadDir(n)] until one reports an error: the pages, and the error.
    [others] is what happens to the connection in between. *)
Fixpoint read_dir_pages {T} (readDir : dirFSDir -> M T (dirFSDir * (list FileInfo * option error)))
    (others : T -> T) (fuel : nat) (d : dirFSDir) : M T (list (list FileInfo) * error) :=
  match fuel with
  | O => lift Panic
  | S fuel =>
    let* (d, (page, err)) := readDir d in
    match err with
    | Some e => ret ([page], e)
    | None => fun t => (let* (pages, e) := read_dir_pages readDir others fuel d in ret (page :: pages, e)) (others t)
    end
  end.

Section dirfs.
Context {T : Type} `{Transport T} `{Ctx T} `{Pipeline T}.

Definition statInfo (d : dirFS) (p : bytes) : M T FileInfo :=
  if bool_decide (p = [])
  then ret (mkFileInfo zeroTime zeroTime zeroTime zeroTime 0 0 FILE_ATTRIBUTE_DIRECTORY (str "."))
  else share_Stat (df_share d) p.

Definition openRead (fs : Share) (name : bytes) : M T RemoteFile := share_Open fs name.

Definition dirFS_Open (d : dirFS) (name : bytes) : M T (dirFSDir + dirFSFile) :=
  match smbPath d name with
  | None => fail (PathError "open" name ErrInvalid)
  | Some p =>
    let* fi := map_err (reshapeError "open" name) (statInfo d p) in
    if FileStat_IsDir fi then ret (inl (mkDirFSDir d name p fi false [] 0)) else
    let* f := map_err (reshapeError "open" name) (openRead (df_share d) p) in
    ret (inr (mkDirFSFile f name))
  end.

Definition dirFS_Stat (d : dirFS) (name : bytes) : M T FileInfo :=
  match smbPath d name with
  | None => fail (PathError "stat" name ErrInvalid)
  | Some p => map_err (reshapeError "stat" name) (statInfo d p)
  end.

(** The data and the error of [ReadFile]: no data with an error. *)
Definition dirFS_ReadFile (grow : Z -> Z) (fuel : nat) (d : dirFS) (name : bytes) : M T bytes :=
  match smbPath d name with
  | None => fail (PathError "open" name ErrInvalid)
  | Some p =>
    let* (data, err) := map_err (reshapeError "open" name) (share_ReadFile grow fuel (df_share d) p) in
    match err with
    | Some e => fail (reshapeError "open" name e)
    | None => ret data
    end
  end.

(** ** Open files *)

Definition fs_error (op : string) (name : bytes) (err : option error) : option error :=
  match err with
  | Some e => if bool_decide (e = EOF) then Some EOF else Some (reshapeError op name e)
  | None => None
  end.

Definition dirFSFile_Stat (c : Negotiated) (s : UserSession) (f : dirFSFile) : M T FileInfo :=
  map_err (reshapeError "stat" (ff_name f)) (file_Stat c s (ff_f f)).

Definition dirFSFile_Read (c : Negotiated) (s : UserSession) (f : dirFSFile) (b : bytes)
  : M T (dirFSFile * (bytes * (Z * option error))) :=
  let* (f', (b, (n, err))) := file_Read c s (ff_f f) b in
  ret (mkDirFSFile f' (ff_name f), (b, (n, fs_error "read" (ff_name f) err))).

Definition dirFSFile_ReadAt (c : Negotiated) (s : UserSession) (f : dirFSFile) (size off : Z) : M T (bytes * option error) :=
  let* (got, err) := file_ReadAt c s (ff_f f) size off in
  ret (got, fs_error "read" (ff_name f) err).

Definition dirFSFile_Seek (c : Negotiated) (s : UserSession) (f : dirFSFile) (offset whence : Z)
  : M T (dirFSFile * (Z * option error)) :=
  let* (f', (n, err)) := file_Seek c s (ff_f f) offset whence in
  ret (mkDirFSFile f' (ff_name f), (n, reshapeError "seek" (ff_name f) <$> err)).

Definition dirFSFile_Close (s : UserSession) (f : dirFSFile) : M T () :=
  map_err (reshapeError "close" (ff_name f)) (file_Close s (ff_f f)).

(** ** Open directories *)

Definition dirFSDir_Stat (d : dirFSDir) : M T FileInfo := ret (fd_info d).
Definition dirFSDir_Read (d : dirFSDir) : M T (Z * option error) :=
  ret (0, Some (PathError "read" (fd_name d) errIsDirectory)).
Definition dirFSDir_Close (d : dirFSDir) : M T () := ret ().

(** The page after the snapshot is there. *)
Definition dir_page (d : dirFSDir) (n : Z) : res (dirFSDir * (list FileInfo * option error)) :=
  let at_ offset := mkDirFSDir (fd_fsys d) (fd_name d) (fd_path d) (fd_info d) (fd_loaded d) (fd_entries d) offset in
  let! rest := slice (fd_entries d) (fd_offset d) (len (fd_entries d)) in
  if n <=? 0 then Ok (at_ (len (fd_entries d)), (rest, None))
  else if len rest =? 0 then Ok (d, ([], Some EOF))
  else
    let n := if len rest <? n then len rest else n in
    let! first := slice rest 0 n in
    Ok (at_ (int64 (fd_offset d + n)), (first, None)).

Definition dirFSDir_ReadDir (find_fuel : nat) (d : dirFSDir) (n : Z) : M T (dirFSDir * (list FileInfo * option error)) :=
  if fd_loaded d then lift (dir_page d n) else
  let* infos := attempt (share_ReadDir find_fuel (df_share (fd_fsys d)) (fd_path d)) in
  match infos with
  | inr err => ret (d, ([], Some (reshapeError "readdir" (fd_name d) err)))
  | inl infos =>
    lift (dir_page (mkDirFSDir (fd_fsys d) (fd_name d) (fd_path d) (fd_info d) true (sort_infos infos) (fd_offset d)) n)
  end.
End dirfs.

(** ** Names *)

(** The elements of a name; the root is [.]. *)
Definition elems (name : bytes) : path := if bool_decide (name = str ".") then [] else split_on slash_byte name.

Lemma split_on_parts c s : Forall (fun e => c ∉ e) (split_on c s).
Proof.
  induction s as [|b s IH]; cbn [split_on]; [by repeat constructor; apply not_elem_of_nil|].
  destruct (split_on c s) as [|h r] eqn:E; [by apply split_on_nonempty in E|].
  apply Forall_cons in IH as [Hh Hr]. destruct (isb b c) eqn:Eb.
  - constructor; [apply not_elem_of_nil|by constructor].
  - constructor; [|done]. rewrite elem_of_cons. intros [-> |H]; [by rewrite isb_refl in Eb|done].
Qed.

Lemma split_on_member c s b e : e ∈ split_on c s -> b ∈ e -> b ∈ s.
Proof.
  revert e. induction s as [|x s IH]; intros e; cbn [split_on].
  { rewrite list_elem_of_singleton. by intros ->. }
  destruct (split_on c s) as [|h r] eqn:E; [by apply split_on_nonempty in E|].
  destruct (isb x c).
  - rewrite elem_of_cons. intros [-> |H] Hb; [by apply elem_of_nil in Hb|]. right. by eapply IH.
  - rewrite elem_of_cons. intros [-> |H] Hb.
    + apply elem_of_cons in Hb as [-> |Hb]; [by left|]. right. eapply IH; [by left|done].
    + right. eapply IH; [by right|done].
Qed.

Lemma to_backslash_path name : sep_byte ∉ name -> to_backslash <$> name = path_of (split_on slash_byte name).
Proof.
  induction name as [|b name IH]; intros Hn; [done|]. cbn [fmap list_fmap split_on].
  rewrite IH by (intros H; apply Hn; by right). pose proof (split_on_nonempty slash_byte name) as Hne.
  destruct (split_on slash_byte name) as [|h r]; [done|]. unfold to_backslash. change Byte.x2f with slash_byte.
  destruct (isb b slash_byte) eqn:E; [done|]. by destruct r.
Qed.

Lemma path_of_app r l : r <> [] -> l <> [] -> path_of r ++ sep_byte :: path_of l = path_of (r ++ l).
Proof.
  intros Hr Hl. induction r as [|x r IH]; [done|]. destruct r as [|y r]; [by destruct l|].
  change (path_of (x :: y :: r)) with (x ++ sep_byte :: path_of (y :: r)).
  change (path_of ((x :: y :: r) ++ l)) with (x ++ sep_byte :: path_of ((y :: r) ++ l)).
  rewrite <- IH by done. by rewrite <- app_assoc.
Qed.

(** What a valid name says, and what it becomes. *)
Lemma smbPath_spec fs r name p : Forall proper r ->
  smbPath (mkDirFS fs (path_of r)) name = Some p ->
  p = path_of (r ++ elems name) /\ Forall (fun e => slash_byte ∉ e) (elems name) /\
  (Byte.x00 ∉ p -> Forall proper (elems name)) /\ (elems name = [] <-> name = str ".").
Proof.
  intros Hr. unfold smbPath, elems. cbn [df_root]. destruct (ValidPath name) eqn:Hv; [|done]. cbn [negb orb].
  destruct (contains_byte name sep_byte) eqn:Hs; [done|]. destruct (contains_byte name colon_byte) eqn:Hc; [done|]. cbn [orb].
  apply contains_byte_false in Hs. case_bool_decide as E.
  { intros [= <-]. rewrite app_nil_r. by split_and!. }
  pose proof (split_on_nonempty slash_byte name) as Hne. pose proof (split_on_parts slash_byte name) as Hparts.
  intros [= Ep]. unfold ValidPath in Hv. rewrite (bool_decide_false _ E) in Hv. cbn [orb] in Hv.
  apply andb_true_iff in Hv as [_ Hv]. rewrite forallb_forall in Hv.
  assert (p = path_of (r ++ split_on slash_byte name)) as ->.
  { rewrite <- Ep, to_backslash_path by done. destruct r as [|x r]; [done|].
    rewrite bool_decide_false by by apply path_of_nonempty. by apply path_of_app. }
  split_and!; [done|done| |by split].
  intros H0. apply Forall_forall. intros e He. pose proof (Hv e (proj1 (list_elem_of_In _ _) He)) as Hve.
  unfold valid_elem in Hve. rewrite !andb_true_iff, !negb_true_iff, !bool_decide_eq_false in Hve.
  rewrite Forall_forall in Hparts.
  unfold proper. split_and!; try tauto; [intros Hb; by eapply split_on_member in Hb|by apply Hparts|].
  intros Hb. apply H0. rewrite <- Ep. apply (split_on_member slash_byte name Byte.x00) in He; [|done].
  apply (list_elem_of_fmap_2 to_backslash) in He. change (to_backslash Byte.x00) with Byte.x00 in He.
  case_bool_decide; [done|]. rewrite !elem_of_app. by right; right.
Qed.

(** C38: a name the file system accepts stands for a path under its root: what
    reaches the server, when it passes the client's own checks, are the elements of
    the root followed by those of the name, none of which leads up.  The name must
    not end in white space, which [Share] would trim away ([dirFS_escapes]). *)
Theorem dirFS_confined fs r name p : dir_path r ->
  smbPath (mkDirFS fs (path_of r)) name = Some p -> TrimSpace p = p -> validated "stat" (normalize fs p) = Ok () ->
  normalize fs p = path_of (r ++ elems name) /\ comps (normalize fs p) = r ++ elems name /\
  resolve [] (split_on sep_byte (normalize fs p)) = Some (rev (r ++ elems name)) /\
  Forall proper (elems name).
Proof.
  intros Hr Hp Ht Hv.
  assert (Forall proper r) as Hrp by (destruct Hr as [-> |Hr]; [constructor|apply names_proper, Hr]).
  destruct (smbPath_spec fs r name p Hrp Hp) as (E & Hsl & Hel & _).
  assert (slash_byte ∉ p) as Hslash.
  { rewrite E. apply not_in_path_of; [done|]. apply Forall_app. split; [|done].
    eapply Forall_impl; [exact Hrp|]. unfold proper. naive_solver. }
  assert (normalize fs p = p) as En.
  { unfold normalize. rewrite normalizePath_eq, Ht. destruct (sh_normalize fs); [|done]. by apply backslash_none. }
  rewrite En in *.
  assert (Byte.x00 ∉ p /\ p <> []) as [H0 Hne].
  { unfold validated in Hv. destruct (validateFilePath p) eqn:Ev; [|done..]. unfold validateFilePath in Ev.
    case_bool_decide as Hq; [done|]. split; [|done]. destruct (HasPrefix p [sep_byte]); [done|].
    destruct (contains_byte p Byte.x00) eqn:E0; [done|]. by apply contains_byte_false. }
  specialize (Hel H0). assert (Forall proper (r ++ elems name)) as Hall by (apply Forall_app; by split).
  rewrite E at 2 3. rewrite comps_path_of by done. rewrite split_on_join; [|by intros Hn; rewrite Hn in E|by apply proper_no_sep].
  split_and!; [done|done| |done]. rewrite resolve_proper by done. by rewrite app_nil_r.
Qed.

Lemma dirFS_confined_witness :
  smbPath (mkDirFS example_share (path_of [str "a"; str "b"])) (str "c/d.txt") = Some (str "a\b\c\d.txt") /\
  comps (normalize example_share (str "a\b\c\d.txt")) = [str "a"; str "b"] ++ elems (str "c/d.txt").
Proof.
  assert (smbPath (mkDirFS example_share (path_of [str "a"; str "b"])) (str "c/d.txt") = Some (str "a\b\c\d.txt")) as E by reflexivity.
  split; [exact E|].
  apply (dirFS_confined example_share [str "a"; str "b"] (str "c/d.txt") (str "a\b\c\d.txt")).
  - right. by_deciding.
  - exact E.
  - reflexivity.
  - reflexivity.
Defined.

(** The name [.. ], with a space behind, is a valid one.  [Share] trims the
    space, and what is looked at is the parent of the root. *)
Lemma dirFS_escapes :
  ValidPath (str ".. ") = true /\
  exists p, smbPath (mkDirFS example_share (str "a\b")) (str ".. ") = Some p /\
    normalize example_share p = str "a\b\.." /\ validated "stat" (normalize example_share p) = Ok () /\
    resolve [] (split_on sep_byte (normalize example_share p)) = Some [str "a"].
Proof. split; [reflexivity|]. eexists. split; [reflexivity|]. by vm_compute. Qed.

(** ** Directories *)

#[export] Instance info_order_total : Total info_order.
Proof. intros a b. apply string_order_total. Qed.
#[export] Instance info_order_trans : Transitive info_order.
Proof. intros a b c. apply string_order_trans. Qed.

(** The rest of a snapshot, page by page. *)
Lemma dir_page_spec d n : 0 < n -> 0 <= fd_offset d <= len (fd_entries d) -> len (fd_entries d) < 2 ^ 63 ->
  dir_page d n =
  (if fd_offset d =? len (fd_entries d) then Ok (d, ([], Some EOF)) else
   let m := Z.min n (len (fd_entries d) - fd_offset d) in
   Ok (mkDirFSDir (fd_fsys d) (fd_name d) (fd_path d) (fd_info d) (fd_loaded d) (fd_entries d) (fd_offset d + m),
       (take (Z.to_nat m) (drop (Z.to_nat (fd_offset d)) (fd_entries d)), None))).
Proof.
  intros Hn Ho Hl. unfold dir_page. rewrite slice_ok by lia. cbn [bind].
  rewrite (take_ge (drop _ _)) by (rewrite length_drop; unfold len in *; lia).
  rewrite (proj2 (Z.leb_gt n 0)) by done. rewrite len_drop, Z2Nat.id by lia.
  destruct (Z.eqb_spec (fd_offset d) (len (fd_entries d))) as [E|Hne].
  - rewrite (proj2 (Z.eqb_eq _ 0)) by lia. done.
  - rewrite (proj2 (Z.eqb_neq _ 0)) by lia. cbv zeta.
    assert ((if Z.max 0 (len (fd_entries d) - fd_offset d) <? n then Z.max 0 (len (fd_entries d) - fd_offset d) else n) =
      Z.min n (len (fd_entries d) - fd_offset d)) as -> by (destruct (Z.ltb_spec (Z.max 0 (len (fd_entries d) - fd_offset d)) n); lia).
    rewrite slice_ok by (rewrite ?len_drop; lia). cbn [bind]. rewrite drop_0, Z.sub_0_r.
    rewrite int64_small by lia. done.
Qed.

Section served.
Context {T : Type} {tr : Transport T} {cx : Ctx T} {pl : Pipeline T}.

Lemma snapshot_pages (others : T -> T) find_fuel n fuel : 0 < n -> forall d st, fd_loaded d = true ->
  0 <= fd_offset d <= len (fd_entries d) -> len (fd_entries d) < 2 ^ 63 ->
  len (fd_entries d) - fd_offset d < Z.of_nat fuel ->
  exists pages st', read_dir_pages (fun d => dirFSDir_ReadDir find_fuel d n) others fuel d st = (Ok (pages, EOF), st') /\
    mjoin pages = drop (Z.to_nat (fd_offset d)) (fd_entries d) /\ Forall (fun page => len page <= n) pages.
Proof.
  intros Hn. induction fuel as [|fuel IH]; intros d st Hld Ho Hl Hf; [lia|]. cbn [read_dir_pages].
  unfold mbind_M at 1. unfold dirFSDir_ReadDir at 1. rewrite Hld. unfold lift. rewrite dir_page_spec by done.
  destruct (Z.eqb_spec (fd_offset d) (len (fd_entries d))) as [E|Hne].
  - exists [[]], st. split; [done|]. split; [|repeat constructor; rewrite len_nil; lia].
    cbn. rewrite drop_ge; [done|]. unfold len in E. lia.
  - cbv zeta. set (m := Z.min n _). set (d' := mkDirFSDir _ _ _ _ _ _ _).
    destruct (IH d' (others st)) as (pages & st' & E & Hj & Hp); [done|cbn [d' fd_offset fd_entries]; lia..|].
    unfold mbind_M. rewrite E. eexists (_ :: pages), st'. split; [reflexivity|]. split.
    + change (mjoin (?p :: pages)) with (p ++ mjoin pages). rewrite Hj. cbn [d' fd_offset fd_entries].
      rewrite Z2Nat.inj_add, <- drop_drop by lia. apply take_drop.
    + constructor; [|done]. rewrite len_take. lia.
Qed.

Context {fs : Share} {ts : TreeServer T fs} {laws : TreeLaws T}.

(** What [statInfo] and the rest of the file system see of the tree: the file at
    the path of the name. *)
Definition synthetic_root : FileInfo := mkFileInfo zeroTime zeroTime zeroTime zeroTime 0 0 FILE_ATTRIBUTE_DIRECTORY (str ".").
Definition seen (p : path) (n : node) : FileInfo := if bool_decide (p = []) then synthetic_root else info_of p n.

Lemma statInfo_served p st : ts_ok fs st -> dir_path p -> forall root,
  exists st', moved fs st (ts_nodes fs st) st' /\
  statInfo (mkDirFS fs root) (path_of p) st =
    (match find_node (ts_nodes fs st) p with
     | Some n => Ok (seen p n)
     | None => Err (PathError "stat" (path_of p) ErrNotExist)
     end, st').
Proof.
  intros Hst [-> |Hp] root; unfold statInfo, seen.
  - exists st. by split; [apply moved_refl|].
  - rewrite bool_decide_false by by apply path_ok_nonempty. rewrite bool_decide_false by apply Hp.
    rewrite find_node_ok by done. by apply tl_stat.
Qed.

(** The file system shows the subtree of the share under its root: [Stat]
    of a name says what the server says of the file at the root's path followed by
    the name's elements, or that it does not exist, in the caller's words; a name
    that is not one reaches no server. *)
Theorem dirFS_Stat_shows r name st : ts_ok fs st -> dir_path r ->
  match smbPath (mkDirFS fs (path_of r)) name with
  | None => dirFS_Stat (mkDirFS fs (path_of r)) name st = (Err (PathError "stat" name ErrInvalid), st)
  | Some _ => dir_path (r ++ elems name) ->
    exists st', moved fs st (ts_nodes fs st) st' /\
    dirFS_Stat (mkDirFS fs (path_of r)) name st =
      (match find_node (ts_nodes fs st) (r ++ elems name) with
       | Some n => Ok (seen (r ++ elems name) n)
       | None => Err (PathError "stat" name ErrNotExist)
       end, st')
  end.
Proof.
  intros Hst Hr. destruct (smbPath _ name) as [p|] eqn:E; [|unfold dirFS_Stat; by rewrite E]. intros Hp.
  assert (Forall proper r) as Hrp by (destruct Hr as [-> |Hr]; [constructor|apply names_proper, Hr]).
  destruct (smbPath_spec fs r name p Hrp E) as (Ep & _).
  destruct (statInfo_served (r ++ elems name) st Hst Hp (path_of r)) as (st' & Hm & Es). exists st'. split; [done|].
  unfold dirFS_Stat. rewrite E, Ep. unfold map_err. rewrite Es. by destruct (find_node _ _).
Qed.

(** C39: an open directory is a snapshot of its listing, taken at the first page:
    read page by page it gives every file of the directory once, in the order of
    their names and at most [n] at a time, and [io.EOF] at its end, whatever
    happens to the tree and the connection in between. *)
Theorem dirFS_pages_snapshot (others : T -> T) r name st fuel find_fuel n : ts_ok fs st -> dir_path r ->
  is_Some (smbPath (mkDirFS fs (path_of r)) name) -> dir_path (r ++ elems name) ->
  find_node (ts_nodes fs st) (r ++ elems name) = Some Dir ->
  0 < n -> Z.of_nat (size (ts_nodes fs st)) < 2 ^ 63 ->
  (size (ts_nodes fs st) < fuel)%nat -> (size (ts_nodes fs st) + 2 <= find_fuel)%nat ->
  exists d st1 pages st', dirFS_Open (mkDirFS fs (path_of r)) name st = (Ok (inl d), st1) /\
    read_dir_pages (fun d => dirFSDir_ReadDir find_fuel d n) others fuel d st1 = (Ok (pages, EOF), st') /\
    mjoin pages ≡ₚ (fun '(x, m) => info_of [x] m) <$> children (ts_nodes fs st) (r ++ elems name) /\
    StronglySorted info_order (mjoin pages) /\ Forall (fun page => len page <= n) pages.
Proof.
  intros Hst Hr [p E] Hp Hdir Hn Hsize Hfuel Hff.
  assert (Forall proper r) as Hrp by (destruct Hr as [-> |Hr]; [constructor|apply names_proper, Hr]).
  destruct (smbPath_spec fs r name p Hrp E) as (Ep & _). set (q := r ++ elems name) in *.
  destruct (statInfo_served q st Hst Hp (path_of r)) as (st1 & Hm & Es). rewrite Hdir in Es.
  assert (FileStat_IsDir (seen q Dir) = true) as Hseen by (unfold seen; by case_bool_decide).
  set (d := mkDirFSDir (mkDirFS fs (path_of r)) name p (seen q Dir) false [] 0).
  assert (dirFS_Open (mkDirFS fs (path_of r)) name st = (Ok (inl d), st1)) as Eo.
  { unfold dirFS_Open. rewrite E, Ep. unfold mbind_M, map_err. rewrite Es, Hseen. unfold d. by rewrite Ep. }
  pose proof (mv_nodes _ _ _ Hm) as En.
  destruct (tl_readdir q st1 find_fuel) as (l & st2 & Hm2 & Hl & E2); [apply Hm|done|by rewrite En|by rewrite En|].
  set (infos := (fun '(x, m) => info_of [x] m) <$> l) in *.
  set (d1 := mkDirFSDir (mkDirFS fs (path_of r)) name p (seen q Dir) true (sort_infos infos) 0).
  assert (sort_infos infos ≡ₚ infos) as Hsort by apply (merge_sort_Permutation info_order).
  assert (len (sort_infos infos) <= Z.of_nat (size (ts_nodes fs st))) as Hlen.
  { unfold len. rewrite (Permutation_length Hsort). unfold infos. rewrite length_fmap, (Permutation_length Hl), En.
    pose proof (children_size (ts_nodes fs st) q). lia. }
  assert (dirFSDir_ReadDir find_fuel d n st1 = dirFSDir_ReadDir find_fuel d1 n st2) as Efirst.
  { unfold dirFSDir_ReadDir, d, d1. cbn [fd_loaded fd_path fd_fsys df_share]. rewrite Ep. unfold mbind_M at 1, attempt. by rewrite E2. }
  destruct (snapshot_pages others find_fuel n fuel Hn d1 st2) as (pages & st' & Epg & Hj & Hpg);
    [done|cbn [d1 fd_offset fd_entries]; pose proof (len_nonneg (sort_infos infos)); lia..|].
  exists d, st1, pages, st'. split_and!; [done| | | |done].
  - destruct fuel as [|fuel]; [lia|]. cbn [read_dir_pages] in *. unfold mbind_M at 1. unfold mbind_M at 1 in Epg.
    by rewrite Efirst.
  - rewrite Hj. cbn [d1 fd_offset fd_entries]. rewrite drop_0, Hsort. unfold infos. by rewrite Hl, En.
  - rewrite Hj. cbn [d1 fd_offset fd_entries]. rewrite drop_0. apply (StronglySorted_merge_sort info_order).
Qed.
End served.

(** ** Examples *)

Lemma dirFS_Stat_shows_witness :
  exists st', moved example_share (example_server example_nodes) example_nodes st' /\
    dirFS_Stat (mkDirFS example_share (path_of [str "a"])) (str "b/y") (example_server example_nodes) =
    (match find_node example_nodes ([str "a"] ++ elems (str "b/y")) with
     | Some n => Ok (seen ([str "a"] ++ elems (str "b/y")) n)
     | None => Err (PathError "stat" (str "b/y") ErrNotExist)
     end, st').
Proof.
  pose proof (dirFS_Stat_shows (fs := example_share) (ts := share_tree_server example_share) [str "a"] (str "b/y")
    (example_server example_nodes) (example_server_ok _ example_nodes_ok) ltac:(right; by_deciding)) as H.
  assert (smbPath (mkDirFS example_share (path_of [str "a"])) (str "b/y") = Some (str "a\b\y")) as E by reflexivity.
  rewrite E in H. apply H. right. by_deciding.
Defined.

(** The server forgets everything between the pages. *)
Lemma dirFS_pages_snapshot_witness :
  exists d st1 pages st', dirFS_Open (mkDirFS example_share []) (str "a") (example_server example_nodes) = (Ok (inl d), st1) /\
    read_dir_pages (fun d => dirFSDir_ReadDir 8 d 1) (with_nodes ∅) 7 d st1 = (Ok (pages, EOF), st') /\
    mjoin pages ≡ₚ (fun '(x, m) => info_of [x] m) <$> children example_nodes [str "a"] /\
    StronglySorted info_order (mjoin pages) /\ Forall (fun page => len page <= 1) pages.
Proof.
  apply (dirFS_pages_snapshot (fs := example_share) (ts := share_tree_server example_share) (with_nodes ∅) [] (str "a")
    (example_server example_nodes) 7 8 1).
  - apply example_server_ok, example_nodes_ok.
  - by left.
  - by eexists.
  - right. by_deciding.
  - reflexivity.
  - reflexivity.
  - vm_compute. reflexivity.
  - by_deciding.
  - by_deciding.
Defined.
