(* ===== verification/Buffers.v ===== *)
(** * Reading and writing anywhere in a buffer

    [copy_at] and [slice] in range, as total functions: [write] keeps the length
    of the buffer, and a [read] sees the last [write] to its place. *)

From S2P Require Export Prelude.

Definition write (b : bytes) (o : Z) (s : bytes) : bytes :=
  take (Z.to_nat o) b ++ take (length b - Z.to_nat o) s ++ drop (Z.to_nat o + length s) b.
Definition read (b : bytes) (lo hi : Z) : bytes :=
  take (Z.to_nat (hi - lo)) (drop (Z.to_nat lo) b).

Lemma length_write b o s : length (write b o s) = length b.
Proof. unfold write. rewrite !length_app, !length_take, length_drop. lia. Qed.
Lemma len_write b o s : len (write b o s) = len b.
Proof. unfold len. by rewrite length_write. Qed.
Lemma len_read b lo hi : 0 <= lo <= hi -> hi <= len b -> len (read b lo hi) = hi - lo.
Proof. intros. unfold read. autorewrite with len. lia. Qed.
#[export] Hint Rewrite len_write : len.

Lemma slice_read (b : bytes) lo hi : 0 <= lo <= hi -> hi <= len b -> slice b lo hi = Ok (read b lo hi).
Proof. apply slice_ok. Qed.

Lemma copy_at_end b o hi s : 0 <= o <= len b -> hi = len b -> copy_at b o hi s = Ok (write b o s).
Proof.
  intros Ho ->. unfold copy_at, write.
  rewrite (proj2 (Z.leb_le 0 o)), (proj2 (Z.leb_le o _)), (proj2 (Z.leb_le (len b) _)) by lia.
  cbn [andb]. f_equal. unfold len in *. f_equal. destruct (Nat.le_gt_cases (length s) (length b - Z.to_nat o)).
  - rewrite !(take_ge s) by lia. do 2 f_equal. lia.
  - rewrite !(drop_ge b) by lia. do 2 f_equal. lia.
Qed.

Lemma copy_at_write b o hi s :
  0 <= o -> o + len s <= hi <= len b -> copy_at b o hi s = Ok (write b o s).
Proof.
  intros Ho H. pose proof (len_nonneg s). unfold copy_at, write.
  rewrite (proj2 (Z.leb_le 0 o)), (proj2 (Z.leb_le o hi)), (proj2 (Z.leb_le hi _)) by lia.
  cbn [andb]. f_equal. unfold len in *. rewrite !(take_ge s) by lia. do 3 f_equal. lia.
Qed.

Lemma copy_at_cut b lo hi s :
  0 <= lo <= hi -> hi <= len b ->
  copy_at b lo hi s = Ok (write b lo (take (Z.to_nat (hi - lo)) s)).
Proof.
  intros H1 H2. rewrite <- copy_at_write with (hi := hi) by (autorewrite with len; lia).
  unfold copy_at. rewrite len_take.
  rewrite (proj2 (Z.leb_le 0 lo)), (proj2 (Z.leb_le lo hi)), (proj2 (Z.leb_le hi _)) by lia.
  cbn [andb]. rewrite take_take. do 2 f_equal.
  replace (Z.min (hi - lo) (Z.min (Z.of_nat (Z.to_nat (hi - lo))) (len s)))
    with (Z.min (hi - lo) (len s)) by lia.
  by rewrite Nat.min_l by lia.
Qed.

Lemma put_le_write n b o hi v :
  0 <= o -> o + Z.of_nat n <= hi <= len b -> put_le n b o hi v = Ok (write b o (le_put n v)).
Proof.
  intros Ho H. unfold put_le. rewrite (proj2 (Z.ltb_ge _ _)) by lia.
  apply copy_at_write; rewrite ?len_le_put; lia.
Qed.

Lemma write_split a b c s o :
  o = len a -> len s = len b -> write (a ++ b ++ c) o s = a ++ s ++ c.
Proof.
  intros -> Hs. pose proof (copy_at_mid a b c s (len a) (len a + len b) eq_refl eq_refl Hs) as H.
  rewrite copy_at_write in H; [by injection H|apply len_nonneg|len_lia].
Qed.

Lemma read_split a b c lo hi : lo = len a -> hi = len a + len b -> read (a ++ b ++ c) lo hi = b.
Proof.
  intros H1 H2. pose proof (slice_mid a b c lo hi H1 H2) as H.
  rewrite slice_read in H; [by injection H|len_lia..].
Qed.

Lemma write_suffix a b s o : o = len a -> len s = len b -> write (a ++ b) o s = a ++ s.
Proof.
  intros Ho Hs. pose proof (write_split a b [] s o Ho Hs) as H. by rewrite !app_nil_r in H.
Qed.

(** A buffer around two of its positions. *)
Lemma buf_split (b : bytes) lo hi :
  0 <= lo <= hi -> hi <= len b ->
  exists a m c, b = a ++ m ++ c /\ len a = lo /\ len m = hi - lo.
Proof.
  intros H1 H2. destruct (split_at b lo) as (a & r & -> & Ha & Hr); [lia|].
  destruct (split_at r (hi - lo)) as (m & c & -> & Hm & Hc); [lia|].
  by exists a, m, c.
Qed.

Lemma read_write_same b o s lo hi :
  lo = o -> hi = o + len s -> 0 <= o -> o + len s <= len b -> read (write b o s) lo hi = s.
Proof.
  intros -> -> Ho H. pose proof (len_nonneg s).
  destruct (buf_split b o (o + len s)) as (a & m & c & -> & <- & Hm); [lia|lia|].
  rewrite write_split by lia. by apply read_split.
Qed.

Lemma read_write_other b o s lo hi :
  0 <= o -> 0 <= lo <= hi -> hi <= len b -> o + len s <= len b ->
  hi <= o \/ o + len s <= lo -> read (write b o s) lo hi = read b lo hi.
Proof.
  intros Ho Hlo Hhi Hs Hd. pose proof (len_nonneg s).
  destruct (buf_split b o (o + len s)) as (a & m & c & -> & <- & Hm); [lia|lia|].
  rewrite write_split by lia. destruct Hd as [Hd|Hd].
  - unfold read. rewrite !drop_app_le by (unfold len in *; lia).
    rewrite !take_app_le by (rewrite length_drop; unfold len in *; lia). done.
  - unfold read. rewrite !(app_assoc a).
    rewrite !drop_app_ge by (unfold len in *; rewrite length_app; lia).
    rewrite !length_app. unfold len in *. do 2 f_equal. lia.
Qed.

(** Reading what a wider read holds. *)
Lemma read_read b lo hi lo' hi' :
  0 <= lo -> 0 <= lo' <= hi' -> hi' <= hi - lo -> hi <= len b ->
  read (read b lo hi) lo' hi' = read b (lo + lo') (lo + hi').
Proof.
  intros. destruct (buf_split b lo hi) as (a & m & c & -> & <- & Hm); [lia|lia|].
  rewrite (read_split a m c) by lia.
  destruct (buf_split m lo' hi') as (x & y & z & -> & <- & Hy); [lia|lia|].
  rewrite (read_split x y z) by lia. rewrite <- !app_assoc, (app_assoc a x).
  rewrite read_split; [done|len_lia|len_lia].
Qed.

Lemma read_zeros n lo hi : 0 <= lo <= hi -> hi <= Z.of_nat n ->
  read (replicate n Byte.x00) lo hi = replicate (Z.to_nat (hi - lo)) Byte.x00.
Proof.
  intros. unfold read. rewrite drop_replicate, take_replicate. f_equal. lia.
Qed.

(** Writes next to each other are one write. *)
Lemma write_app b o o' s t :
  0 <= o -> o' = o + len s -> o + len s + len t <= len b ->
  write (write b o s) o' t = write b o (s ++ t).
Proof.
  intros Ho -> H. pose proof (len_nonneg s). pose proof (len_nonneg t).
  destruct (buf_split b o (o + len (s ++ t))) as (a & m & c & -> & <- & Hm);
    [len_lia|len_lia|].
  rewrite len_app in Hm.
  destruct (split_at m (len s)) as (m1 & m2 & -> & H1' & H2'); [lia|].
  rewrite <- (app_assoc m1), (write_split a m1 (m2 ++ c) s), (app_assoc a s),
    (write_split (a ++ s) m2 c t) by (rewrite ?len_app; lia).
  rewrite (app_assoc m1), (write_split a (m1 ++ m2) c (s ++ t)) by (rewrite ?len_app; lia).
  by rewrite <- !app_assoc.
Qed.

(** Writing back what was there. *)
Lemma write_read b o s :
  0 <= o -> o + len s <= len b -> read b o (o + len s) = s -> write b o s = b.
Proof.
  intros Ho H Hr. pose proof (len_nonneg s).
  destruct (buf_split b o (o + len s)) as (a & m & c & -> & <- & Hm); [lia|lia|].
  rewrite (read_split a m c) in Hr by lia. subst m. by rewrite write_split.
Qed.

Lemma write_write b o s t :
  0 <= o -> o + len s <= len b -> len t = len s -> write (write b o s) o t = write b o t.
Proof.
  intros Ho H Ht. pose proof (len_nonneg s).
  destruct (buf_split b o (o + len s)) as (a & m & c & -> & <- & Hm); [lia|lia|].
  by rewrite !write_split by lia.
Qed.

#[global] Arguments write : simpl never.
#[global] Arguments read : simpl never.

(** Rewrites a read of written buffers to what was written, or to the read of the
    buffer before. *)
Ltac read_tac :=
  repeat first
    [ rewrite read_write_same by (autorewrite with len; lia)
    | rewrite read_write_other by (autorewrite with len; lia) ].
