(* ===== verification/Crypto.v ===== *)
(** * Hashes and ciphers of the Go standard library

    What NTLM uses of [crypto/md5], [crypto/hmac], [crypto/rc4] and [hash/crc32],
    computed for real: the test vectors of the RFCs and of [ntlm_test.go] are
    examples below and in [Ntlm].  MD4 ([golang.org/x/crypto/md4]) is not of the
    standard library: the definitions that use it take it as an argument, and
    [md4_sum], which is RFC 1320, is what the examples give them. *)

From S2P Require Export Prelude.

(** ** 32-bit words *)

Definition add32 (a b : Z) : Z := wrap 32 (a + b).
Definition not32 (a : Z) : Z := Z.lxor a 0xFFFFFFFF.
Definition rotl32 (x k : Z) : Z := Z.lor (wrap 32 (Z.shiftl x k)) (Z.shiftr x (32 - k)).

(** Four words, the state of MD4 and MD5. *)
Record digest := mkDigest { dA : Z; dB : Z; dC : Z; dD : Z }.
Definition digest_init : digest := mkDigest 0x67452301 0xefcdab89 0x98badcfe 0x10325476.
Definition digest_add (x y : digest) : digest :=
  mkDigest (add32 (dA x) (dA y)) (add32 (dB x) (dB y)) (add32 (dC x) (dC y)) (add32 (dD x) (dD y)).
Definition digest_bytes (d : digest) : bytes :=
  le_put 4 (dA d) ++ le_put 4 (dB d) ++ le_put 4 (dC d) ++ le_put 4 (dD d).

(** The message, a one bit, zeros, and its length in bits: whole blocks. *)
Definition md_pad (m : bytes) : bytes :=
  m ++ [Byte.x80] ++ replicate (Z.to_nat ((55 - len m) mod 64)) Byte.x00 ++ le_put 8 (8 * len m).

(** The blocks of 64 bytes as words, and the compression of one after another. *)
Definition block_words (b : bytes) : list Z :=
  (fun i => le_get (take 4 (drop (4 * i) b))) <$> seq 0 16.
Fixpoint md_blocks (step : digest -> list Z -> digest) (n : nat) (b : bytes) (d : digest) : digest :=
  match n with
  | O => d
  | S n => md_blocks step n (drop 64 b) (digest_add d (step d (block_words (take 64 b))))
  end.
Definition md_sum (step : digest -> list Z -> digest) (m : bytes) : bytes :=
  let p := md_pad m in digest_bytes (md_blocks step (Z.to_nat (len p / 64)) p digest_init).

(** ** MD5 ([crypto/md5]) *)

Definition md5_table : list Z :=
  [0xd76aa478; 0xe8c7b756; 0x242070db; 0xc1bdceee; 0xf57c0faf; 0x4787c62a;
   0xa8304613; 0xfd469501; 0x698098d8; 0x8b44f7af; 0xffff5bb1; 0x895cd7be;
   0x6b901122; 0xfd987193; 0xa679438e; 0x49b40821; 0xf61e2562; 0xc040b340;
   0x265e5a51; 0xe9b6c7aa; 0xd62f105d; 0x02441453; 0xd8a1e681; 0xe7d3fbc8;
   0x21e1cde6; 0xc33707d6; 0xf4d50d87; 0x455a14ed; 0xa9e3e905; 0xfcefa3f8;
   0x676f02d9; 0x8d2a4c8a; 0xfffa3942; 0x8771f681; 0x6d9d6122; 0xfde5380c;
   0xa4beea44; 0x4bdecfa9; 0xf6bb4b60; 0xbebfbc70; 0x289b7ec6; 0xeaa127fa;
   0xd4ef3085; 0x04881d05; 0xd9d4d039; 0xe6db99e5; 0x1fa27cf8; 0xc4ac5665;
   0xf4292244; 0x432aff97; 0xab9423a7; 0xfc93a039; 0x655b59c3; 0x8f0ccc92;
   0xffeff47d; 0x85845dd1; 0x6fa87e4f; 0xfe2ce6e0; 0xa3014314; 0x4e0811a1;
   0xf7537e82; 0xbd3af235; 0x2ad7d2bb; 0xeb86d391].
Definition md5_shifts : list Z := [7; 12; 17; 22;  5; 9; 14; 20;  4; 11; 16; 23;  6; 10; 15; 21].

Definition md5_step (w : list Z) (d : digest) (i : Z) : digest :=
  let '(mkDigest a b c d) := d in
  let '(f, g) :=
    if i <? 16 then (Z.lor (Z.land b c) (Z.land (not32 b) d), i)
    else if i <? 32 then (Z.lor (Z.land d b) (Z.land (not32 d) c), (5 * i + 1) mod 16)
    else if i <? 48 then (Z.lxor b (Z.lxor c d), (3 * i + 5) mod 16)
    else (Z.lxor c (Z.lor b (not32 d)), (7 * i) mod 16) in
  let f := add32 (add32 f a) (add32 (nth (Z.to_nat i) md5_table 0) (nth (Z.to_nat g) w 0)) in
  mkDigest d (add32 b (rotl32 f (nth (Z.to_nat (4 * (i / 16) + i mod 4)) md5_shifts 0))) b c.
Definition md5_block (d : digest) (w : list Z) : digest :=
  foldl (md5_step w) d (Z.of_nat <$> seq 0 64).
Definition md5_sum : bytes -> bytes := md_sum md5_block.

(** ** MD4 (RFC 1320) *)

Definition md4_shifts : list Z := [3; 7; 11; 19;  3; 5; 9; 13;  3; 9; 11; 15].
Definition md4_order : list Z :=
  [0; 4; 8; 12; 1; 5; 9; 13; 2; 6; 10; 14; 3; 7; 11; 15;
   0; 8; 4; 12; 2; 10; 6; 14; 1; 9; 5; 13; 3; 11; 7; 15].
Definition md4_step (w : list Z) (d : digest) (i : Z) : digest :=
  let '(mkDigest a b c d) := d in
  let '(f, k, g) :=
    if i <? 16 then (Z.lor (Z.land b c) (Z.land (not32 b) d), 0, i)
    else if i <? 32 then (Z.lor (Z.land b c) (Z.lor (Z.land b d) (Z.land c d)), 0x5a827999,
                          nth (Z.to_nat (i - 16)) md4_order 0)
    else (Z.lxor b (Z.lxor c d), 0x6ed9eba1, nth (Z.to_nat (i - 16)) md4_order 0) in
  let f := add32 (add32 f a) (add32 k (nth (Z.to_nat g) w 0)) in
  mkDigest d (rotl32 f (nth (Z.to_nat (4 * (i / 16) + i mod 4)) md4_shifts 0)) b c.
Definition md4_block (d : digest) (w : list Z) : digest :=
  foldl (md4_step w) d (Z.of_nat <$> seq 0 48).
Definition md4_sum : bytes -> bytes := md_sum md4_block.

(** ** HMAC-MD5 ([crypto/hmac])

    A running MAC: its key and what was written to it. *)

Definition xor8 (a b : byte) : byte := byte_of (Z.lxor (u8 a) (u8 b)).

Definition hmac_md5 (key m : bytes) : bytes :=
  let k := if 64 <? len key then md5_sum key else key in
  let k := k ++ replicate (64 - length k) Byte.x00 in
  md5_sum ((xor8 Byte.x5c <$> k) ++ md5_sum ((xor8 Byte.x36 <$> k) ++ m)).

Record Hmac := mkHmac { hm_key : bytes; hm_data : bytes }.
Definition hmac_New (key : bytes) : Hmac := mkHmac key [].
Definition hm_Write (h : Hmac) (b : bytes) : Hmac := mkHmac (hm_key h) (hm_data h ++ b).
Definition hm_Reset (h : Hmac) : Hmac := mkHmac (hm_key h) [].
Definition hm_Sum (h : Hmac) : bytes := hmac_md5 (hm_key h) (hm_data h).

(** ** RC4 ([crypto/rc4]) *)

Record Cipher := mkCipher { rc_s : list Z; rc_i : Z; rc_j : Z }.

Definition swap (s : list Z) (i j : Z) : list Z :=
  let x := nth (Z.to_nat i) s 0 in
  <[Z.to_nat i := nth (Z.to_nat j) s 0]> (<[Z.to_nat j := x]> s).

Fixpoint rc4_schedule (key : bytes) (n : nat) (i j : Z) (s : list Z) : list Z :=
  match n with
  | O => s
  | S n =>
    let j := (j + nth (Z.to_nat i) s 0 + u8 (nth (Z.to_nat (i mod len key)) key Byte.x00)) mod 256 in
    rc4_schedule key n (i + 1) j (swap s i j)
  end.

Definition rc4_NewCipher (key : bytes) : res Cipher :=
  if (len key <? 1) || (256 <? len key) then Err (Errorf "crypto/rc4: invalid key size")
  else Ok (mkCipher (rc4_schedule key 256 0 0 (Z.of_nat <$> seq 0 256)) 0 0).

Fixpoint keystream (n : nat) (c : Cipher) : bytes * Cipher :=
  match n with
  | O => ([], c)
  | S n =>
    let i := (rc_i c + 1) mod 256 in
    let j := (rc_j c + nth (Z.to_nat i) (rc_s c) 0) mod 256 in
    let s := swap (rc_s c) i j in
    let k := nth (Z.to_nat ((nth (Z.to_nat i) s 0 + nth (Z.to_nat j) s 0) mod 256)) s 0 in
    let '(ks, c) := keystream n (mkCipher s i j) in (byte_of k :: ks, c)
  end.

(** [c.XORKeyStream(dst, src)]: the new [dst]. *)
Definition XORKeyStream (c : Cipher) (dst src : bytes) : res (bytes * Cipher) :=
  if len dst <? len src then Panic else
  let '(ks, c) := keystream (length src) c in
  Ok (zip_with xor8 ks src ++ drop (length src) dst, c).

(** ** CRC-32 ([hash/crc32]) *)

Definition crc_bit (c : Z) : Z :=
  let s := Z.shiftr c 1 in if Z.testbit c 0 then Z.lxor s 0xEDB88320 else s.
Definition crc_byte (c : Z) (b : byte) : Z := Nat.iter 8 crc_bit (Z.lxor c (u8 b)).
Definition crc32_ChecksumIEEE (m : bytes) : Z := not32 (foldl crc_byte 0xFFFFFFFF m).

(** ** Lengths *)

Lemma len_md_sum step m : len (md_sum step m) = 16.
Proof. unfold md_sum, digest_bytes. autorewrite with len. lia. Qed.

Lemma len_md5_sum m : len (md5_sum m) = 16.
Proof. apply len_md_sum. Qed.

Lemma len_hmac_md5 k m : len (hmac_md5 k m) = 16.
Proof. apply len_md_sum. Qed.

Lemma len_hm_Sum h : len (hm_Sum h) = 16.
Proof. apply len_md_sum. Qed.

Lemma length_keystream n c : length (fst (keystream n c)) = n.
Proof.
  revert c. induction n as [|n IH]; intros c; [done|]. cbn [keystream].
  destruct (keystream n _) as [ks c'] eqn:E. cbn [fst length]. f_equal.
  by rewrite <- (IH (mkCipher (swap (rc_s c) ((rc_i c + 1) mod 256)
    ((rc_j c + nth (Z.to_nat ((rc_i c + 1) mod 256)) (rc_s c) 0) mod 256))
    ((rc_i c + 1) mod 256) ((rc_j c + nth (Z.to_nat ((rc_i c + 1) mod 256)) (rc_s c) 0) mod 256))), E.
Qed.

#[export] Hint Rewrite len_md5_sum len_hmac_md5 len_hm_Sum : len.

(** ** Encrypting and decrypting *)

Lemma xor8_range a b : 0 <= Z.lxor (u8 a) (u8 b) < 256.
Proof.
  pose proof (u8_range a) as Ha. pose proof (u8_range b) as Hb.
  replace (Z.lxor (u8 a) (u8 b)) with (Z.lxor (u8 a) (u8 b) mod 2 ^ 8);
    [by apply Z.mod_pos_bound|].
  apply Z.bits_inj'. intros i Hi. destruct (Z.ltb_spec i 8).
  - by rewrite Z.mod_pow2_bits_low.
  - rewrite Z.mod_pow2_bits_high, Z.lxor_spec by lia.
    rewrite <- (Z.mod_small (u8 a) (2 ^ 8)), <- (Z.mod_small (u8 b) (2 ^ 8)) by done.
    by rewrite !Z.mod_pow2_bits_high by lia.
Qed.

Lemma xor8_involutive k b : xor8 k (xor8 k b) = b.
Proof.
  unfold xor8. rewrite u8_byte_of, Z.mod_small by apply xor8_range.
  by rewrite <- Z.lxor_assoc, Z.lxor_nilpotent, Z.lxor_0_l, byte_of_u8.
Qed.

Lemma zip_xor_involutive ks b :
  length ks = length b -> zip_with xor8 ks (zip_with xor8 ks b) = b.
Proof.
  revert b. induction ks as [|k ks IH]; intros [|x b]; try done. intros [= H].
  cbn [zip_with]. by rewrite xor8_involutive, IH.
Qed.

(** Two ciphers in the same state undo each other, and end in the same state. *)
Lemma XORKeyStream_undo c dst dst' src :
  len dst = len src -> len dst' = len src ->
  exists e c', XORKeyStream c dst src = Ok (e, c') /\ len e = len src /\
    XORKeyStream c dst' e = Ok (src, c').
Proof.
  intros H H'. unfold XORKeyStream. destruct (keystream (length src) c) as [ks c'] eqn:E.
  pose proof (length_keystream (length src) c) as Hk. rewrite E in Hk. cbn [fst] in Hk.
  rewrite (proj2 (Z.ltb_ge _ _)) by lia.
  exists (zip_with xor8 ks src), c'.
  rewrite drop_ge, app_nil_r by (unfold len in H; lia).
  assert (length (zip_with xor8 ks src) = length src) as Hl by (rewrite length_zip_with_l; lia).
  split; [done|]. split; [unfold len; lia|].
  rewrite (proj2 (Z.ltb_ge _ _)) by (unfold len in *; lia).
  rewrite Hl, E, zip_xor_involutive by done.
  by rewrite drop_ge, app_nil_r by (unfold len in H'; lia).
Qed.

(** ** Test vectors *)

Definition hex_digit (a : Ascii.ascii) : Z :=
  let n := Z.of_nat (Ascii.nat_of_ascii a) in if n <? 58 then n - 48 else n - 87.
Fixpoint hex (s : string) : bytes :=
  match s with
  | String a (String b t) => byte_of (16 * hex_digit a + hex_digit b) :: hex t
  | _ => []
  end.

Example md5_abc : md5_sum (str "abc") = hex "900150983cd24fb0d6963f7d28e17f72".
Proof. vm_compute. reflexivity. Qed.
Example md5_long :
  md5_sum (str "12345678901234567890123456789012345678901234567890123456789012345678901234567890") =
  hex "57edf4a22be3c955ac49da2e2107b67a".
Proof. vm_compute. reflexivity. Qed.
Example md4_abc : md4_sum (str "abc") = hex "a448017aaf21d8525fc10ae87aa6729d".
Proof. vm_compute. reflexivity. Qed.
Example hmac_jefe : hmac_md5 (str "Jefe") (str "what do ya want for nothing?") =
  hex "750c783e6ab0b503eaa86e310a5db738".
Proof. vm_compute. reflexivity. Qed.
Example crc_check : crc32_ChecksumIEEE (str "123456789") = 0xCBF43926.
Proof. vm_compute. reflexivity. Qed.
Example rc4_key :
  (let! c := rc4_NewCipher (str "Key") in
   let! (e, _) := XORKeyStream c (replicate 9 Byte.x00) (str "Plaintext") in Ok e) =
  Ok (hex "bbf316e8d940af0ad3").
Proof. vm_compute. reflexivity. Qed.
