(* ===== verification/Ntlm.v ===== *)
(** * NTLM: keys, signatures, target information ([internal/ntlm/ntlm.go],
    [internal/ntlm/session.go])

    The pieces the two sides of an NTLMv2 logon share: the one-way functions, the
    response to a challenge, the list of attribute-value pairs a challenge carries,
    the keys of a session, and signing and sealing with them.  MD4 is a parameter
    ([md4]); the other hashes and RC4 are those of [Crypto].

    Go slices share memory, and the code relies on it: the pairs [parseAvPairs]
    returns are positions in the list it was given, and encoding target information
    writes to the list it was made from. *)

From stdpp Require Import gmap.
From S2P Require Export Buffers Crypto Utf16le.

(** ** Constants *)

Definition version : bytes := hex "0a0000000000000f".
Definition signature : bytes := str "NTLMSSP" ++ [Byte.x00].
Definition zero16 : bytes := replicate 16 Byte.x00.

Definition NtLmNegotiate : Z := 1.
Definition NtLmChallenge : Z := 2.
Definition NtLmAuthenticate : Z := 3.

Definition NTLMSSP_NEGOTIATE_UNICODE : Z := Z.shiftl 1 0.
Definition NTLMSSP_REQUEST_TARGET : Z := Z.shiftl 1 2.
Definition NTLMSSP_NEGOTIATE_SIGN : Z := Z.shiftl 1 4.
Definition NTLMSSP_NEGOTIATE_SEAL : Z := Z.shiftl 1 5.
Definition NTLMSSP_NEGOTIATE_DATAGRAM : Z := Z.shiftl 1 6.
Definition NTLMSSP_NEGOTIATE_LM_KEY : Z := Z.shiftl 1 7.
Definition NTLMSSP_NEGOTIATE_NTLM : Z := Z.shiftl 1 9.
Definition NTLMSSP_NEGOTIATE_EXTENDED_SESSIONSECURITY : Z := Z.shiftl 1 19.
Definition NTLMSSP_NEGOTIATE_TARGET_INFO : Z := Z.shiftl 1 23.
Definition NTLMSSP_NEGOTIATE_VERSION : Z := Z.shiftl 1 25.
Definition NTLMSSP_NEGOTIATE_128 : Z := Z.shiftl 1 29.
Definition NTLMSSP_NEGOTIATE_KEY_EXCH : Z := Z.shiftl 1 30.
Definition NTLMSSP_NEGOTIATE_56 : Z := Z.shiftl 1 31.

Definition defaultFlags : Z :=
  foldr Z.lor 0
    [NTLMSSP_NEGOTIATE_56; NTLMSSP_NEGOTIATE_KEY_EXCH; NTLMSSP_NEGOTIATE_128;
     NTLMSSP_NEGOTIATE_TARGET_INFO; NTLMSSP_NEGOTIATE_EXTENDED_SESSIONSECURITY;
     NTLMSSP_NEGOTIATE_NTLM; NTLMSSP_NEGOTIATE_SIGN; NTLMSSP_REQUEST_TARGET;
     NTLMSSP_NEGOTIATE_UNICODE; NTLMSSP_NEGOTIATE_VERSION].

Definition MsvAvEOL : Z := 0.
Definition MsvAvFlags : Z := 6.
Definition MsvAvTimestamp : Z := 7.
Definition MsvAvTargetName : Z := 9.
Definition MsvAvChannelBindings : Z := 10.

(** A negotiated capability. *)
Definition has (flags f : Z) : bool := negb (Z.land flags f =? 0).

(** ** One-way functions *)

Definition ntowfv2Hash (USER hash domain : bytes) : bytes :=
  hm_Sum (hm_Write (hm_Write (hmac_New hash) USER) domain).

Section md4.
Variable md4 : bytes -> bytes.
Definition ntowfv2 (USER password domain : bytes) : bytes := ntowfv2Hash USER (md4 password) domain.
End md4.

(** ** Attribute-value pairs *)

Definition all_zero (b : bytes) : bool := forallb (fun c => u8 c =? 0) b.

(** The loop over the pairs, [bs] at position [off] of the list; a value is
    where it lies in the list and how long it is. *)
Fixpoint av_loop (fuel : nat) (bs : bytes) (off : Z) (pairs : gmap Z (Z * Z)) :
    res (option (gmap Z (Z * Z))) :=
  match fuel with
  | O => Panic
  | S fuel =>
    if len bs <=? 0 then Ok (Some pairs) else
    if len bs <? 4 then Ok None else
    let! id := u16 bs 0 2 in
    let! n := u16 bs 2 4 in
    if len bs <? 4 + n then Ok None else
    let! _ := slice bs 4 (4 + n) in
    let! rest := slice bs (4 + n) (len bs) in
    av_loop fuel rest (off + (4 + n)) (<[id := (off + 4, n)]> pairs)
  end.

Definition parseAvPairs (bs : bytes) : res (option (gmap Z (Z * Z))) :=
  if len bs <? 4 then Ok None else
  let! tail := slice bs (len bs - 4) (len bs) in
  if all_zero tail then av_loop (S (length bs)) bs 0 ∅ else Ok None.

(** A value of the map, in the list the map was made from. *)
Definition av_value (info : bytes) (v : Z * Z) : res bytes := slice info v.1 (v.1 + v.2).

(** ** Encoders of target information

    What the response is computed with: a length, and writing into a buffer,
    which may change the memory the encoder refers to. *)

Class encoder (E : Type) := {
  size : E -> Z;
  encode : E -> bytes -> res (bytes * E);
}.

#[export] Instance bytesEncoder : encoder bytes := {|
  size b := len b;
  encode b bs := let! bs := copy_at bs 0 (len bs) b in Ok (bs, b);
|}.

Record targetInfoEncoder := mkTargetInfo {
  Info : bytes;
  SPN : bytes;
  InfoMap : gmap Z (Z * Z);
}.

Definition newTargetInfoEncoder (info spn : bytes) : res (option targetInfoEncoder) :=
  let! m := parseAvPairs info in
  match m with
  | None => Ok None
  | Some infoMap => Ok (Some (mkTargetInfo info spn infoMap))
  end.

Definition ti_size (i : targetInfoEncoder) : Z :=
  let sz := len (Info i) in
  let sz := match InfoMap i !! MsvAvFlags with Some _ => sz | None => sz + 8 end in
  let sz := sz + 20 in
  if negb (len (SPN i) =? 0) then sz + (4 + len (SPN i)) else sz.

(** A pair's identifier and length, written at [off]. *)
Definition put_av (dst : bytes) (off id n : Z) : res bytes :=
  let! dst := put16 dst off (off + 2) id in put16 dst (off + 2) (off + 4) n.

(** The flags value is changed where it lies, in [Info]. *)
Definition ti_encode (i : targetInfoEncoder) (dst : bytes) : res (bytes * targetInfoEncoder) :=
  let! (dst, off, info) :=
    match InfoMap i !! MsvAvFlags with
    | Some flags =>
      let! v := av_value (Info i) flags in
      let! f := get_le 4 v in
      let! info := put32 (Info i) flags.1 (flags.1 + flags.2) (Z.lor f 0x02) in
      let! cut := slice info 0 (len info - 4) in
      let! dst := copy_at dst 0 (len dst) cut in
      Ok (dst, Z.min (len dst) (len cut), info)
    | None =>
      let! cut := slice (Info i) 0 (len (Info i) - 4) in
      let! dst := copy_at dst 0 (len dst) cut in
      let off := Z.min (len dst) (len cut) in
      let! dst := put_av dst off MsvAvFlags 4 in
      let! dst := put32 dst (off + 4) (off + 8) 0x02 in
      Ok (dst, off + 8, Info i)
    end in
  let! dst := put_av dst off MsvAvChannelBindings 16 in
  let off := off + 20 in
  let! (dst, off) :=
    if negb (len (SPN i) =? 0) then
      let! dst := put_av dst off MsvAvTargetName (wrap 16 (len (SPN i))) in
      let! dst := copy_at dst (off + 4) (len dst) (SPN i) in
      Ok (dst, off + (4 + len (SPN i)))
    else Ok (dst, off) in
  let! dst := put_av dst off MsvAvEOL 0 in
  Ok (dst, mkTargetInfo info (SPN i) (InfoMap i)).

#[export] Instance targetInfoEncoder_encoder : encoder targetInfoEncoder := {|
  size := ti_size; encode := ti_encode;
|}.

(** ** The response to a challenge

    The server's challenge is read after the target information was encoded,
    which may have changed the memory it is in. *)

Definition encodeNtlmv2Response {E} `{encoder E} (dst : bytes) (h : Hmac)
    (serverChallenge : E -> res bytes) (clientChallenge timeStamp : bytes) (targetInfo : E) :
    res (bytes * Hmac * E) :=
  let! _ := slice dst 16 (len dst) in
  let! dst := put8 dst 16 1 in
  let! dst := put8 dst 17 1 in
  let! dst := copy_at dst 24 32 timeStamp in
  let! dst := copy_at dst 32 40 clientChallenge in
  let! pairs := slice dst 44 (len dst) in
  let! (pairs, targetInfo) := encode targetInfo pairs in
  let! dst := copy_at dst 44 (len dst) pairs in
  let! challenge := serverChallenge targetInfo in
  let! temp := slice dst 16 (len dst) in
  let h := hm_Write (hm_Write h challenge) temp in
  let! dst := copy_at dst 0 16 (hm_Sum h) in
  Ok (dst, h, targetInfo).

(** ** Signatures and keys *)

(** [mac]: [tag] is what the sixteen bytes it appends held before. *)
Definition mac (tag : bytes) (negotiateFlags : Z) (handle : Cipher) (signingKey : bytes)
    (seqNum : Z) (msg : bytes) : res (bytes * Z * Cipher) :=
  if negb (has negotiateFlags NTLMSSP_NEGOTIATE_EXTENDED_SESSIONSECURITY) then
    let! tag := put32 tag 0 4 1 in
    let! tag := put32 tag 8 12 (crc32_ChecksumIEEE msg) in
    let! a := slice tag 4 8 in
    let! (a, handle) := XORKeyStream handle a a in
    let! b := slice tag 8 12 in
    let! (b, handle) := XORKeyStream handle b b in
    let! c := slice tag 12 16 in
    let! (c, handle) := XORKeyStream handle c c in
    let c := zip_with xor8 c (le_put 4 seqNum) in
    let! tag := copy_at tag 8 12 b in
    let! tag := copy_at tag 12 16 c in
    let! tag := put32 tag 4 8 0 in
    let seqNum := if negb (has negotiateFlags NTLMSSP_NEGOTIATE_DATAGRAM)
                  then wrap 32 (seqNum + 1) else seqNum in
    Ok (tag, seqNum, handle)
  else
    let! tag := put32 tag 0 4 1 in
    let! tag := put32 tag 12 16 seqNum in
    let! n := slice tag 12 16 in
    let h := hm_Write (hm_Write (hmac_New signingKey) n) msg in
    let! tag := copy_at tag 4 12 (hm_Sum h) in
    let! (tag, handle) :=
      if has negotiateFlags NTLMSSP_NEGOTIATE_KEY_EXCH then
        let! sum := slice tag 4 12 in
        let! (sum, handle) := XORKeyStream handle sum sum in
        let! tag := copy_at tag 4 12 sum in
        Ok (tag, handle)
      else Ok (tag, handle) in
    Ok (tag, wrap 32 (seqNum + 1), handle).

Definition signing_magic (fromClient : bool) : bytes :=
  (if fromClient then str "session key to client-to-server signing key magic constant"
   else str "session key to server-to-client signing key magic constant") ++ [Byte.x00].
Definition sealing_magic (fromClient : bool) : bytes :=
  (if fromClient then str "session key to client-to-server sealing key magic constant"
   else str "session key to server-to-client sealing key magic constant") ++ [Byte.x00].

(** [nil] without extended session security: an empty key. *)
Definition signKey (negotiateFlags : Z) (randomSessionKey : bytes) (fromClient : bool) : bytes :=
  if has negotiateFlags NTLMSSP_NEGOTIATE_EXTENDED_SESSIONSECURITY
  then md5_sum (randomSessionKey ++ signing_magic fromClient) else [].

Definition sealKey (negotiateFlags : Z) (randomSessionKey : bytes) (fromClient : bool) : res bytes :=
  if has negotiateFlags NTLMSSP_NEGOTIATE_EXTENDED_SESSIONSECURITY then
    let! part :=
      if has negotiateFlags NTLMSSP_NEGOTIATE_128 then Ok randomSessionKey
      else if has negotiateFlags NTLMSSP_NEGOTIATE_56 then slice randomSessionKey 0 7
      else slice randomSessionKey 0 5 in
    Ok (md5_sum (part ++ sealing_magic fromClient))
  else if has negotiateFlags NTLMSSP_NEGOTIATE_LM_KEY then
    if has negotiateFlags NTLMSSP_NEGOTIATE_56 then
      let! part := slice randomSessionKey 0 7 in Ok (part ++ [Byte.xa0])
    else
      let! part := slice randomSessionKey 0 5 in Ok (part ++ [Byte.xe5; Byte.x38; Byte.xb0])
  else Ok randomSessionKey.

(** [sliceForAppend]: [in_] with [n] bytes more, [spare] being what lies between
    its length and its capacity. *)
Definition sliceForAppend (in_ spare : bytes) (n : Z) : bytes * bytes :=
  let tail := if n <=? len spare then take (Z.to_nat n) spare
              else replicate (Z.to_nat n) Byte.x00 in
  (in_ ++ tail, tail).

(** ** Sessions ([session.go])

    [infoMap] is set and never read. *)

Record Session := mkSession {
  isClientSide : bool;
  s_user : bytes;
  negotiateFlags : Z;
  exportedSessionKey : bytes;
  clientSigningKey : bytes;
  serverSigningKey : bytes;
  clientHandle : Cipher;
  serverHandle : Cipher;
  infoMap : gmap Z (Z * Z);
}.

Definition set_clientHandle (c : Cipher) (s : Session) : Session :=
  mkSession (isClientSide s) (s_user s) (negotiateFlags s) (exportedSessionKey s)
    (clientSigningKey s) (serverSigningKey s) c (serverHandle s) (infoMap s).
Definition set_serverHandle (c : Cipher) (s : Session) : Session :=
  mkSession (isClientSide s) (s_user s) (negotiateFlags s) (exportedSessionKey s)
    (clientSigningKey s) (serverSigningKey s) (clientHandle s) c (infoMap s).

Definition Overhead : Z := 16.

(** [mac] with the keys of one direction. *)
Definition mac_with (fromClient : bool) (s : Session) (tag : bytes) (seqNum : Z) (msg : bytes) :
    res (bytes * Z * Session) :=
  if fromClient then
    let! (t, n, c) := mac tag (negotiateFlags s) (clientHandle s) (clientSigningKey s) seqNum msg in
    Ok (t, n, set_clientHandle c s)
  else
    let! (t, n, c) := mac tag (negotiateFlags s) (serverHandle s) (serverSigningKey s) seqNum msg in
    Ok (t, n, set_serverHandle c s).

(** [None] is a nil slice. *)
Definition Sum (s : Session) (plaintext : bytes) (seqNum : Z) : res (option bytes * Z * Session) :=
  if negb (has (negotiateFlags s) NTLMSSP_NEGOTIATE_SIGN) then Ok (None, 0, s) else
  let! (t, n, s) := mac_with (isClientSide s) s zero16 seqNum plaintext in
  Ok (Some t, n, s).

Definition CheckSum (s : Session) (sum : option bytes) (plaintext : bytes) (seqNum : Z) :
    res (bool * Z * Session) :=
  if negb (has (negotiateFlags s) NTLMSSP_NEGOTIATE_SIGN) then
    match sum with None => Ok (true, 0, s) | Some _ => Ok (false, 0, s) end
  else
    let! (t, n, s) := mac_with (negb (isClientSide s)) s zero16 seqNum plaintext in
    if bool_decide (default [] sum = t) then Ok (true, n, s) else Ok (false, 0, s).

(** [Seal] and [Unseal]: [spare] is the unused capacity of [dst]. *)
Definition Seal (s : Session) (dst spare plaintext : bytes) (seqNum : Z) :
    res (bytes * Z * Session) :=
  let '(_, ciphertext) := sliceForAppend dst spare (len plaintext + 16) in
  let! head := slice ciphertext 0 16 in
  let! body := slice ciphertext 16 (len ciphertext) in
  if has (negotiateFlags s) NTLMSSP_NEGOTIATE_SEAL then
    let! (body, c) := XORKeyStream (clientHandle s) body plaintext in
    let! (tag, n, s) := mac_with (isClientSide s) (set_clientHandle c s) head seqNum plaintext in
    Ok (dst ++ tag ++ body, n, s)
  else if has (negotiateFlags s) NTLMSSP_NEGOTIATE_SIGN then
    let! (tag, n, s) := mac_with (isClientSide s) s head seqNum plaintext in
    Ok (dst ++ tag ++ plaintext, n, s)
  else Ok (dst ++ ciphertext, seqNum, s).

Definition Unseal (s : Session) (dst spare ciphertext : bytes) (seqNum : Z) :
    res (bytes * Z * Session) :=
  if len ciphertext - 16 <? 0 then Panic else
  let '(_, plaintext) := sliceForAppend dst spare (len ciphertext - 16) in
  let! sum := slice ciphertext 0 16 in
  let! body := slice ciphertext 16 (len ciphertext) in
  if has (negotiateFlags s) NTLMSSP_NEGOTIATE_SEAL then
    let! (plaintext, c) := XORKeyStream (serverHandle s) plaintext body in
    let! (tag, n, s) :=
      mac_with (negb (isClientSide s)) (set_serverHandle c s) zero16 seqNum plaintext in
    if bool_decide (sum = tag) then Ok (dst ++ plaintext, n, s)
    else Err (Errorf "signature mismatch")
  else if has (negotiateFlags s) NTLMSSP_NEGOTIATE_SIGN then
    let! (tag, n, s) := mac_with (negb (isClientSide s)) s zero16 seqNum body in
    if bool_decide (sum = tag) then Ok (dst ++ body, n, s)
    else Err (Errorf "signature mismatch")
  else if all_zero sum then Ok (dst ++ body, seqNum, s)
  else Err (Errorf "signature mismatch").

(** ** The vectors of [ntlm_test.go] *)

Definition test_hash : bytes := hex "0c868a403bfd7a93a3001ef22ef02e3f".

Example test_ntowfv2 : ntowfv2 md4_sum (utf16le (str "USER")) (utf16le (str "Password"))
  (utf16le (str "Domain")) = test_hash.
Proof. vm_compute. reflexivity. Qed.

Definition test_info : bytes := hex
  "02000c0044006f006d00610069006e0001000c0053006500720076006500720000000000".
Example test_encodeNtlmv2Response :
  (let! d := make (16 + 28 + len test_info + 4) in
   let! (d, _, _) := encodeNtlmv2Response d (hmac_New test_hash) (fun _ => Ok (hex "0123456789abcdef"))
                       (hex "aaaaaaaaaaaaaaaa") (hex "0000000000000000") (test_info : bytes) in
   slice d 0 16) = Ok (hex "68cd0ab851e51c96aabc927bebef6a1c").
Proof. vm_compute. reflexivity. Qed.

Example test_SealKey :
  sealKey (Z.lor NTLMSSP_NEGOTIATE_EXTENDED_SESSIONSECURITY NTLMSSP_NEGOTIATE_128)
    (replicate 16 Byte.x55) true = Ok (hex "59f600973cc4960a25480a7c196e4c58").
Proof. vm_compute. reflexivity. Qed.

Example test_SignKey :
  signKey NTLMSSP_NEGOTIATE_EXTENDED_SESSIONSECURITY (replicate 16 Byte.x55) true =
  hex "4788dc861b4782f35d43fd98fe1a2d39".
Proof. vm_compute. reflexivity. Qed.

Example test_Seal :
  (let! c := rc4_NewCipher (hex "59f600973cc4960a25480a7c196e4c58") in
   let plain := utf16le (str "Plaintext") in
   let! (body, c) := XORKeyStream c plain plain in
   let! (tag, _, _) := mac zero16
     (Z.lor NTLMSSP_NEGOTIATE_EXTENDED_SESSIONSECURITY NTLMSSP_NEGOTIATE_KEY_EXCH) c
     (hex "4788dc861b4782f35d43fd98fe1a2d39") 0 plain in
   Ok (tag, body)) =
  Ok (hex "010000007fb38ec5c55d497600000000", hex "54e50165bf1936dc996020c1811b0f06fb5f").
Proof. vm_compute. reflexivity. Qed.

(** ** Lists of pairs *)

Definition av_pair (p : Z * bytes) : bytes := le_put 2 p.1 ++ le_put 2 (len p.2) ++ p.2.
Definition av_list (ps : list (Z * bytes)) : bytes := ps ≫= av_pair.
Definition pair_ok (p : Z * bytes) : Prop := 0 <= p.1 < 2 ^ 16 /\ len p.2 < 2 ^ 16.

(** Where the values of a list at position [off] lie. *)
Fixpoint av_positions (off : Z) (ps : list (Z * bytes)) (m : gmap Z (Z * Z)) : gmap Z (Z * Z) :=
  match ps with
  | [] => m
  | p :: ps => av_positions (off + (4 + len p.2)) ps (<[p.1 := (off + 4, len p.2)]> m)
  end.

Lemma len_av_pair p : len (av_pair p) = 4 + len p.2.
Proof. unfold av_pair. autorewrite with len. lia. Qed.
#[export] Hint Rewrite len_av_pair : len.

Lemma av_list_cons p ps : av_list (p :: ps) = av_pair p ++ av_list ps.
Proof. done. Qed.
Lemma av_list_app ps qs : av_list (ps ++ qs) = av_list ps ++ av_list qs.
Proof. apply bind_app. Qed.

Lemma u16_put a v b lo hi :
  lo = len a -> hi = len a + 2 -> 0 <= v < 2 ^ 16 -> u16 (a ++ le_put 2 v ++ b) lo hi = Ok v.
Proof.
  intros -> -> Hv. unfold u16. rewrite slice_mid by len_lia. cbn [bind]. unfold get_le.
  rewrite len_le_put, (proj2 (Z.ltb_ge _ _)) by lia.
  rewrite take_ge by (rewrite length_le_put; lia). by rewrite le_get_put_id.
Qed.

Lemma av_loop_list ps fuel off m :
  Forall pair_ok ps -> (length (av_list ps) < fuel)%nat ->
  av_loop fuel (av_list ps) off m = Ok (Some (av_positions off ps m)).
Proof.
  intros Hps. revert fuel off m.
  induction Hps as [|p ps [Hid Hlen] _ IH]; intros [|fuel] off m Hf; try lia; [done|].
  rewrite av_list_cons in *. cbn [av_loop av_positions].
  pose proof (len_nonneg p.2). pose proof (len_nonneg (av_list ps)).
  rewrite (proj2 (Z.leb_gt _ _)), (proj2 (Z.ltb_ge _ _)) by (autorewrite with len; lia).
  assert (av_pair p ++ av_list ps = [] ++ le_put 2 p.1 ++ (le_put 2 (len p.2) ++ p.2 ++ av_list ps)) as E1
    by (unfold av_pair; by rewrite <- !app_assoc).
  assert (av_pair p ++ av_list ps = le_put 2 p.1 ++ le_put 2 (len p.2) ++ (p.2 ++ av_list ps)) as E2
    by (unfold av_pair; by rewrite <- !app_assoc).
  assert (av_pair p ++ av_list ps = (le_put 2 p.1 ++ le_put 2 (len p.2)) ++ p.2 ++ av_list ps) as E3
    by (unfold av_pair; by rewrite <- !app_assoc).
  rewrite E1 at 1. rewrite u16_put by (done || lia). cbn [bind].
  rewrite E2 at 1. rewrite u16_put by (autorewrite with len; lia). cbn [bind].
  rewrite (proj2 (Z.ltb_ge _ _)) by (autorewrite with len; lia).
  rewrite E3 at 1. rewrite slice_mid by (autorewrite with len; lia). cbn [bind].
  rewrite slice_suffix by (autorewrite with len; lia). cbn [bind].
  apply IH. rewrite length_app in Hf. pose proof (len_av_pair p). unfold len in *. lia.
Qed.

Lemma all_zero_replicate n : all_zero (replicate n Byte.x00) = true.
Proof. induction n; [done|]. by apply andb_true_iff. Qed.

(** A list that ends with the terminator is read as written. *)
Lemma parseAvPairs_list ps :
  Forall pair_ok ps ->
  parseAvPairs (av_list (ps ++ [(MsvAvEOL, [])])) =
  Ok (Some (av_positions 0 (ps ++ [(MsvAvEOL, [])]) ∅)).
Proof.
  intros H. assert (len (av_list (ps ++ [(MsvAvEOL, [])])) = len (av_list ps) + 4) as Hl.
  { rewrite av_list_app, len_app. done. }
  pose proof (len_nonneg (av_list ps)). unfold parseAvPairs.
  rewrite (proj2 (Z.ltb_ge _ _)) by lia.
  rewrite Hl, av_list_app, slice_suffix by (change (av_list [(MsvAvEOL, [])]) with (le_put 2 0 ++ le_put 2 0 ++ []); autorewrite with len; lia).
  cbn [bind]. change (all_zero _) with true. cbn iota.
  rewrite <- av_list_app. apply av_loop_list; [|lia].
  apply Forall_app. split; [done|]. apply Forall_singleton. unfold MsvAvEOL.
  split; cbn [fst snd]; rewrite ?len_nil; lia.
Qed.

Lemma av_positions_app off ps qs m :
  av_positions off (ps ++ qs) m = av_positions (off + len (av_list ps)) qs (av_positions off ps m).
Proof.
  revert off m. induction ps as [|p ps IH]; intros off m; cbn [av_positions app].
  { f_equal. change (len (av_list [])) with 0. lia. }
  rewrite IH, av_list_cons. f_equal. autorewrite with len. lia.
Qed.

Lemma av_positions_other off ps m id :
  id ∉ ps.*1 -> av_positions off ps m !! id = m !! id.
Proof.
  revert off m. induction ps as [|p ps IH]; intros off m; [done|].
  rewrite fmap_cons, not_elem_of_cons. intros [Hp Hid]. cbn [av_positions].
  rewrite IH by done. by rewrite lookup_insert_ne by congruence.
Qed.

(** The last pair with an identifier is the one in the map. *)
Lemma av_positions_last off xs id v ys m :
  id ∉ ys.*1 ->
  av_positions off (xs ++ (id, v) :: ys) m !! id = Some (off + len (av_list xs) + 4, len v).
Proof.
  intros H. rewrite av_positions_app. cbn [av_positions fst snd].
  rewrite av_positions_other by done. by rewrite lookup_insert_eq.
Qed.

Lemma av_value_list xs id v ys :
  av_value (av_list (xs ++ (id, v) :: ys)) (len (av_list xs) + 4, len v) = Ok v.
Proof.
  unfold av_value. cbn [fst snd]. rewrite av_list_app, av_list_cons. unfold av_pair. cbn [fst snd].
  rewrite <- !app_assoc. rewrite (app_assoc (le_put 2 id)), app_assoc.
  apply slice_mid; autorewrite with len; lia.
Qed.

(** Reading a list of pairs never panics and always ends, whatever the bytes. *)
Lemma av_loop_safe fuel bs off m :
  (length bs < fuel)%nat -> safe (av_loop fuel bs off m).
Proof.
  revert bs off m. induction fuel as [|fuel IH]; intros bs off m Hf; [lia|].
  cbn [av_loop]. destruct (Z.leb_spec (len bs) 0); [done|].
  destruct (Z.ltb_spec (len bs) 4); [done|].
  safe_step; [safe_tac|]. safe_step; [safe_tac|]. go_ranges.
  destruct (Z.ltb_spec (len bs) (4 + a0)); [done|].
  safe_step; [safe_tac|]. safe_step; [safe_tac|].
  apply IH. go_ranges. unfold len in *. lia.
Qed.

Lemma parseAvPairs_safe bs : safe (parseAvPairs bs).
Proof.
  unfold parseAvPairs. destruct (Z.ltb_spec (len bs) 4); [done|].
  safe_step; [safe_tac|]. destruct (all_zero _); [|done]. apply av_loop_safe. lia.
Qed.

(** ** Target information without flags *)

(** The pairs a response adds to those of the challenge. *)
Definition added_pairs (spn : bytes) : list (Z * bytes) :=
  [(MsvAvFlags, le_put 4 2); (MsvAvChannelBindings, zero16)] ++
  (if len spn =? 0 then [] else [(MsvAvTargetName, spn)]).

Lemma put_av_zeros (a : bytes) k off id n :
  off = len a -> (4 <= k)%nat ->
  put_av (a ++ replicate k Byte.x00) off id n =
  Ok ((a ++ le_put 2 id ++ le_put 2 n) ++ replicate (k - 4) Byte.x00).
Proof.
  intros -> Hk. unfold put_av, put16. rewrite put_le_zeros by lia. cbn [bind].
  rewrite put_le_zeros by (autorewrite with len; lia).
  rewrite <- (app_assoc a). by replace (k - 2 - 2)%nat with (k - 4)%nat by lia.
Qed.

Lemma copy_at_zeros_end (a src : bytes) k lo hi :
  lo = len a -> hi = len a + Z.of_nat k -> (length src <= k)%nat ->
  copy_at (a ++ replicate k Byte.x00) lo hi src =
  Ok ((a ++ src) ++ replicate (k - length src) Byte.x00).
Proof.
  intros -> -> Hk. pose proof (len_nonneg a).
  rewrite copy_at_end by (autorewrite with len; lia).
  rewrite <- (copy_at_zeros a src k (len a) (len a + len src)) by done.
  symmetry. apply copy_at_write; [done|]. autorewrite with len. unfold len in *. lia.
Qed.

Lemma zeros_split (a : bytes) j k :
  (j <= k)%nat ->
  a ++ replicate k Byte.x00 = (a ++ replicate j Byte.x00) ++ replicate (k - j) Byte.x00.
Proof. intros. rewrite <- app_assoc, <- replicate_add. by replace (j + (k - j))%nat with k by lia. Qed.

Lemma av_list_added spn :
  av_list (added_pairs spn) =
  le_put 2 MsvAvFlags ++ le_put 2 4 ++ le_put 4 2 ++
  le_put 2 MsvAvChannelBindings ++ le_put 2 16 ++ replicate 16 Byte.x00 ++
  (if len spn =? 0 then [] else le_put 2 MsvAvTargetName ++ le_put 2 (len spn) ++ spn).
Proof.
  unfold added_pairs, av_list. destruct (len spn =? 0);
    cbn [app mbind list_bind]; unfold av_pair; cbn [fst snd];
    rewrite ?app_nil_r, <- !app_assoc; done.
Qed.

(** The encoded information: the pairs of the challenge, those the client adds,
    the terminator, in a zeroed buffer of the size announced and [k] bytes more. *)
Lemma ti_encode_pairs ps spn m k :
  m !! MsvAvFlags = None -> len spn < 2 ^ 16 ->
  let i := mkTargetInfo (av_list ps ++ replicate 4 Byte.x00) spn m in
  ti_encode i (replicate (Z.to_nat (ti_size i) + k) Byte.x00) =
  Ok (av_list (ps ++ added_pairs spn) ++ replicate (4 + k) Byte.x00, i).
Proof.
  intros Hm Hspn i. unfold ti_encode. cbn [InfoMap Info SPN i]. rewrite Hm.
  set (L := len (av_list ps)). assert (0 <= L) by apply len_nonneg.
  assert (len (av_list ps ++ replicate 4 Byte.x00) = L + 4) as Hi by (autorewrite with len; done).
  pose proof (len_nonneg spn).
  set (N := (Z.to_nat (ti_size i) + k)%nat).
  assert (Z.of_nat N = L + 32 + (if len spn =? 0 then 0 else 4 + len spn) + Z.of_nat k) as HN.
  { subst N. unfold ti_size. cbn [InfoMap Info SPN i]. rewrite Hm, Hi.
    destruct (len spn =? 0); cbn [negb]; lia. }
  rewrite Hi. replace (L + 4 - 4) with L by lia.
  rewrite slice_prefix by done. cbn [bind].
  assert (length (av_list ps) = Z.to_nat L) as HL by (unfold L, len; lia).
  change (replicate N Byte.x00) with ([] ++ replicate N Byte.x00).
  assert (L <= Z.of_nat N) by (destruct (len spn =? 0); lia).
  rewrite copy_at_zeros_end by (autorewrite with len; unfold len in *; lia). cbn [bind app].
  rewrite len_app, len_replicate, Z.min_r by lia.
  rewrite put_av_zeros by (destruct (len spn =? 0); lia). cbn [bind].
  unfold put32. rewrite put_le_zeros
    by (first [autorewrite with len; lia | destruct (len spn =? 0); lia]). cbn [bind].
  rewrite put_av_zeros
    by (first [autorewrite with len; lia | destruct (len spn =? 0); lia]). cbn [bind].
  rewrite (zeros_split _ 16) by (destruct (len spn =? 0); lia).
  destruct (Z.eqb_spec (len spn) 0) as [E|E]; cbn [negb bind] in *.
  - rewrite put_av_zeros by (autorewrite with len; lia). cbn [bind].
    rewrite av_list_app, av_list_added, (proj2 (Z.eqb_eq (len spn) 0) E), replicate_add.
    rewrite ?app_nil_r, <- !app_assoc.
    replace (N - length (av_list ps) - 4 - 4 - 4 - 16 - 4)%nat with k by lia.
    done.
  - rewrite put_av_zeros by (autorewrite with len; lia). cbn [bind].
    rewrite wrap_small by lia.
    rewrite copy_at_zeros_end by (autorewrite with len; unfold len in *; lia). cbn [bind].
    rewrite put_av_zeros by (autorewrite with len; unfold len in *; lia). cbn [bind].
    rewrite av_list_app, av_list_added, (proj2 (Z.eqb_neq (len spn) 0) E), replicate_add.
    rewrite <- !app_assoc.
    replace (N - length (av_list ps) - 4 - 4 - 4 - 16 - 4 - length spn - 4)%nat with k
      by (unfold len in *; lia).
    done.
Qed.

(** ** The response *)

(** [copy] of a value into a place of another length: what is left there. *)
Definition overlay (src b : bytes) : bytes := take (length b) src ++ drop (length src) b.

Lemma length_overlay src b : length (overlay src b) = length b.
Proof. unfold overlay. rewrite length_app, length_take, length_drop. lia. Qed.
Lemma len_overlay src b : len (overlay src b) = len b.
Proof. unfold len. by rewrite length_overlay. Qed.
#[export] Hint Rewrite len_overlay : len.
Lemma overlay_same src b : len src = len b -> overlay src b = src.
Proof.
  intros H. unfold overlay, len in *. rewrite take_ge, drop_ge by lia. apply app_nil_r.
Qed.

Lemma copy_at_seg (a b c src : bytes) lo hi :
  lo = len a -> hi = len a + len b ->
  copy_at (a ++ b ++ c) lo hi src = Ok (a ++ overlay src b ++ c).
Proof.
  intros -> ->. pose proof (len_nonneg a). pose proof (len_nonneg b). pose proof (len_nonneg c).
  unfold copy_at, overlay.
  rewrite (proj2 (Z.leb_le 0 _)), (proj2 (Z.leb_le (len a) _)), (proj2 (Z.leb_le _ (len (a ++ _))))
    by (autorewrite with len; lia).
  cbn [andb]. f_equal. unfold len. rewrite Nat2Z.id, take_app_length. f_equal.
  rewrite <- app_assoc. destruct (Nat.le_gt_cases (length src) (length b)).
  - rewrite !take_ge by lia. f_equal.
    replace (length a + _)%nat with (length a + length src)%nat by lia.
    rewrite <- drop_drop, drop_app_length, drop_app_le by lia. done.
  - f_equal; [f_equal; lia|]. rewrite (drop_ge b) by lia.
    replace (length a + _)%nat with (length a + length b)%nat by lia.
    by rewrite <- drop_drop, drop_app_length, drop_app_length.
Qed.

(** What the response is the MAC of, with the challenge before it. *)
Definition nt_temp (timeStamp clientChallenge pairs : bytes) : bytes :=
  [Byte.x01; Byte.x01] ++ replicate 6 Byte.x00 ++ timeStamp ++ clientChallenge ++
  replicate 4 Byte.x00 ++ pairs.

Lemma encodeNtlmv2Response_eq {E} `{encoder E} p a t c rest h challenge cc ts ti ti' pairs ch :
  len p = 16 -> len a = 2 -> len t = 8 -> len c = 8 ->
  encode ti rest = Ok (pairs, ti') -> len pairs = len rest -> challenge ti' = Ok ch ->
  let temp := nt_temp (overlay ts t) (overlay cc c) pairs in
  let h' := hm_Write (hm_Write h ch) temp in
  encodeNtlmv2Response (p ++ a ++ replicate 6 Byte.x00 ++ t ++ c ++ replicate 4 Byte.x00 ++ rest)
    h challenge cc ts ti = Ok (hm_Sum h' ++ temp, h', ti').
Proof.
  intros Hp Ha Ht Hc He Hpl Hch temp h'. pose proof (len_nonneg rest).
  destruct a as [|a0 [|a1 [|a2 a]]]; try discriminate Ha;
    [|autorewrite with len in Ha; pose proof (len_nonneg a); lia].
  unfold encodeNtlmv2Response.
  rewrite slice_suffix by (autorewrite with len; lia). cbn [bind]. unfold put8.
  change ([a0; a1] ++ ?r) with ([a0] ++ [a1] ++ r).
  rewrite (copy_at_mid p [a0]) by (autorewrite with len; lia). cbn [bind].
  rewrite app_assoc, (copy_at_mid (p ++ _) [a1]) by (autorewrite with len; lia). cbn [bind].
  rewrite (app_assoc (p ++ _)), (app_assoc (_ ++ _) (replicate 6 _)).
  rewrite copy_at_seg by (autorewrite with len; lia). cbn [bind].
  rewrite app_assoc, copy_at_seg by (autorewrite with len; lia). cbn [bind].
  rewrite (app_assoc (_ ++ _) (overlay cc c)), (app_assoc (_ ++ _) (replicate 4 _)).
  rewrite slice_suffix by (autorewrite with len; lia). cbn [bind].
  rewrite He. cbn [bind].
  rewrite copy_at_end by (autorewrite with len; lia). cbn [bind]. rewrite Hch. cbn [bind].
  rewrite write_suffix by (autorewrite with len; lia).
  rewrite <- !app_assoc. rewrite slice_suffix by (autorewrite with len; lia). cbn [bind].
  change ([byte_of 1] ++ [byte_of 1] ++ ?r) with ([Byte.x01; Byte.x01] ++ r).
  fold (nt_temp (overlay ts t) (overlay cc c) pairs). fold temp h'.
  change (p ++ temp) with ([] ++ p ++ temp).
  rewrite copy_at_mid by (autorewrite with len; lia). done.
Qed.

(** ** Signatures *)

Lemma XORKeyStream_ok c b : exists e c', XORKeyStream c b b = Ok (e, c') /\ len e = len b.
Proof.
  destruct (XORKeyStream_undo c b b b eq_refl eq_refl) as (e & c' & H & Hl & _). by exists e, c'.
Qed.

Lemma tag_split (tag : bytes) : len tag = 16 ->
  exists a b c d, tag = a ++ b ++ c ++ d /\ len a = 4 /\ len b = 4 /\ len c = 4 /\ len d = 4.
Proof.
  intros H. destruct (split_at tag 4) as (a & r & -> & Ha & Hr); [lia|].
  destruct (split_at r 4) as (b & r2 & -> & Hb & Hr2); [lia|].
  destruct (split_at r2 4) as (c & d & -> & Hc & Hd); [lia|].
  exists a, b, c, d. repeat split; lia.
Qed.

Lemma overlay_long src b : len b <= len src -> overlay src b = take (length b) src.
Proof. intros H. unfold overlay, len in *. rewrite drop_ge by lia. apply app_nil_r. Qed.

(** With extended session security: version, checksum, sequence number. *)
Lemma mac_ext tag fl c key n msg :
  len tag = 16 -> has fl NTLMSSP_NEGOTIATE_EXTENDED_SESSIONSECURITY = true ->
  let sum := take 8 (hmac_md5 key (le_put 4 n ++ msg)) in
  mac tag fl c key n msg =
  let! (sum, c) := if has fl NTLMSSP_NEGOTIATE_KEY_EXCH then XORKeyStream c sum sum else Ok (sum, c) in
  Ok (le_put 4 1 ++ sum ++ le_put 4 n, wrap 32 (n + 1), c).
Proof.
  intros Ht Hx sum. destruct (tag_split tag Ht) as (t1 & t2 & t3 & t4 & -> & H1 & H2 & H3 & H4).
  unfold mac. rewrite Hx. cbn [negb]. unfold put32, put_le.
  change (4 - 0 <? Z.of_nat 4) with false. change (16 - 12 <? Z.of_nat 4) with false. cbn iota.
  change (t1 ++ t2 ++ t3 ++ t4) with ([] ++ t1 ++ (t2 ++ t3 ++ t4)).
  rewrite (copy_at_mid [] t1) by (autorewrite with len; lia). cbn [bind app].
  rewrite (app_assoc t2), (app_assoc (le_put 4 1)), <- (app_nil_r t4).
  rewrite (copy_at_mid (_ ++ _) t4) by (autorewrite with len; lia). cbn [bind].
  rewrite app_nil_r, slice_suffix by (autorewrite with len; lia). cbn [bind].
  rewrite <- app_assoc, copy_at_seg by (autorewrite with len; lia). cbn [bind].
  rewrite overlay_long by (autorewrite with len; lia).
  replace (length (t2 ++ t3)) with 8%nat by (rewrite length_app; unfold len in *; lia).
  change (hm_Sum _) with (hmac_md5 key (le_put 4 n ++ msg)). fold sum.
  assert (len sum = 8) as Hs by (unfold sum; autorewrite with len; lia).
  destruct (has fl NTLMSSP_NEGOTIATE_KEY_EXCH); [|done].
  rewrite slice_mid by (autorewrite with len; lia). cbn [bind].
  destruct (XORKeyStream_ok c sum) as (e & c' & He & Hl). rewrite He. cbn [bind].
  rewrite copy_at_mid by (autorewrite with len; lia). done.
Qed.

(** Signing always succeeds. *)
Lemma mac_ok tag fl c key n msg :
  len tag = 16 -> exists t n' c', mac tag fl c key n msg = Ok (t, n', c') /\ len t = 16.
Proof.
  intros Ht. destruct (has fl NTLMSSP_NEGOTIATE_EXTENDED_SESSIONSECURITY) eqn:Hx.
  { rewrite mac_ext by done. set (sum := take 8 _).
    assert (len sum = 8) as Hs by (unfold sum; autorewrite with len; lia).
    destruct (has fl NTLMSSP_NEGOTIATE_KEY_EXCH); cbn [bind].
    - destruct (XORKeyStream_ok c sum) as (e & c' & -> & Hl). cbn [bind].
      do 3 eexists. split; [done|]. autorewrite with len. lia.
    - do 3 eexists. split; [done|]. autorewrite with len. lia. }
  destruct (tag_split tag Ht) as (t1 & t2 & t3 & t4 & -> & H1 & H2 & H3 & H4).
  unfold mac. rewrite Hx. cbn [negb]. unfold put32.
  rewrite !put_le_write by (autorewrite with len; lia). cbn [bind].
  rewrite put_le_write by (autorewrite with len; lia). cbn [bind].
  set (b := write _ 8 _). assert (len b = 16) as Hb by (subst b; autorewrite with len; lia).
  clearbody b. rewrite (slice_read b 4 8) by lia. cbn [bind].
  destruct (XORKeyStream_ok c (read b 4 8)) as (e1 & c1 & -> & Hl1). cbn [bind].
  rewrite (slice_read b 8 12) by lia. cbn [bind].
  destruct (XORKeyStream_ok c1 (read b 8 12)) as (e2 & c2 & -> & Hl2). cbn [bind].
  rewrite (slice_read b 12 16) by lia. cbn [bind].
  destruct (XORKeyStream_ok c2 (read b 12 16)) as (e3 & c3 & -> & Hl3). cbn [bind].
  rewrite len_read in Hl2, Hl3 by lia.
  rewrite copy_at_write by (autorewrite with len; lia). cbn [bind].
  set (x := zip_with _ _ _). assert (len x = 4) as Hxl.
  { subst x. unfold len in *. rewrite length_zip_with_l by (rewrite length_le_put; lia). lia. }
  rewrite copy_at_write by (autorewrite with len; lia). cbn [bind].
  rewrite put_le_write by (autorewrite with len; lia). cbn [bind].
  do 3 eexists. split; [done|]. autorewrite with len. lia.
Qed.

(** ** Two ends of a session *)

Record peers (a b : Session) : Prop := {
  p_side : isClientSide b = negb (isClientSide a);
  p_flags : negotiateFlags b = negotiateFlags a;
  p_key : exportedSessionKey b = exportedSessionKey a;
  p_clientKey : clientSigningKey b = clientSigningKey a;
  p_serverKey : serverSigningKey b = serverSigningKey a;
  p_clientHandle : clientHandle b = clientHandle a;
  p_serverHandle : serverHandle b = serverHandle a;
}.

Lemma peers_sym a b : peers a b -> peers b a.
Proof. intros []. split; try congruence. rewrite p_side0. by rewrite negb_involutive. Qed.

(** Both ends compute the same signature with the keys of a direction. *)
Lemma mac_with_peers dir a b tag n m :
  peers a b -> len tag = 16 ->
  exists t n' a' b', mac_with dir a tag n m = Ok (t, n', a') /\
    mac_with dir b tag n m = Ok (t, n', b') /\ peers a' b' /\ len t = 16 /\
    isClientSide a' = isClientSide a /\ negotiateFlags a' = negotiateFlags a.
Proof.
  intros [] Ht. unfold mac_with. rewrite p_flags0, p_clientKey0, p_serverKey0, p_clientHandle0,
    p_serverHandle0.
  destruct dir.
  - destruct (mac_ok tag (negotiateFlags a) (clientHandle a) (clientSigningKey a) n m Ht)
      as (t & n' & c' & -> & Hl). cbn [bind].
    do 4 eexists. repeat split; done.
  - destruct (mac_ok tag (negotiateFlags a) (serverHandle a) (serverSigningKey a) n m Ht)
      as (t & n' & c' & -> & Hl). cbn [bind].
    do 4 eexists. repeat split; done.
Qed.

Lemma CheckSum_Sum a b m n :
  peers a b ->
  exists t n' a' b', Sum a m n = Ok (t, n', a') /\ CheckSum b t m n = Ok (true, n', b') /\
    peers a' b' /\ (has (negotiateFlags a) NTLMSSP_NEGOTIATE_SIGN = true ->
                    exists tag, t = Some tag /\ len tag = 16).
Proof.
  intros Hp. pose proof Hp as []. unfold Sum, CheckSum. rewrite p_flags0.
  destruct (has _ NTLMSSP_NEGOTIATE_SIGN); cbn [negb]; [|by do 4 eexists].
  rewrite p_side0, negb_involutive.
  destruct (mac_with_peers (isClientSide a) a b zero16 n m Hp eq_refl)
    as (t & n' & a' & b' & Ha & Hb & Hp' & Ht & _).
  rewrite Ha, Hb. exists (Some t), n', a', b'. split; [done|].
  cbn [bind default from_option]. rewrite bool_decide_true by done.
  split; [done|]. split; [done|]. by exists t.
Qed.

Lemma sliceForAppend_len in_ spare n :
  0 <= n -> len (snd (sliceForAppend in_ spare n)) = n.
Proof.
  intros Hn. unfold sliceForAppend. cbn [snd].
  destruct (Z.leb_spec n (len spare)); autorewrite with len; lia.
Qed.

(** A session that signs but does not seal, with extended session security: what
    is negotiated with [defaultFlags]. *)
Definition signs (s : Session) : Prop :=
  has (negotiateFlags s) NTLMSSP_NEGOTIATE_SIGN = true /\
  has (negotiateFlags s) NTLMSSP_NEGOTIATE_SEAL = false /\
  has (negotiateFlags s) NTLMSSP_NEGOTIATE_EXTENDED_SESSIONSECURITY = true.

(** What the sixteen bytes held before does not matter. *)
Lemma mac_with_tag dir s tag n m :
  len tag = 16 -> has (negotiateFlags s) NTLMSSP_NEGOTIATE_EXTENDED_SESSIONSECURITY = true ->
  mac_with dir s tag n m = mac_with dir s zero16 n m.
Proof. intros Ht Hx. unfold mac_with. by destruct dir; rewrite !mac_ext. Qed.

Lemma Unseal_Seal a b spare spare' m n :
  peers a b -> signs a ->
  exists c n' a' b', Seal a [] spare m n = Ok (c, n', a') /\
    Unseal b [] spare' c n = Ok (m, n', b') /\ peers a' b' /\ signs a'.
Proof.
  intros Hp (Hs & Hn & Hx). pose proof Hp as []. pose proof (len_nonneg m).
  unfold Seal. pose proof (sliceForAppend_len [] spare (len m + 16) ltac:(lia)) as Hc.
  destruct (sliceForAppend _ _ _) as [w c]. cbn [snd] in Hc. clear w.
  rewrite (slice_read c 0 16) by lia. cbn [bind]. rewrite slice_read by lia. cbn [bind].
  rewrite Hn, Hs. rewrite mac_with_tag by (done || by rewrite len_read; lia).
  destruct (mac_with_peers (isClientSide a) a b zero16 n m Hp eq_refl)
    as (t & n' & a' & b' & Ha & Hb & Hp' & Ht & _ & Hf).
  rewrite Ha. cbn [bind app]. exists (t ++ m), n', a', b'. split; [done|].
  split; [|split; [done|by unfold signs; rewrite Hf]].
  unfold Unseal. rewrite (proj2 (Z.ltb_ge _ _)) by (autorewrite with len; lia).
  destruct (sliceForAppend _ _ _) as [w2 c2].
  rewrite slice_prefix by lia. cbn [bind].
  rewrite slice_suffix by (autorewrite with len; lia). cbn [bind].
  rewrite p_flags0, Hn, Hs, p_side0, negb_involutive, Hb. cbn [bind].
  by rewrite bool_decide_true.
Qed.

(** ** A conversation

    Each end keeps its session, the number of the next message it sends and of the
    next it expects. *)

Definition endpoint : Type := Session * Z * Z.
Definition send (e : endpoint) (m : bytes) : res (bytes * endpoint) :=
  let '(s, o, i) := e in let! (c, o, s) := Seal s [] [] m o in Ok (c, (s, o, i)).
Definition receive (e : endpoint) (c : bytes) : res (bytes * endpoint) :=
  let '(s, o, i) := e in let! (m, i, s) := Unseal s [] [] c i in Ok (m, (s, o, i)).

(** The messages of either end ([true]: the first), as the other receives them. *)
Fixpoint talk (ms : list (bool * bytes)) (a b : endpoint) : res (list bytes) :=
  match ms with
  | [] => Ok []
  | (true, m) :: ms =>
    let! (c, a) := send a m in let! (m', b) := receive b c in
    let! r := talk ms a b in Ok (m' :: r)
  | (false, m) :: ms =>
    let! (c, b) := send b m in let! (m', a) := receive a c in
    let! r := talk ms a b in Ok (m' :: r)
  end.

Lemma signs_peers a b : peers a b -> signs a -> signs b.
Proof. intros [] (? & ? & ?). unfold signs. by rewrite p_flags0. Qed.

(** C22: two ends of a session that sign understand each other: whatever messages
    they exchange, in whichever order the two take turns and whatever the numbers
    they start from, each is accepted and read as it was sent, as long as each end
    counts on from message to message. *)
Theorem talk_delivers ms a b i o :
  peers a b -> signs a -> talk ms (a, o, i) (b, i, o) = Ok ms.*2.
Proof.
  revert a b i o. induction ms as [|[[] m] ms IH]; intros a b i o Hp Hs; [done| |];
    cbn [talk send receive].
  - destruct (Unseal_Seal a b [] [] m o Hp Hs) as (c & n' & a' & b' & -> & Hu & Hp' & Hs').
    cbn [bind]. rewrite Hu. cbn [bind]. by rewrite IH.
  - destruct (Unseal_Seal b a [] [] m i (peers_sym _ _ Hp) (signs_peers _ _ Hp Hs))
      as (c & n' & b' & a' & -> & Hu & Hp' & Hs').
    cbn [bind]. rewrite Hu. cbn [bind].
    rewrite IH; [done|by apply peers_sym|by apply (signs_peers b')].
Qed.

Definition example_cipher (fromClient : bool) : Cipher :=
  match (let! k := sealKey defaultFlags zero16 fromClient in rc4_NewCipher k) with
  | Ok c => c | _ => mkCipher [] 0 0
  end.
Definition example_end (side : bool) : Session :=
  mkSession side (str "user") defaultFlags zero16 (signKey defaultFlags zero16 true)
    (signKey defaultFlags zero16 false) (example_cipher true) (example_cipher false) ∅.

Lemma talk_delivers_witness :
  talk [(true, str "ping"); (false, str "pong"); (false, []); (true, str "bye")]
    (example_end true, 7, 0xFFFFFFFF) (example_end false, 0xFFFFFFFF, 7) =
  Ok [str "ping"; str "pong"; []; str "bye"].
Proof.
  apply (talk_delivers
    [(true, str "ping"); (false, str "pong"); (false, []); (true, str "bye")]
    (example_end true) (example_end false)).
  - split; reflexivity.
  - split; [reflexivity|split; reflexivity].
Defined.

(** Without signing or sealing, [Seal] drops the message. *)
Lemma Seal_plain_lost s m n :
  has (negotiateFlags s) NTLMSSP_NEGOTIATE_SIGN = false ->
  has (negotiateFlags s) NTLMSSP_NEGOTIATE_SEAL = false ->
  Seal s [] [] m n = Ok (replicate (16 + length m) Byte.x00, n, s).
Proof.
  intros H1 H2. unfold Seal. rewrite H1, H2. unfold sliceForAppend. rewrite len_nil.
  pose proof (len_nonneg m). rewrite (proj2 (Z.leb_gt _ _)) by lia.
  rewrite !slice_ok by (autorewrite with len; lia). cbn [bind app].
  do 4 f_equal. unfold len. lia.
Qed.
