(* ===== verification/NtlmAuth.v ===== *)
(** * NTLM: the logon ([internal/ntlm/client.go], [internal/ntlm/server.go])

    The three messages of an NTLMv2 logon: [Negotiate] and [Authenticate] of the
    client, [Challenge] and [Authenticate] of the server.  What [rand.Read] fills
    in is [rnd], by the number of the call; the clock is [now], in nanoseconds
    since 1970; [strings.ToUpper] and MD4 are parameters. *)

From stdpp Require Import gmap.
From S2P Require Export Ntlm.

(** A field of a message: length, maximal length, offset; [e] is the text of the
    error.  The end is computed in 32 bits. *)
Definition read_field (e : string) (msg : bytes) (at_ : Z) : res (Z * bytes) :=
  let! n := u16 msg at_ (at_ + 2) in
  let! m := u16 msg (at_ + 2) (at_ + 4) in
  check negb (m <? n) else Errorf e;
  let! o := u32 msg (at_ + 4) (at_ + 8) in
  check negb (len msg <? wrap 32 (o + n)) else Errorf e;
  let! v := slice msg o (wrap 32 (o + n)) in
  Ok (o, v).

(** Length, maximal length and offset of a field. *)
Definition put_desc (msg : bytes) (at_ n off : Z) : res bytes :=
  let! msg := put16 msg at_ (at_ + 2) n in
  let! msg := put16 msg (at_ + 2) (at_ + 4) n in
  put32 msg (at_ + 4) (at_ + 8) off.

(** [len := copy(msg[off:], v)], its description at [at_], and the next offset. *)
Definition put_field (msg : bytes) (at_ off : Z) (v : bytes) : res (bytes * Z) :=
  let! msg := copy_at msg off (len msg) v in
  let n := Z.min (len msg - off) (len v) in
  let! msg := put_desc msg at_ n off in
  Ok (msg, off + n).

(** The same unless the value is nil, which what [EncodeStringToBytes] returns is
    exactly when it is empty. *)
Definition put_some (msg : bytes) (at_ off : Z) (v : bytes) : res (bytes * Z) :=
  if len v =? 0 then Ok (msg, off) else put_field msg at_ off v.

(** ** The client *)

Record Client := mkClient {
  User : bytes;
  Password : bytes;
  Hash : option bytes;
  Domain : bytes;
  Workstation : bytes;
  TargetSPN : bytes;
  c_nmsg : bytes;
  c_session : option Session;
}.

Definition with_nmsg (nmsg : bytes) (c : Client) : Client :=
  mkClient (User c) (Password c) (Hash c) (Domain c) (Workstation c) (TargetSPN c) nmsg (c_session c).
Definition with_session (ss : Session) (c : Client) : Client :=
  mkClient (User c) (Password c) (Hash c) (Domain c) (Workstation c) (TargetSPN c) (c_nmsg c) (Some ss).

Definition client_Negotiate (c : Client) : res (bytes * Client) :=
  let! nmsg := make (32 + 8) in
  let! nmsg := copy_at nmsg 0 8 signature in
  let! nmsg := put32 nmsg 8 12 NtLmNegotiate in
  let! nmsg := put32 nmsg 12 16 defaultFlags in
  let! nmsg := copy_at nmsg 32 (len nmsg) version in
  Ok (nmsg, with_nmsg nmsg c).

(** What is checked of a challenge before the client's own state is looked at. *)
Definition check_challenge (cmsg : bytes) : res () :=
  check negb (len cmsg <? 48) else Errorf "message length is too short";
  let! sig := slice cmsg 0 8 in
  check bool_decide (sig = signature) else Errorf "invalid signature";
  let! ty := u32 cmsg 8 12 in
  check ty =? NtLmChallenge else Errorf "invalid message type";
  Ok ().

(** What a client reads of a challenge: the flags in common, the target name, and
    the target information with its position. *)
Definition read_challenge (c : Client) (cmsg : bytes) :
    res (Z * bytes * Z * targetInfoEncoder) :=
  let! _ := check_challenge cmsg in
  let! mine := u32 (c_nmsg c) 12 16 in
  let! theirs := u32 cmsg 20 24 in
  let flags := Z.land mine theirs in
  check has flags NTLMSSP_REQUEST_TARGET else Errorf "invalid negotiate flags";
  let! (_, targetName) := read_field "invalid target name format" cmsg 12 in
  check has flags NTLMSSP_NEGOTIATE_TARGET_INFO else Errorf "invalid negotiate flags";
  let! (at_, targetInfo) := read_field "invalid target info format" cmsg 40 in
  let! spn := EncodeStringToBytes (TargetSPN c) in
  let! info := newTargetInfoEncoder targetInfo spn in
  match info with
  | None => Err (Errorf "invalid target info format")
  | Some info => Ok (flags, targetName, at_, info)
  end.

(** The challenge after the encoding of the target information it holds. *)
Definition challenge_after (cmsg : bytes) (at_ : Z) (i : targetInfoEncoder) : res bytes :=
  copy_at cmsg at_ (at_ + len (Info i)) (Info i).

(** [!(c.User == "" && c.Password == "" && c.Hash == nil)] *)
Definition has_credentials (c : Client) : bool :=
  negb (len (User c) =? 0) || negb (len (Password c) =? 0) || bool_decide (is_Some (Hash c)).

(** 100-nanosecond intervals since 1601. *)
Definition filetime_now (now : Z) : Z := Z.quot now 100 + 116444736000000000.

(** The keys of a session and its ciphers. *)
Definition new_session (side : bool) (user : bytes) (flags : Z) (key : bytes)
    (m : gmap Z (Z * Z)) : res Session :=
  let! ck := sealKey flags key true in
  let! ch := rc4_NewCipher ck in
  let! sk := sealKey flags key false in
  let! sh := rc4_NewCipher sk in
  Ok (mkSession side user flags key (signKey flags key true) (signKey flags key false) ch sh m).

Section parameters.
Variables (ToUpper md4 : bytes -> bytes).

(** The keyed hash of a response, by hash or by password. *)
Definition response_hash (c : Client) (domain : bytes) : res Hmac :=
  let! USER := EncodeStringToBytes (ToUpper (User c)) in
  match Hash c with
  | Some hash => Ok (hmac_New (ntowfv2Hash USER hash domain))
  | None =>
    let! password := EncodeStringToBytes (Password c) in
    Ok (hmac_New (ntowfv2 md4 USER password domain))
  end.

Section environment.
Variables (rnd : nat -> res bytes) (now : Z).

(** The header and the names; the offset after them. *)
Definition amsg_names (c : Client) (domain : bytes) (info : targetInfoEncoder) :
    res (bytes * Z) :=
  let! user := EncodeStringToBytes (User c) in
  let! workstation := EncodeStringToBytes (Workstation c) in
  let off := 64 + 8 + 16 in
  let! amsg := make (off + len domain + len user + len workstation + 24 +
                     (16 + (28 + size info + 4)) + 16) in
  let! amsg := copy_at amsg 0 8 signature in
  let! amsg := put32 amsg 8 12 NtLmAuthenticate in
  let! (amsg, off) := put_field amsg 28 off domain in
  let! (amsg, off) := put_some amsg 36 off user in
  put_some amsg 44 off workstation.

(** The response to the challenge, in the slice of the message meant for it. *)
Definition nt_response (h : Hmac) (cmsg resp : bytes) (at_ : Z) (info : targetInfoEncoder) :
    res (bytes * Hmac * targetInfoEncoder) :=
  let! r := rnd 0%nat in
  let! resp := copy_at resp 32 40 r in
  let! clientChallenge := slice resp 32 40 in
  let! (resp, timeStamp) :=
    match InfoMap info !! MsvAvTimestamp with
    | Some v => let! t := av_value (Info info) v in Ok (resp, t)
    | None => let! resp := put64 resp 24 32 (filetime_now now) in
              let! t := slice resp 24 32 in Ok (resp, t)
    end in
  encodeNtlmv2Response resp h (fun i => let! m := challenge_after cmsg at_ i in slice m 24 32)
    clientChallenge timeStamp info.

(** The session key, and the message with the key the server is to decrypt. *)
Definition client_key (flags : Z) (base amsg : bytes) (off : Z) : res (bytes * bytes) :=
  if has flags NTLMSSP_NEGOTIATE_KEY_EXCH then
    let! r := rnd 1%nat in
    let! key := make 16 in
    let! key := copy_at key 0 16 r in
    let! cipher := rc4_NewCipher base in
    let! dst := slice amsg off (len amsg) in
    let! (enc, _) := XORKeyStream cipher dst key in
    let! amsg := copy_at amsg off (len amsg) enc in
    let! amsg := put_desc amsg 52 16 off in
    Ok (key, amsg)
  else Ok (base, amsg).

Definition client_Authenticate (cmsg : bytes) (c : Client) : res (bytes * Client) :=
  let! (flags, targetName, at_, info) := read_challenge c cmsg in
  let! domain := EncodeStringToBytes (Domain c) in
  let domain := if len domain =? 0 then targetName else domain in
  let! (amsg, off) := amsg_names c domain info in
  if negb (has_credentials c) then Ok (amsg, c) else
  let! h := response_hash c domain in
  let! _ := slice amsg off (off + 24) in
  let! amsg := put_desc amsg 12 24 off in
  let off := off + 24 in
  let! resp := slice amsg off (len amsg - 16) in
  let! (resp, h, info) := nt_response h cmsg resp at_ info in
  let! cmsg := challenge_after cmsg at_ info in
  let! amsg := copy_at amsg off (len amsg - 16) resp in
  let! amsg := put_desc amsg 20 (len resp) off in
  let off := len amsg - 16 in
  let! proof := slice resp 0 16 in
  let sessionBaseKey := hm_Sum (hm_Write (hm_Reset h) proof) in
  let! (key, amsg) := client_key flags sessionBaseKey amsg off in
  let! amsg := put32 amsg 60 64 flags in
  let! amsg := copy_at amsg 64 (len amsg) version in
  let mic := hm_Sum (hm_Write (hm_Write (hm_Write (hmac_New key) (c_nmsg c)) cmsg) amsg) in
  let! amsg := copy_at amsg 72 88 mic in
  let! session := new_session true (User c) flags key (InfoMap info) in
  Ok (amsg, with_session session c).

(** ** The server *)

Record Server := mkServer {
  targetName : bytes;
  accounts : gmap bytes bytes;
  s_nmsg : bytes;
  s_cmsg : bytes;
  s_session : option Session;
}.

Definition NewServer (name : bytes) : Server := mkServer name ∅ [] [] None.
Definition AddAccount (user password : bytes) (s : Server) : Server :=
  mkServer (targetName s) (<[user := password]> (accounts s)) (s_nmsg s) (s_cmsg s) (s_session s).

Definition build_challenge (name : bytes) (flags : Z) : res bytes :=
  let off := if has flags NTLMSSP_NEGOTIATE_VERSION then 48 + 8 else 48 in
  let! cmsg := make (off + len name + 4) in
  let! cmsg := copy_at cmsg 0 8 signature in
  let! cmsg := put32 cmsg 8 12 NtLmChallenge in
  let! cmsg := put32 cmsg 20 24 flags in
  let! (cmsg, off) :=
    if has flags NTLMSSP_REQUEST_TARGET then put_some cmsg 12 off name else Ok (cmsg, off) in
  let! (cmsg, off) :=
    if has flags NTLMSSP_NEGOTIATE_TARGET_INFO then put_field cmsg 40 off (replicate 4 Byte.x00)
    else Ok (cmsg, off) in
  let! r := rnd 0%nat in
  let! cmsg := copy_at cmsg 24 32 r in
  if has flags NTLMSSP_NEGOTIATE_VERSION then copy_at cmsg 48 56 version else Ok cmsg.

Definition server_challenge (nmsg : bytes) (s : Server) : res bytes :=
  check negb (len nmsg <? 32) else Errorf "message length is too short";
  let! sig := slice nmsg 0 8 in
  check bool_decide (sig = signature) else Errorf "invalid signature";
  let! ty := u32 nmsg 8 12 in
  check ty =? NtLmNegotiate else Errorf "invalid message type";
  let! theirs := u32 nmsg 12 16 in
  let flags := Z.land theirs defaultFlags in
  let! name := EncodeStringToBytes (targetName s) in
  build_challenge name flags.

(** [Challenge]: the message received is kept also when it is refused. *)
Definition Challenge (nmsg : bytes) (s : Server) : res bytes * Server :=
  let s := mkServer (targetName s) (accounts s) nmsg (s_cmsg s) (s_session s) in
  match server_challenge nmsg s with
  | Ok cmsg => (Ok cmsg, mkServer (targetName s) (accounts s) nmsg cmsg (s_session s))
  | r => (r, s)
  end.
End environment.

(** What the response must be, computed from the response itself and the account;
    also the hash it leaves. *)
Definition expected_response (s : Server) (user domainName resp : bytes) : res (bytes * Hmac) :=
  let! expected := make (len resp) in
  let! _ := slice resp 16 (len resp) in
  let! USER := EncodeStringToBytes (ToUpper user) in
  let! password := EncodeStringToBytes (default [] (accounts s !! user)) in
  let h := hmac_New (ntowfv2 md4 USER password domainName) in
  let! serverChallenge := slice (s_cmsg s) 24 32 in
  let! timeStamp := slice resp 24 32 in
  let! clientChallenge := slice resp 32 40 in
  let! targetInfo := slice resp 44 (len resp) in
  let! (expected, h, _) :=
    encodeNtlmv2Response expected h (fun _ => Ok serverChallenge) clientChallenge timeStamp
      (targetInfo : bytes) in
  Ok (expected, h).

Definition server_key (flags : Z) (base encrypted : bytes) : res bytes :=
  if has flags NTLMSSP_NEGOTIATE_KEY_EXCH then
    let! key := make 16 in
    let! cipher := rc4_NewCipher base in
    let! (key, _) := XORKeyStream cipher key encrypted in
    Ok key
  else Ok base.

(** Whether the response says the message has a MIC. *)
Definition announces_mic (targetInfo : bytes) : res bool :=
  let! m := parseAvPairs targetInfo in
  match m with
  | None => Ok false
  | Some m =>
    match m !! MsvAvFlags with
    | None => Ok false
    | Some v => let! b := av_value targetInfo v in
                let! f := get_le 4 b in Ok (negb (Z.land f 0x02 =? 0))
    end
  end.

(** The check of the MIC, and the message with it blanked. *)
Definition check_mic (s : Server) (flags : Z) (key amsg : bytes) : res bytes :=
  let at_ := if has flags NTLMSSP_NEGOTIATE_VERSION then 72 else 64 in
  let! mic := slice amsg at_ (at_ + 16) in
  let! amsg := copy_at amsg at_ (at_ + 16) zero16 in
  let h := hm_Write (hm_Write (hm_Write (hmac_New key) (s_nmsg s)) (s_cmsg s)) amsg in
  check bool_decide (mic = hm_Sum h) else Errorf "login failure";
  Ok amsg.

(** The server, and the message, whose MIC is blanked while it is checked. *)
Definition server_Authenticate (amsg : bytes) (s : Server) : res (Server * bytes) :=
  check negb (len amsg <? 64) else Errorf "message length is too short";
  let! sig := slice amsg 0 8 in
  check bool_decide (sig = signature) else Errorf "invalid signature";
  let! ty := u32 amsg 8 12 in
  check ty =? NtLmAuthenticate else Errorf "invalid message type";
  let! flags := u32 amsg 60 64 in
  let! (_, resp) := read_field "invalid LM challenge format" amsg 20 in
  let! (_, domainName) := read_field "invalid domain name format" amsg 28 in
  let! (_, userName) := read_field "invalid user name format" amsg 36 in
  let! (_, encrypted) := read_field "invalid user name format" amsg 52 in
  if negb (len userName =? 0) || negb (len resp =? 0) then
    let! user := DecodeToString userName in
    let! (expected, h) := expected_response s user domainName resp in
    check bool_decide (resp = expected) else Errorf "login failure";
    let! proof := slice resp 0 16 in
    let sessionBaseKey := hm_Sum (hm_Write (hm_Reset h) proof) in
    let! key := server_key flags sessionBaseKey encrypted in
    let! targetInfo := slice resp 44 (len resp) in
    let! mic := announces_mic targetInfo in
    let! amsg := if mic then check_mic s flags key amsg else Ok amsg in
    let! session := new_session false user flags key ∅ in
    Ok (mkServer (targetName s) (accounts s) (s_nmsg s) (s_cmsg s) (Some session), amsg)
  else Err (Errorf "credential is empty").
End parameters.
