(* ===== verification/NtlmSpec.v ===== *)
(** * NTLM: what a logon comes to

    The messages of [NtlmAuth] as buffers with fields ([placed]), what the server
    accepts, what the client sends, and the two together: a client that has a
    user's password logs on to the server.  The last part runs challenges of other
    servers, among them those the client answers wrongly or not at all. *)

From stdpp Require Import gmap.
From S2P Require Export NtlmAuth.

(** ** Fields of a message *)

Definition desc (n off : Z) : bytes := le_put 2 n ++ le_put 2 n ++ le_put 4 off.

Lemma len_desc n off : len (desc n off) = 8.
Proof. unfold desc. autorewrite with len. lia. Qed.
#[export] Hint Rewrite len_desc : len.

(** The value [v] at [off], described at [at_]; an empty value need not have an
    offset. *)
Definition placed (msg : bytes) (at_ off : Z) (v : bytes) : Prop :=
  (exists o, read msg at_ (at_ + 8) = desc (len v) o /\ (o = off \/ o = 0 /\ v = [])) /\
  read msg off (off + len v) = v.

(** The bytes outside the places written are those before. *)
Definition frame (b b' : bytes) (places : list (Z * Z)) : Prop :=
  len b' = len b /\
  forall lo hi, 0 <= lo <= hi -> hi <= len b ->
    Forall (fun p => hi <= p.1 \/ p.1 + p.2 <= lo) places -> read b' lo hi = read b lo hi.

Lemma write_frame b o n s :
  n = len s -> 0 <= o -> o + n <= len b -> frame b (write b o s) [(o, n)].
Proof.
  intros -> Ho H. split; [apply len_write|]. intros lo hi Hl Hh Hf. rewrite Forall_singleton in Hf.
  cbn [fst snd] in Hf. apply read_write_other; try done; lia.
Qed.

Lemma frame_trans b1 b2 b3 ps qs : frame b1 b2 ps -> frame b2 b3 qs -> frame b1 b3 (ps ++ qs).
Proof.
  intros [L1 H1] [L2 H2]. split; [lia|]. intros lo hi Hl Hh Hf. apply Forall_app in Hf as [Hp Hq].
  rewrite H2, H1; try done; lia.
Qed.

Lemma placed_frame b b' ps at_ off v :
  placed b at_ off v -> frame b b' ps ->
  0 <= at_ -> at_ + 8 <= len b -> 0 <= off -> off + len v <= len b ->
  Forall (fun p => (at_ + 8 <= p.1 \/ p.1 + p.2 <= at_) /\ (off + len v <= p.1 \/ p.1 + p.2 <= off)) ps ->
  placed b' at_ off v.
Proof.
  intros [(o & Hd & Ho) Hv] [_ Hf] ? ? ? ? Hps. pose proof (len_nonneg v).
  rewrite Forall_and in Hps. destruct Hps as [Hps1 Hps2].
  split; [exists o; split; [|done]|].
  - rewrite Hf; [done|lia|lia|done].
  - rewrite Hf; [done|lia|lia|done].
Qed.

(** Side conditions of reading past a frame: places that do not meet. *)
Ltac frame_side := first [lia | cbn [app]; repeat (apply Forall_cons_2 || apply Forall_nil_2); cbn [fst snd]; lia].

Lemma put_desc_eq msg at_ n off :
  0 <= at_ -> at_ + 8 <= len msg -> put_desc msg at_ n off = Ok (write msg at_ (desc n off)).
Proof.
  intros. unfold put_desc, put16, put32.
  rewrite !put_le_write by (autorewrite with len; lia). cbn [bind].
  rewrite !put_le_write by (autorewrite with len; lia). cbn [bind].
  rewrite put_le_write by (autorewrite with len; lia).
  f_equal. rewrite (write_app msg at_) by (autorewrite with len; lia).
  rewrite write_app by (autorewrite with len; lia). unfold desc. by rewrite <- app_assoc.
Qed.

Lemma put_field_placed msg at_ off v :
  0 <= at_ -> at_ + 8 <= off -> off + len v <= len msg ->
  exists msg', put_field msg at_ off v = Ok (msg', off + len v) /\
    placed msg' at_ off v /\ frame msg msg' [(off, len v); (at_, 8)].
Proof.
  intros H1 H2 H3. pose proof (len_nonneg v). unfold put_field.
  rewrite copy_at_write by lia. cbn [bind]. rewrite len_write, Z.min_r by lia.
  rewrite put_desc_eq by (autorewrite with len; lia). cbn [bind].
  eexists. split; [done|]. split.
  - split; [exists off; split; [|by left]|]; read_tac; done.
  - apply (frame_trans _ (write msg off v) _ [_] [_]);
      [by apply write_frame; lia|].
    apply write_frame; autorewrite with len; lia.
Qed.

Lemma put_some_placed msg at_ off v :
  0 <= at_ -> at_ + 8 <= off -> off + len v <= len msg -> read msg at_ (at_ + 8) = desc 0 0 ->
  exists msg', put_some msg at_ off v = Ok (msg', off + len v) /\
    placed msg' at_ off v /\ frame msg msg' [(off, len v); (at_, 8)].
Proof.
  intros H1 H2 H3 Hz. unfold put_some. destruct (Z.eqb_spec (len v) 0) as [E|E].
  - apply len_0_nil in E. subst v. exists msg. rewrite len_nil, Z.add_0_r. split; [done|].
    split; [|split; [done|done]]. split; [exists 0; by split; [|right]|].
    unfold read. rewrite len_nil. by replace (Z.to_nat _) with 0%nat by lia.
  - by apply put_field_placed.
Qed.

Lemma u16_read b lo hi v : read b lo hi = le_put 2 v -> hi = lo + 2 -> 0 <= lo -> hi <= len b ->
  0 <= v < 2 ^ 16 -> u16 b lo hi = Ok v.
Proof.
  intros Hr -> Hl Hh Hv. unfold u16. rewrite slice_read, Hr by lia. cbn [bind].
  unfold get_le. rewrite len_le_put, (proj2 (Z.ltb_ge _ _)), take_ge by (rewrite ?length_le_put; lia).
  by rewrite le_get_put_id.
Qed.
Lemma u32_read b lo hi v : read b lo hi = le_put 4 v -> hi = lo + 4 -> 0 <= lo -> hi <= len b ->
  0 <= v < 2 ^ 32 -> u32 b lo hi = Ok v.
Proof.
  intros Hr -> Hl Hh Hv. unfold u32. rewrite slice_read, Hr by lia. cbn [bind].
  unfold get_le. rewrite len_le_put, (proj2 (Z.ltb_ge _ _)), take_ge by (rewrite ?length_le_put; lia).
  by rewrite le_get_put_id.
Qed.

Lemma read_field_placed e msg at_ off v :
  placed msg at_ off v -> 0 <= at_ -> at_ + 8 <= len msg -> len v < 2 ^ 16 ->
  0 <= off -> off + len v <= len msg -> len msg < 2 ^ 32 ->
  exists o, read_field e msg at_ = Ok (o, v) /\ 0 <= o /\ o + len v <= len msg.
Proof.
  intros [(o & Hd & Ho) Hv] H1 H2 H3 H4 H5 H6. pose proof (len_nonneg v).
  assert (0 <= o /\ o + len v <= len msg /\ read msg o (o + len v) = v) as (Ho1 & Ho2 & Hov).
  { destruct Ho as [->|[-> ->]]; [done|]. pose proof (@len_nil byte).
    split; [lia|]. split; [lia|]. done. }
  exists o. split; [|done]. unfold read_field.
  assert (forall lo hi, 0 <= lo <= hi -> hi <= 8 ->
    read msg (at_ + lo) (at_ + hi) = read (desc (len v) o) lo hi) as Hsub.
  { intros lo hi ? ?. rewrite <- Hd, read_read by lia. done. }
  assert (read msg (at_ + 0) (at_ + 2) = le_put 2 (len v)) as R1.
  { rewrite Hsub by lia. apply (read_split []); autorewrite with len; lia. }
  assert (read msg (at_ + 2) (at_ + 4) = le_put 2 (len v)) as R2.
  { rewrite Hsub by lia. apply read_split; autorewrite with len; lia. }
  assert (read msg (at_ + 4) (at_ + 8) = le_put 4 o) as R3.
  { rewrite Hsub by lia. unfold desc. rewrite (app_assoc (le_put 2 _)), <- (app_nil_r (le_put 4 o)).
    apply read_split; autorewrite with len; lia. }
  rewrite Z.add_0_r in R1.
  rewrite (u16_read _ _ _ (len v) R1) by lia. cbn [bind].
  rewrite (u16_read _ _ _ (len v) R2) by lia. cbn [bind]. rewrite Z.ltb_irrefl. cbn [negb].
  rewrite (u32_read _ _ _ o R3) by lia. cbn [bind]. rewrite wrap_small by lia.
  rewrite (proj2 (Z.ltb_ge _ _)) by lia. cbn [negb].
  rewrite slice_read by lia. cbn [bind]. by rewrite Hov.
Qed.

(** ** What the server accepts *)

(** A message without its MIC. *)
Record auth_msg (A : bytes) (flags : Z) (resp domain user enc : bytes) : Prop := {
  am_len : 88 <= len A < 2 ^ 32;
  am_sig : read A 0 8 = signature;
  am_type : read A 8 12 = le_put 4 NtLmAuthenticate;
  am_flags : read A 60 64 = le_put 4 flags;
  am_mic : read A 72 88 = zero16;
  am_fields : Forall (fun f => exists off, placed A f.1 off f.2 /\ len f.2 < 2 ^ 16 /\
    88 <= off /\ off + len f.2 <= len A) [(20, resp); (28, domain); (36, user); (52, enc)];
}.

Lemma read_field_mic e A mic at_ v :
  88 <= len A < 2 ^ 32 -> len mic = 16 -> 0 <= at_ -> at_ + 8 <= 72 ->
  (exists off, placed A at_ off v /\ len v < 2 ^ 16 /\ 88 <= off /\ off + len v <= len A) ->
  exists o, read_field e (write A 72 mic) at_ = Ok (o, v).
Proof.
  intros HA Hm H0 H1 (off & Hp & Hl & Ho & Hb). pose proof (len_nonneg v).
  destruct (read_field_placed e (write A 72 mic) at_ off v) as (o & -> & _);
    try (autorewrite with len; lia).
  - apply (placed_frame A _ [(72, len mic)]); try lia; [done|apply write_frame; lia|].
    rewrite Forall_singleton. cbn [fst snd]. lia.
  - by exists o.
Qed.

(** The parts of a response. *)
Section response.
Context (p ts cc pairs : bytes) (Hp : len p = 16) (Ht : len ts = 8) (Hc : len cc = 8).
Lemma resp_ts : slice (p ++ nt_temp ts cc pairs) 24 32 = Ok ts.
Proof.
  unfold nt_temp. rewrite (app_assoc p), (app_assoc (_ ++ _) (replicate 6 _)).
  apply slice_mid; autorewrite with len; lia.
Qed.
Lemma resp_cc : slice (p ++ nt_temp ts cc pairs) 32 40 = Ok cc.
Proof.
  unfold nt_temp. rewrite (app_assoc p), (app_assoc (_ ++ _) (replicate 6 _)),
    (app_assoc (_ ++ _) ts). apply slice_mid; autorewrite with len; lia.
Qed.
Lemma resp_pairs :
  slice (p ++ nt_temp ts cc pairs) 44 (len (p ++ nt_temp ts cc pairs)) = Ok pairs.
Proof.
  unfold nt_temp. rewrite (app_assoc p), (app_assoc (_ ++ _) (replicate 6 _)),
    (app_assoc (_ ++ _) ts), (app_assoc (_ ++ _) cc), (app_assoc (_ ++ _) (replicate 4 _)).
  apply slice_suffix; autorewrite with len; lia.
Qed.
End response.

Section server.
Context (ToUpper md4 : bytes -> bytes).

Lemma server_accepts A mic flags resp domain user enc u h key ti ss s :
  auth_msg A flags resp domain user enc ->
  0 <= flags < 2 ^ 32 -> has flags NTLMSSP_NEGOTIATE_VERSION = true ->
  16 <= len resp -> DecodeToString user = Ok u ->
  expected_response ToUpper md4 s u domain resp = Ok (resp, h) ->
  server_key flags (hm_Sum (hm_Write (hm_Reset h) (read resp 0 16))) enc = Ok key ->
  slice resp 44 (len resp) = Ok ti -> announces_mic ti = Ok true ->
  mic = hmac_md5 key ((s_nmsg s ++ s_cmsg s) ++ A) ->
  new_session false u flags key ∅ = Ok ss ->
  server_Authenticate ToUpper md4 (write A 72 mic) s =
  Ok (mkServer (targetName s) (accounts s) (s_nmsg s) (s_cmsg s) (Some ss), A).
Proof.
  intros [HA Hsig Hty Hfl Hmic Hf] Hfr Hv Hr Hu He Hk Hti Ham Emic Hss.
  assert (len mic = 16) as Hm by (subst mic; by autorewrite with len).
  rewrite !Forall_cons in Hf. destruct Hf as (F1 & F2 & F3 & F4 & _). cbn [fst snd] in *.
  unfold server_Authenticate. rewrite len_write, (proj2 (Z.ltb_ge _ _)) by lia. cbn [negb].
  rewrite slice_read by (autorewrite with len; lia). cbn [bind].
  rewrite read_write_other, Hsig by lia. rewrite bool_decide_true by done.
  rewrite (u32_read _ 8 12 NtLmAuthenticate)
    by (first [rewrite read_write_other; [done|lia..] | autorewrite with len; unfold NtLmAuthenticate; lia]).
  cbn [bind]. rewrite Z.eqb_refl.
  rewrite (u32_read _ 60 64 flags)
    by (first [rewrite read_write_other; [done|lia..] | autorewrite with len; lia]).
  cbn [bind].
  destruct (read_field_mic "invalid LM challenge format" A mic 20 resp HA Hm) as [o1 ->]; [lia|lia|done|].
  destruct (read_field_mic "invalid domain name format" A mic 28 domain HA Hm) as [o2 ->]; [lia|lia|done|].
  destruct (read_field_mic "invalid user name format" A mic 36 user HA Hm) as [o3 ->]; [lia|lia|done|].
  destruct (read_field_mic "invalid user name format" A mic 52 enc HA Hm) as [o4 ->]; [lia|lia|done|].
  cbn [bind]. rewrite (proj2 (Z.eqb_neq (len resp) 0)), orb_true_r by lia.
  rewrite Hu. cbn [bind]. rewrite He. cbn [bind]. rewrite bool_decide_true by done.
  rewrite slice_read by lia. cbn [bind]. rewrite Hk. cbn [bind]. rewrite Hti. cbn [bind].
  rewrite Ham. cbn [bind]. unfold check_mic. rewrite Hv.
  rewrite slice_read by (autorewrite with len; lia). cbn [bind].
  rewrite read_write_same by (autorewrite with len; lia).
  rewrite copy_at_write by (change (len zero16) with 16; autorewrite with len; lia). cbn [bind].
  rewrite write_write, write_read by (done || (change (len zero16) with 16; lia)).
  rewrite bool_decide_true by done. cbn [bind]. by rewrite Hss.
Qed.

Lemma expected_response_eq s u domain ts cc pairs ch :
  len ts = 8 -> len cc = 8 -> slice (s_cmsg s) 24 32 = Ok ch ->
  let temp := nt_temp ts cc pairs in
  let h := hm_Write (hm_Write (hmac_New (ntowfv2 md4 (utf16le (ToUpper u))
             (utf16le (default [] (accounts s !! u))) domain)) ch) temp in
  expected_response ToUpper md4 s u domain (hm_Sum h ++ temp) = Ok (hm_Sum h ++ temp, h).
Proof.
  intros Ht Hc Hch temp h. pose proof (len_nonneg pairs).
  assert (len temp = 28 + len pairs) as Htl by (subst temp; unfold nt_temp; autorewrite with len; lia).
  unfold expected_response. rewrite make_ok by len_lia. cbn [bind].
  rewrite slice_suffix by (autorewrite with len; lia). cbn [bind].
  rewrite !EncodeStringToBytes_eq. cbn [bind]. rewrite Hch. cbn [bind].
  pose proof (len_hm_Sum h) as Hh.
  rewrite (resp_ts _ ts cc pairs Hh Ht : slice (_ ++ temp) _ _ = _),
    (resp_cc _ ts cc pairs Hh Ht Hc : slice (_ ++ temp) _ _ = _),
    (resp_pairs _ ts cc pairs Hh Ht Hc : slice (_ ++ temp) _ (len (_ ++ temp)) = _).
  cbn [bind].
  replace (replicate (Z.to_nat (len (hm_Sum h ++ temp))) Byte.x00) with
    (replicate 16 Byte.x00 ++ replicate 2 Byte.x00 ++ replicate 6 Byte.x00 ++
     replicate 8 Byte.x00 ++ replicate 8 Byte.x00 ++ replicate 4 Byte.x00 ++
     replicate (length pairs) Byte.x00).
  2: { rewrite <- !replicate_add. f_equal. autorewrite with len. rewrite Htl. unfold len. lia. }
  erewrite (encodeNtlmv2Response_eq _ _ _ _ _ _ _ _ _ pairs pairs pairs ch);
    [|by autorewrite with len..|cbn [encode bytesEncoder]|by autorewrite with len|done].
  - cbn [bind]. rewrite !overlay_same by (by rewrite len_replicate). done.
  - rewrite copy_at_end by len_lia. cbn [bind]. do 2 f_equal.
    pose proof (write_suffix [] (replicate (length pairs) Byte.x00) pairs 0) as E. cbn [app] in E.
    rewrite E by (by autorewrite with len). done.
Qed.
End server.

(** The information a client sends back announces the MIC. *)
Lemma announces_mic_added ps spn :
  Forall pair_ok ps -> len spn < 2 ^ 16 -> MsvAvFlags ∉ ps.*1 ->
  announces_mic (av_list (ps ++ added_pairs spn) ++ replicate 8 Byte.x00) = Ok true.
Proof.
  intros Hps Hspn Hn. set (post := [(MsvAvChannelBindings, zero16)] ++
    (if len spn =? 0 then [] else [(MsvAvTargetName, spn)]) ++ [(MsvAvEOL, [])]).
  assert (av_list (ps ++ added_pairs spn) ++ replicate 8 Byte.x00 =
    av_list ((ps ++ (MsvAvFlags, le_put 4 2) :: post) ++ [(MsvAvEOL, [])])) as ->.
  { rewrite !(av_list_app ps), (av_list_app (ps ++ _)), (av_list_app ps), <- !app_assoc. f_equal.
    unfold added_pairs, post. destruct (len spn =? 0); cbn [app];
      rewrite !av_list_cons; change (av_list []) with (@nil byte);
      rewrite <- ?app_assoc; done. }
  unfold announces_mic. rewrite parseAvPairs_list.
  - cbn [bind]. rewrite <- app_assoc. cbn [app]. rewrite av_positions_last.
    + rewrite Z.add_0_l, av_value_list. cbn [bind]. done.
    + unfold post. destruct (len spn =? 0); cbn; set_solver.
  - apply Forall_app. split; [done|]. unfold post. pose proof (len_nonneg spn).
    unfold pair_ok, MsvAvFlags, MsvAvChannelBindings, MsvAvTargetName, MsvAvEOL.
    destruct (len spn =? 0); repeat constructor; cbn [fst snd app];
      rewrite ?len_le_put, ?len_nil; try lia; done.
Qed.

(** ** Keys *)

Lemma rc4_NewCipher_ok key : 1 <= len key <= 256 -> exists c, rc4_NewCipher key = Ok c.
Proof.
  intros H. unfold rc4_NewCipher.
  rewrite (proj2 (Z.ltb_ge _ _)), (proj2 (Z.ltb_ge 256 _)) by lia. by eexists.
Qed.

Lemma sealKey_ok flags key dir :
  len key = 16 -> exists k, sealKey flags key dir = Ok k /\ 1 <= len k <= 256.
Proof.
  intros Hk. unfold sealKey.
  destruct (has flags NTLMSSP_NEGOTIATE_EXTENDED_SESSIONSECURITY).
  - destruct (has flags NTLMSSP_NEGOTIATE_128); [|destruct (has flags NTLMSSP_NEGOTIATE_56)];
      rewrite ?slice_read by lia; cbn [bind]; eexists; (split; [done|]); autorewrite with len; lia.
  - destruct (has flags NTLMSSP_NEGOTIATE_LM_KEY); [destruct (has flags NTLMSSP_NEGOTIATE_56)|];
      rewrite ?slice_read by lia; cbn [bind]; eexists; (split; [done|]);
      rewrite ?len_app, ?len_read by lia; autorewrite with len; lia.
Qed.

(** The two ends that have the same key are peers. *)
Lemma new_session_peers flags key :
  len key = 16 ->
  exists f, (forall side u m, new_session side u flags key m = Ok (f side u m)) /\
    (forall side u m, s_user (f side u m) = u /\ negotiateFlags (f side u m) = flags /\
                      isClientSide (f side u m) = side) /\
    forall u m u' m', peers (f true u m) (f false u' m').
Proof.
  intros Hk. destruct (sealKey_ok flags key true Hk) as (k1 & E1 & H1).
  destruct (sealKey_ok flags key false Hk) as (k2 & E2 & H2).
  destruct (rc4_NewCipher_ok k1 H1) as [c1 C1]. destruct (rc4_NewCipher_ok k2 H2) as [c2 C2].
  eexists (fun side u m => mkSession side u flags key _ _ c1 c2 m). split; [|split].
  - intros. unfold new_session. by rewrite E1, E2; cbn [bind]; rewrite C1, C2.
  - done.
  - done.
Qed.

Lemma keys_agree rnd flags base amsg off r :
  len base = 16 -> rnd 1%nat = Ok r -> 60 <= off -> off = len amsg - 16 ->
  read amsg 52 60 = desc 0 0 ->
  exists key enc amsg', client_key rnd flags base amsg off = Ok (key, amsg') /\
    server_key flags base enc = Ok key /\ len key = 16 /\ len enc <= 16 /\
    placed amsg' 52 off enc /\ frame amsg amsg' [(off, 16); (52, 8)].
Proof.
  intros Hb Hr Ho Ho' Hz. unfold client_key, server_key.
  destruct (has flags NTLMSSP_NEGOTIATE_KEY_EXCH).
  - rewrite Hr, !make_ok by lia. cbn [bind].
    rewrite copy_at_end by (rewrite len_replicate; lia). cbn [bind].
    set (key := write _ 0 r). assert (len key = 16) as Hk by (subst key; by autorewrite with len).
    clearbody key. destruct (rc4_NewCipher_ok base) as [c ->]; [lia|]. cbn [bind].
    rewrite slice_read by lia. cbn [bind].
    destruct (XORKeyStream_undo c (read amsg off (len amsg)) (replicate (Z.to_nat 16) Byte.x00) key)
      as (e & c' & -> & He & Hd); [rewrite len_read; lia|by rewrite len_replicate|].
    cbn [bind]. rewrite Hk in He. rewrite copy_at_end by lia. cbn [bind].
    rewrite put_desc_eq by (autorewrite with len; lia). cbn [bind].
    exists key, e. eexists. split; [done|]. rewrite Hd. cbn [bind].
    split; [done|]. split; [done|]. split; [lia|]. split.
    + split; [exists off; split; [|by left]|]; read_tac; by rewrite ?He.
    + apply (frame_trans _ (write amsg off e) _ [_] [_]);
        apply write_frame; autorewrite with len; lia.
  - exists base, [], amsg. split; [done|]. split; [done|]. split; [done|]. rewrite len_nil.
    split; [lia|]. split; [|split; done]. split; [exists 0; split; [done|by right]|].
    unfold read. by replace (Z.to_nat _) with 0%nat by (rewrite len_nil; lia).
Qed.

(** ** What the client sends *)

Section client.
Context (ToUpper md4 : bytes -> bytes) (rnd : nat -> res bytes) (now : Z).

Definition blank (n : Z) : bytes :=
  write (write (replicate (Z.to_nat n) Byte.x00) 0 signature) 8 (le_put 4 NtLmAuthenticate).

Lemma read_blank n lo hi :
  12 <= lo <= hi -> hi <= n -> read (blank n) lo hi = replicate (Z.to_nat (hi - lo)) Byte.x00.
Proof.
  intros H1 H2. unfold blank. assert (len signature = 8) by done.
  rewrite !read_write_other by (autorewrite with len; lia). apply read_zeros; lia.
Qed.

Lemma read_blank_sig n : 12 <= n -> read (blank n) 0 8 = signature.
Proof.
  intros H. unfold blank. assert (len signature = 8) by done. by read_tac.
Qed.
Lemma read_blank_type n : 12 <= n -> read (blank n) 8 12 = le_put 4 NtLmAuthenticate.
Proof. intros H. unfold blank. assert (len signature = 8) by done. by read_tac. Qed.

(** The message with its names: what is in it, and where it is still blank. *)
Record names_msg (B domain user ws : bytes) (N : Z) : Prop := {
  nm_len : len B = 88 + len domain + len user + len ws + 24 + N + 16;
  nm_domain : placed B 28 88 domain;
  nm_user : placed B 36 (88 + len domain) user;
  nm_sig : read B 0 8 = signature;
  nm_type : read B 8 12 = le_put 4 NtLmAuthenticate;
  nm_blank : forall lo hi, 12 <= lo <= hi -> hi <= len B ->
    hi <= 28 \/ 52 <= lo /\ hi <= 88 \/ 88 + len domain + len user + len ws <= lo ->
    read B lo hi = replicate (Z.to_nat (hi - lo)) Byte.x00;
}.

Lemma amsg_names_spec c domain info :
  0 <= ti_size info ->
  let user := utf16le (User c) in let ws := utf16le (Workstation c) in
  exists B, amsg_names c domain info = Ok (B, 88 + len domain + len user + len ws) /\
    names_msg B domain user ws (48 + ti_size info).
Proof.
  intros HS user ws. unfold amsg_names. rewrite !EncodeStringToBytes_eq. cbn [bind].
  change (size info) with (ti_size info). change (64 + 8 + 16) with 88. fold user ws.
  pose proof (len_nonneg domain). pose proof (len_nonneg user). pose proof (len_nonneg ws).
  set (T := 88 + _ + _ + _ + 24 + _ + 16).
  assert (T = 88 + len domain + len user + len ws + 24 + (48 + ti_size info) + 16) as HT
    by (unfold T; lia).
  rewrite make_ok by lia. cbn [bind].
  rewrite (copy_at_write _ 0 8 signature) by (change (len signature) with 8; autorewrite with len; lia).
  cbn [bind]. unfold put32. rewrite put_le_write by (autorewrite with len; lia). cbn [bind].
  fold (blank T). assert (len (blank T) = T) as HL by (unfold blank; autorewrite with len; lia).
  destruct (put_field_placed (blank T) 28 88 domain) as (B1 & -> & P1 & F1); [lia|lia|lia|].
  cbn [bind]. pose proof F1 as [L1 R1].
  destruct (put_some_placed B1 36 (88 + len domain) user) as (B2 & -> & P2 & F2); [lia|lia|lia| |].
  { rewrite R1 by frame_side. by rewrite read_blank by lia. }
  cbn [bind]. pose proof F2 as [L2 R2].
  destruct (put_some_placed B2 44 (88 + len domain + len user) ws) as (B3 & -> & P3 & F3);
    [lia|lia|lia| |].
  { rewrite R2, R1 by frame_side. by rewrite read_blank by lia. }
  pose proof F3 as [L3 R3]. exists B3. split; [done|]. split.
  - lia.
  - apply (placed_frame B1 _ ([_; _] ++ [_; _]) _ _ _ P1 (frame_trans _ _ _ _ _ F2 F3));
      try lia; frame_side.
  - apply (placed_frame B2 _ _ _ _ _ P2 F3); try lia; frame_side.
  - rewrite R3, R2, R1 by frame_side. apply read_blank_sig. lia.
  - rewrite R3, R2, R1 by frame_side. apply read_blank_type. lia.
  - intros lo hi ? ? ?. rewrite R3, R2, R1 by frame_side. apply read_blank; lia.
Qed.

(** The response, the key, flags and version added to it. *)
Lemma auth_msg_built B domain user ws N resp enc flags B4 :
  names_msg B domain user ws N -> len resp = N -> 44 <= N ->
  len domain < 2 ^ 16 -> len user < 2 ^ 16 -> len ws < 2 ^ 16 -> N < 2 ^ 16 -> len enc <= 16 ->
  let off := 88 + len domain + len user + len ws in
  frame (write (write (write B 12 (desc 24 off)) (off + 24) resp) 20 (desc N (off + 24))) B4
    [(len B - 16, 16); (52, 8)] ->
  placed B4 52 (len B - 16) enc ->
  auth_msg (write (write B4 60 (le_put 4 flags)) 64 version) flags resp domain user enc.
Proof.
  intros [HL Pd Pu Hsig Hty Hbl] HN HN2 HD HU HW HN3 HE off F4 Pe.
  pose proof (len_nonneg domain). pose proof (len_nonneg user). pose proof (len_nonneg ws).
  pose proof (len_nonneg enc). assert (len version = 8) as Hver by done.
  assert (off = 88 + len domain + len user + len ws) as Eoff by done.
  set (B3 := write (write (write B 12 _) _ resp) 20 _) in F4.
  assert (frame B B3 ([(12, 8)] ++ [(off + 24, N)] ++ [(20, 8)])) as F3.
  { apply (frame_trans _ (write B 12 (desc 24 off))); [apply write_frame; autorewrite with len; lia|].
    eapply frame_trans; apply write_frame; autorewrite with len; lia. }
  assert (placed B3 20 (off + 24) resp) as Pr.
  { split; [exists (off + 24); split; [|by left]|]; unfold B3; read_tac; by rewrite ?HN. }
  set (A := write (write B4 60 _) 64 version). pose proof F3 as [L3 R3]. pose proof F4 as [L4 R4].
  assert (frame B4 A ([(60, 4)] ++ [(64, 8)])) as FA.
  { apply (frame_trans _ (write B4 60 (le_put 4 flags)));
      apply write_frame; autorewrite with len; try lia; done. }
  pose proof (frame_trans _ _ _ _ _ F4 FA) as F3A. pose proof (frame_trans _ _ _ _ _ F3 F3A) as FBA.
  pose proof FBA as [LBA RBA]. split.
  - lia.
  - by rewrite RBA by frame_side.
  - by rewrite RBA by frame_side.
  - unfold A. by read_tac.
  - rewrite RBA by frame_side. by rewrite Hbl by lia.
  - repeat (apply Forall_cons_2 || apply Forall_nil_2); cbn [fst snd].
    + exists (off + 24). split; [|lia]. apply (placed_frame B3 _ _ _ _ _ Pr F3A); try lia; frame_side.
    + exists 88. split; [|lia]. apply (placed_frame B _ _ _ _ _ Pd FBA); try lia; frame_side.
    + exists (88 + len domain). split; [|lia].
      apply (placed_frame B _ _ _ _ _ Pu FBA); try lia; frame_side.
    + exists (len B - 16). split; [|lia]. apply (placed_frame B4 _ _ _ _ _ Pe FA); try lia; frame_side.
Qed.

(** The target information of a challenge that lists pairs. *)
Definition info_of (ps : list (Z * bytes)) (spn : bytes) : targetInfoEncoder :=
  let ps := ps ++ [(MsvAvEOL, [])] in mkTargetInfo (av_list ps) spn (av_positions 0 ps ∅).

(** Every value of the map can be read. *)
Lemma av_value_ok ps id v :
  av_positions 0 ps ∅ !! id = Some v -> exists b, av_value (av_list ps) v = Ok b.
Proof.
  intros H. destruct (decide (id ∈ ps.*1)) as [Hin|Hin].
  - assert (exists xs w ys, ps = xs ++ (id, w) :: ys /\ id ∉ ys.*1) as (xs & w & ys & -> & Hn).
    { clear H. induction ps as [|[j w] ps IH]; [by apply elem_of_nil in Hin|].
      destruct (decide (id ∈ ps.*1)) as [Hp|Hp].
      - destruct (IH Hp) as (xs & w' & ys & -> & Hn). by exists ((j, w) :: xs), w', ys.
      - rewrite fmap_cons, elem_of_cons in Hin. destruct Hin as [->|?]; [|done].
        by exists [], w, ps. }
    rewrite av_positions_last in H by done. injection H as <-.
    rewrite Z.add_0_l, av_value_list. by eexists.
  - by rewrite av_positions_other in H.
Qed.

(** The slice the response is written to, by its parts. *)
Definition layout (p a t c rest : bytes) : bytes :=
  p ++ a ++ replicate 6 Byte.x00 ++ t ++ c ++ replicate 4 Byte.x00 ++ rest.

Section layout.
Context (p a t c rest : bytes) (Hp : len p = 16) (Ha : len a = 2) (Ht : len t = 8) (Hc : len c = 8).

Lemma layout_t : layout p a t c rest =
  (p ++ a ++ replicate 6 Byte.x00) ++ t ++ c ++ replicate 4 Byte.x00 ++ rest.
Proof. unfold layout. by rewrite <- !app_assoc. Qed.
Lemma layout_c : layout p a t c rest =
  (p ++ a ++ replicate 6 Byte.x00 ++ t) ++ c ++ replicate 4 Byte.x00 ++ rest.
Proof. unfold layout. by rewrite <- !app_assoc. Qed.

Lemma layout_copy_c r : copy_at (layout p a t c rest) 32 40 r = Ok (layout p a t (overlay r c) rest).
Proof.
  rewrite layout_c, copy_at_seg by (autorewrite with len; lia).
  unfold layout. by rewrite <- !app_assoc.
Qed.
Lemma layout_slice_c : slice (layout p a t c rest) 32 40 = Ok c.
Proof. rewrite layout_c. apply slice_mid; autorewrite with len; lia. Qed.
Lemma layout_put_t v : put64 (layout p a t c rest) 24 32 v = Ok (layout p a (le_put 8 v) c rest).
Proof.
  unfold put64, put_le. rewrite (proj2 (Z.ltb_ge _ _)) by lia.
  rewrite layout_t, copy_at_mid by (autorewrite with len; lia).
  unfold layout. by rewrite <- !app_assoc.
Qed.
Lemma layout_slice_t : slice (layout p a t c rest) 24 32 = Ok t.
Proof. rewrite layout_t. apply slice_mid; autorewrite with len; lia. Qed.
End layout.

Lemma nt_response_eq h cmsg at_ ps spn ch r :
  rnd 0%nat = Ok r -> MsvAvFlags ∉ ps.*1 -> len spn < 2 ^ 16 ->
  challenge_after cmsg at_ (info_of ps spn) = Ok cmsg -> slice cmsg 24 32 = Ok ch ->
  exists ts cc,
    let temp := nt_temp ts cc (av_list (ps ++ added_pairs spn) ++ replicate 8 Byte.x00) in
    let h' := hm_Write (hm_Write h ch) temp in
    len ts = 8 /\ len cc = 8 /\
    len temp = 28 + ti_size (info_of ps spn) + 4 /\
    nt_response rnd now h cmsg
      (replicate (Z.to_nat (16 + (28 + ti_size (info_of ps spn) + 4))) Byte.x00) at_ (info_of ps spn) =
    Ok (hm_Sum h' ++ temp, h', info_of ps spn).
Proof.
  intros Hr Hn Hs Hc Hch. set (i := info_of ps spn) in *.
  assert (0 <= ti_size i) as Hsz.
  { unfold ti_size. pose proof (len_nonneg (Info i)). pose proof (len_nonneg (SPN i)).
    repeat case_match; lia. }
  assert (InfoMap i !! MsvAvFlags = None) as Hm.
  { cbn [InfoMap i info_of]. rewrite av_positions_app. cbn [av_positions fst].
    rewrite lookup_insert_ne by done. by rewrite av_positions_other. }
  set (n := Z.to_nat (ti_size i)).
  assert (ti_encode i (replicate (n + 4) Byte.x00) =
    Ok (av_list (ps ++ added_pairs spn) ++ replicate 8 Byte.x00, i)) as He.
  { pose proof (ti_encode_pairs ps spn (InfoMap i) 4 Hm Hs) as H. cbn zeta in H.
    assert (mkTargetInfo (av_list ps ++ replicate 4 Byte.x00) spn (InfoMap i) = i) as E.
    { unfold i, info_of. by rewrite (av_list_app ps). }
    by rewrite E in H. }
  assert (len (av_list (ps ++ added_pairs spn) ++ replicate 8 Byte.x00) = Z.of_nat (n + 4)) as Hl.
  { rewrite av_list_app, av_list_added. unfold n, ti_size. rewrite Hm.
    unfold i, info_of. cbn [Info SPN]. rewrite av_list_app.
    change (av_list [(MsvAvEOL, [])]) with (replicate 4 Byte.x00).
    pose proof (len_nonneg (av_list ps)). pose proof (len_nonneg spn).
    destruct (len spn =? 0); cbn [negb]; autorewrite with len; lia. }
  replace (replicate (Z.to_nat (16 + (28 + ti_size i + 4))) Byte.x00) with
    (replicate 16 Byte.x00 ++ replicate 2 Byte.x00 ++ replicate 6 Byte.x00 ++
     replicate 8 Byte.x00 ++ replicate 8 Byte.x00 ++ replicate 4 Byte.x00 ++
     replicate (n + 4) Byte.x00) by (rewrite <- !replicate_add; f_equal; lia).
  unfold nt_response. rewrite Hr. cbn [bind].
  fold (layout (replicate 16 Byte.x00) (replicate 2 Byte.x00) (replicate 8 Byte.x00)
    (replicate 8 Byte.x00) (replicate (n + 4) Byte.x00)).
  rewrite layout_copy_c by done. cbn [bind].
  rewrite layout_slice_c by (rewrite ?len_overlay; done). cbn [bind].
  set (cc := overlay r _). assert (len cc = 8) as Hcc by (by unfold cc; rewrite len_overlay).
  assert (exists t ts, len t = 8 /\
    match InfoMap i !! MsvAvTimestamp with
    | Some v => let! t := av_value (Info i) v in
        Ok (layout (replicate 16 Byte.x00) (replicate 2 Byte.x00) (replicate 8 Byte.x00) cc
              (replicate (n + 4) Byte.x00), t)
    | None =>
        let! resp := put64 (layout (replicate 16 Byte.x00) (replicate 2 Byte.x00)
          (replicate 8 Byte.x00) cc (replicate (n + 4) Byte.x00)) 24 32 (filetime_now now) in
        let! t := slice resp 24 32 in Ok (resp, t)
    end = Ok (layout (replicate 16 Byte.x00) (replicate 2 Byte.x00) t cc
                (replicate (n + 4) Byte.x00), ts)) as (t & ts & Ht & ->).
  { destruct (InfoMap i !! MsvAvTimestamp) as [v|] eqn:Et.
    - destruct (av_value_ok _ _ _ Et) as [b Hb]. exists (replicate 8 Byte.x00), b.
      split; [done|]. by rewrite (Hb : av_value (Info i) v = _).
    - exists (le_put 8 (filetime_now now)), (le_put 8 (filetime_now now)).
      split; [done|]. by rewrite layout_put_t by done; cbn [bind]; rewrite layout_slice_t. }
  cbn [bind]. exists (overlay ts t), cc. split; [by rewrite len_overlay|]. split; [done|].
  split. { unfold nt_temp. autorewrite with len in *. lia. }
  unfold layout.
  erewrite (encodeNtlmv2Response_eq _ _ _ _ _ _ _ _ _ i i _ ch);
    [|done..|exact He|rewrite Hl; by rewrite len_replicate|by rewrite Hc].
  by rewrite (overlay_same cc cc) by done.
Qed.

(** The domain a client answers for. *)
Definition answered_domain (c : Client) (tname : bytes) : bytes :=
  if len (utf16le (Domain c)) =? 0 then tname else utf16le (Domain c).

Lemma client_sends c cmsg flags tname at_ ps ch r0 r1 K :
  let i := info_of ps (utf16le (TargetSPN c)) in
  let domain := answered_domain c tname in
  read_challenge c cmsg = Ok (flags, tname, at_, i) -> 0 <= flags < 2 ^ 32 ->
  MsvAvFlags ∉ ps.*1 -> len (utf16le (TargetSPN c)) < 2 ^ 16 ->
  challenge_after cmsg at_ i = Ok cmsg -> slice cmsg 24 32 = Ok ch ->
  has_credentials c = true -> response_hash ToUpper md4 c domain = Ok (hmac_New K) ->
  len domain < 2 ^ 16 -> len (utf16le (User c)) < 2 ^ 16 -> len (utf16le (Workstation c)) < 2 ^ 16 ->
  48 + ti_size i < 2 ^ 16 -> rnd 0%nat = Ok r0 -> rnd 1%nat = Ok r1 ->
  exists A ts cc enc key ss,
    let temp := nt_temp ts cc (av_list (ps ++ added_pairs (utf16le (TargetSPN c))) ++
                  replicate 8 Byte.x00) in
    let h := hm_Write (hm_Write (hmac_New K) ch) temp in
    let resp := hm_Sum h ++ temp in
    len ts = 8 /\ len cc = 8 /\ len key = 16 /\
    client_Authenticate ToUpper md4 rnd now cmsg c =
      Ok (write A 72 (hmac_md5 key ((c_nmsg c ++ cmsg) ++ A)), with_session ss c) /\
    auth_msg A flags resp domain (utf16le (User c)) enc /\
    server_key flags (hm_Sum (hm_Write (hm_Reset h) (read resp 0 16))) enc = Ok key /\
    new_session true (User c) flags key (InfoMap i) = Ok ss.
Proof.
  intros i domain Hrc Hfr Hn Hspn Hca Hch Hcr Hrh HD HU HW HS Hr0 Hr1.
  set (user := utf16le (User c)) in *. set (ws := utf16le (Workstation c)) in *.
  pose proof (len_nonneg domain). pose proof (len_nonneg user). pose proof (len_nonneg ws).
  assert (0 <= ti_size i) as Hsz.
  { unfold ti_size. pose proof (len_nonneg (Info i)). pose proof (len_nonneg (SPN i)).
    repeat case_match; lia. }
  unfold client_Authenticate. rewrite Hrc. cbn [bind]. rewrite EncodeStringToBytes_eq. cbn [bind].
  fold (answered_domain c tname). fold domain.
  destruct (amsg_names_spec c domain i Hsz) as (B & -> & HB). pose proof HB as [LB _ _ _ _ Hbl].
  cbn [bind]. fold user ws in HB, LB, Hbl |- *. rewrite Hcr. cbn [negb]. rewrite Hrh. cbn [bind].
  set (off := 88 + len domain + len user + len ws) in *. set (N := 48 + ti_size i) in *.
  assert (off = 88 + len domain + len user + len ws) as Eoff by done.
  assert (N = 48 + ti_size i) as EN by done.
  rewrite slice_read by lia. cbn [bind]. rewrite put_desc_eq by lia. cbn [bind].
  rewrite slice_read by (autorewrite with len; lia). cbn [bind].
  rewrite len_write, read_write_other, Hbl by (autorewrite with len; lia).
  replace (Z.to_nat _) with (Z.to_nat (16 + (28 + ti_size i + 4))) by (f_equal; lia).
  destruct (nt_response_eq (hmac_New K) cmsg at_ ps (utf16le (TargetSPN c)) ch r0 Hr0 Hn Hspn Hca Hch)
    as (ts & cc & Hts & Hcc & Htl & Hnr).
  fold i in Htl, Hnr. rewrite Hnr. clear Hnr.
  set (temp := nt_temp ts cc _) in *. set (h := hm_Write (hm_Write (hmac_New K) ch) temp).
  set (resp := hm_Sum h ++ temp).
  assert (len resp = N) as HN by (unfold resp; autorewrite with len; lia).
  cbn [bind]. rewrite Hca. cbn [bind]. rewrite HN.
  rewrite copy_at_write by (autorewrite with len; lia). cbn [bind].
  rewrite put_desc_eq by (autorewrite with len; lia). cbn [bind].
  rewrite (slice_read resp) by lia. cbn [bind]. rewrite !len_write.
  destruct (keys_agree rnd flags (hm_Sum (hm_Write (hm_Reset h) (read resp 0 16)))
      (write (write (write B 12 (desc 24 off)) (off + 24) resp) 20 (desc N (off + 24))) (len B - 16) r1)
    as (key & enc & B4 & -> & Hsk & Hkl & Hel & Pe & F4);
    [by autorewrite with len|done|lia|by rewrite !len_write|by read_tac; rewrite Hbl by lia|].
  pose proof F4 as [L4 _]. rewrite !len_write in L4. pose proof (len_nonneg enc).
  cbn [bind]. unfold put32. rewrite put_le_write by lia. cbn [bind].
  rewrite copy_at_end by (autorewrite with len; lia). cbn [bind].
  rewrite copy_at_write by (autorewrite with len; lia). cbn [bind].
  destruct (new_session_peers flags key Hkl) as (f & Hf & _). rewrite Hf. cbn [bind].
  exists (write (write B4 60 (le_put 4 flags)) 64 version), ts, cc, enc, key,
    (f true (User c) (InfoMap i)).
  do 4 (split; [done|]). split; [|split; [done|by rewrite Hf]].
  by apply (auth_msg_built B domain user ws N); try lia.
Qed.
End client.

(** ** The logon *)

Lemma land_range a b w : 0 <= w -> 0 <= a < 2 ^ w -> 0 <= Z.land a b < 2 ^ w.
Proof.
  intros Hw Ha. replace (Z.land a b) with (Z.land a b mod 2 ^ w); [apply Z.mod_pos_bound; lia|].
  apply Z.bits_inj'. intros i Hi. destruct (Z.ltb_spec i w).
  - by rewrite Z.mod_pow2_bits_low.
  - rewrite Z.mod_pow2_bits_high, Z.land_spec by lia.
    rewrite <- (Z.mod_small a (2 ^ w)) by done. by rewrite Z.mod_pow2_bits_high by lia.
Qed.

Lemma read_field_inv e msg at_ o v :
  read_field e msg at_ = Ok (o, v) -> len v < 2 ^ 16 /\ slice msg o (o + len v) = Ok v.
Proof.
  unfold read_field. intros H. inv_binds. cbn zeta in *. inv_binds.
  match goal with H : Ok _ = Ok _ |- _ => injection H as <- <- end.
  apply u16_range in H0. apply u32_range in H2. pose proof (slice_inv _ _ _ _ H3) as (Ha & Hb & Hc).
  assert (wrap 32 (x1 + x) = x1 + x) as E.
  { unfold wrap in *. destruct (Z.ltb_spec (x1 + x) (2 ^ 32)); [apply Z.mod_small; lia|].
    exfalso. replace (x1 + x) with (x1 + x - 2 ^ 32 + 1 * 2 ^ 32) in Ha by lia.
    rewrite Z.mod_add, Z.mod_small in Ha by lia. lia. }
  rewrite E in *. replace (x1 + len x2) with (x1 + x) by lia. split; [lia|done].
Qed.

Lemma read_challenge_inv c cmsg flags tname at_ info :
  read_challenge c cmsg = Ok (flags, tname, at_, info) ->
  48 <= len cmsg /\ 0 <= flags < 2 ^ 32 /\ len tname < 2 ^ 16 /\
  slice cmsg at_ (at_ + len (Info info)) = Ok (Info info) /\
  SPN info = utf16le (TargetSPN c) /\ parseAvPairs (Info info) = Ok (Some (InfoMap info)).
Proof.
  unfold read_challenge, check_challenge. intros H.
  destruct (Z.ltb_spec (len cmsg) 48) as [|Hl]; [done|]. cbn [negb] in H. inv_binds.
  repeat match goal with x : Z * bytes |- _ => destruct x; inv_binds end.
  match goal with H : newTargetInfoEncoder _ _ = Ok ?o |- _ =>
    unfold newTargetInfoEncoder in H; rename H into Hi; destruct o as [i|]; [|done] end.
  inv_binds. rewrite EncodeStringToBytes_eq in *.
  match goal with m : option (gmap _ _) |- _ => destruct m as [m'|]; [|done] end.
  injection Hi as <-. injection H as <- <- <- <-. cbn [Info SPN InfoMap].
  match goal with H : read_field _ _ 12 = _ |- _ => apply read_field_inv in H; destruct H as [? _] end.
  match goal with H : read_field _ _ 40 = _ |- _ => apply read_field_inv in H; destruct H as [_ ?] end.
  match goal with H : u32 _ 12 16 = _ |- _ => apply u32_range in H end.
  split; [done|]. split; [by apply land_range|]. repeat split; try done; congruence.
Qed.

(** What a server knows of a user agrees with what the client has. *)
Definition knows (md4 : bytes -> bytes) (s : Server) (c : Client) : Prop :=
  exists pw, default [] (accounts s !! User c) = pw /\
    match Hash c with Some h => h = md4 (utf16le pw) | None => Password c = pw end.

(** Texts and names that fit the fields of a message. *)
Record client_fits (c : Client) (info : bytes) : Prop := {
  cf_user : of_utf16le (utf16le (User c)) = User c;
  cf_user_len : len (utf16le (User c)) < 2 ^ 16;
  cf_domain : len (utf16le (Domain c)) < 2 ^ 16;
  cf_workstation : len (utf16le (Workstation c)) < 2 ^ 16;
  cf_info : len info + len (utf16le (TargetSPN c)) + 80 < 2 ^ 16;
}.

Section logon.
Context (ToUpper md4 : bytes -> bytes).

Lemma response_hash_eq c s domain :
  knows md4 s c ->
  response_hash ToUpper md4 c domain =
  Ok (hmac_New (ntowfv2 md4 (utf16le (ToUpper (User c)))
    (utf16le (default [] (accounts s !! User c))) domain)).
Proof.
  intros (pw & -> & H). unfold response_hash. rewrite EncodeStringToBytes_eq. cbn [bind].
  destruct (Hash c) as [h|]; [by subst h|]. rewrite EncodeStringToBytes_eq. cbn [bind]. by rewrite H.
Qed.

(** A challenge without flags among its pairs: the client answers it, and the
    server that sent it accepts the answer. *)
Lemma Authenticate_accepted rnd now c s cmsg flags tname at_ info ps r0 r1 :
  read_challenge c cmsg = Ok (flags, tname, at_, info) ->
  Info info = av_list (ps ++ [(MsvAvEOL, [])]) -> Forall pair_ok ps -> MsvAvFlags ∉ ps.*1 ->
  has flags NTLMSSP_NEGOTIATE_VERSION = true -> s_nmsg s = c_nmsg c -> s_cmsg s = cmsg ->
  knows md4 s c -> has_credentials c = true -> client_fits c (Info info) ->
  rnd 0%nat = Ok r0 -> rnd 1%nat = Ok r1 ->
  exists amsg A sc ss,
    client_Authenticate ToUpper md4 rnd now cmsg c = Ok (amsg, with_session sc c) /\
    server_Authenticate ToUpper md4 amsg s =
      Ok (mkServer (targetName s) (accounts s) (s_nmsg s) (s_cmsg s) (Some ss), A) /\
    peers sc ss /\ negotiateFlags sc = flags /\ s_user sc = User c /\ s_user ss = User c /\
    isClientSide sc = true /\ len amsg < 2 ^ 32.
Proof.
  intros Hrc Hi Hps Hn Hv Hsn Hsc Hk Hcr [] Hr0 Hr1.
  pose proof (read_challenge_inv _ _ _ _ _ _ Hrc) as (Hl & Hfr & Htl & Hsl & Hspn & Hpar).
  assert (info = info_of ps (utf16le (TargetSPN c))) as Einfo.
  { destruct info as [I S m]. cbn [Info SPN InfoMap] in *. subst I S.
    rewrite parseAvPairs_list in Hpar by done. injection Hpar as <-. done. }
  assert (exists ch, slice cmsg 24 32 = Ok ch) as [ch Hch]
    by (rewrite slice_read by lia; by eexists).
  pose proof (slice_inv _ _ _ _ Hsl) as (Hb1 & Hb2 & _).
  assert (challenge_after cmsg at_ info = Ok cmsg) as Hca.
  { unfold challenge_after. rewrite copy_at_write by lia. rewrite write_read; [done|lia|lia|].
    rewrite slice_read in Hsl by lia. by injection Hsl. }
  assert (ti_size info <= len (Info info) + 32 + len (utf16le (TargetSPN c))) as Hsz.
  { unfold ti_size. rewrite Hspn. pose proof (len_nonneg (utf16le (TargetSPN c))).
    repeat case_match; lia. }
  subst info. set (domain := answered_domain c tname).
  assert (len domain < 2 ^ 16) as HD by (unfold domain, answered_domain; case_match; lia).
  set (K := ntowfv2 md4 (utf16le (ToUpper (User c))) (utf16le (default [] (accounts s !! User c))) domain).
  pose proof (len_nonneg (Info (info_of ps (utf16le (TargetSPN c))))).
  destruct (client_sends ToUpper md4 rnd now c cmsg flags tname at_ ps ch r0 r1 K Hrc Hfr Hn)
    as (A & ts & cc & enc & key & sc & Hts & Hcc & Hkl & Hc & Hm & Hsk & Hss);
    try done; try lia; [by apply response_hash_eq|].
  destruct (new_session_peers flags key Hkl) as (f & Hf & Hfu & Hp).
  rewrite Hf in Hss. injection Hss as <-.
  eexists _, A, _, (f false (User c) ∅). split; [exact Hc|].
  split.
  2: { split; [apply Hp|]. split; [apply Hfu|]. split; [apply Hfu|]. split; [apply Hfu|].
       split; [apply Hfu|]. rewrite len_write. by destruct (am_len _ _ _ _ _ _ Hm). }
  set (pairs := av_list _ ++ _) in *. set (temp := nt_temp ts cc pairs) in *.
  assert (44 <= len (hm_Sum (hm_Write (hm_Write (hmac_New K) ch) temp) ++ temp)) as Hlr.
  { unfold temp, nt_temp. pose proof (len_nonneg pairs). autorewrite with len. lia. }
  eapply (server_accepts ToUpper md4 A _ flags _ _ _ _ (User c)); [exact Hm|done|done|lia| | |exact Hsk| | | |done].
  - rewrite DecodeToString_eq. by rewrite cf_user0.
  - apply expected_response_eq; [done|done|by rewrite Hsc].
  - apply resp_pairs; [apply len_hm_Sum|done|done].
  - apply announces_mic_added; [done|lia|done].
  - by rewrite Hsn, Hsc.
Qed.

(** The challenge of this server to a client that offers [defaultFlags]. *)
Record challenge_msg (C name : bytes) : Prop := {
  cm_len : len C = 60 + len name;
  cm_sig : read C 0 8 = signature;
  cm_type : read C 8 12 = le_put 4 NtLmChallenge;
  cm_flags : read C 20 24 = le_put 4 defaultFlags;
  cm_name : placed C 12 56 name;
  cm_info : placed C 40 (56 + len name) (replicate 4 Byte.x00);
}.

Lemma build_challenge_spec rnd name r :
  len name < 2 ^ 16 -> rnd 0%nat = Ok r ->
  exists C, build_challenge rnd name defaultFlags = Ok C /\ challenge_msg C name.
Proof.
  intros Hn Hr. pose proof (len_nonneg name). assert (len signature = 8) as Hs by done.
  assert (len version = 8) as Hv by done. unfold build_challenge.
  change (has defaultFlags NTLMSSP_NEGOTIATE_VERSION) with true.
  change (has defaultFlags NTLMSSP_REQUEST_TARGET) with true.
  change (has defaultFlags NTLMSSP_NEGOTIATE_TARGET_INFO) with true. cbn iota.
  change (48 + 8) with 56. rewrite make_ok by lia. cbn [bind].
  rewrite (copy_at_write _ 0 8) by (autorewrite with len; lia). cbn [bind]. unfold put32.
  rewrite put_le_write by (autorewrite with len; lia). cbn [bind].
  rewrite put_le_write by (autorewrite with len; lia). cbn [bind].
  set (B := write _ 20 _). assert (len B = 60 + len name) as HB
    by (unfold B; autorewrite with len; lia).
  assert (read B 12 20 = desc 0 0) as Hz by (unfold B; read_tac; by rewrite read_zeros by lia).
  destruct (put_some_placed B 12 56 name) as (B1 & -> & P1 & F1); [lia|lia|lia|done|].
  cbn [bind]. pose proof F1 as [L1 R1].
  destruct (put_field_placed B1 40 (56 + len name) (replicate 4 Byte.x00)) as (B2 & -> & P2 & F2);
    [lia|lia|rewrite len_replicate; lia|].
  cbn [bind]. pose proof F2 as [L2 R2]. rewrite len_replicate in *.
  rewrite Hr. cbn [bind]. rewrite copy_at_cut by lia. cbn [bind].
  set (r8 := take _ r). assert (len r8 <= 8) as Hr8 by (unfold r8; len_lia).
  pose proof (len_nonneg r8). rewrite copy_at_write by (autorewrite with len; lia).
  eexists. split; [done|]. set (C := write (write B2 24 r8) 48 version).
  assert (frame B2 C ([(24, len r8)] ++ [(48, 8)])) as FC.
  { eapply frame_trans; apply write_frame; autorewrite with len; lia. }
  pose proof FC as [LC RC].
  split; [lia|rewrite RC, R2, R1 by frame_side; unfold B; by read_tac..| |].
  - apply (placed_frame B1 _ _ _ _ _ P1 (frame_trans _ _ _ _ _ F2 FC)); try lia; frame_side.
  - apply (placed_frame B2 _ _ _ _ _ P2 FC); rewrite ?len_replicate; try lia; frame_side.
Qed.

Lemma read_challenge_msg c C name :
  u32 (c_nmsg c) 12 16 = Ok defaultFlags -> challenge_msg C name -> len name < 2 ^ 16 ->
  exists at_, read_challenge c C =
    Ok (defaultFlags, name, at_, info_of [] (utf16le (TargetSPN c))).
Proof.
  intros Hm [HL Hs Hty Hfl Pn Pi] Hn. pose proof (len_nonneg name).
  unfold read_challenge, check_challenge. rewrite (proj2 (Z.ltb_ge _ _)) by lia. cbn [negb].
  rewrite slice_read, Hs by lia. cbn [bind]. rewrite bool_decide_true by done.
  rewrite (u32_read C 8 12 _ Hty) by (unfold NtLmChallenge; lia). cbn [bind].
  rewrite Z.eqb_refl, Hm. cbn [bind].
  rewrite (u32_read C 20 24 _ Hfl) by (first [lia | vm_compute; by split]). cbn [bind].
  change (Z.land defaultFlags defaultFlags) with defaultFlags.
  change (has defaultFlags NTLMSSP_REQUEST_TARGET) with true.
  change (has defaultFlags NTLMSSP_NEGOTIATE_TARGET_INFO) with true. cbn iota.
  destruct (read_field_placed "invalid target name format" C 12 56 name Pn) as (o1 & -> & _);
    [lia..|].
  cbn [bind].
  destruct (read_field_placed "invalid target info format" C 40 _ _ Pi) as (o2 & -> & _);
    [rewrite ?len_replicate; lia..|].
  cbn [bind]. rewrite EncodeStringToBytes_eq. cbn [bind]. by exists o2.
Qed.

(** The message of [Negotiate] is always this one. *)
Definition negotiate_msg : bytes := hex
  "4e544c4d5353500001000000150288e2000000000000000000000000000000000a0000000000000f".

Lemma client_Negotiate_eq c : client_Negotiate c = Ok (negotiate_msg, with_nmsg negotiate_msg c).
Proof. reflexivity. Qed.

Lemma Challenge_eq rnd s r :
  len (utf16le (targetName s)) < 2 ^ 16 -> rnd 0%nat = Ok r ->
  exists C, Challenge rnd negotiate_msg s =
      (Ok C, mkServer (targetName s) (accounts s) negotiate_msg C (s_session s)) /\
    challenge_msg C (utf16le (targetName s)).
Proof.
  intros Hn Hr. destruct (build_challenge_spec rnd (utf16le (targetName s)) r Hn Hr) as (C & HC & Hm).
  exists C. split; [|done]. unfold Challenge.
  assert (forall s', targetName s' = targetName s -> server_challenge rnd negotiate_msg s' = Ok C) as ->;
    [|done|done].
  intros s' E. unfold server_challenge. rewrite EncodeStringToBytes_eq, E.
  change (len negotiate_msg <? 32) with false.
  change (slice negotiate_msg 0 8) with (Ok signature).
  change (u32 negotiate_msg 8 12) with (Ok NtLmNegotiate).
  change (u32 negotiate_msg 12 16) with (Ok defaultFlags).
  change (Z.land defaultFlags defaultFlags) with defaultFlags. cbn [negb bind].
  by rewrite bool_decide_true.
Qed.

(** A client that knows a password of the server, from its first message to the
    server's acceptance. *)
Lemma Challenge_accepted rnd_s rnd_c now c s r r0 r1 :
  knows md4 s c -> has_credentials c = true -> client_fits c (replicate 4 Byte.x00) ->
  len (utf16le (targetName s)) < 2 ^ 16 ->
  rnd_s 0%nat = Ok r -> rnd_c 0%nat = Ok r0 -> rnd_c 1%nat = Ok r1 ->
  exists C s1, Challenge rnd_s negotiate_msg s = (Ok C, s1) /\
    exists amsg A sc ss,
      client_Authenticate ToUpper md4 rnd_c now C (with_nmsg negotiate_msg c) =
        Ok (amsg, with_session sc (with_nmsg negotiate_msg c)) /\
      server_Authenticate ToUpper md4 amsg s1 =
        Ok (mkServer (targetName s) (accounts s) negotiate_msg C (Some ss), A) /\
      peers sc ss /\ signs sc /\ s_user sc = User c /\ s_user ss = User c /\
      isClientSide sc = true /\ len amsg < 2 ^ 32.
Proof.
  intros Hk Hcr Hfit Hn Hr Hr0 Hr1.
  destruct (Challenge_eq rnd_s s r Hn Hr) as (C & -> & HC). eexists C, _. split; [done|].
  set (c1 := with_nmsg negotiate_msg c). set (s1 := mkServer _ _ _ _ _).
  destruct (read_challenge_msg c1 C (utf16le (targetName s)) eq_refl HC Hn) as [at_ Hrc].
  destruct (Authenticate_accepted rnd_c now c1 s1 C defaultFlags _ at_ _ [] r0 r1 Hrc)
    as (amsg & A & sc & ss & Hc & Hs & Hp & Hf & Hu & Hu' & Hside & Hal); try done.
  { apply not_elem_of_nil. }
  { destruct Hfit. by split. }
  exists amsg, A, sc, ss. repeat (split; [done|]). split; [|done].
  unfold signs. by rewrite Hf.
Qed.

(** The whole exchange: the three messages between a client and a server. *)
Definition logon_exchange (rnd_s rnd_c : nat -> res bytes) (now : Z) (c : Client) (s : Server) :
    res (Client * Server) :=
  let! (nmsg, c) := client_Negotiate c in
  let '(r, s) := Challenge rnd_s nmsg s in
  let! cmsg := r in
  let! (amsg, c) := client_Authenticate ToUpper md4 rnd_c now cmsg c in
  let! (s, _) := server_Authenticate ToUpper md4 amsg s in
  Ok (c, s).

(** C19: an NTLMv2 logon succeeds: a client that has the password (or its hash) of
    one of the server's accounts, and the server, exchange their three messages,
    whatever the challenges, the random key, the clock, the names of domain,
    workstation and target, and the hash functions the messages are computed
    with; the server accepts the response and the integrity code of the whole
    exchange, both end with the same keys and ciphers, the client's on the
    client's side, and both name the user. *)
Theorem logon_succeeds rnd_s rnd_c now c s r r0 r1 :
  knows md4 s c -> has_credentials c = true -> client_fits c (replicate 4 Byte.x00) ->
  len (utf16le (targetName s)) < 2 ^ 16 ->
  rnd_s 0%nat = Ok r -> rnd_c 0%nat = Ok r0 -> rnd_c 1%nat = Ok r1 ->
  exists c' s' sc ss,
    logon_exchange rnd_s rnd_c now c s = Ok (c', s') /\
    c_session c' = Some sc /\ s_session s' = Some ss /\
    peers sc ss /\ signs sc /\ isClientSide sc = true /\ s_user sc = User c /\ s_user ss = User c.
Proof.
  intros Hk Hcr Hfit Hn Hr Hr0 Hr1.
  destruct (Challenge_accepted rnd_s rnd_c now c s r r0 r1) as
    (C & s1 & Hch & amsg & A & sc & ss & Hc & Hs & Hp & Hsig & Hu & Hu' & Hside & _); try done.
  unfold logon_exchange. rewrite client_Negotiate_eq. cbn [bind]. rewrite Hch. cbn [bind].
  rewrite Hc. cbn [bind]. rewrite Hs. by do 4 eexists.
Qed.
End logon.

(** ** Examples *)

Definition example_rnd (k : nat) : res bytes := Ok (replicate 16 (byte_of (Z.of_nat k + 65))).
Definition example_client : Client :=
  mkClient (str "user") (str "password") None (str "WORKGROUP") (str "localhost")
    (str "cifs/server") [] None.
Definition example_server : Server := AddAccount (str "user") (str "password") (NewServer (str "server")).

Lemma example_fits : client_fits example_client (replicate 4 Byte.x00).
Proof. split; vm_compute; reflexivity. Qed.

Lemma logon_succeeds_witness :
  exists c' s' sc ss,
    logon_exchange id md4_sum example_rnd example_rnd 0 example_client example_server = Ok (c', s') /\
    c_session c' = Some sc /\ s_session s' = Some ss /\ peers sc ss.
Proof.
  destruct (logon_succeeds id md4_sum example_rnd example_rnd 0 example_client example_server
    (replicate 16 (byte_of 65)) (replicate 16 (byte_of 65)) (replicate 16 (byte_of 66)))
    as (c' & s' & sc & ss & E & Ec & Es & Hp & _).
  - exists (str "password"). split; [vm_compute; reflexivity|reflexivity].
  - reflexivity.
  - exact example_fits.
  - vm_compute. reflexivity.
  - reflexivity.
  - reflexivity.
  - reflexivity.
  - exists c', s', sc, ss. repeat (split; [assumption|]). assumption.
Defined.

(** A challenge with the given flags and target information, as any server might
    send it. *)
Definition challenge_with (flags : Z) (info : bytes) : bytes :=
  signature ++ le_put 4 NtLmChallenge ++ desc 0 56 ++ le_put 4 flags ++ str "01234567" ++
  replicate 8 Byte.x00 ++ desc (len info) 56 ++ version ++ info.
Definition answer_to (cmsg : bytes) : res Server :=
  let c := with_nmsg negotiate_msg example_client in
  let s := mkServer [] (accounts example_server) negotiate_msg cmsg None in
  let! (amsg, _) := client_Authenticate id md4_sum example_rnd 0 cmsg c in
  let! (s, _) := server_Authenticate id md4_sum amsg s in Ok s.

(** A server that announces flags of its own, without the bit for the integrity
    code, refuses the client: encoding the response sets the bit in the challenge
    the client holds, and the code covers that instead of what was sent. *)
Example flags_break_mic :
  answer_to (challenge_with defaultFlags (av_list [(MsvAvFlags, le_put 4 1); (MsvAvEOL, [])])) =
  Err (Errorf "login failure").
Proof. vm_compute. reflexivity. Qed.

(** Flags of fewer than four bytes, and a field whose end is computed past 2^32,
    make the client panic. *)
Example short_flags_panic :
  answer_to (challenge_with defaultFlags (av_list [(MsvAvFlags, le_put 2 1); (MsvAvEOL, [])])) = Panic.
Proof. vm_compute. reflexivity. Qed.
Example wrapping_field_panics :
  (let m := challenge_with defaultFlags (av_list [(MsvAvEOL, [])]) in
   let! m := copy_at m 12 20 (desc 2 0xFFFFFFFF) in answer_to m) = Panic.
Proof. vm_compute. reflexivity. Qed.

(** Without the version flag the server looks for the integrity code where the
    client has the version. *)
Example no_version_refused :
  answer_to (challenge_with (Z.land defaultFlags (Z.lnot NTLMSSP_NEGOTIATE_VERSION))
    (av_list [(MsvAvEOL, [])])) = Err (Errorf "login failure").
Proof. vm_compute. reflexivity. Qed.

(** A user the server does not know logs on with an empty password. *)
Example unknown_user_accepted :
  (let c := mkClient (str "nobody") [] None [] [] [] [] None in
   let! (_, s) := logon_exchange id md4_sum example_rnd example_rnd 0 c example_server in
   Ok (s_user <$> s_session s)) = Ok (Some (str "nobody")).
Proof. vm_compute. reflexivity. Qed.

(** Sealing does not work in either direction: one end encrypts with the client's
    cipher, the other decrypts with the server's. *)
Definition sealing_flags : Z := Z.lor defaultFlags NTLMSSP_NEGOTIATE_SEAL.
Definition sealed_between (side : bool) : res bytes :=
  let! a := new_session side [] sealing_flags zero16 ∅ in
  let! b := new_session (negb side) [] sealing_flags zero16 ∅ in
  let! (c, _, _) := Seal a [] [] (str "hello") 0 in
  let! (m, _, _) := Unseal b [] [] c 0 in Ok m.
Example sealed_not_unsealed side : sealed_between side = Err (Errorf "signature mismatch").
Proof. destruct side; vm_compute; reflexivity. Qed.
