(* ===== verification/Spnego.v ===== *)
(** * SPNEGO tokens ([internal/spnego/spnego.go])

    The tokens NTLM messages travel in.  Encoding goes through [asn1.Marshal] of
    the standard library, modelled on the types the code marshals; decoding
    through [ber.UnmarshalWithParams] of [github.com/geoffgarside/ber], a
    parameter.  A slice or byte string is an [option]: [None] is nil, which an
    optional field leaves out. *)

From S2P Require Export Buffers Crypto.

(** ** DER ([encoding/asn1])

    [asn1.Marshal] fails on object identifiers that cannot be encoded and on
    nothing else the code gives it. *)

Fixpoint base256 (fuel : nat) (n : Z) (acc : bytes) : bytes :=
  match fuel with
  | O => acc
  | S fuel => if n <? 256 then byte_of n :: acc else base256 fuel (n / 256) (byte_of n :: acc)
  end.
Definition der_len (n : Z) : bytes :=
  if n <? 128 then [byte_of n]
  else let b := base256 8 n [] in byte_of (Z.lor 0x80 (len b)) :: b.
Definition der (tag : Z) (content : bytes) : bytes := byte_of tag :: der_len (len content) ++ content.

Fixpoint base128 (fuel : nat) (n : Z) (acc : bytes) : bytes :=
  match fuel with
  | O => acc
  | S fuel =>
    if n <? 128 then acc
    else base128 fuel (n / 128) (byte_of (Z.lor 0x80 ((n / 128) mod 128)) :: acc)
  end.
(** An arc: groups of seven bits, all but the last marked. *)
Definition der_arc (n : Z) : bytes := base128 10 n [] ++ [byte_of (n mod 128)].

Definition oid : Type := list Z.
Definition der_oid (o : oid) : res bytes :=
  match o with
  | a :: b :: rest =>
    if (2 <? a) || ((a <? 2) && (40 <=? b)) then Err (Errorf "invalid object identifier")
    else Ok (der 0x06 (der_arc (a * 40 + b) ++ (rest ≫= der_arc)))
  | _ => Err (Errorf "invalid object identifier")
  end.

Definition der_oids (os : list oid) : res bytes :=
  foldr (fun o k => let! x := der_oid o in let! r := k in Ok (x ++ r)) (Ok []) os.

(** The bytes of an integer, most significant first. *)
Fixpoint int_bytes (fuel : nat) (n : Z) (acc : bytes) : bytes :=
  match fuel with
  | O => acc
  | S fuel => if (-128 <=? n) && (n <=? 127) then byte_of n :: acc
              else int_bytes fuel (Z.shiftr n 8) (byte_of n :: acc)
  end.

(** A field [explicit,optional,tag:t], and what it holds. *)
Definition der_explicit (t : Z) (field : option bytes) : bytes :=
  match field with Some f => der (Z.lor 0xa0 t) f | None => [] end.
Definition der_octets (b : bytes) : bytes := der 0x04 b.
(** An enumerated value, left out when it is zero. *)
Definition der_enum (n : Z) : option bytes :=
  if n =? 0 then None else Some (der 0x0a (int_bytes 8 n [])).

(** [Marshal] of an optional list of identifiers. *)
Definition oids_field (os : option (list oid)) : res (option bytes) :=
  match os with None => Ok None | Some os => let! b := der_oids os in Ok (Some (der 0x30 b)) end.
Definition oid_field (o : option oid) : res (option bytes) :=
  match o with None => Ok None | Some o => let! b := der_oid o in Ok (Some b) end.

(** ** Tokens *)

Definition SpnegoOid : oid := [1; 3; 6; 1; 5; 5; 2].
Definition MsKerberosOid : oid := [1; 2; 840; 48018; 1; 2; 2].
Definition KerberosOid : oid := [1; 2; 840; 113554; 1; 2; 2].
Definition NlmpOid : oid := [1; 3; 6; 1; 4; 1; 311; 2; 2; 10].

Record NegTokenInit := mkNegTokenInit {
  ni_MechTypes : option (list oid);
  ni_MechToken : option bytes;
  ni_MechListMIC : option bytes;
}.
Record NegTokenInit2 := mkNegTokenInit2 {
  ni2_MechTypes : option (list oid);
  ni2_MechToken : option bytes;
  ni2_NegHints : bytes;
  ni2_MechListMIC : option bytes;
}.
Record NegTokenResp := mkNegTokenResp {
  nr_NegState : Z;
  nr_SupportedMech : option oid;
  nr_ResponseToken : option bytes;
  nr_MechListMIC : option bytes;
}.

(** The hint, tag included. *)
Definition negHints : bytes :=
  der 0xa3 (der 0x30 (der 0xa0 (der 0x1b (str "not_defined_in_RFC4178@please_ignore")))).

Definition marshal_Init (t : NegTokenInit) : res bytes :=
  let! mechs := oids_field (ni_MechTypes t) in
  Ok (der 0x30 (der_explicit 0 mechs ++ der_explicit 2 (der_octets <$> ni_MechToken t) ++
                der_explicit 3 (der_octets <$> ni_MechListMIC t))).
Definition marshal_Init2 (t : NegTokenInit2) : res bytes :=
  let! mechs := oids_field (ni2_MechTypes t) in
  Ok (der 0x30 (der_explicit 0 mechs ++ der_explicit 2 (der_octets <$> ni2_MechToken t) ++
                ni2_NegHints t ++ der_explicit 4 (der_octets <$> ni2_MechListMIC t))).
Definition marshal_Resp (t : NegTokenResp) : res bytes :=
  let! mech := oid_field (nr_SupportedMech t) in
  Ok (der 0x30 (der_explicit 0 (der_enum (nr_NegState t)) ++ der_explicit 1 mech ++
                der_explicit 2 (der_octets <$> nr_ResponseToken t) ++
                der_explicit 3 (der_octets <$> nr_MechListMIC t))).

(** [asn1.Marshal] of an [initialContextToken] with one token in the list of tag
    [t].  The tags of its fields say [explict], which [asn1] ignores: the list is
    tagged implicitly, and as it has one element the bytes are those of an
    explicit tag on that element. *)
Definition marshal_context (mech : option oid) (t : Z) (token : bytes) : res bytes :=
  let! m := oid_field mech in
  Ok (der 0x30 (default [] m ++ der (Z.lor 0xa0 t) token)).

(** [bs[0] = 0x60] *)
Definition set_application (bs : bytes) : res bytes := put8 bs 0 0x60.

Definition EncodeNegTokenInit (types : list oid) (token : option bytes) : res bytes :=
  let! t := marshal_Init (mkNegTokenInit (Some types) token None) in
  let! bs := marshal_context (Some SpnegoOid) 0 t in
  set_application bs.

Definition EncodeNegTokenInit2 (types : list oid) : res bytes :=
  let! t := marshal_Init2 (mkNegTokenInit2 (Some types) None negHints None) in
  let! bs := marshal_context (Some SpnegoOid) 0 t in
  set_application bs.

Definition EncodeNegTokenResp (state : Z) (typ : option oid) (token mechListMIC : option bytes) :
    res bytes :=
  let! t := marshal_Resp (mkNegTokenResp state typ token mechListMIC) in
  let! bs := marshal_context None 1 t in
  let! n := idx8 bs 1 in
  let skip := if n <? 128 then 2 else 1 + (n - 128 + 1) in
  slice bs skip (len bs).

(** [ber.UnmarshalWithParams], into each of the types the code gives it. *)
Section ber.
Context (unmarshal_context : bytes -> res (list NegTokenInit))
  (unmarshal_context2 : bytes -> res (list NegTokenInit2))
  (unmarshal_resp : bytes -> res NegTokenResp).

Definition DecodeNegTokenInit (bs : bytes) : res NegTokenInit :=
  let! init := unmarshal_context bs in index init 0.
Definition DecodeNegTokenInit2 (bs : bytes) : res NegTokenInit2 :=
  let! init := unmarshal_context2 bs in index init 0.
Definition DecodeNegTokenResp (bs : bytes) : res NegTokenResp := unmarshal_resp bs.
End ber.

(** ** The vectors of [spnego_test.go] *)

Example test_EncodeNegTokenInit :
  EncodeNegTokenInit [NlmpOid] (Some (hex "4e544c4d5353500001000000978208e2000000000000000000000000000000000a005a290000000f")) =
  Ok (hex "604806062b0601050502a03e303ca00e300c060a2b06010401823702020aa22a04284e544c4d5353500001000000978208e2000000000000000000000000000000000a005a290000000f").
Proof. vm_compute. reflexivity. Qed.

Example test_EncodeNegTokenResp :
  EncodeNegTokenResp 1 None
    (Some (hex "4e544c4d535350000300000018001800ac0000000e010e01c4000000200020005800000026002600780000000e000e009e00000010001000d2010000158288620a005a290000000f3e3d42661105d1439dee00f836cad4fa4d006900630072006f0073006f00660074004100630063006f0075006e0074006800690072006f00650069006b006f0040006f00750074006c006f006f006b002e006a00700048004f004d0045002d0050004300000000000000000000000000000000000000000000000000bf302e94f761de33288f11866a37b29c01010000000000000076b91516c2d1012753c10d333a7b100000000001001000460041004b004500520055004e00450002001000460041004b004500520055004e00450003001c00660061006b006500720075006e0065002e006c006f00630061006c0004000a006c006f00630061006c00070008000076b91516c2d10106000400020000000800300030000000000000000100000000200000052b42bd2cfdf105bc038de93d80375c47f43366bb9376579cf2e7ffcfd06aaf0a001000000000000000000000000000000000000900200063006900660073002f003100390032002e003100360038002e0030002e003700000000000000000000000000849ee9fcd70ea92c0c4f60e0dfaaf6d2"))
    (Some (hex "0100000069e24981b5dac33f00000000")) =
  Ok (hex "a182020730820203a0030a0101a28201e6048201e24e544c4d535350000300000018001800ac0000000e010e01c4000000200020005800000026002600780000000e000e009e00000010001000d2010000158288620a005a290000000f3e3d42661105d1439dee00f836cad4fa4d006900630072006f0073006f00660074004100630063006f0075006e0074006800690072006f00650069006b006f0040006f00750074006c006f006f006b002e006a00700048004f004d0045002d0050004300000000000000000000000000000000000000000000000000bf302e94f761de33288f11866a37b29c01010000000000000076b91516c2d1012753c10d333a7b100000000001001000460041004b004500520055004e00450002001000460041004b004500520055004e00450003001c00660061006b006500720075006e0065002e006c006f00630061006c0004000a006c006f00630061006c00070008000076b91516c2d10106000400020000000800300030000000000000000100000000200000052b42bd2cfdf105bc038de93d80375c47f43366bb9376579cf2e7ffcfd06aaf0a001000000000000000000000000000000000000900200063006900660073002f003100390032002e003100360038002e0030002e003700000000000000000000000000849ee9fcd70ea92c0c4f60e0dfaaf6d2a31204100100000069e24981b5dac33f00000000").
Proof. vm_compute. reflexivity. Qed.

(** ** Reading DER

    A reader to compare with: a tag, a length in either form, the contents and
    what follows. *)

Definition be_get (b : bytes) : Z := foldl (fun n x => 256 * n + u8 x) 0 b.

Definition read_der_len (b : bytes) : option (Z * bytes) :=
  match b with
  | [] => None
  | x :: t => if u8 x <? 128 then Some (u8 x, t) else
              let k := Z.to_nat (u8 x - 128) in
              if (length t <? k)%nat then None else Some (be_get (take k t), drop k t)
  end.
Definition read_der (b : bytes) : option (Z * bytes * bytes) :=
  match b with
  | [] => None
  | tag :: t =>
    match read_der_len t with
    | Some (n, t) => if len t <? n then None
                     else Some (u8 tag, take (Z.to_nat n) t, drop (Z.to_nat n) t)
    | None => None
    end
  end.

Lemma be_get_app acc b : foldl (fun n x => 256 * n + u8 x) acc b = acc * 256 ^ len b + be_get b.
Proof.
  revert acc. unfold be_get. induction b as [|x b IH]; intros acc; cbn [foldl].
  { change (len []) with 0. lia. }
  rewrite IH, (IH (256 * 0 + u8 x)), len_cons, Z.pow_add_r by (pose proof (len_nonneg b); lia). lia.
Qed.

Lemma be_get_cons x b : be_get (x :: b) = u8 x * 256 ^ len b + be_get b.
Proof. unfold be_get at 1. cbn [foldl]. by rewrite be_get_app. Qed.

Lemma base256_spec fuel n acc :
  0 <= n < 256 ^ Z.of_nat fuel ->
  be_get (base256 fuel n acc) = n * 256 ^ len acc + be_get acc /\
  len (base256 fuel n acc) <= Z.of_nat fuel + len acc.
Proof.
  revert n acc. induction fuel as [|fuel IH]; intros n acc Hn.
  { replace n with 0 by (cbn in Hn; lia). cbn [base256]. split; lia. }
  cbn [base256]. destruct (Z.ltb_spec n 256).
  - rewrite be_get_cons, u8_byte_of, len_cons, Z.mod_small by lia. split; lia.
  - assert (0 <= n / 256 < 256 ^ Z.of_nat fuel) as Hd.
    { rewrite Nat2Z.inj_succ, Z.pow_succ_r in Hn by lia.
      split; [apply Z.div_pos; lia|apply Z.div_lt_upper_bound; lia]. }
    destruct (IH (n / 256) (byte_of n :: acc) Hd) as [-> Hl].
    rewrite be_get_cons, u8_byte_of, len_cons, Z.pow_add_r in * by (pose proof (len_nonneg acc); lia).
    pose proof (Z.div_mod n 256 ltac:(lia)). split; [nia|lia].
Qed.

Lemma read_der_len_put n r :
  0 <= n < 2 ^ 63 -> read_der_len (der_len n ++ r) = Some (n, r).
Proof.
  intros Hn. unfold der_len. destruct (Z.ltb_spec n 128).
  { cbn [app read_der_len]. by rewrite u8_byte_of, Z.mod_small, (proj2 (Z.ltb_lt _ _)) by lia. }
  destruct (base256_spec 8 n []) as [Hb Hl]; [lia|].
  change (len []) with 0 in Hb, Hl. change (be_get []) with 0 in Hb.
  generalize dependent (base256 8 n []). intros b Hb Hl. pose proof (len_nonneg b).
  assert (Z.lor 0x80 (len b) = 128 + len b) as ->.
  { change 0x80 with (1 * 2 ^ 7). apply lor_mul_pow2; lia. }
  cbn [app read_der_len]. rewrite u8_byte_of, Z.mod_small, (proj2 (Z.ltb_ge _ _)) by lia.
  replace (Z.to_nat (128 + len b - 128)) with (length b) by (unfold len; lia).
  rewrite (proj2 (Nat.ltb_ge _ _)) by (rewrite length_app; lia).
  rewrite take_app_length, drop_app_length, Hb. by rewrite Z.pow_0_r, Z.mul_1_r, Z.add_0_r.
Qed.

Lemma read_der_put t c r :
  0 <= t < 256 -> len c < 2 ^ 63 -> read_der (der t c ++ r) = Some (t, c, r).
Proof.
  intros Ht Hc. pose proof (len_nonneg c). unfold der. cbn [app read_der].
  rewrite <- app_assoc, read_der_len_put by lia.
  rewrite (proj2 (Z.ltb_ge _ _)) by (autorewrite with len; pose proof (len_nonneg r); lia).
  rewrite u8_byte_of, Z.mod_small by lia.
  replace (Z.to_nat (len c)) with (length c) by (unfold len; lia).
  by rewrite take_app_length, drop_app_length.
Qed.

(** ** Reading identifiers *)

Fixpoint read_arcs (n : Z) (b : bytes) : list Z :=
  match b with
  | [] => []
  | x :: t => let n := n * 128 + u8 x mod 128 in
              if u8 x <? 128 then n :: read_arcs 0 t else read_arcs n t
  end.
Definition read_oid (b : bytes) : option oid :=
  match read_arcs 0 b with
  | [] => None
  | f :: rest => Some (if f <? 40 then 0 :: f :: rest else if f <? 80 then 1 :: (f - 40) :: rest
                       else 2 :: (f - 80) :: rest)
  end.

(** An identifier that can be encoded. *)
Definition oid_ok (o : oid) : Prop :=
  match o with
  | a :: b :: rest => 0 <= a <= 2 /\ 0 <= b < 2 ^ 62 /\ (a < 2 -> b < 40) /\
                      Forall (fun n => 0 <= n < 2 ^ 63) rest
  | _ => False
  end.
#[export] Instance oid_ok_dec o : Decision (oid_ok o).
Proof. destruct o as [|a [|b rest]]; apply _. Defined.

Lemma read_base128 fuel n acc :
  0 <= n < 128 ^ Z.of_nat (S fuel) ->
  read_arcs 0 (base128 fuel n acc) = read_arcs (n / 128) acc.
Proof.
  revert n acc. induction fuel as [|fuel IH]; intros n acc Hn.
  { cbn in Hn. by rewrite Z.div_small. }
  cbn [base128]. destruct (Z.ltb_spec n 128); [by rewrite Z.div_small by lia|].
  rewrite Nat2Z.inj_succ, Z.pow_succ_r in Hn by lia.
  rewrite IH by (split; [apply Z.div_pos; lia|apply Z.div_lt_upper_bound; lia]).
  set (m := n / 128). assert (0 <= m mod 128 < 128) as Hm by (apply Z.mod_pos_bound; lia).
  cbn [read_arcs].
  assert (Z.lor 0x80 (m mod 128) = 128 + m mod 128) as -> by (apply (lor_mul_pow2 1 _ 7); lia).
  rewrite u8_byte_of, (Z.mod_small _ 256), (proj2 (Z.ltb_ge _ _)) by lia. f_equal.
  replace ((128 + m mod 128) mod 128) with (m mod 128)
    by (Z.to_euclidean_division_equations; lia).
  pose proof (Z.div_mod m 128 ltac:(lia)). lia.
Qed.

Lemma base128_app fuel n acc t : base128 fuel n acc ++ t = base128 fuel n (acc ++ t).
Proof.
  revert n acc. induction fuel as [|fuel IH]; intros n acc; [done|]. cbn [base128].
  destruct (n <? 128); [done|]. by rewrite IH.
Qed.

Lemma read_arcs_put n t : 0 <= n < 2 ^ 64 -> read_arcs 0 (der_arc n ++ t) = n :: read_arcs 0 t.
Proof.
  intros Hn. unfold der_arc. rewrite <- app_assoc, base128_app.
  assert (2 ^ 64 <= 128 ^ Z.of_nat 11) by (vm_compute; discriminate).
  rewrite read_base128 by lia.
  cbn [app read_arcs]. pose proof (Z.mod_pos_bound n 128 eq_refl).
  rewrite u8_byte_of, (Z.mod_small (n mod 128) 256), Z.mod_mod, (proj2 (Z.ltb_lt _ _)) by lia.
  f_equal. pose proof (Z.div_mod n 128 ltac:(lia)). lia.
Qed.

Lemma read_arcs_rest rest : Forall (fun n => 0 <= n < 2 ^ 63) rest -> read_arcs 0 (rest ≫= der_arc) = rest.
Proof.
  induction 1 as [|n rest Hn _ IH]; [done|]. cbn [mbind list_bind].
  rewrite read_arcs_put by lia. by rewrite IH.
Qed.

Lemma der_oid_read o :
  oid_ok o -> exists b, der_oid o = Ok (der 0x06 b) /\ read_oid b = Some o.
Proof.
  destruct o as [|a [|b rest]]; [done|done|]. intros (Ha & Hb & Hab & Hr). unfold der_oid.
  rewrite (proj2 (Z.ltb_ge 2 a)) by lia. cbn [orb].
  assert ((a <? 2) && (40 <=? b) = false) as ->.
  { destruct (Z.ltb_spec a 2); [|done]. apply Z.leb_gt. lia. }
  eexists. split; [done|]. unfold read_oid. rewrite read_arcs_put by lia.
  rewrite read_arcs_rest by done.
  assert (a = 0 \/ a = 1 \/ a = 2) as [->|[->| ->]] by lia.
  - rewrite (proj2 (Z.ltb_lt _ _)) by lia. done.
  - rewrite (proj2 (Z.ltb_ge _ _)), (proj2 (Z.ltb_lt _ _)) by lia. do 3 f_equal. lia.
  - rewrite !(proj2 (Z.ltb_ge _ _)) by lia. do 3 f_equal. lia.
Qed.

(** ** Reading tokens *)

(** A sequence of tagged fields. *)
Fixpoint read_fields (fuel : nat) (b : bytes) : option (list (Z * bytes)) :=
  match fuel with
  | O => None
  | S fuel =>
    match b with
    | [] => Some []
    | _ => match read_der b with
           | Some (t, c, r) => match read_fields fuel r with
                               | Some fs => Some ((t, c) :: fs) | None => None end
           | None => None
           end
    end
  end.

(** What an explicit field of some tag holds, when the field is there. *)
Fixpoint find_tag (t : Z) (fs : list (Z * bytes)) : option bytes :=
  match fs with
  | [] => None
  | (t', c) :: fs => if t' =? t then Some c else find_tag t fs
  end.
Definition field (t : Z) (fs : list (Z * bytes)) : option (Z * bytes) :=
  match find_tag (Z.lor 0xa0 t) fs with
  | Some c => match read_der c with Some (t', v, []) => Some (t', v) | _ => None end
  | None => None
  end.
Definition octets (t : Z) (fs : list (Z * bytes)) : option bytes :=
  match field t fs with Some (0x04, v) => Some v | _ => None end.

Definition read_resp (b : bytes) : option NegTokenResp :=
  match read_der b with
  | Some (0xa1, c, []) =>
    match read_der c with
    | Some (0x30, c, []) =>
      match read_fields (S (length c)) c with
      | Some fs =>
        Some (mkNegTokenResp
          (match field 0 fs with Some (0x0a, v) => be_get v | _ => 0 end)
          (match field 1 fs with Some (0x06, v) => read_oid v | _ => None end)
          (octets 2 fs) (octets 3 fs))
      | None => None
      end
    | _ => None
    end
  | _ => None
  end.

(** The responses of [spnego_test.go], one with lengths in the long form. *)
Example test_DecodeNegTokenResp_empty : read_resp (hex "a1073005a0030a0100") =
  Some (mkNegTokenResp 0 None None None).
Proof. vm_compute. reflexivity. Qed.
Example test_DecodeNegTokenResp_ber : read_resp (hex "a182000b30820007a08200030a0100") =
  Some (mkNegTokenResp 0 None None None).
Proof. vm_compute. reflexivity. Qed.

(** The fields of an encoded sequence. *)
Definition explicit_fields (fs : list (Z * option bytes)) : bytes :=
  fs ≫= (fun f => der_explicit f.1 f.2).
Definition present (fs : list (Z * option bytes)) : list (Z * bytes) :=
  fs ≫= (fun f => match f.2 with Some c => [(Z.lor 0xa0 f.1, c)] | None => [] end).

Lemma len_der t c : len c < len (der t c).
Proof.
  unfold der. rewrite len_cons, len_app. pose proof (len_nonneg (der_len (len c))). lia.
Qed.

Lemma read_fields_put fuel fs :
  Forall (fun f => 0 <= f.1 < 32 /\ match f.2 with Some c => len c < 2 ^ 63 | None => True end) fs ->
  (length (explicit_fields fs) < fuel)%nat ->
  read_fields fuel (explicit_fields fs) = Some (present fs).
Proof.
  intros H. revert fuel. induction H as [|[t o] fs [Ht Ho] _ IH]; intros fuel Hf.
  { destruct fuel; [lia|done]. }
  unfold explicit_fields, present in *. cbn [mbind list_bind fst snd] in *.
  destruct o as [c|]; cbn [der_explicit app] in *; [|by apply IH].
  destruct fuel as [|fuel]; [lia|]. cbn [read_fields].
  assert (0 <= Z.lor 0xa0 t < 256) as Ht'.
  { change 0xa0 with (5 * 2 ^ 5). rewrite lor_mul_pow2 by lia. lia. }
  destruct (der (Z.lor 0xa0 t) c ++ _) as [|x r] eqn:E; [by unfold der in E|].
  rewrite <- E, read_der_put by done. rewrite <- E in Hf. rewrite IH; [done|].
  rewrite length_app in Hf. unfold der in Hf. cbn [length] in Hf. lia.
Qed.

Lemma len_der_len n : 0 <= n < 2 ^ 63 -> 1 <= len (der_len n) <= 9.
Proof.
  intros Hn. unfold der_len. destruct (n <? 128); [done|].
  destruct (base256_spec 8 n []) as [_ Hl]; [lia|]. rewrite len_cons.
  pose proof (len_nonneg (base256 8 n [])). change (len []) with 0 in Hl. lia.
Qed.

Lemma len_der_le t c : len c < 2 ^ 63 -> len (der t c) <= len c + 10.
Proof.
  intros H. pose proof (len_nonneg c). pose proof (len_der_len (len c) ltac:(lia)).
  unfold der. autorewrite with len. lia.
Qed.

(** Dropping the header of a sequence leaves its contents. *)
Lemma skip_header t c :
  len c < 2 ^ 63 ->
  (let! n := idx8 (der t c) 1 in
   let skip := if n <? 128 then 2 else 1 + (n - 128 + 1) in
   slice (der t c) skip (len (der t c))) = Ok c.
Proof.
  intros Hc. pose proof (len_nonneg c). unfold der, der_len.
  destruct (Z.ltb_spec (len c) 128) as [Hs|Hs].
  - unfold idx8. change (index _ 1) with (Ok (byte_of (len c))). cbn [bind].
    rewrite u8_byte_of, Z.mod_small, (proj2 (Z.ltb_lt _ _)) by lia.
    apply (slice_suffix [byte_of t; byte_of (len c)]); autorewrite with len; lia.
  - destruct (base256_spec 8 (len c) []) as [_ Hl]; [lia|]. change (len []) with 0 in Hl.
    set (b := base256 8 (len c) []) in *. pose proof (len_nonneg b).
    assert (Z.lor 0x80 (len b) = 128 + len b) as -> by (apply (lor_mul_pow2 1 _ 7); lia).
    unfold idx8. change (index _ 1) with (Ok (byte_of (128 + len b))). cbn [bind].
    rewrite u8_byte_of, Z.mod_small, (proj2 (Z.ltb_ge _ _)) by lia.
    apply (slice_suffix (byte_of t :: byte_of (128 + len b) :: b)); autorewrite with len; lia.
Qed.

(** The fields of a response. *)
Definition resp_fields (state : Z) (mech token mic : option bytes) : list (Z * option bytes) :=
  [(0, der_enum state); (1, mech); (2, der_octets <$> token); (3, der_octets <$> mic)].

Lemma der_enum_small state : 0 < state <= 127 -> der_enum state = Some (der 0x0a [byte_of state]).
Proof.
  intros H. unfold der_enum. rewrite (proj2 (Z.eqb_neq _ _)) by lia. cbn [int_bytes].
  by rewrite (proj2 (Z.leb_le _ _)), (proj2 (Z.leb_le _ _)) by lia.
Qed.

Lemma read_octets c : len c < 2 ^ 63 -> read_der (der_octets c) = Some (0x04, c, []).
Proof. intros H. rewrite <- (app_nil_r (der_octets c)). by apply read_der_put. Qed.

(** What the fields of a response are read as. *)
Lemma present_find o0 o1 o2 o3 :
  let fs := present [(0, o0); (1, o1); (2, o2); (3, o3)] in
  find_tag 0xa0 fs = o0 /\ find_tag 0xa1 fs = o1 /\ find_tag 0xa2 fs = o2 /\ find_tag 0xa3 fs = o3.
Proof. by destruct o0, o1, o2, o3. Qed.

(** An optional identifier that can be encoded, and its encoding. *)
Lemma oid_field_read o :
  (forall i, o = Some i -> oid_ok i) ->
  exists m, oid_field o = Ok m /\
    match m, o with
    | None, None => True
    | Some f, Some i => exists b, f = der 0x06 b /\ read_oid b = Some i
    | _, _ => False
    end.
Proof.
  intros H. destruct o as [i|]; [|by exists None]. cbn [oid_field].
  destruct (der_oid_read i (H i eq_refl)) as (b & -> & Hb). cbn [bind]. eexists. split; [done|].
  by exists b.
Qed.

Lemma resp_fields_read state mech o token mic :
  0 <= state <= 127 ->
  match mech, o with
  | None, None => True
  | Some f, Some o => exists b, f = der 0x06 b /\ read_oid b = Some o
  | _, _ => False
  end ->
  len (default [] mech) < 2 ^ 60 -> len (default [] token) < 2 ^ 60 -> len (default [] mic) < 2 ^ 60 ->
  let fs := present (resp_fields state mech token mic) in
  match field 0 fs with Some (0x0a, v) => be_get v | _ => 0 end = state /\
  match field 1 fs with Some (0x06, v) => read_oid v | _ => None end = o /\
  octets 2 fs = token /\ octets 3 fs = mic.
Proof.
  intros Hst Hm Hml Ht Hmic fs. unfold octets, field.
  pose proof (present_find (der_enum state) mech (der_octets <$> token) (der_octets <$> mic)) as F.
  change (present _) with fs in F. destruct F as (F0 & F1 & F2 & F3).
  change (Z.lor 0xa0 0) with 0xa0. change (Z.lor 0xa0 1) with 0xa1.
  change (Z.lor 0xa0 2) with 0xa2. change (Z.lor 0xa0 3) with 0xa3. rewrite F0, F1, F2, F3.
  split; [|split; [|split]].
  - destruct (Z.eqb_spec state 0) as [->|]; [done|]. rewrite der_enum_small by lia.
    rewrite <- (app_nil_r (der _ _)), read_der_put by done.
    rewrite be_get_cons, u8_byte_of, Z.mod_small by lia. change (be_get []) with 0.
    change (len []) with 0. lia.
  - destruct mech as [f|], o as [i|]; try done. destruct Hm as (b & -> & Hb).
    change (len (der 0x06 b) < 2 ^ 60) in Hml. pose proof (len_der 0x06 b).
    rewrite <- (app_nil_r (der _ _)), read_der_put by lia. done.
  - destruct token as [c|]; [|done]. change (len c < 2 ^ 60) in Ht. cbn [fmap option_fmap option_map].
    by rewrite read_octets by lia.
  - destruct mic as [c|]; [|done]. change (len c < 2 ^ 60) in Hmic. cbn [fmap option_fmap option_map].
    by rewrite read_octets by lia.
Qed.

(** ** Lengths *)

Lemma len_base128 fuel n acc : len (base128 fuel n acc) <= Z.of_nat fuel + len acc.
Proof.
  revert n acc. induction fuel as [|fuel IH]; intros n acc; cbn [base128]; [lia|].
  destruct (n <? 128); [lia|]. etrans; [apply IH|]. rewrite len_cons. lia.
Qed.

Lemma len_der_arcs ns : len (ns ≫= der_arc) <= 11 * len ns.
Proof.
  induction ns as [|n ns IH]; [done|]. cbn [mbind list_bind]. unfold der_arc at 1.
  pose proof (len_base128 10 n []). change (len (@nil byte)) with 0 in *.
  autorewrite with len in *. change (Z.of_nat 10) with 10 in *. lia.
Qed.

Lemma len_der_oid i b : der_oid i = Ok b -> len i < 2 ^ 32 -> len b <= 11 * len i + 10.
Proof.
  intros H Hi. destruct i as [|a0 [|a1 rest]]; [done|done|]. unfold der_oid in H.
  destruct (_ || _); [done|]. injection H as <-. rewrite !len_cons in *.
  pose proof (len_der_arcs rest). pose proof (len_der_arcs [a0 * 40 + a1]) as Ha.
  cbn [mbind list_bind] in Ha. rewrite app_nil_r in Ha. change (len [_]) with 1 in Ha.
  pose proof (len_nonneg rest).
  etrans; [apply len_der_le; rewrite len_app; lia|]. rewrite len_app. lia.
Qed.

Lemma len_explicit t o : len (default [] o) < 2 ^ 62 -> len (der_explicit t o) <= len (default [] o) + 10.
Proof.
  destruct o as [c|]; [|done]. change (default [] (Some c)) with c. intros. apply len_der_le. lia.
Qed.

Lemma len_octets o : len (default [] o) < 2 ^ 60 ->
  len (default [] (der_octets <$> o)) <= len (default [] o) + 10.
Proof.
  destruct o as [c|]; [|done]. change (default [] (Some c)) with c. intros.
  change (default [] _) with (der_octets c). apply len_der_le. lia.
Qed.

Lemma len_der_enum state : 0 <= state <= 127 -> len (default [] (der_enum state)) <= 3.
Proof.
  intros H. destruct (Z.eqb_spec state 0) as [->|]; [done|]. by rewrite der_enum_small by lia.
Qed.

(** An optional identifier that can be encoded, of less than 2^32 arcs. *)
Definition oid_fits (o : option oid) : Prop :=
  match o with None => True | Some i => oid_ok i /\ len i < 2 ^ 32 end.
#[export] Instance oid_fits_dec o : Decision (oid_fits o).
Proof. destruct o; apply _. Defined.

Lemma len_oid_field o m : oid_fits o -> oid_field o = Ok m -> len (default [] m) <= 2 ^ 36.
Proof.
  intros Ho H. destruct o as [i|]; cbn [oid_field] in H; [|by injection H as <-].
  destruct Ho as [_ Hi]. destruct (der_oid i) as [b| |] eqn:E; try done. injection H as <-.
  change (len b <= 2 ^ 36). pose proof (len_der_oid i b E Hi). lia.
Qed.

(** A response is read as what was encoded. *)
Theorem EncodeNegTokenResp_read state typ token mic :
  0 <= state <= 127 -> oid_fits typ ->
  len (default [] token) < 2 ^ 60 -> len (default [] mic) < 2 ^ 60 ->
  exists bs, EncodeNegTokenResp state typ token mic = Ok bs /\
    read_resp bs = Some (mkNegTokenResp state typ token mic).
Proof.
  intros Hst Ho Ht Hm. unfold EncodeNegTokenResp, marshal_Resp.
  cbn [nr_SupportedMech nr_NegState nr_ResponseToken nr_MechListMIC].
  destruct (oid_field_read typ) as (mech & E & Hmo); [by intros i ->; destruct Ho|].
  rewrite E. cbn [bind]. pose proof (len_oid_field _ _ Ho E) as Hol.
  assert (der_explicit 0 (der_enum state) ++ der_explicit 1 mech ++
    der_explicit 2 (der_octets <$> token) ++ der_explicit 3 (der_octets <$> mic) =
    explicit_fields (resp_fields state mech token mic)) as Ef.
  { unfold explicit_fields, resp_fields. cbn [mbind list_bind fst snd]. by rewrite app_nil_r. }
  pose proof (len_octets token Ht). pose proof (len_octets mic Hm). pose proof (len_der_enum state Hst).
  assert (len (explicit_fields (resp_fields state mech token mic)) < 2 ^ 62) as Hl.
  { pose proof (len_explicit 0 (der_enum state)). pose proof (len_explicit 1 mech).
    pose proof (len_explicit 2 (der_octets <$> token)). pose proof (len_explicit 3 (der_octets <$> mic)).
    rewrite <- Ef, !len_app. lia. }
  rewrite Ef. set (fs := resp_fields _ _ _ _) in *.
  assert (Forall (fun f => 0 <= f.1 < 32 /\
    match f.2 with Some c => len c < 2 ^ 63 | None => True end) fs) as Hfs.
  { assert (forall o, len (default [] o) < 2 ^ 62 ->
      match o : option bytes with Some c => len c < 2 ^ 63 | None => True end) as Hd.
    { intros [c|] Hc; [|done]. change (len c < 2 ^ 62) in Hc. lia. }
    repeat (apply Forall_cons_2 || apply Forall_nil_2); (split; [cbn; lia|apply Hd; cbn [snd]; lia]). }
  pose proof (len_der_le 0x30 (explicit_fields fs) ltac:(lia)).
  unfold marshal_context. cbn [oid_field bind default from_option app].
  change (default [] None ++ ?x) with x.
  rewrite skip_header.
  2: { pose proof (len_der_le (Z.lor 0xa0 1) (der 0x30 (explicit_fields fs)) ltac:(lia)). lia. }
  eexists. split; [done|]. unfold read_resp.
  rewrite <- (app_nil_r (der _ _)), read_der_put by (done || lia).
  change (Z.lor 0xa0 1) with 0xa1. cbn iota.
  rewrite <- (app_nil_r (der _ _)), read_der_put by lia.
  rewrite read_fields_put by (done || lia).
  destruct (resp_fields_read state mech typ token mic Hst Hmo) as (F0 & F1 & F2 & F3);
    [lia..|]. fold fs in F0, F1, F2, F3. by rewrite F0, F1, F2, F3.
Qed.
