(* ===== verification/Initiator.v ===== *)
(** * The initiator and the dialer ([initiator.go], [dialer.go])

    Authentication as the public API has it: [NTLMInitiator] puts the messages of
    [NtlmAuth] into the tokens of [Spnego], and is what [NewSession] of [Client]
    asks of an [Initiator]; [DialContext] negotiates and logs on. *)

From stdpp Require Import gmap.
From S2P Require Import Spnego NtlmSpec.
From S2P Require Export Errors.

(** ** NTLMInitiator *)

Record NTLMInitiator := mkNTLMInitiator {
  ini_User : bytes;
  ini_Password : bytes;
  ini_Hash : option bytes;
  ini_Domain : bytes;
  ini_Workstation : bytes;
  ini_TargetSPN : bytes;
  ini_ntlm : option NtlmAuth.Client;
  ini_seqNum : Z;
}.

Definition set_ntlm (c : NtlmAuth.Client) (i : NTLMInitiator) : NTLMInitiator :=
  mkNTLMInitiator (ini_User i) (ini_Password i) (ini_Hash i) (ini_Domain i) (ini_Workstation i)
    (ini_TargetSPN i) (Some c) (ini_seqNum i).

Definition get {S} : M S S := fun s => (Ok s, s).
Definition put {S} (s : S) : M S () := fun _ => (Ok (), s).

Definition ntlm_session (i : NTLMInitiator) : option Ntlm.Session :=
  match ini_ntlm i with Some c => c_session c | None => None end.

(** [sum]: the number of the message is not advanced. *)
Definition ini_sum (bs : bytes) : M NTLMInitiator (option bytes) :=
  let* i := get in
  match ini_ntlm i, ntlm_session i with
  | Some c, Some s =>
    let* (mic, _, s) := lift (Sum s bs (ini_seqNum i)) in
    let* _ := put (set_ntlm (with_session s c) i) in
    ret mic
  | _, _ => ret None
  end.

Definition ini_sessionKey (i : NTLMInitiator) : option bytes := exportedSessionKey <$> ntlm_session i.

Definition initSecContext : M NTLMInitiator bytes :=
  let* i := get in
  let c := NtlmAuth.mkClient (ini_User i) (ini_Password i) (ini_Hash i) (ini_Domain i) (ini_Workstation i)
             (ini_TargetSPN i) [] None in
  let* _ := put (set_ntlm c i) in
  let* (nmsg, c) := lift (client_Negotiate c) in
  let* _ := put (set_ntlm c i) in
  lift (EncodeNegTokenInit [NlmpOid] (Some nmsg)).

(** [asn1.Marshal(mechTypes)] *)
Definition marshal_oids (os : list oid) : res bytes := let! b := der_oids os in Ok (der 0x30 b).

Section initiator.
Context (ToUpper md4 : bytes -> bytes) (rnd : nat -> res bytes) (now : Z)
  (unmarshal_resp : bytes -> res NegTokenResp).

(** [i.ntlm.Authenticate], also on a nil client. *)
Definition ntlm_Authenticate (cmsg : bytes) : M NTLMInitiator bytes :=
  let* i := get in
  match ini_ntlm i with
  | None => let* _ := lift (check_challenge cmsg) in lift Panic
  | Some c =>
    let* (amsg, c) := lift (client_Authenticate ToUpper md4 rnd now cmsg c) in
    let* _ := put (set_ntlm c i) in
    ret amsg
  end.

Definition acceptSecContext (sc : bytes) : M NTLMInitiator bytes :=
  let* negTokenResp := lift (DecodeNegTokenResp unmarshal_resp sc) in
  let* amsg := ntlm_Authenticate (default [] (nr_ResponseToken negTokenResp)) in
  let* i := get in
  let* mechListMIC :=
    match ntlm_session i with
    | None => ret None
    | Some _ => match marshal_oids [NlmpOid] with
                | Ok ms => ini_sum ms
                | Err _ => ret None
                | Panic => lift Panic
                end
    end in
  lift (EncodeNegTokenResp 0 None (Some amsg) mechListMIC).
End initiator.

(** ** The dialer *)

(** The interface [Initiator] of the root package; [as_ntlm] is the type
    assertion to [NTLMInitiator]. *)
Class PublicInitiator (I : Type) := {
  pi_initSecContext : M I bytes;
  pi_acceptSecContext : bytes -> M I bytes;
  as_ntlm : I -> option NTLMInitiator;
}.

(** [initiatorWrapper] *)
#[export] Instance initiatorWrapper {I} `{PublicInitiator I} : Initiator I := {|
  i_Negotiate := pi_initSecContext;
  i_Authenticate := pi_acceptSecContext;
|}.
Definition wrapper_Session {I} `{PublicInitiator I} (i : I) : option Ntlm.Session :=
  match as_ntlm i with Some n => ntlm_session n | None => None end.

Definition initiatorUser {I} `{PublicInitiator I} (i : I) : bytes :=
  match as_ntlm i with Some n => ini_User n | None => [] end.
Definition initiatorDomain {I} `{PublicInitiator I} (i : I) : bytes :=
  match as_ntlm i with Some n => ini_Domain n | None => [] end.

Section dialer.
Context {T I : Type} `{Transport T} `{PublicInitiator I} (conn_Close : T -> T).

(** [DialContext], on a connection made from the socket, whose receive loop runs.
    The session that comes back has its own context. *)
Definition DialContext (nil_ctx allowGuest : bool) (t : T) (ini : option I) :
    res (Negotiated * UserSession) * (T * option I) :=
  if nil_ctx then (Err (InternalError "nil context"), (t, ini)) else
  match ini with
  | None => (Err (InternalError "Initiator is empty"), (t, ini))
  | Some i =>
    if match as_ntlm i with Some n => len (ini_User n) =? 0 | None => false end
    then (Err (InternalError "Anonymous account is not supported. Use a username and password"), (t, ini))
    else
    match Negotiate t with
    | (Err e, t) => (Err (wrapError e), (conn_Close t, Some i))
    | (Panic, t) => (Panic, (t, Some i))
    | (Ok c, t) =>
      match NewSession c allowGuest (t, i) with
      | (Ok s, (t, i)) => (Ok (c, s), (t, Some i))
      | (Panic, (t, i)) => (Panic, (t, Some i))
      | (Err e, (t, i)) =>
        (Err (if is_err e ErrGuestLogon then
                AuthenticationError (initiatorUser i) (initiatorDomain i)
                  "the server granted a guest logon instead; set Dialer.AllowGuest to accept it" e
              else wrapError e), (conn_Close t, Some i))
      end
    end
  end.
End dialer.

(** ** Logging on *)

Definition client_of (i : NTLMInitiator) : NtlmAuth.Client :=
  NtlmAuth.mkClient (ini_User i) (ini_Password i) (ini_Hash i) (ini_Domain i) (ini_Workstation i)
    (ini_TargetSPN i) [] None.

(** The first token is always the same. *)
Definition first_token : bytes :=
  match EncodeNegTokenInit [NlmpOid] (Some negotiate_msg) with Ok b => b | _ => [] end.

Lemma initSecContext_eq i :
  initSecContext i = (Ok first_token, set_ntlm (with_nmsg negotiate_msg (client_of i)) i).
Proof. reflexivity. Qed.

(** The encoded list of mechanisms that the integrity code of the token covers. *)
Definition mech_list : bytes := match marshal_oids [NlmpOid] with Ok b => b | _ => [] end.

(** An NTLM server that knows the initiator's user. *)
Record served_by (md4 : bytes -> bytes) (s : Server) (i : NTLMInitiator) : Prop := {
  sb_knows : knows md4 s (client_of i);
  sb_credentials : has_credentials (client_of i) = true;
  sb_fits : client_fits (client_of i) (replicate 4 Byte.x00);
  sb_name : len (utf16le (targetName s)) < 2 ^ 16;
}.

Section accepted.
Context (ToUpper md4 : bytes -> bytes) (rnd : nat -> res bytes) (now : Z)
  (unmarshal_resp : bytes -> res NegTokenResp) (rnd_s : nat -> res bytes) (r r0 r1 : bytes).
Hypotheses (Hr : rnd_s 0%nat = Ok r) (Hr0 : rnd 0%nat = Ok r0) (Hr1 : rnd 1%nat = Ok r1).

(** What a reply to the challenge of [s1] amounts to: a token with a message the
    server accepts and an integrity code that it finds right; the server names
    the user, and both have the same key. *)
Definition good_reply (s1 : Server) (i i2 : NTLMInitiator) (reply : bytes) : Prop :=
  exists amsg mic s2 A ss n ss',
    read_resp reply = Some (mkNegTokenResp 0 None (Some amsg) (Some mic)) /\
    server_Authenticate ToUpper md4 amsg s1 = Ok (s2, A) /\ s_session s2 = Some ss /\
    s_user ss = ini_User i /\ CheckSum ss (Some mic) mech_list 0 = Ok (true, n, ss') /\
    ini_sessionKey i2 = Some (exportedSessionKey ss').

Lemma acceptSecContext_good i s :
  served_by md4 s i -> ini_seqNum i = 0 ->
  exists C s1 reply i2,
    Challenge rnd_s negotiate_msg s = (Ok C, s1) /\ good_reply s1 i i2 reply /\
    ini_User i2 = ini_User i /\ ini_Domain i2 = ini_Domain i /\
    forall sc tok, unmarshal_resp sc = Ok tok -> nr_ResponseToken tok = Some C ->
      acceptSecContext ToUpper md4 rnd now unmarshal_resp sc
        (set_ntlm (with_nmsg negotiate_msg (client_of i)) i) = (Ok reply, i2).
Proof.
  intros [Hk Hcr Hf Hn] Hseq.
  destruct (Challenge_accepted ToUpper md4 rnd_s rnd now (client_of i) s r r0 r1) as
    (C & s1 & Hch & amsg & A & sc & ss & Hc & Hs & Hp & Hsig & Hu & Hu' & _ & Hamsg); try done.
  destruct (CheckSum_Sum sc ss mech_list 0 Hp) as (t & n & sc' & ss' & Hsum & Hcheck & Hp' & Hmic).
  destruct (Hmic (proj1 Hsig)) as (mic & -> & Hml).
  destruct (EncodeNegTokenResp_read 0 None (Some amsg) (Some mic)) as (reply & He & Hread);
    [lia|done|change (len amsg < 2 ^ 60); lia|change (len mic < 2 ^ 60); lia|].
  set (c1 := with_nmsg negotiate_msg (client_of i)) in *.
  exists C, s1, reply, (set_ntlm (with_session sc' (with_session sc c1)) i). split; [done|]. split.
  - exists amsg, mic. eexists _, A, ss, n, ss'. repeat (split; [done|]).
    unfold ini_sessionKey. cbn. by rewrite (p_key _ _ Hp').
  - split; [done|]. split; [done|]. intros sc0 tok Htok Hrt. unfold acceptSecContext, DecodeNegTokenResp.
    rewrite (bind_run _ _ _ tok _ (lift_run _ _ _ Htok)), Hrt. cbn [default from_option id].
    erewrite bind_run.
    2: { unfold ntlm_Authenticate. erewrite bind_run; [|done]. cbn [ini_ntlm set_ntlm].
         erewrite bind_run; [|apply lift_run, Hc]. cbv zeta beta iota. by erewrite bind_run. }
    erewrite bind_run; [|done]. cbn [ntlm_session ini_ntlm set_ntlm c_session with_session].
    change (marshal_oids [NlmpOid]) with (Ok mech_list). cbv iota.
    erewrite bind_run.
    2: { unfold ini_sum. erewrite bind_run; [|done].
         cbn [ini_ntlm ntlm_session set_ntlm c_session with_session ini_seqNum].
         rewrite Hseq. erewrite bind_run; [|apply lift_run, Hsum]. cbv zeta beta iota. by erewrite bind_run. }
    by apply lift_run.
Qed.
End accepted.

(** [NTLMInitiator] as the dialer sees it. *)
Definition ntlm_initiator (ToUpper md4 : bytes -> bytes) (rnd : nat -> res bytes) (now : Z)
    (unmarshal_resp : bytes -> res NegTokenResp) : PublicInitiator NTLMInitiator := {|
  pi_initSecContext := initSecContext;
  pi_acceptSecContext := acceptSecContext ToUpper md4 rnd now unmarshal_resp;
  as_ntlm := Some;
|}.

Section dial.
Context (ToUpper md4 : bytes -> bytes) (rnd : nat -> res bytes) (now : Z)
  (unmarshal_resp : bytes -> res NegTokenResp) (rnd_s : nat -> res bytes) (conn_Close : script -> script).
Local Instance dial_initiator : PublicInitiator NTLMInitiator :=
  ntlm_initiator ToUpper md4 rnd now unmarshal_resp.

(** C20: dialing logs on: on a connection that negotiates, to a server whose first
    session setup reply carries, in whatever token the decoder reads, the
    challenge of an NTLM server that knows the user, the dialer sends the first
    token, then under the UID of that reply a token the NTLM server accepts (it
    finds the response and both integrity codes right, and has the initiator's
    key), and returns a session with the UID of the second reply; when that reply
    says the logon is a guest's and the caller did not allow it, the connection is
    closed and the error names the user. *)
Theorem DialContext_logs_on allowGuest i s r r0 r1 t0 c log0 h1 p1 d1 s1 tok h2 p2 d2 s2 C ns :
  rnd_s 0%nat = Ok r -> rnd 0%nat = Ok r0 -> rnd 1%nat = Ok r1 ->
  served_by md4 s i -> ini_seqNum i = 0 -> len (ini_User i) <> 0 ->
  Negotiate t0 = (Ok c, mkScript log0 [response_of h1 p1 d1; response_of h2 p2 d2]) ->
  Status h1 = STATUS_MORE_PROCESSING_REQUIRED ->
  DecodeSessionSetupResponse p1 d1 (use_unicode c) = Ok s1 ->
  Challenge rnd_s negotiate_msg s = (Ok C, ns) ->
  unmarshal_resp (sr_SecurityBlob s1) = Ok tok -> nr_ResponseToken tok = Some C ->
  IsError h2 = false -> DecodeSessionSetupResponse p2 d2 (use_unicode c) = Ok s2 ->
  exists reply i2 log1 log2,
    good_reply ToUpper md4 ns i i2 reply /\
    setup_exchange c first_token (NewHeader SMB_COM_SESSION_SETUP_ANDX) log1 /\
    setup_exchange c reply (set_UID (UID h1) (NewHeader SMB_COM_SESSION_SETUP_ANDX)) log2 /\
    let t := mkScript ((log0 ++ log1) ++ log2) [] in
    DialContext conn_Close false allowGuest t0 (Some i) =
    if IsGuest s2 && negb allowGuest
    then (Err (AuthenticationError (ini_User i) (ini_Domain i)
            "the server granted a guest logon instead; set Dialer.AllowGuest to accept it" ErrGuestLogon),
          (conn_Close t, Some i2))
    else (Ok (c, mkUserSession (UID h2) (IsGuest s2) ∅), (t, Some i2)).
Proof.
  intros Hr Hr0 Hr1 Hs Hseq Hu Hneg H1 D1 Hch Htok Hrt H2 D2.
  destruct (acceptSecContext_good ToUpper md4 rnd now unmarshal_resp rnd_s r r0 r1 Hr Hr0 Hr1 i s Hs Hseq)
    as (C' & ns' & reply & i2 & Hch' & Hgood & Hu2 & Hd2 & Hacc).
  rewrite Hch in Hch'. injection Hch' as <- <-. specialize (Hacc _ _ Htok Hrt).
  assert (i_Negotiate i = (Ok first_token, set_ntlm (with_nmsg negotiate_msg (client_of i)) i)) as Hi
    by apply initSecContext_eq.
  destruct (NewSession_two_rounds c allowGuest i _ i2 first_token reply h1 p1 d1 s1 h2 p2 d2 s2 log0
    Hi H1 D1 Hacc H2 D2) as (log1 & log2 & L1 & L2 & E).
  exists reply, i2, log1, log2. split; [done|]. split; [done|]. split; [done|]. cbv zeta.
  unfold DialContext. cbn [as_ntlm dial_initiator ntlm_initiator].
  rewrite (proj2 (Z.eqb_neq _ _)) by done. rewrite Hneg, E.
  destruct (_ && _); [|done]. unfold initiatorUser, initiatorDomain.
  cbn [as_ntlm dial_initiator ntlm_initiator]. by rewrite Hu2, Hd2.
Qed.
End dial.

(** Arguments that are refused send nothing; after that, whatever goes wrong,
    the connection is closed. *)
Lemma DialContext_closes {T I} `{Transport T} `{PublicInitiator I} conn_Close nil_ctx allowGuest
    (t : T) (ini : option I) e t' ini' :
  DialContext conn_Close nil_ctx allowGuest t ini = (Err e, (t', ini')) ->
  t' = t /\ (exists m, e = InternalError m) \/ exists t1, t' = conn_Close t1.
Proof.
  unfold DialContext. destruct nil_ctx; [intros [= <- <- <-]; left; split; [done|by eexists]|].
  destruct ini as [i|]; [|intros [= <- <- <-]; left; split; [done|by eexists]].
  destruct (match as_ntlm i with Some _ => _ | None => _ end);
    [intros [= <- <- <-]; left; split; [done|by eexists]|].
  destruct (Negotiate t) as [[c| |] t1]; [|intros [= <- <- <-]; right; by eexists|done].
  destruct (NewSession c allowGuest (t1, i)) as [[?| |] [t2 i2]]; try done.
  intros [= <- <- <-]. right. by eexists.
Qed.

(** ** An example *)

Definition example_initiator : NTLMInitiator :=
  mkNTLMInitiator (str "user") (str "password") None (str "WORKGROUP") (str "localhost")
    (str "cifs/server") None 0.
(** A decoder of the tokens servers send. *)
Definition example_unmarshal (b : bytes) : res NegTokenResp :=
  match read_resp b with Some t => Ok t | None => Err (Errorf "asn1: syntax error") end.

Definition example_challenge : bytes :=
  match Challenge example_rnd negotiate_msg example_server with (Ok C, _) => C | _ => [] end.
Definition example_blob : bytes :=
  match EncodeNegTokenResp 1 (Some NlmpOid) (Some example_challenge) None with Ok b => b | _ => [] end.
Definition dial_script : script :=
  mkScript [] [response_of (reply_of SMB_COM_NEGOTIATE 0 0 0) (negotiate_params 3 0x8000005C)
                 (replicate 16 Byte.x01);
               setup_reply STATUS_MORE_PROCESSING_REQUIRED 7 0 example_blob;
               setup_reply STATUS_SUCCESS 7 0 []].

Lemma DialContext_logs_on_witness :
  let ini := ntlm_initiator id md4_sum example_rnd 0 example_unmarshal in
  exists reply i2 t ns,
    good_reply id md4_sum ns example_initiator i2 reply /\
    @DialContext script NTLMInitiator _ ini id false false dial_script (Some example_initiator) =
    (Ok (example_negotiated, mkUserSession 7 false ∅), (t, Some i2)).
Proof.
  destruct (DialContext_logs_on id md4_sum example_rnd 0 example_unmarshal example_rnd id
    false example_initiator example_server
    (replicate 16 (byte_of 65)) (replicate 16 (byte_of 65)) (replicate 16 (byte_of 66))
    dial_script example_negotiated (sent (Negotiate dial_script).2)
    (reply_of SMB_COM_SESSION_SETUP_ANDX STATUS_MORE_PROCESSING_REQUIRED 7 0)
    (setup_reply_words 0 example_blob) example_blob
    (mkSessionSetupResponse 0xFF 0 0 0 (len example_blob) example_blob [] [] [])
    (mkNegTokenResp 1 (Some NlmpOid) (Some example_challenge) None)
    (reply_of SMB_COM_SESSION_SETUP_ANDX STATUS_SUCCESS 7 0) (setup_reply_words 0 []) []
    (mkSessionSetupResponse 0xFF 0 0 0 0 [] [] [] []) example_challenge
    (Challenge example_rnd negotiate_msg example_server).2) as (reply & i2 & l1 & l2 & Hg & _ & _ & E).
  - reflexivity.
  - reflexivity.
  - reflexivity.
  - split; [exists (str "password"); split; [vm_compute; reflexivity|reflexivity]|reflexivity| |vm_compute; reflexivity].
    split; vm_compute; reflexivity.
  - reflexivity.
  - vm_compute. discriminate.
  - vm_compute. reflexivity.
  - reflexivity.
  - vm_compute. reflexivity.
  - vm_compute. reflexivity.
  - vm_compute. reflexivity.
  - reflexivity.
  - reflexivity.
  - vm_compute. reflexivity.
  - eexists reply, i2, _, _. split; [exact Hg|]. exact E.
Defined.
