(* ===== verification/NtlmSafe.v ===== *)
(** * NTLM: what no challenge can do to the client

    [Authenticate] of the client reads a message the server chose.  Every access
    it makes is in range, and it ends, unless the challenge does one of two
    things the code does not check. *)

From stdpp Require Import gmap.
From S2P Require Export NtlmSpec.

(** ** Computations that do not panic, and what their result satisfies *)

Definition upholds {A} (m : res A) (P : A -> Prop) : Prop :=
  match m with Ok a => P a | Err _ => True | Panic => False end.

Lemma upholds_safe {A} (m : res A) P : upholds m P -> safe m.
Proof. by destruct m. Qed.
Lemma upholds_of_safe {A} (m : res A) (P : A -> Prop) :
  safe m -> (forall a, m = Ok a -> P a) -> upholds m P.
Proof. destruct m; cbn; auto. Qed.
Lemma upholds_mono {A} (m : res A) (P Q : A -> Prop) :
  upholds m P -> (forall a, P a -> Q a) -> upholds m Q.
Proof. destruct m; cbn; auto. Qed.
Lemma upholds_bind {A B} (m : res A) (f : A -> res B) P Q :
  upholds m P -> (forall a, m = Ok a -> P a -> upholds (f a) Q) -> upholds (bind m f) Q.
Proof. destruct m; cbn; auto. Qed.
Lemma upholds_check {A} (b : bool) (m : res A) e P :
  (b = true -> upholds m P) -> upholds (if b then m else Err e) P.
Proof. destruct b; cbn; auto. Qed.

Lemma upholds_slice {A} (l : list A) lo hi :
  0 <= lo <= hi -> hi <= len l -> upholds (slice l lo hi) (fun s => len s = hi - lo).
Proof.
  intros. apply upholds_of_safe; [by apply safe_slice|]. intros s Hs. apply slice_inv in Hs. lia.
Qed.
Lemma upholds_make n : 0 <= n -> upholds (make n) (fun b => len b = n).
Proof. intros. rewrite make_ok by done. cbn. rewrite len_replicate. lia. Qed.
Lemma upholds_copy_at b lo hi s :
  0 <= lo <= hi -> hi <= len b -> upholds (copy_at b lo hi s) (fun b' => len b' = len b).
Proof. intros. rewrite copy_at_cut by lia. cbn. apply len_write. Qed.
Lemma upholds_put_le n b lo hi v :
  0 <= lo -> lo + Z.of_nat n <= hi <= len b -> upholds (put_le n b lo hi v) (fun b' => len b' = len b).
Proof. intros. rewrite put_le_write by lia. cbn. apply len_write. Qed.
Lemma upholds_u16 b lo hi :
  0 <= lo -> lo + 2 <= hi <= len b -> upholds (u16 b lo hi) (fun n => 0 <= n < 2 ^ 16).
Proof. intros. apply upholds_of_safe; [by apply safe_u16|]. intros ?. apply u16_range. Qed.
Lemma upholds_u32 b lo hi :
  0 <= lo -> lo + 4 <= hi <= len b -> upholds (u32 b lo hi) (fun n => 0 <= n < 2 ^ 32).
Proof. intros. apply upholds_of_safe; [by apply safe_u32|]. intros ?. apply u32_range. Qed.

Create HintDb upholds.
#[export] Hint Resolve upholds_slice upholds_make upholds_copy_at upholds_u16 upholds_u32 : upholds.
#[export] Hint Extern 1 (upholds (put16 _ _ _ _) _) => apply (upholds_put_le 2) : upholds.
#[export] Hint Extern 1 (upholds (put32 _ _ _ _) _) => apply (upholds_put_le 4) : upholds.
#[export] Hint Extern 1 (upholds (put64 _ _ _ _) _) => apply (upholds_put_le 8) : upholds.
#[export] Hint Extern 2 (_ <= _ <= _) => lia : upholds.
#[export] Hint Extern 2 (_ <= _) => lia : upholds.

(** One bound call, or a check. *)
Ltac up_step :=
  cbv beta zeta; first
  [ match goal with |- upholds (Ok _) _ => cbn [upholds] end
  | match goal with |- upholds (Err _) _ => exact I end
  | apply upholds_check; intros ?
  | eapply upholds_bind; [solve [eauto with upholds]|
      let a := fresh "a" in let E := fresh "E" in let H := fresh "H" in
      intros a E H; cbv beta in H; repeat (destruct a as [a ?]; cbv beta iota in H)] ].
Ltac up := repeat up_step; try done; try lia.

(** ** Fields *)

(** The end of the field described at [at_] can be computed in 32 bits. *)
Definition field_in_range (msg : bytes) (at_ : Z) : bool :=
  match u16 msg at_ (at_ + 2), u32 msg (at_ + 4) (at_ + 8) with
  | Ok n, Ok o => o + n <? 2 ^ 32
  | _, _ => true
  end.

Lemma read_field_up e msg at_ :
  0 <= at_ -> at_ + 8 <= len msg -> field_in_range msg at_ = true ->
  upholds (read_field e msg at_) (fun p => 0 <= p.1 /\ p.1 + len p.2 <= len msg).
Proof.
  intros H1 H2 Hf. unfold read_field, field_in_range in *. do 4 up_step.
  match goal with H : u16 _ _ _ = Ok _ |- _ => rewrite H in Hf; clear H end.
  up_step. rewrite E1 in Hf. apply Z.ltb_lt in Hf.
  assert (wrap 32 (a1 + a) = a1 + a) as Hw by (unfold wrap; apply Z.mod_small; lia).
  rewrite Hw in *. apply negb_true_iff, Z.ltb_ge in H5. up_step. up_step. cbn [fst snd]. lia.
Qed.

(** ** Target information *)

(** The values of a list are inside it. *)
Definition pairs_inside (n : Z) (m : gmap Z (Z * Z)) : Prop :=
  map_Forall (fun _ v => 0 <= v.1 /\ 0 <= v.2 /\ v.1 + v.2 <= n) m.

Lemma av_loop_inside fuel bs off m m' :
  0 <= off -> pairs_inside (off + len bs) m -> av_loop fuel bs off m = Ok (Some m') ->
  pairs_inside (off + len bs) m'.
Proof.
  revert bs off m. induction fuel as [|fuel IH]; intros bs off m Ho Hm H; [done|].
  cbn [av_loop] in H. destruct (Z.leb_spec (len bs) 0); [by injection H as <-|].
  destruct (Z.ltb_spec (len bs) 4); [done|]. inv_binds. go_ranges.
  assert (off + len bs = off + (4 + x0) + len x2) as E by lia. rewrite E in *.
  apply (IH _ _ (<[x := (off + 4, x0)]> m)); [lia| |done].
  apply map_Forall_insert_2; [cbn; lia|done].
Qed.

Lemma parseAvPairs_inside bs m :
  parseAvPairs bs = Ok (Some m) -> 4 <= len bs /\ pairs_inside (len bs) m.
Proof.
  unfold parseAvPairs. destruct (Z.ltb_spec (len bs) 4); [done|]. intros H'. inv_binds.
  split; [done|]. apply (av_loop_inside (S (length bs)) bs 0 ∅); [done|apply map_Forall_empty|done].
Qed.

(** The flags of a list of pairs, if it has any, are a number. *)
Definition flags_readable (m : gmap Z (Z * Z)) : bool :=
  match m !! MsvAvFlags with Some v => 4 <=? v.2 | None => true end.

Record info_fits (i : targetInfoEncoder) : Prop := {
  if_len : 4 <= len (Info i);
  if_inside : pairs_inside (len (Info i)) (InfoMap i);
  if_flags : flags_readable (InfoMap i) = true;
}.

Lemma put_av_up dst off id n :
  0 <= off -> off + 4 <= len dst -> upholds (put_av dst off id n) (fun b => len b = len dst).
Proof. intros. unfold put_av. up_step. eapply upholds_mono; [eauto with upholds|]. cbn. lia. Qed.
#[export] Hint Resolve put_av_up : upholds.

Lemma av_value_up info m id v :
  pairs_inside (len info) m -> m !! id = Some v -> upholds (av_value info v) (fun b => len b = v.2).
Proof.
  intros Hm Hv. destruct (Hm _ _ Hv) as (? & ? & ?). unfold av_value.
  eapply upholds_mono; [eauto with upholds|]. cbn. lia.
Qed.

(** Encoding keeps the length of the buffer and of the list in the challenge. *)
Definition same_lens (dst : bytes) (i : targetInfoEncoder) (p : bytes * targetInfoEncoder) : Prop :=
  len p.1 = len dst /\ len (Info p.2) = len (Info i).

Lemma ti_encode_up i dst :
  info_fits i -> ti_size i <= len dst -> upholds (ti_encode i dst) (same_lens dst i).
Proof.
  intros [H4 Hin Hfl] Hsz. unfold ti_size, flags_readable in *. unfold ti_encode.
  pose proof (len_nonneg (SPN i)). pose proof (len_nonneg dst).
  set (rest := if negb (len (SPN i) =? 0) then 4 + len (SPN i) else 0).
  assert (0 <= rest) by (subst rest; case_match; lia).
  apply (upholds_bind _ _ (fun p => len p.1.1 = len dst /\ len p.2 = len (Info i) /\
    0 <= p.1.2 /\ p.1.2 + 20 + rest + 4 <= len dst)).
  - destruct (InfoMap i !! MsvAvFlags) as [v|] eqn:Ev.
    + destruct (Hin _ _ Ev) as (Hv1 & Hv2 & Hv3). apply Z.leb_le in Hfl.
      eapply upholds_bind; [by eapply av_value_up|]. intros b _ Hb. cbv beta in Hb.
      unfold get_le. rewrite (proj2 (Z.ltb_ge _ _)) by lia. cbn [bind]. do 4 up_step. cbn [fst snd].
      subst rest. repeat case_match; lia.
    + do 2 up_step. assert (Z.min (len a0) (len a) = len (Info i) - 4) as -> by
        (repeat case_match; lia).
      assert (len (Info i) + 8 + 20 + rest <= len dst) by (subst rest; repeat case_match; lia).
      do 3 up_step. cbn [fst snd]. lia.
  - intros [[d off] info] _ (Hd & Hi & Ho & Hfit). cbn [fst snd] in *. up_step.
    apply (upholds_bind _ _ (fun p => len p.1 = len dst /\ 0 <= p.2 /\ p.2 + 4 <= len dst)).
    + destruct (negb _) eqn:En; subst rest; [do 3 up_step|up_step]; cbn [fst snd]; lia.
    + intros [d' off'] _ (? & ? & ?). cbn [fst snd] in *. up_step. up_step.
      unfold same_lens. cbn [fst snd Info]. lia.
Qed.

Lemma encodeNtlmv2Response_up dst h challenge cc ts i :
  info_fits i -> 44 + ti_size i <= len dst -> 0 <= ti_size i ->
  (forall i', len (Info i') = len (Info i) -> safe (challenge i')) ->
  upholds (encodeNtlmv2Response dst h challenge cc ts i)
    (fun p => len p.1.1 = len dst /\ len (Info p.2) = len (Info i)).
Proof.
  intros Hi Hd Hz Hc. unfold encodeNtlmv2Response, put8. do 6 up_step.
  eapply upholds_bind; [apply ti_encode_up; [done|lia]|].
  intros [pairs i'] _ [Hp Hi']. cbn [fst snd] in Hp, Hi'. up_step.
  eapply upholds_bind; [by apply (upholds_of_safe _ (fun _ => True)); [apply Hc|]|]. intros ch _ _.
  do 3 up_step. cbn [fst snd]. lia.
Qed.

Section safe.
Context (ToUpper md4 : bytes -> bytes) (rnd : nat -> res bytes) (now : Z).
Hypothesis rnd_safe : forall k, safe (rnd k).

Lemma rnd_up k : upholds (rnd k) (fun _ => True).
Proof. by apply upholds_of_safe. Qed.
Local Hint Resolve rnd_up : upholds.

Lemma nt_response_up h cmsg resp at_ info :
  info_fits info -> 44 + ti_size info <= len resp -> 0 <= ti_size info ->
  0 <= at_ -> at_ + len (Info info) <= len cmsg -> 32 <= len cmsg ->
  upholds (nt_response rnd now h cmsg resp at_ info)
    (fun p => len p.1.1 = len resp /\ len (Info p.2) = len (Info info)).
Proof.
  intros Hi Hr Hz H0 H1 H2. unfold nt_response. do 3 up_step.
  apply (upholds_bind _ _ (fun p => len p.1 = len resp)).
  - destruct (InfoMap info !! MsvAvTimestamp) as [v|] eqn:Ev.
    + eapply upholds_bind; [by eapply av_value_up; [apply if_inside|]|]. intros b _ _.
      up_step. cbn [fst]. lia.
    + do 3 up_step. cbn [fst]. lia.
  - intros [resp' ts] _ Hl. cbn [fst] in Hl.
    eapply upholds_mono; [apply encodeNtlmv2Response_up; [done|lia|done|]|].
    + intros i' Hl'. pose proof (len_nonneg (Info i')). eapply upholds_safe. unfold challenge_after.
      up_step.
      eauto with upholds.
    + intros p Hp. cbv beta in Hp. lia.
Qed.

Lemma put_desc_up msg at_ n off :
  0 <= at_ -> at_ + 8 <= len msg -> upholds (put_desc msg at_ n off) (fun b => len b = len msg).
Proof.
  intros. unfold put_desc. do 2 up_step. eapply upholds_mono; [eauto with upholds|]. cbn. lia.
Qed.
Local Hint Resolve put_desc_up : upholds.

Lemma client_key_up flags base amsg off :
  len base = 16 -> 0 <= off -> off + 16 <= len amsg -> 88 <= len amsg ->
  upholds (client_key rnd flags base amsg off) (fun p => len p.1 = 16 /\ len p.2 = len amsg).
Proof.
  intros Hb Ho Ho' Hl. unfold client_key. destruct (has _ _); [|by up_step].
  do 3 up_step. destruct (rc4_NewCipher_ok base) as [c ->]; [lia|]. cbn [bind]. up_step.
  unfold XORKeyStream. rewrite (proj2 (Z.ltb_ge _ _)) by lia.
  destruct (keystream _ c) as [ks c']. cbn [bind]. do 3 up_step. cbn [fst snd]. lia.
Qed.

(** A challenge without the two defects: both of its fields end below 2^32, and
    flags in its target information have at least the four bytes of a number. *)
Definition challenge_fits (cmsg : bytes) : bool :=
  field_in_range cmsg 12 && field_in_range cmsg 40 &&
  match read_field "invalid target info format" cmsg 40 with
  | Ok (_, info) => match parseAvPairs info with Ok (Some m) => flags_readable m | _ => true end
  | _ => true
  end.

Lemma check_challenge_up cmsg : upholds (check_challenge cmsg) (fun _ => 48 <= len cmsg).
Proof.
  unfold check_challenge. up_step. apply negb_true_iff, Z.ltb_ge in H. by do 5 up_step.
Qed.

Lemma read_challenge_up c cmsg :
  16 <= len (c_nmsg c) -> challenge_fits cmsg = true ->
  upholds (read_challenge c cmsg) (fun p =>
    info_fits p.2 /\ 0 <= p.1.2 /\ p.1.2 + len (Info p.2) <= len cmsg /\ 48 <= len cmsg).
Proof.
  intros Hn Hf. unfold challenge_fits in Hf. rewrite !andb_true_iff in Hf. destruct Hf as [[F1 F2] F3].
  unfold read_challenge. eapply upholds_bind; [apply check_challenge_up|]. intros [] _ Hl. cbv beta in Hl.
  do 3 up_step. eapply upholds_bind; [apply read_field_up; (done || lia)|]. intros [? name] _ _. up_step.
  eapply upholds_bind; [apply read_field_up; (done || lia)|]. intros [at_ info] E3 Hi. cbn [fst snd] in Hi.
  rewrite E3 in F3. rewrite EncodeStringToBytes_eq. cbn [bind]. unfold newTargetInfoEncoder.
  pose proof (parseAvPairs_safe info) as Hs.
  destruct (parseAvPairs info) as [[m|]| |] eqn:E4; try done. cbn [bind upholds fst snd Info].
  destruct (parseAvPairs_inside _ _ E4). split; [by split|lia].
Qed.

Lemma response_hash_ok c domain : exists h, response_hash ToUpper md4 c domain = Ok h.
Proof.
  unfold response_hash. rewrite !EncodeStringToBytes_eq. cbn [bind]. by destruct (Hash c); eexists.
Qed.

(** C21: the client survives any challenge but two kinds: whatever bytes the server
    sends, and whatever the client was configured with, no access of
    [Authenticate] is out of range and it ends with a message or an error, unless
    the end of a field of the challenge wraps around 2^32 or the flags of its
    target information have fewer than four bytes. *)
Theorem client_Authenticate_bounds cmsg c :
  16 <= len (c_nmsg c) -> challenge_fits cmsg = true ->
  safe (client_Authenticate ToUpper md4 rnd now cmsg c).
Proof.
  intros Hn Hf. apply (upholds_safe _ (fun _ => True)). unfold client_Authenticate.
  eapply upholds_bind; [by apply read_challenge_up|].
  intros [[[flags tname] at_] info] _ (Hi & Ha & Hae & Hl). cbn [fst snd] in *.
  rewrite EncodeStringToBytes_eq. cbn [bind]. cbv zeta.
  set (domain := if len (utf16le (Domain c)) =? 0 then _ else _).
  assert (0 <= ti_size info) as Hz.
  { pose proof (if_len _ Hi). pose proof (len_nonneg (SPN info)). unfold ti_size. repeat case_match; lia. }
  destruct (amsg_names_spec c domain info Hz) as (B & -> & [HB _ _ _ _ _]). cbn [bind].
  pose proof (len_nonneg domain). pose proof (len_nonneg (utf16le (User c))).
  pose proof (len_nonneg (utf16le (Workstation c))).
  set (off := 88 + _ + _ + _) in *.
  destruct (has_credentials c); cbn [negb]; [|done].
  destruct (response_hash_ok c domain) as [h ->]. cbn [bind]. do 3 up_step.
  eapply upholds_bind; [apply nt_response_up; (done || lia)|].
  intros [[resp h'] info'] _ [Hr Hi']. cbn [fst snd] in Hr, Hi'. unfold challenge_after.
  pose proof (len_nonneg (Info info')).
  do 4 up_step. eapply upholds_bind; [apply client_key_up; autorewrite with len; lia|].
  intros [key amsg] _ [Hk Hm]. cbn [fst snd] in Hk, Hm. do 3 up_step.
  destruct (new_session_peers flags key Hk) as (f & -> & _). done.
Qed.
End safe.

Lemma client_Authenticate_bounds_witness :
  challenge_fits (challenge_with defaultFlags [Byte.x06; Byte.xff]) = true /\
  challenge_fits (challenge_with defaultFlags (av_list [(MsvAvFlags, le_put 4 1); (MsvAvEOL, [])])) = true /\
  safe (client_Authenticate id md4_sum example_rnd 0
    (challenge_with defaultFlags (av_list [(MsvAvFlags, le_put 4 1); (MsvAvEOL, [])]))
    (with_nmsg negotiate_msg example_client)).
Proof.
  split; [vm_compute; reflexivity|]. split; [vm_compute; reflexivity|].
  apply (client_Authenticate_bounds id md4_sum example_rnd 0).
  - intros k. discriminate.
  - vm_compute. discriminate.
  - vm_compute. reflexivity.
Defined.
