(* ===== verification/LocalCopy.v ===== *)
(** * Copying from and to local files ([session.go]: [CopyFrom], [CopyTo])

    The local machine is a state with the calls of package [os] the code makes;
    [io.Copy] goes through [ReadFrom] and [WriteTo] of the remote file.  The
    theorems are about any machine whose files behave like files. *)

From S2P Require Export FileSpec.

(** ** Local files *)

(** [os.Open], [os.OpenFile] (name, flags, permissions), and of a file: whether
    [Stat] says it is a directory, [Read], [Write] and [Close]. *)
Class LocalFiles (L F : Type) := {
  os_Open : bytes -> M L F;
  os_OpenFile : bytes -> Z -> Z -> M L F;
  lf_IsDir : F -> M L bool;
  lf_Read : F -> bytes -> M L (bytes * (Z * option error));
  lf_Write : F -> bytes -> M L (Z * option error);
  lf_Close : F -> M L ();
}.

Definition on_snd {S L A} (m : M L A) : M (S * L) A := fun st =>
  match m st.2 with (r, l) => (r, (st.1, l)) end.

Section copy.
Context {T L F : Type} `{Transport T} `{Ctx T} `{Pipeline T} `{LocalFiles L F}.




Definition truncating : Z := Z.lor (Z.lor O_WRONLY O_CREATE) O_TRUNC.


End copy.

(** ** Files that behave like files

    Opening a file for reading gives its content, in whatever pieces; a file that
    is created is empty and takes a prefix of each write, all of it unless it
    reports an error; closing changes nothing. *)
Class LocalDisk (L F : Type) `{LocalFiles L F} := {
  file_at : L -> bytes -> option bytes;
  ld_creatable : bytes -> Prop;
  ld_error : error -> Prop;
  lf_reading : F -> L -> Prop;
  lf_rest : F -> L -> bytes;
  lf_writing : F -> bytes -> L -> Prop;
  ld_open p d l : file_at l p = Some d ->
    exists f l1 l2, os_Open p l = (Ok f, l1) /\ lf_IsDir f l1 = (Ok false, l2) /\ lf_reading f l2 /\ lf_rest f l2 = d;
  ld_read f b l : lf_reading f l -> 0 < len b ->
    exists b' n err l', lf_Read f b l = (Ok (b', (n, err)), l') /\ lf_reading f l' /\
      0 <= n <= len b /\ n <= len (lf_rest f l) /\ len b' = len b /\
      take (Z.to_nat n) b' = take (Z.to_nat n) (lf_rest f l) /\
      lf_rest f l' = drop (Z.to_nat n) (lf_rest f l) /\ (err = None -> 0 < n) /\
      (err = Some EOF -> lf_rest f l' = []) /\ (forall e, err = Some e -> e = EOF \/ ld_error e);
  ld_create p perm l : ld_creatable p ->
    exists f l', os_OpenFile p truncating perm l = (Ok f, l') /\ lf_writing f p l' /\ file_at l' p = Some [];
  ld_write f p w b l : lf_writing f p l -> file_at l p = Some w ->
    exists n err l', lf_Write f b l = (Ok (n, err), l') /\ lf_writing f p l' /\ 0 <= n <= len b /\
      file_at l' p = Some (w ++ take (Z.to_nat n) b) /\ (err = None -> n = len b) /\
      (forall e, err = Some e -> ld_error e);
  ld_close f l : exists r l', lf_Close f l = (r, l') /\ r <> Panic /\ forall p, file_at l' p = file_at l p;
}.


(** ** Uploading *)

Section upload.
Context (c : Negotiated) (s : UserSession).
Context (Hc : has_cap c CAP_LARGE_FILES = true).
Context {L F : Type} `{LocalDisk L F} (lf : F).
Context (st0 : share_server) (dst : RemoteFile) (q : path) (Hdst : holds st0 (rf_f dst) q []).

Notation up_state := ((share_server * RemoteFile) * L)%type.
Definition uploading (t : up_state) : Prop :=
  lf_reading lf t.2 /\ exists w, t.1 = (with_data q w st0, moved_to dst (len w)) /\ len w < 2 ^ 63.


Lemma local_reads b t : uploading t -> 0 < len b ->
  exists b' n err t', on_snd (lf_Read lf b) t = (Ok (b', (n, err)), t') /\ uploading t' /\
    0 <= n <= len b /\ n <= len (lf_rest lf t.2) /\ len b' = len b /\
    take (Z.to_nat n) b' = take (Z.to_nat n) (lf_rest lf t.2) /\
    lf_rest lf t'.2 = drop (Z.to_nat n) (lf_rest lf t.2) /\
    (err = None -> 0 < n) /\ (err = Some EOF -> lf_rest lf t'.2 = []) /\
    (forall e, err = Some e -> e = EOF \/ ld_error e).
Proof.
  intros [Hr Hw] Hb. destruct (ld_read lf b t.2 Hr Hb) as (b' & n & err & l' & E & Hr' & Hrest).
  exists b', n, err, (t.1, l'). unfold on_snd. rewrite E. split; [done|]. split; [by split|]. exact Hrest.
Qed.

#[local] Instance local_source : Reader (fun b => on_snd (S := share_server * RemoteFile) (lf_Read lf b)) :=
  {| rd_ok := uploading; rd_rest t := lf_rest lf t.2; rd_error := ld_error; rd_law := local_reads |}.




End upload.

(** ** Downloading *)

Section download.
Context (c : Negotiated) (s : UserSession).
Context (Hc : has_cap c CAP_LARGE_FILES = true).
Context {L F : Type} `{LocalDisk L F} (lf : F) (localPath : bytes).
Context (st0 : share_server) (src : RemoteFile) (p : path) (d : bytes).
Context (Hsrc : holds st0 (rf_f src) p d) (Hd : len d < 2 ^ 63).

Notation down_state := ((share_server * RemoteFile) * L)%type.
Definition saved (t : down_state) : bytes := default [] (file_at t.2 localPath).
Definition downloading (t : down_state) : Prop :=
  reading st0 src t.1 /\ lf_writing lf localPath t.2 /\ file_at t.2 localPath = Some (saved t).

Lemma remote_reads b t : downloading t -> 0 < len b ->
  exists b' n err t', own_file (S := L) (on_file (fun f => file_Read c s f b)) t = (Ok (b', (n, err)), t') /\
    downloading t' /\ 0 <= n <= len b /\ n <= len (unread d t.1) /\ len b' = len b /\
    take (Z.to_nat n) b' = take (Z.to_nat n) (unread d t.1) /\
    unread d t'.1 = drop (Z.to_nat n) (unread d t.1) /\ (err = None -> 0 < n) /\
    (err = Some EOF -> unread d t'.1 = []) /\ (forall e, err = Some e -> e = EOF \/ False).
Proof.
  intros [Hr Hw] Hb.
  destruct (reading_law c s Hc st0 src p d Hsrc Hd b t.1 Hr Hb) as (b' & n & err & sf & E & Hr' & Hrest).
  exists b', n, err, (sf, t.2). unfold own_file. rewrite E. split; [done|]. split; [by split|]. exact Hrest.
Qed.

#[local] Instance remote_source : Reader (fun b => own_file (S := L) (on_file (fun f => file_Read c s f b))) :=
  {| rd_ok := downloading; rd_rest t := unread d t.1; rd_error _ := False; rd_law := remote_reads |}.




End download.

(** ** Whole copies *)

Section copies.
Context (fs : Share).
Let c := sh_conn fs.
Let s := sh_session fs.
Context (Hc : has_cap c CAP_LARGE_FILES = true).
Context {L F : Type} `{LocalDisk L F}.






End copies.

(** ** A disk in memory

    Files by name, and what the file being read has still to give; a read gives at
    most three bytes. *)

Definition mem_disk : Type := gmap bytes bytes * bytes.
Definition mem_read_file (b : bytes) : M mem_disk (bytes * (Z * option error)) := fun l =>
  let n := Z.min 3 (Z.min (len b) (len l.2)) in
  (Ok (take (Z.to_nat n) l.2 ++ drop (Z.to_nat n) b, (n, if n =? 0 then Some EOF else None)),
   (l.1, drop (Z.to_nat n) l.2)).
Definition mem_write_file (p b : bytes) : M mem_disk (Z * option error) := fun l =>
  (Ok (len b, None), (<[p := default [] (l.1 !! p) ++ b]> l.1, l.2)).

#[export] Instance mem_files : LocalFiles mem_disk bytes := {|
  os_Open p := fun l => match l.1 !! p with
                        | Some d => (Ok p, (l.1, d)) | None => (Err (PathError "open" p ErrNotExist), l) end;
  os_OpenFile p _ _ := fun l => (Ok p, (<[p := []]> l.1, l.2));
  lf_IsDir _ := ret false;
  lf_Read _ := mem_read_file;
  lf_Write := mem_write_file;
  lf_Close _ := ret ();
|}.

#[export] Program Instance mem_local_disk : LocalDisk mem_disk bytes := {|
  file_at l p := l.1 !! p;
  ld_creatable _ := True;
  ld_error _ := False;
  lf_reading _ _ := True;
  lf_rest _ l := l.2;
  lf_writing f p _ := f = p;
|}.
Next Obligation. intros p d l E. exists p, (l.1, d), (l.1, d). cbn in *. by rewrite E. Qed.
Next Obligation.
  intros f b l _ Hb. set (n := Z.min 3 (Z.min (len b) (len l.2))). pose proof (len_nonneg l.2).
  exists (take (Z.to_nat n) l.2 ++ drop (Z.to_nat n) b), n, (if n =? 0 then Some EOF else None),
    (l.1, drop (Z.to_nat n) l.2).
  split; [done|]. split; [done|]. split; [lia|]. split; [lia|]. split; [autorewrite with len; lia|].
  split; [rewrite take_app_le by (rewrite length_take; unfold len in *; lia); by rewrite take_take, Nat.min_id|].
  split; [done|]. destruct (Z.eqb_spec n 0) as [E0|]; (split; [done || lia|]); (split; [|intros e [= <-] || intros e; by try left]); try done.
  intros _. apply len_0_nil. cbn [snd]. rewrite E0. change (drop (Z.to_nat 0) l.2) with l.2. lia.
Qed.
Next Obligation. intros p perm l _. exists p, (<[p := []]> l.1, l.2). split_and!; [done..|]. apply lookup_insert_eq. Qed.
Next Obligation.
  intros f p w b l -> E. exists (len b), None, (<[p := w ++ b]> l.1, l.2). pose proof (len_nonneg b).
  cbn in E. split; [cbn; unfold mem_write_file; by rewrite E|]. split_and!; try done; try lia.
  cbn [fst]. rewrite lookup_insert_eq. unfold len. by rewrite Nat2Z.id, firstn_all.
Qed.
Next Obligation. intros f l. by exists (Ok ()), l. Qed.

