(* ===== verification/Sessions.v ===== *)
(** * Sessions of the public API ([session.go]: [Session])

    Mounting a share, unmounting it, and logging off.  The state is the
    connection's and the session's; the session's own context is in the former. *)

From S2P Require Export Share.

Section sessions.
Context {T : Type} `{Transport T} (ToUpper : bytes -> bytes) (conn_Close : M T ()).

(** [Mount] on a session of the server at [addr]; the share it returns inherits
    connection and session. *)
Definition session_Mount (NORMALIZE_PATH : bool) (c : Negotiated) (addr sharename : bytes)
  : M (T * UserSession) Share :=
  let* path := lift (mount_path NORMALIZE_PATH addr sharename) in
  let* tree := map_err wrapError (tree_connect ToUpper c path) in
  fun st => (Ok (mkShare c st.2 tree NORMALIZE_PATH), st).

Definition share_Umount (fs : Share) : M (T * UserSession) () :=
  map_err wrapError (tree_disconnect (te_TID (sh_tree fs))).

(** [Logoff]; the session, or the connection ([conn]), may be nil. *)
Definition session_Logoff (session : option UserSession) (conn : bool) : M T () :=
  let close := if conn then map_err wrapError conn_Close else ret () in
  match session with
  | None => close
  | Some s =>
    let* out := attempt (Logoff s) in
    match out with
    | inl _ => close
    | inr e =>
      let* _ := if conn then attempt conn_Close else ret (inl ()) in
      fail (wrapError e)
    end
  end.

(** A name that is no share's sends nothing. *)
Lemma Mount_refused n c addr name e st :
  mount_path n addr name = Err e -> session_Mount n c addr name st = (Err e, st).
Proof. intros E. unfold session_Mount, mbind_M, lift. by rewrite E. Qed.

(** Logging off closes the connection whatever the server answers, once, and
    before it returns. *)
Lemma Logoff_closes session t r t' :
  session_Logoff session true t = (r, t') -> r <> Panic ->
  exists t1, t' = (conn_Close t1).2.
Proof.
  unfold session_Logoff, map_err, attempt, mbind_M, fail, ret.
  destruct session as [s|].
  2: { destruct (conn_Close t) as [[| |] t2] eqn:E; intros [= <- <-] _; exists t; by rewrite E. }
  destruct (Logoff s t) as [[u|e|] t1]; [| |by intros [= <- <-]];
    destruct (conn_Close t1) as [[| |] t2] eqn:E; intros [= <- <-] Hr; try done; exists t1; by rewrite E.
Qed.
End sessions.

(** A mounted share has the tree of the path in upper case, registered under its
    TID; unmounting it takes that tree out of the session and no other. *)
Lemma Mount_Umount {T} `{TransportLaws T} ToUpper n c addr name path t s fs t1 s1 :
  registered s -> mount_path n addr name = Ok path ->
  session_Mount ToUpper n c addr name (t, s) = (Ok fs, (t1, s1)) ->
  te_Path (sh_tree fs) = ToUpper path /\ sh_session fs = s1 /\ sh_conn fs = c /\
  trees s1 !! te_TID (sh_tree fs) = Some (sh_tree fs) /\
  (forall tid, tid <> te_TID (sh_tree fs) -> trees s1 !! tid = trees s !! tid) /\
  forall t2 t3 s3, share_Umount fs (t2, s1) = (Ok (), (t3, s3)) ->
    trees s3 !! te_TID (sh_tree fs) = None /\ uid s3 = uid s /\
    forall tid, tid <> te_TID (sh_tree fs) -> trees s3 !! tid = trees s !! tid.
Proof.
  intros Hs E. unfold session_Mount, map_err, tree_connect, mbind_M, lift. rewrite E. cbn [fst snd].
  destruct (TreeConnect ToUpper c s path t) as [[[p s']|e|] t'] eqn:Ec; [|done..].
  intros [= <- <- <-]. cbn [sh_tree sh_session sh_conn].
  destruct (trees_registered ToUpper c s path t p s' t' Hs Ec) as (_ & Hp & Hpath & Hother & Hu & _ & Hd).
  split; [done|]. split; [done|]. split; [done|]. split; [done|]. split; [done|].
  intros t2 t3 s3. unfold share_Umount, map_err, tree_disconnect. cbn [fst snd sh_tree].
  destruct (TreeDisconnect s' (te_TID p) t2) as [[s4|e|] t4] eqn:Ed; intros [= <- <-].
  destruct (Hd _ _ _ _ Ed) as (_ & Hnone & Hothers & Hu' & _). split; [done|]. split; [done|].
  intros tid Ht. rewrite Hothers by done. by apply Hother.
Qed.

Example Mount_example :
  (let '(r, (t, s)) := session_Mount id true example_negotiated (str "192.168.1.5:445") (str " Public ")
     (tree_script, example_session) in
   (match r with Ok fs => Ok (te_Path (sh_tree fs)) | Err e => Err e | Panic => Panic end,
    length (sent t), trees s !! 3)) =
  (Ok (str "\\192.168.1.5\Public"), 1%nat, Some (mkTree 3 (str "\\192.168.1.5\Public") (str "A:") 1 [])).
Proof. vm_compute. reflexivity. Qed.
